(* ===== verification/_CoqProject ===== *)
-Q . S2P
Prelude.v
Mem.v
KString.v
Riscv.v
Kdefs.v
Trampoline.v
Spinlock.v
Vm.v
PageTable.v
UserVm.v
UvmFree.v
UvmCopy.v
UserCopy.v
Printf.v
KState.v
Uart.v
Proc.v
ProcSpec.v
Console.v
ConsoleSpec.v
Exec.v
Syscall.v
Trap.v
TrapSpec.v
SyscallSpec.v
Boot.v
BootSpec.v
Hoare.v
Triple.v
Locks.v
System.v
Ulib.v
XGrep.v
XStore.v
XBio.v
XLog.v
XTxn.v
XTx.v
XBytes.v
XFs.v
XBlocks.v
XInode.v
XRead.v
XWrite.v
XIupd.v
XFile.v
XTrunc.v
XItable.v
XDir.v
XPath.v
XKalloc.v
XPipe.v
XFtable.v
XFileSpec.v
XSysfile.v
XFdSpec.v
XOpen.v
XMkfs.v
XMkfsSpec.v
XVirtio.v
XVirtioSpec.v
XMalloc.v
XUtils.v
XSh.v
XShSpec.v
