(* ===== verification/Prelude.v ===== *)
(** * Verification of the OSLAB kernel and of parts of its reference system

    The repository holds a small RISC-V teaching kernel (os-kernel/) and the
    xv6 sources it is derived from (reference/xv6-riscv/).  This library
    translates the C code into executable definitions and proves what makes
    it correct.

    ** The parts of the program and the files that model them

    The lab kernel (os-kernel/kernel):
    - [Prelude]: machine integers ([u8], [u32], [s32], [u64] ... write the
      wrap-around out), the outcome monad [M S A] (a routine returns [Ok],
      stops in [Panic] with the message of [panic()], or [Diverge]s), its
      automation, lists of integers.
    - [Mem]: byte-addressed memory.  [KString]: string.c on it.
    - [Riscv]: riscv.h and memlayout.h, the control registers of a hart and the
      page-table arithmetic.  [Kdefs]: proc.h, spinlock.h, param.h.
      [Trampoline]: trampoline.S, the registers saved and restored around a trap.
    - [Spinlock]: spinlock.c with push_off/pop_off nesting.
    - [Vm]: vm.c (bump allocator, Sv39 walk, user address spaces, copyin,
      copyout, copyinstr).  Proofs: [PageTable] (the walk and mappages refine
      an abstract map from virtual pages to entries), [UserVm] (uvmalloc,
      uvmdealloc), [UvmFree] (freewalk, uvmfree), [UvmCopy] (uvmcopy),
      [UserCopy] (the copies between kernel and user memory).
    - [Printf]: printf.c, the formatter as a computation over the state of its
      callback.  [KState]: the whole state of the kernel.  [Uart]: the UART and
      PLIC accesses.  [Console]: console.c; [ConsoleSpec]: the input buffer
      refines a bounded queue, consoleread.
    - [Proc]: proc.c; [ProcSpec]: sleep and wakeup.  [Exec]: exec.c.
      [Syscall]: syscall.c, sysproc.c, sysfile.c; [SyscallSpec].  [Trap]:
      trap.c; [TrapSpec].  [Boot]: start.c, main.c; [BootSpec].
    - [Hoare]: triples over the outcome monad.  [Triple]: the routines that do
      not touch the process table and their automation.  [Locks]: which locks
      each routine holds, acquires and releases.  [System]: the kernel as a
      transition system: the control points of the CPU between two context
      switches, a step relation over them, the invariant of the process table
      and of the locks in every reachable state, and the order in which the
      scheduler tries the slots of the table.
    - [Ulib]: os-kernel/user, the user library, the user printf and the user
      programs over an interface of system calls ([Sys], [SysLaws]).

    The file system of the reference kernel, from the disk upwards; each layer
    is proved against what the layer below promises:
    - [XStore]: the interface [BlockStore] between the buffer cache and the log:
      operations on blocks, an abstract store, and what each operation does to
      it.  [XBio]: kernel/bio.c and sleeplock.c, an instance of the interface.
    - [XLog]: kernel/log.c, verified against the interface.  [XTxn]:
      transactions, [begin_op] to [end_op], interleaved.  [XTx]: what a
      transaction of one process promises to the file system (blocks that are
      read, changed and logged).
    - [XBytes]: bytes, little-endian numbers and bits inside a block.  [XFs]:
      kernel/fs.c, every routine.  Its proofs: [XBlocks] (the free map),
      [XInode] (the blocks of a file), [XRead], [XWrite], [XIupd] (readi,
      writei, inodes on disk), [XFile] (files as byte sequences), [XTrunc]
      (itrunc, iput), [XItable] (inodes in memory), [XDir] (directories),
      [XPath] (path names).
    - [XFtable]: kernel/file.c and [pipealloc]; [XFileSpec]: fileread and
      filewrite.  [XSysfile]: kernel/sysfile.c; [XFdSpec]: file descriptors and
      reference counts; [XOpen]: opening an existing file.
    - [XMkfs]: mkfs/mkfs.c, the first image of the disk; [XMkfsSpec]: the image
      has the invariants that [XBlocks] to [XPath] assume of a disk.
    - [XVirtio]: kernel/virtio_disk.c, the driver of the disk; [XVirtioSpec]: it
      carries out each request once, with the effect that [XBio] uses.

    Other parts of the reference system:
    - [XKalloc]: kernel/kalloc.c.  [XPipe]: kernel/pipe.c, any number of
      processes interleaved.
    - [XMalloc]: user/umalloc.c on the memory of a process.
    - [XGrep], [XUtils]: user/grep.c, wc.c, cat.c over the interface of [Ulib].
    - [XSh], [XShSpec]: the parser of user/sh.c.

    ** How the code is read

    A function is a definition of the same name; where a name is taken, a
    prefix tells the component ([umemset] for the user's memset).  Structures
    are records with one setter per field.  A loop with a syntactic bound is a
    structural recursion or [for_each]; other loops take fuel, and the
    theorems show that it is enough: the digits of a number (64), the
    [S NBUF] steps around the cache's list, the bytes of the input plus one for
    the readers, four levels per character for the shell's parser, one pass per
    interrupt byte for the console; in the file system the size of the disk
    plus one for balloc, the bytes plus one for readi, writei, filewrite and
    mkfs's iappend, the size of the directory plus one for dirlookup, the
    length of the path plus one for namex; the pages plus one for freerange;
    the answers in the ring plus one for the disk interrupt; and for the
    circular list of umalloc.c twice the number of headers that fit below the
    break, and a few.  Functions that
    switch to another process are split at the switch: [scheduler_try] and
    [scheduler_back], [sleep] up to [sched] and after it, and [System] composes
    the parts.  Interrupts in the kernel are taken where it enables them, in the
    scheduler's loop and in the windows of system calls.

    In the reference kernel's components the sections of a spin lock run as one
    step; a process that has to sleep in the buffer cache or in the log does
    not return ([Diverge]), and in a pipe it stops in front of its [sleep()]
    and may be resumed after a wakeup or a kill.  The log is verified for
    interleaved operations; fs.c, file.c and sysfile.c are read as run by one
    process at a time, and the theorems on them speak of transactions of at
    most 28 blocks, which is what the buffer cache can commit.  The disk writes
    whole blocks, one at a time and in order; a crash is a prefix of the
    sequence of writes.

    Devices and what lies outside a component are parameters with laws: the UART
    and the PLIC, the virtio disk, the translation of addresses for the
    trampoline, the memory image of the embedded programs, the system calls for
    user programs, whether the kernel grants a process more memory.  So is the
    memory of user processes for pipes and files: copyin and copyout of the
    reference kernel's vm.c are not modelled (those of the lab kernel are, in
    Vm.v), and the laws of the interface ([XFs.CopyMem]) ask for one predicate
    of the addresses that can be copied, to be read as readable where the
    kernel copies in and as writable where it copies out.  Each class of laws has an instance
    with which the witnesses are evaluated.

    ** What the theorems show

    - Processes: [System.process_table_invariant] (process table, current
      process and locks agree in every reachable state),
      [System.scheduler_round_robin] (the slots are tried in the order of the
      table, round its end, and a runnable process keeps its turn),
      [ProcSpec.no_lost_wakeup].
    - Memory: [PageTable.mappages_refines_map], [UvmCopy.uvmcopy_correct],
      [UvmFree.uvmfree_correct], [UserCopy.copyin_copyout_roundtrip],
      [UserCopy.copyinstr_correct]; [XKalloc.page_allocator_refines_stack];
      [XMalloc.malloc_correct] and [XMalloc.free_correct] (blocks never
      overlap, and freed blocks are joined).
    - Traps and system calls:
      [SyscallSpec.unknown_syscall_returns_minus_one],
      [Trampoline.trapframe_layout] (trampoline.S against struct trapframe).
    - Console and text: [ConsoleSpec.uartintr_refines_queue],
      [Printf.printint_correct],
      [XGrep.re_match_correct], [XShSpec.parse_print_roundtrip],
      [XSh.parsecmd_correct].
    - Disk, cache and log: [XVirtioSpec.virtio_refines_disk],
      [XVirtioSpec.virtio_no_deadlock], [XBio.bread_correct], [XLog.commit_crash_atomic],
      [XTxn.transaction_atomic] (an operation is durable, and all or nothing
      across a crash after any disk write), [XTxn.log_space_reserved] (the log
      never fills up under an operation).
    - Files: [XBlocks.balloc_refines_free_list], [XFile.writei_correct],
      [XFile.write_read_roundtrip],
      [XTrunc.iput_correct], [XItable.iget_correct],
      [XDir.dirlookup_refines_find], [XDir.dirlink_correct],
      [XPath.namex_correct] (paths resolve as the abstract walk does),
      [XMkfsSpec.mkfs_correct] (the first image is a file system with the
      installed files in its root).
    - Open files: [XFileSpec.filewrite_correct], [XFileSpec.fileread_correct],
      [XFileSpec.filewrite_crash_atomic], [XFdSpec.descriptor_counts],
      [XOpen.open_existing_correct].
    - Pipes: [XPipe.pipe_stream], [XPipe.pipe_no_deadlock].

    The component files hold further theorems of the same kind on the other
    operations (string routines, locks, boot, the formatter, the user library).

    ** Not modelled

    The other assembly (entry.S, kernelvec.S, swtch.S) and the build.
    Several CPUs: the lab kernel runs on one.  The original xv6 versions of
    what the lab kernel reimplements (proc.c, vm.c, trap.c, console.c, exec.c
    and so on).  In log.c the [printk] of a recovery.  sys_exec, whose work is exec.c's; the
    execution of commands by the reference shell, which is fork, exec and wait;
    the test programs of user/.  The calls that change the name space (create,
    link, unlink, mkdir, mknod, chdir) are definitions of [XSysfile], built from
    the verified routines, without theorems of their own. *)

From stdpp Require Import base gmap list strings numbers.
From Stdlib Require Import ZArith Lia.

#[global] Open Scope Z_scope.

(** * Machine integers

    An [uint8], [uint], [uint64], [int] of the C code is a [Z]; these
    functions are the conversions to each type (wrap-around written out). *)

Definition u8 (x : Z) : Z := x mod 2 ^ 8.
Definition u32 (x : Z) : Z := x mod 2 ^ 32.
Definition u64 (x : Z) : Z := x mod 2 ^ 64.

Definition s32 (x : Z) : Z :=
  let y := u32 x in if y <? 2 ^ 31 then y else y - 2 ^ 32.
Definition s64 (x : Z) : Z :=
  let y := u64 x in if y <? 2 ^ 63 then y else y - 2 ^ 64.

Lemma u8_range x : 0 <= u8 x < 256.
Proof. unfold u8. apply (Z.mod_pos_bound x 256). lia. Qed.

Lemma u32_range x : 0 <= u32 x < 2 ^ 32.
Proof. unfold u32. apply Z.mod_pos_bound. lia. Qed.

Lemma u64_range x : 0 <= u64 x < 2 ^ 64.
Proof. unfold u64. apply Z.mod_pos_bound. lia. Qed.

Lemma u8_small x : 0 <= x < 256 -> u8 x = x.
Proof. intros. unfold u8. by apply Z.mod_small. Qed.

Lemma u32_small x : 0 <= x < 2 ^ 32 -> u32 x = x.
Proof. intros. unfold u32. by apply Z.mod_small. Qed.

Lemma u64_small x : 0 <= x < 2 ^ 64 -> u64 x = x.
Proof. intros. unfold u64. by apply Z.mod_small. Qed.

Lemma s32_range x : - 2 ^ 31 <= s32 x < 2 ^ 31.
Proof.
  unfold s32. pose proof (u32_range x). cbv zeta.
  destruct (Z.ltb_spec (u32 x) (2 ^ 31)); lia.
Qed.

Lemma s32_small x : - 2 ^ 31 <= x < 2 ^ 31 -> s32 x = x.
Proof.
  intros. unfold s32, u32. cbv zeta.
  destruct (decide (0 <= x)).
  - rewrite Z.mod_small by lia. destruct (Z.ltb_spec x (2 ^ 31)); lia.
  - rewrite <- (Z_mod_plus_full x 1), Z.mod_small by lia.
    destruct (Z.ltb_spec (x + 1 * 2 ^ 32) (2 ^ 31)); lia.
Qed.

Lemma s64_small x : - 2 ^ 63 <= x < 2 ^ 63 -> s64 x = x.
Proof.
  intros. unfold s64, u64. cbv zeta.
  destruct (decide (0 <= x)).
  - rewrite Z.mod_small by lia. destruct (Z.ltb_spec x (2 ^ 63)); lia.
  - rewrite <- (Z_mod_plus_full x 1), Z.mod_small by lia.
    destruct (Z.ltb_spec (x + 1 * 2 ^ 64) (2 ^ 63)); lia.
Qed.

(** * Automation *)

(** [zcase] splits on every boolean comparison of integers in the goal. *)
Ltac zcase1 :=
  match goal with
  | |- context [Z.ltb ?a ?b] => destruct (Z.ltb_spec a b)
  | |- context [Z.leb ?a ?b] => destruct (Z.leb_spec a b)
  | |- context [Z.eqb ?a ?b] => destruct (Z.eqb_spec a b)
  | |- context [decide (?P)] => destruct (decide P)
  end.
Ltac zcase := repeat zcase1.

(** The same on the hypotheses. *)
Ltac zcase_in H :=
  repeat match type of H with
  | context [Z.ltb ?a ?b] => destruct (Z.ltb_spec a b)
  | context [Z.leb ?a ?b] => destruct (Z.leb_spec a b)
  | context [Z.eqb ?a ?b] => destruct (Z.eqb_spec a b)
  | context [decide (?P)] => destruct (decide P)
  end.

Create HintDb oslab.
Create Rewrite HintDb oslab.
#[export] Hint Resolve u8_range u32_range u64_range : oslab.
#[export] Hint Rewrite u8_small u32_small u64_small using lia : oslab.

(** * The outcome monad

    A kernel routine takes a state and returns a value and the new state,
    stops in [panic(msg)], or is still in a loop when its fuel is used up.
    [Diverge] is only ever returned by the loops of the C code that have no
    syntactic bound. *)

Inductive outcome (S A : Type) : Type :=
  | Ok (a : A) (s : S)
  | Panic (msg : string) (s : S)
  | Diverge (s : S).
Arguments Ok {S A} _ _.
Arguments Panic {S A} _ _.
Arguments Diverge {S A} _.

(** The state a run ends in. *)
Definition final {S A} (r : outcome S A) : S :=
  match r with Ok _ s | Panic _ s | Diverge s => s end.

Definition M (S A : Type) : Type := S -> outcome S A.

#[export] Instance M_ret {S} : MRet (M S) := fun A a s => Ok a s.
#[export] Instance M_bind {S} : MBind (M S) := fun A B f m s =>
  match m s with
  | Ok a s' => f a s'
  | Panic e s' => Panic e s'
  | Diverge s' => Diverge s'
  end.

Definition panic {S A} (msg : string) : M S A := fun s => Panic msg s.
Definition get {S} : M S S := fun s => Ok s s.
Definition put {S} (s' : S) : M S unit := fun _ => Ok tt s'.
Definition gets {S A} (f : S -> A) : M S A := fun s => Ok (f s) s.
Definition modify {S} (f : S -> S) : M S unit := fun s => Ok tt (f s).

(** Run a routine of a component on its part of a larger state. *)
Definition zoom {S T A} (g : S -> T) (p : T -> S -> S) (m : M T A) : M S A :=
  fun s =>
    match m (g s) with
    | Ok a t => Ok a (p t s)
    | Panic e t => Panic e (p t s)
    | Diverge t => Diverge (p t s)
    end.

Section Monad.
Context {S : Type}.

Lemma bind_ok {A B} (m : M S A) (f : A -> M S B) s a s' :
  m s = Ok a s' -> (m ≫= f) s = f a s'.
Proof. intros H. unfold mbind, M_bind. by rewrite H. Qed.

Lemma bind_panic {A B} (m : M S A) (f : A -> M S B) s e s' :
  m s = Panic e s' -> (m ≫= f) s = Panic e s'.
Proof. intros H. unfold mbind, M_bind. by rewrite H. Qed.

Lemma bind_ok_inv {A B} (m : M S A) (f : A -> M S B) s b s' :
  (m ≫= f) s = Ok b s' -> exists a s1, m s = Ok a s1 /\ f a s1 = Ok b s'.
Proof. unfold mbind, M_bind. destruct (m s) eqn:E; try done. eauto. Qed.

Lemma bind_gets {A B} (g : S -> A) (f : A -> M S B) s : (gets g ≫= f) s = f (g s) s.
Proof. done. Qed.
Lemma bind_get {B} (f : S -> M S B) s : (get ≫= f) s = f s s.
Proof. done. Qed.
Lemma bind_put {B} s' (f : unit -> M S B) s : (put s' ≫= f) s = f tt s'.
Proof. done. Qed.
Lemma bind_modify {B} g (f : unit -> M S B) s : (modify g ≫= f) s = f tt (g s).
Proof. done. Qed.
Lemma bind_ret {A B} (a : A) (f : A -> M S B) s : (mret a ≫= f) s = f a s.
Proof. done. Qed.
Lemma bind_assoc {A B C} (m : M S A) (f : A -> M S B) (g : B -> M S C) s :
  ((m ≫= f) ≫= g) s = (m ≫= fun a => f a ≫= g) s.
Proof. unfold mbind, M_bind. by destruct (m s). Qed.

Lemma zoom_ok {T A} (g : S -> T) p (m : M T A) s a t :
  m (g s) = Ok a t -> zoom g p m s = Ok a (p t s).
Proof. intros H. unfold zoom. by rewrite H. Qed.
End Monad.

(** Run the primitive steps at the head of a computation. *)
Create Rewrite HintDb monad.
#[export] Hint Rewrite @bind_gets @bind_get @bind_put @bind_modify @bind_ret : monad.
Ltac mstep := autorewrite with monad.
(** Run one routine whose result is known. *)
Ltac mrun E := rewrite (bind_ok _ _ _ _ _ E).

(** Decompose a successful run into its steps. *)
Ltac inv_ok :=
  repeat match goal with
  | H : (_ ≫= _) _ = Ok _ _ |- _ =>
      let a := fresh "a" in let s := fresh "s" in
      let E := fresh "E" in
      apply bind_ok_inv in H as (a & s & E & H)
  | H : mret _ _ = Ok _ _ |- _ => unfold mret, M_ret in H; simplify_eq
  | H : get _ = Ok _ _ |- _ => unfold get in H; simplify_eq
  | H : put _ _ = Ok _ _ |- _ => unfold put in H; simplify_eq
  | H : gets _ _ = Ok _ _ |- _ => unfold gets in H; simplify_eq
  | H : modify _ _ = Ok _ _ |- _ => unfold modify in H; simplify_eq
  | H : panic _ _ = Ok _ _ |- _ => discriminate H
  end.

(** * Lists *)

Definition zseq (lo : Z) (n : nat) : list Z := (fun i => lo + Z.of_nat i) <$> seq 0 n.

Lemma zseq_length lo n : length (zseq lo n) = n.
Proof. unfold zseq. by rewrite length_fmap, length_seq. Qed.

Lemma zseq_cons lo n : zseq lo (S n) = lo :: zseq (lo + 1) n.
Proof.
  unfold zseq. cbn [seq fmap list_fmap]. f_equal; [lia |].
  change (list_fmap nat Z) with (@fmap list _ nat Z).
  rewrite <- fmap_S_seq, <- list_fmap_compose.
  apply list_fmap_ext. intros i x _. unfold compose. lia.
Qed.

Lemma zseq_app lo n m : zseq lo (n + m) = zseq lo n ++ zseq (lo + Z.of_nat n) m.
Proof.
  revert lo. induction n as [|n IH]; intros lo; [by rewrite Z.add_0_r|].
  cbn [Nat.add]. rewrite !zseq_cons, IH. cbn [app]. do 3 f_equal. lia.
Qed.

Lemma zseq_nodup lo n : NoDup (zseq lo n).
Proof. unfold zseq. apply NoDup_fmap_2; [intros i j; lia|apply NoDup_seq]. Qed.

Lemma filter_none {A} (P : A -> Prop) `{!forall x, Decision (P x)} (l : list A) : (forall x, x ∈ l -> ~ P x) -> filter P l = [].
Proof.
  induction l as [|x l IH]; intros Hl; [done|]. rewrite filter_cons_False; [|apply Hl; set_solver].
  apply IH. intros y Hy. apply Hl. set_solver.
Qed.

Lemma filter_ext_in {A} (P Q : A -> Prop) `{!forall x, Decision (P x), !forall x, Decision (Q x)} (l : list A) :
  (forall x, x ∈ l -> P x <-> Q x) -> filter P l = filter Q l.
Proof.
  induction l as [|x l IH]; intros Hl; [done|]. rewrite !filter_cons, IH by set_solver.
  specialize (Hl x ltac:(set_solver)). repeat case_decide; tauto.
Qed.

Lemma zseq_lookup lo n i : (i < n)%nat -> zseq lo n !! i = Some (lo + Z.of_nat i).
Proof. intros. unfold zseq. by rewrite list_lookup_fmap, lookup_seq_lt by lia. Qed.
