(* ===== verification/Mem.v ===== *)
(** Byte-addressed memory objects.

    [mem] is a finite map from addresses to bytes; an address that was never
    written reads as 0.  RAM is one such object, addressed by physical (=
    kernel virtual, the kernel is identity mapped) address; a C array that
    lives in a struct or on the kernel stack is another one, addressed from 0.
    A pointer that the string routines only read may point into the same
    object as their destination ([Here]) or into another one ([There]). *)

From stdpp Require Import base gmap list numbers.
From Stdlib Require Import ZArith Lia.
From S2P Require Import Prelude.

Abbreviation mem := (gmap Z Z).

Definition load8 (m : mem) (a : Z) : Z := u8 (default 0 (m !! a)).
Definition store8 (m : mem) (a v : Z) : mem := <[a := u8 v]> m.

(** Little-endian accesses of [n] bytes. *)
Fixpoint load_le (n : nat) (m : mem) (a : Z) : Z :=
  match n with
  | O => 0
  | S n' => load8 m a + 256 * load_le n' m (a + 1)
  end.

Fixpoint store_le (n : nat) (m : mem) (a v : Z) : mem :=
  match n with
  | O => m
  | S n' => store_le n' (store8 m a v) (a + 1) (v / 256)
  end.

Definition load64 := load_le 8.
Definition store64 := store_le 8.
Arguments load64 : simpl never.
Arguments store64 : simpl never.

(** The bytes of an [n]-byte integer, least significant first, and back. *)
Fixpoint le_bytes (n : nat) (v : Z) : list Z :=
  match n with
  | O => []
  | S n' => u8 v :: le_bytes n' (v / 256)
  end.

Definition load_bytes (m : mem) (a : Z) (n : nat) : list Z := load8 m <$> zseq a n.

Fixpoint store_bytes (m : mem) (a : Z) (l : list Z) : mem :=
  match l with
  | [] => m
  | b :: l' => store_bytes (store8 m a b) (a + 1) l'
  end.

(** A list as a memory object at address 0. *)
Definition obj_of (l : list Z) : mem := store_bytes ∅ 0 l.

(** * Equivalence of objects: the same byte at every address *)

#[export] Instance mem_equiv : Equiv mem := fun m m' => forall a, load8 m a = load8 m' a.

#[export] Instance mem_equivalence : Equivalence (≡@{mem}).
Proof.
  split; [done | by intros m m' H a | intros m1 m2 m3 H12 H23 a].
  by rewrite H12.
Qed.

Lemma load8_store8 m a v b :
  load8 (store8 m a v) b = if decide (a = b) then u8 v else load8 m b.
Proof.
  unfold load8, store8. case_decide as H.
  - subst. rewrite lookup_insert_eq. simpl. apply u8_small, u8_range.
  - by rewrite lookup_insert_ne.
Qed.

Lemma load8_store8_eq m a v : load8 (store8 m a v) a = u8 v.
Proof. rewrite load8_store8. by case_decide. Qed.

Lemma load8_store8_ne m a v b : a <> b -> load8 (store8 m a v) b = load8 m b.
Proof. intros. rewrite load8_store8. by case_decide. Qed.

Lemma load8_range m a : 0 <= load8 m a < 256.
Proof. apply u8_range. Qed.

Lemma u8_load8 m a : u8 (load8 m a) = load8 m a.
Proof. apply u8_small, load8_range. Qed.

#[export] Hint Resolve load8_range : oslab.
#[export] Hint Rewrite u8_load8 load8_store8_eq : oslab.
#[export] Hint Rewrite load8_store8_ne using lia : oslab.

#[export] Instance load8_proper : Proper ((≡) ==> (=) ==> (=)) load8.
Proof. intros m m' H a ? <-. apply H. Qed.

#[export] Instance store8_proper : Proper ((≡) ==> (=) ==> (=) ==> (≡)) store8.
Proof. intros m m' H a ? <- v ? <- b. rewrite !load8_store8. by case_decide. Qed.

Lemma load_le_ext n m m' a :
  (forall b, a <= b < a + Z.of_nat n -> load8 m b = load8 m' b) ->
  load_le n m a = load_le n m' a.
Proof.
  revert a; induction n as [|n IH]; intros a H; simpl; [done |].
  rewrite (H a) by lia. rewrite (IH (a + 1)); [done |]. intros b Hb. apply H. lia.
Qed.

#[export] Instance load_le_proper n : Proper ((≡) ==> (=) ==> (=)) (load_le n).
Proof. intros m m' H a ? <-. apply load_le_ext. intros. apply H. Qed.

Lemma load_le_range n m a : 0 <= load_le n m a < 256 ^ Z.of_nat n.
Proof.
  revert a; induction n as [|n IH]; intros a; simpl load_le; [lia |].
  rewrite Nat2Z.inj_succ, Z.pow_succ_r by lia.
  pose proof (IH (a + 1)). pose proof (load8_range m a). lia.
Qed.

Lemma load64_range m a : 0 <= load64 m a < 2 ^ 64.
Proof. apply (load_le_range 8). Qed.

Lemma load8_store_le n m a v b :
  load8 (store_le n m a v) b =
  if decide (a <= b < a + Z.of_nat n) then u8 (v / 256 ^ (b - a)) else load8 m b.
Proof.
  revert m a v; induction n as [|n IH]; intros m a v; cbn [store_le].
  - rewrite decide_False by lia. done.
  - rewrite IH, load8_store8. repeat case_decide; try lia; try done.
    + f_equal. rewrite Z.div_div by lia. f_equal.
      rewrite <- (Z.pow_succ_r 256 (b - (a + 1))) by lia. f_equal. lia.
    + subst. by rewrite Z.sub_diag, Z.div_1_r.
Qed.

Lemma load8_store_le_ne n m a v b :
  b < a \/ a + Z.of_nat n <= b -> load8 (store_le n m a v) b = load8 m b.
Proof. intros. rewrite load8_store_le, decide_False by lia. done. Qed.

Lemma load_le_store_le n m a v : load_le n (store_le n m a v) a = v mod 256 ^ Z.of_nat n.
Proof.
  revert m a v; induction n as [|n IH]; intros m a v; cbn [load_le store_le].
  - symmetry. apply Z.mod_1_r.
  - rewrite IH, load8_store_le_ne, load8_store8_eq by lia.
    unfold u8. rewrite Nat2Z.inj_succ, Z.pow_succ_r by lia.
    rewrite (Z.rem_mul_r v 256) by lia. change (2 ^ 8) with 256. lia.
Qed.

Lemma load_le_store_le_ne n k m a v b :
  b + Z.of_nat n <= a \/ a + Z.of_nat k <= b ->
  load_le n (store_le k m a v) b = load_le n m b.
Proof. intros. apply load_le_ext. intros. apply load8_store_le_ne. lia. Qed.

Lemma load64_store64 m a v : 0 <= v < 2 ^ 64 -> load64 (store64 m a v) a = v.
Proof. intros. unfold load64, store64. rewrite load_le_store_le. by apply Z.mod_small. Qed.

Lemma load64_store64_ne m a v b :
  b + 8 <= a \/ a + 8 <= b -> load64 (store64 m a v) b = load64 m b.
Proof. intros. apply load_le_store_le_ne. lia. Qed.

Lemma load8_store64_ne m a v b :
  b < a \/ a + 8 <= b -> load8 (store64 m a v) b = load8 m b.
Proof. intros. apply load8_store_le_ne. lia. Qed.

Lemma load_le_zero n m a :
  (forall b, a <= b < a + Z.of_nat n -> load8 m b = 0) -> load_le n m a = 0.
Proof.
  revert a; induction n as [|n IH]; intros a H; simpl; [done |].
  rewrite (H a), IH by (intros; (apply H || idtac); lia). done.
Qed.

Lemma load8_store_bytes m a l b :
  load8 (store_bytes m a l) b =
  if decide (a <= b < a + Z.of_nat (length l))
  then u8 (l !!! Z.to_nat (b - a)) else load8 m b.
Proof.
  revert m a; induction l as [|x l IH]; intros m a; cbn [store_bytes length].
  - rewrite decide_False by lia. done.
  - rewrite IH, load8_store8. repeat case_decide; try lia; try done.
    + by replace (Z.to_nat (b - a)) with (S (Z.to_nat (b - (a + 1)))) by lia.
    + subst. by rewrite Z.sub_diag.
Qed.

Lemma load_bytes_length m a n : length (load_bytes m a n) = n.
Proof. unfold load_bytes. by rewrite length_fmap, zseq_length. Qed.

Lemma load_bytes_lookup m a n i :
  (i < n)%nat -> load_bytes m a n !! i = Some (load8 m (a + Z.of_nat i)).
Proof. intros. unfold load_bytes. by rewrite list_lookup_fmap, zseq_lookup. Qed.

Lemma load_bytes_S m a n : load_bytes m a (S n) = load8 m a :: load_bytes m (a + 1) n.
Proof. unfold load_bytes. by rewrite zseq_cons. Qed.

Lemma load_bytes_ext m m' a n :
  (forall b, a <= b < a + Z.of_nat n -> load8 m b = load8 m' b) ->
  load_bytes m a n = load_bytes m' a n.
Proof.
  revert a; induction n as [|n IH]; intros a H; [done |].
  rewrite !load_bytes_S, (H a) by lia. f_equal. apply IH. intros. apply H. lia.
Qed.

Lemma le_bytes_length n v : length (le_bytes n v) = n.
Proof. revert v; induction n; intros; simpl; auto. Qed.

(** * Source pointers of the string routines *)

Inductive csrc : Type :=
  | Here (a : Z)                        (* into the destination's object *)
  | There (f : Z -> Z) (a : Z).         (* into another object *)

Definition src_read (m : mem) (p : csrc) : Z :=
  match p with Here a => load8 m a | There f a => u8 (f a) end.

Definition src_add (p : csrc) (k : Z) : csrc :=
  match p with Here a => Here (a + k) | There f a => There f (a + k) end.

Lemma src_add_add p i j : src_add (src_add p i) j = src_add p (i + j).
Proof. destruct p; simpl; f_equal; lia. Qed.

Lemma src_add_0 p : src_add p 0 = p.
Proof. destruct p; simpl; f_equal; lia. Qed.

Lemma src_read_range m p : 0 <= src_read m p < 256.
Proof. destruct p; simpl; auto with oslab. Qed.

Lemma u8_src_read m p : u8 (src_read m p) = src_read m p.
Proof. apply u8_small, src_read_range. Qed.
#[export] Hint Rewrite u8_src_read : oslab.
