(* ===== verification/KString.v ===== *)
(** kernel/string.c: the memory and string routines of the kernel.

    The routines that write take the object they write to; the routines that
    only read take views (address-to-byte functions), so that they apply to
    RAM and to C arrays alike.  Counts are [uint]/[int] values: the loops run
    once per byte, and a [Z.to_nat] of the count is their exact bound. *)

From stdpp Require Import base gmap list numbers.
From Stdlib Require Import ZArith Lia.
From S2P Require Import Prelude Mem.

(** * memset *)

Fixpoint memset_loop (k : nat) (dst c i : Z) (m : mem) : mem :=
  match k with
  | O => m
  | S k' => memset_loop k' dst c (i + 1) (store8 m (dst + i) c)
  end.

Definition memset (dst c n : Z) (m : mem) : Z * mem :=
  (dst, memset_loop (Z.to_nat n) dst c 0 m).

(** * memcmp *)

Fixpoint memcmp_loop (k : nat) (v1 v2 : Z -> Z) (i : Z) : Z :=
  match k with
  | O => 0
  | S k' =>
      if negb (u8 (v1 i) =? u8 (v2 i)) then u8 (v1 i) - u8 (v2 i)
      else memcmp_loop k' v1 v2 (i + 1)
  end.

Definition memcmp (v1 v2 : Z -> Z) (n : Z) : Z := memcmp_loop (Z.to_nat n) v1 v2 0.

(** * memmove, memcpy *)

Fixpoint copy_fwd (k : nat) (d : Z) (s : csrc) (m : mem) : mem :=
  match k with
  | O => m
  | S k' => copy_fwd k' (d + 1) (src_add s 1) (store8 m d (src_read m s))
  end.

Fixpoint copy_bwd (k : nat) (d : Z) (s : csrc) (m : mem) : mem :=
  match k with
  | O => m
  | S k' =>
      let d' := d - 1 in
      let s' := src_add s (-1) in
      copy_bwd k' d' s' (store8 m d' (src_read m s'))
  end.

(** [s < d && s + n > d]; pointers into different objects do not overlap. *)
Definition overlaps (d : Z) (s : csrc) (n : Z) : bool :=
  match s with
  | Here a => (a <? d) && (d <? a + n)
  | There _ _ => false
  end.

Definition memmove (dst : Z) (src : csrc) (n : Z) (m : mem) : Z * mem :=
  if n =? 0 then (dst, m)
  else if overlaps dst src n
  then (dst, copy_bwd (Z.to_nat n) (dst + n) (src_add src n) m)
  else (dst, copy_fwd (Z.to_nat n) dst src m).

Definition memcpy (dst : Z) (src : csrc) (n : Z) (m : mem) : Z * mem :=
  memmove dst src n m.

(** * strncmp, strncpy, safestrcpy, strlen *)

Fixpoint strncmp_loop (k : nat) (p q : Z -> Z) (i j : Z) : Z :=
  match k with
  | O => 0
  | S k' =>
      if negb (p i =? 0) && (p i =? q j)
      then strncmp_loop k' p q (i + 1) (j + 1)
      else u8 (p i) - u8 (q j)
  end.

Definition strncmp (p q : Z -> Z) (n : Z) : Z := strncmp_loop (Z.to_nat n) p q 0 0.

(** First loop of [strncpy]: copies up to and including the NUL; returns what
    is left of [n] and of the destination. *)
Fixpoint strncpy_copy (k : nat) (s : Z) (t : csrc) (m : mem) : nat * Z * mem :=
  match k with
  | O => (O, s, m)
  | S k' =>
      let c := src_read m t in
      let m' := store8 m s c in
      if c =? 0 then (k', s + 1, m') else strncpy_copy k' (s + 1) (src_add t 1) m'
  end.

Fixpoint strncpy_fill (k : nat) (s : Z) (m : mem) : mem :=
  match k with
  | O => m
  | S k' => strncpy_fill k' (s + 1) (store8 m s 0)
  end.

Definition strncpy (s : Z) (t : csrc) (n : Z) (m : mem) : Z * mem :=
  let '(k, s', m') := strncpy_copy (Z.to_nat n) s t m in
  (s, strncpy_fill k s' m').

Fixpoint safestrcpy_loop (k : nat) (s : Z) (t : csrc) (m : mem) : Z * mem :=
  match k with
  | O => (s, m)
  | S k' =>
      let c := src_read m t in
      let m' := store8 m s c in
      if c =? 0 then (s + 1, m') else safestrcpy_loop k' (s + 1) (src_add t 1) m'
  end.

Definition safestrcpy (s : Z) (t : csrc) (n : Z) (m : mem) : Z * mem :=
  if n <=? 0 then (s, m)
  else
    let '(s', m') := safestrcpy_loop (Z.to_nat (n - 1)) s t m in
    (s, store8 m' s' 0).

(** [strlen] has no bound in the code; [None] means no NUL in [fuel] bytes. *)
Fixpoint strlen_loop (fuel : nat) (s : Z -> Z) (n : Z) : option Z :=
  match fuel with
  | O => None
  | S f => if s n =? 0 then Some n else strlen_loop f s (n + 1)
  end.

Definition strlen (fuel : nat) (s : Z -> Z) : option Z := strlen_loop fuel s 0.

Arguments memset : simpl never.
Arguments memmove : simpl never.

(** * C strings

    [cstr v i l]: at offset [i] the view [v] holds the bytes [l] (none of
    them NUL) followed by a NUL. *)
Fixpoint cstr (v : Z -> Z) (i : Z) (l : list Z) : Prop :=
  match l with
  | [] => v i = 0
  | c :: l' => v i = c /\ 0 < c < 256 /\ cstr v (i + 1) l'
  end.

(** * Lemmas *)

Lemma memset_loop_load8 k dst c i m b :
  load8 (memset_loop k dst c i m) b =
  if decide (dst + i <= b < dst + i + Z.of_nat k) then u8 c else load8 m b.
Proof.
  revert i m; induction k as [|k IH]; intros i m; cbn [memset_loop].
  - by rewrite decide_False by lia.
  - rewrite IH, load8_store8. repeat case_decide; try lia; done.
Qed.

Lemma memset_load8 dst c n m b :
  0 <= n ->
  load8 (memset dst c n m).2 b =
  if decide (dst <= b < dst + n) then u8 c else load8 m b.
Proof.
  intros. unfold memset; simpl. rewrite memset_loop_load8.
  repeat case_decide; try lia; done.
Qed.

(** The source is read before the forward copy reaches it. *)
Definition fwd_ok (k : nat) (d : Z) (s : csrc) : Prop :=
  match s with Here a => d <= a \/ a + Z.of_nat k <= d | There _ _ => True end.

Definition bwd_ok (d : Z) (s : csrc) : Prop :=
  match s with Here a => a <= d | There _ _ => True end.

Lemma copy_fwd_load8 k d s m b :
  fwd_ok k d s ->
  load8 (copy_fwd k d s m) b =
  if decide (d <= b < d + Z.of_nat k) then src_read m (src_add s (b - d)) else load8 m b.
Proof.
  revert d s m; induction k as [|k IH]; intros d s m Hok; cbn [copy_fwd].
  - by rewrite decide_False by lia.
  - rewrite IH by (destruct s; simpl in *; lia).
    rewrite load8_store8, src_add_add. repeat case_decide; try lia; try done.
    + replace (1 + (b - (d + 1))) with (b - d) by lia.
      destruct s; simpl in *; [|done]. apply load8_store8_ne. lia.
    + subst. by rewrite Z.sub_diag, src_add_0, u8_src_read.
Qed.

Lemma copy_bwd_load8 k d s m b :
  bwd_ok d s ->
  load8 (copy_bwd k d s m) b =
  if decide (d - Z.of_nat k <= b < d) then src_read m (src_add s (b - d)) else load8 m b.
Proof.
  revert d s m; induction k as [|k IH]; intros d s m Hok; cbn [copy_bwd].
  - by rewrite decide_False by lia.
  - cbv zeta. rewrite IH by (destruct s; simpl in *; lia).
    rewrite load8_store8, src_add_add. repeat case_decide; try lia; try done.
    + replace (-1 + (b - (d - 1))) with (b - d) by lia.
      destruct s; simpl in *; [|done]. apply load8_store8_ne. lia.
    + subst. rewrite u8_src_read. do 2 f_equal. lia.
Qed.

Lemma memmove_load8 d s n m b :
  0 <= n ->
  load8 (memmove d s n m).2 b =
  if decide (d <= b < d + n) then src_read m (src_add s (b - d)) else load8 m b.
Proof.
  intros Hn. unfold memmove. destruct (Z.eqb_spec n 0) as [->|Hn0]; simpl.
  { by rewrite decide_False by lia. }
  destruct (overlaps d s n) eqn:Ho; simpl.
  - rewrite copy_bwd_load8, src_add_add.
    + replace (n + (b - (d + n))) with (b - d) by lia.
      repeat case_decide; try lia; done.
    + destruct s; simpl in *; [|done]. apply andb_true_iff in Ho. lia.
  - rewrite copy_fwd_load8.
    + repeat case_decide; try lia; done.
    + destruct s; simpl in *; [|done]. apply andb_false_iff in Ho. lia.
Qed.

#[export] Instance memset_proper dst c n : Proper ((≡) ==> (≡)) (fun m => (memset dst c n m).2).
Proof.
  intros m m' H b. unfold memset; simpl. rewrite !memset_loop_load8. by case_decide.
Qed.

Lemma memcmp_loop_eq k v1 v2 i :
  memcmp_loop k v1 v2 i = 0 <->
  (forall j, i <= j < i + Z.of_nat k -> u8 (v1 j) = u8 (v2 j)).
Proof.
  revert i; induction k as [|k IH]; intros i; cbn [memcmp_loop].
  - split; [intros; lia | done].
  - destruct (Z.eqb_spec (u8 (v1 i)) (u8 (v2 i))) as [E|E]; simpl.
    + rewrite IH. split; intros H j Hj; [|apply H; lia].
      destruct (decide (j = i)) as [->|]; [done | apply H; lia].
    + split; [lia | intros H; destruct E; apply H; lia].
Qed.

Lemma strlen_loop_cstr fuel v i l :
  cstr v i l -> (length l < fuel)%nat ->
  strlen_loop fuel v i = Some (i + Z.of_nat (length l)).
Proof.
  revert i fuel; induction l as [|c l IH]; intros i fuel Hl Hf; simpl in *;
    (destruct fuel as [|fuel]; [lia|]); simpl.
  - rewrite Hl. simpl. f_equal. lia.
  - destruct Hl as (-> & Hc & Hl). destruct (Z.eqb_spec c 0); [lia|].
    rewrite IH by (done || lia). f_equal. lia.
Qed.

Lemma strlen_loop_ge fuel v i n : strlen_loop fuel v i = Some n -> i <= n.
Proof.
  revert i; induction fuel as [|f IH]; intros i H; simpl in H; [done|].
  zcase_in H; [simplify_eq; lia|]. apply IH in H. lia.
Qed.

(** A result of [strlen] is the position of the first NUL. *)
Lemma strlen_loop_first fuel v i n :
  strlen_loop fuel v i = Some n ->
  v n = 0 /\ (forall j, i <= j < n -> v j <> 0).
Proof.
  revert i; induction fuel as [|f IH]; intros i H; simpl in H; [done|].
  destruct (Z.eqb_spec (v i) 0) as [E|E]; [simplify_eq; split; [done|lia]|].
  destruct (IH _ H) as [Hn Hj]. split; [done|]. intros j Hij.
  destruct (decide (j = i)) as [->|]; [done|]. apply Hj. lia.
Qed.

Lemma strncmp_loop_cstr p q i j lp lq :
  cstr p i lp -> cstr q j lq ->
  strncmp_loop (S (length lq)) p q i j = 0 <-> lp = lq.
Proof.
  revert i j lp; induction lq as [|c lq IH]; intros i j lp Hp Hq;
    cbn [strncmp_loop length]; destruct lp as [|d lp]; simpl in Hp, Hq.
  - rewrite Hp, Hq. simpl. done.
  - destruct Hp as (-> & Hd & Hp). rewrite Hq.
    destruct (Z.eqb_spec d 0); [lia|]. simpl.
    rewrite u8_small by lia. split; [change (u8 0) with 0; lia | done].
  - destruct Hq as (-> & Hc & Hq). rewrite Hp. simpl. rewrite (u8_small c) by lia.
    change (u8 0) with 0. split; [lia | done].
  - destruct Hp as (-> & Hd & Hp). destruct Hq as (-> & Hc & Hq).
    destruct (Z.eqb_spec d 0); [lia|].
    destruct (Z.eqb_spec d c) as [->|Hne]; simpl.
    + change (strncmp_loop (S (length lq)) p q (i + 1) (j + 1) = 0 <-> c :: lp = c :: lq).
      rewrite (IH _ _ _ Hp Hq). split; congruence.
    + rewrite !u8_small by lia. split; [lia | congruence].
Qed.

Lemma cstr_ext v w i l :
  (forall j, i <= j <= i + Z.of_nat (length l) -> v j = w j) -> cstr v i l -> cstr w i l.
Proof.
  revert i; induction l as [|c l IH]; intros i H; simpl.
  - rewrite (H i) by (simpl; lia). done.
  - rewrite (H i) by (simpl; lia). intros (? & ? & ?). split; [done|]. split; [done|].
    apply IH; [|done]. intros. apply H. simpl. lia.
Qed.

(** ** safestrcpy *)

Lemma safestrcpy_loop_bounds k s t m s' m' :
  safestrcpy_loop k s t m = (s', m') ->
  s <= s' <= s + Z.of_nat k /\
  (forall b, ~ (s <= b < s + Z.of_nat k) -> load8 m' b = load8 m b).
Proof.
  revert s t m; induction k as [|k IH]; intros s t m H; simpl in H.
  { simplify_eq. split; [lia | done]. }
  destruct (Z.eqb_spec (src_read m t) 0); [simplify_eq|].
  - split; [lia|]. intros b Hb. apply load8_store8_ne. lia.
  - apply IH in H as [Hs Hm]. split; [lia|]. intros b Hb.
    rewrite Hm by lia. apply load8_store8_ne. lia.
Qed.

Lemma safestrcpy_loop_cstr k s f a l m :
  cstr (fun x => u8 (f x)) a l ->
  let '(s', m') := safestrcpy_loop k s (There f a) m in
  cstr (load8 (store8 m' s' 0)) s (take k l).
Proof.
  revert s a l m; induction k as [|k IH]; intros s a l m Hl; cbn [safestrcpy_loop].
  { simpl. apply load8_store8_eq. }
  destruct l as [|c l]; simpl in Hl; cbn [src_read src_add].
  - rewrite Hl. simpl. rewrite load8_store8_ne by lia. apply load8_store8_eq.
  - destruct Hl as (-> & Hc & Hl). destruct (Z.eqb_spec c 0); [lia|].
    specialize (IH (s + 1) (a + 1) l (store8 m s c) Hl).
    destruct (safestrcpy_loop k (s + 1) (There f (a + 1)) (store8 m s c)) as [s' m'] eqn:E.
    apply safestrcpy_loop_bounds in E as [Hs' Hm'].
    simpl. split_and!; [|lia|lia|exact IH].
    rewrite load8_store8_ne, Hm', load8_store8_eq by lia. apply u8_small. lia.
Qed.

(** ** strncpy *)

Lemma strncpy_fill_load8 k s m b :
  load8 (strncpy_fill k s m) b =
  if decide (s <= b < s + Z.of_nat k) then 0 else load8 m b.
Proof.
  revert s m; induction k as [|k IH]; intros s m; cbn [strncpy_fill].
  - by rewrite decide_False by lia.
  - rewrite IH, load8_store8. repeat case_decide; try lia; done.
Qed.

Lemma strncpy_copy_spec k s f a l m :
  cstr (fun x => u8 (f x)) a l ->
  let '(k', s', m') := strncpy_copy k s (There f a) m in
  forall b, load8 (strncpy_fill k' s' m') b =
    if decide (s <= b < s + Z.of_nat k)
    then default 0 (l !! Z.to_nat (b - s)) else load8 m b.
Proof.
  revert s a l m; induction k as [|k IH]; intros s a l m Hl; cbn [strncpy_copy].
  { intros b. simpl. by rewrite decide_False by lia. }
  destruct l as [|c l]; simpl in Hl; cbn [src_read src_add].
  - rewrite Hl. simpl. intros b. rewrite strncpy_fill_load8, load8_store8.
    repeat case_decide; try lia; try done; by rewrite ?lookup_nil.
  - destruct Hl as (-> & Hc & Hl). destruct (Z.eqb_spec c 0); [lia|].
    specialize (IH (s + 1) (a + 1) l (store8 m s c) Hl).
    destruct (strncpy_copy k (s + 1) (There f (a + 1)) (store8 m s c)) as [[k' s'] m'].
    intros b. rewrite IH, load8_store8. repeat case_decide; try lia; try done.
    + by replace (Z.to_nat (b - s)) with (S (Z.to_nat (b - (s + 1)))) by lia.
    + subst. rewrite Z.sub_diag. simpl. apply u8_small. lia.
Qed.

(** * Theorems *)

(** [memmove] copies correctly whatever the overlap: afterwards each byte
    of [dst, dst+n) is the byte the source had at the same offset before the
    call, and every other byte of the object is unchanged; it returns [dst]. *)
Theorem memmove_correct dst src n m :
  0 <= n ->
  (memmove dst src n m).1 = dst /\
  (forall b, load8 (memmove dst src n m).2 b =
     if decide (dst <= b < dst + n)
     then src_read m (src_add src (b - dst)) else load8 m b).
Proof.
  intros Hn. split; [|intros b; by apply memmove_load8].
  unfold memmove. zcase; [done|]. by destruct (overlaps dst src n).
Qed.

Lemma memmove_correct_witness :
  (memmove 2 (Here 0) 4 (obj_of [1; 2; 3; 4; 5; 6])).1 = 2 /\
  (forall b, load8 (memmove 2 (Here 0) 4 (obj_of [1; 2; 3; 4; 5; 6])).2 b =
     if decide (2 <= b < 2 + 4)
     then src_read (obj_of [1; 2; 3; 4; 5; 6]) (src_add (Here 0) (b - 2))
     else load8 (obj_of [1; 2; 3; 4; 5; 6]) b).
Proof. apply (memmove_correct 2 (Here 0) 4). lia. Defined.

(** [safestrcpy] with a positive size always leaves a NUL-terminated
    string, namely the source cut to [n - 1] bytes, and writes only to
    [s, s+n). *)
Theorem safestrcpy_correct s f a l n m :
  0 < n -> cstr (fun x => u8 (f x)) a l ->
  let r := safestrcpy s (There f a) n m in
  r.1 = s /\
  cstr (load8 r.2) s (take (Z.to_nat (n - 1)) l) /\
  (forall b, ~ (s <= b < s + n) -> load8 r.2 b = load8 m b).
Proof.
  intros Hn Hl. unfold safestrcpy. destruct (Z.leb_spec n 0); [lia|].
  pose proof (safestrcpy_loop_cstr (Z.to_nat (n - 1)) s f a l m Hl) as Hc.
  destruct (safestrcpy_loop (Z.to_nat (n - 1)) s (There f a) m) as [s' m'] eqn:E.
  apply safestrcpy_loop_bounds in E as [Hs' Hm']. simpl.
  split_and!; [done | done |]. intros b Hb.
  rewrite load8_store8_ne by lia. apply Hm'. lia.
Qed.

Lemma safestrcpy_correct_witness :
  let r := safestrcpy 0 (There (load8 (obj_of [115; 104; 0])) 0) 2 ∅ in
  r.1 = 0 /\ cstr (load8 r.2) 0 (take (Z.to_nat (2 - 1)) [115; 104]) /\
  (forall b, ~ (0 <= b < 0 + 2) -> load8 r.2 b = load8 ∅ b).
Proof.
  apply (safestrcpy_correct 0 (load8 (obj_of [115; 104; 0])) 0 [115; 104] 2 ∅); [lia|].
  vm_compute. repeat split; congruence.
Defined.

(** [strncmp] bounded by the length of the second string plus its NUL
    returns 0 exactly when the two strings are equal (this is how
    [find_uprog] compares names). *)
Theorem strncmp_equal_iff p q lp lq :
  cstr p 0 lp -> cstr q 0 lq ->
  strncmp p q (Z.of_nat (length lq) + 1) = 0 <-> lp = lq.
Proof.
  intros Hp Hq. unfold strncmp.
  replace (Z.to_nat (Z.of_nat (length lq) + 1)) with (S (length lq)) by lia.
  by apply strncmp_loop_cstr.
Qed.

Lemma strncmp_equal_iff_witness :
  strncmp (load8 (obj_of [104; 105; 0])) (load8 (obj_of [104; 0])) (Z.of_nat 1 + 1) = 0
  <-> [104; 105] = [104].
Proof.
  apply (strncmp_equal_iff (load8 (obj_of [104; 105; 0])) (load8 (obj_of [104; 0]))
           [104; 105] [104]); vm_compute; repeat split; congruence.
Defined.

(** [strncpy] fills exactly the [n] bytes of the destination: the source
    string cut to [n] bytes, padded with NULs. *)
Theorem strncpy_correct s f a l n m b :
  cstr (fun x => u8 (f x)) a l ->
  load8 (strncpy s (There f a) n m).2 b =
  if decide (s <= b < s + Z.of_nat (Z.to_nat n))
  then default 0 (l !! Z.to_nat (b - s)) else load8 m b.
Proof.
  intros Hl. unfold strncpy.
  pose proof (strncpy_copy_spec (Z.to_nat n) s f a l m Hl) as H.
  destruct (strncpy_copy (Z.to_nat n) s (There f a) m) as [[k' s'] m']. apply H.
Qed.

Lemma strncpy_correct_witness :
  load8 (strncpy 0 (There (load8 (obj_of [104; 105; 0])) 0) 4 ∅).2 3 =
  if decide (0 <= 3 < 0 + Z.of_nat (Z.to_nat 4))
  then default 0 ([104; 105] !! Z.to_nat (3 - 0)) else load8 ∅ 3.
Proof.
  apply (strncpy_correct 0 (load8 (obj_of [104; 105; 0])) 0 [104; 105] 4 ∅ 3).
  vm_compute. repeat split; congruence.
Defined.

(** Clients use the lemmas above, not the loops. *)
#[global] Opaque memset memmove.
