(* ===== verification/Riscv.v ===== *)
(** kernel/riscv.h and kernel/memlayout.h: the control and status registers of
    a hart with their accessors, the Sv39 page-table macros, and the physical
    and virtual memory layout.

    A hart is its CSRs and the [tp] register.  [sstatus] is kept as a register
    of its own: no bit that the code writes through [mstatus] is read through
    [sstatus] or the other way round. *)

From stdpp Require Import base list numbers.
From Stdlib Require Import ZArith Lia.
From S2P Require Import Prelude.

(** * The registers of a hart *)

Record hart : Type := mkHart {
  h_mhartid : Z;
  h_mstatus : Z;
  h_mepc : Z;
  h_sstatus : Z;
  h_sip : Z;
  h_sie : Z;
  h_mie : Z;
  h_sepc : Z;
  h_medeleg : Z;
  h_mideleg : Z;
  h_stvec : Z;
  h_stimecmp : Z;
  h_menvcfg : Z;
  h_pmpcfg0 : Z;
  h_pmpaddr0 : Z;
  h_satp : Z;
  h_scause : Z;
  h_stval : Z;
  h_mcounteren : Z;
  h_time : Z;
  h_tp : Z
}.

Definition zero_hart : hart :=
  mkHart 0 0 0 0 0 0 0 0 0 0 0 0 0 0 0 0 0 0 0 0 0.

(** ** Reads *)

Definition r_mhartid (h : hart) : Z := h_mhartid h.
Definition r_mstatus (h : hart) : Z := h_mstatus h.
Definition r_sstatus (h : hart) : Z := h_sstatus h.
Definition r_sip (h : hart) : Z := h_sip h.
Definition r_sie (h : hart) : Z := h_sie h.
Definition r_mie (h : hart) : Z := h_mie h.
Definition r_sepc (h : hart) : Z := h_sepc h.
Definition r_medeleg (h : hart) : Z := h_medeleg h.
Definition r_mideleg (h : hart) : Z := h_mideleg h.
Definition r_stvec (h : hart) : Z := h_stvec h.
Definition r_stimecmp (h : hart) : Z := h_stimecmp h.
Definition r_menvcfg (h : hart) : Z := h_menvcfg h.
Definition r_satp (h : hart) : Z := h_satp h.
Definition r_scause (h : hart) : Z := h_scause h.
Definition r_stval (h : hart) : Z := h_stval h.
Definition r_mcounteren (h : hart) : Z := h_mcounteren h.
Definition r_time (h : hart) : Z := h_time h.
Definition r_tp (h : hart) : Z := h_tp h.

(** ** Writes *)

Definition w_mstatus (x : Z) (h : hart) : hart :=
  mkHart (h_mhartid h) (u64 x) (h_mepc h) (h_sstatus h) (h_sip h) (h_sie h) (h_mie h) (h_sepc h) (h_medeleg h) (h_mideleg h) (h_stvec h) (h_stimecmp h) (h_menvcfg h) (h_pmpcfg0 h) (h_pmpaddr0 h) (h_satp h) (h_scause h) (h_stval h) (h_mcounteren h) (h_time h) (h_tp h).
Definition w_mepc (x : Z) (h : hart) : hart :=
  mkHart (h_mhartid h) (h_mstatus h) (u64 x) (h_sstatus h) (h_sip h) (h_sie h) (h_mie h) (h_sepc h) (h_medeleg h) (h_mideleg h) (h_stvec h) (h_stimecmp h) (h_menvcfg h) (h_pmpcfg0 h) (h_pmpaddr0 h) (h_satp h) (h_scause h) (h_stval h) (h_mcounteren h) (h_time h) (h_tp h).
Definition w_sstatus (x : Z) (h : hart) : hart :=
  mkHart (h_mhartid h) (h_mstatus h) (h_mepc h) (u64 x) (h_sip h) (h_sie h) (h_mie h) (h_sepc h) (h_medeleg h) (h_mideleg h) (h_stvec h) (h_stimecmp h) (h_menvcfg h) (h_pmpcfg0 h) (h_pmpaddr0 h) (h_satp h) (h_scause h) (h_stval h) (h_mcounteren h) (h_time h) (h_tp h).
Definition w_sip (x : Z) (h : hart) : hart :=
  mkHart (h_mhartid h) (h_mstatus h) (h_mepc h) (h_sstatus h) (u64 x) (h_sie h) (h_mie h) (h_sepc h) (h_medeleg h) (h_mideleg h) (h_stvec h) (h_stimecmp h) (h_menvcfg h) (h_pmpcfg0 h) (h_pmpaddr0 h) (h_satp h) (h_scause h) (h_stval h) (h_mcounteren h) (h_time h) (h_tp h).
Definition w_sie (x : Z) (h : hart) : hart :=
  mkHart (h_mhartid h) (h_mstatus h) (h_mepc h) (h_sstatus h) (h_sip h) (u64 x) (h_mie h) (h_sepc h) (h_medeleg h) (h_mideleg h) (h_stvec h) (h_stimecmp h) (h_menvcfg h) (h_pmpcfg0 h) (h_pmpaddr0 h) (h_satp h) (h_scause h) (h_stval h) (h_mcounteren h) (h_time h) (h_tp h).
Definition w_mie (x : Z) (h : hart) : hart :=
  mkHart (h_mhartid h) (h_mstatus h) (h_mepc h) (h_sstatus h) (h_sip h) (h_sie h) (u64 x) (h_sepc h) (h_medeleg h) (h_mideleg h) (h_stvec h) (h_stimecmp h) (h_menvcfg h) (h_pmpcfg0 h) (h_pmpaddr0 h) (h_satp h) (h_scause h) (h_stval h) (h_mcounteren h) (h_time h) (h_tp h).
Definition w_sepc (x : Z) (h : hart) : hart :=
  mkHart (h_mhartid h) (h_mstatus h) (h_mepc h) (h_sstatus h) (h_sip h) (h_sie h) (h_mie h) (u64 x) (h_medeleg h) (h_mideleg h) (h_stvec h) (h_stimecmp h) (h_menvcfg h) (h_pmpcfg0 h) (h_pmpaddr0 h) (h_satp h) (h_scause h) (h_stval h) (h_mcounteren h) (h_time h) (h_tp h).
Definition w_medeleg (x : Z) (h : hart) : hart :=
  mkHart (h_mhartid h) (h_mstatus h) (h_mepc h) (h_sstatus h) (h_sip h) (h_sie h) (h_mie h) (h_sepc h) (u64 x) (h_mideleg h) (h_stvec h) (h_stimecmp h) (h_menvcfg h) (h_pmpcfg0 h) (h_pmpaddr0 h) (h_satp h) (h_scause h) (h_stval h) (h_mcounteren h) (h_time h) (h_tp h).
Definition w_mideleg (x : Z) (h : hart) : hart :=
  mkHart (h_mhartid h) (h_mstatus h) (h_mepc h) (h_sstatus h) (h_sip h) (h_sie h) (h_mie h) (h_sepc h) (h_medeleg h) (u64 x) (h_stvec h) (h_stimecmp h) (h_menvcfg h) (h_pmpcfg0 h) (h_pmpaddr0 h) (h_satp h) (h_scause h) (h_stval h) (h_mcounteren h) (h_time h) (h_tp h).
Definition w_stvec (x : Z) (h : hart) : hart :=
  mkHart (h_mhartid h) (h_mstatus h) (h_mepc h) (h_sstatus h) (h_sip h) (h_sie h) (h_mie h) (h_sepc h) (h_medeleg h) (h_mideleg h) (u64 x) (h_stimecmp h) (h_menvcfg h) (h_pmpcfg0 h) (h_pmpaddr0 h) (h_satp h) (h_scause h) (h_stval h) (h_mcounteren h) (h_time h) (h_tp h).
Definition w_stimecmp (x : Z) (h : hart) : hart :=
  mkHart (h_mhartid h) (h_mstatus h) (h_mepc h) (h_sstatus h) (h_sip h) (h_sie h) (h_mie h) (h_sepc h) (h_medeleg h) (h_mideleg h) (h_stvec h) (u64 x) (h_menvcfg h) (h_pmpcfg0 h) (h_pmpaddr0 h) (h_satp h) (h_scause h) (h_stval h) (h_mcounteren h) (h_time h) (h_tp h).
Definition w_menvcfg (x : Z) (h : hart) : hart :=
  mkHart (h_mhartid h) (h_mstatus h) (h_mepc h) (h_sstatus h) (h_sip h) (h_sie h) (h_mie h) (h_sepc h) (h_medeleg h) (h_mideleg h) (h_stvec h) (h_stimecmp h) (u64 x) (h_pmpcfg0 h) (h_pmpaddr0 h) (h_satp h) (h_scause h) (h_stval h) (h_mcounteren h) (h_time h) (h_tp h).
Definition w_pmpcfg0 (x : Z) (h : hart) : hart :=
  mkHart (h_mhartid h) (h_mstatus h) (h_mepc h) (h_sstatus h) (h_sip h) (h_sie h) (h_mie h) (h_sepc h) (h_medeleg h) (h_mideleg h) (h_stvec h) (h_stimecmp h) (h_menvcfg h) (u64 x) (h_pmpaddr0 h) (h_satp h) (h_scause h) (h_stval h) (h_mcounteren h) (h_time h) (h_tp h).
Definition w_pmpaddr0 (x : Z) (h : hart) : hart :=
  mkHart (h_mhartid h) (h_mstatus h) (h_mepc h) (h_sstatus h) (h_sip h) (h_sie h) (h_mie h) (h_sepc h) (h_medeleg h) (h_mideleg h) (h_stvec h) (h_stimecmp h) (h_menvcfg h) (h_pmpcfg0 h) (u64 x) (h_satp h) (h_scause h) (h_stval h) (h_mcounteren h) (h_time h) (h_tp h).
Definition w_satp (x : Z) (h : hart) : hart :=
  mkHart (h_mhartid h) (h_mstatus h) (h_mepc h) (h_sstatus h) (h_sip h) (h_sie h) (h_mie h) (h_sepc h) (h_medeleg h) (h_mideleg h) (h_stvec h) (h_stimecmp h) (h_menvcfg h) (h_pmpcfg0 h) (h_pmpaddr0 h) (u64 x) (h_scause h) (h_stval h) (h_mcounteren h) (h_time h) (h_tp h).
Definition w_mcounteren (x : Z) (h : hart) : hart :=
  mkHart (h_mhartid h) (h_mstatus h) (h_mepc h) (h_sstatus h) (h_sip h) (h_sie h) (h_mie h) (h_sepc h) (h_medeleg h) (h_mideleg h) (h_stvec h) (h_stimecmp h) (h_menvcfg h) (h_pmpcfg0 h) (h_pmpaddr0 h) (h_satp h) (h_scause h) (h_stval h) (u64 x) (h_time h) (h_tp h).
Definition w_tp (x : Z) (h : hart) : hart :=
  mkHart (h_mhartid h) (h_mstatus h) (h_mepc h) (h_sstatus h) (h_sip h) (h_sie h) (h_mie h) (h_sepc h) (h_medeleg h) (h_mideleg h) (h_stvec h) (h_stimecmp h) (h_menvcfg h) (h_pmpcfg0 h) (h_pmpaddr0 h) (h_satp h) (h_scause h) (h_stval h) (h_mcounteren h) (h_time h) (u64 x).

(** ** Status bits *)

Definition MSTATUS_MPP_MASK : Z := Z.shiftl 3 11.
Definition MSTATUS_MPP_S : Z := Z.shiftl 1 11.
Definition SSTATUS_SPP : Z := Z.shiftl 1 8.
Definition SSTATUS_SPIE : Z := Z.shiftl 1 5.
Definition SSTATUS_SIE : Z := Z.shiftl 1 1.
Definition SIE_SEIE : Z := Z.shiftl 1 9.
Definition SIE_STIE : Z := Z.shiftl 1 5.
Definition MENVCFG_STCE : Z := Z.shiftl 1 63.

(** csrs / csrc: set and clear bits. *)
Definition s_sstatus (x : Z) (h : hart) : hart := w_sstatus (Z.lor (r_sstatus h) x) h.
Definition c_sstatus (x : Z) (h : hart) : hart := w_sstatus (Z.ldiff (r_sstatus h) x) h.
Definition rc_sstatus (x : Z) (h : hart) : Z * hart := (r_sstatus h, c_sstatus x h).

Definition intr_on (h : hart) : hart := s_sstatus SSTATUS_SIE h.
Definition intr_off (h : hart) : hart := c_sstatus SSTATUS_SIE h.
Definition intr_get (h : hart) : bool := negb (Z.land (r_sstatus h) SSTATUS_SIE =? 0).

(** The hardware's part of a trap into supervisor mode: the previous mode
    ([SPP]) and enable bit ([SPIE]) are saved, interrupts are disabled, and
    [sepc], [scause], [stval] are written; and [sret]. *)
Definition hw_trap (from_s : bool) (cause epc tval : Z) (h : hart) : hart :=
  let st := r_sstatus h in
  let st' := Z.ldiff (Z.ldiff (Z.ldiff st SSTATUS_SPP) SSTATUS_SPIE) SSTATUS_SIE in
  let st' := if intr_get h then Z.lor st' SSTATUS_SPIE else st' in
  let st' := if from_s then Z.lor st' SSTATUS_SPP else st' in
  let h := w_sstatus st' h in
  let h := w_sepc epc h in
  mkHart (h_mhartid h) (h_mstatus h) (h_mepc h) (h_sstatus h) (h_sip h) (h_sie h) (h_mie h) (h_sepc h) (h_medeleg h) (h_mideleg h) (h_stvec h) (h_stimecmp h) (h_menvcfg h) (h_pmpcfg0 h) (h_pmpaddr0 h) (h_satp h) (u64 cause) (u64 tval) (h_mcounteren h) (h_time h) (h_tp h).

Definition hw_sret (h : hart) : hart :=
  let st := r_sstatus h in
  let spie := negb (Z.land st SSTATUS_SPIE =? 0) in
  let st' := Z.lor (Z.ldiff (Z.ldiff st SSTATUS_SPP) SSTATUS_SIE) SSTATUS_SPIE in
  w_sstatus (if spie then Z.lor st' SSTATUS_SIE else st') h.

(** * Address translation *)

Definition SATP_SV39 : Z := Z.shiftl 8 60.
Definition MAKE_SATP (pagetable : Z) : Z := Z.lor SATP_SV39 (Z.shiftr pagetable 12).

Definition PGSIZE : Z := 4096.
Definition PGSHIFT : Z := 12.
Definition PGROUNDUP (sz : Z) : Z := Z.land (u64 (sz + PGSIZE - 1)) (Z.lnot (PGSIZE - 1)).
Definition PGROUNDDOWN (a : Z) : Z := Z.land a (Z.lnot (PGSIZE - 1)).

Definition PTE_V : Z := Z.shiftl 1 0.
Definition PTE_R : Z := Z.shiftl 1 1.
Definition PTE_W : Z := Z.shiftl 1 2.
Definition PTE_X : Z := Z.shiftl 1 3.
Definition PTE_U : Z := Z.shiftl 1 4.

Definition PA2PTE (pa : Z) : Z := u64 (Z.shiftl (Z.shiftr pa 12) 10).
Definition PTE2PA (pte : Z) : Z := u64 (Z.shiftl (Z.shiftr pte 10) 12).
Definition PTE_FLAGS (pte : Z) : Z := Z.land pte 0x3FF.

Definition PXMASK : Z := 0x1FF.
Definition PXSHIFT (level : Z) : Z := PGSHIFT + 9 * level.
Definition PX (level va : Z) : Z := Z.land (Z.shiftr va (PXSHIFT level)) PXMASK.

Definition MAXVA : Z := Z.shiftl 1 (9 + 9 + 9 + 12 - 1).

(** * Memory layout *)

Definition UART0 : Z := 0x10000000.
Definition UART0_IRQ : Z := 10.
Definition PLIC : Z := 0x0c000000.
Definition PLIC_SENABLE (hartid : Z) : Z := PLIC + 0x2080 + hartid * 0x100.
Definition PLIC_SPRIORITY (hartid : Z) : Z := PLIC + 0x201000 + hartid * 0x2000.
Definition PLIC_SCLAIM (hartid : Z) : Z := PLIC + 0x201004 + hartid * 0x2000.
Definition KERNBASE : Z := 0x80000000.
Definition PHYSTOP : Z := KERNBASE + 128 * 1024 * 1024.
Definition TRAMPOLINE : Z := MAXVA - PGSIZE.
Definition KSTACK (p : Z) : Z := TRAMPOLINE - (p + 1) * 2 * PGSIZE.
Definition TRAPFRAME : Z := TRAMPOLINE - PGSIZE.

Arguments PX : simpl never.
Arguments PA2PTE : simpl never.
Arguments PTE2PA : simpl never.
Arguments PGROUNDUP : simpl never.
Arguments PGROUNDDOWN : simpl never.
Arguments Z.lor : simpl never.
Arguments Z.land : simpl never.

(** * Bit-level lemmas *)

Lemma land_bit x n : 0 <= n -> (Z.land x (Z.shiftl 1 n) =? 0) = negb (Z.testbit x n).
Proof.
  intros Hn. rewrite Z.shiftl_1_l. destruct (Z.eqb_spec (Z.land x (2 ^ n)) 0) as [E|E].
  - assert (Z.testbit (Z.land x (2 ^ n)) n = false) as H by (rewrite E; apply Z.bits_0).
    rewrite Z.land_spec, Z.pow2_bits_true, andb_true_r in H by lia. by rewrite H.
  - destruct (Z.testbit x n) eqn:Hb; [done|]. destruct E. apply Z.bits_inj'. intros k Hk.
    rewrite Z.bits_0, Z.land_spec. destruct (decide (k = n)) as [->|].
    + by rewrite Hb.
    + rewrite Z.pow2_bits_false by lia. by rewrite andb_false_r.
Qed.

Lemma land_lnot_ones a n : 0 <= n -> Z.land a (Z.lnot (Z.ones n)) = 2 ^ n * (a / 2 ^ n).
Proof.
  intros. rewrite <- Z.ldiff_land.
  rewrite Z.ldiff_ones_r, Z.shiftl_mul_pow2, Z.shiftr_div_pow2 by lia. lia.
Qed.

Lemma PGROUNDDOWN_eq a : PGROUNDDOWN a = 4096 * (a / 4096).
Proof. unfold PGROUNDDOWN, PGSIZE. apply (land_lnot_ones a 12). lia. Qed.

Lemma PGROUNDUP_eq sz :
  0 <= sz -> sz + 4095 < 2 ^ 64 -> PGROUNDUP sz = 4096 * ((sz + 4095) / 4096).
Proof.
  intros. unfold PGROUNDUP, PGSIZE. rewrite u64_small by lia.
  replace (sz + 4096 - 1) with (sz + 4095) by lia. apply (land_lnot_ones _ 12). lia.
Qed.

Lemma PX_eq level va : 0 <= level -> PX level va = (va / 2 ^ (12 + 9 * level)) mod 512.
Proof.
  intros. unfold PX, PXSHIFT, PGSHIFT, PXMASK.
  rewrite Z.shiftr_div_pow2 by lia. apply (Z.land_ones _ 9). lia.
Qed.

Lemma PX_range level va : 0 <= level -> 0 <= PX level va < 512.
Proof. intros. rewrite PX_eq by lia. apply Z.mod_pos_bound. lia. Qed.

(** The three indices determine the page number of a Sv39 address. *)
Lemma PX_inj va va' :
  0 <= va < MAXVA -> 0 <= va' < MAXVA ->
  PX 2 va = PX 2 va' -> PX 1 va = PX 1 va' -> PX 0 va = PX 0 va' ->
  va / 4096 = va' / 4096.
Proof.
  intros Hv Hv'. rewrite !PX_eq by lia. change (2 ^ (12 + 9 * 2)) with (4096 * 512 * 512).
  change (2 ^ (12 + 9 * 1)) with (4096 * 512). change (2 ^ (12 + 9 * 0)) with 4096.
  change MAXVA with (4096 * 512 * 512 * 256) in *.
  rewrite <- !Z.div_div by lia. intros H2 H1 H0.
  pose proof (Z.div_mod (va / 4096) 512 ltac:(lia)).
  pose proof (Z.div_mod (va' / 4096) 512 ltac:(lia)).
  pose proof (Z.div_mod (va / 4096 / 512) 512 ltac:(lia)).
  pose proof (Z.div_mod (va' / 4096 / 512) 512 ltac:(lia)).
  assert (forall x, 0 <= x < 4096 * 512 * 512 * 256 ->
            0 <= x / 4096 / 512 / 512 < 512) as Hb.
  { intros x Hx. rewrite !Z.div_div by lia. split; [apply Z.div_pos; lia|].
    apply Z.div_lt_upper_bound; lia. }
  rewrite !(Z.mod_small (_ / 512 / 512)) in H2 by (apply Hb; lia). lia.
Qed.

Lemma lor_add_low a b n : 0 <= n -> 0 <= b < 2 ^ n -> Z.lor (a * 2 ^ n) b = a * 2 ^ n + b.
Proof.
  intros Hn Hb. pose proof (Z.add_lor_land (a * 2 ^ n) b) as E.
  assert (Z.land (a * 2 ^ n) b = 0); [|lia].
  destruct (decide (b = 0)) as [->|Hb0]; [apply Z.land_0_r|].
  apply Z.bits_inj'. intros k Hk.
  rewrite Z.land_spec, Z.bits_0. destruct (decide (k < n)).
  - rewrite Z.mul_pow2_bits_low by lia. done.
  - rewrite (Z.bits_above_log2 b), andb_false_r; [done|lia|].
    apply Z.log2_lt_pow2; [lia|]. apply Z.lt_le_trans with (2 ^ n); [lia|].
    apply Z.pow_le_mono_r; lia.
Qed.

(** A page-table entry built from a page address and ten flag bits. *)
Definition mk_pte (pa flags : Z) : Z := Z.lor (PA2PTE pa) flags.

Lemma PA2PTE_eq pa : 0 <= pa < 2 ^ 56 -> PA2PTE pa = pa / 4096 * 1024.
Proof.
  intros. unfold PA2PTE. rewrite Z.shiftr_div_pow2, Z.shiftl_mul_pow2 by lia.
  change (2 ^ 12) with 4096. change (2 ^ 10) with 1024. apply u64_small.
  assert (0 <= pa / 4096 < 2 ^ 44); [|lia].
  split; [apply Z.div_pos; lia | apply Z.div_lt_upper_bound; lia].
Qed.

Lemma mk_pte_eq pa flags :
  0 <= pa < 2 ^ 56 -> 0 <= flags < 1024 -> mk_pte pa flags = pa / 4096 * 1024 + flags.
Proof.
  intros. unfold mk_pte. rewrite PA2PTE_eq by lia.
  apply (lor_add_low (pa / 4096) flags 10); lia.
Qed.

Lemma mk_pte_range pa flags :
  0 <= pa < 2 ^ 56 -> 0 <= flags < 1024 -> 0 <= mk_pte pa flags < 2 ^ 64.
Proof.
  intros. rewrite mk_pte_eq by lia.
  assert (0 <= pa / 4096 < 2 ^ 44); [|lia].
  split; [apply Z.div_pos; lia | apply Z.div_lt_upper_bound; lia].
Qed.

Lemma PTE2PA_mk pa flags :
  0 <= pa < 2 ^ 56 -> pa mod 4096 = 0 -> 0 <= flags < 1024 -> PTE2PA (mk_pte pa flags) = pa.
Proof.
  intros Hpa Hal Hf. rewrite mk_pte_eq by lia. unfold PTE2PA.
  rewrite Z.shiftr_div_pow2, Z.shiftl_mul_pow2 by lia.
  change (2 ^ 10) with 1024. change (2 ^ 12) with 4096.
  rewrite Z.div_add_l, (Z.div_small flags) by lia.
  pose proof (Z.div_mod pa 4096 ltac:(lia)). rewrite u64_small; lia.
Qed.

Lemma PTE_FLAGS_eq pte : PTE_FLAGS pte = pte mod 1024.
Proof. unfold PTE_FLAGS. apply (Z.land_ones _ 10). lia. Qed.

Lemma PTE_FLAGS_mk pa flags :
  0 <= pa < 2 ^ 56 -> 0 <= flags < 1024 -> PTE_FLAGS (mk_pte pa flags) = flags.
Proof.
  intros. rewrite PTE_FLAGS_eq, mk_pte_eq by lia.
  rewrite Z.add_comm, Z_mod_plus_full. by apply Z.mod_small.
Qed.

(** The low ten bits of an entry are its flags. *)
Lemma testbit_flags pte k : 0 <= k < 10 -> Z.testbit pte k = Z.testbit (PTE_FLAGS pte) k.
Proof.
  intros. unfold PTE_FLAGS. rewrite Z.land_spec.
  change 0x3FF with (Z.ones 10). rewrite Z.ones_spec_low by lia. by rewrite andb_true_r.
Qed.

(** [has pte FLAG] is the C test [(pte & FLAG) != 0] for a single-bit flag. *)
Definition has (pte flag : Z) : bool := negb (Z.land pte flag =? 0).

Arguments has : simpl never.

Lemma has_bit pte n : 0 <= n -> has pte (Z.shiftl 1 n) = Z.testbit pte n.
Proof. intros. unfold has. rewrite land_bit by lia. by rewrite negb_involutive. Qed.

Lemma has_mk pa flags n :
  0 <= pa < 2 ^ 56 -> 0 <= flags < 1024 -> 0 <= n < 10 ->
  has (mk_pte pa flags) (Z.shiftl 1 n) = has flags (Z.shiftl 1 n).
Proof.
  intros. rewrite !has_bit, testbit_flags, PTE_FLAGS_mk by lia. done.
Qed.

(** ** Interrupt enable *)

Definition hart_ok (h : hart) : Prop := 0 <= h_sstatus h < 2 ^ 64.

Lemma SIE_bit h : intr_get h = Z.testbit (h_sstatus h) 1.
Proof. unfold intr_get, SSTATUS_SIE, r_sstatus. rewrite land_bit by lia. apply negb_involutive. Qed.

Lemma lor_range a b n : 0 <= n -> 0 <= a < 2 ^ n -> 0 <= b < 2 ^ n -> 0 <= Z.lor a b < 2 ^ n.
Proof.
  intros Hn Ha Hb. split; [apply Z.lor_nonneg; lia|].
  destruct (decide (Z.lor a b = 0)) as [->|]; [lia|].
  assert (0 <= Z.lor a b) by (apply Z.lor_nonneg; lia).
  apply Z.log2_lt_pow2; [lia|]. rewrite Z.log2_lor by lia.
  destruct (decide (n = 0)) as [->|].
  { assert (a = 0 /\ b = 0) as [-> ->] by (simpl in *; lia). done. }
  apply Z.max_lub_lt;
  match goal with |- Z.log2 ?x < _ =>
    destruct (decide (x = 0)) as [->|]; [simpl; lia | apply Z.log2_lt_pow2; lia] end.
Qed.

Lemma ldiff_range a b n : 0 <= n -> 0 <= a < 2 ^ n -> 0 <= Z.ldiff a b < 2 ^ n.
Proof.
  intros Hn Ha. split; [apply Z.ldiff_nonneg; lia|].
  assert (Z.ldiff a b <= a); [|lia].
  rewrite Z.ldiff_land. pose proof (Z.land_nonneg a (Z.lnot b)).
  assert (Z.land a (Z.lnot b) + Z.land a b = a) as E.
  { rewrite Z.add_nocarry_lxor.
    - apply Z.bits_inj'. intros k Hk. rewrite Z.lxor_spec, !Z.land_spec, Z.lnot_spec by lia.
      by destruct (Z.testbit a k), (Z.testbit b k).
    - apply Z.bits_inj'. intros k Hk. rewrite !Z.land_spec, Z.lnot_spec, Z.bits_0 by lia.
      by destruct (Z.testbit a k), (Z.testbit b k). }
  assert (0 <= Z.land a b) by (apply Z.land_nonneg; lia). lia.
Qed.

Lemma intr_get_on h : hart_ok h -> intr_get (intr_on h) = true.
Proof.
  intros H. rewrite SIE_bit. unfold intr_on, s_sstatus, r_sstatus, w_sstatus; cbn [h_sstatus].
  rewrite u64_small by (apply lor_range; [lia|exact H|vm_compute; split; congruence]).
  rewrite Z.lor_spec. apply orb_true_r.
Qed.

Lemma intr_get_off h : hart_ok h -> intr_get (intr_off h) = false.
Proof.
  intros H. rewrite SIE_bit. unfold intr_off, c_sstatus, r_sstatus, w_sstatus; cbn [h_sstatus].
  rewrite u64_small by (apply ldiff_range; [lia|exact H]).
  rewrite Z.ldiff_spec. apply andb_false_r.
Qed.

(** Restoring the enable bit restores the whole register file. *)
Lemma intr_on_off h : hart_ok h -> intr_get h = true -> intr_on (intr_off h) = h.
Proof.
  intros H Hi. rewrite SIE_bit in Hi. unfold intr_on, intr_off, s_sstatus, c_sstatus, r_sstatus.
  destruct h; unfold hart_ok in H; cbn [h_sstatus] in *. unfold w_sstatus; cbn. f_equal.
  rewrite (u64_small (Z.ldiff _ _)) by (apply ldiff_range; [lia|exact H]).
  assert (Z.lor (Z.ldiff h_sstatus0 SSTATUS_SIE) SSTATUS_SIE = h_sstatus0) as ->;
    [|by apply u64_small].
  apply Z.bits_inj'. intros k Hk. rewrite Z.lor_spec, Z.ldiff_spec.
  unfold SSTATUS_SIE. rewrite Z.shiftl_1_l. destruct (decide (k = 1)) as [->|].
  - rewrite Z.pow2_bits_true by lia. by rewrite Hi.
  - rewrite Z.pow2_bits_false by lia. by rewrite andb_true_r, orb_false_r.
Qed.

Lemma intr_off_id h : hart_ok h -> intr_get h = false -> intr_off h = h.
Proof.
  intros H Hi. rewrite SIE_bit in Hi. unfold intr_off, c_sstatus, r_sstatus.
  destruct h; unfold hart_ok in H; cbn [h_sstatus] in *. unfold w_sstatus; cbn. f_equal.
  assert (Z.ldiff h_sstatus0 SSTATUS_SIE = h_sstatus0) as ->; [|by apply u64_small].
  apply Z.bits_inj'. intros k Hk. rewrite Z.ldiff_spec.
  unfold SSTATUS_SIE. rewrite Z.shiftl_1_l. destruct (decide (k = 1)) as [->|].
  - rewrite Z.pow2_bits_true by lia. by rewrite Hi.
  - rewrite Z.pow2_bits_false by lia. by rewrite andb_true_r.
Qed.

Lemma hart_ok_w_sstatus x h : hart_ok (w_sstatus x h).
Proof. apply u64_range. Qed.

#[export] Hint Resolve hart_ok_w_sstatus : oslab.

(** * Theorems *)

(** A page-table entry gives back exactly the page address and the flags
    it was built from, for every page-aligned physical address of the
    architecture's 56 bits and every set of the ten flag bits. *)
Theorem pte_roundtrip pa flags :
  0 <= pa < 2 ^ 56 -> pa mod PGSIZE = 0 -> 0 <= flags < 1024 ->
  PTE2PA (Z.lor (PA2PTE pa) flags) = pa /\ PTE_FLAGS (Z.lor (PA2PTE pa) flags) = flags.
Proof.
  intros. split; [by apply PTE2PA_mk | by apply PTE_FLAGS_mk].
Qed.

Lemma pte_roundtrip_witness :
  PTE2PA (Z.lor (PA2PTE 0x80001000) 0x1f) = 0x80001000 /\
  PTE_FLAGS (Z.lor (PA2PTE 0x80001000) 0x1f) = 0x1f.
Proof. apply (pte_roundtrip 0x80001000 0x1f); vm_compute; done || (split; congruence). Defined.
