(* ===== verification/Kdefs.v ===== *)
(** kernel/param.h, kernel/proc.h, kernel/spinlock.h: the data of the kernel.

    Struct fields are record fields.  A [struct proc *] is an index into the
    process table ([None] is the null pointer), a wait channel is one of the
    addresses the kernel sleeps on ([kptr]), and a lock is named by the
    variable it is ([lockid]).  A saved kernel context is the code position at
    which the thread resumes ([kpc]): the return address together with what
    the kernel stack holds at that point ([kcont]). *)

From stdpp Require Import base gmap list strings numbers.
From Stdlib Require Import ZArith Lia.
From S2P Require Import Prelude Mem Riscv.

Definition NPROC : nat := 64.
Definition NCPU : nat := 8.
Definition MAXPATH : Z := 128.

(** * Locks *)

Inductive lockid : Type :=
  | L_pid | L_wait | L_ticks | L_cons
  | L_proc (i : nat).

#[export] Instance lockid_eq_dec : EqDecision lockid.
Proof. solve_decision. Defined.

#[export] Instance lockid_countable : Countable lockid.
Proof.
  refine (inj_countable'
    (fun l => match l with L_pid => 0 | L_wait => 1 | L_ticks => 2 | L_cons => 3
                         | L_proc i => 4 + i end)%nat
    (fun n => match n with 0 => L_pid | 1 => L_wait | 2 => L_ticks | 3 => L_cons
                         | _ => L_proc (n - 4) end)%nat _).
  intros []; simpl; try done. f_equal. lia.
Defined.

Record spinlock : Type := mkLock { locked : Z; lk_name : string }.

(** * Kernel threads *)

(** Where a kernel thread can be inside [sched()]. *)
Inductive kcont : Type :=
  | K_consoleread (user_dst : bool) (dst n target : Z)
  | K_kwait (addr : Z)
  | K_kexit
  | K_yield.

#[export] Instance kcont_eq_dec : EqDecision kcont.
Proof. solve_decision. Defined.

Inductive kpc : Type :=
  | PC_none
  | PC_forkret
  | PC_scheduler
  | PC_sched (k : kcont) (intena : bool).     (* with the local of [sched] *)

#[export] Instance kpc_eq_dec : EqDecision kpc.
Proof. solve_decision. Defined.

(** [ra] and [sp]; the callee-saved registers belong to the compiled code. *)
Record context : Type := mkContext { ctx_ra : kpc; ctx_sp : Z }.

Record cpu : Type := mkCpu {
  c_proc : option nat;
  c_context : context;
  c_noff : Z;
  c_intena : bool
}.

#[export] Instance cpu_inhabited : Inhabited cpu :=
  populate (mkCpu None (mkContext PC_none 0) 0 false).

(** Wait channels. *)
Inductive kptr : Type :=
  | NULL
  | P_proc (i : nat)
  | P_cons_r
  | P_ticks.

#[export] Instance kptr_eq_dec : EqDecision kptr.
Proof. solve_decision. Defined.

Definition procptr (p : option nat) : kptr :=
  match p with Some i => P_proc i | None => NULL end.

Inductive procstate : Type := UNUSED | USED | SLEEPING | RUNNABLE | RUNNING | ZOMBIE.

#[export] Instance procstate_eq_dec : EqDecision procstate.
Proof. solve_decision. Defined.

(** The [lock] field of a process is [L_proc i] in the lock table. *)
Record proc : Type := mkProc {
  p_state : procstate;
  p_pid : Z;
  p_parent : option nat;
  p_killed : Z;
  p_xstate : Z;
  p_name : mem;
  p_sz : Z;
  p_pagetable : Z;
  p_trapframe : Z;
  p_kstack : Z;
  p_context : context;
  p_chan : kptr
}.

Definition zero_proc : proc :=
  mkProc UNUSED 0 None 0 0 ∅ 0 0 0 0 (mkContext PC_none 0) NULL.

#[export] Instance proc_inhabited : Inhabited proc := populate zero_proc.

(** ** Field updates *)

Definition set_state (x : procstate) (p : proc) : proc :=
  mkProc x (p_pid p) (p_parent p) (p_killed p) (p_xstate p) (p_name p) (p_sz p) (p_pagetable p) (p_trapframe p) (p_kstack p) (p_context p) (p_chan p).
Definition set_pid (x : Z) (p : proc) : proc :=
  mkProc (p_state p) x (p_parent p) (p_killed p) (p_xstate p) (p_name p) (p_sz p) (p_pagetable p) (p_trapframe p) (p_kstack p) (p_context p) (p_chan p).
Definition set_parent (x : option nat) (p : proc) : proc :=
  mkProc (p_state p) (p_pid p) x (p_killed p) (p_xstate p) (p_name p) (p_sz p) (p_pagetable p) (p_trapframe p) (p_kstack p) (p_context p) (p_chan p).
Definition set_killed (x : Z) (p : proc) : proc :=
  mkProc (p_state p) (p_pid p) (p_parent p) x (p_xstate p) (p_name p) (p_sz p) (p_pagetable p) (p_trapframe p) (p_kstack p) (p_context p) (p_chan p).
Definition set_xstate (x : Z) (p : proc) : proc :=
  mkProc (p_state p) (p_pid p) (p_parent p) (p_killed p) x (p_name p) (p_sz p) (p_pagetable p) (p_trapframe p) (p_kstack p) (p_context p) (p_chan p).
Definition set_name (x : mem) (p : proc) : proc :=
  mkProc (p_state p) (p_pid p) (p_parent p) (p_killed p) (p_xstate p) x (p_sz p) (p_pagetable p) (p_trapframe p) (p_kstack p) (p_context p) (p_chan p).
Definition set_sz (x : Z) (p : proc) : proc :=
  mkProc (p_state p) (p_pid p) (p_parent p) (p_killed p) (p_xstate p) (p_name p) x (p_pagetable p) (p_trapframe p) (p_kstack p) (p_context p) (p_chan p).
Definition set_pagetable (x : Z) (p : proc) : proc :=
  mkProc (p_state p) (p_pid p) (p_parent p) (p_killed p) (p_xstate p) (p_name p) (p_sz p) x (p_trapframe p) (p_kstack p) (p_context p) (p_chan p).
Definition set_trapframe (x : Z) (p : proc) : proc :=
  mkProc (p_state p) (p_pid p) (p_parent p) (p_killed p) (p_xstate p) (p_name p) (p_sz p) (p_pagetable p) x (p_kstack p) (p_context p) (p_chan p).
Definition set_kstack (x : Z) (p : proc) : proc :=
  mkProc (p_state p) (p_pid p) (p_parent p) (p_killed p) (p_xstate p) (p_name p) (p_sz p) (p_pagetable p) (p_trapframe p) x (p_context p) (p_chan p).
Definition set_context (x : context) (p : proc) : proc :=
  mkProc (p_state p) (p_pid p) (p_parent p) (p_killed p) (p_xstate p) (p_name p) (p_sz p) (p_pagetable p) (p_trapframe p) (p_kstack p) x (p_chan p).
Definition set_chan (x : kptr) (p : proc) : proc :=
  mkProc (p_state p) (p_pid p) (p_parent p) (p_killed p) (p_xstate p) (p_name p) (p_sz p) (p_pagetable p) (p_trapframe p) (p_kstack p) (p_context p) x.

(** * The trapframe

    [struct trapframe] lives in a page of RAM; a field is its byte offset. *)

Inductive tfreg : Type :=
  | TF_kernel_satp | TF_kernel_sp | TF_kernel_trap | TF_epc | TF_kernel_hartid | TF_ra
  | TF_sp | TF_gp | TF_tp | TF_t0 | TF_t1 | TF_t2
  | TF_s0 | TF_s1 | TF_a0 | TF_a1 | TF_a2 | TF_a3
  | TF_a4 | TF_a5 | TF_a6 | TF_a7 | TF_s2 | TF_s3
  | TF_s4 | TF_s5 | TF_s6 | TF_s7 | TF_s8 | TF_s9
  | TF_s10 | TF_s11 | TF_t3 | TF_t4 | TF_t5 | TF_t6.

#[export] Instance tfreg_eq_dec : EqDecision tfreg.
Proof. solve_decision. Defined.

Definition tf_off (r : tfreg) : Z :=
  match r with
  | TF_kernel_satp => 0 | TF_kernel_sp => 8 | TF_kernel_trap => 16 | TF_epc => 24
  | TF_kernel_hartid => 32 | TF_ra => 40 | TF_sp => 48 | TF_gp => 56
  | TF_tp => 64 | TF_t0 => 72 | TF_t1 => 80 | TF_t2 => 88
  | TF_s0 => 96 | TF_s1 => 104 | TF_a0 => 112 | TF_a1 => 120
  | TF_a2 => 128 | TF_a3 => 136 | TF_a4 => 144 | TF_a5 => 152
  | TF_a6 => 160 | TF_a7 => 168 | TF_s2 => 176 | TF_s3 => 184
  | TF_s4 => 192 | TF_s5 => 200 | TF_s6 => 208 | TF_s7 => 216
  | TF_s8 => 224 | TF_s9 => 232 | TF_s10 => 240 | TF_s11 => 248
  | TF_t3 => 256 | TF_t4 => 264 | TF_t5 => 272 | TF_t6 => 280
  end.

Definition TF_SIZE : Z := 288.

Definition tf_get (m : mem) (tf : Z) (r : tfreg) : Z := load64 m (tf + tf_off r).
Definition tf_set (m : mem) (tf : Z) (r : tfreg) (v : Z) : mem := store64 m (tf + tf_off r) (u64 v).

Lemma tf_off_range r : 0 <= tf_off r <= 280.
Proof. destruct r; simpl; lia. Qed.

Lemma tf_off_sep r r' : r <> r' -> tf_off r + 8 <= tf_off r' \/ tf_off r' + 8 <= tf_off r.
Proof. destruct r, r'; simpl; (done || lia). Qed.

Lemma tf_get_set m tf r v : tf_get (tf_set m tf r v) tf r = u64 v.
Proof. apply load64_store64, u64_range. Qed.

Lemma tf_get_set_ne m tf r r' v :
  r <> r' -> tf_get (tf_set m tf r v) tf r' = tf_get m tf r'.
Proof. intros H. apply load64_store64_ne. apply tf_off_sep in H. lia. Qed.

Lemma tf_set_load8 m tf r v b :
  ~ (tf <= b < tf + TF_SIZE) -> load8 (tf_set m tf r v) b = load8 m b.
Proof.
  intros. apply load8_store64_ne. pose proof (tf_off_range r). unfold TF_SIZE in *. lia.
Qed.
