(* ===== verification/Trampoline.v ===== *)
(** kernel/trampoline.S: the way from user space into the kernel and back.

    The two routines are lists of the instructions of the file, run on the
    state they touch: the general registers, sscratch, satp and memory.  A
    load or store goes through the page table that satp selects; the
    translation is the hardware's and a parameter ([mmu]).  Fetching the
    instructions, which the trampoline page makes independent of satp, and
    the fences have no effect here.

    [uservec_ok] and [userret_ok] say that the offsets the assembly
    hard-codes are those of the fields of [struct trapframe] (Kdefs.v). *)

From stdpp Require Import base gmap list strings numbers.
From Stdlib Require Import ZArith Lia.
From S2P Require Import Prelude Mem Riscv Kdefs.

(** * The machine *)

Inductive reg : Type :=
  | ra | sp | gp | tp | t0 | t1 | t2 | s0 | s1 | a0 | a1 | a2 | a3 | a4 | a5 | a6 | a7
  | s2 | s3 | s4 | s5 | s6 | s7 | s8 | s9 | s10 | s11 | t3 | t4 | t5 | t6.

#[export] Instance reg_eq_dec : EqDecision reg.
Proof. solve_decision. Defined.

(** The field of [struct trapframe] with the name of the register. *)
Definition tf_of (r : reg) : tfreg :=
  match r with
  | ra => TF_ra | sp => TF_sp | gp => TF_gp | tp => TF_tp | t0 => TF_t0 | t1 => TF_t1 | t2 => TF_t2
  | s0 => TF_s0 | s1 => TF_s1 | a0 => TF_a0 | a1 => TF_a1 | a2 => TF_a2 | a3 => TF_a3 | a4 => TF_a4
  | a5 => TF_a5 | a6 => TF_a6 | a7 => TF_a7 | s2 => TF_s2 | s3 => TF_s3 | s4 => TF_s4 | s5 => TF_s5
  | s6 => TF_s6 | s7 => TF_s7 | s8 => TF_s8 | s9 => TF_s9 | s10 => TF_s10 | s11 => TF_s11
  | t3 => TF_t3 | t4 => TF_t4 | t5 => TF_t5 | t6 => TF_t6
  end.

Inductive insn : Type :=
  | csrw_sscratch (rs : reg) | csrr_sscratch (rd : reg) | csrw_satp (rs : reg)
  | li (rd : reg) (imm : Z)
  | sd (rs : reg) (off : Z) (base : reg)
  | ld (rd : reg) (off : Z) (base : reg)
  | sfence_vma | fence_i
  | jalr (rs : reg)                     (* links ra to the next instruction *)
  | sret.

(** Where control is behind the instructions run so far. *)
Inductive ctl : Type := Next | Jumped (pc : Z) | ToUser.

Record mach : Type := mkMach {
  m_x : reg -> Z;
  m_sscratch : Z;
  m_satp : Z;
  m_mem : mem;
  m_ctl : ctl
}.

Definition set_x (r : reg) (v : Z) (s : mach) : mach :=
  mkMach (fun r' => if decide (r' = r) then u64 v else m_x s r') (m_sscratch s) (m_satp s) (m_mem s) (m_ctl s).

Section Exec.
Variable mmu : mem -> Z -> Z -> Z.      (* memory, satp, virtual address *)
Variable sym_userret : Z.               (* the label behind [jalr t0] *)

Definition addr (s : mach) (base : reg) (off : Z) : Z :=
  mmu (m_mem s) (m_satp s) (u64 (m_x s base + off)).

Definition exec1 (i : insn) (s : mach) : mach :=
  match i with
  | csrw_sscratch rs => mkMach (m_x s) (m_x s rs) (m_satp s) (m_mem s) (m_ctl s)
  | csrr_sscratch rd => set_x rd (m_sscratch s) s
  | csrw_satp rs => mkMach (m_x s) (m_sscratch s) (m_x s rs) (m_mem s) (m_ctl s)
  | li rd imm => set_x rd imm s
  | sd rs off base =>
      mkMach (m_x s) (m_sscratch s) (m_satp s)
        (store64 (m_mem s) (addr s base off) (u64 (m_x s rs))) (m_ctl s)
  | ld rd off base => set_x rd (load64 (m_mem s) (addr s base off)) s
  | sfence_vma | fence_i => s
  | jalr rs =>
      let s' := set_x ra sym_userret s in
      mkMach (m_x s') (m_sscratch s) (m_satp s) (m_mem s) (Jumped (m_x s rs))
  | sret => mkMach (m_x s) (m_sscratch s) (m_satp s) (m_mem s) ToUser
  end.

Fixpoint exec (l : list insn) (s : mach) : mach :=
  match l with
  | [] => s
  | i :: l' => match m_ctl s with Next => exec l' (exec1 i s) | _ => s end
  end.

(** * The code *)

Definition uservec : list insn :=
  [ csrw_sscratch a0;
    li a0 TRAPFRAME;
    sd ra 40 a0; sd sp 48 a0; sd gp 56 a0; sd tp 64 a0;
    sd t0 72 a0; sd t1 80 a0; sd t2 88 a0;
    sd s0 96 a0; sd s1 104 a0;
    sd a1 120 a0; sd a2 128 a0; sd a3 136 a0; sd a4 144 a0; sd a5 152 a0; sd a6 160 a0; sd a7 168 a0;
    sd s2 176 a0; sd s3 184 a0; sd s4 192 a0; sd s5 200 a0; sd s6 208 a0; sd s7 216 a0;
    sd s8 224 a0; sd s9 232 a0; sd s10 240 a0; sd s11 248 a0;
    sd t3 256 a0; sd t4 264 a0; sd t5 272 a0; sd t6 280 a0;
    csrr_sscratch t0;
    sd t0 112 a0;
    ld sp 8 a0;
    ld tp 32 a0;
    ld t0 16 a0;
    ld t1 0 a0;
    sfence_vma;
    csrw_satp t1;
    sfence_vma;
    jalr t0 ].

Definition userret : list insn :=
  [ fence_i;
    sfence_vma;
    csrw_satp a0;
    sfence_vma;
    li a0 TRAPFRAME;
    ld ra 40 a0; ld sp 48 a0; ld gp 56 a0; ld tp 64 a0;
    ld t0 72 a0; ld t1 80 a0; ld t2 88 a0;
    ld s0 96 a0; ld s1 104 a0;
    ld a1 120 a0; ld a2 128 a0; ld a3 136 a0; ld a4 144 a0; ld a5 152 a0; ld a6 160 a0; ld a7 168 a0;
    ld s2 176 a0; ld s3 184 a0; ld s4 192 a0; ld s5 200 a0; ld s6 208 a0; ld s7 216 a0;
    ld s8 224 a0; ld s9 232 a0; ld s10 240 a0; ld s11 248 a0;
    ld t3 256 a0; ld t4 264 a0; ld t5 272 a0; ld t6 280 a0;
    ld a0 112 a0;
    sret ].

(** The page table [satp] maps the trapframe page of the process at
    [TRAPFRAME] to the frame at [tf], whatever the frame holds. *)
Definition frame_at (m : mem) (satp tf : Z) : Prop :=
  forall m', (forall b, ~ (tf <= b < tf + TF_SIZE) -> load8 m' b = load8 m b) ->
  forall o, 0 <= o < TF_SIZE -> mmu m' satp (TRAPFRAME + o) = tf + o.

(** * Every register but a0, in the order of the stores *)

Definition regs : list reg :=
  [ ra; sp; gp; tp; t0; t1; t2; s0; s1; a1; a2; a3; a4; a5; a6; a7;
    s2; s3; s4; s5; s6; s7; s8; s9; s10; s11; t3; t4; t5; t6 ].

Lemma elem_of_regs r : r ∈ regs <-> r <> a0.
Proof.
  split; [intros H ->|intros H].
  - by apply (bool_decide_pack (a0 ∈ regs)) in H.
  - apply (bool_decide_unpack (r ∈ regs)). by destruct r.
Qed.

Lemma a0_regs : a0 ∉ regs.
Proof. intros H. by apply elem_of_regs in H. Qed.

Lemma u64_TRAPFRAME : u64 TRAPFRAME = TRAPFRAME.
Proof. by vm_compute. Qed.

Lemma set_x_eq r v s : m_x (set_x r v s) r = u64 v.
Proof. cbn. by rewrite decide_True. Qed.

Lemma set_x_ne r r' v s : r' <> r -> m_x (set_x r v s) r' = m_x s r'.
Proof. intros. cbn. by rewrite decide_False. Qed.

(** The content of a register behind a sequence of updates. *)
Ltac read_reg :=
  cbn [m_x set_x]; rewrite ?decide_False, ?decide_True, ?u64_TRAPFRAME by done.

Lemma tf_of_inj r r' : tf_of r = tf_of r' -> r = r'.
Proof. by destruct r, r'. Qed.

(** * A run of stores, a run of loads *)

Section Frame.
Variable tf : Z.

Definition saved (x : reg -> Z) (l : list reg) (m : mem) : mem :=
  foldl (fun m r => tf_set m tf (tf_of r) (x r)) m l.

Lemma saved_get x l m r :
  tf_get (saved x l m) tf (tf_of r) = if decide (r ∈ l) then u64 (x r) else tf_get m tf (tf_of r).
Proof.
  revert m. induction l as [|r' l IH]; intros m; [done|].
  cbn [saved foldl]. change (foldl _ ?m l) with (saved x l m). rewrite IH.
  destruct (decide (r = r')) as [->|Hne].
  - rewrite (decide_True (P := r' ∈ r' :: l)) by set_solver. case_decide; [done|apply tf_get_set].
  - rewrite tf_get_set_ne by (intros E; by apply Hne, tf_of_inj). repeat case_decide; set_solver.
Qed.

Lemma saved_get_ne x l m f :
  (forall r, tf_of r <> f) -> tf_get (saved x l m) tf f = tf_get m tf f.
Proof.
  intros Hf. revert m. induction l as [|r l IH]; intros m; [done|].
  cbn [saved foldl]. change (foldl _ ?m l) with (saved x l m). by rewrite IH, tf_get_set_ne.
Qed.

Lemma saved_ext x x' l m : (forall r, r ∈ l -> x r = x' r) -> saved x l m = saved x' l m.
Proof.
  revert m. induction l as [|r l IH]; intros m H; [done|].
  cbn [saved foldl]. rewrite (H r) by set_solver. apply IH. set_solver.
Qed.

Lemma saved_load8 x l m b :
  ~ (tf <= b < tf + TF_SIZE) -> load8 (saved x l m) b = load8 m b.
Proof.
  intros Hb. revert m. induction l as [|r l IH]; intros m; [done|].
  cbn [saved foldl]. change (foldl _ ?m l) with (saved x l m). by rewrite IH, tf_set_load8.
Qed.

Lemma frame_at_ext m m' satp :
  frame_at m satp tf -> (forall b, ~ (tf <= b < tf + TF_SIZE) -> load8 m' b = load8 m b) ->
  frame_at m' satp tf.
Proof. intros H E m2 E2. apply H. intros b Hb. by rewrite E2, E. Qed.

Lemma frame_at_saved x l m satp : frame_at m satp tf -> frame_at (saved x l m) satp tf.
Proof. intros H. eapply frame_at_ext; [exact H|]. intros. by apply saved_load8. Qed.

(** The address of a field, through the page table. *)
Lemma addr_field s f :
  m_x s a0 = TRAPFRAME -> frame_at (m_mem s) (m_satp s) tf -> addr s a0 (tf_off f) = tf + tf_off f.
Proof.
  intros Ha Hf. unfold addr. rewrite Ha, u64_small.
  - apply Hf; [done|]. pose proof (tf_off_range f). unfold TF_SIZE. lia.
  - pose proof (tf_off_range f). replace TRAPFRAME with (2 ^ 38 - 8192) by reflexivity. lia.
Qed.

Definition save_of (r : reg) : insn := sd r (tf_off (tf_of r)) a0.
Definition load_of (r : reg) : insn := ld r (tf_off (tf_of r)) a0.

Lemma exec_saves l s :
  m_ctl s = Next -> m_x s a0 = TRAPFRAME -> frame_at (m_mem s) (m_satp s) tf ->
  exec (map save_of l) s =
  mkMach (m_x s) (m_sscratch s) (m_satp s) (saved (m_x s) l (m_mem s)) Next.
Proof.
  revert s. induction l as [|r l IH]; intros [x ss st m c] Hc Ha Hf; cbn in Hc, Ha, Hf; subst c; [done|].
  cbn [map exec m_ctl]. change (save_of r) with (sd r (tf_off (tf_of r)) a0). cbn [exec1].
  rewrite (addr_field _ (tf_of r)) by done. rewrite IH; [done..|].
  cbn. eapply (frame_at_saved x [r]), Hf.
Qed.

Lemma exec_loads l s :
  m_ctl s = Next -> m_x s a0 = TRAPFRAME -> a0 ∉ l -> frame_at (m_mem s) (m_satp s) tf ->
  exists x, exec (map load_of l) s = mkMach x (m_sscratch s) (m_satp s) (m_mem s) Next /\
    forall r, x r = if decide (r ∈ l) then tf_get (m_mem s) tf (tf_of r) else m_x s r.
Proof.
  revert s. induction l as [|r l IH]; intros [x ss st m c] Hc Ha Hl Hf; cbn in Hc, Ha, Hf; subst c.
  { exists x. by split. }
  apply not_elem_of_cons in Hl as [Hne Hl].
  cbn [map exec m_ctl]. change (load_of r) with (ld r (tf_off (tf_of r)) a0). cbn [exec1].
  rewrite (addr_field _ (tf_of r)) by done.
  destruct (IH (set_x r (load64 m (tf + tf_off (tf_of r))) (mkMach x ss st m Next))) as (x' & E & Hx);
    [done| |done|done|].
  { cbn. by rewrite decide_False. }
  exists x'. split; [exact E|]. intros r'. rewrite Hx. cbn.
  destruct (decide (r' = r)) as [->|Hr].
  - rewrite (decide_True (P := r ∈ r :: l)) by set_solver. case_decide; [done|].
    apply u64_small, load64_range.
  - repeat case_decide; set_solver.
Qed.

(** * uservec and userret *)

Lemma uservec_shape :
  uservec = [csrw_sscratch a0; li a0 TRAPFRAME] ++ map save_of regs ++
    [csrr_sscratch t0; sd t0 (tf_off TF_a0) a0] ++
    [ld sp (tf_off TF_kernel_sp) a0; ld tp (tf_off TF_kernel_hartid) a0;
     ld t0 (tf_off TF_kernel_trap) a0; ld t1 (tf_off TF_kernel_satp) a0] ++
    [sfence_vma; csrw_satp t1; sfence_vma; jalr t0].
Proof. reflexivity. Qed.

Lemma userret_shape :
  userret = [fence_i; sfence_vma; csrw_satp a0; sfence_vma; li a0 TRAPFRAME] ++ map load_of regs ++
    [ld a0 (tf_off TF_a0) a0; sret].
Proof. reflexivity. Qed.

Lemma exec_app l l' s : exec (l ++ l') s = exec l' (exec l s).
Proof.
  revert s. induction l as [|i l IH]; intros s; [done|].
  cbn [app exec]. destruct (m_ctl s) eqn:E; [apply IH|..]; by destruct l'; cbn [exec]; rewrite ?E.
Qed.

(** Loading a field behind a prefix that leaves the frame's address in a0. *)
Lemma exec_ld rd f l s :
  m_ctl s = Next -> m_x s a0 = TRAPFRAME -> frame_at (m_mem s) (m_satp s) tf ->
  exec (ld rd (tf_off f) a0 :: l) s = exec l (set_x rd (tf_get (m_mem s) tf f) s).
Proof. intros Hc Ha Hf. cbn [exec]. rewrite Hc. cbn [exec1]. by rewrite addr_field. Qed.

Lemma enter_userret x ss st m :
  exec [fence_i; sfence_vma; csrw_satp a0; sfence_vma; li a0 TRAPFRAME] (mkMach x ss st m Next) =
  set_x a0 TRAPFRAME (mkMach x ss (x a0) m Next).
Proof. reflexivity. Qed.

Lemma userret_ok s :
  m_ctl s = Next -> frame_at (m_mem s) (m_x s a0) tf ->
  (forall r, m_x (exec userret s) r = tf_get (m_mem s) tf (tf_of r)) /\
  m_mem (exec userret s) = m_mem s /\ m_satp (exec userret s) = m_x s a0 /\
  m_ctl (exec userret s) = ToUser.
Proof.
  destruct s as [x ss st m c]. cbn [m_ctl m_mem m_x]. intros -> Hf.
  rewrite userret_shape, !exec_app, enter_userret.
  destruct (exec_loads regs (set_x a0 TRAPFRAME (mkMach x ss (x a0) m Next))) as (x' & -> & Hx);
    [done|by rewrite set_x_eq, u64_TRAPFRAME|apply a0_regs|done|].
  cbn [m_sscratch m_satp m_mem m_x set_x] in Hx |- *.
  rewrite exec_ld; [|done| |done].
  2: { cbn [m_x]. rewrite Hx, decide_False by apply a0_regs. by rewrite decide_True, u64_TRAPFRAME. }
  cbn [exec m_ctl set_x exec1 m_x m_mem m_satp]. split; [|done]. intros r. case_decide as Hr.
  - subst. apply u64_small, load64_range.
  - rewrite Hx, decide_True by (by rewrite elem_of_regs). done.
Qed.

(** The frame behind [uservec]. *)
Lemma saved_all x m r : tf_get (tf_set (saved x regs m) tf TF_a0 (x a0)) tf (tf_of r) = u64 (x r).
Proof.
  destruct (decide (r = a0)) as [->|Hr]; [apply tf_get_set|].
  rewrite tf_get_set_ne, saved_get, decide_True; [done|by apply elem_of_regs|].
  intros E. by apply Hr, tf_of_inj.
Qed.

Lemma enter_uservec x ss st m :
  exec [csrw_sscratch a0; li a0 TRAPFRAME] (mkMach x ss st m Next) =
  set_x a0 TRAPFRAME (mkMach x (x a0) st m Next).
Proof. reflexivity. Qed.

Lemma leave_uservec s :
  m_ctl s = Next ->
  exec [sfence_vma; csrw_satp t1; sfence_vma; jalr t0] s =
  mkMach (m_x (set_x ra sym_userret s)) (m_sscratch s) (m_x s t1) (m_mem s) (Jumped (m_x s t0)).
Proof. destruct s as [x ss st m c]. cbn [m_ctl]. by intros ->. Qed.

(** The stores do not reach the five fields that the kernel reads. *)
Lemma saved_kernel x y l m f :
  (forall r, tf_of r <> f) -> tf_get (tf_set (saved x l m) tf TF_a0 y) tf f = tf_get m tf f.
Proof. intros Hf. rewrite tf_get_set_ne by apply (Hf a0). by apply saved_get_ne. Qed.

Lemma save_a0 x v st m :
  frame_at m st tf -> x a0 = TRAPFRAME ->
  exec [csrr_sscratch t0; sd t0 (tf_off TF_a0) a0] (mkMach x v st m Next) =
  mkMach (m_x (set_x t0 v (mkMach x v st m Next))) v st (tf_set m tf TF_a0 v) Next.
Proof.
  intros Hf Ha. cbn [exec m_ctl exec1]. rewrite addr_field; [|by rewrite set_x_ne|done].
  rewrite set_x_eq. cbn [set_x m_sscratch m_satp m_mem m_ctl].
  by rewrite (u64_small (u64 v)) by apply u64_range.
Qed.

Lemma uservec_ok s :
  m_ctl s = Next -> frame_at (m_mem s) (m_satp s) tf ->
  m_mem (exec uservec s) = tf_set (saved (m_x s) regs (m_mem s)) tf TF_a0 (m_x s a0) /\
  m_ctl (exec uservec s) = Jumped (tf_get (m_mem s) tf TF_kernel_trap) /\
  m_satp (exec uservec s) = tf_get (m_mem s) tf TF_kernel_satp /\
  m_x (exec uservec s) sp = tf_get (m_mem s) tf TF_kernel_sp /\
  m_x (exec uservec s) tp = tf_get (m_mem s) tf TF_kernel_hartid /\
  m_x (exec uservec s) ra = u64 sym_userret.
Proof.
  destruct s as [x ss st m c]. cbn [m_ctl m_mem m_x m_satp]. intros -> Hf.
  rewrite uservec_shape, !exec_app, enter_uservec.
  rewrite exec_saves; [|done|by rewrite set_x_eq, u64_TRAPFRAME|done].
  cbn [m_sscratch m_satp m_mem set_x].
  rewrite (saved_ext _ x) by (intros r Hr%elem_of_regs; by apply (set_x_ne a0)).
  assert (frame_at (tf_set (saved x regs m) tf TF_a0 (x a0)) st tf) as Hf'.
  { eapply frame_at_ext; [exact Hf|]. intros b Hb. by rewrite tf_set_load8, saved_load8. }
  rewrite save_a0; [|by apply frame_at_saved|by rewrite (set_x_eq a0 TRAPFRAME), u64_TRAPFRAME].
  do 4 (rewrite exec_ld; [|done|by read_reg|exact Hf']).
  change (exec [] ?s) with s. rewrite leave_uservec by done. cbn [m_mem set_x].
  rewrite !saved_kernel by (by intros []). cbn [m_ctl m_satp]. repeat split; read_reg;
    try (apply u64_small, load64_range). by f_equal; apply u64_small, load64_range.
Qed.
End Frame.

(** C40: the offsets that [trampoline.S] hard-codes are those of the fields
    of [struct trapframe] in [proc.h].  [uservec], entered from user mode
    with the frame mapped at [TRAPFRAME], saves each of the 31 general
    registers in the field of its name, leaves the other five fields and the
    rest of memory alone, and jumps to [kernel_trap] with the stack pointer,
    hart number and page table of the fields [kernel_sp], [kernel_hartid] and
    [kernel_satp], linking to [userret].  [userret] installs the page table
    in [a0], reloads each register from the field of its name, leaves memory
    alone and returns to user mode: behind [uservec] it restores the user's
    registers, except for fields the kernel has changed in between. *)
Theorem trapframe_layout tf s :
  m_ctl s = Next -> frame_at (m_mem s) (m_satp s) tf ->
  let s' := exec uservec s in
  (forall r, tf_get (m_mem s') tf (tf_of r) = u64 (m_x s r)) /\
  (forall f, (forall r, tf_of r <> f) -> tf_get (m_mem s') tf f = tf_get (m_mem s) tf f) /\
  (forall b, ~ (tf <= b < tf + TF_SIZE) -> load8 (m_mem s') b = load8 (m_mem s) b) /\
  m_x s' sp = tf_get (m_mem s) tf TF_kernel_sp /\
  m_x s' tp = tf_get (m_mem s) tf TF_kernel_hartid /\
  m_x s' ra = u64 sym_userret /\
  m_satp s' = tf_get (m_mem s) tf TF_kernel_satp /\
  m_ctl s' = Jumped (tf_get (m_mem s) tf TF_kernel_trap) /\
  forall u, m_ctl u = Next -> frame_at (m_mem u) (m_x u a0) tf ->
    let u' := exec userret u in
    (forall r, m_x u' r = tf_get (m_mem u) tf (tf_of r)) /\
    (forall r, tf_get (m_mem u) tf (tf_of r) = tf_get (m_mem s') tf (tf_of r) -> m_x u' r = u64 (m_x s r)) /\
    m_mem u' = m_mem u /\ m_satp u' = m_x u a0 /\ m_ctl u' = ToUser.
Proof.
  intros Hc Hf s'. destruct (uservec_ok tf s Hc Hf) as (Em & Ec & Es & Esp & Etp & Era). fold s' in Em, Ec, Es, Esp, Etp, Era.
  assert (forall r, tf_get (m_mem s') tf (tf_of r) = u64 (m_x s r)) as Hregs by (intros r; rewrite Em; apply saved_all).
  split; [exact Hregs|]. split; [|split; [|split_and!; try done]].
  - intros f Hne. rewrite Em. by apply saved_kernel.
  - intros b Hb. rewrite Em, tf_set_load8 by done. by apply saved_load8.
  - intros u Hcu Hfu u'. destruct (userret_ok tf u Hcu Hfu) as (Hr & ? & ? & ?).
    split_and!; try done. intros r E. unfold u'. by rewrite Hr, E, Hregs.
Qed.
End Exec.

(** A trap with [ra] = 1, ..., [t6] = 31 and the frame at 0x80300000, and the
    return to user mode behind a kernel that stores -1 in [a0]. *)
Definition demo_frame : Z := 0x80300000.
Definition demo_mmu (m : mem) (satp va : Z) : Z := demo_frame + (va - TRAPFRAME).
Definition demo_user : mach :=
  mkMach (fun r => tf_off (tf_of r) / 8 - 4) 0 7
    (tf_set (tf_set ∅ demo_frame TF_kernel_trap 0x80001000) demo_frame TF_kernel_sp 0x3fffffe000) Next.

Lemma demo_frame_at m satp : frame_at demo_mmu m satp demo_frame.
Proof. intros m' _ o _. unfold demo_mmu. lia. Qed.

Lemma trapframe_layout_witness :
  let s' := exec demo_mmu 0x3ffffff09c uservec demo_user in
  let u' := exec demo_mmu 0x3ffffff09c userret
    (mkMach (fun _ => 7) 0 8 (tf_set (m_mem s') demo_frame TF_a0 (-1)) Next) in
  m_ctl s' = Jumped 0x80001000 /\ m_x s' sp = 0x3fffffe000 /\
  m_x u' a1 = 11 /\ m_x u' a2 = 12 /\ m_x u' a0 = 2 ^ 64 - 1 /\ m_satp u' = 7.
Proof.
  intros s' u'.
  destruct (trapframe_layout demo_mmu 0x3ffffff09c demo_frame demo_user eq_refl (demo_frame_at _ _))
    as (_ & _ & _ & Esp & _ & _ & _ & Ec & Hu).
  destruct (Hu (mkMach (fun _ => 7) 0 8 (tf_set (m_mem s') demo_frame TF_a0 (-1)) Next) eq_refl (demo_frame_at _ _))
    as (Hr & Hback & _ & Es & _).
  split; [refine (eq_trans Ec _); by vm_compute|]. split; [refine (eq_trans Esp _); by vm_compute|].
  split; [unfold u'; rewrite Hback; [by vm_compute|by apply tf_get_set_ne]|].
  split; [unfold u'; rewrite Hback; [by vm_compute|by apply tf_get_set_ne]|].
  split; [unfold u'; rewrite Hr; apply tf_get_set|exact Es].
Defined.
