(* ===== verification/Spinlock.v ===== *)
(** kernel/spinlock.c: spinlocks and the nesting of interrupt disabling.

    State: the hart's registers, the [cpus] array and the lock table.  The
    kernel runs on hart 0 (the others are parked in entry.S), so [holding]
    does not look at the owner and the loop of [acquire] is entered only with
    a free lock. *)

From stdpp Require Import base gmap list strings numbers.
From Stdlib Require Import ZArith Lia.
From S2P Require Import Prelude Riscv Kdefs.

Record lkst : Type := mkLk {
  l_hart : hart;
  l_cpus : list cpu;
  l_locks : gmap lockid spinlock
}.

Definition set_hart (f : hart -> hart) (l : lkst) : lkst :=
  mkLk (f (l_hart l)) (l_cpus l) (l_locks l).

(** * cpuid, mycpu *)

Definition cpuid (l : lkst) : Z := s32 (r_tp (l_hart l)).

Definition mycpu (l : lkst) : cpu := l_cpus l !!! Z.to_nat (cpuid l).

Definition upd_mycpu (f : cpu -> cpu) (l : lkst) : lkst :=
  mkLk (l_hart l) (<[Z.to_nat (cpuid l) := f (mycpu l)]> (l_cpus l)) (l_locks l).

Definition set_noff (n : Z) (c : cpu) : cpu := mkCpu (c_proc c) (c_context c) n (c_intena c).
Definition set_intena (b : bool) (c : cpu) : cpu := mkCpu (c_proc c) (c_context c) (c_noff c) b.
Definition set_cproc (p : option nat) (c : cpu) : cpu := mkCpu p (c_context c) (c_noff c) (c_intena c).
Definition set_ccontext (x : context) (c : cpu) : cpu := mkCpu (c_proc c) x (c_noff c) (c_intena c).

(** * push_off, pop_off *)

Definition push_off : M lkst unit :=
  old ← gets (fun l => intr_get (l_hart l));
  modify (set_hart intr_off);;
  c ← gets mycpu;
  (if c_noff c =? 0 then modify (upd_mycpu (set_intena old)) else mret tt);;
  modify (upd_mycpu (fun c => set_noff (c_noff c + 1) c)).

Definition pop_off : M lkst unit :=
  on ← gets (fun l => intr_get (l_hart l));
  if (on : bool) then panic "pop_off - interruptible" else
  c ← gets mycpu;
  if c_noff c <? 1 then panic "pop_off" else
  modify (upd_mycpu (fun c => set_noff (c_noff c - 1) c));;
  c ← gets mycpu;
  if (c_noff c =? 0) && c_intena c then modify (set_hart intr_on) else mret tt.

(** * Locks *)

Definition the_lock (lk : lockid) (l : lkst) : spinlock :=
  default (mkLock 0 EmptyString) (l_locks l !! lk).

Definition set_locked (lk : lockid) (v : Z) (l : lkst) : lkst :=
  mkLk (l_hart l) (l_cpus l) (<[lk := mkLock v (lk_name (the_lock lk l))]> (l_locks l)).

Definition initlock (lk : lockid) (name : string) : M lkst unit :=
  modify (fun l => mkLk (l_hart l) (l_cpus l) (<[lk := mkLock 0 name]> (l_locks l))).

Definition holding (lk : lockid) (l : lkst) : bool := negb (locked (the_lock lk l) =? 0).

(** The test-and-set loop: with the lock taken it would spin forever. *)
Definition test_and_set_loop (lk : lockid) : M lkst unit := fun l =>
  if locked (the_lock lk l) =? 0 then Ok tt (set_locked lk 1 l) else Diverge l.

Definition acquire (lk : lockid) : M lkst unit :=
  push_off;;
  h ← gets (holding lk);
  if (h : bool) then panic "acquire" else test_and_set_loop lk.

Definition release (lk : lockid) : M lkst unit :=
  h ← gets (holding lk);
  if negb h then panic "release" else
  modify (set_locked lk 0);;
  pop_off.

(** * The state after each operation *)

(** Hart 0 runs, and its entry of [cpus] exists. *)
Definition lk_wf (l : lkst) : Prop :=
  hart_ok (l_hart l) /\ h_tp (l_hart l) = 0 /\ l_cpus l <> [].

(** The nesting invariant: interrupts are off inside every section. *)
Definition irq_ok (l : lkst) : Prop :=
  0 <= c_noff (mycpu l) /\ (0 < c_noff (mycpu l) -> intr_get (l_hart l) = false).

Definition lock_free (lk : lockid) (l : lkst) : Prop :=
  exists sl, l_locks l !! lk = Some sl /\ locked sl = 0.

(** After [push_off]. *)
Definition pushed (l : lkst) : lkst :=
  upd_mycpu (fun c => set_noff (c_noff c + 1)
                        (if c_noff c =? 0 then set_intena (intr_get (l_hart l)) c else c))
            (set_hart intr_off l).

Definition acquired (lk : lockid) (l : lkst) : lkst := set_locked lk 1 (pushed l).

(** After a whole section: only the remembered enable bit may differ. *)
Definition settle (l : lkst) : lkst :=
  if c_noff (mycpu l) =? 0 then upd_mycpu (set_intena (intr_get (l_hart l))) l else l.

(** [lk_wf] states are [mkLk h (c :: cs) ls] with [tp = 0]. *)
Ltac lk_destruct l H :=
  let h := fresh "h" in let cs := fresh "cs" in let c := fresh "c" in let ls := fresh "ls" in
  let Hh := fresh "Hh" in let Htp := fresh "Htp" in let Hc := fresh "Hc" in
  destruct l as [h cs ls]; destruct H as (Hh & Htp & Hc); cbn [l_hart l_cpus l_locks] in *;
  destruct cs as [|c cs]; [done|].

Lemma cpuid_0 l : h_tp (l_hart l) = 0 -> cpuid l = 0.
Proof. unfold cpuid, r_tp. by intros ->. Qed.

Lemma mycpu_cons h c cs ls : h_tp h = 0 -> mycpu (mkLk h (c :: cs) ls) = c.
Proof. intros H. unfold mycpu. by rewrite cpuid_0. Qed.

Lemma upd_mycpu_cons f h c cs ls :
  h_tp h = 0 -> upd_mycpu f (mkLk h (c :: cs) ls) = mkLk h (f c :: cs) ls.
Proof. intros H. unfold upd_mycpu. rewrite mycpu_cons by done. by rewrite cpuid_0. Qed.

Lemma intr_off_tp h : h_tp (intr_off h) = h_tp h.
Proof. done. Qed.
Lemma intr_on_tp h : h_tp (intr_on h) = h_tp h.
Proof. done. Qed.

#[export] Hint Rewrite intr_off_tp intr_on_tp : oslab.
#[export] Hint Rewrite mycpu_cons upd_mycpu_cons using (autorewrite with oslab; done) : oslab.

Lemma pushed_cons h c cs ls :
  h_tp h = 0 ->
  pushed (mkLk h (c :: cs) ls) =
  mkLk (intr_off h)
    (set_noff (c_noff c + 1) (if c_noff c =? 0 then set_intena (intr_get h) c else c) :: cs) ls.
Proof. intros. unfold pushed, set_hart; simpl. by rewrite upd_mycpu_cons. Qed.

Lemma settle_cons h c cs ls :
  h_tp h = 0 ->
  settle (mkLk h (c :: cs) ls) =
  mkLk h ((if c_noff c =? 0 then set_intena (intr_get h) c else c) :: cs) ls.
Proof.
  intros. unfold settle. rewrite mycpu_cons by done. simpl.
  destruct (c_noff c =? 0); [by rewrite upd_mycpu_cons | done].
Qed.

(** * Specifications of the operations *)

Lemma push_off_ok l : lk_wf l -> push_off l = Ok tt (pushed l).
Proof.
  intros H. lk_destruct l H. rewrite pushed_cons by done.
  unfold push_off, gets, modify, mbind, M_bind, mret, M_ret, set_hart; simpl.
  rewrite mycpu_cons by done. simpl.
  destruct (c_noff c =? 0); rewrite ?upd_mycpu_cons by done; done.
Qed.

Lemma pushed_wf l : lk_wf l -> lk_wf (pushed l).
Proof.
  intros H. lk_destruct l H. rewrite pushed_cons by done.
  split_and!; simpl; [apply hart_ok_w_sstatus | done | done].
Qed.

Lemma pushed_noff l : lk_wf l -> c_noff (mycpu (pushed l)) = c_noff (mycpu l) + 1.
Proof.
  intros H. lk_destruct l H. rewrite pushed_cons, !mycpu_cons by done. done.
Qed.

Lemma pushed_irq l : lk_wf l -> irq_ok l -> irq_ok (pushed l).
Proof.
  intros H [Hn _]. split; rewrite pushed_noff by done; [lia|]. intros _.
  lk_destruct l H. rewrite pushed_cons by done. simpl. by apply intr_get_off.
Qed.

(** [pop_off] undoes a [push_off], down to the outermost section's enable bit. *)
Lemma pop_off_pushed l : lk_wf l -> irq_ok l -> pop_off (pushed l) = Ok tt (settle l).
Proof.
  intros H [Hn Hi]. lk_destruct l H. rewrite pushed_cons, settle_cons by done.
  rewrite mycpu_cons in Hn, Hi by done. cbn [l_hart] in Hi.
  unfold pop_off, gets, modify, mbind, M_bind, mret, M_ret; simpl.
  rewrite intr_get_off by done. rewrite mycpu_cons by done. simpl.
  destruct (Z.ltb_spec (c_noff c + 1) 1); [lia|].
  rewrite upd_mycpu_cons by done. rewrite mycpu_cons by done. simpl.
  replace (c_noff c + 1 - 1) with (c_noff c) by lia.
  destruct (Z.eqb_spec (c_noff c) 0) as [E|E]; simpl.
  - destruct (intr_get h) eqn:Hg; unfold set_hart; simpl.
    + rewrite intr_on_off by done. destruct c; done.
    + rewrite intr_off_id by done. destruct c; done.
  - rewrite intr_off_id by (done || apply Hi; lia). destruct c; done.
Qed.

Lemma the_lock_free lk l : lock_free lk l -> holding lk l = false.
Proof. intros (sl & E & H). unfold holding, the_lock. rewrite E. simpl. by rewrite H. Qed.

Lemma pushed_locks l : l_locks (pushed l) = l_locks l.
Proof. done. Qed.

Lemma settle_locks l : l_locks (settle l) = l_locks l.
Proof. unfold settle. by destruct (_ =? 0). Qed.

Lemma acquire_ok lk l : lk_wf l -> lock_free lk l -> acquire lk l = Ok tt (acquired lk l).
Proof.
  intros Hwf Hf. unfold acquire. rewrite (bind_ok _ _ _ _ _ (push_off_ok l Hwf)).
  assert (holding lk (pushed l) = false) as Hh by (by apply the_lock_free).
  unfold gets, mbind, M_bind. rewrite Hh. unfold test_and_set_loop.
  unfold holding in Hh. apply negb_false_iff in Hh. by rewrite Hh.
Qed.

Lemma set_locked_wf lk v l : lk_wf l -> lk_wf (set_locked lk v l).
Proof. done. Qed.

Lemma set_locked_undo lk v l :
  lock_free lk l -> set_locked lk 0 (set_locked lk v l) = l.
Proof.
  intros (sl & E & H). destruct l as [h cs ls]. unfold set_locked, the_lock; simpl in *.
  f_equal. rewrite lookup_insert_eq, E. simpl. rewrite insert_insert_eq.
  destruct sl; simpl in *; subst. by apply insert_id.
Qed.

Lemma release_acquired lk l :
  lk_wf l -> irq_ok l -> lock_free lk l -> release lk (acquired lk l) = Ok tt (settle l).
Proof.
  intros Hwf Hirq Hf. unfold release, acquired, gets, modify, mbind, M_bind.
  assert (holding lk (set_locked lk 1 (pushed l)) = true) as ->.
  { unfold holding, the_lock, set_locked; simpl. by rewrite lookup_insert_eq. }
  simpl. rewrite set_locked_undo by done. by apply pop_off_pushed.
Qed.

Lemma acquired_wf lk l : lk_wf l -> lk_wf (acquired lk l).
Proof. intros H. by apply (pushed_wf l). Qed.

Lemma acquired_irq lk l : lk_wf l -> irq_ok l -> irq_ok (acquired lk l).
Proof. intros H H'. exact (pushed_irq l H H'). Qed.

Lemma acquired_noff lk l : lk_wf l -> c_noff (mycpu (acquired lk l)) = c_noff (mycpu l) + 1.
Proof. intros H. exact (pushed_noff l H). Qed.

Lemma acquired_free lk lk' l : lk <> lk' -> lock_free lk' l -> lock_free lk' (acquired lk l).
Proof.
  intros Hne (sl & E & H). exists sl. split; [|done].
  unfold acquired, set_locked; simpl. by rewrite lookup_insert_ne.
Qed.

Lemma settle_wf l : lk_wf l -> lk_wf (settle l).
Proof.
  intros H. lk_destruct l H. rewrite settle_cons by done. split_and!; done.
Qed.

Lemma settle_noff l : lk_wf l -> c_noff (mycpu (settle l)) = c_noff (mycpu l).
Proof.
  intros H. lk_destruct l H. rewrite settle_cons, !mycpu_cons by done.
  by destruct (c_noff c =? 0).
Qed.

Lemma settle_hart l : l_hart (settle l) = l_hart l.
Proof. unfold settle. by destruct (_ =? 0). Qed.

Lemma settle_irq l : lk_wf l -> irq_ok l -> irq_ok (settle l).
Proof.
  intros H [Hn Hi]. split; rewrite settle_noff by done; [done|].
  rewrite settle_hart. done.
Qed.

Lemma settle_free lk l : lock_free lk l -> lock_free lk (settle l).
Proof. unfold lock_free. by rewrite settle_locks. Qed.

Lemma settle_settle l : lk_wf l -> settle (settle l) = settle l.
Proof.
  intros H. lk_destruct l H. rewrite settle_cons by done.
  rewrite settle_cons by done. destruct (c_noff c =? 0) eqn:E; simpl; by rewrite E.
Qed.

(** Inside a section the remembered bit is left alone. *)
Lemma settle_nested l : 0 < c_noff (mycpu l) -> settle l = l.
Proof. intros H. unfold settle. destruct (Z.eqb_spec (c_noff (mycpu l)) 0); [lia | done]. Qed.

Lemma settle_acquired lk l :
  lk_wf l -> irq_ok l -> settle (acquired lk l) = acquired lk l.
Proof. intros H [Hn _]. apply settle_nested. rewrite acquired_noff by done. lia. Qed.

(** Sections do not change the current process. *)
Lemma pushed_cproc l : lk_wf l -> c_proc (mycpu (pushed l)) = c_proc (mycpu l).
Proof.
  intros H. lk_destruct l H. rewrite pushed_cons, !mycpu_cons by done. simpl.
  by destruct (c_noff c =? 0).
Qed.

Lemma acquired_cproc lk l : lk_wf l -> c_proc (mycpu (acquired lk l)) = c_proc (mycpu l).
Proof. intros H. exact (pushed_cproc l H). Qed.

Lemma settle_cproc l : lk_wf l -> c_proc (mycpu (settle l)) = c_proc (mycpu l).
Proof.
  intros H. lk_destruct l H. rewrite settle_cons, !mycpu_cons by done. by destruct (c_noff c =? 0).
Qed.

(** The same but for the remembered enable bit of the CPU. *)
Record lk_like (l l' : lkst) : Prop := {
  like_hart : l_hart l' = l_hart l;
  like_locks : l_locks l' = l_locks l;
  like_noff : c_noff (mycpu l') = c_noff (mycpu l);
  like_cproc : c_proc (mycpu l') = c_proc (mycpu l)
}.

Lemma lk_like_refl l : lk_like l l.
Proof. by split. Qed.

Lemma lk_like_trans l1 l2 l3 : lk_like l1 l2 -> lk_like l2 l3 -> lk_like l1 l3.
Proof. intros [] []. split; congruence. Qed.

Lemma lk_like_settle l : lk_wf l -> lk_like l (settle l).
Proof.
  intros H. split; [apply settle_hart|apply settle_locks|by apply settle_noff|by apply settle_cproc].
Qed.

#[export] Hint Resolve lk_like_refl lk_like_settle : oslab.

#[export] Hint Resolve pushed_wf pushed_irq acquired_wf acquired_irq acquired_free
  settle_wf settle_irq settle_free set_locked_wf : oslab.

Lemma acquire_held lk l :
  lk_wf l -> holding lk l = true -> acquire lk l = Panic "acquire" (pushed l).
Proof.
  intros Hwf Hh. unfold acquire. rewrite (bind_ok _ _ _ _ _ (push_off_ok l Hwf)).
  unfold gets, mbind, M_bind.
  change (holding lk (pushed l)) with (holding lk l). by rewrite Hh.
Qed.

Fixpoint repeatM {S} (n : nat) (m : M S unit) : M S unit :=
  match n with O => mret tt | S n' => m;; repeatM n' m end.

Lemma repeatM_S_end {S} n (m : M S unit) s :
  repeatM (Datatypes.S n) m s = (repeatM n m;; m) s.
Proof.
  revert s; induction n as [|n IH]; intros s.
  - simpl. unfold mbind, M_bind, mret, M_ret. by destruct (m s) as [[] | |].
  - change ((m;; repeatM (Datatypes.S n) m) s = ((m;; repeatM n m);; m) s).
    unfold mbind, M_bind. destruct (m s) as [[] s'| |]; [|done|done]. apply IH.
Qed.

(** * Theorems *)

(** A critical section is transparent: acquiring a free lock and
    releasing it succeeds, leaves every lock and register as it was (the
    interrupt-enable bit included), and changes at most the per-CPU
    [intena], which it sets to the enable bit when the section is outermost. *)
Theorem lock_section_restores lk l :
  lk_wf l -> irq_ok l -> lock_free lk l ->
  (acquire lk;; release lk) l = Ok tt (settle l) /\
  l_hart (settle l) = l_hart l /\ l_locks (settle l) = l_locks l /\
  c_noff (mycpu (settle l)) = c_noff (mycpu l).
Proof.
  intros Hwf Hirq Hf. split_and!; [|apply settle_hart|apply settle_locks|by apply settle_noff].
  rewrite (bind_ok _ _ _ _ _ (acquire_ok lk l Hwf Hf)). by apply release_acquired.
Qed.

Definition boot_lkst : lkst :=
  mkLk (intr_on zero_hart) (replicate NCPU inhabitant) {[ L_cons := mkLock 0 "cons" ]}.

Lemma lock_section_restores_witness :
  (acquire L_cons;; release L_cons) boot_lkst = Ok tt (settle boot_lkst) /\
  l_hart (settle boot_lkst) = l_hart boot_lkst /\
  l_locks (settle boot_lkst) = l_locks boot_lkst /\
  c_noff (mycpu (settle boot_lkst)) = c_noff (mycpu boot_lkst).
Proof.
  apply lock_section_restores.
  - split_and!; [vm_compute; split; congruence | done | done].
  - split; vm_compute; congruence.
  - by exists (mkLock 0 "cons").
Defined.

(** Interrupts stay off until the outermost section ends: after [n + 1]
    [push_off]s they are off, and the matching [n + 1] [pop_off]s bring back
    exactly the registers of the start. *)
Theorem push_pop_nested n l :
  lk_wf l -> irq_ok l ->
  exists l1, repeatM (S n) push_off l = Ok tt l1 /\
    intr_get (l_hart l1) = false /\ c_noff (mycpu l1) = c_noff (mycpu l) + Z.of_nat (S n) /\
    repeatM (S n) pop_off l1 = Ok tt (settle l) /\ l_hart (settle l) = l_hart l.
Proof.
  revert l; induction n as [|n IH]; intros l Hwf Hirq.
  - exists (pushed l). cbn [repeatM].
    rewrite (bind_ok _ _ _ _ _ (push_off_ok l Hwf)).
    rewrite (bind_ok _ _ _ _ _ (pop_off_pushed l Hwf Hirq)).
    split_and!; [done| |by rewrite pushed_noff|done|apply settle_hart].
    apply (pushed_irq l Hwf Hirq). rewrite pushed_noff by done. destruct Hirq. lia.
  - destruct (IH (pushed l)) as (l1 & H1 & Hoff & Hn & H2 & _); [auto with oslab..|].
    exists l1. split_and!.
    + change ((push_off;; repeatM (S n) push_off) l = Ok tt l1).
      by rewrite (bind_ok _ _ _ _ _ (push_off_ok l Hwf)).
    + done.
    + rewrite Hn, pushed_noff by done. lia.
    + rewrite repeatM_S_end, (bind_ok _ _ _ _ _ H2).
      rewrite settle_nested by (rewrite pushed_noff by done; destruct Hirq; lia).
      by apply pop_off_pushed.
    + apply settle_hart.
Qed.

Lemma push_pop_nested_witness :
  exists l1, repeatM 3 push_off boot_lkst = Ok tt l1 /\
    intr_get (l_hart l1) = false /\ c_noff (mycpu l1) = c_noff (mycpu boot_lkst) + Z.of_nat 3 /\
    repeatM 3 pop_off l1 = Ok tt (settle boot_lkst) /\
    l_hart (settle boot_lkst) = l_hart boot_lkst.
Proof.
  apply (push_pop_nested 2).
  - split_and!; [vm_compute; split; congruence | done | done].
  - split; vm_compute; congruence.
Defined.

(** Misuse is caught: acquiring a lock that is held panics instead of
    spinning with interrupts off, releasing a lock that is free panics, and
    so does a [pop_off] without a [push_off]. *)
Theorem lock_misuse_panics lk l :
  lk_wf l ->
  (holding lk l = true -> exists l', acquire lk l = Panic "acquire" l') /\
  (holding lk l = false -> release lk l = Panic "release" l) /\
  (intr_get (l_hart l) = false -> c_noff (mycpu l) = 0 -> pop_off l = Panic "pop_off" l).
Proof.
  intros Hwf. split_and!.
  - intros H. eexists. by apply acquire_held.
  - intros H. unfold release, gets, mbind, M_bind. by rewrite H.
  - intros Hi Hn. unfold pop_off, gets, mbind, M_bind. by rewrite Hi, Hn.
Qed.

Lemma lock_misuse_panics_witness :
  (holding L_cons boot_lkst = true -> exists l', acquire L_cons boot_lkst = Panic "acquire" l') /\
  (holding L_cons boot_lkst = false -> release L_cons boot_lkst = Panic "release" boot_lkst) /\
  (intr_get (l_hart boot_lkst) = false -> c_noff (mycpu boot_lkst) = 0 ->
   pop_off boot_lkst = Panic "pop_off" boot_lkst).
Proof.
  apply lock_misuse_panics.
  split_and!; [vm_compute; split; congruence | done | done].
Defined.
