(* ===== verification/Vm.v ===== *)
(** kernel/vm.c: the bump page allocator, the Sv39 page tables and the copies
    between kernel and user memory.

    State: RAM and the allocation pointer [freemem].  [pagetable_t] is the
    address of a page of 512 entries in RAM; a [pte_t *] is the address of an
    entry, 0 the null pointer.  The linker symbols [end], [etext] and
    [trampoline] are arguments of the routines that use them. *)

From stdpp Require Import base gmap list strings numbers.
From Stdlib Require Import ZArith Lia.
From S2P Require Import Prelude Mem KString Riscv.

Record vmst : Type := mkVm { v_mem : mem; v_freemem : Z }.

Definition on_mem (f : mem -> mem) (v : vmst) : vmst := mkVm (f (v_mem v)) (v_freemem v).

Definition out_of_fuel {S A} : M S A := fun s => Diverge s.

(** * Page allocator *)

Definition kinit (end_ : Z) : M vmst unit :=
  modify (fun v => mkVm (v_mem v) (PGROUNDUP end_)).

Definition kalloc : M vmst Z :=
  v ← get;
  if (v_freemem v =? 0) || (PHYSTOP <? u64 (v_freemem v + PGSIZE)) then mret 0 else
  let p := v_freemem v in
  modify (fun v => mkVm (v_mem v) (v_freemem v + PGSIZE));;
  modify (on_mem (fun m => (memset p 0 PGSIZE m).2));;
  mret p.

Definition kfree (pa : Z) : M vmst unit := mret tt.

(** * Page tables *)

(** One round of the loop of [walk]: the next-level table, allocated if
    asked for; [None] is the early [return 0]. *)
Definition walk_step (pagetable va level : Z) (alloc : bool) : M vmst (option Z) :=
  m ← gets v_mem;
  let pte := pagetable + 8 * PX level va in
  if has (load64 m pte) PTE_V then mret (Some (PTE2PA (load64 m pte)))
  else if negb alloc then mret None else
  p ← kalloc;
  if p =? 0 then mret None else
  modify (on_mem (fun m => (memset p 0 PGSIZE m).2));;
  modify (on_mem (fun m => store64 m pte (Z.lor (PA2PTE p) PTE_V)));;
  mret (Some p).

Definition walk (pagetable va : Z) (alloc : bool) : M vmst Z :=
  if MAXVA <=? va then panic "walk" else
  p1 ← walk_step pagetable va 2 alloc;
  match p1 with
  | None => mret 0
  | Some p1 =>
      p0 ← walk_step p1 va 1 alloc;
      match p0 with
      | None => mret 0
      | Some p0 => mret (p0 + 8 * PX 0 va)
      end
  end.

Definition walkaddr (pagetable va : Z) : M vmst Z :=
  if MAXVA <=? va then mret 0 else
  pte ← walk pagetable va false;
  if pte =? 0 then mret 0 else
  m ← gets v_mem;
  if negb (has (load64 m pte) PTE_V) then mret 0 else
  if negb (has (load64 m pte) PTE_U) then mret 0 else
  mret (PTE2PA (load64 m pte)).

(** The [for (;;)] of [mappages] runs once per page of [size]. *)
Fixpoint mappages_loop (fuel : nat) (pagetable a last pa perm : Z) : M vmst Z :=
  match fuel with
  | O => out_of_fuel
  | S f =>
      pte ← walk pagetable a true;
      if pte =? 0 then mret (-1) else
      m ← gets v_mem;
      if has (load64 m pte) PTE_V then panic "mappages: remap" else
      modify (on_mem (fun m => store64 m pte (Z.lor (Z.lor (PA2PTE pa) perm) PTE_V)));;
      if a =? last then mret 0 else
      mappages_loop f pagetable (u64 (a + PGSIZE)) last (u64 (pa + PGSIZE)) perm
  end.

Definition mappages (pagetable va size pa perm : Z) : M vmst Z :=
  if negb (va mod PGSIZE =? 0) then panic "mappages: va not aligned" else
  if negb (size mod PGSIZE =? 0) then panic "mappages: size not aligned" else
  if size =? 0 then panic "mappages: size" else
  mappages_loop (Z.to_nat (size / PGSIZE)) pagetable va (u64 (va + size - PGSIZE)) pa perm.

(** * Kernel page table *)

Definition kvmmap (kpgtbl va pa sz perm : Z) : M vmst unit :=
  r ← mappages kpgtbl va sz pa perm;
  if negb (r =? 0) then panic "kvmmap" else mret tt.

Fixpoint for_each {S A} (l : list A) (f : A -> M S unit) : M S unit :=
  match l with
  | [] => mret tt
  | x :: l' => f x;; for_each l' f
  end.

(** proc.c: a stack page for every process slot, with a guard page below. *)
Definition proc_mapstacks (nproc : nat) (kpgtbl : Z) : M vmst unit :=
  for_each (zseq 0 nproc) (fun i =>
    pa ← kalloc;
    if pa =? 0 then panic "kalloc" else
    kvmmap kpgtbl (KSTACK i) pa PGSIZE (Z.lor PTE_R PTE_W)).

Definition kvmmake (nproc : nat) (etext trampoline : Z) : M vmst Z :=
  kpgtbl ← kalloc;
  modify (on_mem (fun m => (memset kpgtbl 0 PGSIZE m).2));;
  kvmmap kpgtbl UART0 UART0 PGSIZE (Z.lor PTE_R PTE_W);;
  kvmmap kpgtbl PLIC PLIC 0x4000000 (Z.lor PTE_R PTE_W);;
  kvmmap kpgtbl KERNBASE KERNBASE (u64 (etext - KERNBASE)) (Z.lor PTE_R PTE_X);;
  kvmmap kpgtbl etext etext (u64 (PHYSTOP - etext)) (Z.lor PTE_R PTE_W);;
  kvmmap kpgtbl TRAMPOLINE trampoline PGSIZE (Z.lor PTE_R PTE_X);;
  proc_mapstacks nproc kpgtbl;;
  mret kpgtbl.

(** * User page tables *)

Definition uvmcreate : M vmst Z :=
  pagetable ← kalloc;
  if pagetable =? 0 then mret 0 else
  modify (on_mem (fun m => (memset pagetable 0 PGSIZE m).2));;
  mret pagetable.

Fixpoint uvmunmap_loop (fuel : nat) (pagetable a stop : Z) (do_free : bool) : M vmst unit :=
  if stop <=? a then mret tt else
  match fuel with
  | O => out_of_fuel
  | S f =>
      pte ← walk pagetable a false;
      (if pte =? 0 then mret tt else
       m ← gets v_mem;
       if negb (has (load64 m pte) PTE_V) then mret tt else
       (if do_free then kfree (PTE2PA (load64 m pte)) else mret tt);;
       modify (on_mem (fun m => store64 m pte 0)));;
      uvmunmap_loop f pagetable (u64 (a + PGSIZE)) stop do_free
  end.

Definition uvmunmap (pagetable va npages : Z) (do_free : bool) : M vmst unit :=
  if negb (va mod PGSIZE =? 0) then panic "uvmunmap: not aligned" else
  uvmunmap_loop (Z.to_nat npages) pagetable va (u64 (va + npages * PGSIZE)) do_free.

Definition uvmdealloc (pagetable oldsz newsz : Z) : M vmst Z :=
  if oldsz <=? newsz then mret oldsz else
  (if PGROUNDUP newsz <? PGROUNDUP oldsz then
     let npages := s32 ((PGROUNDUP oldsz - PGROUNDUP newsz) / PGSIZE) in
     uvmunmap pagetable (PGROUNDUP newsz) (u64 npages) true
   else mret tt);;
  mret newsz.

(** [oldsz] is the rounded start of the loop, [a] its variable. *)
Fixpoint uvmalloc_loop (fuel : nat) (pagetable oldsz a newsz xperm : Z) : M vmst Z :=
  if newsz <=? a then mret newsz else
  match fuel with
  | O => out_of_fuel
  | S f =>
      mem ← kalloc;
      if mem =? 0 then
        uvmdealloc pagetable a oldsz;; mret 0
      else
        modify (on_mem (fun m => (memset mem 0 PGSIZE m).2));;
        r ← mappages pagetable a PGSIZE mem (Z.lor (Z.lor PTE_R PTE_U) xperm);
        if negb (r =? 0) then
          kfree mem;; uvmdealloc pagetable a oldsz;; mret 0
        else uvmalloc_loop f pagetable oldsz (u64 (a + PGSIZE)) newsz xperm
  end.

Definition uvmalloc (pagetable oldsz newsz xperm : Z) : M vmst Z :=
  if newsz <? oldsz then mret oldsz else
  let oldsz := PGROUNDUP oldsz in
  uvmalloc_loop (Z.to_nat ((newsz - oldsz) / PGSIZE + 1)) pagetable oldsz oldsz newsz xperm.

(** The recursion of [freewalk] goes one level down the tree per call. *)
Fixpoint freewalk (depth : nat) (pagetable : Z) : M vmst unit :=
  match depth with
  | O => out_of_fuel
  | S d =>
      for_each (zseq 0 512) (fun i =>
        m ← gets v_mem;
        let pte := load64 m (pagetable + 8 * i) in
        if has pte PTE_V && (Z.land pte (Z.lor (Z.lor PTE_R PTE_W) PTE_X) =? 0) then
          freewalk d (PTE2PA pte);;
          modify (on_mem (fun m => store64 m (pagetable + 8 * i) 0))
        else if has pte PTE_V then panic "freewalk: leaf"
        else mret tt);;
      kfree pagetable
  end.

Definition FREEWALK_DEPTH : nat := 4.

Definition uvmfree (pagetable sz : Z) : M vmst unit :=
  (if 0 <? sz then uvmunmap pagetable 0 (PGROUNDUP sz / PGSIZE) true else mret tt);;
  freewalk FREEWALK_DEPTH pagetable.

(** The result pairs the return value with the address the loop stopped at
    (the [goto err] of the code uses it). *)
Fixpoint uvmcopy_loop (fuel : nat) (old new i sz : Z) : M vmst (bool * Z) :=
  if sz <=? i then mret (true, i) else
  match fuel with
  | O => out_of_fuel
  | S f =>
      pte ← walk old i false;
      if pte =? 0 then uvmcopy_loop f old new (u64 (i + PGSIZE)) sz else
      m ← gets v_mem;
      if negb (has (load64 m pte) PTE_V) then uvmcopy_loop f old new (u64 (i + PGSIZE)) sz else
      let pa := PTE2PA (load64 m pte) in
      let flags := PTE_FLAGS (load64 m pte) in
      mem ← kalloc;
      if mem =? 0 then mret (false, i) else
      modify (on_mem (fun m => (memmove mem (Here pa) PGSIZE m).2));;
      r ← mappages new i PGSIZE mem flags;
      if negb (r =? 0) then kfree mem;; mret (false, i) else
      uvmcopy_loop f old new (u64 (i + PGSIZE)) sz
  end.

Definition uvmcopy (old new sz : Z) : M vmst Z :=
  r ← uvmcopy_loop (Z.to_nat (sz / PGSIZE + 1)) old new 0 sz;
  let '(ok, i) := r in
  if (ok : bool) then mret 0 else
  uvmunmap new 0 (i / PGSIZE) true;;
  mret (-1).

Definition uvmclear (pagetable va : Z) : M vmst unit :=
  pte ← walk pagetable va false;
  if pte =? 0 then panic "uvmclear" else
  modify (on_mem (fun m => store64 m pte (Z.ldiff (load64 m pte) PTE_U))).

(** * Copies between kernel and user memory *)

Fixpoint copyout_loop (fuel : nat) (pagetable dstva : Z) (src : csrc) (len : Z) : M vmst Z :=
  if len <=? 0 then mret 0 else
  match fuel with
  | O => out_of_fuel
  | S f =>
      let va0 := PGROUNDDOWN dstva in
      if MAXVA <=? va0 then mret (-1) else
      pa0 ← walkaddr pagetable va0;
      if pa0 =? 0 then mret (-1) else
      pte ← walk pagetable va0 false;
      m ← gets v_mem;
      if negb (has (load64 m pte) PTE_W) then mret (-1) else
      let n := Z.min (PGSIZE - (dstva - va0)) len in
      modify (on_mem (fun m => (memmove (pa0 + (dstva - va0)) src n m).2));;
      copyout_loop f pagetable (u64 (va0 + PGSIZE)) (src_add src n) (len - n)
  end.

Definition copy_fuel (len : Z) : nat := Z.to_nat (len / PGSIZE + 2).

Definition copyout (pagetable psz dstva : Z) (src : csrc) (len : Z) : M vmst Z :=
  copyout_loop (copy_fuel len) pagetable dstva src len.

(** The destination [dst] is offset [d] of the C array [buf]. *)
Fixpoint copyin_loop (fuel : nat) (pagetable : Z) (buf : mem) (d srcva len : Z) : M vmst (Z * mem) :=
  if len <=? 0 then mret (0, buf) else
  match fuel with
  | O => out_of_fuel
  | S f =>
      let va0 := PGROUNDDOWN srcva in
      pa0 ← walkaddr pagetable va0;
      if pa0 =? 0 then mret (-1, buf) else
      m ← gets v_mem;
      let n := Z.min (PGSIZE - (srcva - va0)) len in
      let buf := (memmove d (There (load8 m) (pa0 + (srcva - va0))) n buf).2 in
      copyin_loop f pagetable buf (d + n) (u64 (va0 + PGSIZE)) (len - n)
  end.

Definition copyin (pagetable psz : Z) (buf : mem) (d srcva len : Z) : M vmst (Z * mem) :=
  copyin_loop (copy_fuel len) pagetable buf d srcva len.

(** The inner loop of [copyinstr] over the [n] bytes left in a page:
    [(got_null, dst, max, buf)]. *)
Fixpoint copyinstr_page (n : nat) (m : mem) (p : Z) (buf : mem) (d max : Z)
  : bool * Z * Z * mem :=
  match n with
  | O => (false, d, max, buf)
  | S n' =>
      if load8 m p =? 0 then (true, d, max, store8 buf d 0)
      else copyinstr_page n' m (p + 1) (store8 buf d (load8 m p)) (d + 1) (max - 1)
  end.

Fixpoint copyinstr_loop (fuel : nat) (pagetable : Z) (buf : mem) (d srcva max : Z)
  : M vmst (Z * mem) :=
  if max <=? 0 then mret (-1, buf) else
  match fuel with
  | O => out_of_fuel
  | S f =>
      let va0 := PGROUNDDOWN srcva in
      pa0 ← walkaddr pagetable va0;
      if pa0 =? 0 then mret (-1, buf) else
      m ← gets v_mem;
      let n := Z.min (PGSIZE - (srcva - va0)) max in
      let '(got_null, d, max, buf) :=
        copyinstr_page (Z.to_nat n) m (pa0 + (srcva - va0)) buf d max in
      if (got_null : bool) then mret (0, buf) else
      copyinstr_loop f pagetable buf d (u64 (va0 + PGSIZE)) max
  end.

Definition copyinstr (pagetable psz : Z) (buf : mem) (d srcva max : Z) : M vmst (Z * mem) :=
  copyinstr_loop (copy_fuel max) pagetable buf d srcva max.
