(* ===== verification/PageTable.v ===== *)
(** The page table as an abstract map, and the correctness of the allocator,
    [walk] and [mappages] of kernel/vm.c against it.

    A page table is a tree of pages in RAM: the root, a page per valid
    level-2 entry and a page per valid level-1 entry.  [node m pt k] is the
    page at tree position [k]; [pt_wf] says that the pages of the tree are
    aligned, allocated and pairwise distinct.  [lookup_pte m pt va] is the
    abstract contents: the valid leaf entry for [va], if any. *)

From stdpp Require Import base gmap list strings numbers.
From Stdlib Require Import ZArith Lia.
From S2P Require Import Prelude Mem KString Riscv Vm.

(** * The tree *)

Definition child (m : mem) (p i : Z) : option Z :=
  let e := load64 m (p + 8 * i) in
  if has e PTE_V then Some (PTE2PA e) else None.

Arguments child : simpl never.

Inductive key : Type := KRoot | K1 (i : Z) | K0 (i j : Z).

#[export] Instance key_eq_dec : EqDecision key.
Proof. solve_decision. Defined.
#[local] Opaque key_eq_dec.

Definition key_ok (k : key) : Prop :=
  match k with
  | KRoot => True
  | K1 i => 0 <= i < 512
  | K0 i j => 0 <= i < 512 /\ 0 <= j < 512
  end.

Definition node (m : mem) (pt : Z) (k : key) : option Z :=
  match k with
  | KRoot => Some pt
  | K1 i => child m pt i
  | K0 i j => child m pt i ≫= fun p => child m p j
  end.

Definition leaf_key (va : Z) : key := K0 (PX 2 va) (PX 1 va).

(** Address of the leaf entry for [va], and the entry if it is valid. *)
Definition leaf_addr (m : mem) (pt va : Z) : option Z :=
  (fun p => p + 8 * PX 0 va) <$> node m pt (leaf_key va).

Definition lookup_pte (m : mem) (pt va : Z) : option Z :=
  leaf_addr m pt va ≫= fun a => if has (load64 m a) PTE_V then Some (load64 m a) else None.

(** * Invariants *)

Definition page_ok (hi p : Z) : Prop := p mod 4096 = 0 /\ KERNBASE <= p /\ p + 4096 <= hi.

Definition in_page (p b : Z) : Prop := p <= b < p + 4096.

(** Positions whose entries point to further tables. *)
Definition inner (k : key) : Prop := match k with K0 _ _ => False | _ => True end.

Definition PTE_RWX : Z := Z.lor (Z.lor PTE_R PTE_W) PTE_X.

(** The pages of the tree are aligned, allocated and distinct; entries of the
    inner tables are plain pointers, in the lower half of the root. *)
Record pt_wf (hi : Z) (m : mem) (pt : Z) : Prop := {
  wf_page k p : key_ok k -> node m pt k = Some p -> page_ok hi p;
  wf_inj k k' p : key_ok k -> key_ok k' ->
    node m pt k = Some p -> node m pt k' = Some p -> k = k';
  wf_inner k p i : key_ok k -> inner k -> 0 <= i < 512 -> node m pt k = Some p ->
    has (load64 m (p + 8 * i)) PTE_V = true ->
    Z.land (load64 m (p + 8 * i)) PTE_RWX = 0 /\ (k = KRoot -> i < 256)
}.

Definition vm_ok (v : vmst) : Prop :=
  v_freemem v mod 4096 = 0 /\ KERNBASE <= v_freemem v <= PHYSTOP.

Definition valid_va (va : Z) : Prop := 0 <= va < MAXVA.

(** [b] is in no page of the tree. *)
Definition off_tree (m : mem) (pt b : Z) : Prop :=
  forall k p, key_ok k -> node m pt k = Some p -> ~ in_page p b.

(** The tree of [pt] may have grown into new pages and its entries may have
    changed; nothing else that was allocated before has. *)
Record pt_ext (pt : Z) (v v' : vmst) : Prop := {
  ext_vm : vm_ok v';
  ext_free : v_freemem v <= v_freemem v';
  ext_wf : pt_wf (v_freemem v') (v_mem v') pt;
  ext_mono k p : key_ok k -> node (v_mem v) pt k = Some p -> node (v_mem v') pt k = Some p;
  ext_new k p : key_ok k -> node (v_mem v') pt k = Some p ->
    node (v_mem v) pt k = Some p \/ v_freemem v <= p;
  ext_frame b : b < v_freemem v -> off_tree (v_mem v) pt b ->
    load8 (v_mem v') b = load8 (v_mem v) b
}.

(** * Basic facts *)

Lemma key_ok_leaf va : key_ok (leaf_key va).
Proof. split; apply PX_range; lia. Qed.
#[export] Hint Resolve key_ok_leaf : oslab.

Lemma page_ok_mono hi hi' p : hi <= hi' -> page_ok hi p -> page_ok hi' p.
Proof. unfold page_ok. lia. Qed.

Lemma page_ok_range hi p : hi <= PHYSTOP -> page_ok hi p -> 0 < p < 2 ^ 56.
Proof. unfold page_ok, PHYSTOP, KERNBASE. lia. Qed.

Lemma page_sep p q : p mod 4096 = 0 -> q mod 4096 = 0 -> p <> q -> p + 4096 <= q \/ q + 4096 <= p.
Proof.
  intros Hp Hq Hne. apply Z.mod_divide in Hp as [x ->], Hq as [y ->]; lia.
Qed.

Lemma load64_ext m m' a :
  (forall b, a <= b < a + 8 -> load8 m b = load8 m' b) -> load64 m a = load64 m' a.
Proof. apply (load_le_ext 8). Qed.

Lemma child_ext m m' p i :
  0 <= i < 512 -> (forall b, in_page p b -> load8 m b = load8 m' b) -> child m p i = child m' p i.
Proof.
  intros Hi H. unfold child. cbv zeta.
  rewrite (load64_ext m m'); [done|]. intros b Hb. apply H. unfold in_page. lia.
Qed.

(** The tree only depends on its own pages. *)
Lemma node_ext m m' pt k :
  key_ok k ->
  (forall k' p b, key_ok k' -> node m pt k' = Some p -> in_page p b -> load8 m b = load8 m' b) ->
  node m pt k = node m' pt k.
Proof.
  intros Hk H. destruct k as [|i|i j]; simpl in *; [done| |].
  - apply child_ext; [done|]. intros b. by apply (H KRoot pt).
  - destruct Hk as [Hi Hj].
    rewrite <- (child_ext m m' pt i) by (done || intros b; by apply (H KRoot pt)).
    destruct (child m pt i) as [p|] eqn:E; simpl; [|done].
    apply child_ext; [done|]. intros b. by apply (H (K1 i) p).
Qed.

Lemma lookup_pte_ext m m' pt va :
  (forall k' p b, key_ok k' -> node m pt k' = Some p -> in_page p b -> load8 m b = load8 m' b) ->
  lookup_pte m pt va = lookup_pte m' pt va.
Proof.
  intros H. unfold lookup_pte, leaf_addr.
  rewrite <- (node_ext m m' pt (leaf_key va)) by auto with oslab.
  destruct (node m pt (leaf_key va)) as [p|] eqn:E; [|done]. simpl.
  rewrite (load64_ext m m'); [done|]. intros b Hb.
  apply (H _ _ _ (key_ok_leaf va) E). pose proof (PX_range 0 va ltac:(lia)).
  unfold in_page. lia.
Qed.

Lemma lookup_pte_node m pt va p :
  node m pt (leaf_key va) = Some p ->
  lookup_pte m pt va =
  if has (load64 m (p + 8 * PX 0 va)) PTE_V then Some (load64 m (p + 8 * PX 0 va)) else None.
Proof. intros H. unfold lookup_pte, leaf_addr. by rewrite H. Qed.

Lemma lookup_pte_none m pt va :
  node m pt (leaf_key va) = None -> lookup_pte m pt va = None.
Proof. intros H. unfold lookup_pte, leaf_addr. by rewrite H. Qed.

(** * Allocator *)

Definition zero_page (p : Z) (m : mem) : mem := (memset p 0 PGSIZE m).2.
Arguments zero_page : simpl never.

Lemma zero_page_load8 p m b :
  load8 (zero_page p m) b = if decide (in_page p b) then 0 else load8 m b.
Proof.
  unfold zero_page, in_page. rewrite memset_load8 by (unfold PGSIZE; lia).
  change PGSIZE with 4096. by case_decide.
Qed.

Lemma kalloc_ok v :
  vm_ok v ->
  kalloc v =
  if v_freemem v + 4096 <=? PHYSTOP
  then Ok (v_freemem v) (mkVm (zero_page (v_freemem v) (v_mem v)) (v_freemem v + 4096))
  else Ok 0 v.
Proof.
  intros [Hal Hr]. unfold kalloc, get, modify, mbind, M_bind, mret, M_ret, zero_page.
  unfold PHYSTOP, KERNBASE in *. change PGSIZE with 4096.
  rewrite u64_small by lia.
  destruct (Z.eqb_spec (v_freemem v) 0); [lia|]. simpl orb.
  destruct (Z.ltb_spec (2147483648 + 128 * 1024 * 1024) (v_freemem v + 4096)),
           (Z.leb_spec (v_freemem v + 4096) (2147483648 + 128 * 1024 * 1024)); (lia || reflexivity).
Qed.

Lemma vm_ok_alloc v m :
  vm_ok v -> v_freemem v + 4096 <= PHYSTOP -> vm_ok (mkVm m (v_freemem v + 4096)).
Proof.
  intros [Hal Hr] H. split; simpl; [|lia].
  rewrite Z.add_mod, Hal by lia. done.
Qed.

(** * Growing the tree by one page *)

Definition child_key (k : key) (i : Z) : key :=
  match k with KRoot => K1 i | K1 i' => K0 i' i | K0 _ _ => KRoot end.

Lemma child_none m pt k p i :
  inner k -> node m pt k = Some p -> child m p i = None -> node m pt (child_key k i) = None.
Proof.
  intros Hin Hp Hn. destruct k as [|k1|]; [|cbn in *|destruct Hin].
  - injection Hp as <-. exact Hn.
  - rewrite Hp. exact Hn.
Qed.

(** An inner entry has no permission bits. *)
Lemma land_V_RWX pa : 0 <= pa < 2 ^ 56 -> Z.land (mk_pte pa PTE_V) PTE_RWX = 0.
Proof.
  intros Hpa. apply Z.bits_inj'. intros n Hn. rewrite Z.land_spec, Z.bits_0.
  destruct (decide (n < 10)).
  - rewrite testbit_flags by lia. rewrite PTE_FLAGS_mk by (done || vm_compute; split; congruence).
    unfold PTE_V. rewrite Z.shiftl_1_l. destruct (decide (n = 0)) as [->|]; [done|].
    by rewrite Z.pow2_bits_false by lia.
  - rewrite (Z.bits_above_log2 PTE_RWX); [apply andb_false_r|done|].
    change (Z.log2 PTE_RWX) with 3. lia.
Qed.

(** RAM after a fresh page was cleared and entered in slot [i] of table [p]. *)
Definition grow_mem (v : vmst) (p i : Z) : mem :=
  let q := v_freemem v in
  store64 (zero_page q (zero_page q (v_mem v))) (p + 8 * i) (Z.lor (PA2PTE q) PTE_V).

Section Grow.
Context (v : vmst) (pt : Z) (k : key) (p i : Z).
Hypothesis Hvm : vm_ok v.
Hypothesis Hwf : pt_wf (v_freemem v) (v_mem v) pt.
Hypothesis Hmem : v_freemem v + 4096 <= PHYSTOP.
Hypothesis Hk : key_ok k.
Hypothesis Hin : inner k.
Hypothesis Hp : node (v_mem v) pt k = Some p.
Hypothesis Hi : 0 <= i < 512.
Hypothesis Hnone : child (v_mem v) p i = None.
Hypothesis Hhalf : k = KRoot -> i < 256.

#[local] Abbreviation q := (v_freemem v).
#[local] Abbreviation m2 := (grow_mem v p i).

Lemma grow_q : page_ok (q + 4096) q.
Proof. destruct Hvm as [Hal Hr]. unfold page_ok. lia. Qed.

Lemma grow_p : page_ok q p.
Proof. exact (wf_page _ _ _ Hwf k p Hk Hp). Qed.

Lemma grow_load8 b :
  load8 m2 b =
  if decide (p + 8 * i <= b < p + 8 * i + 8) then load8 m2 b
  else if decide (in_page q b) then 0 else load8 (v_mem v) b.
Proof.
  case_decide as H; [done|]. unfold grow_mem.
  rewrite load8_store64_ne by lia. rewrite !zero_page_load8. by repeat case_decide.
Qed.

Lemma grow_load8_old b :
  b < q -> ~ (p + 8 * i <= b < p + 8 * i + 8) -> load8 m2 b = load8 (v_mem v) b.
Proof.
  intros Hb H. rewrite grow_load8. rewrite decide_False by done.
  rewrite decide_False; [done|]. unfold in_page in *. lia.
Qed.

Lemma grow_entry : load64 m2 (p + 8 * i) = mk_pte q PTE_V.
Proof.
  apply load64_store64, mk_pte_range; [|vm_compute; split; congruence].
  pose proof (page_ok_range (q + 4096) q ltac:(lia) grow_q). lia.
Qed.

Lemma grow_child p' j :
  page_ok q p' -> 0 <= j < 512 ->
  child m2 p' j = if decide (p' = p /\ j = i) then Some q else child (v_mem v) p' j.
Proof.
  intros Hp' Hj. pose proof grow_p as Hpp. unfold child. cbv zeta. case_decide as Hd.
  - destruct Hd as [-> ->]. rewrite grow_entry. unfold PTE_V.
    pose proof (page_ok_range (q + 4096) q ltac:(lia) grow_q).
    rewrite has_mk by (lia || vm_compute; split; congruence).
    rewrite PTE2PA_mk by (try apply grow_q; lia || vm_compute; split; congruence). done.
  - rewrite (load64_ext m2 (v_mem v)); [done|]. intros b Hb.
    apply grow_load8_old; [unfold page_ok in *; lia|].
    destruct (decide (p' = p)) as [->|Hne]; [lia|].
    destruct Hp' as [Hal' _], Hpp as [Hal _].
    pose proof (page_sep p' p Hal' Hal Hne). lia.
Qed.

Lemma grow_child_q j : 0 <= j < 512 -> child m2 q j = None.
Proof.
  intros Hj. pose proof grow_p as Hpp. unfold child. cbv zeta.
  rewrite (load_le_zero 8); [done|]. intros b Hb. rewrite grow_load8.
  rewrite decide_False by (unfold page_ok in *; lia).
  rewrite decide_True; [done|]. unfold in_page. lia.
Qed.

Lemma grow_node k' :
  key_ok k' ->
  node m2 pt k' = if decide (k' = child_key k i) then Some q else node (v_mem v) pt k'.
Proof.
  intros Hk'. pose proof (wf_page _ _ _ Hwf KRoot pt I eq_refl) as Hpt.
  pose proof grow_child as Hgc. pose proof grow_child_q as Hgq.
  destruct k' as [|x|x y]; cbn [key_ok] in Hk'.
  - rewrite decide_False; [reflexivity|]. by destruct k.
  - cbn [node]. rewrite Hgc by done.
    destruct k as [|k1|]; cbn [node child_key inner] in *; [| |done].
    + injection Hp as Hp'. subst p. repeat case_decide; naive_solver.
    + rewrite decide_False; [by rewrite decide_False|]. intros [-> ->].
      assert (KRoot = K1 k1) by (eapply (wf_inj _ _ _ Hwf); eauto; done). done.
  - destruct Hk' as [Hx Hy]. cbn [node]. rewrite Hgc by done.
    destruct k as [|k1|]; cbn [node child_key inner] in *; [| |done].
    + injection Hp as Hp'. subst p. rewrite (decide_False (P := K0 x y = K1 i)) by done.
      case_decide as Hd.
      * destruct Hd as [_ ->]. rewrite Hnone. cbn. by apply Hgq.
      * destruct (child (v_mem v) pt x) as [p'|] eqn:E; [|done]. simpl.
        rewrite Hgc; [|by apply (wf_page _ _ _ Hwf (K1 x))|done].
        rewrite decide_False; [done|]. intros [-> _].
        assert (K1 x = KRoot) by (eapply (wf_inj _ _ _ Hwf); eauto; done). done.
    + rewrite decide_False.
      2: { intros [-> ->]. assert (KRoot = K1 k1) by (eapply (wf_inj _ _ _ Hwf); eauto; done). done. }
      destruct (child (v_mem v) pt x) as [p'|] eqn:E; simpl.
      * rewrite Hgc; [|by apply (wf_page _ _ _ Hwf (K1 x))|done].
        case_decide as Hd.
        { destruct Hd as [-> ->].
          assert (K1 x = K1 k1) as Heq by (eapply (wf_inj _ _ _ Hwf); eauto; done).
          simplify_eq. by rewrite decide_True. }
        { rewrite decide_False; [done|]. intros Heq. simplify_eq. by destruct Hd. }
      * rewrite decide_False; [done|]. intros Heq. simplify_eq.
Qed.

Lemma grow_wf : pt_wf (q + 4096) m2 pt.
Proof.
  pose proof grow_q as Hq.
  split.
  - intros k' p' Hk'. rewrite grow_node by done. case_decide; intros Heq; simplify_eq; [done|].
    eapply page_ok_mono; [|by eapply (wf_page _ _ _ Hwf)]. lia.
  - intros k1 k2 p' H1 H2. rewrite !grow_node by done.
    assert (forall k', key_ok k' -> node (v_mem v) pt k' = Some q -> False) as Hfresh.
    { intros k' Hk' E. apply (wf_page _ _ _ Hwf) in E; [|done]. unfold page_ok in *. lia. }
    repeat case_decide; intros E1 E2; simplify_eq; try done.
    + by destruct (Hfresh k2).
    + by destruct (Hfresh k1).
    + by eapply (wf_inj _ _ _ Hwf).
  - intros k' p' j Hk' Hin' Hj. rewrite grow_node by done. case_decide as Hd.
    + intros E. injection E as <-. intros Hv.
      pose proof (grow_child_q j Hj) as Hc. unfold child in Hc. cbv zeta in Hc.
      by rewrite Hv in Hc.
    + intros E Hv. pose proof (wf_page _ _ _ Hwf _ _ Hk' E) as Hp'.
      destruct (decide (p' = p /\ j = i)) as [[-> ->]|Hne].
      * assert (k' = k) as -> by (by eapply (wf_inj _ _ _ Hwf)).
        split; [|done]. rewrite grow_entry. apply land_V_RWX.
        pose proof (page_ok_range (q + 4096) q ltac:(lia) grow_q). lia.
      * assert (load64 m2 (p' + 8 * j) = load64 (v_mem v) (p' + 8 * j)) as Eq.
        { apply load64_ext. intros b Hb. apply grow_load8_old; [unfold page_ok in *; lia|].
          pose proof grow_p as Hpp. destruct (decide (p' = p)) as [->|Hne']; [lia|].
          destruct Hp' as [Hal' _], Hpp as [Hal _].
          pose proof (page_sep p' p Hal' Hal Hne'). lia. }
        rewrite Eq in Hv |- *. by apply (wf_inner _ _ _ Hwf k').
Qed.

Lemma grow_lookup va : lookup_pte m2 pt va = lookup_pte (v_mem v) pt va.
Proof.
  pose proof (grow_node (leaf_key va) (key_ok_leaf va)) as HN.
  pose proof (PX_range 0 va ltac:(lia)) as Hx. pose proof grow_p as Hpp.
  case_decide as Hd.
  - rewrite (lookup_pte_none (v_mem v)).
    2: { rewrite Hd. exact (child_none (v_mem v) pt k p i Hin Hp Hnone). }
    rewrite (lookup_pte_node _ _ _ _ HN).
    rewrite (load_le_zero 8); [done|]. intros b Hb. rewrite grow_load8.
    rewrite decide_False by (unfold page_ok in *; lia).
    rewrite decide_True; [done|]. unfold in_page. lia.
  - destruct (node (v_mem v) pt (leaf_key va)) as [p0|] eqn:E.
    2: { by rewrite !lookup_pte_none. }
    rewrite (lookup_pte_node _ _ _ _ HN), (lookup_pte_node _ _ _ _ E).
    rewrite (load64_ext m2 (v_mem v)); [done|]. intros b Hb.
    pose proof (wf_page _ _ _ Hwf _ _ (key_ok_leaf va) E) as Hp0.
    apply grow_load8_old; [unfold page_ok in *; lia|].
    assert (p0 <> p) as Hne.
    { intros ->. assert (leaf_key va = k) as Heq by
        (eapply (wf_inj _ _ _ Hwf); eauto with oslab). by destruct k. }
    destruct Hp0 as [Hal0 _], Hpp as [Hal _].
    pose proof (page_sep p0 p Hal0 Hal Hne). lia.
Qed.

Lemma grow_ext : pt_ext pt v (mkVm m2 (q + 4096)).
Proof.
  split; cbn [v_mem v_freemem].
  - by apply vm_ok_alloc.
  - lia.
  - apply grow_wf.
  - intros k' p' Hk' E. rewrite grow_node by done. case_decide as Hd; [|done].
    exfalso. subst k'.
    rewrite (child_none (v_mem v) pt k p i Hin Hp Hnone) in E. congruence.
  - intros k' p' Hk'. rewrite grow_node by done. case_decide; intros; simplify_eq; [|by left].
    right. lia.
  - intros b Hb Hoff. apply grow_load8_old; [done|]. intros Hin'.
    apply (Hoff k p Hk Hp). unfold in_page. lia.
Qed.
End Grow.

(** * Relations between states *)

Lemma pt_ext_refl pt v : vm_ok v -> pt_wf (v_freemem v) (v_mem v) pt -> pt_ext pt v v.
Proof. intros. split; auto; lia. Qed.

Lemma pt_ext_trans pt v1 v2 v3 : pt_ext pt v1 v2 -> pt_ext pt v2 v3 -> pt_ext pt v1 v3.
Proof.
  intros A B. split.
  - exact (ext_vm _ _ _ B).
  - pose proof (ext_free _ _ _ A). pose proof (ext_free _ _ _ B). lia.
  - exact (ext_wf _ _ _ B).
  - intros k p Hk H. apply (ext_mono _ _ _ B); [done|]. by apply (ext_mono _ _ _ A).
  - intros k p Hk H. apply (ext_new _ _ _ B) in H as [H|H]; [|pose proof (ext_free _ _ _ A); right; lia|done].
    by apply (ext_new _ _ _ A).
  - intros b Hb Hoff. pose proof (ext_free _ _ _ A).
    rewrite (ext_frame _ _ _ B), (ext_frame _ _ _ A); [done|done|done|lia|].
    intros k p Hk H'. apply (ext_new _ _ _ A) in H' as [H'|H']; [by apply (Hoff k p)| |done].
    unfold in_page. lia.
Qed.

(** [pt_ext] without any change of the abstract contents. *)
Definition same_pte (pt : Z) (v v' : vmst) : Prop :=
  forall va, lookup_pte (v_mem v') pt va = lookup_pte (v_mem v) pt va.

(** * walk *)

Lemma walk_step_noalloc pagetable va level v :
  walk_step pagetable va level false v = Ok (child (v_mem v) pagetable (PX level va)) v.
Proof.
  unfold walk_step, gets, mbind, M_bind, child, mret, M_ret. cbv zeta.
  by destruct (has _ PTE_V).
Qed.

(** Without allocation, [walk] reads the tree and changes nothing. *)
Lemma walk_noalloc pt va v :
  va < MAXVA -> walk pt va false v = Ok (default 0 (leaf_addr (v_mem v) pt va)) v.
Proof.
  intros H. unfold walk. destruct (Z.leb_spec MAXVA va); [lia|].
  rewrite (bind_ok _ _ _ _ _ (walk_step_noalloc pt va 2 v)).
  unfold leaf_addr, leaf_key; simpl.
  destruct (child (v_mem v) pt (PX 2 va)) as [p1|] eqn:E1; [|done].
  rewrite (bind_ok _ _ _ _ _ (walk_step_noalloc p1 va 1 v)). simpl.
  by destruct (child (v_mem v) p1 (PX 1 va)).
Qed.

Lemma walk_step_alloc v pt k p va level :
  vm_ok v -> pt_wf (v_freemem v) (v_mem v) pt -> key_ok k -> inner k ->
  node (v_mem v) pt k = Some p -> 0 <= level -> (k = KRoot -> PX level va < 256) ->
  exists r v', walk_step p va level true v = Ok r v' /\
    pt_ext pt v v' /\ same_pte pt v v' /\
    node (v_mem v') pt (child_key k (PX level va)) = r /\
    v_freemem v' <= v_freemem v + 4096 /\
    (r = None -> v' = v /\ PHYSTOP < v_freemem v + 4096).
Proof.
  intros Hvm Hwf Hk Hin Hp Hl Hhalf. pose proof (PX_range level va Hl) as Hx.
  unfold walk_step. mstep. cbv zeta.
  destruct (has (load64 (v_mem v) (p + 8 * PX level va)) PTE_V) eqn:Hv.
  - eexists _, v. split; [reflexivity|].
    split; [by apply pt_ext_refl|]. split; [done|]. split; [|split; [lia|done]].
    destruct k; simpl in *; [simplify_eq|rewrite Hp; simpl|done];
      unfold child; cbv zeta; by rewrite Hv.
  - cbn [negb]. 
    assert (child (v_mem v) p (PX level va) = None) as Hnone
      by (unfold child; cbv zeta; by rewrite Hv).
    pose proof (kalloc_ok v Hvm) as Ka.
    destruct (Z.leb_spec (v_freemem v + 4096) PHYSTOP) as [Hm|Hm]; mrun Ka.
    + pose proof (proj2 Hvm) as Hr. unfold KERNBASE in Hr.
      destruct (Z.eqb_spec (v_freemem v) 0); [lia|]. mstep.
      eexists (Some (v_freemem v)), (mkVm (grow_mem v p (PX level va)) (v_freemem v + 4096)).
      split; [reflexivity|].
      split; [exact (grow_ext v pt k p _ Hvm Hwf Hm Hk Hin Hp Hx Hnone Hhalf)|].
      split; [exact (grow_lookup v pt k p _ Hvm Hwf Hm Hk Hin Hp Hx Hnone Hhalf)|].
      split; [|split; [cbn; lia|done]].
      cbn [v_mem].
      rewrite (grow_node v pt k p _ Hvm Hwf Hm Hk Hin Hp Hx Hnone Hhalf) by (by destruct k).
      by rewrite decide_True.
    + eexists None, v. split; [reflexivity|].
      split; [by apply pt_ext_refl|]. split; [done|].
      split; [by eapply child_none|split; [lia|split; [done|lia]]].
Qed.

Lemma PX2_half va : valid_va va -> PX 2 va < 256.
Proof.
  intros [H0 H1]. rewrite PX_eq by lia. change (2 ^ (12 + 9 * 2)) with (2 ^ 30).
  assert (0 <= va / 2 ^ 30 < 256).
  { split; [apply Z.div_pos; lia|]. apply Z.div_lt_upper_bound; [lia|].
    change MAXVA with (2 ^ 30 * 256) in H1. lia. }
  rewrite Z.mod_small by lia. lia.
Qed.

(** With allocation, [walk] makes the path to the entry, changing no mapping;
    it returns 0 only when memory is exhausted. *)
Lemma walk_alloc v pt va :
  vm_ok v -> pt_wf (v_freemem v) (v_mem v) pt -> valid_va va ->
  exists r v', walk pt va true v = Ok r v' /\
    pt_ext pt v v' /\ same_pte pt v v' /\ v_freemem v' <= v_freemem v + 2 * 4096 /\
    (r = 0 /\ PHYSTOP < v_freemem v' + 4096 /\ node (v_mem v) pt (leaf_key va) = None /\
       PHYSTOP < v_freemem v + 2 * 4096 \/
     r <> 0 /\ leaf_addr (v_mem v') pt va = Some r).
Proof.
  intros Hvm Hwf Hva. unfold walk. destruct (Z.leb_spec MAXVA va); [unfold valid_va in *; lia|].
  destruct (walk_step_alloc v pt KRoot pt va 2) as (r1 & v1 & E1 & X1 & S1 & N1 & F1 & Z1);
    [done..|lia|by intros _; apply PX2_half|].
  rewrite (bind_ok _ _ _ _ _ E1). destruct r1 as [p1|].
  2: { exists 0, v1. destruct (Z1 eq_refl) as [-> ?].
       split; [done|]. split; [done|]. split; [done|]. split; [lia|]. left.
       split; [done|]. split; [lia|]. split; [|lia].
       cbn [child_key node] in N1. unfold leaf_key. cbn [node]. by rewrite N1. }
  pose proof (PX_range 2 va ltac:(lia)).
  destruct (walk_step_alloc v1 pt (K1 (PX 2 va)) p1 va 1)
    as (r0 & v0 & E0 & X0 & S0 & N0 & F0 & Z0);
    [exact (ext_vm _ _ _ X1)|exact (ext_wf _ _ _ X1)|done|done|done|lia|done|].
  rewrite (bind_ok _ _ _ _ _ E0). pose proof (pt_ext_trans _ _ _ _ X1 X0) as X.
  assert (same_pte pt v v0) as HS by (intros va'; by rewrite S0, S1).
  destruct r0 as [p0|].
  - eexists _, v0. split; [reflexivity|]. split; [done|]. split; [done|]. split; [lia|].
    right. change (child_key (K1 (PX 2 va)) (PX 1 va)) with (leaf_key va) in N0.
    split; [|unfold leaf_addr; by rewrite N0].
    apply (wf_page _ _ _ (ext_wf _ _ _ X)) in N0; [|auto with oslab].
    pose proof (PX_range 0 va ltac:(lia)). unfold page_ok, KERNBASE in *. lia.
  - exists 0, v0. destruct (Z0 eq_refl) as [-> ?]. split; [done|]. split; [done|]. split; [done|].
    split; [lia|]. left. split; [done|]. split; [lia|]. split; [|lia].
    destruct (node (v_mem v) pt (leaf_key va)) eqn:En; [|done].
    apply (ext_mono _ _ _ X1) in En; [|auto with oslab].
    change (child_key (K1 (PX 2 va)) (PX 1 va)) with (leaf_key va) in N0. congruence.
Qed.

(** * Writing a leaf entry *)

Section SetLeaf.
Context (v : vmst) (pt va a e : Z).
Hypothesis Hvm : vm_ok v.
Hypothesis Hwf : pt_wf (v_freemem v) (v_mem v) pt.
Hypothesis Hleaf : leaf_addr (v_mem v) pt va = Some a.
Hypothesis He : 0 <= e < 2 ^ 64.

#[local] Abbreviation m' := (store64 (v_mem v) a e).

Lemma leaf_page : exists p, node (v_mem v) pt (leaf_key va) = Some p /\ a = p + 8 * PX 0 va /\
  page_ok (v_freemem v) p.
Proof.
  unfold leaf_addr in Hleaf. destruct (node (v_mem v) pt (leaf_key va)) as [p|] eqn:E; [|done].
  simpl in Hleaf. simplify_eq. exists p. split_and!; try done.
  all: apply (wf_page _ _ _ Hwf) in E; [|auto with oslab]; apply E.
Qed.

(** Another page of the tree is not written. *)
Lemma set_leaf_other k p b :
  key_ok k -> k <> leaf_key va -> node (v_mem v) pt k = Some p -> in_page p b ->
  load8 (v_mem v) b = load8 m' b.
Proof.
  intros Hk Hne Hn Hb. destruct leaf_page as (p0 & E & -> & Hp0).
  pose proof (PX_range 0 va ltac:(lia)). symmetry. apply load8_store64_ne.
  assert (p <> p0) as Hpne.
  { intros ->. destruct Hne. eapply (wf_inj _ _ _ Hwf); eauto with oslab. }
  pose proof (wf_page _ _ _ Hwf _ _ Hk Hn) as [Hal _]. destruct Hp0 as [Hal0 _].
  pose proof (page_sep p p0 Hal Hal0 Hpne). unfold in_page in *. lia.
Qed.

Lemma set_leaf_node k : key_ok k -> node m' pt k = node (v_mem v) pt k.
Proof.
  assert (KRoot <> leaf_key va) as HR by done.
  intros Hk. destruct k as [|i|i j]; cbn [node] in *; [done| |].
  - symmetry. apply child_ext; [done|]. intros b Hb. by apply (set_leaf_other KRoot pt).
  - destruct Hk as [Hi Hj].
    rewrite <- (child_ext (v_mem v) m' pt i)
      by (done || intros b Hb; by apply (set_leaf_other KRoot pt)).
    destruct (child (v_mem v) pt i) as [p|] eqn:E; simpl; [|done].
    symmetry. apply child_ext; [done|]. intros b Hb. by apply (set_leaf_other (K1 i) p).
Qed.

Lemma set_leaf_lookup va' :
  valid_va va -> valid_va va' ->
  lookup_pte m' pt va' =
  if decide (va' / 4096 = va / 4096) then (if has e PTE_V then Some e else None)
  else lookup_pte (v_mem v) pt va'.
Proof.
  intros Hva Hva'. pose proof (set_leaf_node (leaf_key va') (key_ok_leaf va')) as HN.
  destruct leaf_page as (p0 & E & Ha & Hp0).
  pose proof (PX_range 0 va ltac:(lia)). pose proof (PX_range 0 va' ltac:(lia)).
  case_decide as Hd.
  - assert (forall l, 0 <= l -> PX l va' = PX l va) as HPX.
    { intros l Hl. rewrite !PX_eq by lia. rewrite Z.pow_add_r by lia.
      change (2 ^ 12) with 4096. rewrite <- !Z.div_div by lia. by rewrite Hd. }
    assert (leaf_key va' = leaf_key va) as Hk by (unfold leaf_key; rewrite !HPX by lia; done).
    rewrite Hk, E in HN. rewrite <- Hk in HN. rewrite (lookup_pte_node _ _ _ _ HN).
    rewrite HPX by lia. rewrite <- Ha. by rewrite load64_store64.
  - destruct (node (v_mem v) pt (leaf_key va')) as [p|] eqn:E'.
    2: { by rewrite !lookup_pte_none. }
    rewrite (lookup_pte_node _ _ _ _ HN), (lookup_pte_node _ _ _ _ E').
    rewrite (load64_ext m' (v_mem v)); [done|]. intros b Hb.
    destruct (decide (leaf_key va' = leaf_key va)) as [Hk|Hk].
    + rewrite Hk, E in E'. simplify_eq.
      apply load8_store64_ne.
      assert (PX 0 va' <> PX 0 va); [|lia].
      intros H0'. destruct Hd. unfold leaf_key in Hk. simplify_eq. by apply PX_inj.
    + symmetry. apply (set_leaf_other (leaf_key va') p); auto with oslab.
      unfold in_page. lia.
Qed.

Lemma set_leaf_ext : pt_ext pt v (mkVm m' (v_freemem v)).
Proof.
  split; simpl.
  - done.
  - lia.
  - split.
    + intros k p Hk. rewrite set_leaf_node by done. by apply (wf_page _ _ _ Hwf).
    + intros k k' p Hk Hk'. rewrite !set_leaf_node by done. by apply (wf_inj _ _ _ Hwf).
    + intros k p i Hk Hin Hi. rewrite set_leaf_node by done. intros E.
      rewrite <- (load64_ext (v_mem v) m'); [by apply (wf_inner _ _ _ Hwf)|].
      intros b Hb. apply (set_leaf_other k p); [done|by destruct k|done|unfold in_page; lia].
  - intros k p Hk. by rewrite set_leaf_node.
  - intros k p Hk. rewrite set_leaf_node by done. by left.
  - intros b Hb Hoff. destruct leaf_page as (p0 & E & -> & Hp0).
    apply load8_store64_ne. pose proof (PX_range 0 va ltac:(lia)).
    pose proof (Hoff _ _ (key_ok_leaf va) E) as Hn. unfold in_page in Hn. lia.
Qed.
End SetLeaf.

(** * mappages *)

(** [n] pages from [va] are mapped to the [n] pages from [pa] with [flags];
    every other address keeps its entry. *)
Definition maps_range (m m' : mem) (pt va pa flags n : Z) : Prop :=
  forall va', valid_va va' ->
  lookup_pte m' pt va' =
  if decide (va <= va' < va + n * 4096)
  then Some (mk_pte (pa + (PGROUNDDOWN va' - va)) flags)
  else lookup_pte m pt va'.

Lemma flags_range perm : 0 <= perm < 1024 -> 0 <= Z.lor perm PTE_V < 1024.
Proof. intros. apply (lor_range perm PTE_V 10); [lia|done|vm_compute; split; congruence]. Qed.

Lemma has_V_flags perm : has (Z.lor perm PTE_V) PTE_V = true.
Proof. unfold PTE_V at 2. rewrite has_bit by lia. rewrite Z.lor_spec. apply orb_true_r. Qed.

Lemma aligned_div va va' :
  va mod 4096 = 0 -> va' / 4096 = va / 4096 <-> va <= va' < va + 4096.
Proof.
  intros H. pose proof (Z.div_mod va 4096 ltac:(lia)). split.
  - intros E. pose proof (Z.div_mod va' 4096 ltac:(lia)).
    pose proof (Z.mod_pos_bound va' 4096 ltac:(lia)). lia.
  - intros Hr. symmetry. apply Z.div_unique with (va' - va); lia.
Qed.

Lemma mod_4096_add a k : a mod 4096 = 0 -> (a + k * 4096) mod 4096 = 0.
Proof. intros. by rewrite Z_mod_plus_full. Qed.

(** One round of the loop on an unmapped page. *)
Lemma map_one v pt va pa perm :
  vm_ok v -> pt_wf (v_freemem v) (v_mem v) pt -> valid_va va -> va mod 4096 = 0 ->
  0 <= pa < 2 ^ 56 -> pa mod 4096 = 0 -> 0 <= perm < 1024 ->
  lookup_pte (v_mem v) pt va = None ->
  exists r v1, walk pt va true v = Ok r v1 /\ pt_ext pt v v1 /\ same_pte pt v v1 /\
    v_freemem v1 <= v_freemem v + 2 * 4096 /\
    (r = 0 /\ PHYSTOP < v_freemem v1 + 4096 \/
     r <> 0 /\ has (load64 (v_mem v1) r) PTE_V = false /\
     let v2 := on_mem (fun m => store64 m r (Z.lor (Z.lor (PA2PTE pa) perm) PTE_V)) v1 in
     pt_ext pt v v2 /\ v_freemem v2 = v_freemem v1 /\
     maps_range (v_mem v) (v_mem v2) pt va pa (Z.lor perm PTE_V) 1).
Proof.
  intros Hvm Hwf Hva Hal Hpa Hpal Hperm Hnone.
  destruct (walk_alloc v pt va Hvm Hwf Hva) as (r & v1 & E & X & S & F & HR).
  exists r, v1. split_and!; try done. destruct HR as [(? & ? & ? & ?)|[Hr Hl]]; [by left|right].
  pose proof (S va) as Sva. rewrite Hnone in Sva. unfold lookup_pte in Sva.
  rewrite Hl in Sva. simpl in Sva.
  destruct (has (load64 (v_mem v1) r) PTE_V) eqn:Hh; [done|].
  split; [done|]. split; [done|]. cbv zeta.
  rewrite <- Z.lor_assoc. fold (mk_pte pa (Z.lor perm PTE_V)).
  pose proof (flags_range perm Hperm) as Hfl.
  pose proof (mk_pte_range pa (Z.lor perm PTE_V) Hpa Hfl) as He.
  split; [|split; [done|]].
  - apply (pt_ext_trans _ _ _ _ X).
    exact (set_leaf_ext v1 pt va r _ (ext_vm _ _ _ X) (ext_wf _ _ _ X) Hl).
  - intros va' Hva'. simpl v_mem.
    rewrite (set_leaf_lookup v1 pt va r _ (ext_wf _ _ _ X) Hl He va' Hva Hva').
    pose proof (aligned_div va va' Hal) as Hiff.
    rewrite S. unfold PTE_V at 2. rewrite has_mk by (done || lia).
    change (Z.shiftl 1 0) with PTE_V. rewrite has_V_flags.
    repeat case_decide; try done; try lia.
    rewrite PGROUNDDOWN_eq.
    replace (va' / 4096) with (va / 4096) by lia.
    pose proof (Z.div_mod va 4096 ltac:(lia)).
    by replace (pa + (4096 * (va / 4096) - va)) with pa by lia.
Qed.

(** The pages left to map are unmapped. *)
Definition unmapped (m : mem) (pt va n : Z) : Prop :=
  forall va', valid_va va' -> va <= va' < va + n * 4096 -> lookup_pte m pt va' = None.

Lemma maps_range_step m m1 m2 pt va pa fl n :
  va mod 4096 = 0 -> 0 <= n -> maps_range m m1 pt va pa fl 1 ->
  maps_range m1 m2 pt (va + 4096) (pa + 4096) fl n ->
  maps_range m m2 pt va pa fl (n + 1).
Proof.
  intros Hal Hn H1 H2 va' Hva'. rewrite H2, H1 by done.
  repeat case_decide; try lia; try done. do 2 f_equal. lia.
Qed.

Lemma maps_range_0 m pt va pa fl : maps_range m m pt va pa fl 0.
Proof. intros va' _. by rewrite decide_False by lia. Qed.

Lemma mappages_loop_S f pagetable a last pa perm :
  mappages_loop (S f) pagetable a last pa perm =
  (pte ← walk pagetable a true;
   if pte =? 0 then mret (-1) else
   m ← gets v_mem;
   if has (load64 m pte) PTE_V then panic "mappages: remap" else
   modify (on_mem (fun m => store64 m pte (Z.lor (Z.lor (PA2PTE pa) perm) PTE_V)));;
   if a =? last then mret 0 else
   mappages_loop f pagetable (u64 (a + PGSIZE)) last (u64 (pa + PGSIZE)) perm).
Proof. done. Qed.

Lemma mappages_loop_ok n : forall v pt va pa perm,
  vm_ok v -> pt_wf (v_freemem v) (v_mem v) pt ->
  0 <= va -> va mod 4096 = 0 -> va + Z.of_nat (S n) * 4096 <= MAXVA ->
  0 <= pa -> pa mod 4096 = 0 -> pa + Z.of_nat (S n) * 4096 <= 2 ^ 56 ->
  0 <= perm < 1024 -> unmapped (v_mem v) pt va (Z.of_nat (S n)) ->
  exists r v',
    mappages_loop (S n) pt va (va + Z.of_nat n * 4096) pa perm v = Ok r v' /\
    pt_ext pt v v' /\ v_freemem v' <= v_freemem v + Z.of_nat (S n) * (2 * 4096) /\
    (r = 0 /\ maps_range (v_mem v) (v_mem v') pt va pa (Z.lor perm PTE_V) (Z.of_nat (S n)) \/
     r = -1 /\ PHYSTOP < v_freemem v' + 4096 /\
     exists j, 0 <= j < Z.of_nat (S n) /\
       maps_range (v_mem v) (v_mem v') pt va pa (Z.lor perm PTE_V) j).
Proof.
  induction n as [|n IH]; intros v pt va pa perm Hvm Hwf Hva Hal Hmax Hpa Hpal Hpmax Hperm Hun.
  all: assert (valid_va va) as Hvva by (unfold valid_va; lia).
  all: destruct (map_one v pt va pa perm) as (r & v1 & E & X & S & F & HR);
    [done|done|done|done|lia|done|done|apply Hun; [done|lia]|].
  all: rewrite mappages_loop_S; mrun E.
  all: destruct HR as [[-> Hfull]|(Hr & Hh & HX2 & HF2 & HM)].
  all: try (exists (-1), v1; split; [reflexivity|]; split; [done|]; split; [lia|];
       right; split; [done|]; split; [done|]; exists 0; split; [lia|];
       intros va' Hva'; rewrite S; by rewrite decide_False by lia).
  all: destruct (Z.eqb_spec r 0); [done|];
       mstep; rewrite Hh; mstep.
  - destruct (Z.eqb_spec va (va + Z.of_nat 0 * 4096)); [|lia].
    eexists 0, _. split; [reflexivity|]. split; [done|]. split; [rewrite HF2; lia|].
    left. split; [done|]. exact HM.
  - destruct (Z.eqb_spec va (va + Z.of_nat (Datatypes.S n) * 4096)); [lia|].
    unfold MAXVA in Hmax. change (Z.shiftl 1 (9 + 9 + 9 + 12 - 1)) with (2 ^ 38) in Hmax.
    change PGSIZE with 4096. rewrite !u64_small by lia.
    set (v2 := on_mem _ v1) in *.
    destruct (IH v2 pt (va + 4096) (pa + 4096) perm) as (r2 & v' & E2 & X2 & F2 & HR2).
    + exact (ext_vm _ _ _ HX2).
    + exact (ext_wf _ _ _ HX2).
    + lia.
    + by apply (mod_4096_add va 1).
    + unfold MAXVA. change (Z.shiftl 1 (9 + 9 + 9 + 12 - 1)) with (2 ^ 38). lia.
    + lia.
    + by apply (mod_4096_add pa 1).
    + lia.
    + done.
    + intros va' Hva' Hr'. rewrite HM by done. rewrite decide_False by lia.
      apply Hun; [done|lia].
    + replace (va + Z.of_nat (Datatypes.S n) * 4096) with (va + 4096 + Z.of_nat n * 4096) by lia.
      exists r2, v'. split; [exact E2|]. split; [exact (pt_ext_trans _ _ _ _ HX2 X2)|].
      split; [lia|]. destruct HR2 as [[-> HM2]|(-> & Hfull & j & Hj & HM2)].
      * left. split; [done|].
        replace (Z.of_nat (Datatypes.S (Datatypes.S n)))
          with (Z.of_nat (Datatypes.S n) + 1) by lia.
        apply (maps_range_step _ (v_mem v2)); [done|lia|done|done].
      * right. split; [done|]. split; [done|]. exists (j + 1). split; [lia|].
        apply (maps_range_step _ (v_mem v2)); [done|lia|done|done].
Qed.

(** The preconditions of [mappages]: page-aligned ranges inside the address
    spaces, flag bits only, and nothing mapped there yet. *)
Record map_pre (v : vmst) (pt va size pa perm : Z) : Prop := {
  mp_vm : vm_ok v;
  mp_wf : pt_wf (v_freemem v) (v_mem v) pt;
  mp_va : 0 <= va /\ va mod 4096 = 0 /\ va + size <= MAXVA;
  mp_size : 0 < size /\ size mod 4096 = 0;
  mp_pa : 0 <= pa /\ pa mod 4096 = 0 /\ pa + size <= 2 ^ 56;
  mp_perm : 0 <= perm < 1024;
  mp_un : unmapped (v_mem v) pt va (size / 4096)
}.

Lemma mappages_ok v pt va size pa perm :
  map_pre v pt va size pa perm ->
  exists r v', mappages pt va size pa perm v = Ok r v' /\
    pt_ext pt v v' /\ v_freemem v' <= v_freemem v + size / 4096 * (2 * 4096) /\
    (r = 0 /\ maps_range (v_mem v) (v_mem v') pt va pa (Z.lor perm PTE_V) (size / 4096) \/
     r = -1 /\ PHYSTOP < v_freemem v' + 4096 /\
     exists j, 0 <= j < size / 4096 /\
       maps_range (v_mem v) (v_mem v') pt va pa (Z.lor perm PTE_V) j).
Proof.
  intros [Hvm Hwf (Hva & Hal & Hmax) (Hs & Hsal) (Hpa & Hpal & Hpmax) Hperm Hun].
  unfold mappages. change PGSIZE with 4096. rewrite Hal, Hsal. simpl negb. cbv iota.
  destruct (Z.eqb_spec size 0); [lia|].
  pose proof (Z.div_mod size 4096 ltac:(lia)) as Hd.
  assert (0 < size / 4096) by (apply Z.div_str_pos; lia).
  destruct (Z.to_nat (size / 4096)) as [|k] eqn:En; [lia|].
  assert (size / 4096 = Z.of_nat (S k)) as Hn by lia.
  replace (u64 (va + size - 4096)) with (va + Z.of_nat k * 4096).
  2: { rewrite u64_small; unfold MAXVA in *; change (Z.shiftl 1 (9 + 9 + 9 + 12 - 1)) with (2 ^ 38) in *; lia. }
  rewrite Hn in *. apply mappages_loop_ok; try done; lia.
Qed.

(** An all-zero page is an empty page table. *)
Lemma empty_child m p i : (forall b, in_page p b -> load8 m b = 0) -> 0 <= i < 512 -> child m p i = None.
Proof.
  intros H Hi. unfold child. cbv zeta. rewrite (load_le_zero 8); [done|].
  intros b Hb. apply H. unfold in_page. lia.
Qed.

Lemma empty_node m pt k :
  (forall b, in_page pt b -> load8 m b = 0) -> key_ok k -> k <> KRoot -> node m pt k = None.
Proof.
  intros H Hk Hne. destruct k as [|i|i j]; [done| |destruct Hk]; cbn [node];
    by rewrite empty_child.
Qed.

Lemma pt_wf_empty hi m pt :
  page_ok hi pt -> (forall b, in_page pt b -> load8 m b = 0) -> pt_wf hi m pt.
Proof.
  intros Hp H. split.
  - intros k p Hk E. destruct (decide (k = KRoot)) as [->|Hne]; [by injection E as <-|].
    by rewrite empty_node in E.
  - intros k k' p Hk Hk' E E'.
    destruct (decide (k = KRoot)) as [->|Hne]; [|by rewrite empty_node in E].
    destruct (decide (k' = KRoot)) as [->|Hne']; [done|by rewrite empty_node in E'].
  - intros k p i Hk Hin Hi E Hv. exfalso.
    destruct (decide (k = KRoot)) as [->|Hne]; [|by rewrite empty_node in E].
    injection E as <-. pose proof (empty_child m pt i H Hi) as Hc.
    unfold child in Hc. cbv zeta in Hc. by rewrite Hv in Hc.
Qed.

Lemma lookup_empty_pt m pt va :
  (forall b, in_page pt b -> load8 m b = 0) -> lookup_pte m pt va = None.
Proof. intros H. apply lookup_pte_none, empty_node; auto with oslab; done. Qed.

Lemma kalloc_spec v :
  vm_ok v ->
  exists p v', kalloc v = Ok p v' /\ vm_ok v' /\
    (p = 0 /\ v' = v /\ PHYSTOP < v_freemem v + 4096 \/
     p <> 0 /\ p = v_freemem v /\ page_ok (v_freemem v') p /\
     v_freemem v' = v_freemem v + 4096 /\
     (forall b, load8 (v_mem v') b = if decide (in_page p b) then 0 else load8 (v_mem v) b)).
Proof.
  intros Hvm. rewrite kalloc_ok by done.
  destruct (Z.leb_spec (v_freemem v + 4096) PHYSTOP) as [Hm|Hm].
  - eexists _, _. split; [reflexivity|]. split; [by apply vm_ok_alloc|]. right.
    destruct Hvm as [Hal Hr]. cbn [v_mem v_freemem]. unfold page_ok, KERNBASE in *.
    split; [lia|]. split; [done|]. split; [lia|]. split; [done|].
    intros b. apply zero_page_load8.
  - exists 0, v. split_and!; try done; try apply Hvm. by left.
Qed.

(** * Theorems *)

(** The allocator hands out each page of [[end, PHYSTOP)] at most once:
    a successful [kalloc] returns the page-aligned page at the old allocation
    pointer (so above every page handed out before), zeroed, leaves every
    other byte of memory unchanged and moves the pointer past it; it returns
    0, changing nothing, exactly when no page is left. *)
Theorem kalloc_correct v :
  vm_ok v ->
  exists p v', kalloc v = Ok p v' /\ vm_ok v' /\
    (p = 0 <-> PHYSTOP < v_freemem v + PGSIZE) /\ (p = 0 -> v' = v) /\
    (p <> 0 ->
     v_freemem v <= p /\ p + PGSIZE <= v_freemem v' <= PHYSTOP /\ p mod PGSIZE = 0 /\
     (forall b, load8 (v_mem v') b = if decide (p <= b < p + PGSIZE) then 0 else load8 (v_mem v) b)).
Proof.
  intros Hvm. destruct (kalloc_spec v Hvm) as (p & v' & E & Hvm' & H).
  exists p, v'. split; [done|]. split; [done|]. change PGSIZE with 4096.
  destruct H as [(-> & -> & Hf)|(Hp & Hpe & Hok & Hf & Hmem)].
  - split; [lia|]. split; done.
  - destruct Hok as (Hal & Hlo & Hhi). pose proof (proj2 Hvm').
    split; [lia|]. split; [intros; contradiction|].
    intros _. split; [lia|]. split; [lia|]. split; [exact Hal|].
    exact Hmem.
Qed.

(** A page table at the start of RAM, and 100 free pages. *)
Definition demo_vm : vmst := mkVm ∅ (PHYSTOP - 100 * 4096).
Definition demo_pt : Z := KERNBASE.

Lemma demo_vm_ok : vm_ok demo_vm.
Proof. split; vm_compute; [done | split; congruence]. Qed.

Lemma demo_pt_wf : pt_wf (v_freemem demo_vm) (v_mem demo_vm) demo_pt.
Proof.
  apply pt_wf_empty; [|done]. unfold page_ok. split_and!; vm_compute; done.
Qed.

Lemma kalloc_correct_witness :
  exists p v', kalloc demo_vm = Ok p v' /\ vm_ok v' /\
    (p = 0 <-> PHYSTOP < v_freemem demo_vm + PGSIZE) /\ (p = 0 -> v' = demo_vm) /\
    (p <> 0 ->
     v_freemem demo_vm <= p /\ p + PGSIZE <= v_freemem v' <= PHYSTOP /\ p mod PGSIZE = 0 /\
     (forall b, load8 (v_mem v') b =
        if decide (p <= b < p + PGSIZE) then 0 else load8 (v_mem demo_vm) b)).
Proof. apply kalloc_correct. exact demo_vm_ok. Defined.

(** [walk] with [alloc] makes the path to the entry of [va] and changes no
    mapping: the tree stays well formed, the entry for every address is what
    it was, allocated memory outside the tree is untouched, and the result is
    the entry's address, or 0 only when the two pages it may need are not
    available. *)
Theorem walk_alloc_correct v pt va :
  vm_ok v -> pt_wf (v_freemem v) (v_mem v) pt -> valid_va va ->
  exists r v', walk pt va true v = Ok r v' /\
    vm_ok v' /\ pt_wf (v_freemem v') (v_mem v') pt /\
    (forall va', lookup_pte (v_mem v') pt va' = lookup_pte (v_mem v) pt va') /\
    (forall b, b < v_freemem v -> off_tree (v_mem v) pt b ->
       load8 (v_mem v') b = load8 (v_mem v) b) /\
    (r <> 0 -> leaf_addr (v_mem v') pt va = Some r) /\
    (v_freemem v + 2 * PGSIZE <= PHYSTOP -> r <> 0).
Proof.
  intros Hvm Hwf Hva. destruct (walk_alloc v pt va Hvm Hwf Hva) as (r & v' & E & X & S & F & HR).
  exists r, v'. split; [done|]. split; [exact (ext_vm _ _ _ X)|].
  split; [exact (ext_wf _ _ _ X)|]. split; [exact S|]. split; [exact (ext_frame _ _ _ X)|].
  change PGSIZE with 4096.
  destruct HR as [(-> & ? & ? & ?)|[Hr Hl]]; [split; [done|lia]|done].
Qed.

Lemma walk_alloc_correct_witness :
  exists r v', walk demo_pt 0x3000 true demo_vm = Ok r v' /\
    vm_ok v' /\ pt_wf (v_freemem v') (v_mem v') demo_pt /\
    (forall va', lookup_pte (v_mem v') demo_pt va' = lookup_pte (v_mem demo_vm) demo_pt va') /\
    (forall b, b < v_freemem demo_vm -> off_tree (v_mem demo_vm) demo_pt b ->
       load8 (v_mem v') b = load8 (v_mem demo_vm) b) /\
    (r <> 0 -> leaf_addr (v_mem v') demo_pt 0x3000 = Some r) /\
    (v_freemem demo_vm + 2 * PGSIZE <= PHYSTOP -> r <> 0).
Proof.
  apply walk_alloc_correct; [exact demo_vm_ok | exact demo_pt_wf | vm_compute; split; congruence].
Defined.

(** C26: [mappages] refines insertion into the abstract map: on an unmapped,
    aligned range with memory to spare it returns 0, every page of the range
    now maps to the corresponding physical page with exactly the requested
    permissions, every other address keeps its entry, the tree stays well
    formed and no other allocated memory changes.  When memory runs out it
    returns -1 with only a prefix of the range mapped. *)
Theorem mappages_refines_map v pt va size pa perm :
  map_pre v pt va size pa perm ->
  exists r v', mappages pt va size pa perm v = Ok r v' /\
    vm_ok v' /\ pt_wf (v_freemem v') (v_mem v') pt /\
    (forall b, b < v_freemem v -> off_tree (v_mem v) pt b ->
       load8 (v_mem v') b = load8 (v_mem v) b) /\
    (r = 0 /\ maps_range (v_mem v) (v_mem v') pt va pa (Z.lor perm PTE_V) (size / PGSIZE) \/
     r = -1 /\ exists j, 0 <= j < size / PGSIZE /\
       maps_range (v_mem v) (v_mem v') pt va pa (Z.lor perm PTE_V) j) /\
    (v_freemem v + (2 * (size / PGSIZE) + 1) * PGSIZE <= PHYSTOP -> r = 0).
Proof.
  intros Hpre. destruct (mappages_ok v pt va size pa perm Hpre) as (r & v' & E & X & F & HR).
  exists r, v'. split; [done|]. split; [exact (ext_vm _ _ _ X)|].
  split; [exact (ext_wf _ _ _ X)|]. split; [exact (ext_frame _ _ _ X)|].
  change PGSIZE with 4096.
  destruct HR as [[-> HM]|(-> & Hfull & j & Hj & HM)].
  - split; [by left|done].
  - split; [right; eauto|]. lia.
Qed.

Lemma mappages_refines_map_witness :
  exists r v', mappages demo_pt 0 0x2000 0x80004000 (Z.lor PTE_R PTE_U) demo_vm = Ok r v' /\
    vm_ok v' /\ pt_wf (v_freemem v') (v_mem v') demo_pt /\
    (forall b, b < v_freemem demo_vm -> off_tree (v_mem demo_vm) demo_pt b ->
       load8 (v_mem v') b = load8 (v_mem demo_vm) b) /\
    (r = 0 /\ maps_range (v_mem demo_vm) (v_mem v') demo_pt 0 0x80004000
                (Z.lor (Z.lor PTE_R PTE_U) PTE_V) (0x2000 / PGSIZE) \/
     r = -1 /\ exists j, 0 <= j < 0x2000 / PGSIZE /\
       maps_range (v_mem demo_vm) (v_mem v') demo_pt 0 0x80004000
         (Z.lor (Z.lor PTE_R PTE_U) PTE_V) j) /\
    (v_freemem demo_vm + (2 * (0x2000 / PGSIZE) + 1) * PGSIZE <= PHYSTOP -> r = 0).
Proof.
  apply mappages_refines_map. split.
  - exact demo_vm_ok.
  - exact demo_pt_wf.
  - split_and!; vm_compute; done || congruence.
  - split; vm_compute; done.
  - split_and!; vm_compute; done || congruence.
  - vm_compute; split; congruence.
  - intros va' _ _. by apply lookup_empty_pt.
Defined.

(** [mappages] never overwrites a mapping: if the first page of the range
    is already mapped it panics with the code's "remap" message. *)
Lemma mappages_remap_panics v pt va size pa perm e :
  vm_ok v -> pt_wf (v_freemem v) (v_mem v) pt -> valid_va va ->
  va mod PGSIZE = 0 -> 0 < size -> size mod PGSIZE = 0 ->
  lookup_pte (v_mem v) pt va = Some e ->
  exists v', mappages pt va size pa perm v = Panic "mappages: remap" v'.
Proof.
  intros Hvm Hwf Hva Hal Hs Hsal He. change PGSIZE with 4096 in *.
  unfold mappages. change PGSIZE with 4096. rewrite Hal, Hsal. cbn [negb].
  change (negb (0 =? 0)) with false. cbv iota.
  destruct (Z.eqb_spec size 0); [lia|].
  assert (0 < size / 4096) by (apply Z.div_str_pos; split; [lia|];
    apply Z.mod_divide in Hsal as [x ->]; lia).
  destruct (Z.to_nat (size / 4096)) as [|k] eqn:En; [lia|].
  destruct (walk_alloc v pt va Hvm Hwf Hva) as (r & v' & E & X & S & F & HR).
  rewrite mappages_loop_S. mrun E.
  destruct HR as [(-> & _ & Hn & _)|[Hr Hl]].
  - rewrite lookup_pte_none in He by done. done.
  - destruct (Z.eqb_spec r 0); [done|]. mstep.
    pose proof (S va) as Sva. rewrite He in Sva. unfold lookup_pte in Sva.
    rewrite Hl in Sva. change (Some r ≫= ?f) with (f r) in Sva. cbv beta in Sva.
    destruct (has (load64 (v_mem v') r) PTE_V); [|done]. by eexists.
Qed.
