(* ===== verification/UserVm.v ===== *)
(** User address spaces: correctness of the uvm* routines of kernel/vm.c.

    [uread m pt va] is what user code reads at [va]: the byte behind the
    valid entry for [va].  The specifications say what each routine does to
    the entries ([lookup_pte]) and to these bytes. *)

From stdpp Require Import base gmap list strings numbers.
From Stdlib Require Import ZArith Lia.
From S2P Require Import Prelude Mem KString Riscv Vm PageTable.

Definition uread (m : mem) (pt va : Z) : option Z :=
  e ← lookup_pte m pt va; Some (load8 m (PTE2PA e + va mod 4096)).

(** * Address arithmetic *)

Lemma MAXVA_eq : MAXVA = 2 ^ 38.
Proof. done. Qed.

Lemma PGROUNDUP_le sz : 0 <= sz <= MAXVA -> sz <= PGROUNDUP sz /\ PGROUNDUP sz < sz + 4096 /\
  PGROUNDUP sz mod 4096 = 0 /\ PGROUNDUP sz <= MAXVA.
Proof.
  rewrite MAXVA_eq. intros H. rewrite PGROUNDUP_eq by lia.
  pose proof (Z.div_mod (sz + 4095) 4096 ltac:(lia)).
  pose proof (Z.mod_pos_bound (sz + 4095) 4096 ltac:(lia)).
  split; [lia|]. split; [lia|]. split.
  - rewrite Z.mul_comm. apply Z_mod_mult.
  - assert ((sz + 4095) / 4096 < 2 ^ 26 + 1); [|lia]. apply Z.div_lt_upper_bound; lia.
Qed.

Lemma PGROUNDUP_aligned sz : 0 <= sz <= MAXVA -> sz mod 4096 = 0 -> PGROUNDUP sz = sz.
Proof.
  intros H Ha. pose proof (PGROUNDUP_le sz H) as (? & ? & Hm & _).
  apply Z.mod_divide in Ha as [x ->], Hm as [y Hy]; lia.
Qed.

Lemma aligned_lt a b : a mod 4096 = 0 -> b mod 4096 = 0 -> a < b -> a + 4096 <= b.
Proof. intros Ha Hb H. apply Z.mod_divide in Ha as [x ->], Hb as [y ->]; lia. Qed.

(** The entry depends only on the page number. *)
Lemma lookup_pte_page m pt va va' :
  va / 4096 = va' / 4096 -> lookup_pte m pt va = lookup_pte m pt va'.
Proof.
  intros Heq. unfold lookup_pte, leaf_addr, leaf_key.
  assert (forall l, 0 <= l -> PX l va = PX l va') as HPX.
  { intros l Hl. rewrite !PX_eq by lia. rewrite Z.pow_add_r by lia.
    change (2 ^ 12) with 4096. rewrite <- !Z.div_div by lia. by rewrite Heq. }
  by rewrite !HPX by lia.
Qed.

(** * Preservation lemmas *)

Lemma off_tree_ext pt v v' b :
  pt_ext pt v v' -> b < v_freemem v -> off_tree (v_mem v) pt b -> off_tree (v_mem v') pt b.
Proof.
  intros X Hb H k p Hk E. apply (ext_new _ _ _ X) in E as [E|E]; [by apply (H k p)| |done].
  unfold in_page. lia.
Qed.

(** Above the allocation pointer there is no page of the tree. *)
Lemma off_tree_fresh hi m pt b : pt_wf hi m pt -> hi <= b -> off_tree m pt b.
Proof.
  intros Hwf Hb k p Hk E. apply (wf_page _ _ _ Hwf) in E; [|done].
  unfold page_ok, in_page in *. lia.
Qed.

(** A change outside the tree keeps it. *)
Lemma pt_wf_ext hi hi' m m' pt :
  hi <= hi' -> pt_wf hi m pt ->
  (forall k p b, key_ok k -> node m pt k = Some p -> in_page p b -> load8 m b = load8 m' b) ->
  pt_wf hi' m' pt.
Proof.
  intros Hh Hwf H.
  assert (forall k, key_ok k -> node m' pt k = node m pt k) as HN
    by (intros k Hk; symmetry; by apply node_ext).
  split.
  - intros k p Hk. rewrite HN by done. intros E.
    eapply page_ok_mono; [done|]. by apply (wf_page _ _ _ Hwf k).
  - intros k k' p Hk Hk'. rewrite !HN by done. by apply (wf_inj _ _ _ Hwf).
  - intros k p i Hk Hin Hi. rewrite HN by done. intros E.
    rewrite <- (load64_ext m m'); [by apply (wf_inner _ _ _ Hwf)|].
    intros b Hb. apply (H k p); [done|done|]. unfold in_page. lia.
Qed.

(** Memory above the allocation pointer may change, and the pointer move. *)
Lemma pt_ext_fresh pt v m' hi' :
  vm_ok v -> pt_wf (v_freemem v) (v_mem v) pt -> vm_ok (mkVm m' hi') -> v_freemem v <= hi' ->
  (forall b, b < v_freemem v -> load8 m' b = load8 (v_mem v) b) ->
  pt_ext pt v (mkVm m' hi') /\ same_pte pt v (mkVm m' hi') /\
  (forall k, key_ok k -> node m' pt k = node (v_mem v) pt k).
Proof.
  intros Hvm Hwf Hvm' Hhi H.
  assert (forall k p b, key_ok k -> node (v_mem v) pt k = Some p -> in_page p b ->
            load8 (v_mem v) b = load8 m' b) as HT.
  { intros k p b Hk E Hb. symmetry. apply H. apply (wf_page _ _ _ Hwf) in E; [|done].
    unfold page_ok, in_page in *. lia. }
  assert (forall k, key_ok k -> node m' pt k = node (v_mem v) pt k) as HN
    by (intros k Hk; symmetry; by apply node_ext).
  split; [|split; [|exact HN]].
  - split; cbn [v_mem v_freemem]; [done|done|by eapply pt_wf_ext| | |].
    + intros k p Hk. by rewrite HN.
    + intros k p Hk. rewrite HN by done. by left.
    + intros b Hb _. by apply H.
  - intros va. cbn [v_mem]. symmetry. by apply lookup_pte_ext.
Qed.

Lemma kalloc_ext v pt :
  vm_ok v -> pt_wf (v_freemem v) (v_mem v) pt ->
  exists p v', kalloc v = Ok p v' /\ pt_ext pt v v' /\ same_pte pt v v' /\
    (p = 0 /\ v' = v /\ PHYSTOP < v_freemem v + 4096 \/
     p <> 0 /\ p = v_freemem v /\ page_ok (v_freemem v') p /\
     v_freemem v' = v_freemem v + 4096 /\
     (forall b, load8 (v_mem v') b = if decide (in_page p b) then 0 else load8 (v_mem v) b)).
Proof.
  intros Hvm Hwf. destruct (kalloc_spec v Hvm) as (p & v' & E & Hvm' & H).
  exists p, v'. split; [done|].
  destruct H as [(-> & -> & Hf)|(Hp & Hpe & Hok & Hf & Hmem)].
  - split; [by apply pt_ext_refl|]. split; [done|]. by left.
  - destruct v' as [m' hi']. cbn [v_mem v_freemem] in *.
    destruct (pt_ext_fresh pt v m' hi') as (X & S & _); try done; [lia| |].
    + intros b Hb. rewrite Hmem, decide_False; [done|].
      unfold in_page. lia.
    + split; [done|]. split; [done|]. by right.
Qed.

(** * uvmunmap *)

Definition unmaps_range (m m' : mem) (pt va n : Z) : Prop :=
  forall va', valid_va va' ->
  lookup_pte m' pt va' =
  if decide (va <= va' < va + n * 4096) then None else lookup_pte m pt va'.

Lemma uvmunmap_loop_S f pagetable a stop do_free :
  uvmunmap_loop (S f) pagetable a stop do_free =
  if stop <=? a then mret tt else
  (pte ← walk pagetable a false;
   (if pte =? 0 then mret tt else
    m ← gets v_mem;
    if negb (has (load64 m pte) PTE_V) then mret tt else
    (if do_free then kfree (PTE2PA (load64 m pte)) else mret tt);;
    modify (on_mem (fun m => store64 m pte 0)));;
   uvmunmap_loop f pagetable (u64 (a + PGSIZE)) stop do_free).
Proof. done. Qed.

(** One page: the entry, if there is a valid one, becomes 0. *)
Lemma unmap_one v pt a (do_free : bool) :
  vm_ok v -> pt_wf (v_freemem v) (v_mem v) pt -> valid_va a -> a mod 4096 = 0 ->
  exists v', (pte ← walk pt a false;
    (if pte =? 0 then mret tt else
     m ← gets v_mem;
     if negb (has (load64 m pte) PTE_V) then mret tt else
     (if do_free then kfree (PTE2PA (load64 m pte)) else mret tt);;
     modify (on_mem (fun m => store64 m pte 0)))) v = Ok tt v' /\
    pt_ext pt v v' /\ v_freemem v' = v_freemem v /\
    unmaps_range (v_mem v) (v_mem v') pt a 1.
Proof.
  intros Hvm Hwf Ha Hal. mrun (walk_noalloc pt a v (proj2 Ha)).
  assert (lookup_pte (v_mem v) pt a = None -> unmaps_range (v_mem v) (v_mem v) pt a 1) as Hid.
  { intros Hn va' Hva'. case_decide as Hd; [|done].
    pose proof (aligned_div a va' Hal) as Hiff.
    rewrite (lookup_pte_page _ _ va' a) by lia. done. }
  destruct (leaf_addr (v_mem v) pt a) as [pte|] eqn:El.
  2: { exists v. split; [done|]. split; [by apply pt_ext_refl|]. split; [done|].
       apply Hid. unfold lookup_pte. by rewrite El. }
  change (default 0 (Some pte)) with pte.
  destruct (leaf_page v pt a pte Hwf El) as (p & En & Hpte & Hp).
  destruct (Z.eqb_spec pte 0).
  { pose proof (PX_range 0 a ltac:(lia)). unfold page_ok, KERNBASE in *. lia. }
  mstep. destruct (has (load64 (v_mem v) pte) PTE_V) eqn:Hh; cbn [negb].
  - assert ((if do_free then kfree (PTE2PA (load64 (v_mem v) pte)) else mret tt) v = Ok tt v)
      as Ef by (by destruct do_free).
    mrun Ef. eexists. split; [reflexivity|].
    split; [exact (set_leaf_ext v pt a pte 0 Hvm Hwf El)|]. split; [done|].
    intros va' Hva'. cbn [v_mem on_mem].
    rewrite (set_leaf_lookup v pt a pte 0 Hwf El ltac:(lia) va' Ha Hva').
    pose proof (aligned_div a va' Hal). change (has 0 PTE_V) with false. cbv iota.
    repeat case_decide; try lia; done.
  - exists v. split; [done|]. split; [by apply pt_ext_refl|]. split; [done|].
    apply Hid. unfold lookup_pte. rewrite El.
    change (Some pte ≫= ?f) with (f pte). cbv beta. by rewrite Hh.
Qed.

Lemma unmaps_range_step m m1 m2 pt va n :
  0 <= n -> unmaps_range m m1 pt va 1 -> unmaps_range m1 m2 pt (va + 4096) n ->
  unmaps_range m m2 pt va (n + 1).
Proof.
  intros Hn H1 H2 va' Hva'. rewrite H2, H1 by done. repeat case_decide; try lia; done.
Qed.

Lemma uvmunmap_loop_ok n : forall v pt va do_free,
  vm_ok v -> pt_wf (v_freemem v) (v_mem v) pt ->
  0 <= va -> va mod 4096 = 0 -> va + Z.of_nat n * 4096 <= MAXVA ->
  exists v', uvmunmap_loop n pt va (va + Z.of_nat n * 4096) do_free v = Ok tt v' /\
    pt_ext pt v v' /\ v_freemem v' = v_freemem v /\
    unmaps_range (v_mem v) (v_mem v') pt va (Z.of_nat n).
Proof.
  induction n as [|n IH]; intros v pt va do_free Hvm Hwf Hva Hal Hmax.
  - exists v. cbn [uvmunmap_loop]. destruct (Z.leb_spec (va + Z.of_nat 0 * 4096) va); [|lia].
    split; [done|]. split; [by apply pt_ext_refl|]. split; [done|].
    intros va' _. by rewrite decide_False by lia.
  - rewrite uvmunmap_loop_S. destruct (Z.leb_spec (va + Z.of_nat (S n) * 4096) va); [lia|].
    destruct (unmap_one v pt va do_free) as (v1 & E & X & F & U);
      [done|done|unfold valid_va; lia|done|].
    rewrite <- bind_assoc, (bind_ok _ _ _ _ _ E).
    change PGSIZE with 4096. rewrite MAXVA_eq in Hmax. rewrite u64_small by lia.
    destruct (IH v1 pt (va + 4096) do_free) as (v' & E' & X' & F' & U');
      [exact (ext_vm _ _ _ X)|exact (ext_wf _ _ _ X)|lia|by apply (mod_4096_add va 1)
      |rewrite MAXVA_eq; lia|].
    replace (va + Z.of_nat (S n) * 4096) with (va + 4096 + Z.of_nat n * 4096) by lia.
    exists v'. split; [exact E'|]. split; [exact (pt_ext_trans _ _ _ _ X X')|]. split; [lia|].
    replace (Z.of_nat (S n)) with (Z.of_nat n + 1) by lia.
    apply (unmaps_range_step _ (v_mem v1)); [lia|done|done].
Qed.

Lemma uvmunmap_ok v pt va n do_free :
  vm_ok v -> pt_wf (v_freemem v) (v_mem v) pt ->
  0 <= va -> va mod 4096 = 0 -> 0 <= n -> va + n * 4096 <= MAXVA ->
  exists v', uvmunmap pt va n do_free v = Ok tt v' /\
    pt_ext pt v v' /\ v_freemem v' = v_freemem v /\
    unmaps_range (v_mem v) (v_mem v') pt va n.
Proof.
  intros Hvm Hwf Hva Hal Hn Hmax. unfold uvmunmap. change PGSIZE with 4096. rewrite Hal.
  change (negb (0 =? 0)) with false. cbv iota.
  rewrite MAXVA_eq in Hmax. rewrite u64_small by lia.
  destruct (uvmunmap_loop_ok (Z.to_nat n) v pt va do_free) as (v' & E & X & F & U);
    [done|done|done|done|rewrite MAXVA_eq; lia|].
  rewrite Z2Nat.id in E, U by lia. by exists v'.
Qed.

(** * uvmdealloc *)

Lemma uvmdealloc_ok v pt oldsz newsz :
  vm_ok v -> pt_wf (v_freemem v) (v_mem v) pt ->
  0 <= newsz <= MAXVA -> 0 <= oldsz <= MAXVA ->
  exists v', uvmdealloc pt oldsz newsz v = Ok (Z.min oldsz newsz) v' /\
    pt_ext pt v v' /\ v_freemem v' = v_freemem v /\
    (forall va, valid_va va -> lookup_pte (v_mem v') pt va =
       if decide (PGROUNDUP newsz <= va < PGROUNDUP oldsz) then None
       else lookup_pte (v_mem v) pt va).
Proof.
  intros Hvm Hwf Hn Ho. unfold uvmdealloc.
  pose proof (PGROUNDUP_le newsz Hn) as (N1 & N2 & N3 & N4).
  pose proof (PGROUNDUP_le oldsz Ho) as (O1 & O2 & O3 & O4).
  destruct (Z.leb_spec oldsz newsz) as [Hle|Hlt].
  - exists v. rewrite Z.min_l by lia. split; [done|]. split; [by apply pt_ext_refl|].
    split; [done|]. intros va _. rewrite decide_False; [done|].
    assert (PGROUNDUP oldsz <= PGROUNDUP newsz); [|lia].
    destruct (decide (PGROUNDUP newsz < PGROUNDUP oldsz)) as [H|]; [|lia].
    pose proof (aligned_lt _ _ N3 O3 H). lia.
  - rewrite Z.min_r by lia.
    destruct (Z.ltb_spec (PGROUNDUP newsz) (PGROUNDUP oldsz)) as [Hlt'|Hge].
    + set (n := (PGROUNDUP oldsz - PGROUNDUP newsz) / 4096).
      assert (PGROUNDUP newsz + n * 4096 = PGROUNDUP oldsz /\ 0 <= n < 2 ^ 27) as [Hn' Hb].
      { unfold n. apply Z.mod_divide in N3 as [x Hx], O3 as [y Hy]; [|lia..].
        rewrite Hx, Hy. replace (y * 4096 - x * 4096) with ((y - x) * 4096) by lia.
        rewrite Z.div_mul by lia. rewrite MAXVA_eq in *. lia. }
      destruct (uvmunmap_ok v pt (PGROUNDUP newsz) n true) as (v' & E & X & F & U);
        [done|done|lia|done|lia|lia|].
      exists v'. change PGSIZE with 4096. fold n.
      rewrite s32_small by lia. rewrite u64_small by lia.
      mrun E. split; [done|]. split; [done|]. split; [done|].
      intros va Hva. rewrite U by done. by rewrite Hn'.
    + exists v. mstep. split; [done|]. split; [by apply pt_ext_refl|]. split; [done|].
      intros va _. by rewrite decide_False by lia.
Qed.

(** * uvmalloc *)

(** The pages of [[a0, a1)] are new: freshly allocated, zero, distinct, not
    pages of the tree; [Q] gives the physical page of each page number. *)
Record new_pages (v v' : vmst) (pt a0 a1 fl : Z) (Q : Z -> Z) : Prop := {
  np_map va : valid_va va -> lookup_pte (v_mem v') pt va =
    if decide (a0 <= va < a1) then Some (mk_pte (Q (va / 4096)) fl)
    else lookup_pte (v_mem v) pt va;
  np_page i : a0 <= i * 4096 < a1 -> page_ok (v_freemem v') (Q i) /\ v_freemem v <= Q i;
  np_mono i j : a0 <= i * 4096 -> i < j -> j * 4096 < a1 -> Q i < Q j;
  np_zero i b : a0 <= i * 4096 < a1 -> in_page (Q i) b ->
    load8 (v_mem v') b = 0 /\ off_tree (v_mem v') pt b
}.

(** Entering a page [q] just taken from the allocator, whose contents have
    been filled in, for page [a]. *)
Lemma map_fresh v pt a perm v1 (g : mem -> mem) :
  let q := v_freemem v in
  let vz := on_mem g v1 in
  vm_ok v -> pt_wf (v_freemem v) (v_mem v) pt -> valid_va a -> a mod 4096 = 0 ->
  0 <= perm < 1024 -> lookup_pte (v_mem v) pt a = None ->
  vm_ok v1 -> v_freemem v1 = v_freemem v + 4096 -> page_ok (v_freemem v1) q ->
  (forall b, ~ in_page q b -> load8 (v_mem vz) b = load8 (v_mem v) b) ->
  exists r v2, mappages pt a PGSIZE q perm vz = Ok r v2 /\
    pt_ext pt v v2 /\ v_freemem v2 <= v_freemem v + 3 * 4096 /\
    (r = -1 /\ PHYSTOP < v_freemem v2 + 4096 /\
       (forall va, valid_va va -> lookup_pte (v_mem v2) pt va = lookup_pte (v_mem v) pt va) \/
     r = 0 /\ page_ok (v_freemem v2) q /\
     (forall b, in_page q b -> load8 (v_mem v2) b = load8 (v_mem vz) b /\ off_tree (v_mem v2) pt b) /\
     maps_range (v_mem v) (v_mem v2) pt a q (Z.lor perm PTE_V) 1).
Proof.
  intros q vz Hvm Hwf Ha Hal Hperm Hun Hvm1 Hf Hok Hz.
  destruct (pt_ext_fresh pt v (v_mem vz) (v_freemem vz)) as (Xz & Sz & Nz); try assumption.
  { unfold vz. cbn. lia. }
  { intros b Hb. apply Hz. unfold in_page, q. lia. }
  change (mkVm (v_mem vz) (v_freemem vz)) with vz in *.
  pose proof (page_ok_range _ _ (proj2 (proj2 Hvm1)) Hok) as Hr.
  assert (map_pre vz pt a 4096 q perm) as Hpre.
  { destruct Ha as [Ha0 Ha1]. rewrite MAXVA_eq in Ha1. split.
    - exact (ext_vm _ _ _ Xz).
    - exact (ext_wf _ _ _ Xz).
    - rewrite MAXVA_eq. split_and!; [done|done|].
      change (2 ^ 38) with (2 ^ 26 * 4096) in *.
      apply Z.mod_divide in Hal as [x ->]; lia.
    - done.
    - unfold page_ok, PHYSTOP, KERNBASE in *. pose proof (proj2 Hvm1) as Hx.
      unfold PHYSTOP, KERNBASE in Hx. split_and!; lia.
    - done.
    - intros va' Hva' Hr'. rewrite Sz. change (4096 / 4096) with 1 in Hr'.
      rewrite (lookup_pte_page _ _ va' a); [done|]. apply aligned_div; [done|lia]. }
  destruct (mappages_ok vz pt a 4096 q perm Hpre) as (r & v2 & E2 & X2 & F2 & HR).
  exists r, v2. split; [exact E2|]. split; [exact (pt_ext_trans _ _ _ _ Xz X2)|].
  change (v_freemem vz) with (v_freemem v1) in F2. change (4096 / 4096) with 1 in *.
  split; [lia|]. destruct HR as [[-> HM]|(-> & Hfull & j & Hj & HM)].
  - right. split; [done|].
    split; [eapply page_ok_mono; [|exact Hok]; exact (ext_free _ _ _ X2)|]. split.
    + intros b Hb.
      assert (off_tree (v_mem vz) pt b) as Hoff.
      { intros k p Hk Hn. rewrite Nz in Hn by done.
        apply (wf_page _ _ _ Hwf) in Hn; [|done]. unfold page_ok, in_page, q in *. lia. }
      assert (b < v_freemem vz) as Hlt.
      { change (v_freemem vz) with (v_freemem v1). unfold in_page, q in *. lia. }
      split; [by rewrite (ext_frame _ _ _ X2)|by eapply off_tree_ext].
    + intros va' Hva'. rewrite HM by done. by rewrite Sz.
  - left. split; [done|]. split; [done|]. assert (j = 0) as -> by lia.
    intros va' Hva'. rewrite HM by done. rewrite decide_False by lia. apply Sz.
Qed.

(** A zeroed page taken from the allocator and entered for page [a]. *)
Lemma alloc_one v pt a perm :
  vm_ok v -> pt_wf (v_freemem v) (v_mem v) pt -> valid_va a -> a mod 4096 = 0 ->
  0 <= perm < 1024 -> lookup_pte (v_mem v) pt a = None ->
  (exists v1, kalloc v = Ok 0 v1 /\ v1 = v /\ PHYSTOP < v_freemem v + 4096) \/
  (exists v1 r v2, let q := v_freemem v in
    kalloc v = Ok q v1 /\ q <> 0 /\
    mappages pt a PGSIZE q perm (on_mem (fun m => (memset q 0 PGSIZE m).2) v1) = Ok r v2 /\
    pt_ext pt v v2 /\ v_freemem v2 <= v_freemem v + 3 * 4096 /\
    (r = -1 /\ PHYSTOP < v_freemem v2 + 4096 /\
       (forall va, valid_va va -> lookup_pte (v_mem v2) pt va = lookup_pte (v_mem v) pt va) \/
     r = 0 /\ page_ok (v_freemem v2) q /\
     (forall b, in_page q b -> load8 (v_mem v2) b = 0 /\ off_tree (v_mem v2) pt b) /\
     maps_range (v_mem v) (v_mem v2) pt a q (Z.lor perm PTE_V) 1)).
Proof.
  intros Hvm Hwf Ha Hal Hperm Hun.
  destruct (kalloc_spec v Hvm) as (p & v1 & E & Hvm1 & H).
  destruct H as [(-> & -> & Hf)|(Hp & -> & Hok & Hf & Hmem)]; [left; eauto|right].
  assert (forall b, load8 (zero_page (v_freemem v) (v_mem v1)) b =
            if decide (in_page (v_freemem v) b) then 0 else load8 (v_mem v) b) as Hz.
  { intros b. rewrite zero_page_load8, Hmem. by repeat case_decide. }
  destruct (map_fresh v pt a perm v1 (zero_page (v_freemem v))) as (r & v2 & E2 & X2 & F2 & HR);
    try assumption.
  { intros b Hb. cbn [v_mem on_mem]. by rewrite Hz, decide_False. }
  exists v1, r, v2. cbv zeta. split; [exact E|]. split; [exact Hp|]. split; [exact E2|].
  split; [exact X2|]. split; [exact F2|].
  destruct HR as [HR|(-> & Hok2 & Hd & HM)]; [by left|right].
  split; [done|]. split; [done|]. split; [|done].
  intros b Hb. destruct (Hd b Hb) as [-> Hoff]. cbn [v_mem on_mem].
  rewrite Hz. by rewrite decide_True.
Qed.

Lemma new_pages_refl v pt a fl Q : new_pages v v pt a a fl Q.
Proof.
  split; try lia. intros va _. by rewrite decide_False by lia.
Qed.

Lemma new_pages_snoc v0 v v2 pt a0 a fl Q :
  a mod 4096 = 0 -> a0 <= a -> pt_ext pt v0 v -> pt_ext pt v v2 ->
  new_pages v0 v pt a0 a fl Q ->
  page_ok (v_freemem v2) (v_freemem v) ->
  (forall b, in_page (v_freemem v) b -> load8 (v_mem v2) b = 0 /\ off_tree (v_mem v2) pt b) ->
  maps_range (v_mem v) (v_mem v2) pt a (v_freemem v) fl 1 ->
  new_pages v0 v2 pt a0 (a + 4096) fl (fun i => if decide (i = a / 4096) then v_freemem v else Q i).
Proof.
  intros Hal Hle X0 X [NM NP NO NZ] Hok Hz HM.
  pose proof (Z.div_mod a 4096 ltac:(lia)) as Hd.
  split.
  - intros va Hva. rewrite HM, NM by done. pose proof (aligned_div a va Hal) as Hiff.
    destruct (decide (a <= va < a + 1 * 4096)).
    + rewrite decide_True by lia. rewrite decide_True by lia.
      rewrite PGROUNDDOWN_eq. do 2 f_equal. lia.
    + repeat case_decide; try lia; done.
  - intros i Hi. case_decide as He.
    + split; [done|]. exact (ext_free _ _ _ X0).
    + destruct (NP i) as [Hp Hf]; [lia|]. split; [|done].
      eapply page_ok_mono; [exact (ext_free _ _ _ X)|done].
  - intros i j Hi Hij Hj. repeat case_decide; try lia.
    + destruct (NP i) as [Hp _]; [lia|]. unfold page_ok in Hp. lia.
    + apply NO; lia.
  - intros i b Hi. case_decide as He; [by apply Hz|]. intros Hb.
    destruct (NP i) as [Hp _]; [lia|]. destruct (NZ i b) as [Hz0 Ho]; [lia|done|].
    assert (b < v_freemem v) by (unfold page_ok, in_page in *; lia).
    split; [by rewrite (ext_frame _ _ _ X)|by eapply off_tree_ext].
Qed.

Lemma uvmalloc_loop_S f pagetable oldsz a newsz xperm :
  uvmalloc_loop (S f) pagetable oldsz a newsz xperm =
  if newsz <=? a then mret newsz else
  (mem ← kalloc;
   if mem =? 0 then
     uvmdealloc pagetable a oldsz;; mret 0
   else
     modify (on_mem (fun m => (memset mem 0 PGSIZE m).2));;
     r ← mappages pagetable a PGSIZE mem (Z.lor (Z.lor PTE_R PTE_U) xperm);
     if negb (r =? 0) then
       kfree mem;; uvmdealloc pagetable a oldsz;; mret 0
     else uvmalloc_loop f pagetable oldsz (u64 (a + PGSIZE)) newsz xperm).
Proof. done. Qed.

(** What failure leaves behind: no mapping, as before. *)
Lemma uvmalloc_undo v0 v v2 pt old a fl Q :
  pt_ext pt v0 v2 -> new_pages v0 v pt old a fl Q ->
  (forall va, valid_va va -> lookup_pte (v_mem v2) pt va = lookup_pte (v_mem v) pt va) ->
  0 <= old <= MAXVA -> old mod 4096 = 0 -> old <= a -> 0 <= a <= MAXVA -> a mod 4096 = 0 ->
  (forall va, valid_va va -> old <= va -> lookup_pte (v_mem v0) pt va = None \/ a <= va) ->
  exists v', (uvmdealloc pt a old;; mret 0) v2 = Ok 0 v' /\ pt_ext pt v0 v' /\
    v_freemem v' = v_freemem v2 /\
    (forall va, valid_va va -> lookup_pte (v_mem v') pt va = lookup_pte (v_mem v0) pt va).
Proof.
  intros X N S Ho Hoal Hle Ha Hal Hun.
  destruct (uvmdealloc_ok v2 pt a old) as (v' & E & X' & F & U);
    [exact (ext_vm _ _ _ X)|exact (ext_wf _ _ _ X)|done|done|].
  exists v'. mrun E. split; [done|]. split; [exact (pt_ext_trans _ _ _ _ X X')|]. split; [done|].
  intros va Hva. rewrite U, S, (np_map _ _ _ _ _ _ _ N) by done.
  rewrite !PGROUNDUP_aligned by done. repeat case_decide; try done.
  destruct (Hun va Hva) as [->|]; [lia|done|lia].
Qed.

Lemma uvmalloc_loop_ok n : forall v0 v pt old a newsz xperm Q,
  let fl := Z.lor (Z.lor (Z.lor PTE_R PTE_U) xperm) PTE_V in
  vm_ok v0 -> pt_ext pt v0 v -> new_pages v0 v pt old a fl Q ->
  v_freemem v <= v_freemem v0 + 3 * (a - old) ->
  0 <= old -> old mod 4096 = 0 -> old <= a -> a mod 4096 = 0 ->
  0 <= newsz <= MAXVA -> a <= Z.max old (PGROUNDUP newsz) -> old <= MAXVA ->
  newsz <= a + Z.of_nat n * 4096 -> 0 <= xperm < 1024 ->
  (forall va, valid_va va -> old <= va < PGROUNDUP newsz -> lookup_pte (v_mem v0) pt va = None) ->
  exists r v', uvmalloc_loop n pt old a newsz xperm v = Ok r v' /\ pt_ext pt v0 v' /\
    (r = newsz /\ (exists Q', new_pages v0 v' pt old (Z.max old (PGROUNDUP newsz)) fl Q') \/
     r = 0 /\ PHYSTOP < v_freemem v0 + 3 * (PGROUNDUP newsz - old) + 4096 /\
     (forall va, valid_va va -> lookup_pte (v_mem v') pt va = lookup_pte (v_mem v0) pt va)).
Proof.
  induction n as [|n IH]; intros v0 v pt old a newsz xperm Q fl Hvm0 X N HF Ho Hoal Hle Hal Hn Hamax Homax
    Hfuel Hx Hun.
  all: pose proof (PGROUNDUP_le newsz Hn) as (P1 & P2 & P3 & P4).
  - exists newsz, v. cbn [uvmalloc_loop]. destruct (Z.leb_spec newsz a); [|lia].
    split; [done|]. split; [done|]. left. split; [done|]. exists Q.
    replace (Z.max old (PGROUNDUP newsz)) with a; [done|].
    assert (PGROUNDUP newsz <= a); [|lia].
    destruct (decide (a < PGROUNDUP newsz)) as [Hlt|]; [|lia].
    pose proof (aligned_lt _ _ Hal P3 Hlt). lia.
  - rewrite uvmalloc_loop_S. destruct (Z.leb_spec newsz a) as [Hend|Hmore].
    { exists newsz, v. split; [done|]. split; [done|]. left. split; [done|]. exists Q.
      replace (Z.max old (PGROUNDUP newsz)) with a; [done|].
      assert (PGROUNDUP newsz <= a); [|lia].
      destruct (decide (a < PGROUNDUP newsz)) as [Hlt|]; [|lia].
      pose proof (aligned_lt _ _ Hal P3 Hlt). lia. }
    assert (a + 4096 <= PGROUNDUP newsz) as Hroom by (apply aligned_lt; [done|done|lia]).
    assert (valid_va a) as Hva by (unfold valid_va; lia).
    assert (0 <= Z.lor (Z.lor PTE_R PTE_U) xperm < 1024) as Hperm.
    { apply (lor_range _ _ 10); [lia|vm_compute; split; congruence|done]. }
    assert (lookup_pte (v_mem v) pt a = None) as Hna.
    { rewrite (np_map _ _ _ _ _ _ _ N) by done. rewrite decide_False by lia.
      apply Hun; [done|lia]. }
    assert (forall va, valid_va va -> old <= va ->
              lookup_pte (v_mem v0) pt va = None \/ a <= va) as Hun'.
    { intros va Hv Hva'. destruct (decide (a <= va)); [by right|left]. apply Hun; [done|lia]. }
    destruct (alloc_one v pt a (Z.lor (Z.lor PTE_R PTE_U) xperm)
                (ext_vm _ _ _ X) (ext_wf _ _ _ X) Hva Hal Hperm Hna)
      as [(v1 & E & -> & Hfull)|(v1 & r & v2 & E & Hq & E2 & X2 & F2 & HR)].
    + mrun E. change (0 =? 0) with true. cbv iota.
      destruct (uvmalloc_undo v0 v v pt old a fl Q) as (v' & E' & X' & F' & S'); try done; [lia|].
      exists 0, v'. split; [exact E'|]. split; [done|]. right. split; [done|]. split; [lia|done].
    + mrun E. destruct (Z.eqb_spec (v_freemem v) 0); [done|]. mstep. mrun E2.
      destruct HR as [(-> & Hfull & S2)|(-> & Hok & Hz & HM)].
      * change (negb (-1 =? 0)) with true. cbv iota. unfold kfree. mstep.
        destruct (uvmalloc_undo v0 v v2 pt old a fl Q) as (v' & E' & X' & F' & S'); try done.
        { exact (pt_ext_trans _ _ _ _ X X2). }
        { lia. }
        exists 0, v'. split; [exact E'|]. split; [done|]. right. split; [done|]. split; [lia|done].
      * change (negb (0 =? 0)) with false. cbv iota.
        change PGSIZE with 4096. rewrite MAXVA_eq in *. rewrite u64_small by lia.
        apply (IH v0 v2 pt old (a + 4096) newsz xperm
                 (fun i => if decide (i = a / 4096) then v_freemem v else Q i)); try done.
        { exact (pt_ext_trans _ _ _ _ X X2). }
        { eapply (new_pages_snoc v0 v v2); done. }
        all: try lia; try (rewrite MAXVA_eq; lia).
        by apply (mod_4096_add a 1).
Qed.

Lemma uvmalloc_ok v pt oldsz newsz xperm :
  let old := PGROUNDUP oldsz in
  let fl := Z.lor (Z.lor (Z.lor PTE_R PTE_U) xperm) PTE_V in
  vm_ok v -> pt_wf (v_freemem v) (v_mem v) pt ->
  0 <= oldsz <= newsz -> newsz <= MAXVA -> 0 <= xperm < 1024 ->
  (forall va, valid_va va -> old <= va < PGROUNDUP newsz -> lookup_pte (v_mem v) pt va = None) ->
  exists r v', uvmalloc pt oldsz newsz xperm v = Ok r v' /\ pt_ext pt v v' /\
    (r = newsz /\ (exists Q, new_pages v v' pt old (PGROUNDUP newsz) fl Q) \/
     r = 0 /\ PHYSTOP < v_freemem v + 3 * (PGROUNDUP newsz - old) + 4096 /\
     (forall va, valid_va va -> lookup_pte (v_mem v') pt va = lookup_pte (v_mem v) pt va)).
Proof.
  intros old fl Hvm Hwf Ho Hn Hx Hun. unfold uvmalloc.
  destruct (Z.ltb_spec newsz oldsz); [lia|]. fold old.
  pose proof (PGROUNDUP_le oldsz ltac:(lia)) as (O1 & O2 & O3 & O4). fold old in O1, O2, O3, O4.
  pose proof (PGROUNDUP_le newsz ltac:(lia)) as (N1 & N2 & N3 & N4).
  assert (old <= PGROUNDUP newsz) as Hle.
  { destruct (decide (PGROUNDUP newsz < old)) as [Hlt|]; [|lia].
    pose proof (aligned_lt _ _ N3 O3 Hlt). lia. }
  change PGSIZE with 4096.
  destruct (uvmalloc_loop_ok (Z.to_nat ((newsz - old) / 4096 + 1)) v v pt old old newsz xperm
              (fun _ => 0)) as (r & v' & E & X & HR); try done; try lia.
  - by apply pt_ext_refl.
  - apply new_pages_refl.
  - pose proof (Z.div_mod (newsz - old) 4096 ltac:(lia)).
    pose proof (Z.mod_pos_bound (newsz - old) 4096 ltac:(lia)). lia.
  - exists r, v'. rewrite (Z.max_r old) in HR by lia. done.
Qed.

(** * A concrete address space: one writable page at 0 *)

Definition space_pt : Z := KERNBASE + 4096.
Definition space_vm : vmst := final (uvmalloc space_pt 0 4096 PTE_W demo_vm).

Definition space_flags : Z := Z.lor (Z.lor (Z.lor PTE_R PTE_U) PTE_W) PTE_V.

Lemma space_pt_wf : pt_wf (v_freemem demo_vm) (v_mem demo_vm) space_pt.
Proof. apply pt_wf_empty; [|done]. unfold page_ok. split_and!; vm_compute; done. Qed.

Lemma space_run : exists r, uvmalloc space_pt 0 4096 PTE_W demo_vm = Ok r space_vm /\
  pt_ext space_pt demo_vm space_vm /\
  exists Q, new_pages demo_vm space_vm space_pt 0 4096 space_flags Q.
Proof.
  destruct (uvmalloc_ok demo_vm space_pt 0 4096 PTE_W) as (r & v' & E & X & HR).
  - exact demo_vm_ok.
  - exact space_pt_wf.
  - lia.
  - vm_compute; congruence.
  - vm_compute; split; congruence.
  - intros va _ _. by apply lookup_empty_pt.
  - unfold space_vm. rewrite E. exists r. split; [reflexivity|]. split; [exact X|].
    destruct HR as [(-> & HQ)|(_ & Hf & _)]; [exact HQ|]. exfalso. revert Hf. vm_compute. done.
Qed.
#[global] Opaque space_vm.

Lemma space_facts : pt_ext space_pt demo_vm space_vm /\
  (forall va, valid_va va -> lookup_pte (v_mem space_vm) space_pt va =
     if decide (0 <= va < 4096) then lookup_pte (v_mem space_vm) space_pt 0
     else lookup_pte (v_mem demo_vm) space_pt va) /\
  exists q, lookup_pte (v_mem space_vm) space_pt 0 = Some (mk_pte q space_flags) /\
    page_ok (v_freemem space_vm) q /\ v_freemem demo_vm <= q /\
    (forall b, in_page q b -> load8 (v_mem space_vm) b = 0 /\ off_tree (v_mem space_vm) space_pt b).
Proof.
  destruct space_run as (r & E & X & Q & N). split; [done|].
  assert (valid_va 0) as H0 by (vm_compute; split; congruence). split.
  - intros va Hva. rewrite (np_map _ _ _ _ _ _ _ N va Hva), (np_map _ _ _ _ _ _ _ N 0 H0).
    rewrite (decide_True (P := 0 <= 0 < 4096)) by lia.
    case_decide as Hd; [|done]. change (0 / 4096) with 0. by rewrite (Z.div_small va).
  - exists (Q 0). rewrite (np_map _ _ _ _ _ _ _ N 0 H0). rewrite decide_True by lia.
    split; [done|]. destruct (np_page _ _ _ _ _ _ _ N 0) as [Hp Hf]; [lia|].
    split; [done|]. split; [done|]. intros b Hb. apply (np_zero _ _ _ _ _ _ _ N 0 b); [lia|done].
Qed.

(** * Theorems *)

(** [uvmalloc] grows an address space from [oldsz] to [newsz]: every page
    of the new part is mapped user-readable with the requested extra
    permissions to its own, freshly allocated, zeroed page outside the tree,
    all other addresses keep their entries, and no allocated byte outside the
    tree changes.  It returns 0 only when memory runs out, and then every
    mapping is again as it was. *)
Theorem uvmalloc_correct v pt oldsz newsz xperm :
  vm_ok v -> pt_wf (v_freemem v) (v_mem v) pt ->
  0 <= oldsz <= newsz -> newsz <= MAXVA -> 0 <= xperm < 1024 ->
  (forall va, valid_va va -> PGROUNDUP oldsz <= va < PGROUNDUP newsz ->
     lookup_pte (v_mem v) pt va = None) ->
  exists r v', uvmalloc pt oldsz newsz xperm v = Ok r v' /\
    vm_ok v' /\ pt_wf (v_freemem v') (v_mem v') pt /\
    (forall b, b < v_freemem v -> off_tree (v_mem v) pt b ->
       load8 (v_mem v') b = load8 (v_mem v) b) /\
    (r = newsz /\ (exists Q, new_pages v v' pt (PGROUNDUP oldsz) (PGROUNDUP newsz)
                     (Z.lor (Z.lor (Z.lor PTE_R PTE_U) xperm) PTE_V) Q) \/
     r = 0 /\ PHYSTOP < v_freemem v + 3 * (PGROUNDUP newsz - PGROUNDUP oldsz) + PGSIZE /\
     (forall va, valid_va va -> lookup_pte (v_mem v') pt va = lookup_pte (v_mem v) pt va)).
Proof.
  intros Hvm Hwf Ho Hn Hx Hun.
  destruct (uvmalloc_ok v pt oldsz newsz xperm Hvm Hwf Ho Hn Hx Hun) as (r & v' & E & X & HR).
  exists r, v'. split; [done|]. split; [exact (ext_vm _ _ _ X)|].
  split; [exact (ext_wf _ _ _ X)|]. split; [exact (ext_frame _ _ _ X)|]. exact HR.
Qed.

Lemma uvmalloc_correct_witness :
  exists r v', uvmalloc space_pt 0x800 0x5001 PTE_W demo_vm = Ok r v' /\
    vm_ok v' /\ pt_wf (v_freemem v') (v_mem v') space_pt /\
    (forall b, b < v_freemem demo_vm -> off_tree (v_mem demo_vm) space_pt b ->
       load8 (v_mem v') b = load8 (v_mem demo_vm) b) /\
    (r = 0x5001 /\ (exists Q, new_pages demo_vm v' space_pt (PGROUNDUP 0x800) (PGROUNDUP 0x5001)
                     space_flags Q) \/
     r = 0 /\ PHYSTOP < v_freemem demo_vm + 3 * (PGROUNDUP 0x5001 - PGROUNDUP 0x800) + PGSIZE /\
     (forall va, valid_va va -> lookup_pte (v_mem v') space_pt va = lookup_pte (v_mem demo_vm) space_pt va)).
Proof.
  apply uvmalloc_correct; [exact demo_vm_ok|exact space_pt_wf|lia|vm_compute; congruence
    |vm_compute; split; congruence|intros va _ _; by apply lookup_empty_pt].
Defined.

(** [uvmdealloc] shrinks an address space to [newsz]: it returns the
    smaller size, exactly the pages between the two rounded sizes lose their
    entry, and no allocated byte outside the page-table pages changes (the
    [uvmunmap] it calls never panics). *)
Theorem uvmdealloc_correct v pt oldsz newsz :
  vm_ok v -> pt_wf (v_freemem v) (v_mem v) pt ->
  0 <= newsz <= MAXVA -> 0 <= oldsz <= MAXVA ->
  exists v', uvmdealloc pt oldsz newsz v = Ok (Z.min oldsz newsz) v' /\
    pt_wf (v_freemem v') (v_mem v') pt /\ v_freemem v' = v_freemem v /\
    (forall b, b < v_freemem v -> off_tree (v_mem v) pt b ->
       load8 (v_mem v') b = load8 (v_mem v) b) /\
    (forall va, valid_va va -> lookup_pte (v_mem v') pt va =
       if decide (PGROUNDUP newsz <= va < PGROUNDUP oldsz) then None
       else lookup_pte (v_mem v) pt va).
Proof.
  intros Hvm Hwf Hn Ho.
  destruct (uvmdealloc_ok v pt oldsz newsz Hvm Hwf Hn Ho) as (v' & E & X & F & U).
  exists v'. split; [done|]. split; [exact (ext_wf _ _ _ X)|]. split; [done|].
  split; [exact (ext_frame _ _ _ X)|done].
Qed.

Lemma uvmdealloc_correct_witness :
  exists v', uvmdealloc space_pt 4096 1 space_vm = Ok (Z.min 4096 1) v' /\
    pt_wf (v_freemem v') (v_mem v') space_pt /\ v_freemem v' = v_freemem space_vm /\
    (forall b, b < v_freemem space_vm -> off_tree (v_mem space_vm) space_pt b ->
       load8 (v_mem v') b = load8 (v_mem space_vm) b) /\
    (forall va, valid_va va -> lookup_pte (v_mem v') space_pt va =
       if decide (PGROUNDUP 1 <= va < PGROUNDUP 4096) then None
       else lookup_pte (v_mem space_vm) space_pt va).
Proof.
  destruct space_facts as (X & _).
  apply uvmdealloc_correct; [exact (ext_vm _ _ _ X)|exact (ext_wf _ _ _ X)
    |vm_compute; split; congruence|vm_compute; split; congruence].
Defined.
