(* ===== verification/UvmFree.v ===== *)
(** Tearing down user address spaces: correctness of [freewalk] and [uvmfree]
    of kernel/vm.c. *)

From stdpp Require Import base gmap list strings numbers.
From Stdlib Require Import ZArith Lia.
From S2P Require Import Prelude Mem KString Riscv Vm PageTable UserVm.

(** * Loops over a range of indices *)

Lemma for_each_inv {S} (P : Z -> S -> Prop) (f : Z -> M S unit) n : forall lo s,
  P lo s ->
  (forall i s, lo <= i < lo + Z.of_nat n -> P i s -> exists s', f i s = Ok tt s' /\ P (i + 1) s') ->
  exists s', for_each (zseq lo n) f s = Ok tt s' /\ P (lo + Z.of_nat n) s'.
Proof.
  induction n as [|n IH]; intros lo s Hs Hf.
  - exists s. rewrite Z.add_0_r. done.
  - rewrite zseq_cons. cbn [for_each].
    destruct (Hf lo s) as (s1 & E & Hs1); [lia|done|]. mrun E.
    destruct (IH (lo + 1) s1) as (s' & E' & Hs'); [done|intros; apply Hf; [lia|done]|].
    exists s'. split; [done|]. by replace (lo + Z.of_nat (Datatypes.S n)) with (lo + 1 + Z.of_nat n) by lia.
Qed.

(** * freewalk *)

Definition entry_step (d : nat) (pagetable i : Z) : M vmst unit :=
  m ← gets v_mem;
  let pte := load64 m (pagetable + 8 * i) in
  if has pte PTE_V && (Z.land pte (Z.lor (Z.lor PTE_R PTE_W) PTE_X) =? 0) then
    freewalk d (PTE2PA pte);;
    modify (on_mem (fun m => store64 m (pagetable + 8 * i) 0))
  else if has pte PTE_V then panic "freewalk: leaf"
  else mret tt.

Lemma freewalk_S d pt :
  freewalk (S d) pt = (for_each (zseq 0 512) (entry_step d pt);; kfree pt).
Proof. done. Qed.

Definition no_valid (m : mem) (p : Z) : Prop :=
  forall i, 0 <= i < 512 -> has (load64 m (p + 8 * i)) PTE_V = false.

Lemma no_valid_ext m m' p :
  (forall b, in_page p b -> load8 m b = load8 m' b) -> no_valid m p -> no_valid m' p.
Proof.
  intros H Hn i Hi. rewrite <- (load64_ext m m'); [by apply Hn|].
  intros b Hb. apply H. unfold in_page. lia.
Qed.

(** Clearing an entry, or passing one that is not valid, extends the prefix of
    the table that holds no valid entry. *)
Definition clear_below (m : mem) (p i : Z) : Prop :=
  forall j, 0 <= j < i -> has (load64 m (p + 8 * j)) PTE_V = false.

Lemma clear_below_ext m m' p i :
  (forall b, p <= b < p + 8 * i -> load8 m b = load8 m' b) -> clear_below m p i -> clear_below m' p i.
Proof.
  intros H Hn j Hj. rewrite <- (load64_ext m m'); [by apply Hn|]. intros b Hb. apply H. lia.
Qed.

Lemma clear_below_skip m p i :
  has (load64 m (p + 8 * i)) PTE_V = false -> clear_below m p i -> clear_below m p (i + 1).
Proof. intros He Hn j Hj. destruct (decide (j = i)) as [->|]; [done|]. apply Hn. lia. Qed.

Lemma clear_below_store m p i : clear_below m p i -> clear_below (store64 m (p + 8 * i) 0) p (i + 1).
Proof.
  intros Hn. apply clear_below_skip; [by rewrite load64_store64|].
  intros j Hj. rewrite load64_store64_ne by lia. by apply Hn.
Qed.

(** A table without valid entries: nothing to do. *)
Lemma freewalk_leaf d p v : no_valid (v_mem v) p -> freewalk (S d) p v = Ok tt v.
Proof.
  intros Hn. rewrite freewalk_S.
  destruct (for_each_inv (fun _ s => s = v) (entry_step d p) 512 0 v) as (s' & E & ->); [done| |].
  - intros i s Hi ->. exists v. split; [|done]. unfold entry_step. mstep. cbv zeta.
    rewrite Hn by lia. done.
  - by mrun E.
Qed.

(** A table whose valid entries point to tables without valid entries. *)
Definition mid_ok (m : mem) (p : Z) : Prop :=
  p mod 4096 = 0 /\
  forall i, 0 <= i < 512 -> let e := load64 m (p + 8 * i) in has e PTE_V = true ->
    Z.land e PTE_RWX = 0 /\ PTE2PA e mod 4096 = 0 /\ PTE2PA e <> p /\ no_valid m (PTE2PA e).

Lemma freewalk_mid d p v :
  mid_ok (v_mem v) p ->
  exists v', freewalk (S (S d)) p v = Ok tt v' /\ v_freemem v' = v_freemem v /\
    no_valid (v_mem v') p /\
    (forall b, ~ in_page p b -> load8 (v_mem v') b = load8 (v_mem v) b).
Proof.
  intros [Hal Hok]. rewrite freewalk_S.
  destruct (for_each_inv (fun i s => v_freemem s = v_freemem v /\ clear_below (v_mem s) p i /\
      (forall b, ~ (p <= b < p + 8 * i) -> load8 (v_mem s) b = load8 (v_mem v) b))
      (entry_step (S d) p) 512 0 v) as (s' & E & HF & HC & HB).
  - split; [done|]. split; [intros j Hj; lia|]. intros; done.
  - intros i s Hi (HF & HC & HB). unfold entry_step. mstep. cbv zeta.
    assert (load64 (v_mem s) (p + 8 * i) = load64 (v_mem v) (p + 8 * i)) as He.
    { apply load64_ext. intros b Hb. apply HB. lia. }
    rewrite He. destruct (has (load64 (v_mem v) (p + 8 * i)) PTE_V) eqn:Hv.
    + destruct (Hok i ltac:(lia) Hv) as (Hrwx & Hcal & Hcne & Hcn).
      unfold PTE_RWX in Hrwx. rewrite Hrwx. cbn [andb Z.eqb].
      rewrite (bind_ok _ _ s tt s).
      2: { apply freewalk_leaf. eapply no_valid_ext; [|exact Hcn].
           intros b Hb. symmetry. apply HB.
           pose proof (page_sep _ _ Hcal Hal Hcne). unfold in_page in *. lia. }
      eexists. split; [reflexivity|]. split; [done|]. split; [by apply clear_below_store|].
      intros b Hb. cbn [v_mem on_mem]. rewrite load8_store64_ne by lia. apply HB. lia.
    + exists s. split; [done|]. split; [done|].
      split; [by apply clear_below_skip; [rewrite He|]|]. intros b Hb. apply HB. lia.
  - mrun E. exists s'. split; [done|]. split; [done|]. split; [exact HC|]. intros b Hb. apply HB.
    unfold in_page in Hb. lia.
Qed.

(** All leaf entries are clear. *)
Definition no_leaves (m : mem) (pt : Z) : Prop :=
  forall i j p, key_ok (K0 i j) -> node m pt (K0 i j) = Some p -> no_valid m p.

Lemma child_entry m p i c :
  child m p i = Some c -> has (load64 m (p + 8 * i)) PTE_V = true /\ PTE2PA (load64 m (p + 8 * i)) = c.
Proof.
  unfold child. cbv zeta. destruct (has _ PTE_V); [|done]. intros H. injection H as <-. done.
Qed.

Lemma entry_child m p i :
  has (load64 m (p + 8 * i)) PTE_V = true -> child m p i = Some (PTE2PA (load64 m (p + 8 * i))).
Proof. unfold child. cbv zeta. by intros ->. Qed.

(** The pages freed before the round for slot [i] of the root. *)
Definition freed_below (m : mem) (pt i b : Z) : Prop :=
  pt <= b < pt + 8 * i \/
  exists j c, 0 <= j < i /\ node m pt (K1 j) = Some c /\ in_page c b.

Lemma node_page_ne hi m pt k k' p p' b :
  pt_wf hi m pt -> key_ok k -> key_ok k' -> k <> k' ->
  node m pt k = Some p -> node m pt k' = Some p' -> in_page p b -> ~ in_page p' b.
Proof.
  intros Hwf Hk Hk' Hne E E' Hb Hb'.
  destruct (wf_page _ _ _ Hwf _ _ Hk E) as [Hal _].
  destruct (wf_page _ _ _ Hwf _ _ Hk' E') as [Hal' _].
  destruct (decide (p = p')) as [->|Hp].
  - by apply Hne, (wf_inj _ _ _ Hwf k k' p').
  - pose proof (page_sep p p' Hal Hal' Hp). unfold in_page in *. lia.
Qed.

Lemma freewalk_root hi d pt v :
  pt_wf hi (v_mem v) pt -> no_leaves (v_mem v) pt ->
  exists v', freewalk (S (S (S d))) pt v = Ok tt v' /\ v_freemem v' = v_freemem v /\
    (forall k p, key_ok k -> node (v_mem v) pt k = Some p -> no_valid (v_mem v') p) /\
    (forall b, off_tree (v_mem v) pt b -> load8 (v_mem v') b = load8 (v_mem v) b).
Proof.
  intros Hwf Hnl. rewrite freewalk_S.
  destruct (for_each_inv (fun i s => v_freemem s = v_freemem v /\ clear_below (v_mem s) pt i /\
      (forall j c, 0 <= j < i -> node (v_mem v) pt (K1 j) = Some c -> no_valid (v_mem s) c) /\
      (forall b, ~ freed_below (v_mem v) pt i b -> load8 (v_mem s) b = load8 (v_mem v) b))
      (entry_step (S (S d)) pt) 512 0 v) as (s' & E & HF & HC & HM & HB).
  - split; [done|]. split; [intros j Hj; lia|]. split; [intros j c Hj; lia|]. intros; done.
  - intros i s Hi (HF & HC & HM & HB).
    assert (forall k p b, key_ok k -> node (v_mem v) pt k = Some p -> in_page p b ->
              (k = KRoot -> pt + 8 * i <= b) -> (forall j, k = K1 j -> i <= j) ->
              load8 (v_mem s) b = load8 (v_mem v) b) as Hkeep.
    { intros k p b Hk En Hb Hr H1. apply HB. intros [Hlo|(j & c & Hj & Ec & Hc)].
      - destruct (decide (k = KRoot)) as [->|Hne]; [specialize (Hr eq_refl); lia|].
        apply (node_page_ne _ _ _ k KRoot p pt b Hwf); auto; [done|]. unfold in_page. lia.
      - destruct (decide (k = K1 j)) as [->|Hne]; [specialize (H1 j eq_refl); lia|].
        apply (node_page_ne _ _ _ k (K1 j) p c b Hwf); auto. cbn. lia. }
    unfold entry_step. mstep. cbv zeta.
    assert (load64 (v_mem s) (pt + 8 * i) = load64 (v_mem v) (pt + 8 * i)) as He.
    { apply load64_ext. intros b Hb. apply (Hkeep KRoot pt); try done; unfold in_page; lia. }
    rewrite He. destruct (has (load64 (v_mem v) (pt + 8 * i)) PTE_V) eqn:Hv.
    + pose proof (entry_child _ _ _ Hv) as Ec.
      destruct (wf_inner _ _ _ Hwf KRoot pt i I I ltac:(lia) eq_refl Hv) as [Hrwx _].
      unfold PTE_RWX in Hrwx. rewrite Hrwx. cbn [andb Z.eqb].
      set (c := PTE2PA (load64 (v_mem v) (pt + 8 * i))) in *.
      assert (key_ok (K1 i)) as Hki by (cbn; lia).
      assert (mid_ok (v_mem s) c) as Hmid.
      { split; [by apply (wf_page _ _ _ Hwf (K1 i))|]. intros j Hj. cbv zeta.
        assert (load64 (v_mem s) (c + 8 * j) = load64 (v_mem v) (c + 8 * j)) as Ej.
        { apply load64_ext. intros b Hb. apply (Hkeep (K1 i) c); try done;
            [unfold in_page; lia|intros; simplify_eq; lia]. }
        rewrite Ej. intros Hvj. pose proof (entry_child _ _ _ Hvj) as Ecj.
        destruct (wf_inner _ _ _ Hwf (K1 i) c j Hki I Hj Ec Hvj) as [Hrj _].
        assert (node (v_mem v) pt (K0 i j) = Some (PTE2PA (load64 (v_mem v) (c + 8 * j)))) as En0.
        { cbn [node]. rewrite Ec. exact Ecj. }
        assert (key_ok (K0 i j)) as Hk0 by (split; lia).
        split; [done|]. split; [by apply (wf_page _ _ _ Hwf (K0 i j))|]. split.
        - intros Heq. rewrite Heq in En0.
          assert (K0 i j = K1 i) by (by eapply (wf_inj _ _ _ Hwf)). done.
        - eapply no_valid_ext; [|exact (Hnl i j _ Hk0 En0)]. intros b Hb. symmetry.
          by apply (Hkeep (K0 i j) _ b Hk0 En0). }
      destruct (freewalk_mid d c s Hmid) as (s1 & E1 & F1 & N1 & B1). mrun E1.
      assert (forall b, in_page pt b -> ~ in_page c b) as Hroot
        by (intros b; apply (node_page_ne _ _ _ KRoot (K1 i) pt c b Hwf); done).
      eexists. split; [reflexivity|]. split; [cbn; congruence|]. cbn [v_mem on_mem].
      split; [apply clear_below_store; apply (clear_below_ext (v_mem s)); [|done];
              intros b Hb; symmetry; apply B1, Hroot; unfold in_page; lia|].
      split.
      { intros j c' Hj Ec'. assert (key_ok (K1 j)) as Hkj by (cbn; lia).
        apply (no_valid_ext (v_mem s1)).
        - intros b Hb. symmetry. apply load8_store64_ne.
          pose proof (node_page_ne _ _ _ (K1 j) KRoot c' pt b Hwf Hkj I ltac:(done) Ec' eq_refl Hb).
          unfold in_page in *. lia.
        - destruct (decide (j = i)) as [->|Hji]; [cbn [node] in Ec'; rewrite Ec in Ec'; by injection Ec' as <-|].
          apply (no_valid_ext (v_mem s)); [|apply (HM j); [lia|done]].
          intros b Hb. symmetry. apply B1.
          by apply (node_page_ne _ _ _ (K1 j) (K1 i) c' c b Hwf); [| |congruence|..]. }
      intros b Hb.
      assert (~ (pt <= b < pt + 8 * (i + 1))) by (intros ?; apply Hb; by left).
      rewrite load8_store64_ne by lia.
      rewrite B1, HB; [done| |].
      * intros [Hlo|(j & c' & Hj & Ec' & Hc')]; apply Hb; [left; lia|right].
        exists j, c'. split; [lia|done].
      * intros Hc'. apply Hb. right. exists i, c. split; [lia|done].
    + exists s. split; [done|]. split; [done|].
      split; [by apply clear_below_skip; [rewrite He|]|]. split.
      { intros j c Hj Ec. destruct (decide (j = i)) as [->|]; [|apply (HM j c); [lia|done]].
        by apply child_entry in Ec as [Hv' _]; rewrite Hv in Hv'. }
      intros b Hb. apply HB.
      intros [Hlo|(j & c & Hj & Ec & Hc)]; apply Hb; [left; lia|right].
      exists j, c. split; [lia|done].
  - mrun E. exists s'. split; [done|]. split; [done|]. split.
    { intros [|i|i j] p Hk En; [by injection En as <-|by apply (HM i); [apply Hk|]|].
      apply (no_valid_ext (v_mem v)); [|by apply (Hnl i j)]. intros b Hb. symmetry. apply HB.
      intros [Hlo|(j' & c & Hj & Ec & Hc)].
      - refine (node_page_ne _ _ _ (K0 i j) KRoot p pt b Hwf Hk I _ En eq_refl Hb _); [done|unfold in_page; lia].
      - refine (node_page_ne _ _ _ (K0 i j) (K1 j') p c b Hwf Hk _ _ En Ec Hb Hc); [cbn; lia|done]. }
    intros b Hb. apply HB.
    intros [Hlo|(j & c & Hj & Ec & Hc)].
    + by apply (Hb KRoot pt I eq_refl).
    + apply (Hb (K1 j) c); [cbn; lia|done|done].
Qed.

(** Every entry of a leaf table belongs to some address. *)
Lemma no_leaves_lookup hi m pt :
  pt_wf hi m pt -> (forall va, valid_va va -> lookup_pte m pt va = None) -> no_leaves m pt.
Proof.
  intros Hwf H i j p [Hi Hj] E x Hx.
  assert (i < 256) as Hi'.
  { cbn [node] in E. destruct (child m pt i) as [c|] eqn:Ec; [|done].
    apply child_entry in Ec as [Hv _].
    by apply (wf_inner _ _ _ Hwf KRoot pt i I I Hi eq_refl Hv). }
  set (va := ((i * 512 + j) * 512 + x) * 4096).
  assert (valid_va va) as Hva by (unfold valid_va, va; rewrite MAXVA_eq; lia).
  assert (PX 2 va = i /\ PX 1 va = j /\ PX 0 va = x) as (H2 & H1 & H0).
  { rewrite !PX_eq by lia. change (2 ^ (12 + 9 * 2)) with (4096 * 512 * 512).
    change (2 ^ (12 + 9 * 1)) with (4096 * 512). change (2 ^ (12 + 9 * 0)) with 4096.
    assert (forall y z, 0 <= z < 512 -> (y * 512 + z) / 512 = y) as Hdiv
      by (intros; rewrite Z.div_add_l, Z.div_small by lia; lia).
    assert (forall y z, 0 <= z < 512 -> (y * 512 + z) mod 512 = z) as Hmod
      by (intros; rewrite Z.add_comm, Z_mod_plus_full; by apply Z.mod_small).
    unfold va. rewrite <- !Z.div_div by lia. rewrite !Z.div_mul by lia.
    rewrite !Hdiv, !Hmod by lia. by rewrite Z.mod_small by lia. }
  specialize (H va Hva). rewrite (lookup_pte_node m pt va p) in H
    by (unfold leaf_key; by rewrite H2, H1).
  rewrite H0 in H. by destruct (has (load64 m (p + 8 * x)) PTE_V).
Qed.

Lemma no_valid_root m pt va : no_valid m pt -> lookup_pte m pt va = None.
Proof.
  intros Hn. unfold lookup_pte, leaf_addr, leaf_key. cbn [node].
  destruct (child m pt (PX 2 va)) eqn:E; [|done]. apply child_entry in E as [Hv _].
  by rewrite Hn in Hv by (apply PX_range; lia).
Qed.

(** * uvmfree *)

Lemma uvmfree_ok v pt sz :
  vm_ok v -> pt_wf (v_freemem v) (v_mem v) pt -> 0 <= sz <= MAXVA ->
  (forall va, valid_va va -> PGROUNDUP sz <= va -> lookup_pte (v_mem v) pt va = None) ->
  exists v', uvmfree pt sz v = Ok tt v' /\ v_freemem v' = v_freemem v /\
    (forall k p, key_ok k -> node (v_mem v) pt k = Some p -> no_valid (v_mem v') p) /\
    (forall b, b < v_freemem v -> off_tree (v_mem v) pt b ->
       load8 (v_mem v') b = load8 (v_mem v) b).
Proof.
  intros Hvm Hwf Hsz Hun. unfold uvmfree, FREEWALK_DEPTH.
  pose proof (PGROUNDUP_le sz Hsz) as (P1 & P2 & P3 & P4).
  assert (exists v1, (if 0 <? sz then uvmunmap pt 0 (PGROUNDUP sz / PGSIZE) true else mret tt) v
            = Ok tt v1 /\ pt_ext pt v v1 /\ v_freemem v1 = v_freemem v /\
            (forall va, valid_va va -> lookup_pte (v_mem v1) pt va = None)) as (v1 & E & X & F & U).
  { change PGSIZE with 4096. destruct (Z.ltb_spec 0 sz).
    - pose proof (Z.div_mod (PGROUNDUP sz) 4096 ltac:(lia)).
      destruct (uvmunmap_ok v pt 0 (PGROUNDUP sz / 4096) true) as (v1 & E & X & F & U);
        [done|done|lia|done|apply Z.div_pos; lia|lia|].
      exists v1. split; [done|]. split; [done|]. split; [done|]. intros va Hva.
      rewrite U by done. case_decide; [done|]. apply Hun; [done|].
      unfold valid_va in Hva. lia.
    - exists v. split; [done|]. split; [by apply pt_ext_refl|]. split; [done|].
      intros va Hva. apply Hun; [done|]. assert (sz = 0) as -> by lia.
      change (PGROUNDUP 0) with 0. apply Hva. }
  mrun E. pose proof (ext_wf _ _ _ X) as Hwf1.
  destruct (freewalk_root _ 1 pt v1 Hwf1 (no_leaves_lookup _ _ _ Hwf1 U)) as (v' & E' & F' & N' & B').
  exists v'. split; [exact E'|]. split; [congruence|].
  split; [intros k p Hk En; by apply (N' k p Hk), (ext_mono _ _ _ X)|]. intros b Hb Hoff.
  rewrite B' by (by eapply off_tree_ext). by apply (ext_frame _ _ _ X).
Qed.

(** * Theorems *)

(** C38: [uvmfree] takes down any well-formed address space whose mappings lie
    below [sz]: it neither panics with "freewalk: leaf" nor runs out of the
    three levels of the tree; afterwards none of the page-table pages of the
    space (the root, the middle and the leaf tables) holds a valid entry, so
    that no address is mapped; and outside these pages no allocated byte
    changes. *)
Theorem uvmfree_correct v pt sz :
  vm_ok v -> pt_wf (v_freemem v) (v_mem v) pt -> 0 <= sz <= MAXVA ->
  (forall va, valid_va va -> PGROUNDUP sz <= va -> lookup_pte (v_mem v) pt va = None) ->
  exists v', uvmfree pt sz v = Ok tt v' /\ v_freemem v' = v_freemem v /\
    (forall k p, key_ok k -> node (v_mem v) pt k = Some p -> no_valid (v_mem v') p) /\
    (forall va, lookup_pte (v_mem v') pt va = None) /\
    (forall b, b < v_freemem v -> off_tree (v_mem v) pt b ->
       load8 (v_mem v') b = load8 (v_mem v) b).
Proof.
  intros Hvm Hwf Hsz Hun. destruct (uvmfree_ok v pt sz Hvm Hwf Hsz Hun) as (v' & E & F & N & B).
  exists v'. split_and!; try done. intros va. apply no_valid_root. by apply (N KRoot).
Qed.

Lemma uvmfree_correct_witness :
  exists v', uvmfree space_pt 4096 space_vm = Ok tt v' /\ v_freemem v' = v_freemem space_vm /\
    (forall k p, key_ok k -> node (v_mem space_vm) space_pt k = Some p -> no_valid (v_mem v') p) /\
    (forall va, lookup_pte (v_mem v') space_pt va = None) /\
    (forall b, b < v_freemem space_vm -> off_tree (v_mem space_vm) space_pt b ->
       load8 (v_mem v') b = load8 (v_mem space_vm) b).
Proof.
  destruct space_facts as (X & N & _).
  apply uvmfree_correct; [exact (ext_vm _ _ _ X)|exact (ext_wf _ _ _ X)|vm_compute; split; congruence|].
  intros va Hva Hge. change (PGROUNDUP 4096) with 4096 in Hge.
  rewrite N, decide_False by (done || lia). by apply lookup_empty_pt.
Defined.
