(* ===== verification/UvmCopy.v ===== *)
(** Duplicating a user address space: correctness of [uvmcopy] of
    kernel/vm.c, which [kfork] uses to give the child its own memory. *)

From stdpp Require Import base gmap list strings numbers.
From Stdlib Require Import ZArith Lia.
From S2P Require Import Prelude Mem KString Riscv Vm PageTable UserVm.

(** * uvmcopy *)

(** The bytes an address space consists of: the pages of its tree and the
    pages mapped below [sz]. *)
Definition foot (m : mem) (pt sz b : Z) : Prop :=
  (exists k p, key_ok k /\ node m pt k = Some p /\ in_page p b) \/
  (exists va e, valid_va va /\ va < sz /\ lookup_pte m pt va = Some e /\ in_page (PTE2PA e) b).

Lemma foot_lookup m m' pt sz va :
  (forall b, foot m pt sz b -> load8 m b = load8 m' b) -> lookup_pte m pt va = lookup_pte m' pt va.
Proof.
  intros H. apply lookup_pte_ext. intros k p b Hk E Hb. apply H. left. by exists k, p.
Qed.

Lemma foot_leaf m m' pt sz va :
  (forall b, foot m pt sz b -> load8 m b = load8 m' b) -> leaf_addr m pt va = leaf_addr m' pt va.
Proof.
  intros H. unfold leaf_addr. f_equal. apply node_ext; [auto with oslab|].
  intros k p b Hk E Hb. apply H. left. by exists k, p.
Qed.

(** State [v] of the copy loop when it is about to do page [i]: the pages
    below [i] that [old] has are in [new], with the flags and the contents
    they have in [old]; [old] itself has not changed. *)
Record copied (v0 v : vmst) (old new i sz : Z) (Q : Z -> Z) : Prop := {
  cp_ext : pt_ext new v0 v;
  cp_old b : foot (v_mem v0) old sz b -> load8 (v_mem v0) b = load8 (v_mem v) b;
  cp_map va : valid_va va -> lookup_pte (v_mem v) new va =
    if decide (va < i) then
      (fun e => mk_pte (Q (va / 4096)) (PTE_FLAGS e)) <$> lookup_pte (v_mem v0) old va
    else lookup_pte (v_mem v0) new va;
  cp_page va e : valid_va va -> va < i -> lookup_pte (v_mem v0) old va = Some e ->
    page_ok (v_freemem v) (Q (va / 4096)) /\ v_freemem v0 <= Q (va / 4096);
  cp_mono va va' e e' : valid_va va -> valid_va va' -> va' < i -> va / 4096 < va' / 4096 ->
    lookup_pte (v_mem v0) old va = Some e -> lookup_pte (v_mem v0) old va' = Some e' ->
    Q (va / 4096) < Q (va' / 4096);
  cp_data va e o : valid_va va -> va < i -> lookup_pte (v_mem v0) old va = Some e ->
    0 <= o < 4096 ->
    load8 (v_mem v) (Q (va / 4096) + o) = load8 (v_mem v0) (PTE2PA e + o) /\
    off_tree (v_mem v) new (Q (va / 4096) + o)
}.

(** What [uvmcopy] needs: two separate, well-formed spaces, [new] empty below
    [sz]. *)
Record copy_pre (v : vmst) (old new sz : Z) : Prop := {
  co_vm : vm_ok v;
  co_new : pt_wf (v_freemem v) (v_mem v) new;
  co_old : pt_wf (v_freemem v) (v_mem v) old;
  co_sz : 0 <= sz <= MAXVA;
  co_pages va e : valid_va va -> va < sz -> lookup_pte (v_mem v) old va = Some e ->
    page_ok (v_freemem v) (PTE2PA e);
  co_sep b : foot (v_mem v) old sz b -> off_tree (v_mem v) new b;
  co_empty va : valid_va va -> va < PGROUNDUP sz -> lookup_pte (v_mem v) new va = None
}.

Lemma lookup_pte_V m pt va e : lookup_pte m pt va = Some e ->
  has e PTE_V = true /\ exists a, leaf_addr m pt va = Some a /\ load64 m a = e.
Proof.
  unfold lookup_pte. destruct (leaf_addr m pt va) as [a|]; [|done].
  change (Some a ≫= ?f) with (f a). cbv beta.
  destruct (has (load64 m a) PTE_V) eqn:H; [|done]. intros E. injection E as <-. eauto.
Qed.

Lemma flags_V e : has e PTE_V = true -> Z.lor (PTE_FLAGS e) PTE_V = PTE_FLAGS e.
Proof.
  intros H. apply Z.bits_inj'. intros n Hn. rewrite Z.lor_spec.
  destruct (decide (n = 0)) as [->|].
  - unfold PTE_V in H. rewrite has_bit, testbit_flags in H by lia. by rewrite H.
  - unfold PTE_V. rewrite Z.shiftl_1_l, Z.pow2_bits_false by lia. apply orb_false_r.
Qed.

Lemma PTE_FLAGS_range e : 0 <= PTE_FLAGS e < 1024.
Proof. rewrite PTE_FLAGS_eq. apply Z.mod_pos_bound. lia. Qed.

(** A page that [old] does not have is skipped. *)
Lemma copied_skip v0 v old new i sz Q :
  copy_pre v0 old new sz -> i mod 4096 = 0 -> valid_va i -> i < sz ->
  copied v0 v old new i sz Q -> lookup_pte (v_mem v0) old i = None ->
  copied v0 v old new (i + 4096) sz Q.
Proof.
  intros Hpre Hal Hi Hlt [X O MP PG MO D] Hn.
  assert (forall va, i <= va < i + 4096 -> lookup_pte (v_mem v0) old va = None) as Hpn.
  { intros va Hva. rewrite (lookup_pte_page _ _ va i); [done|]. by apply aligned_div. }
  assert (forall va e, va < i + 4096 -> lookup_pte (v_mem v0) old va = Some e -> va < i) as Hlo.
  { intros va e Hva He. destruct (decide (va < i)); [done|]. rewrite Hpn in He by lia. done. }
  split; [done|done| | | |].
  - intros va Hva. rewrite MP by done. repeat case_decide; try lia; try done.
    rewrite Hpn by lia. simpl. apply (co_empty _ _ _ _ Hpre); [done|].
    pose proof (PGROUNDUP_le sz (co_sz _ _ _ _ Hpre)) as (? & ? & Hm & ?).
    pose proof (aligned_lt i (PGROUNDUP sz) Hal Hm ltac:(lia)). lia.
  - intros va e Hva Hlt' He. eauto.
  - intros va va' e e' Hva Hva' Hlt' Hp He He'. eapply MO; eauto.
  - intros va e o Hva Hlt' He Ho. eauto.
Qed.

Lemma uvmcopy_loop_S f old new i sz :
  uvmcopy_loop (S f) old new i sz =
  if sz <=? i then mret (true, i) else
  (pte ← walk old i false;
   if pte =? 0 then uvmcopy_loop f old new (u64 (i + PGSIZE)) sz else
   m ← gets v_mem;
   if negb (has (load64 m pte) PTE_V) then uvmcopy_loop f old new (u64 (i + PGSIZE)) sz else
   let pa := PTE2PA (load64 m pte) in
   let flags := PTE_FLAGS (load64 m pte) in
   mem ← kalloc;
   if mem =? 0 then mret (false, i) else
   modify (on_mem (fun m => (memmove mem (Here pa) PGSIZE m).2));;
   r ← mappages new i PGSIZE mem flags;
   if negb (r =? 0) then kfree mem;; mret (false, i) else
   uvmcopy_loop f old new (u64 (i + PGSIZE)) sz).
Proof. done. Qed.

Lemma foot_below v old new sz b :
  copy_pre v old new sz -> foot (v_mem v) old sz b -> b < v_freemem v.
Proof.
  intros Hpre [(k & p & Hk & E & Hb)|(va & e' & Hv & Hvs & E & Hb)].
  - apply (wf_page _ _ _ (co_old _ _ _ _ Hpre)) in E; [|done]. unfold page_ok, in_page in *. lia.
  - apply (co_pages _ _ _ _ Hpre) in E; [|done|done]. unfold page_ok, in_page in *. lia.
Qed.

(** Whatever happens to [new] leaves [old] alone. *)
Lemma copied_old_ext v0 v v2 old new i sz Q b :
  copy_pre v0 old new sz -> copied v0 v old new i sz Q -> pt_ext new v v2 ->
  foot (v_mem v0) old sz b -> load8 (v_mem v0) b = load8 (v_mem v2) b.
Proof.
  intros Hpre [X O _ _ _ _] X2 Hb. pose proof (foot_below _ _ _ _ _ Hpre Hb).
  pose proof (ext_free _ _ _ X).
  rewrite (ext_frame _ _ _ X2); [by apply O|lia|].
  eapply off_tree_ext; [exact X|done|]. by apply (co_sep _ _ _ _ Hpre).
Qed.

(** A page that [old] has is duplicated. *)
Lemma copied_page v0 v v2 old new i sz Q e :
  copy_pre v0 old new sz -> i mod 4096 = 0 -> valid_va i -> i < sz ->
  copied v0 v old new i sz Q -> lookup_pte (v_mem v0) old i = Some e ->
  pt_ext new v v2 -> page_ok (v_freemem v2) (v_freemem v) ->
  (forall b, in_page (v_freemem v) b ->
     load8 (v_mem v2) b = load8 (v_mem v) (PTE2PA e + (b - v_freemem v)) /\
     off_tree (v_mem v2) new b) ->
  maps_range (v_mem v) (v_mem v2) new i (v_freemem v) (PTE_FLAGS e) 1 ->
  copied v0 v2 old new (i + 4096) sz
    (fun n => if decide (n = i / 4096) then v_freemem v else Q n).
Proof.
  intros Hpre Hal Hi Hlt C He X2 Hok Hd HM. pose proof C as [X O MP PG MO D].
  assert (forall va, i <= va < i + 4096 -> va / 4096 = i / 4096 /\
            lookup_pte (v_mem v0) old va = Some e) as Hpn.
  { intros va Hva. apply aligned_div in Hva; [|done]. split; [done|].
    by rewrite (lookup_pte_page _ _ va i). }
  assert (forall va, va < i -> va / 4096 <> i / 4096) as Hpne.
  { intros va Hva Heq. apply aligned_div in Heq; [lia|done]. }
  pose proof (Z.div_mod i 4096 ltac:(lia)) as Hdi.
  split.
  - exact (pt_ext_trans _ _ _ _ X X2).
  - intros b Hb. by eapply copied_old_ext.
  - intros va Hva. rewrite HM, MP by done.
    destruct (decide (i <= va < i + 1 * 4096)) as [Hin|Hout].
    + destruct (Hpn va ltac:(lia)) as [Hp ->]. rewrite decide_True by lia. simpl.
      rewrite decide_True by done. rewrite PGROUNDDOWN_eq. do 2 f_equal. lia.
    + destruct (decide (va < i)) as [Hvi|]; repeat case_decide; try lia; try done.
      exfalso. by apply (Hpne va).
  - intros va e' Hva Hl He'. case_decide as Hc.
    + split; [done|]. exact (ext_free _ _ _ X).
    + destruct (PG va e' Hva) as [Hp Hf]; [|done|].
      { destruct (decide (va < i)); [done|]. destruct Hc. apply Hpn. lia. }
      split; [|done]. eapply page_ok_mono; [exact (ext_free _ _ _ X2)|done].
  - intros va va' e1 e2 Hva Hva' Hl Hp He1 He2.
    pose proof (Z.div_mod va 4096 ltac:(lia)). pose proof (Z.mod_pos_bound va 4096 ltac:(lia)).
    pose proof (Z.div_mod va' 4096 ltac:(lia)). pose proof (Z.mod_pos_bound va' 4096 ltac:(lia)).
    assert (va < i) as Hvi by lia. rewrite (decide_False (P := va / 4096 = _)) by lia.
    case_decide as Hc.
    + destruct (PG va e1 Hva Hvi He1) as [Hpk _]. unfold page_ok in Hpk. lia.
    + eapply MO; eauto. lia.
  - intros va e' o Hva Hl He' Ho. case_decide as Hc.
    + assert (e' = e) as ->.
      { destruct (Hpn va) as [_ Hx]; [|congruence].
        apply aligned_div in Hc; [lia|done]. }
      destruct (Hd (v_freemem v + o)) as [-> Hoff]; [unfold in_page; lia|].
      split; [|done]. replace (v_freemem v + o - v_freemem v) with o by lia.
      symmetry. apply O. right. exists i, e. split_and!; try done; unfold in_page; lia.
    + assert (va < i) as Hvi.
      { destruct (decide (va < i)); [done|]. destruct Hc. apply Hpn. lia. }
      destruct (D va e' o Hva Hvi He' Ho) as [Hd1 Hd2].
      destruct (PG va e' Hva Hvi He') as [Hpk _].
      assert (Q (va / 4096) + o < v_freemem v) by (unfold page_ok in *; lia).
      split; [by rewrite (ext_frame _ _ _ X2)|by eapply off_tree_ext].
Qed.

(** What a run of the loop that stops at page [j] establishes. *)
Definition copy_result (v0 : vmst) (old new sz : Z) (ok : bool) (j : Z) (v' : vmst) : Prop :=
  0 <= j <= PGROUNDUP sz /\ j mod 4096 = 0 /\ pt_ext new v0 v' /\
  (forall b, foot (v_mem v0) old sz b -> load8 (v_mem v0) b = load8 (v_mem v') b) /\
  (ok = true /\ (exists Q, copied v0 v' old new (PGROUNDUP sz) sz Q) \/
   ok = false /\ PHYSTOP < v_freemem v0 + 3 * PGROUNDUP sz + 4096 /\
   (forall va, valid_va va -> j <= va -> lookup_pte (v_mem v') new va = lookup_pte (v_mem v0) new va)).

Lemma copied_stop v0 v v2 old new i sz Q :
  copy_pre v0 old new sz -> copied v0 v old new i sz Q -> pt_ext new v v2 ->
  0 <= i <= PGROUNDUP sz -> i mod 4096 = 0 ->
  PHYSTOP < v_freemem v0 + 3 * PGROUNDUP sz + 4096 ->
  (forall va, valid_va va -> lookup_pte (v_mem v2) new va = lookup_pte (v_mem v) new va) ->
  copy_result v0 old new sz false i v2.
Proof.
  intros Hpre C X2 Hi Hal Hf S. split; [done|]. split; [done|].
  split; [exact (pt_ext_trans _ _ _ _ (cp_ext _ _ _ _ _ _ _ C) X2)|].
  split; [intros b Hb; by eapply copied_old_ext|]. right. split; [done|]. split; [done|].
  intros va Hva Hge. rewrite S, (cp_map _ _ _ _ _ _ _ C) by done. by rewrite decide_False by lia.
Qed.

Lemma copied_end v0 v old new sz Q :
  copy_pre v0 old new sz -> copied v0 v old new (PGROUNDUP sz) sz Q ->
  copy_result v0 old new sz true (PGROUNDUP sz) v.
Proof.
  intros Hpre C. pose proof (PGROUNDUP_le sz (co_sz _ _ _ _ Hpre)) as (? & ? & ? & ?).
  pose proof (co_sz _ _ _ _ Hpre).
  split; [lia|]. split; [done|]. split; [apply C|]. split; [apply C|]. left. eauto.
Qed.

(** The tree of [old] is still well formed in the middle of the loop. *)
Lemma copied_old_wf v0 v old new i sz Q :
  copy_pre v0 old new sz -> copied v0 v old new i sz Q -> pt_wf (v_freemem v) (v_mem v) old.
Proof.
  intros Hpre C. eapply pt_wf_ext; [|exact (co_old _ _ _ _ Hpre)|].
  - exact (ext_free _ _ _ (cp_ext _ _ _ _ _ _ _ C)).
  - intros k p b Hk E Hb. apply (cp_old _ _ _ _ _ _ _ C). left. by exists k, p.
Qed.

(** Duplicating the page behind entry [e]: taken from the allocator, filled,
    entered for page [i] of [new]. *)
Lemma copy_one v0 v old new i sz Q e :
  copy_pre v0 old new sz -> copied v0 v old new i sz Q ->
  i mod 4096 = 0 -> valid_va i -> i < sz -> lookup_pte (v_mem v0) old i = Some e ->
  (kalloc v = Ok 0 v /\ PHYSTOP < v_freemem v + 4096) \/
  (exists v1 r v2, kalloc v = Ok (v_freemem v) v1 /\ v_freemem v <> 0 /\
     mappages new i PGSIZE (v_freemem v) (PTE_FLAGS e)
       (on_mem (fun m => (memmove (v_freemem v) (Here (PTE2PA e)) PGSIZE m).2) v1) = Ok r v2 /\
     pt_ext new v v2 /\ v_freemem v2 <= v_freemem v + 3 * 4096 /\
     (r = -1 /\ PHYSTOP < v_freemem v2 + 4096 /\
        (forall va, valid_va va -> lookup_pte (v_mem v2) new va = lookup_pte (v_mem v) new va) \/
      r = 0 /\ copied v0 v2 old new (i + 4096) sz
                 (fun n => if decide (n = i / 4096) then v_freemem v else Q n))).
Proof.
  intros Hpre C Hal Hi Hlt He. pose proof (cp_ext _ _ _ _ _ _ _ C) as X.
  destruct (kalloc_spec v (ext_vm _ _ _ X)) as (p & v1 & E & Hvm1 & H).
  destruct H as [(-> & -> & Hf)|(Hp & -> & Hok & Hf & Hmem)]; [by left|right].
  pose proof (co_pages _ _ _ _ Hpre i e Hi Hlt He) as Hpe.
  pose proof (ext_free _ _ _ X) as Hfm.
  assert (forall b, load8 (memmove (v_freemem v) (Here (PTE2PA e)) PGSIZE (v_mem v1)).2 b =
            if decide (in_page (v_freemem v) b)
            then load8 (v_mem v) (PTE2PA e + (b - v_freemem v)) else load8 (v_mem v) b) as Hz.
  { intros b. rewrite memmove_load8 by (unfold PGSIZE; lia). change PGSIZE with 4096.
    unfold in_page. case_decide as Hb.
    - cbn [src_read src_add]. rewrite Hmem, decide_False; [done|].
      unfold in_page, page_ok in *. lia.
    - rewrite Hmem, decide_False; [done|]. exact Hb. }
  destruct (map_fresh v new i (PTE_FLAGS e) v1
              (fun m => (memmove (v_freemem v) (Here (PTE2PA e)) PGSIZE m).2))
    as (r & v2 & E2 & X2 & F2 & HR).
  all: try exact (ext_vm _ _ _ X); try exact (ext_wf _ _ _ X); try exact (PTE_FLAGS_range e);
    try assumption.
  { rewrite (cp_map _ _ _ _ _ _ _ C), decide_False by (done || lia).
    apply (co_empty _ _ _ _ Hpre); [done|].
    pose proof (PGROUNDUP_le sz (co_sz _ _ _ _ Hpre)). lia. }
  { intros b Hb. cbn [v_mem on_mem]. by rewrite Hz, decide_False. }
  exists v1, r, v2. split; [exact E|]. split; [exact Hp|]. split; [exact E2|].
  split; [exact X2|]. split; [exact F2|].
  destruct HR as [HR|(-> & Hok2 & Hd & HM)]; [by left|right]. split; [done|].
  eapply (copied_page v0 v v2); try done.
  - intros b Hb. destruct (Hd b Hb) as [-> Hoff]. split; [|exact Hoff]. cbn [v_mem on_mem].
    rewrite Hz. by rewrite decide_True.
  - rewrite flags_V in HM; [done|]. by apply lookup_pte_V in He as [? _].
Qed.

Lemma uvmcopy_loop_ok n : forall v0 v old new i sz Q,
  copy_pre v0 old new sz -> copied v0 v old new i sz Q ->
  v_freemem v <= v_freemem v0 + 3 * i ->
  0 <= i <= PGROUNDUP sz -> i mod 4096 = 0 -> sz <= i + Z.of_nat n * 4096 ->
  exists ok j v', uvmcopy_loop n old new i sz v = Ok (ok, j) v' /\
    copy_result v0 old new sz ok j v'.
Proof.
  induction n as [|n IH]; intros v0 v old new i sz Q Hpre C HF Hi Hal Hfuel.
  all: pose proof (PGROUNDUP_le sz (co_sz _ _ _ _ Hpre)) as (P1 & P2 & P3 & P4).
  all: assert (sz <= i -> i = PGROUNDUP sz) as Hend by
    (intros Hs; destruct (decide (i < PGROUNDUP sz)) as [Hx|]; [|lia];
     pose proof (aligned_lt _ _ Hal P3 Hx); lia).
  - exists true, i, v. cbn [uvmcopy_loop]. destruct (Z.leb_spec sz i); [|lia].
    split; [done|]. rewrite Hend in C |- * by done. by eapply copied_end.
  - rewrite uvmcopy_loop_S. destruct (Z.leb_spec sz i) as [Hs|Hs].
    { exists true, i, v. split; [done|]. rewrite Hend in C |- * by done. by eapply copied_end. }
    assert (i + 4096 <= PGROUNDUP sz) as Hroom by (apply aligned_lt; [done|done|lia]).
    assert (valid_va i) as Hva by (unfold valid_va; lia).
    assert (lookup_pte (v_mem v) old i = lookup_pte (v_mem v0) old i) as Hlk
      by (symmetry; apply (foot_lookup _ _ _ sz), C).
    change (i + PGSIZE) with (i + 4096). rewrite (u64_small (i + 4096)) by (rewrite MAXVA_eq in *; lia).
    assert (lookup_pte (v_mem v0) old i = None -> exists ok j v',
      uvmcopy_loop n old new (i + 4096) sz v = Ok (ok, j) v' /\
      copy_result v0 old new sz ok j v') as Hskip.
    { intros Hn. eapply (IH v0 v); [done|by eapply copied_skip|lia|lia|
        by apply (mod_4096_add i 1)|lia]. }
    mrun (walk_noalloc old i v (proj2 Hva)).
    destruct (leaf_addr (v_mem v) old i) as [pte|] eqn:El.
    2: { change (default 0 None =? 0) with true. cbv iota. apply Hskip. rewrite <- Hlk.
         unfold lookup_pte. by rewrite El. }
    change (default 0 (Some pte)) with pte.
    destruct (leaf_page v old i pte (copied_old_wf _ _ _ _ _ _ _ Hpre C) El) as (p & En & Hpte & Hp).
    destruct (Z.eqb_spec pte 0).
    { pose proof (PX_range 0 i ltac:(lia)). unfold page_ok, KERNBASE in *. lia. }
    mstep. unfold lookup_pte in Hlk at 1. rewrite El in Hlk.
    change (Some pte ≫= ?f) with (f pte) in Hlk. cbv beta in Hlk.
    destruct (has (load64 (v_mem v) pte) PTE_V) eqn:Hh; cbn [negb]; [|by apply Hskip].
    symmetry in Hlk. set (e := load64 (v_mem v) pte) in *. cbv zeta.
    destruct (copy_one v0 v old new i sz Q e Hpre C Hal Hva Hs Hlk)
      as [(E & Hfull)|(v1 & r & v2 & E & Hq & E2 & X2 & F2 & HR)].
    + mrun E. change (0 =? 0) with true. cbv iota. exists false, i, v. split; [done|].
      eapply copied_stop; try done; [|lia].
      apply pt_ext_refl; apply (cp_ext _ _ _ _ _ _ _ C).
    + mrun E. destruct (Z.eqb_spec (v_freemem v) 0); [done|]. mstep. mrun E2.
      destruct HR as [(-> & Hfull & S2)|(-> & C2)].
      * change (negb (-1 =? 0)) with true. cbv iota. unfold kfree. mstep.
        exists false, i, v2. split; [done|]. eapply copied_stop; try done. lia.
      * change (negb (0 =? 0)) with false. cbv iota.
        eapply (IH v0 v2); [done|exact C2|lia|lia|by apply (mod_4096_add i 1)|lia].
Qed.

Lemma copied_start v old new sz : copy_pre v old new sz -> copied v v old new 0 sz (fun _ => 0).
Proof.
  intros Hpre. split; try done.
  all: try (unfold valid_va; intros; lia).
  - apply pt_ext_refl; apply Hpre.
  - intros va Hva. rewrite decide_False; [done|]. unfold valid_va in Hva. lia.
Qed.

Lemma uvmcopy_ok v old new sz :
  copy_pre v old new sz ->
  exists r v', uvmcopy old new sz v = Ok r v' /\ pt_ext new v v' /\
    (forall b, foot (v_mem v) old sz b -> load8 (v_mem v) b = load8 (v_mem v') b) /\
    (r = 0 /\ (exists Q, copied v v' old new (PGROUNDUP sz) sz Q) \/
     r = -1 /\ PHYSTOP < v_freemem v + 3 * PGROUNDUP sz + 4096 /\
     (forall va, valid_va va -> lookup_pte (v_mem v') new va = lookup_pte (v_mem v) new va)).
Proof.
  intros Hpre. unfold uvmcopy. pose proof (co_sz _ _ _ _ Hpre) as Hsz.
  pose proof (PGROUNDUP_le sz Hsz) as (P1 & P2 & P3 & P4).
  destruct (uvmcopy_loop_ok (Z.to_nat (sz / PGSIZE + 1)) v v old new 0 sz (fun _ => 0))
    as (ok & j & v' & E & Hj & Hjm & X & O & HR).
  1: done. 1: by apply copied_start. 1-2: lia. 1: done.
  { change PGSIZE with 4096. pose proof (Z.div_mod sz 4096 ltac:(lia)).
    pose proof (Z.mod_pos_bound sz 4096 ltac:(lia)). pose proof (Z.div_pos sz 4096). lia. }
  mrun E. destruct HR as [(-> & C)|(-> & Hf & S)].
  - exists 0, v'. split; [done|]. split; [done|]. split; [done|]. by left.
  - change PGSIZE with 4096.
    pose proof (Z.div_mod j 4096 ltac:(lia)) as Hd. rewrite Hjm in Hd.
    destruct (uvmunmap_ok v' new 0 (j / 4096) true) as (v2 & E2 & X2 & F2 & U2).
    1: exact (ext_vm _ _ _ X). 1: exact (ext_wf _ _ _ X).
    1: lia. 1: done. 1: apply Z.div_pos; lia. 1: lia.
    exists (-1), v2. mrun E2. split; [done|]. split; [exact (pt_ext_trans _ _ _ _ X X2)|]. split.
    + intros b Hb. pose proof (foot_below _ _ _ _ _ Hpre Hb). pose proof (ext_free _ _ _ X).
      rewrite (ext_frame _ _ _ X2); [by apply O|lia|].
      eapply off_tree_ext; [exact X|done|]. by apply (co_sep _ _ _ _ Hpre).
    + right. split; [done|]. split; [done|]. intros va Hva. rewrite U2 by done.
      case_decide as Hc.
      * symmetry. apply (co_empty _ _ _ _ Hpre); [done|]. lia.
      * apply S; [done|]. unfold valid_va in Hva. lia.
Qed.

(** * Theorems *)

(** The entry and the byte the copy has for an address of the original. *)
Lemma copied_uread v0 v old new sz Q va :
  copy_pre v0 old new sz -> copied v0 v old new (PGROUNDUP sz) sz Q ->
  valid_va va -> va < PGROUNDUP sz ->
  uread (v_mem v) new va = uread (v_mem v0) old va /\
  PTE_FLAGS <$> lookup_pte (v_mem v) new va = PTE_FLAGS <$> lookup_pte (v_mem v0) old va /\
  (forall e, lookup_pte (v_mem v) new va = Some e -> v_freemem v0 <= PTE2PA e).
Proof.
  intros Hpre C Hva Hlt. unfold uread.
  rewrite (cp_map _ _ _ _ _ _ _ C va Hva), decide_True by done.
  destruct (lookup_pte (v_mem v0) old va) as [e|] eqn:He; [|done].
  pose proof (Z.mod_pos_bound va 4096 ltac:(lia)) as Hm.
  destruct (cp_data _ _ _ _ _ _ _ C va e (va mod 4096) Hva Hlt He Hm) as [Hd _].
  destruct (cp_page _ _ _ _ _ _ _ C va e Hva Hlt He) as [Hp Hf].
  pose proof (page_ok_range _ _ (proj2 (proj2 (ext_vm _ _ _ (cp_ext _ _ _ _ _ _ _ C)))) Hp) as Hr.
  pose proof (PTE_FLAGS_range e) as Hfl.
  assert (PTE2PA (mk_pte (Q (va / 4096)) (PTE_FLAGS e)) = Q (va / 4096)) as Hpa.
  { apply PTE2PA_mk; [lia|apply Hp|done]. }
  cbn [fmap option_fmap option_map mbind option_bind]. rewrite Hpa, Hd. split; [done|]. split.
  - f_equal. apply PTE_FLAGS_mk; [lia|done].
  - intros e' [= <-]. by rewrite Hpa.
Qed.

(** C31: [uvmcopy] gives the child its own copy of the parent's memory: on
    success every address below [sz] reads the same byte with the same
    permission bits in [new] as in [old], different pages of the child are
    different physical pages, all allocated during the call; the parent reads
    what it read before.  It fails only when memory runs out, and then [new]
    maps again exactly what it mapped before. *)
Theorem uvmcopy_correct v old new sz :
  copy_pre v old new sz ->
  exists r v', uvmcopy old new sz v = Ok r v' /\
    vm_ok v' /\ pt_wf (v_freemem v') (v_mem v') new /\
    (forall va, valid_va va -> va < sz -> uread (v_mem v') old va = uread (v_mem v) old va) /\
    (r = 0 /\
       (forall va, valid_va va -> va < PGROUNDUP sz ->
          uread (v_mem v') new va = uread (v_mem v) old va /\
          PTE_FLAGS <$> lookup_pte (v_mem v') new va = PTE_FLAGS <$> lookup_pte (v_mem v) old va /\
          (forall e, lookup_pte (v_mem v') new va = Some e -> v_freemem v <= PTE2PA e)) /\
       (forall va va' e e', valid_va va -> valid_va va' -> va' < PGROUNDUP sz ->
          va / PGSIZE < va' / PGSIZE ->
          lookup_pte (v_mem v') new va = Some e -> lookup_pte (v_mem v') new va' = Some e' ->
          PTE2PA e < PTE2PA e') \/
     r = -1 /\ PHYSTOP < v_freemem v + 3 * PGROUNDUP sz + PGSIZE /\
       (forall va, valid_va va -> lookup_pte (v_mem v') new va = lookup_pte (v_mem v) new va)).
Proof.
  intros Hpre. destruct (uvmcopy_ok v old new sz Hpre) as (r & v' & E & X & O & HR).
  exists r, v'. split; [done|]. split; [exact (ext_vm _ _ _ X)|]. split; [exact (ext_wf _ _ _ X)|].
  split.
  { intros va Hva Hlt. unfold uread. rewrite <- (foot_lookup _ _ _ sz va O).
    destruct (lookup_pte (v_mem v) old va) as [e|] eqn:He; [|done].
    cbn [mbind option_bind]. f_equal. symmetry. apply O. right. exists va, e.
    pose proof (Z.mod_pos_bound va 4096). unfold in_page. split_and!; try done; lia. }
  destruct HR as [(-> & Q & C)|HR]; [left|by right].
  split; [done|]. split; [intros va Hva Hlt; by eapply copied_uread|].
  change PGSIZE with 4096. intros va va' e e' Hva Hva' Hlt Hp.
  assert (va < PGROUNDUP sz) as Hlt0.
  { pose proof (Z.div_mod va 4096 ltac:(lia)). pose proof (Z.mod_pos_bound va 4096 ltac:(lia)).
    pose proof (Z.div_mod va' 4096 ltac:(lia)). pose proof (Z.mod_pos_bound va' 4096 ltac:(lia)). lia. }
  rewrite (cp_map _ _ _ _ _ _ _ C va Hva), (cp_map _ _ _ _ _ _ _ C va' Hva'), !decide_True by done.
  destruct (lookup_pte (v_mem v) old va) as [d|] eqn:He; [|done].
  destruct (lookup_pte (v_mem v) old va') as [d'|] eqn:He'; [|done].
  cbn [fmap option_fmap option_map]. intros [= <-] [= <-].
  destruct (cp_page _ _ _ _ _ _ _ C va d Hva Hlt0 He) as [P1 _].
  destruct (cp_page _ _ _ _ _ _ _ C va' d' Hva' Hlt He') as [P2 _].
  pose proof (proj2 (proj2 (ext_vm _ _ _ X))) as Hhi.
  pose proof (page_ok_range _ _ Hhi P1). pose proof (page_ok_range _ _ Hhi P2).
  rewrite !PTE2PA_mk; try apply PTE_FLAGS_range; try apply P1; try apply P2; try lia.
  by eapply (cp_mono _ _ _ _ _ _ _ C).
Qed.

Lemma empty_node_inv m pt k p :
  node m pt k = Some p -> (forall b, in_page pt b -> load8 m b = 0) -> key_ok k -> p = pt.
Proof.
  intros E H Hk. destruct (decide (k = KRoot)) as [->|Hne]; [by injection E|].
  by rewrite empty_node in E.
Qed.

(** A parent with one page at 0 ([space_pt]) and an empty child. *)
Lemma space_demo_empty b : in_page demo_pt b -> load8 (v_mem space_vm) b = 0.
Proof.
  intros Hb. destruct space_facts as (X & _).
  rewrite (ext_frame _ _ _ X); [done| |].
  - unfold in_page, demo_pt in Hb. change (v_freemem demo_vm) with (PHYSTOP - 100 * 4096).
    unfold PHYSTOP, KERNBASE in *. lia.
  - intros k p Hk E. apply empty_node_inv in E as ->; [|done|done].
    unfold in_page, demo_pt, space_pt in *. lia.
Qed.

Lemma space_copy_pre : copy_pre space_vm space_pt demo_pt 4096.
Proof.
  destruct space_facts as (X & N & q & Hq & Hok & Hqf & _).
  pose proof (ext_free _ _ _ X) as Hfm.
  assert (v_freemem demo_vm = KERNBASE + 0x7F9C000) as Hd0 by (vm_compute; reflexivity).
  assert (forall va e, valid_va va -> lookup_pte (v_mem space_vm) space_pt va = Some e ->
            PTE2PA e = q) as Hpa.
  { intros va e Hva He. rewrite N in He by done. case_decide.
    - rewrite Hq in He. injection He as <-.
      apply PTE2PA_mk; [|apply Hok|vm_compute; split; congruence].
      pose proof (page_ok_range _ _ (proj2 (proj2 (ext_vm _ _ _ X))) Hok). lia.
    - by rewrite lookup_empty_pt in He. }
  split.
  - exact (ext_vm _ _ _ X).
  - apply pt_wf_empty; [|exact space_demo_empty]. unfold page_ok, demo_pt.
    split_and!; [vm_compute; done|lia|lia].
  - exact (ext_wf _ _ _ X).
  - vm_compute. split; congruence.
  - intros va e Hva _ He. by rewrite (Hpa va e).
  - intros b Hb k p Hk E Hin. apply empty_node_inv in E as ->; [|exact space_demo_empty|done].
    unfold in_page, demo_pt in Hin.
    destruct Hb as [(k' & p' & Hk' & E' & Hb)|(va & e & Hva & _ & He & Hb)].
    + apply (ext_new _ _ _ X) in E' as [E'|E']; [| |done].
      * apply empty_node_inv in E' as ->; [|done|done]. unfold in_page, space_pt in Hb. lia.
      * unfold in_page in Hb. lia.
    + rewrite (Hpa va e Hva He) in Hb. unfold in_page in Hb. lia.
  - intros va _ _. apply lookup_empty_pt. exact space_demo_empty.
Qed.

Lemma uvmcopy_correct_witness :
  copy_pre space_vm space_pt demo_pt 4096 /\
  exists r v', uvmcopy space_pt demo_pt 4096 space_vm = Ok r v' /\
    (forall va, valid_va va -> va < 4096 ->
       uread (v_mem v') space_pt va = uread (v_mem space_vm) space_pt va).
Proof.
  split; [exact space_copy_pre|].
  destruct (uvmcopy_correct _ _ _ _ space_copy_pre) as (r & v' & E & _ & _ & O & _).
  exists r, v'. split; [exact E|exact O].
Defined.
