(* ===== verification/UserCopy.v ===== *)
(** Copies between the kernel and a user address space: correctness of
    [walkaddr], [copyout], [copyin] and [copyinstr] of kernel/vm.c.

    [uaddr] is the address translation the copies go through (valid user
    pages only), [uwaddr] the one for writing.  The specifications say which
    prefix of the range was transferred and why the copy stopped. *)

From stdpp Require Import base gmap list strings numbers.
From Stdlib Require Import ZArith Lia.
From S2P Require Import Prelude Mem KString Riscv Vm PageTable UserVm.

(** * User address spaces *)

(** The valid user entry for [va]. *)
Definition upte (m : mem) (pt va : Z) : option Z :=
  if decide (valid_va va) then
    e ← lookup_pte m pt va; if has e PTE_U then Some e else None
  else None.

Definition uaddr (m : mem) (pt va : Z) : option Z :=
  e ← upte m pt va; Some (PTE2PA e + va mod 4096).

Definition uwaddr (m : mem) (pt va : Z) : option Z :=
  e ← upte m pt va; if has e PTE_W then Some (PTE2PA e + va mod 4096) else None.

(** User pages are allocated pages, outside the page table, and no page is
    behind two addresses. *)
Record us_wf (v : vmst) (pt : Z) : Prop := {
  us_vm : vm_ok v;
  us_pt : pt_wf (v_freemem v) (v_mem v) pt;
  us_page va e : upte (v_mem v) pt va = Some e -> page_ok (v_freemem v) (PTE2PA e);
  us_off va e b : upte (v_mem v) pt va = Some e -> in_page (PTE2PA e) b -> off_tree (v_mem v) pt b;
  us_inj va va' e e' : upte (v_mem v) pt va = Some e -> upte (v_mem v) pt va' = Some e' ->
    PTE2PA e = PTE2PA e' -> va / 4096 = va' / 4096
}.

Lemma upte_valid m pt va e : upte m pt va = Some e -> valid_va va.
Proof. unfold upte. by case_decide. Qed.

Lemma uaddr_valid m pt va p : uaddr m pt va = Some p -> valid_va va.
Proof.
  unfold uaddr. destruct (upte m pt va) eqn:E; [|done]. intros _. by eapply upte_valid.
Qed.

Lemma page_split va va0 : va0 = PGROUNDDOWN va -> va0 <= va < va0 + 4096 /\ va0 mod 4096 = 0 /\
  va - va0 = va mod 4096 /\ va0 = va / 4096 * 4096.
Proof.
  intros ->. rewrite PGROUNDDOWN_eq.
  pose proof (Z.div_mod va 4096 ltac:(lia)). pose proof (Z.mod_pos_bound va 4096 ltac:(lia)).
  rewrite (Z.mul_comm 4096), Z_mod_mult. lia.
Qed.

(** The translation is per page. *)
Lemma upte_page m pt va va' :
  valid_va va -> va / 4096 = va' / 4096 -> upte m pt va = upte m pt va'.
Proof.
  intros Hva Heq. unfold upte. rewrite (lookup_pte_page _ _ _ _ Heq).
  assert (valid_va va').
  { unfold valid_va in *. rewrite MAXVA_eq in *. change (2 ^ 38) with (2 ^ 26 * 4096) in *.
    pose proof (Z.div_mod va 4096 ltac:(lia)). pose proof (Z.mod_pos_bound va 4096 ltac:(lia)).
    pose proof (Z.div_mod va' 4096 ltac:(lia)). pose proof (Z.mod_pos_bound va' 4096 ltac:(lia)). lia. }
  by rewrite !decide_True.
Qed.

(** Writing to user pages changes no translation. *)
Lemma us_wf_write v pt m' :
  us_wf v pt -> (forall b, ~ off_tree (v_mem v) pt b -> load8 m' b = load8 (v_mem v) b) ->
  us_wf (mkVm m' (v_freemem v)) pt /\
  (forall va, lookup_pte m' pt va = lookup_pte (v_mem v) pt va).
Proof.
  intros [Hvm Hpt Hpg Hoff Hinj] H.
  assert (forall k p b, key_ok k -> node (v_mem v) pt k = Some p -> in_page p b ->
            load8 (v_mem v) b = load8 m' b) as HT.
  { intros k p b Hk E Hb. symmetry. apply H. intros Ho. by apply (Ho k p). }
  assert (forall va, lookup_pte m' pt va = lookup_pte (v_mem v) pt va) as HL
    by (intros va; symmetry; by apply lookup_pte_ext).
  assert (forall va, upte m' pt va = upte (v_mem v) pt va) as HU
    by (intros va; unfold upte; by rewrite HL).
  split; [|done]. split; cbn [v_mem v_freemem]; [done| | | |].
  - by eapply pt_wf_ext.
  - intros va e. rewrite HU. apply Hpg.
  - intros va e b He Hb k p Hk. rewrite HU in He.
    rewrite <- (node_ext (v_mem v) m' pt k) by (done || (intros; by eapply HT)).
    by apply (Hoff va e b).
  - intros va va' e e'. rewrite !HU. apply Hinj.
Qed.

(** [walkaddr] is the translation. *)
Lemma walkaddr_ok v pt va :
  pt_wf (v_freemem v) (v_mem v) pt -> 0 <= va ->
  walkaddr pt va v = Ok (default 0 (PTE2PA <$> upte (v_mem v) pt va)) v.
Proof.
  intros Hwf Hva. unfold walkaddr, upte. destruct (Z.leb_spec MAXVA va) as [Hm|Hm].
  { rewrite decide_False; [done|]. unfold valid_va. lia. }
  rewrite decide_True by done. mrun (walk_noalloc pt va v Hm).
  destruct (leaf_addr (v_mem v) pt va) as [pte|] eqn:El.
  2: { unfold lookup_pte. by rewrite El. }
  change (default 0 (Some pte)) with pte.
  destruct (leaf_page v pt va pte Hwf El) as (p & En & Hpte & Hp).
  destruct (Z.eqb_spec pte 0).
  { pose proof (PX_range 0 va ltac:(lia)). unfold page_ok, KERNBASE in *. lia. }
  mstep. unfold lookup_pte. rewrite El. change (Some pte ≫= ?f) with (f pte). cbv beta.
  destruct (has (load64 (v_mem v) pte) PTE_V); cbn [negb]; [|done].
  change (Some ?x ≫= ?f) with (f x). cbv beta.
  by destruct (has (load64 (v_mem v) pte) PTE_U).
Qed.

Lemma walkaddr_some v pt va e :
  us_wf v pt -> upte (v_mem v) pt va = Some e ->
  walkaddr pt va v = Ok (PTE2PA e) v /\ PTE2PA e <> 0 /\
  exists pte, walk pt va false v = Ok pte v /\ load64 (v_mem v) pte = e.
Proof.
  intros Hus He. pose proof (upte_valid _ _ _ _ He) as Hva.
  rewrite (walkaddr_ok v pt va (us_pt _ _ Hus) (proj1 Hva)), He. split; [done|]. split.
  { pose proof (us_page _ _ Hus va e He) as Hp. unfold page_ok, KERNBASE in Hp. lia. }
  unfold upte in He. rewrite decide_True in He by done. unfold lookup_pte in He.
  rewrite (walk_noalloc pt va v (proj2 Hva)).
  destruct (leaf_addr (v_mem v) pt va) as [pte|]; [|done]. exists pte. split; [done|].
  change (Some pte ≫= ?f) with (f pte) in He. cbv beta in He.
  destruct (has (load64 (v_mem v) pte) PTE_V); [|done].
  change (Some ?x ≫= ?f) with (f x) in He. cbv beta in He.
  destruct (has (load64 (v_mem v) pte) PTE_U); [|done]. by injection He.
Qed.

Lemma walkaddr_none v pt va :
  us_wf v pt -> 0 <= va -> upte (v_mem v) pt va = None -> walkaddr pt va v = Ok 0 v.
Proof. intros Hus Hva He. by rewrite (walkaddr_ok v pt va (us_pt _ _ Hus) Hva), He. Qed.

(** * copyout *)

Lemma uwaddr_inv m pt va p : uwaddr m pt va = Some p ->
  exists e, upte m pt va = Some e /\ has e PTE_W = true /\ p = PTE2PA e + va mod 4096.
Proof.
  unfold uwaddr. destruct (upte m pt va) as [e|]; [|done].
  change (Some ?x ≫= ?f) with (f x). cbv beta.
  destruct (has e PTE_W) eqn:H; [|done]. intros [= <-]. eauto.
Qed.

Lemma uwaddr_intro m pt va e : upte m pt va = Some e -> has e PTE_W = true ->
  uwaddr m pt va = Some (PTE2PA e + va mod 4096).
Proof. intros He Hw. unfold uwaddr. rewrite He. change (Some ?x ≫= ?f) with (f x). cbv beta. by rewrite Hw. Qed.

Lemma uaddr_intro m pt va e : upte m pt va = Some e -> uaddr m pt va = Some (PTE2PA e + va mod 4096).
Proof. intros He. unfold uaddr. by rewrite He. Qed.

Lemma uwaddr_uaddr m pt va p : uwaddr m pt va = Some p -> uaddr m pt va = Some p.
Proof. intros (e & He & _ & ->)%uwaddr_inv. by apply uaddr_intro. Qed.

Lemma uaddr_inv m pt va p : uaddr m pt va = Some p ->
  exists e, upte m pt va = Some e /\ p = PTE2PA e + va mod 4096.
Proof.
  unfold uaddr. destruct (upte m pt va) as [e|]; [|done].
  change (Some ?x ≫= ?f) with (f x). cbv beta. intros [= <-]. eauto.
Qed.

(** Two user addresses never share a byte. *)
Lemma uaddr_inj v pt va va' p :
  us_wf v pt -> uaddr (v_mem v) pt va = Some p -> uaddr (v_mem v) pt va' = Some p -> va = va'.
Proof.
  intros Hus (e & He & ->)%uaddr_inv (e' & He' & Hp)%uaddr_inv.
  destruct (us_page _ _ Hus _ _ He) as [Ha _]. destruct (us_page _ _ Hus _ _ He') as [Ha' _].
  pose proof (Z.mod_pos_bound va 4096 ltac:(lia)). pose proof (Z.mod_pos_bound va' 4096 ltac:(lia)).
  assert (PTE2PA e = PTE2PA e') as Heq.
  { destruct (decide (PTE2PA e = PTE2PA e')) as [|Hne]; [done|].
    destruct (page_sep _ _ Ha Ha' Hne); lia. }
  pose proof (us_inj _ _ Hus _ _ _ _ He He' Heq).
  pose proof (Z.div_mod va 4096 ltac:(lia)). pose proof (Z.div_mod va' 4096 ltac:(lia)). lia.
Qed.

(** [n] bytes from [f (a + _)] are at user address [dst], nothing else has
    changed. *)
Definition wrote (v v' : vmst) (pt dst n : Z) (f : Z -> Z) (a : Z) : Prop :=
  v_freemem v' = v_freemem v /\
  (forall i, 0 <= i < n -> exists p, uwaddr (v_mem v) pt (dst + i) = Some p /\
     load8 (v_mem v') p = u8 (f (a + i))) /\
  (forall b, (forall i, 0 <= i < n -> uwaddr (v_mem v) pt (dst + i) <> Some b) ->
     load8 (v_mem v') b = load8 (v_mem v) b).

Lemma wrote_us v v' pt dst n f a :
  us_wf v pt -> wrote v v' pt dst n f a ->
  us_wf v' pt /\ (forall va, upte (v_mem v') pt va = upte (v_mem v) pt va).
Proof.
  intros Hus (Hf & Hw & Hs). destruct v' as [m' hi']. cbn [v_mem v_freemem] in *. subst hi'.
  destruct (us_wf_write v pt m' Hus) as [Hus' HL].
  { intros b Hb. apply Hs. intros i Hi Hp. apply Hb.
    apply uwaddr_inv in Hp as (e & He & _ & ->). apply (us_off _ _ Hus _ _ _ He).
    pose proof (Z.mod_pos_bound (dst + i) 4096). unfold in_page. lia. }
  split; [done|]. intros va. unfold upte. by rewrite HL.
Qed.

Lemma wrote_app v v1 v' pt dst n k f a :
  us_wf v pt -> 0 <= n -> 0 <= k ->
  wrote v v1 pt dst n f a -> wrote v1 v' pt (dst + n) k f (a + n) ->
  wrote v v' pt dst (n + k) f a.
Proof.
  intros Hus Hn Hk W1 W2. pose proof (wrote_us _ _ _ _ _ _ _ Hus W1) as [Hus1 HU].
  assert (forall va, uwaddr (v_mem v1) pt va = uwaddr (v_mem v) pt va) as HA
    by (intros va; unfold uwaddr; by rewrite HU).
  destruct W1 as (F1 & D1 & S1), W2 as (F2 & D2 & S2). split; [congruence|]. split.
  - intros i Hi. destruct (decide (i < n)) as [Hlt|Hge].
    + destruct (D1 i) as (p & Hp & Hl); [lia|]. exists p. split; [done|].
      rewrite S2; [done|]. intros j Hj Hp'. rewrite HA in Hp'.
      pose proof (uaddr_inj v pt _ _ p Hus (uwaddr_uaddr _ _ _ _ Hp) (uwaddr_uaddr _ _ _ _ Hp')). lia.
    + destruct (D2 (i - n)) as (p & Hp & Hl); [lia|]. exists p. rewrite HA in Hp.
      replace (dst + n + (i - n)) with (dst + i) in Hp by lia.
      replace (a + n + (i - n)) with (a + i) in Hl by lia. done.
  - intros b Hb. rewrite S2, S1; [done| |].
    + intros i Hi. apply Hb. lia.
    + intros j Hj. rewrite HA. replace (dst + n + j) with (dst + (n + j)) by lia. apply Hb. lia.
Qed.

Lemma wrote_0 v pt dst f a : wrote v v pt dst 0 f a.
Proof. split; [done|]. split; [lia|done]. Qed.

(** Within one page a copy is one [memmove]. *)
Lemma in_page_addr dst i : 0 <= i -> dst mod 4096 + i < 4096 ->
  (dst + i) / 4096 = dst / 4096 /\ (dst + i) mod 4096 = dst mod 4096 + i.
Proof.
  intros Hi Hlt. pose proof (Z.div_mod dst 4096 ltac:(lia)).
  pose proof (Z.mod_pos_bound dst 4096 ltac:(lia)).
  assert ((dst + i) / 4096 = dst / 4096) as He.
  { symmetry. apply (Z.div_unique_pos _ _ _ (dst mod 4096 + i)); lia. }
  split; [done|]. rewrite Z.mod_eq, He by lia. lia.
Qed.

Lemma upte_same_page m pt dst i e : 0 <= i -> dst mod 4096 + i < 4096 ->
  upte m pt dst = Some e -> upte m pt (dst + i) = Some e.
Proof.
  intros Hi Hlt He. rewrite <- He. symmetry. apply upte_page; [by eapply upte_valid|].
  symmetry. by apply in_page_addr.
Qed.

Lemma wrote_page v pt dst n f a e :
  us_wf v pt -> upte (v_mem v) pt dst = Some e -> has e PTE_W = true ->
  0 <= n -> dst mod 4096 + n <= 4096 ->
  wrote v (on_mem (fun m => (memmove (PTE2PA e + dst mod 4096) (There f a) n m).2) v) pt dst n f a.
Proof.
  intros Hus He Hw Hn Hle. split; [done|]. cbn [v_mem on_mem].
  assert (forall i, 0 <= i < n ->
            uwaddr (v_mem v) pt (dst + i) = Some (PTE2PA e + dst mod 4096 + i)) as HA.
  { intros i Hi. rewrite (uwaddr_intro _ _ _ e); [|apply upte_same_page; [lia|lia|done]|done].
    destruct (in_page_addr dst i) as [_ ->]; [lia|lia|]. f_equal. lia. }
  split.
  - intros i Hi. eexists. split; [by apply HA|].
    rewrite memmove_load8, decide_True by lia. cbn [src_add src_read]. do 2 f_equal. lia.
  - intros b Hb. rewrite memmove_load8, decide_False; [done| |lia].
    intros Hr. apply (Hb (b - (PTE2PA e + dst mod 4096))); [lia|]. rewrite HA by lia. f_equal. lia.
Qed.

Lemma copyout_loop_S f pagetable dstva src len :
  copyout_loop (S f) pagetable dstva src len =
  if len <=? 0 then mret 0 else
  let va0 := PGROUNDDOWN dstva in
  if MAXVA <=? va0 then mret (-1) else
  (pa0 ← walkaddr pagetable va0;
   if pa0 =? 0 then mret (-1) else
   pte ← walk pagetable va0 false;
   m ← gets v_mem;
   if negb (has (load64 m pte) PTE_W) then mret (-1) else
   let n := Z.min (PGSIZE - (dstva - va0)) len in
   modify (on_mem (fun m => (memmove (pa0 + (dstva - va0)) src n m).2));;
   copyout_loop f pagetable (u64 (va0 + PGSIZE)) (src_add src n) (len - n)).
Proof. done. Qed.

(** The translation of an address and of its page. *)
Lemma upte_rounddown m pt va : 0 <= va -> upte m pt (PGROUNDDOWN va) = upte m pt va.
Proof.
  intros Hva. pose proof (page_split va _ eq_refl) as (Hr & Hm & Ho & Hq).
  assert (PGROUNDDOWN va / 4096 = va / 4096) as Hd by (rewrite Hq; apply Z.div_mul; lia).
  destruct (decide (valid_va va)) as [Hv|Hv]; [symmetry; by apply upte_page|].
  destruct (decide (valid_va (PGROUNDDOWN va))) as [Hv'|Hv']; [by apply upte_page|].
  unfold upte. by rewrite !decide_False.
Qed.

(** What a copy of [len] bytes achieves: all of them, or those before the
    first address that may not be written. *)
Definition copyout_result (v : vmst) (pt dst : Z) (f : Z -> Z) (a len r : Z) (v' : vmst) : Prop :=
  exists n, wrote v v' pt dst n f a /\
    (r = 0 /\ n = len \/ r = -1 /\ 0 <= n < len /\ uwaddr (v_mem v) pt (dst + n) = None).

Lemma copyout_done v pt dst f a : copyout_result v pt dst f a 0 0 v.
Proof. exists 0. split; [apply wrote_0|by left]. Qed.

Lemma copyout_stop v pt dst f a len :
  0 < len -> uwaddr (v_mem v) pt dst = None -> copyout_result v pt dst f a len (-1) v.
Proof.
  intros Hl Hn. exists 0. rewrite Z.add_0_r. split; [apply wrote_0|]. right. split_and!; done || lia.
Qed.

Lemma copyout_next v v1 pt dst f a n len r v' :
  us_wf v pt -> 0 <= n <= len -> wrote v v1 pt dst n f a ->
  (n = len -> r = 0 /\ v' = v1) ->
  (n < len -> copyout_result v1 pt (dst + n) f (a + n) (len - n) r v') ->
  copyout_result v pt dst f a len r v'.
Proof.
  intros Hus Hn W1 H0 HR. destruct (decide (n = len)) as [->|Hne].
  - destruct (H0 eq_refl) as [-> ->]. exists len. split; [done|by left].
  - destruct HR as (k & W2 & HR); [lia|]. pose proof (wrote_us _ _ _ _ _ _ _ Hus W1) as [_ HU].
    exists (n + k). split; [apply (wrote_app v v1); try done; [lia|]; destruct HR; lia|].
    destruct HR as [[-> ->]|(-> & Hk & Hx)]; [left; split; [done|lia]|right].
    split; [done|]. split; [lia|]. rewrite Z.add_assoc, <- Hx. unfold uwaddr. by rewrite HU.
Qed.

Lemma copyout_loop_0 fuel pt dst src v : copyout_loop fuel pt dst src 0 v = Ok 0 v.
Proof. by destruct fuel. Qed.

(** One page of the copy. *)
Lemma copyout_step fuel v pt dst f a len e :
  us_wf v pt -> 0 <= dst -> 0 < len -> upte (v_mem v) pt dst = Some e -> has e PTE_W = true ->
  let n := Z.min (4096 - dst mod 4096) len in
  exists v1, wrote v v1 pt dst n f a /\
    copyout_loop (S fuel) pt dst (There f a) len v =
    copyout_loop fuel pt (PGROUNDDOWN dst + 4096) (There f (a + n)) (len - n) v1.
Proof.
  intros Hus Hdst Hlen He Hw n. rewrite copyout_loop_S. destruct (Z.leb_spec len 0); [lia|].
  cbv zeta. pose proof (page_split dst _ eq_refl) as (Hr & Hm & Ho & Hq).
  pose proof (upte_rounddown (v_mem v) pt dst ltac:(lia)) as Hrd. rewrite He in Hrd.
  set (va0 := PGROUNDDOWN dst) in *.
  pose proof (upte_valid _ _ _ _ Hrd) as [Hv0 Hv1]. destruct (Z.leb_spec MAXVA va0); [lia|].
  destruct (walkaddr_some v pt va0 e Hus Hrd) as (E1 & Hne & pte & E2 & Hpte).
  mrun E1. destruct (Z.eqb_spec (PTE2PA e) 0); [done|]. mrun E2. mstep. rewrite Hpte, Hw, Ho.
  change PGSIZE with 4096. cbn [negb src_add]. pose proof (Z.mod_pos_bound dst 4096 ltac:(lia)).
  rewrite MAXVA_eq in Hv1. rewrite u64_small by lia.
  eexists. split; [apply (wrote_page v pt dst n f a e Hus He Hw); lia|]. reflexivity.
Qed.

(** The copy stops at a page that may not be written. *)
Lemma copyout_refuse fuel v pt dst src len :
  us_wf v pt -> 0 <= dst -> 0 < len -> uwaddr (v_mem v) pt dst = None ->
  copyout_loop (S fuel) pt dst src len v = Ok (-1) v.
Proof.
  intros Hus Hdst Hlen Hn. rewrite copyout_loop_S. destruct (Z.leb_spec len 0); [lia|].
  cbv zeta. pose proof (page_split dst _ eq_refl) as (Hr & Hm & Ho & Hq).
  pose proof (upte_rounddown (v_mem v) pt dst ltac:(lia)) as Hrd.
  destruct (Z.leb_spec MAXVA (PGROUNDDOWN dst)); [done|].
  unfold uwaddr in Hn. destruct (upte (v_mem v) pt dst) as [e|] eqn:He.
  - destruct (walkaddr_some v pt _ e Hus Hrd) as (E1 & Hne & pte & E2 & Hpte).
    mrun E1. destruct (Z.eqb_spec (PTE2PA e) 0); [done|]. mrun E2. mstep. rewrite Hpte.
    change (Some ?x ≫= ?f) with (f x) in Hn. cbv beta in Hn. by destruct (has e PTE_W).
  - pose proof (Z.div_pos dst 4096 ltac:(lia) ltac:(lia)).
    by mrun (walkaddr_none v pt (PGROUNDDOWN dst) Hus ltac:(lia) Hrd).
Qed.

Lemma copyout_loop_ok fuel : forall v pt dst f a len,
  us_wf v pt -> 0 <= dst < 2 ^ 64 -> 0 <= len ->
  len + dst mod 4096 <= Z.of_nat fuel * 4096 \/ len = 0 ->
  exists r v', copyout_loop fuel pt dst (There f a) len v = Ok r v' /\
    copyout_result v pt dst f a len r v'.
Proof.
  induction fuel as [|fuel IH]; intros v pt dst f a len Hus Hdst Hlen Hfuel.
  all: destruct (decide (len = 0)) as [->|Hl0];
    [exists 0, v; split; [apply copyout_loop_0|apply copyout_done]|].
  { pose proof (Z.mod_pos_bound dst 4096). lia. }
  destruct (uwaddr (v_mem v) pt dst) as [p|] eqn:Hp.
  2: { exists (-1), v. split; [apply copyout_refuse; try done; lia|apply copyout_stop; [lia|done]]. }
  apply uwaddr_inv in Hp as (e & He & Hw & ->).
  destruct (copyout_step fuel v pt dst f a len e) as (v1 & W & E); [done|lia|lia|done|done|].
  set (n := Z.min (4096 - dst mod 4096) len) in *.
  pose proof (page_split dst _ eq_refl) as (Hr & Hm & Ho & Hq).
  pose proof (Z.mod_pos_bound dst 4096 ltac:(lia)).
  rewrite E. destruct (wrote_us _ _ _ _ _ _ _ Hus W) as [Hus1 _].
  destruct (decide (n = len)) as [Hn|Hn].
  - rewrite Hn, Z.sub_diag, copyout_loop_0. exists 0, v1. split; [done|].
    eapply (copyout_next v v1 pt dst f a n); try done; lia.
  - replace (PGROUNDDOWN dst + 4096) with (dst + n) by lia.
    pose proof (upte_valid _ _ _ _ He) as [_ Hmax]. rewrite MAXVA_eq in Hmax.
    destruct (IH v1 pt (dst + n) f (a + n) (len - n)) as (r & v' & E' & HR); [done|lia|lia| |].
    { left. replace (dst + n) with (PGROUNDDOWN dst + 1 * 4096) by lia.
      rewrite mod_4096_add by done. lia. }
    exists r, v'. split; [done|]. apply (copyout_next v v1 pt dst f a n); try done; lia.
Qed.

Lemma copy_fuel_enough len dst : 0 <= len -> len + dst mod 4096 <= Z.of_nat (copy_fuel len) * 4096.
Proof.
  intros H. unfold copy_fuel. change PGSIZE with 4096.
  pose proof (Z.mod_pos_bound dst 4096 ltac:(lia)). pose proof (Z.div_mod len 4096 ltac:(lia)).
  pose proof (Z.mod_pos_bound len 4096 ltac:(lia)). pose proof (Z.div_pos len 4096 ltac:(lia) ltac:(lia)). lia.
Qed.

Lemma copyout_ok v pt psz dst f a len :
  us_wf v pt -> 0 <= dst < 2 ^ 64 -> 0 <= len ->
  exists r v', copyout pt psz dst (There f a) len v = Ok r v' /\
    copyout_result v pt dst f a len r v'.
Proof.
  intros Hus Hd Hl. apply copyout_loop_ok; try done. left. by apply copy_fuel_enough.
Qed.

(** * copyin *)

(** [n] bytes of user memory at [srcva] are in the array at [d]. *)
Definition fetched (v : vmst) (pt srcva n : Z) (buf buf' : mem) (d : Z) : Prop :=
  (forall i, 0 <= i < n -> exists p, uaddr (v_mem v) pt (srcva + i) = Some p /\
     load8 buf' (d + i) = load8 (v_mem v) p) /\
  (forall b, ~ (d <= b < d + n) -> load8 buf' b = load8 buf b).

Definition copyin_result (v : vmst) (pt srcva len : Z) (buf : mem) (d r : Z) (buf' : mem) : Prop :=
  exists n, fetched v pt srcva n buf buf' d /\
    (r = 0 /\ n = len \/ r = -1 /\ 0 <= n < len /\ uaddr (v_mem v) pt (srcva + n) = None).

Lemma copyin_loop_S f pagetable buf d srcva len :
  copyin_loop (S f) pagetable buf d srcva len =
  if len <=? 0 then mret (0, buf) else
  let va0 := PGROUNDDOWN srcva in
  (pa0 ← walkaddr pagetable va0;
   if pa0 =? 0 then mret (-1, buf) else
   m ← gets v_mem;
   let n := Z.min (PGSIZE - (srcva - va0)) len in
   let buf := (memmove d (There (load8 m) (pa0 + (srcva - va0))) n buf).2 in
   copyin_loop f pagetable buf (d + n) (u64 (va0 + PGSIZE)) (len - n)).
Proof. done. Qed.

Lemma fetched_0 v pt s buf d : fetched v pt s 0 buf buf d.
Proof. split; [lia|done]. Qed.

Lemma fetched_app v pt s n k buf buf1 buf2 d :
  0 <= n -> 0 <= k -> fetched v pt s n buf buf1 d -> fetched v pt (s + n) k buf1 buf2 (d + n) ->
  fetched v pt s (n + k) buf buf2 d.
Proof.
  intros Hn Hk [D1 S1] [D2 S2]. split.
  - intros i Hi. destruct (decide (i < n)).
    + destruct (D1 i) as (p & Hp & Hl); [lia|]. exists p. split; [done|]. rewrite S2 by lia. done.
    + destruct (D2 (i - n)) as (p & Hp & Hl); [lia|]. exists p.
      replace (s + n + (i - n)) with (s + i) in Hp by lia.
      replace (d + n + (i - n)) with (d + i) in Hl by lia. done.
  - intros b Hb. rewrite S2, S1 by lia. done.
Qed.

Lemma fetched_page v pt s n buf d e :
  upte (v_mem v) pt s = Some e -> 0 <= n -> s mod 4096 + n <= 4096 ->
  fetched v pt s n buf (memmove d (There (load8 (v_mem v)) (PTE2PA e + s mod 4096)) n buf).2 d.
Proof.
  intros He Hn Hle. split.
  - intros i Hi. exists (PTE2PA e + s mod 4096 + i). split.
    + rewrite (uaddr_intro _ _ _ e) by (apply upte_same_page; [lia|lia|done]).
      destruct (in_page_addr s i) as [_ ->]; [lia|lia|]. f_equal. lia.
    + rewrite memmove_load8, decide_True by lia. cbn [src_add src_read]. rewrite u8_load8.
      f_equal. lia.
  - intros b Hb. by rewrite memmove_load8, decide_False by lia.
Qed.

Lemma copyin_loop_0 fuel pt buf d s v : copyin_loop fuel pt buf d s 0 v = Ok (0, buf) v.
Proof. by destruct fuel. Qed.

Lemma copyin_loop_ok fuel : forall v pt buf d s len,
  us_wf v pt -> 0 <= s < 2 ^ 64 -> 0 <= len ->
  len + s mod 4096 <= Z.of_nat fuel * 4096 \/ len = 0 ->
  exists r buf', copyin_loop fuel pt buf d s len v = Ok (r, buf') v /\
    copyin_result v pt s len buf d r buf'.
Proof.
  induction fuel as [|fuel IH]; intros v pt buf d s len Hus Hs Hlen Hfuel.
  all: destruct (decide (len = 0)) as [->|Hl0];
    [exists 0, buf; split; [apply copyin_loop_0|exists 0; split; [apply fetched_0|by left]]|].
  { pose proof (Z.mod_pos_bound s 4096). lia. }
  rewrite copyin_loop_S. destruct (Z.leb_spec len 0); [lia|]. cbv zeta.
  pose proof (page_split s _ eq_refl) as (Hr & Hm & Ho & Hq).
  pose proof (upte_rounddown (v_mem v) pt s ltac:(lia)) as Hrd.
  pose proof (Z.mod_pos_bound s 4096 ltac:(lia)). pose proof (Z.div_pos s 4096 ltac:(lia) ltac:(lia)).
  destruct (upte (v_mem v) pt s) as [e|] eqn:He.
  2: { mrun (walkaddr_none v pt (PGROUNDDOWN s) Hus ltac:(lia) Hrd). exists (-1), buf. split; [done|].
       exists 0. rewrite Z.add_0_r. split; [apply fetched_0|]. right.
       split_and!; try lia. unfold uaddr. by rewrite He. }
  destruct (walkaddr_some v pt _ e Hus Hrd) as (E1 & Hne & _).
  mrun E1. destruct (Z.eqb_spec (PTE2PA e) 0) as [|_]; [done|]. mstep. rewrite Ho. change PGSIZE with 4096.
  set (n := Z.min (4096 - s mod 4096) len).
  pose proof (fetched_page v pt s n buf d e He ltac:(lia) ltac:(lia)) as F1.
  set (buf1 := (memmove _ _ _ _).2) in *.
  pose proof (upte_valid _ _ _ _ He) as [_ Hmax]. rewrite MAXVA_eq in Hmax. rewrite u64_small by lia.
  destruct (decide (n = len)) as [Hn|Hn].
  - rewrite Hn, Z.sub_diag, copyin_loop_0. exists 0, buf1. split; [done|]. exists len.
    rewrite Hn in F1. split; [done|by left].
  - replace (PGROUNDDOWN s + 4096) with (s + n) by lia.
    destruct (IH v pt buf1 (d + n) (s + n) (len - n)) as (r & buf2 & E2 & k & F2 & HR); [done|lia|lia| |].
    { left. replace (s + n) with (PGROUNDDOWN s + 1 * 4096) by lia. rewrite mod_4096_add by done. lia. }
    exists r, buf2. split; [done|]. exists (n + k). split.
    + eapply fetched_app; [lia| |done|done]. destruct HR; lia.
    + destruct HR as [[-> ->]|(-> & Hk & Hx)]; [left; split; [done|lia]|right].
      split; [done|]. split; [lia|]. by rewrite Z.add_assoc.
Qed.

Lemma copyin_ok v pt psz buf d s len :
  us_wf v pt -> 0 <= s < 2 ^ 64 -> 0 <= len ->
  exists r buf', copyin pt psz buf d s len v = Ok (r, buf') v /\
    copyin_result v pt s len buf d r buf'.
Proof.
  intros Hus Hs Hl. apply copyin_loop_ok; try done. left. by apply copy_fuel_enough.
Qed.

(** * copyinstr *)

Definition ubyte (m : mem) (pt va : Z) : option Z := p ← uaddr m pt va; Some (load8 m p).

(** The first [k] bytes at [s] are not NUL and are in the array at [d]. *)
Definition str_prefix (m : mem) (pt s k : Z) (buf' : mem) (d : Z) : Prop :=
  forall i, 0 <= i < k -> exists c, c <> 0 /\ ubyte m pt (s + i) = Some c /\ load8 buf' (d + i) = c.

Definition same_outside (buf buf' : mem) (d n : Z) : Prop :=
  forall b, ~ (d <= b < d + n) -> load8 buf' b = load8 buf b.

(** A string with its NUL among the first [max] bytes is copied, with the NUL;
    otherwise the copy gives up after [max] bytes or at an unmapped one. *)
Definition copyinstr_result (v : vmst) (pt s max : Z) (buf : mem) (d r : Z) (buf' : mem) : Prop :=
  exists k, str_prefix (v_mem v) pt s k buf' d /\
    (r = 0 /\ 0 <= k < max /\ ubyte (v_mem v) pt (s + k) = Some 0 /\ load8 buf' (d + k) = 0 /\
       same_outside buf buf' d (k + 1) \/
     r = -1 /\ same_outside buf buf' d k /\
       (k = max \/ 0 <= k < max /\ ubyte (v_mem v) pt (s + k) = None)).

Lemma copyinstr_page_ok n : forall m p buf d max,
  exists k buf', 0 <= k <= Z.of_nat n /\
    (forall i, 0 <= i < k -> load8 m (p + i) <> 0 /\ load8 buf' (d + i) = load8 m (p + i)) /\
    (k < Z.of_nat n /\ copyinstr_page n m p buf d max = (true, d + k, max - k, buf') /\
       load8 m (p + k) = 0 /\ load8 buf' (d + k) = 0 /\ same_outside buf buf' d (k + 1) \/
     k = Z.of_nat n /\ copyinstr_page n m p buf d max = (false, d + k, max - k, buf') /\
       same_outside buf buf' d k).
Proof.
  induction n as [|n IH]; intros m p buf d max; cbn [copyinstr_page].
  - exists 0, buf. split; [lia|]. split; [lia|]. right. rewrite Z.add_0_r, Z.sub_0_r. done.
  - destruct (Z.eqb_spec (load8 m p) 0) as [Hz|Hz].
    + exists 0, (store8 buf d 0). split; [lia|]. split; [lia|]. left.
      rewrite !Z.add_0_r, Z.sub_0_r. split; [lia|]. split; [done|]. split; [done|].
      rewrite load8_store8, decide_True by done. split; [done|].
      intros b Hb. rewrite load8_store8, decide_False by lia. done.
    + destruct (IH m (p + 1) (store8 buf d (load8 m p)) (d + 1) (max - 1))
        as (k & buf' & Hk & Hpre & HR).
      assert (same_outside (store8 buf d (load8 m p)) buf' (d + 1) (k + 1)) as Hso.
      { destruct HR as [(_ & _ & _ & _ & H)|(_ & _ & H)]; [done|]. intros b Hb. apply H. lia. }
      exists (k + 1), buf'. split; [lia|]. split.
      * intros i Hi. destruct (decide (i = 0)) as [->|].
        -- rewrite !Z.add_0_r. split; [done|]. rewrite Hso by lia.
           rewrite load8_store8, decide_True by done. apply u8_load8.
        -- destruct (Hpre (i - 1)) as [H1 H2]; [lia|].
           replace (p + 1 + (i - 1)) with (p + i) in * by lia.
           by replace (d + 1 + (i - 1)) with (d + i) in * by lia.
      * replace (d + (k + 1)) with (d + 1 + k) by lia. replace (p + (k + 1)) with (p + 1 + k) by lia.
        replace (max - (k + 1)) with (max - 1 - k) by lia.
        destruct HR as [(Hl & -> & H0 & H1 & H)|(-> & -> & H)]; [left|right]; split_and!; try done; try lia.
        all: intros b Hb; rewrite H by lia; rewrite load8_store8, decide_False by lia; done.
Qed.

Lemma copyinstr_loop_S f pagetable buf d srcva max :
  copyinstr_loop (S f) pagetable buf d srcva max =
  if max <=? 0 then mret (-1, buf) else
  let va0 := PGROUNDDOWN srcva in
  (pa0 ← walkaddr pagetable va0;
   if pa0 =? 0 then mret (-1, buf) else
   m ← gets v_mem;
   let n := Z.min (PGSIZE - (srcva - va0)) max in
   let '(got_null, d, max, buf) :=
     copyinstr_page (Z.to_nat n) m (pa0 + (srcva - va0)) buf d max in
   if (got_null : bool) then mret (0, buf) else
   copyinstr_loop f pagetable buf d (u64 (va0 + PGSIZE)) max).
Proof. done. Qed.

Lemma copyinstr_loop_0 fuel pt buf d s v : copyinstr_loop fuel pt buf d s 0 v = Ok (-1, buf) v.
Proof. by destruct fuel. Qed.

Lemma ubyte_page m pt s i e : upte m pt s = Some e -> 0 <= i -> s mod 4096 + i < 4096 ->
  ubyte m pt (s + i) = Some (load8 m (PTE2PA e + s mod 4096 + i)).
Proof.
  intros He Hi Hl. unfold ubyte. rewrite (uaddr_intro _ _ _ e) by (by apply upte_same_page).
  destruct (in_page_addr s i) as [_ ->]; [done|done|]. by rewrite Z.add_assoc.
Qed.

Lemma str_prefix_app m pt s n k buf1 buf2 d :
  0 <= n -> 0 <= k -> str_prefix m pt s n buf1 d -> str_prefix m pt (s + n) k buf2 (d + n) ->
  (forall b, d <= b < d + n -> load8 buf2 b = load8 buf1 b) ->
  str_prefix m pt s (n + k) buf2 d.
Proof.
  intros Hn Hk P1 P2 H i Hi. destruct (decide (i < n)).
  - destruct (P1 i) as (c & Hc & Hb & Hl); [lia|]. exists c. rewrite H by lia. done.
  - destruct (P2 (i - n)) as (c & Hc & Hb & Hl); [lia|]. exists c.
    replace (s + n + (i - n)) with (s + i) in Hb by lia.
    by replace (d + n + (i - n)) with (d + i) in Hl by lia.
Qed.

(** A page without NUL, then the rest. *)
Lemma copyinstr_next v pt s n max buf buf1 d r buf' :
  0 <= n <= max -> str_prefix (v_mem v) pt s n buf1 d -> same_outside buf buf1 d n ->
  copyinstr_result v pt (s + n) (max - n) buf1 (d + n) r buf' ->
  copyinstr_result v pt s max buf d r buf'.
Proof.
  intros Hn P1 S1 (k & P2 & HR).
  assert (0 <= k) as Hk by (destruct HR as [(_ & ? & _)|(_ & _ & [->|?])]; lia).
  exists (n + k). rewrite !Z.add_assoc. split.
  - eapply str_prefix_app; try done; [lia|]. intros b Hb.
    destruct HR as [(_ & _ & _ & _ & H)|(_ & H & _)]; apply H; lia.
  - destruct HR as [(-> & Hk' & H0 & H1 & H)|(-> & H & HR)]; [left|right].
    + split_and!; try done; try lia. intros b Hb. rewrite H by lia. apply S1. lia.
    + split; [done|]. split; [intros b Hb; rewrite H by lia; apply S1; lia|].
      destruct HR as [->|[? ?]]; [left; lia|right; split; [lia|done]].
Qed.

Lemma copyinstr_loop_ok fuel : forall v pt buf d s max,
  us_wf v pt -> 0 <= s < 2 ^ 64 -> 0 <= max ->
  max + s mod 4096 <= Z.of_nat fuel * 4096 \/ max = 0 ->
  exists r buf', copyinstr_loop fuel pt buf d s max v = Ok (r, buf') v /\
    copyinstr_result v pt s max buf d r buf'.
Proof.
  induction fuel as [|fuel IH]; intros v pt buf d s max Hus Hs Hlen Hfuel.
  all: destruct (decide (max = 0)) as [->|Hl0];
    [exists (-1), buf; split; [apply copyinstr_loop_0|exists 0; split; [intros i Hi; lia|right];
       split_and!; done || by left]|].
  { pose proof (Z.mod_pos_bound s 4096). lia. }
  rewrite copyinstr_loop_S. destruct (Z.leb_spec max 0); [lia|]. cbv zeta.
  pose proof (page_split s _ eq_refl) as (Hr & Hm & Ho & Hq).
  pose proof (upte_rounddown (v_mem v) pt s ltac:(lia)) as Hrd.
  pose proof (Z.mod_pos_bound s 4096 ltac:(lia)). pose proof (Z.div_pos s 4096 ltac:(lia) ltac:(lia)).
  destruct (upte (v_mem v) pt s) as [e|] eqn:He.
  2: { mrun (walkaddr_none v pt (PGROUNDDOWN s) Hus ltac:(lia) Hrd). exists (-1), buf. split; [done|].
       exists 0. split; [intros i Hi; lia|]. right. split_and!; try done. right.
       rewrite Z.add_0_r. split; [lia|]. unfold ubyte, uaddr. by rewrite He. }
  destruct (walkaddr_some v pt _ e Hus Hrd) as (E1 & Hne & _).
  mrun E1. destruct (Z.eqb_spec (PTE2PA e) 0) as [|_]; [done|]. mstep. rewrite Ho. change PGSIZE with 4096.
  set (n := Z.min (4096 - s mod 4096) max).
  destruct (copyinstr_page_ok (Z.to_nat n) (v_mem v) (PTE2PA e + s mod 4096) buf d max)
    as (k & buf1 & Hk & Hpre & HR). rewrite Z2Nat.id in Hk, HR by lia.
  assert (str_prefix (v_mem v) pt s k buf1 d) as HP.
  { intros i Hi. destruct (Hpre i Hi) as [G1 G2]. eexists. split; [exact G1|].
    split; [apply ubyte_page; [done|lia|lia]|done]. }
  destruct HR as [(Hlt & -> & G0 & G1 & Hso)|(-> & -> & Hso)]; cbv iota.
  { exists 0, buf1. split; [done|]. exists k. split; [done|]. left. split_and!; try done; try lia.
    rewrite (ubyte_page _ _ _ _ e) by (done || lia). by rewrite G0. }
  pose proof (upte_valid _ _ _ _ He) as [_ Hmax]. rewrite MAXVA_eq in Hmax. rewrite u64_small by lia.
  destruct (decide (n = max)) as [Hn|Hn].
  - rewrite Hn, Z.sub_diag, copyinstr_loop_0. rewrite Hn in HP, Hso.
    exists (-1), buf1. split; [done|]. exists max. split; [done|]. right. split_and!; try done. by left.
  - replace (PGROUNDDOWN s + 4096) with (s + n) by lia.
    destruct (IH v pt buf1 (d + n) (s + n) (max - n)) as (r & buf2 & E2 & HR); [done|lia|lia| |].
    { left. replace (s + n) with (PGROUNDDOWN s + 1 * 4096) by lia. rewrite mod_4096_add by done. lia. }
    exists r, buf2. split; [done|]. eapply copyinstr_next; [|done|done|done]. lia.
Qed.

Lemma copyinstr_ok v pt psz buf d s max :
  us_wf v pt -> 0 <= s < 2 ^ 64 -> 0 <= max ->
  exists r buf', copyinstr pt psz buf d s max v = Ok (r, buf') v /\
    copyinstr_result v pt s max buf d r buf'.
Proof.
  intros Hus Hs Hl. apply copyinstr_loop_ok; try done. left. by apply copy_fuel_enough.
Qed.

(** The address space of [space_vm] is one. *)
Lemma space_us : us_wf space_vm space_pt.
Proof.
  destruct space_facts as (X & N & q & Hq & Hok & Hqf & Hoff).
  assert (forall va e, upte (v_mem space_vm) space_pt va = Some e -> 0 <= va < 4096 /\ PTE2PA e = q)
    as Hpa.
  { intros va e He. unfold upte in He. case_decide as Hva; [|done]. rewrite N in He by done.
    case_decide; [|by rewrite lookup_empty_pt in He]. split; [done|]. rewrite Hq in He.
    change (Some ?x ≫= ?f) with (f x) in He. cbv beta in He. destruct (has _ _) in He; [|done].
    injection He as <-. apply PTE2PA_mk; [|apply Hok|vm_compute; split; congruence].
    pose proof (page_ok_range _ _ (proj2 (proj2 (ext_vm _ _ _ X))) Hok). lia. }
  split.
  - exact (ext_vm _ _ _ X).
  - exact (ext_wf _ _ _ X).
  - intros va e [_ ->]%Hpa. done.
  - intros va e b [_ ->]%Hpa Hb. by apply Hoff.
  - intros va va' e e' [Hv _]%Hpa [Hv' _]%Hpa _. by rewrite !Z.div_small.
Qed.

Lemma space_uwaddr va : 0 <= va < 4096 -> uwaddr (v_mem space_vm) space_pt va <> None.
Proof.
  intros Hva. destruct space_facts as (X & N & q & Hq & Hok & _).
  pose proof (page_ok_range _ _ (proj2 (proj2 (ext_vm _ _ _ X))) Hok) as Hr.
  assert (valid_va va) as Hv by (split; [lia|]; rewrite MAXVA_eq; lia).
  assert (0 <= space_flags < 1024) as Hf by (vm_compute; split; congruence).
  rewrite (uwaddr_intro _ _ _ (mk_pte q space_flags)); [done| |].
  - unfold upte. rewrite decide_True by done. rewrite N, decide_True, Hq by done.
    change (Some ?x ≫= ?f) with (f x). cbv beta. unfold PTE_U. rewrite has_mk by lia. reflexivity.
  - unfold PTE_W. rewrite has_mk by lia. reflexivity.
Qed.

(** * Theorems *)

(** [copyout] is exact: it stores the bytes of a kernel object at the
    user addresses [dst, dst + len) and nowhere else and returns 0; if one of
    these addresses is not a valid, user-accessible and writable page (or is
    beyond MAXVA) it returns -1 having stored exactly the bytes before the
    first such address.  The page table and the translations do not change. *)
Theorem copyout_correct v pt psz dst f a len :
  us_wf v pt -> 0 <= dst < 2 ^ 64 -> 0 <= len ->
  exists r n v', copyout pt psz dst (There f a) len v = Ok r v' /\ us_wf v' pt /\
    (forall va, uaddr (v_mem v') pt va = uaddr (v_mem v) pt va) /\
    (r = 0 /\ n = len \/ r = -1 /\ 0 <= n < len /\ uwaddr (v_mem v) pt (dst + n) = None) /\
    (forall i, 0 <= i < n -> ubyte (v_mem v') pt (dst + i) = Some (u8 (f (a + i)))) /\
    (forall b, (forall i, 0 <= i < n -> uwaddr (v_mem v) pt (dst + i) <> Some b) ->
       load8 (v_mem v') b = load8 (v_mem v) b).
Proof.
  intros Hus Hd Hl. destruct (copyout_ok v pt psz dst f a len Hus Hd Hl) as (r & v' & E & n & W & HR).
  destruct (wrote_us _ _ _ _ _ _ _ Hus W) as [Hus' HU].
  assert (forall va, uaddr (v_mem v') pt va = uaddr (v_mem v) pt va) as HA
    by (intros va; unfold uaddr; by rewrite HU).
  destruct W as (_ & D & S). exists r, n, v'. split_and!; try done.
  intros i Hi. destruct (D i Hi) as (p & Hp & Hb). unfold ubyte. rewrite HA.
  apply uwaddr_uaddr in Hp. rewrite Hp. change (Some ?x ≫= ?f) with (f x). cbv beta. by rewrite Hb.
Qed.

Lemma copyout_correct_witness :
  exists r n v', copyout space_pt 4096 4090 (There id 65) 10 space_vm = Ok r v' /\ us_wf v' space_pt /\
    (forall va, uaddr (v_mem v') space_pt va = uaddr (v_mem space_vm) space_pt va) /\
    (r = 0 /\ n = 10 \/
     r = -1 /\ 0 <= n < 10 /\ uwaddr (v_mem space_vm) space_pt (4090 + n) = None) /\
    (forall i, 0 <= i < n -> ubyte (v_mem v') space_pt (4090 + i) = Some (u8 (id (65 + i)))) /\
    (forall b, (forall i, 0 <= i < n -> uwaddr (v_mem space_vm) space_pt (4090 + i) <> Some b) ->
       load8 (v_mem v') b = load8 (v_mem space_vm) b).
Proof. apply copyout_correct; [exact space_us|lia|lia]. Defined.

(** C34: what [copyout] stores, [copyin] fetches: after a successful [copyout]
    of [len] bytes, [copyin] from the same user address into an array
    succeeds and yields these bytes, changes nothing else of the array and
    nothing of memory. *)
Theorem copyin_copyout_roundtrip v pt psz dst f a len v' buf d :
  us_wf v pt -> 0 <= dst < 2 ^ 64 -> 0 <= len ->
  copyout pt psz dst (There f a) len v = Ok 0 v' ->
  exists buf', copyin pt psz buf d dst len v' = Ok (0, buf') v' /\
    (forall i, 0 <= i < len -> load8 buf' (d + i) = u8 (f (a + i))) /\
    (forall b, ~ (d <= b < d + len) -> load8 buf' b = load8 buf b).
Proof.
  intros Hus Hd Hl E. destruct (copyout_ok v pt psz dst f a len Hus Hd Hl) as (r & v1 & E1 & n & W & HR).
  rewrite E in E1. injection E1 as <- <-. destruct HR as [[_ ->]|[? _]]; [|done].
  destruct (wrote_us _ _ _ _ _ _ _ Hus W) as [Hus' HU].
  assert (forall va, uaddr (v_mem v') pt va = uaddr (v_mem v) pt va) as HA
    by (intros va; unfold uaddr; by rewrite HU).
  destruct W as (_ & D & _).
  destruct (copyin_ok v' pt psz buf d dst len Hus' Hd Hl) as (r & buf' & E2 & n & [F S] & HR).
  destruct HR as [[-> ->]|(_ & Hn & Hx)].
  - exists buf'. split; [done|]. split; [|done]. intros i Hi.
    destruct (F i Hi) as (p & Hp & ->). destruct (D i Hi) as (p' & Hp' & Hb).
    rewrite HA, (uwaddr_uaddr _ _ _ _ Hp') in Hp. by injection Hp as <-.
  - destruct (D n Hn) as (p & Hp & _). rewrite HA, (uwaddr_uaddr _ _ _ _ Hp) in Hx. done.
Qed.

(** The result of a copy to a mapped page. *)
Lemma space_copyout : exists v', copyout space_pt 4096 7 (There id 65) 3 space_vm = Ok 0 v'.
Proof.
  destruct (copyout_ok space_vm space_pt 4096 7 id 65 3 space_us) as (r & v' & E & n & W & HR); [lia|lia|].
  destruct HR as [[-> _]|(_ & Hn & Hx)]; [by exists v'|].
  exfalso. apply (space_uwaddr (7 + n)); [lia|done].
Qed.

Lemma copyin_copyout_roundtrip_witness :
  exists v' buf', copyout space_pt 4096 7 (There id 65) 3 space_vm = Ok 0 v' /\
    copyin space_pt 4096 ∅ 0 7 3 v' = Ok (0, buf') v' /\
    (forall i, 0 <= i < 3 -> load8 buf' (0 + i) = u8 (id (65 + i))).
Proof.
  destruct space_copyout as [v' E].
  destruct (copyin_copyout_roundtrip space_vm space_pt 4096 7 id 65 3 v' ∅ 0 space_us
              ltac:(lia) ltac:(lia) E) as (buf' & E' & D & _).
  exists v', buf'. split; [exact E|]. split; [exact E'|exact D].
Defined.

(** C35: [copyinstr] copies a user string: it returns 0 exactly when the first
    NUL is among the first [max] bytes and every byte up to it is mapped user
    memory, and then the array holds the string and its NUL and is otherwise
    unchanged; it returns -1 after [max] bytes without NUL or at the first
    unmapped byte, and never writes more than [max] bytes. *)
Theorem copyinstr_correct v pt psz buf d s max :
  us_wf v pt -> 0 <= s < 2 ^ 64 -> 0 <= max ->
  exists r buf', copyinstr pt psz buf d s max v = Ok (r, buf') v /\
    copyinstr_result v pt s max buf d r buf' /\
    (r = 0 <-> exists k, 0 <= k < max /\ ubyte (v_mem v) pt (s + k) = Some 0 /\
       (forall i, 0 <= i < k -> ubyte (v_mem v) pt (s + i) <> None)) /\
    same_outside buf buf' d max.
Proof.
  intros Hus Hs Hl. destruct (copyinstr_ok v pt psz buf d s max Hus Hs Hl) as (r & buf' & E & HR).
  exists r, buf'. split; [done|]. split; [done|]. destruct HR as (k & HP & HR). split.
  - destruct HR as [(-> & Hk & H0 & _)|(-> & _ & Hk)]; (split; [try done|try done]).
    + intros _. exists k. split_and!; try done; try lia. intros i Hi.
      destruct (HP i Hi) as (c & _ & -> & _). done.
    + intros (j & Hj & H0 & Hall). exfalso.
      assert (k <= j) as Hkj.
      { destruct (decide (j < k)) as [Hjk|]; [|lia]. destruct (HP j) as (c & Hc & Hb & _); [lia|].
        rewrite H0 in Hb. congruence. }
      destruct Hk as [->|[Hk Hx]]; [lia|].
      destruct (decide (k = j)) as [->|]; [by rewrite H0 in Hx|]. by apply (Hall k); [lia|].
  - intros b Hb. destruct HR as [(_ & Hk & _ & _ & H)|(_ & H & Hk)]; apply H; lia.
Qed.

Lemma copyinstr_correct_witness :
  exists r buf', copyinstr space_pt 4096 ∅ 0 5 16 space_vm = Ok (r, buf') space_vm /\
    copyinstr_result space_vm space_pt 5 16 ∅ 0 r buf' /\
    (r = 0 <-> exists k, 0 <= k < 16 /\ ubyte (v_mem space_vm) space_pt (5 + k) = Some 0 /\
       (forall i, 0 <= i < k -> ubyte (v_mem space_vm) space_pt (5 + i) <> None)) /\
    same_outside ∅ buf' 0 16.
Proof. apply copyinstr_correct; [exact space_us|lia|lia]. Defined.
