(* ===== verification/Printf.v ===== *)
(** kernel/printf.c: the formatter and its two clients, [snprintf] and (in the
    console component) [printf].

    [vprintfmt] hands each character to a callback; here the callback is a
    computation over the state of the client, so the same definition is run
    with the string buffer of [snprintf] and with the UART.  A format string
    is the list of its bytes before the NUL.  A variadic argument is a value
    of the type it is passed with: fetching it with a type of another class
    is undefined in C and is the [Panic] of [va_undef]. *)

From stdpp Require Import base gmap list strings numbers.
From Stdlib Require Import ZArith Lia Ascii.
From S2P Require Import Prelude Mem Vm.

(** * Strings and arguments *)

Definition byte_of (a : ascii) : Z := Z.of_N (N_of_ascii a).

Fixpoint bytes (s : string) : list Z :=
  match s with
  | EmptyString => []
  | String a s' => byte_of a :: bytes s'
  end.

(** [int] and [unsigned] are 32-bit arguments, [long] and pointers 64-bit. *)
Inductive varg : Type :=
  | A32 (x : Z)
  | A64 (x : Z)
  | AStr (s : option (list Z)).

Definition va_undef : string := "va_arg: undefined".

Definition digits : list Z := bytes "0123456789abcdef".

Section Formatter.
Context {S : Type} (emit : Z -> M S unit).

(** * printint *)

(** [buf[i++] = c] on the 24-byte array of [printint]. *)
Definition buf_push (buf : list Z) (c : Z) : M S (list Z) :=
  if (24 <=? length buf)%nat then panic "printint: buf" else mret (buf ++ [c]).

(** The [do .. while] loop; 64 rounds are enough for any 64-bit [x]. *)
Fixpoint digit_loop (fuel : nat) (x base : Z) (buf : list Z) : M S (list Z) :=
  match fuel with
  | O => out_of_fuel
  | Datatypes.S f =>
      buf ← buf_push buf (digits !!! Z.to_nat (x mod base));
      let x := x / base in
      if x =? 0 then mret buf else digit_loop f x base buf
  end.

Definition printint (xx base : Z) (sign : bool) : M S unit :=
  let neg := sign && (xx <? 0) in
  let x := if neg then u64 (- xx) else u64 xx in
  buf ← digit_loop 64 x base [];
  buf ← (if neg then buf_push buf 45 else mret buf);
  for_each (rev buf) emit.

(** * printptr *)

Fixpoint printptr_loop (n : nat) (x : Z) : M S unit :=
  match n with
  | O => mret tt
  | Datatypes.S n' => emit (digits !!! Z.to_nat (Z.shiftr x 60));; printptr_loop n' (u64 (Z.shiftl x 4))
  end.

Definition printptr (x : Z) : M S unit :=
  emit 48;; emit 120;; printptr_loop 16 x.

(** * vprintfmt *)

(** [va_arg(ap, int)] and its variants. *)
Definition va_arg32 (conv : Z -> Z) (ap : list varg) : M S (Z * list varg) :=
  match ap with
  | A32 x :: ap' => mret (conv x, ap')
  | _ => panic va_undef
  end.

Definition va_arg64 (conv : Z -> Z) (ap : list varg) : M S (Z * list varg) :=
  match ap with
  | A64 x :: ap' => mret (conv x, ap')
  | _ => panic va_undef
  end.

Definition va_argstr (ap : list varg) : M S (option (list Z) * list varg) :=
  match ap with
  | AStr s :: ap' => mret (s, ap')
  | _ => panic va_undef
  end.

(** [fmt] is the rest of the format string at the loop head. *)
Fixpoint vprintfmt (fmt : list Z) (ap : list varg) : M S unit :=
  match fmt with
  | [] => mret tt
  | c :: fmt =>
      if negb (c =? 37) then emit c;; vprintfmt fmt ap else
      match fmt with
      | [] => mret tt
      | c :: fmt =>
          if c =? 100 then
            '(x, ap) ← va_arg32 s32 ap; printint x 10 true;; vprintfmt fmt ap
          else if c =? 108 then
            match fmt with
            | d :: fmt' =>
                if d =? 100 then
                  '(x, ap) ← va_arg64 s64 ap; printint x 10 true;; vprintfmt fmt' ap
                else if d =? 117 then
                  '(x, ap) ← va_arg64 u64 ap; printint (s64 x) 10 false;; vprintfmt fmt' ap
                else if d =? 120 then
                  '(x, ap) ← va_arg64 u64 ap; printint (s64 x) 16 false;; vprintfmt fmt' ap
                else emit 108;; vprintfmt fmt ap
            | [] => emit 108;; vprintfmt fmt ap
            end
          else if c =? 117 then
            '(x, ap) ← va_arg32 u32 ap; printint x 10 false;; vprintfmt fmt ap
          else if c =? 120 then
            '(x, ap) ← va_arg32 u32 ap; printint x 16 false;; vprintfmt fmt ap
          else if c =? 112 then
            '(x, ap) ← va_arg64 u64 ap; printptr x;; vprintfmt fmt ap
          else if c =? 99 then
            '(x, ap) ← va_arg32 u8 ap; emit x;; vprintfmt fmt ap
          else if c =? 115 then
            '(s, ap) ← va_argstr ap;
            for_each (default (bytes "(null)") s) emit;; vprintfmt fmt ap
          else if c =? 37 then
            emit 37;; vprintfmt fmt ap
          else
            emit 37;; emit c;; vprintfmt fmt ap
      end
  end.
End Formatter.

(** * snprintf *)

(** [struct sbuf]: the array, its size and the number of characters so far. *)
Record sbuf : Type := mkSbuf { sb_buf : mem; sb_n : Z; sb_len : Z }.

Definition sbuf_emit (c : Z) : M sbuf unit :=
  modify (fun b =>
    mkSbuf (if sb_len b + 1 <? sb_n b then store8 (sb_buf b) (sb_len b) c else sb_buf b)
           (sb_n b) (sb_len b + 1)).

(** The array [buf] is the state; the result is the length of the text. *)
Definition snprintf (n : Z) (fmt : list Z) (ap : list varg) : M mem Z := fun buf =>
  match vprintfmt sbuf_emit fmt ap (mkSbuf buf n 0) with
  | Ok _ b =>
      Ok (sb_len b)
         (if 0 <? n then store8 (sb_buf b) (if sb_len b <? n then sb_len b else n - 1) 0
          else sb_buf b)
  | Panic e b => Panic e (sb_buf b)
  | Diverge b => Diverge (sb_buf b)
  end.

(** * Numbers *)

Definition digit (d : Z) : Z := digits !!! Z.to_nat d.

(** The digits of [x], least significant first. *)
Fixpoint ldigits (fuel : nat) (x base : Z) : list Z :=
  match fuel with
  | O => []
  | S f => x mod base :: if x / base =? 0 then [] else ldigits f (x / base) base
  end.

(** The value of digits, most significant first. *)
Definition value (base : Z) (ds : list Z) : Z := foldl (fun a d => a * base + d) 0 ds.

Lemma value_snoc base ds d : value base (ds ++ [d]) = value base ds * base + d.
Proof. unfold value. by rewrite foldl_app. Qed.

Lemma ldigits_spec fuel : forall x base,
  2 <= base -> 0 <= x < base ^ Z.of_nat fuel ->
  value base (rev (ldigits fuel x base)) = x /\
  Forall (fun d => 0 <= d < base) (ldigits fuel x base) /\
  (x <> 0 -> exists d, head (rev (ldigits fuel x base)) = Some d /\ d <> 0).
Proof.
  induction fuel as [|f IH]; intros x base Hb Hx; cbn [ldigits].
  { change (base ^ Z.of_nat 0) with 1 in Hx. assert (x = 0) as -> by lia. done. }
  rewrite Nat2Z.inj_succ, Z.pow_succ_r in Hx by lia.
  pose proof (Z.mod_pos_bound x base ltac:(lia)) as Hm.
  pose proof (Z.div_mod x base ltac:(lia)) as Hd.
  destruct (Z.eqb_spec (x / base) 0) as [E|E].
  - rewrite E in Hd. split_and!.
    + unfold value. cbn. lia.
    + by constructor.
    + intros Hx0. exists (x mod base). split; [done|]. lia.
  - destruct (IH (x / base) base) as (V & F & L); [lia| |].
    { split; [apply Z.div_pos; lia|]. apply Z.div_lt_upper_bound; lia. }
    split_and!.
    + cbn [rev]. rewrite value_snoc, V. lia.
    + by constructor.
    + intros _. destruct (L E) as (d & Hl & Hd0). exists d. split; [|done].
      cbn [rev]. destruct (rev (ldigits f (x / base) base)); [done|]. exact Hl.
Qed.

Lemma ldigits_length fuel : forall n x base,
  2 <= base -> (1 <= n)%nat -> 0 <= x < base ^ Z.of_nat n -> (length (ldigits fuel x base) <= n)%nat.
Proof.
  induction fuel as [|f IH]; intros n x base Hb Hn Hx; cbn [ldigits length]; [lia|].
  destruct (Z.eqb_spec (x / base) 0) as [E|E]; cbn [length]; [lia|].
  destruct n as [|n]; [lia|]. rewrite Nat2Z.inj_succ, Z.pow_succ_r in Hx by lia.
  assert (x / base < base ^ Z.of_nat n) by (apply Z.div_lt_upper_bound; lia).
  assert (0 <= x / base) by (apply Z.div_pos; lia).
  destruct n as [|n]; [change (base ^ Z.of_nat 0) with 1 in *; lia|].
  apply le_n_S, IH; lia.
Qed.

Section FormatterCorrect.
Context {S : Type} (emit : Z -> M S unit).

Lemma digit_loop_ok fuel : forall x base buf (s : S),
  2 <= base -> 0 <= x < base ^ Z.of_nat fuel -> (0 < fuel)%nat ->
  (length buf + length (ldigits fuel x base) <= 24)%nat ->
  digit_loop fuel x base buf s = Ok (buf ++ (digit <$> ldigits fuel x base)) s.
Proof.
  induction fuel as [|f IH]; intros x base buf s Hb Hx Hf Hl; [lia|].
  cbn [digit_loop ldigits length] in *. unfold buf_push.
  destruct (Nat.leb_spec 24 (length buf)) as [Hge|Hlt]; [lia|]. mstep.
  rewrite Nat2Z.inj_succ, Z.pow_succ_r in Hx by lia.
  destruct (Z.eqb_spec (x / base) 0) as [E|E]; [done|].
  assert (0 <= x / base < base ^ Z.of_nat f) as Hq.
  { split; [apply Z.div_pos; lia|]. apply Z.div_lt_upper_bound; lia. }
  rewrite IH; [by rewrite <- app_assoc|done|done| |rewrite length_app; simpl; lia].
  destruct f; [change (base ^ Z.of_nat 0) with 1 in *; lia|lia].
Qed.

(** The text of a number. *)
Definition num_text (neg : bool) (x base : Z) : list Z :=
  (if neg then [45] else []) ++ (digit <$> rev (ldigits 64 x base)).

Lemma ldigits_64 x base : 10 <= base -> 0 <= x < 2 ^ 64 ->
  x < base ^ 64 /\ (length (ldigits 64 x base) <= 20)%nat.
Proof.
  intros Hb Hx. assert (10 ^ 20 <= base ^ 20) by (apply Z.pow_le_mono_l; lia).
  assert (base ^ 20 <= base ^ 64) by (apply Z.pow_le_mono_r; lia).
  assert (2 ^ 64 < 10 ^ 20) by done. split; [lia|].
  apply (ldigits_length 64 20); lia.
Qed.

Lemma printint_text xx base sign (s : S) :
  10 <= base ->
  let neg := sign && (xx <? 0) in
  printint emit xx base sign s =
  for_each (num_text neg (u64 (if neg then - xx else xx)) base) emit s.
Proof.
  intros Hb neg. unfold printint. fold neg.
  replace (if neg then u64 (- xx) else u64 xx) with (u64 (if neg then - xx else xx))
    by (by destruct neg).
  set (x := u64 _). pose proof (u64_range (if neg then - xx else xx)) as Hx. fold x in Hx.
  destruct (ldigits_64 x base Hb Hx) as [Hlt Hlen].
  assert (digit_loop 64 x base [] s = Ok (digit <$> ldigits 64 x base) s) as E.
  { rewrite digit_loop_ok; [done|lia| |lia|exact (Nat.le_trans _ 20 24 Hlen ltac:(lia))].
    split; [apply Hx|exact Hlt]. }
  mrun E. clear E.
  unfold num_text. set (l := ldigits 64 x base) in *. clearbody l. destruct neg; cbn [app].
  - unfold buf_push. rewrite length_fmap.
    destruct (Nat.leb_spec 24 (length l)); [lia|]. mstep.
    by rewrite rev_app_distr, <- map_rev.
  - mstep. by rewrite <- map_rev.
Qed.
End FormatterCorrect.

(** * The text of a format

    What the documentation at the top of printf.c promises: [%d], [%ld] signed
    decimal, [%u], [%lu] unsigned decimal, [%x], [%lx] hexadecimal, [%p] 0x and
    16 hexadecimal digits, [%c], [%s] and [%%]; [None] when the arguments do
    not fit the directives. *)

Definition int_text (x : Z) : list Z := num_text (x <? 0) (Z.abs x) 10.

Definition ptr_text (x : Z) : list Z :=
  [48; 120] ++ ((fun i => digit (x / 16 ^ (15 - i) mod 16)) <$> zseq 0 16).

Definition arg32 (k : Z -> list Z) (ap : list varg) : option (list Z * list varg) :=
  match ap with A32 x :: ap => Some (k x, ap) | _ => None end.
Definition arg64 (k : Z -> list Z) (ap : list varg) : option (list Z * list varg) :=
  match ap with A64 x :: ap => Some (k x, ap) | _ => None end.
Definition argstr_text (ap : list varg) : option (list Z * list varg) :=
  match ap with AStr s :: ap => Some (default (bytes "(null)") s, ap) | _ => None end.

(** The directive after a percent sign: its text, the rest of the format and
    of the arguments. *)
Definition directive (fmt : list Z) (ap : list varg) : option (list Z * list Z * list varg) :=
  match fmt with
  | [] => Some ([], [], ap)
  | c :: fmt =>
      let lit t := Some (t, fmt, ap) in
      let with_arg r := '(t, ap) ← r; Some (t, fmt, ap) in
      if c =? 100 then with_arg (arg32 (fun x => int_text (s32 x)) ap)
      else if c =? 108 then
        match fmt with
        | d :: fmt' =>
            let with_arg r := '(t, ap) ← r; Some (t, fmt', ap) in
            if d =? 100 then with_arg (arg64 (fun x => int_text (s64 x)) ap)
            else if d =? 117 then with_arg (arg64 (fun x => num_text false (u64 x) 10) ap)
            else if d =? 120 then with_arg (arg64 (fun x => num_text false (u64 x) 16) ap)
            else lit [108]
        | [] => lit [108]
        end
      else if c =? 117 then with_arg (arg32 (fun x => num_text false (u32 x) 10) ap)
      else if c =? 120 then with_arg (arg32 (fun x => num_text false (u32 x) 16) ap)
      else if c =? 112 then with_arg (arg64 (fun x => ptr_text (u64 x)) ap)
      else if c =? 99 then with_arg (arg32 (fun x => [u8 x]) ap)
      else if c =? 115 then with_arg (argstr_text ap)
      else if c =? 37 then lit [37]
      else lit [37; c]
  end.

Fixpoint fmt_text (fuel : nat) (fmt : list Z) (ap : list varg) : option (list Z) :=
  match fuel, fmt with
  | _, [] => Some []
  | O, _ => None
  | S f, c :: fmt =>
      if negb (c =? 37) then t ← fmt_text f fmt ap; Some (c :: t) else
      '(t, fmt, ap) ← directive fmt ap; t' ← fmt_text f fmt ap; Some (t ++ t')
  end.

(** The text of [fmt] with arguments [ap]. *)
Definition text (fmt : list Z) (ap : list varg) : option (list Z) := fmt_text (length fmt) fmt ap.

Lemma s64_u64 x : u64 (s64 (u64 x)) = u64 x.
Proof.
  unfold s64. pose proof (u64_range x) as H. rewrite (u64_small (u64 x)) by done. cbv zeta.
  destruct (Z.ltb_spec (u64 x) (2 ^ 63)); [by apply u64_small|].
  unfold u64 at 1. replace (u64 x - 2 ^ 64) with (u64 x + -1 * 2 ^ 64) by lia.
  rewrite Z_mod_plus_full. by apply u64_small.
Qed.

Lemma s64_range x : - 2 ^ 63 <= s64 x < 2 ^ 63.
Proof.
  unfold s64. pose proof (u64_range x). cbv zeta. destruct (Z.ltb_spec (u64 x) (2 ^ 63)); lia.
Qed.

Lemma for_each_app {S A} (l l' : list A) (f : A -> M S unit) s :
  for_each (l ++ l') f s = (for_each l f;; for_each l' f) s.
Proof.
  revert s. induction l as [|a l IH]; intros s; [done|]. cbn [app for_each].
  rewrite bind_assoc. unfold mbind, M_bind. destruct (f a s); [apply IH|done|done].
Qed.

Section TextCorrect.
Context {S : Type} (emit : Z -> M S unit).

Lemma printptr_digit x i : 0 <= x -> 0 <= i <= 15 ->
  Z.shiftr (u64 (x * 16 ^ i)) 60 = x / 16 ^ (15 - i) mod 16.
Proof.
  intros Hx Hi. unfold u64. rewrite Z.shiftr_div_pow2 by lia.
  replace (2 ^ 64) with (16 * 2 ^ 60) by done.
  rewrite (Z.mul_comm 16), Z.rem_mul_r, (Z.mul_comm (2 ^ 60)), Z.div_add by lia.
  rewrite Z.div_small by (apply Z.mod_pos_bound; lia). rewrite Z.add_0_l. f_equal.
  replace (2 ^ 60) with (16 ^ (15 - i) * 16 ^ i).
  - rewrite Z.div_mul_cancel_r; [done| |]; apply Z.pow_nonzero; lia.
  - rewrite <- Z.pow_add_r by lia. replace (15 - i + i) with 15 by lia. done.
Qed.

Lemma printptr_loop_text n : forall x i s,
  0 <= x -> 0 <= i -> i + Z.of_nat n <= 16 ->
  printptr_loop emit n (u64 (x * 16 ^ i)) s =
  for_each ((fun i => digit (x / 16 ^ (15 - i) mod 16)) <$> zseq i n) emit s.
Proof.
  induction n as [|n IH]; intros x i s Hx Hi Hn; [done|].
  rewrite zseq_cons. cbn [printptr_loop fmap list_fmap for_each].
  rewrite printptr_digit by lia. unfold mbind, M_bind.
  destruct (emit _ s) as [[] s'| |]; [|done|done].
  rewrite <- (IH x (i + 1)) by lia. f_equal. rewrite Z.pow_add_r by lia.
  rewrite Z.shiftl_mul_pow2 by lia. unfold u64. rewrite Zmult_mod_idemp_l. f_equal. lia.
Qed.

Lemma printptr_text x s : 0 <= x < 2 ^ 64 -> printptr emit x s = for_each (ptr_text x) emit s.
Proof.
  intros Hx. unfold printptr, ptr_text. cbn [app for_each]. unfold mbind, M_bind.
  destruct (emit 48 s) as [[] s1| |]; [|done|done].
  destruct (emit 120 s1) as [[] s2| |]; [|done|done].
  rewrite <- (printptr_loop_text 16 x 0) by lia. by rewrite Z.mul_1_r, u64_small.
Qed.

Lemma printint_signed x s : - 2 ^ 63 <= x < 2 ^ 63 ->
  printint emit x 10 true s = for_each (int_text x) emit s.
Proof.
  intros Hx. rewrite printint_text by lia. unfold int_text. cbn [andb].
  rewrite u64_small by (destruct (Z.ltb_spec x 0); lia).
  replace (if x <? 0 then - x else x) with (Z.abs x); [done|]. destruct (Z.ltb_spec x 0); lia.
Qed.

Lemma printint_unsigned x base s : 10 <= base ->
  printint emit x base false s = for_each (num_text false (u64 x) base) emit s.
Proof. intros Hb. by rewrite printint_text by lia. Qed.

Lemma seq_ext (m m' : M S unit) (k : M S unit) s : m s = m' s -> (m;; k) s = (m';; k) s.
Proof. intros H. unfold mbind, M_bind. by rewrite H. Qed.

Lemma emit_1 c (k : M S unit) s : (emit c;; k) s = (for_each [c] emit;; k) s.
Proof. cbn [for_each]. unfold mbind, M_bind. by destruct (emit c s) as [[] ?| |]. Qed.

Lemma emit_2 c d (k : M S unit) s : (emit c;; emit d;; k) s = (for_each [c; d] emit;; k) s.
Proof.
  cbn [for_each]. unfold mbind, M_bind. destruct (emit c s) as [[] s'| |]; [|done|done].
  by destruct (emit d s') as [[] ?| |].
Qed.

(** One directive. *)
Lemma vprintfmt_directive fmt ap t fmt' ap' s :
  directive fmt ap = Some (t, fmt', ap') ->
  vprintfmt emit (37 :: fmt) ap s = (for_each t emit;; vprintfmt emit fmt' ap') s /\
  (length fmt' <= length fmt)%nat.
Proof.
  intros H. cbn [vprintfmt]. change (negb (37 =? 37)) with false. cbv iota.
  destruct fmt as [|c fmt]; cbn [directive] in H; [by injection H as <- <- <-|].
  cbv zeta in H. repeat match type of H with context [?x =? ?y] => destruct (x =? y) end.
  all: try (match type of H with
    | context [match ?f with [] => _ | _ :: _ => _ end] => is_var f; destruct f as [|d f] end).
  all: repeat match type of H with context [?x =? ?y] => destruct (x =? y) end.
  all: try (destruct ap as [|[x|x|x] ap]; try discriminate H).
  all: cbn [arg32 arg64 argstr_text mbind option_bind] in H; try discriminate H.
  all: injection H as <- <- <-; split; try (cbn [length]; lia).
  all: unfold va_arg32, va_arg64, va_argstr; mstep; try apply emit_1; try apply emit_2; try done.
  all: apply seq_ext.
  - apply printint_signed. pose proof (s32_range x). lia.
  - apply printint_signed, s64_range.
  - rewrite printint_unsigned by lia. by rewrite s64_u64.
  - rewrite printint_unsigned by lia. by rewrite s64_u64.
  - rewrite printint_unsigned by lia. pose proof (u32_range x). by rewrite u64_small by lia.
  - rewrite printint_unsigned by lia. pose proof (u32_range x). by rewrite u64_small by lia.
  - apply printptr_text, u64_range.
Qed.

Lemma vprintfmt_fmt_text fuel : forall fmt ap t s,
  fmt_text fuel fmt ap = Some t -> vprintfmt emit fmt ap s = for_each t emit s.
Proof.
  induction fuel as [|f IH]; intros [|c fmt] ap t s H; try (by injection H as <-); [done|].
  cbn [fmt_text] in H. destruct (Z.eqb_spec c 37) as [->|Hc]; cbn [negb] in H.
  - destruct (directive fmt ap) as [[[t1 fmt'] ap']|] eqn:Ed; [|done].
    cbn [mbind option_bind] in H. destruct (fmt_text f fmt' ap') as [t2|] eqn:Et; [|done].
    injection H as <-. destruct (vprintfmt_directive fmt ap t1 fmt' ap' s Ed) as [-> _].
    rewrite for_each_app. unfold mbind, M_bind. destruct (for_each t1 emit s); [|done|done].
    by apply IH.
  - destruct (fmt_text f fmt ap) as [t2|] eqn:Et; [|done]. injection H as <-.
    cbn [vprintfmt for_each]. destruct (Z.eqb_spec c 37); [done|]. cbn [negb].
    unfold mbind, M_bind. destruct (emit c s); [|done|done]. by apply IH.
Qed.

Lemma vprintfmt_text fmt ap t s :
  text fmt ap = Some t -> vprintfmt emit fmt ap s = for_each t emit s.
Proof. apply vprintfmt_fmt_text. Qed.
End TextCorrect.

(** * snprintf *)

(** The buffer after some characters. *)
Lemma sbuf_emits t : forall b,
  exists buf', for_each t sbuf_emit b = Ok tt (mkSbuf buf' (sb_n b) (sb_len b + Z.of_nat (length t))) /\
    forall i, load8 buf' i =
      if decide (sb_len b <= i < sb_len b + Z.of_nat (length t) /\ i + 1 < sb_n b)
      then u8 (t !!! Z.to_nat (i - sb_len b)) else load8 (sb_buf b) i.
Proof.
  induction t as [|c t IH]; intros b.
  - exists (sb_buf b). split; [destruct b; simpl; by rewrite Z.add_0_r|].
    intros i. rewrite decide_False; [done|]. simpl. lia.
  - cbn [for_each]. unfold sbuf_emit at 1. mstep.
    destruct (IH (mkSbuf (if sb_len b + 1 <? sb_n b then store8 (sb_buf b) (sb_len b) c else sb_buf b)
           (sb_n b) (sb_len b + 1))) as (buf' & E & H).
    cbn [sb_n sb_len sb_buf] in *. exists buf'. split.
    { etransitivity; [exact E|]. do 2 f_equal. simpl length. lia. }
    intros i. rewrite H. destruct (decide (i = sb_len b)) as [->|Hi].
    + rewrite decide_False by lia. destruct (Z.ltb_spec (sb_len b + 1) (sb_n b)).
      * rewrite decide_True by (simpl length; lia). rewrite load8_store8_eq, Z.sub_diag. done.
      * rewrite decide_False by lia. done.
    + repeat case_decide; try (simpl length in *; lia).
      * replace (Z.to_nat (i - sb_len b)) with (S (Z.to_nat (i - (sb_len b + 1)))) by lia. done.
      * destruct (Z.ltb_spec (sb_len b + 1) (sb_n b)); [|done]. by rewrite load8_store8_ne by lia.
Qed.

(** [snprintf] formats into its buffer: with a positive size it returns
    the length of the formatted text (truncated or not), leaves the first
    [n - 1] bytes of the text followed by a NUL in the buffer, and writes no
    byte at or beyond [n]. *)
Theorem snprintf_correct n fmt ap t buf :
  text fmt ap = Some t -> 0 < n ->
  let len := Z.of_nat (length t) in
  let k := Z.min len (n - 1) in
  exists buf', snprintf n fmt ap buf = Ok len buf' /\
    (forall i, 0 <= i < k -> load8 buf' i = u8 (t !!! Z.to_nat i)) /\
    load8 buf' k = 0 /\
    (forall i, ~ (0 <= i <= k) -> load8 buf' i = load8 buf i).
Proof.
  intros Ht Hn len k. unfold snprintf. rewrite (vprintfmt_text _ _ _ _ _ Ht).
  destruct (sbuf_emits t (mkSbuf buf n 0)) as (b1 & -> & H). cbn [sb_n sb_len sb_buf] in *.
  rewrite !Z.add_0_l in *. fold len in H |- *. destruct (Z.ltb_spec 0 n); [|lia].
  replace (if len <? n then len else n - 1) with k by (unfold k; zcase; lia).
  eexists. split; [done|]. split_and!.
  - intros i Hi. rewrite load8_store8_ne, H by lia. rewrite decide_True by lia.
    by rewrite Z.sub_0_r.
  - by rewrite load8_store8_eq.
  - intros i Hi. rewrite load8_store8_ne, H by lia. by rewrite decide_False by lia.
Qed.

Lemma snprintf_correct_witness :
  exists buf', snprintf 8 (bytes "pid %d!") [A32 (- 12345)] ∅ = Ok 11 buf' /\
    load8 buf' 6 = u8 50 /\ load8 buf' 7 = 0.
Proof.
  destruct (snprintf_correct 8 (bytes "pid %d!") [A32 (- 12345)] (bytes "pid -12345!") ∅)
    as (buf' & E & Hb & H0 & _).
  - vm_compute. reflexivity.
  - lia.
  - exists buf'. split; [exact E|]. split; [|exact H0]. apply (Hb 6). split; [lia|reflexivity].
Defined.

(** C39: [printint] prints the number: for every 64-bit value and base 10 or
    16 it emits, without overrunning its 24-byte buffer, an optional minus
    sign followed by the digits of the absolute value, most significant
    first, without leading zeros; in particular the most negative value is
    printed correctly. *)
Theorem printint_correct {S} (emit : Z -> M S unit) xx base sign s :
  10 <= base <= 16 -> - 2 ^ 63 <= xx < 2 ^ 63 ->
  exists ds,
    printint emit xx base sign s =
      for_each ((if sign && (xx <? 0) then [45] else []) ++ (digit <$> ds)) emit s /\
    value base ds = (if sign then Z.abs xx else u64 xx) /\
    Forall (fun d => 0 <= d < base) ds /\ (1 <= length ds <= 20)%nat /\
    (value base ds <> 0 -> exists d, head ds = Some d /\ d <> 0).
Proof.
  intros Hb Hx. set (neg := sign && (xx <? 0)). set (x := u64 (if neg then - xx else xx)).
  exists (rev (ldigits 64 x base)). rewrite (printint_text emit xx base sign s) by lia.
  pose proof (u64_range (if neg then - xx else xx)) as Hr. fold x in Hr.
  destruct (ldigits_64 x base) as [Hlt Hlen]; [lia|done|].
  destruct (ldigits_spec 64 x base) as (V & F & L); [lia|split; [apply Hr|exact Hlt]|].
  assert (1 <= length (ldigits 64 x base))%nat as H1 by (cbn [ldigits length]; lia).
  unfold num_text. fold neg x. set (l := ldigits 64 x base) in *. clearbody l.
  rewrite V. split_and!.
  - done.
  - unfold x, neg. destruct sign, (Z.ltb_spec xx 0); simpl; try done; rewrite u64_small; lia.
  - by apply Forall_rev.
  - by rewrite length_rev.
  - by rewrite length_rev.
  - intros Hx0. destruct (L Hx0) as (d & Hl & Hd). by exists d.
Qed.

Lemma printint_correct_witness :
  exists ds,
    printint sbuf_emit (- 2 ^ 63) 10 true (mkSbuf ∅ 64 0) =
      for_each ([45] ++ (digit <$> ds)) sbuf_emit (mkSbuf ∅ 64 0) /\
    value 10 ds = 9223372036854775808.
Proof.
  destruct (printint_correct sbuf_emit (- 2 ^ 63) 10 true (mkSbuf ∅ 64 0)) as (ds & E & V & _);
    [lia|lia|].
  exists ds. split; [exact E|exact V].
Defined.
