(* ===== verification/KState.v ===== *)
(** The machine the kernel runs on and the state of the kernel.

    [Machine] collects what the sources do not contain: the two memory-mapped
    devices (a 16550 UART and a PLIC, as functions on register offsets) and
    the addresses the linker and the assembly files assign.  [UartLaws] states
    what the driver relies on of the UART.  The kernel state [kstate] is the
    global variables of the C files; the routines of the virtual-memory and
    lock components run on their part of it ([vm], [lk]). *)

From stdpp Require Import base gmap list strings numbers.
From Stdlib Require Import ZArith Lia.
From S2P Require Import Prelude Mem Riscv Kdefs Spinlock Vm.

(** * The machine *)

Class Machine : Type := {
  uart_t : Type;
  (** [*(volatile unsigned char * )(UART0 + reg)] and its assignment *)
  uart_read : Z -> uart_t -> Z * uart_t;
  uart_write : Z -> Z -> uart_t -> uart_t;
  (** rounds after which the transmitter is idle, characters there are to receive *)
  tx_fuel : nat;
  rx_fuel : uart_t -> nat;
  plic_t : Type;
  (** [*(uint32 * )a] and its assignment, in the PLIC's address range *)
  plic_read : Z -> plic_t -> Z * plic_t;
  plic_write : Z -> Z -> plic_t -> plic_t;
  sym_end : Z;
  sym_etext : Z;
  sym_trampoline : Z;
  sym_uservec : Z;
  sym_userret : Z;
  sym_kernelvec : Z;
  sym_usertrap : Z;
  sym_timervec : Z;
  sym_main : Z;
  sym_uprog_table : Z
}.

(** Registers of the 16550 (console.c). *)
Definition RHR : Z := 0.
Definition THR : Z := 0.
Definition IER : Z := 1.
Definition FCR : Z := 2.
Definition ISR : Z := 2.
Definition LCR : Z := 3.
Definition LSR : Z := 5.

Definition IER_RX_ENABLE : Z := 1.
Definition FCR_FIFO_ENABLE : Z := 1.
Definition FCR_FIFO_CLEAR : Z := Z.shiftl 3 1.
Definition LCR_EIGHT_BITS : Z := 3.
Definition LSR_RX_READY : Z := 1.
Definition LSR_TX_IDLE : Z := Z.shiftl 1 5.

(** What the 16550 manual promises.  [uart_out] is what has been sent,
    [uart_in] the characters of the input line not read yet (those in the
    receive FIFO and those still to arrive), [uart_ready] that one can be
    read.  Characters may arrive during any access. *)
Class UartLaws `{Machine} : Type := {
  uart_out : uart_t -> list Z;
  uart_in : uart_t -> list Z;
  uart_ready : uart_t -> Prop;
  lsr_keeps u : uart_out (uart_read LSR u).2 = uart_out u /\ uart_in (uart_read LSR u).2 = uart_in u;
  lsr_rx u : Z.land (uart_read LSR u).1 LSR_RX_READY <> 0 -> uart_ready (uart_read LSR u).2;
  lsr_tx u : exists k, (k < tx_fuel)%nat /\
    Z.land (uart_read LSR (Nat.iter k (fun u => (uart_read LSR u).2) u)).1 LSR_TX_IDLE <> 0;
  rhr_takes u : uart_ready u ->
    exists c l, uart_in u = c :: l /\ 0 <= c < 256 /\ (uart_read RHR u).1 = c /\
      uart_in (uart_read RHR u).2 = l /\ uart_out (uart_read RHR u).2 = uart_out u;
  thr_sends u c : uart_out (uart_write THR c u) = uart_out u ++ [u8 c] /\
    uart_in (uart_write THR c u) = uart_in u;
  isr_keeps u : uart_out (uart_read ISR u).2 = uart_out u /\ uart_in (uart_read ISR u).2 = uart_in u;
  ctl_out r c u : r = IER \/ r = LCR \/ r = FCR -> uart_out (uart_write r c u) = uart_out u;
  rx_bound u : (length (uart_in u) < rx_fuel u)%nat
}.

(** * The kernel state *)

Definition INPUT_BUF_SIZE : Z := 128.

(** The anonymous struct [cons] (its lock is [L_cons]). *)
Record consbuf : Type := mkCons { cb_buf : mem; cb_r : Z; cb_w : Z; cb_e : Z }.

Section State.
Context `{Machine}.

Record kstate : Type := mkK {
  k_vm : vmst;
  k_lk : lkst;
  k_procs : list proc;
  k_cons : consbuf;
  k_uart : uart_t;
  k_emitted : Z;
  k_plic : plic_t;
  k_ticks : Z;
  k_nextpid : Z;
  k_initproc : option nat;
  k_first : bool;
  k_kpgtbl : Z
}.

Definition with_vm (x : vmst) (s : kstate) : kstate :=
  mkK x (k_lk s) (k_procs s) (k_cons s) (k_uart s) (k_emitted s) (k_plic s) (k_ticks s) (k_nextpid s) (k_initproc s) (k_first s) (k_kpgtbl s).
Definition with_lk (x : lkst) (s : kstate) : kstate :=
  mkK (k_vm s) x (k_procs s) (k_cons s) (k_uart s) (k_emitted s) (k_plic s) (k_ticks s) (k_nextpid s) (k_initproc s) (k_first s) (k_kpgtbl s).
Definition with_procs (x : list proc) (s : kstate) : kstate :=
  mkK (k_vm s) (k_lk s) x (k_cons s) (k_uart s) (k_emitted s) (k_plic s) (k_ticks s) (k_nextpid s) (k_initproc s) (k_first s) (k_kpgtbl s).
Definition with_cons (x : consbuf) (s : kstate) : kstate :=
  mkK (k_vm s) (k_lk s) (k_procs s) x (k_uart s) (k_emitted s) (k_plic s) (k_ticks s) (k_nextpid s) (k_initproc s) (k_first s) (k_kpgtbl s).
Definition with_uart (x : uart_t) (s : kstate) : kstate :=
  mkK (k_vm s) (k_lk s) (k_procs s) (k_cons s) x (k_emitted s) (k_plic s) (k_ticks s) (k_nextpid s) (k_initproc s) (k_first s) (k_kpgtbl s).
Definition with_emitted (x : Z) (s : kstate) : kstate :=
  mkK (k_vm s) (k_lk s) (k_procs s) (k_cons s) (k_uart s) x (k_plic s) (k_ticks s) (k_nextpid s) (k_initproc s) (k_first s) (k_kpgtbl s).
Definition with_plic (x : plic_t) (s : kstate) : kstate :=
  mkK (k_vm s) (k_lk s) (k_procs s) (k_cons s) (k_uart s) (k_emitted s) x (k_ticks s) (k_nextpid s) (k_initproc s) (k_first s) (k_kpgtbl s).
Definition with_ticks (x : Z) (s : kstate) : kstate :=
  mkK (k_vm s) (k_lk s) (k_procs s) (k_cons s) (k_uart s) (k_emitted s) (k_plic s) x (k_nextpid s) (k_initproc s) (k_first s) (k_kpgtbl s).
Definition with_nextpid (x : Z) (s : kstate) : kstate :=
  mkK (k_vm s) (k_lk s) (k_procs s) (k_cons s) (k_uart s) (k_emitted s) (k_plic s) (k_ticks s) x (k_initproc s) (k_first s) (k_kpgtbl s).
Definition with_initproc (x : option nat) (s : kstate) : kstate :=
  mkK (k_vm s) (k_lk s) (k_procs s) (k_cons s) (k_uart s) (k_emitted s) (k_plic s) (k_ticks s) (k_nextpid s) x (k_first s) (k_kpgtbl s).
Definition with_first (x : bool) (s : kstate) : kstate :=
  mkK (k_vm s) (k_lk s) (k_procs s) (k_cons s) (k_uart s) (k_emitted s) (k_plic s) (k_ticks s) (k_nextpid s) (k_initproc s) x (k_kpgtbl s).
Definition with_kpgtbl (x : Z) (s : kstate) : kstate :=
  mkK (k_vm s) (k_lk s) (k_procs s) (k_cons s) (k_uart s) (k_emitted s) (k_plic s) (k_ticks s) (k_nextpid s) (k_initproc s) (k_first s) x.

(** Routines of the components below. *)
Definition vm {A} (m : M vmst A) : M kstate A := zoom k_vm with_vm m.
Definition lk {A} (m : M lkst A) : M kstate A := zoom k_lk with_lk m.

(** The hart's registers. *)
Definition csr {A} (f : hart -> A) : M kstate A := gets (fun s => f (l_hart (k_lk s))).
Definition set_csr (f : hart -> hart) : M kstate unit := lk (modify (set_hart f)).

(** [proc[i]] and an assignment to its fields. *)
Definition the_proc (i : nat) (s : kstate) : proc := k_procs s !!! i.
Definition upd_proc (i : nat) (f : proc -> proc) : M kstate unit :=
  modify (fun s => with_procs (alter f i (k_procs s)) s).

End State.
Arguments kstate {_}.

(** * The effect of locking *)

Section Locking.
Context `{Machine}.

(** A state in which kernel code runs: hart 0, balanced sections. *)
Definition lk_ok (s : kstate) : Prop := lk_wf (k_lk s) /\ irq_ok (k_lk s).

Lemma lk_run {A} (m : M lkst A) (s : kstate) a l :
  m (k_lk s) = Ok a l -> lk m s = Ok a (with_lk l s).
Proof. apply zoom_ok. Qed.

Lemma vm_run {A} (m : M vmst A) (s : kstate) a v :
  m (k_vm s) = Ok a v -> vm m s = Ok a (with_vm v s).
Proof. apply zoom_ok. Qed.

Lemma with_lk_id (s : kstate) : with_lk (k_lk s) s = s.
Proof. by destruct s. Qed.

Lemma with_lk_lk l l' (s : kstate) : with_lk l (with_lk l' s) = with_lk l s.
Proof. done. Qed.

(** [acquire] on a free lock, in a well-formed state. *)
Lemma acquire_run x (s : kstate) :
  lk_ok s -> lock_free x (k_lk s) ->
  lk (acquire x) s = Ok tt (with_lk (acquired x (k_lk s)) s).
Proof. intros [Hwf _] Hf. apply lk_run. by apply acquire_ok. Qed.

(** [release] ends the section that [acquire] began. *)
Lemma release_run x (s : kstate) l :
  lk_wf l -> irq_ok l -> lock_free x l -> k_lk s = acquired x l ->
  lk (release x) s = Ok tt (with_lk (settle l) s).
Proof. intros Hwf Hi Hf E. apply lk_run. rewrite E. by apply release_acquired. Qed.

(** [push_off], [pop_off] around a computation that leaves the locks alone. *)
Lemma push_off_run (s : kstate) : lk_ok s -> lk push_off s = Ok tt (with_lk (pushed (k_lk s)) s).
Proof. intros [Hwf _]. apply lk_run. by apply push_off_ok. Qed.

Lemma pop_off_run (s : kstate) l :
  lk_wf l -> irq_ok l -> k_lk s = pushed l -> lk pop_off s = Ok tt (with_lk (settle l) s).
Proof. intros Hwf Hi E. apply lk_run. rewrite E. by apply pop_off_pushed. Qed.

(** A critical section: the body runs with the lock held and leaves the lock
    state as it found it. *)
Lemma section_run {A} x (body : M kstate A) (s : kstate) a s' :
  lk_ok s -> lock_free x (k_lk s) ->
  body (with_lk (acquired x (k_lk s)) s) = Ok a s' ->
  k_lk s' = acquired x (k_lk s) ->
  (lk (acquire x);; r ← body; lk (release x);; mret r) s =
  Ok a (with_lk (settle (k_lk s)) s').
Proof.
  intros Hok Hf Hb Hl. mrun (acquire_run x s Hok Hf). mrun Hb.
  destruct Hok as [Hwf Hi]. by mrun (release_run x s' (k_lk s) Hwf Hi Hf Hl).
Qed.

Lemma settle_ok (s : kstate) : lk_ok s -> lk_ok (with_lk (settle (k_lk s)) s).
Proof.
  intros [Hwf Hi]. split; cbn; [by apply settle_wf|by apply settle_irq].
Qed.

Lemma acquired_ok x (s : kstate) :
  lk_ok s -> lock_free x (k_lk s) -> lk_ok (with_lk (acquired x (k_lk s)) s).
Proof.
  intros [Hwf Hi] Hf. split; cbn; [by apply acquired_wf|by apply acquired_irq].
Qed.
End Locking.

(** * A machine

    A UART that is always ready to send and has all its input waiting, a PLIC
    that always claims the UART's interrupt, and some addresses: an instance
    that satisfies the laws, to run the kernel's code on. *)

Record fifo_uart : Type := mkFifo { fu_tx : list Z; fu_rx : list Z }.

Definition fifo_read (r : Z) (u : fifo_uart) : Z * fifo_uart :=
  if r =? LSR then (Z.lor LSR_TX_IDLE (match fu_rx u with [] => 0 | _ => LSR_RX_READY end), u)
  else if r =? RHR then
    match fu_rx u with
    | c :: l => (u8 c, mkFifo (fu_tx u) l)
    | [] => (0, u)
    end
  else (0, u).

Definition fifo_write (r c : Z) (u : fifo_uart) : fifo_uart :=
  if r =? THR then mkFifo (fu_tx u ++ [u8 c]) (fu_rx u) else u.

#[export] Instance fifo_machine : Machine := {|
  uart_t := fifo_uart;
  uart_read := fifo_read;
  uart_write := fifo_write;
  tx_fuel := 1;
  rx_fuel u := S (length (fu_rx u));
  plic_t := unit;
  plic_read a p := (UART0_IRQ, p);
  plic_write a v p := p;
  sym_end := 0x80100000;
  sym_etext := 0x80008000;
  sym_trampoline := 0x80007000;
  sym_uservec := 0x80007000;
  sym_userret := 0x8000709c;
  sym_kernelvec := 0x80005000;
  sym_usertrap := 0x80002000;
  sym_timervec := 0x80005100;
  sym_main := 0x80001000;
  sym_uprog_table := 0x80009000
|}.

#[export] Instance fifo_laws : @UartLaws fifo_machine.
Proof.
  refine {| uart_out := (fu_tx : @uart_t fifo_machine -> list Z);
            uart_in := (fun u => u8 <$> fu_rx u : list Z) : @uart_t fifo_machine -> list Z;
            uart_ready := (fun u => fu_rx u <> []) : @uart_t fifo_machine -> Prop |}.
  - done.
  - intros u. cbn. destruct (fu_rx u); [|done]. vm_compute. congruence.
  - intros u. exists 0%nat. split; [cbn; lia|]. cbn. destruct (fu_rx u); vm_compute; congruence.
  - intros u Hu. cbn in *. destruct (fu_rx u) as [|c l] eqn:E; [done|].
    exists (u8 c), (u8 <$> l). cbn. split_and!; try done; apply u8_range.
  - done.
  - done.
  - intros r c u Hr. cbn. unfold fifo_write. destruct Hr as [-> | [-> | ->]]; done.
  - intros u. cbn. rewrite length_fmap. lia.
Defined.

(** The kernel after its initialisation, running process 0. *)
Definition demo_locks : gmap lockid spinlock :=
  list_to_map ((fun x => (x, mkLock 0 "lock")) <$>
    ([L_pid; L_wait; L_ticks; L_cons] ++ (L_proc <$> seq 0 NPROC))).

Definition demo_lk (i : option nat) : lkst :=
  mkLk (mkHart 0 0 0 2 0 0 0 0 0 0 0 0 0 0 0 0 0 0 0 0 0)
    (replicate NCPU (mkCpu i (mkContext PC_none 0) 0 true)) demo_locks.

Definition demo_proc : proc :=
  set_parent (Some 1%nat) (set_state RUNNING (set_pid 2 zero_proc)).

Definition demo_k (v : vmst) (input : list Z) : @kstate fifo_machine :=
  @mkK fifo_machine v (demo_lk (Some 0%nat)) (demo_proc :: replicate 63 zero_proc) (mkCons ∅ 0 0 0)
    (mkFifo [] input) 0 tt 0 3 (Some 1%nat) false 0.

Lemma demo_locks_free x :
  match x with L_proc i => (i < NPROC)%nat | _ => True end -> lock_free x (demo_lk (Some 0%nat)).
Proof.
  intros Hx. exists (mkLock 0 "lock"). split; [|done].
  destruct x as [| | | |i]; try (vm_compute; reflexivity).
  assert (Forall (fun i => demo_locks !! L_proc i = Some (mkLock 0 "lock")) (seq 0 NPROC)) as HF.
  { vm_compute. repeat constructor. }
  rewrite Forall_forall in HF. apply HF, in_seq. lia.
Qed.

Lemma demo_lk_ok v inp : lk_ok (demo_k v inp).
Proof.
  split; split; try (vm_compute; split; congruence); try done; try (vm_compute; done).
Qed.
