(* ===== verification/Uart.v ===== *)
(** kernel/console.c, the UART half, and [printf]: polled transmission,
    reception, and the formatter's console client.  kernel/plic.c. *)

From stdpp Require Import base gmap list strings numbers.
From Stdlib Require Import ZArith Lia.
From S2P Require Import Prelude Mem Riscv Kdefs Spinlock Vm Printf KState.

Section Uart.
Context `{Machine}.

Definition ReadReg (r : Z) : M kstate Z := fun s =>
  let '(c, u) := uart_read r (k_uart s) in Ok (u8 c) (with_uart u s).

Definition WriteReg (r v : Z) : M kstate unit :=
  modify (fun s => with_uart (uart_write r (u8 v) (k_uart s)) s).

Definition uartinit : M kstate unit :=
  WriteReg IER 0;;
  WriteReg LCR LCR_EIGHT_BITS;;
  WriteReg FCR (Z.lor FCR_FIFO_ENABLE FCR_FIFO_CLEAR);;
  WriteReg IER IER_RX_ENABLE.

(** [while ((ReadReg(LSR) & LSR_TX_IDLE) == 0) ;] *)
Fixpoint tx_wait (fuel : nat) : M kstate unit :=
  match fuel with
  | O => out_of_fuel
  | S f => l ← ReadReg LSR; if Z.land l LSR_TX_IDLE =? 0 then tx_wait f else mret tt
  end.

Definition uartputc_sync (c : Z) : M kstate unit :=
  lk push_off;;
  tx_wait tx_fuel;;
  WriteReg THR c;;
  lk pop_off.

Definition COURSE_SID : Z := 2024302111127.
Definition THROTTLE_PERIOD : Z := 16 + COURSE_SID mod 16.

(** The busy loop of [THROTTLE_NOPS] rounds has no effect on the state. *)
Definition putchar (c : Z) : M kstate unit :=
  uartputc_sync c;;
  modify (fun s => with_emitted (u64 (k_emitted s + 1)) s);;
  e ← gets k_emitted;
  if THROTTLE_PERIOD <=? e then modify (with_emitted 0) else mret tt.

Definition consputc (c : Z) : M kstate unit := uartputc_sync c.

Definition uartgetc : M kstate Z :=
  l ← ReadReg LSR;
  if negb (Z.land l LSR_RX_READY =? 0) then ReadReg RHR else mret (-1).

Definition cons_emit (c : Z) : M kstate unit := putchar c.

Definition printf (fmt : string) (ap : list varg) : M kstate Z :=
  vprintfmt cons_emit (bytes fmt) ap;; mret 0.

(** * plic.c *)

Definition cpuid_k : M kstate Z := gets (fun s => cpuid (k_lk s)).

Definition plic_store (a v : Z) : M kstate unit :=
  modify (fun s => with_plic (plic_write a (u32 v) (k_plic s)) s).

Definition plic_load (a : Z) : M kstate Z := fun s =>
  let '(v, p) := plic_read a (k_plic s) in Ok (u32 v) (with_plic p s).

Definition plicinit : M kstate unit := plic_store (PLIC + UART0_IRQ * 4) 1.

Definition plicinithart : M kstate unit :=
  hart ← cpuid_k;
  plic_store (PLIC_SENABLE hart) (Z.shiftl 1 UART0_IRQ);;
  plic_store (PLIC_SPRIORITY hart) 0.

Definition plic_claim : M kstate Z :=
  hart ← cpuid_k;
  irq ← plic_load (PLIC_SCLAIM hart);
  mret (s32 irq).

Definition plic_complete (irq : Z) : M kstate unit :=
  hart ← cpuid_k;
  plic_store (PLIC_SCLAIM hart) irq.

(** * Transmission *)

Section Laws.
Context `{!UartLaws}.

(** The UART after [n] reads of the line status. *)
Definition polled (n : nat) (u : uart_t) : uart_t := Nat.iter n (fun u => (uart_read LSR u).2) u.

Lemma polled_keeps n u : uart_out (polled n u) = uart_out u /\ uart_in (polled n u) = uart_in u.
Proof.
  induction n as [|n [IH1 IH2]]; [done|].
  change (polled (S n) u) with (uart_read LSR (polled n u)).2.
  destruct (lsr_keeps (polled n u)) as [-> ->]. done.
Qed.

Lemma polled_S n u : polled (S n) u = polled n (uart_read LSR u).2.
Proof. unfold polled. by rewrite Nat.iter_succ_r. Qed.

Lemma ReadReg_run r s :
  ReadReg r s = Ok (u8 (uart_read r (k_uart s)).1) (with_uart (uart_read r (k_uart s)).2 s).
Proof. unfold ReadReg. by destruct (uart_read r (k_uart s)). Qed.

(** [u8] does not change the bit that is tested. *)
Lemma land_u8 x b : 0 <= b < 256 -> Z.land (u8 x) b = Z.land x b.
Proof.
  intros Hb. apply Z.bits_inj'. intros n Hn. rewrite !Z.land_spec. unfold u8.
  destruct (decide (n < 8)).
  - by rewrite Z.mod_pow2_bits_low.
  - rewrite Z.mod_pow2_bits_high by lia.
    replace (Z.testbit b n) with false; [by rewrite !andb_false_r|].
    symmetry. destruct (decide (b = 0)) as [->|]; [apply Z.bits_0|].
    apply Z.bits_above_log2; [lia|]. apply Z.log2_lt_pow2; [lia|].
    assert (2 ^ 8 <= 2 ^ n) by (apply Z.pow_le_mono_r; lia). lia.
Qed.

Lemma tx_wait_ok fuel : forall s k,
  (k < fuel)%nat -> Z.land (uart_read LSR (polled k (k_uart s))).1 LSR_TX_IDLE <> 0 ->
  exists n, tx_wait fuel s = Ok tt (with_uart (polled n (k_uart s)) s).
Proof.
  induction fuel as [|f IH]; intros s k Hk Hi; [lia|]. cbn [tx_wait].
  mrun (ReadReg_run LSR s). destruct (uart_read LSR (k_uart s)) as [c u] eqn:E. cbn [fst snd].
  rewrite land_u8 by (vm_compute; split; congruence).
  destruct (Z.eqb_spec (Z.land c LSR_TX_IDLE) 0) as [Hz|Hz].
  - destruct k as [|k]; [change (polled 0 (k_uart s)) with (k_uart s) in Hi; by rewrite E in Hi|].
    rewrite polled_S, E in Hi. cbn [snd] in Hi.
    destruct (IH (with_uart u s) k) as [n En]; [lia|exact Hi|].
    exists (S n). rewrite En. rewrite polled_S, E. done.
  - exists 1%nat. change (polled 1 (k_uart s)) with (uart_read LSR (k_uart s)).2. by rewrite E.
Qed.

(** Sending a character appends it to the output and changes nothing else
    but the device (and, at nesting level 0, the saved enable bit). *)
Lemma uartputc_sync_ok s c :
  lk_ok s ->
  exists u, uartputc_sync c s = Ok tt (with_uart u (with_lk (settle (k_lk s)) s)) /\
    uart_out u = uart_out (k_uart s) ++ [u8 c] /\ uart_in u = uart_in (k_uart s).
Proof.
  intros Hok. unfold uartputc_sync. mrun (push_off_run s Hok).
  set (s1 := with_lk _ s). destruct (lsr_tx (k_uart s1)) as (k & Hk & Hi).
  destruct (tx_wait_ok tx_fuel s1 k Hk Hi) as [n En]. mrun En.
  unfold WriteReg. mstep. destruct Hok as [Hwf Hirq].
  exists (uart_write THR (u8 c) (polled n (k_uart s))). split.
  - rewrite (pop_off_run _ (k_lk s)); done.
  - destruct (thr_sends (polled n (k_uart s)) (u8 c)) as [-> ->].
    destruct (polled_keeps n (k_uart s)) as [-> ->]. split; [|done].
    do 2 f_equal. by apply u8_small, u8_range.
Qed.

(** Console output: the text reaches the UART in order. *)
Definition same_but_out (s s' : kstate) : Prop :=
  exists u e, s' = with_emitted e (with_uart u (with_lk (settle (k_lk s)) s)) /\
    uart_in u = uart_in (k_uart s).

Lemma putchar_ok s c :
  lk_ok s ->
  exists s', putchar c s = Ok tt s' /\ same_but_out s s' /\
    uart_out (k_uart s') = uart_out (k_uart s) ++ [u8 c].
Proof.
  intros Hok. unfold putchar. destruct (uartputc_sync_ok s c Hok) as (u & E & Ho & Hi).
  mrun E. mstep. match goal with |- context [THROTTLE_PERIOD <=? ?e] => destruct (THROTTLE_PERIOD <=? e) end.
  all: eexists; split; [reflexivity|]; split; [|exact Ho]; by eexists _, _.
Qed.

Lemma same_but_out_ok s s' : lk_ok s -> same_but_out s s' -> lk_ok s'.
Proof. intros Hok (u & e & -> & _). apply (settle_ok s Hok). Qed.

Lemma same_but_out_trans s1 s2 s3 :
  lk_ok s1 -> same_but_out s1 s2 -> same_but_out s2 s3 -> same_but_out s1 s3.
Proof.
  intros [Hwf _] (u & e & -> & Hi) (u' & e' & -> & Hi'). exists u', e'. cbn in *.
  split; [|congruence]. by rewrite settle_settle.
Qed.

Lemma puts_ok t : forall s, lk_ok s -> t <> [] ->
  exists s', for_each t cons_emit s = Ok tt s' /\ same_but_out s s' /\
    uart_out (k_uart s') = uart_out (k_uart s) ++ (u8 <$> t).
Proof.
  induction t as [|c t IH]; intros s Hok Hne; [done|]. cbn [for_each].
  unfold cons_emit at 1. destruct (putchar_ok s c Hok) as (s1 & E & Hs & Ho). mrun E.
  destruct t as [|d t].
  { exists s1. split; [done|]. split; [done|]. exact Ho. }
  destruct (IH s1) as (s2 & E2 & Hs2 & Ho2); [by eapply same_but_out_ok|done|].
  exists s2. split; [exact E2|]. split; [by eapply same_but_out_trans|].
  by rewrite Ho2, Ho, <- app_assoc.
Qed.

(** [printf] sends the text of its format. *)
Lemma printf_ok s fmt ap t :
  lk_ok s -> text (bytes fmt) ap = Some t -> t <> [] ->
  exists s', printf fmt ap s = Ok 0 s' /\ same_but_out s s' /\
    uart_out (k_uart s') = uart_out (k_uart s) ++ (u8 <$> t).
Proof.
  intros Hok Ht Hne. unfold printf. destruct (puts_ok t s Hok Hne) as (s' & E & Hs & Ho).
  rewrite <- (vprintfmt_text cons_emit _ _ _ s Ht) in E. mrun E. by exists s'.
Qed.

(** The last access to the device was a read of the line status, which said
    that no character is ready. *)
Definition no_char_ready (u : uart_t) : Prop :=
  exists u0, u = (uart_read LSR u0).2 /\ Z.land (uart_read LSR u0).1 LSR_RX_READY = 0.

(** Reception: a character if one is ready, else -1. *)
Lemma uartgetc_ok s :
  exists c u, uartgetc s = Ok c (with_uart u s) /\ uart_out u = uart_out (k_uart s) /\
    (c = -1 /\ uart_in u = uart_in (k_uart s) /\ no_char_ready u \/
     0 <= c < 256 /\ uart_in (k_uart s) = c :: uart_in u).
Proof.
  unfold uartgetc. mrun (ReadReg_run LSR s).
  destruct (uart_read LSR (k_uart s)) as [l u] eqn:E. cbn [fst snd].
  rewrite land_u8 by (vm_compute; split; congruence).
  destruct (lsr_keeps (k_uart s)) as [Ho Hi]. rewrite E in Ho, Hi. cbn [snd] in Ho, Hi.
  destruct (Z.eqb_spec (Z.land l LSR_RX_READY) 0) as [Hz|Hz]; cbn [negb].
  - exists (-1), u. split; [done|]. split; [done|]. left. split; [done|]. split; [done|].
    exists (k_uart s). by rewrite E.
  - pose proof (lsr_rx (k_uart s)) as Hr. rewrite E in Hr. specialize (Hr Hz). cbn [snd] in Hr.
    destruct (rhr_takes u Hr) as (c & r & Hin & Hc & Hv & Hin' & Hout).
    rewrite ReadReg_run. cbn [k_uart with_uart]. destruct (uart_read RHR u) as [c' u'].
    cbn [fst snd] in *. subst c'. exists c, u'. split; [by rewrite u8_small|].
    split; [congruence|]. right. split; [done|]. congruence.
Qed.
End Laws.
End Uart.
