(* ===== verification/Proc.v ===== *)
(** kernel/proc.c: the process table, creation and reaping of processes, the
    scheduler, sleep and wakeup.

    Routines that can give up the CPU return where they stand ([kres]): a
    value, the point just before the call of [sleep()] that follows a released
    lock ([KWindow], an interrupt can come in there), or nothing because the
    thread has switched to the scheduler for good ([KGone]).  [swtch] saves
    the position of the thread in its [context]; the two halves of the
    functions that call it are two definitions, the second ([*_resume]) with
    the locals of the first as arguments. *)

From stdpp Require Import base gmap list strings numbers.
From Stdlib Require Import ZArith Lia.
From S2P Require Import Prelude Mem KString Riscv Kdefs Spinlock Vm KState.

Inductive kres : Type :=
  | KRet (r : Z)
  | KWindow (k : kcont)
  | KGone.

Definition procs_idx : list nat := seq 0 NPROC.

Section Proc.
Context `{Machine}.

(** * Initialisation, the current process *)

Definition procinit : M kstate unit :=
  lk (initlock L_pid "nextpid");;
  lk (initlock L_wait "wait_lock");;
  for_each procs_idx (fun i =>
    lk (initlock (L_proc i) "proc");;
    upd_proc i (set_state UNUSED);;
    upd_proc i (set_kstack (KSTACK (Z.of_nat i)))).

Definition myproc : M kstate (option nat) :=
  lk push_off;;
  p ← gets (fun s => c_proc (mycpu (k_lk s)));
  lk pop_off;;
  mret p.

(** A pointer that is dereferenced. *)
Definition deref (p : option nat) : M kstate nat :=
  match p with Some i => mret i | None => panic "null pointer" end.

Definition mine : M kstate nat := p ← myproc; deref p.

(** A field of [p->trapframe]. *)
Definition get_tf (i : nat) (r : tfreg) : M kstate Z :=
  gets (fun s => tf_get (v_mem (k_vm s)) (p_trapframe (the_proc i s)) r).

Definition put_tf (i : nat) (r : tfreg) (x : Z) : M kstate unit :=
  modify (fun s => with_vm (on_mem (fun m => tf_set m (p_trapframe (the_proc i s)) r x) (k_vm s)) s).

(** * Allocation *)

Definition allocpid : M kstate Z :=
  lk (acquire L_pid);;
  pid ← gets k_nextpid;
  modify (fun s => with_nextpid (s32 (k_nextpid s + 1)) s);;
  lk (release L_pid);;
  mret pid.

Definition proc_pagetable (i : nat) : M kstate Z :=
  pagetable ← vm uvmcreate;
  if pagetable =? 0 then mret 0 else
  r ← vm (mappages pagetable TRAMPOLINE PGSIZE sym_trampoline (Z.lor PTE_R PTE_X));
  if r <? 0 then vm (uvmfree pagetable 0);; mret 0 else
  tf ← gets (fun s => p_trapframe (the_proc i s));
  r ← vm (mappages pagetable TRAPFRAME PGSIZE tf (Z.lor PTE_R PTE_W));
  if r <? 0 then
    vm (uvmunmap pagetable TRAMPOLINE 1 false);;
    vm (uvmfree pagetable 0);;
    mret 0
  else mret pagetable.

Definition proc_freepagetable (pagetable sz : Z) : M kstate unit :=
  vm (uvmunmap pagetable TRAMPOLINE 1 false);;
  vm (uvmunmap pagetable TRAPFRAME 1 false);;
  vm (uvmfree pagetable sz).

Definition freeproc (i : nat) : M kstate unit :=
  p ← gets (the_proc i);
  (if negb (p_trapframe p =? 0) then vm (kfree (p_trapframe p)) else mret tt);;
  upd_proc i (set_trapframe 0);;
  (if negb (p_pagetable p =? 0) then proc_freepagetable (p_pagetable p) (p_sz p) else mret tt);;
  upd_proc i (set_pagetable 0);;
  upd_proc i (set_sz 0);;
  upd_proc i (set_pid 0);;
  upd_proc i (fun p => set_name (store8 (p_name p) 0 0) p);;
  upd_proc i (set_chan NULL);;
  upd_proc i (set_killed 0);;
  upd_proc i (set_xstate 0);;
  upd_proc i (set_state UNUSED).

(** The search for an unused slot, whose lock stays held. *)
Fixpoint find_unused (l : list nat) : M kstate (option nat) :=
  match l with
  | [] => mret None
  | i :: l' =>
      lk (acquire (L_proc i));;
      p ← gets (the_proc i);
      if decide (p_state p = UNUSED) then mret (Some i) else
      lk (release (L_proc i));;
      find_unused l'
  end.

Definition allocproc : M kstate (option nat) :=
  f ← find_unused procs_idx;
  match f with
  | None => mret None
  | Some i =>
      pid ← allocpid;
      upd_proc i (set_pid pid);;
      upd_proc i (set_state USED);;
      tf ← vm kalloc;
      upd_proc i (set_trapframe tf);;
      if tf =? 0 then freeproc i;; lk (release (L_proc i));; mret None else
      pt ← proc_pagetable i;
      upd_proc i (set_pagetable pt);;
      if pt =? 0 then freeproc i;; lk (release (L_proc i));; mret None else
      upd_proc i (set_context (mkContext PC_none 0));;
      upd_proc i (fun p => set_context (mkContext PC_forkret (p_kstack p + PGSIZE)) p);;
      mret (Some i)
  end.

Definition userinit : M kstate unit :=
  p ← allocproc;
  modify (with_initproc p);;
  i ← deref p;
  upd_proc i (set_state RUNNABLE);;
  lk (release (L_proc i)).

(** * wakeup, kill *)

Definition wakeup (chan : kptr) : M kstate unit :=
  for_each procs_idx (fun i =>
    lk (acquire (L_proc i));;
    p ← gets (the_proc i);
    (if decide (p_chan p = chan) then
       upd_proc i (set_chan NULL);;
       (if decide (p_state p = SLEEPING) then upd_proc i (set_state RUNNABLE) else mret tt)
     else mret tt);;
    lk (release (L_proc i))).

Fixpoint kkill_loop (l : list nat) (pid : Z) : M kstate Z :=
  match l with
  | [] => mret (-1)
  | i :: l' =>
      lk (acquire (L_proc i));;
      p ← gets (the_proc i);
      if p_pid p =? pid then
        upd_proc i (set_killed 1);;
        (if decide (p_state p = SLEEPING) then upd_proc i (set_state RUNNABLE) else mret tt);;
        lk (release (L_proc i));;
        mret 0
      else
        lk (release (L_proc i));;
        kkill_loop l' pid
  end.

Definition kkill (pid : Z) : M kstate Z := kkill_loop procs_idx pid.

Definition setkilled (i : nat) : M kstate unit :=
  lk (acquire (L_proc i));;
  upd_proc i (set_killed 1);;
  lk (release (L_proc i)).

Definition killed (i : nat) : M kstate Z :=
  lk (acquire (L_proc i));;
  k ← gets (fun s => p_killed (the_proc i s));
  lk (release (L_proc i));;
  mret k.

(** * Switching *)

(** [sched] up to its [swtch], for a thread that will go on at [k]. *)
Definition sched (k : kcont) : M kstate unit :=
  i ← mine;
  h ← gets (fun s => holding (L_proc i) (k_lk s));
  if negb h then panic "sched p->lock" else
  c ← gets (fun s => mycpu (k_lk s));
  if negb (c_noff c =? 1) then panic "sched locks" else
  p ← gets (the_proc i);
  if decide (p_state p = RUNNING) then panic "sched RUNNING" else
  on ← csr intr_get;
  if (on : bool) then panic "sched interruptible" else
  upd_proc i (fun p => set_context (mkContext (PC_sched k (c_intena c)) (ctx_sp (p_context p))) p).

(** [sched] after its [swtch]. *)
Definition sched_resume (intena : bool) : M kstate unit :=
  lk (modify (upd_mycpu (set_intena intena))).

(** The scheduler at one slot: [true] when it has switched to the process. *)
Definition scheduler_try (i : nat) : M kstate bool :=
  lk (acquire (L_proc i));;
  p ← gets (the_proc i);
  if decide (p_state p = RUNNABLE) then
    upd_proc i (set_state RUNNING);;
    lk (modify (upd_mycpu (set_cproc (Some i))));;
    lk (modify (upd_mycpu (set_ccontext (mkContext PC_scheduler 0))));;
    mret true
  else
    lk (release (L_proc i));;
    mret false.

(** The scheduler after the process has switched back. *)
Definition scheduler_back (i : nat) : M kstate unit :=
  lk (modify (upd_mycpu (set_cproc None)));;
  lk (release (L_proc i)).

(** Entry of the scheduler, and the head of its outer loop. *)
Definition scheduler_start : M kstate unit :=
  lk (modify (upd_mycpu (set_cproc None))).
Definition scheduler_head : M kstate unit := set_csr intr_on.

(** [yield] up to the switch, and its end. *)
Definition yield : M kstate unit :=
  i ← mine;
  lk (acquire (L_proc i));;
  upd_proc i (set_state RUNNABLE);;
  sched K_yield.

Definition yield_resume (i : nat) (intena : bool) : M kstate unit :=
  sched_resume intena;;
  lk (release (L_proc i)).

(** * sleep *)

Definition sleep_prepare (chan : kptr) : M kstate unit :=
  i ← mine;
  lk (acquire (L_proc i));;
  upd_proc i (set_chan chan);;
  lk (release (L_proc i)).

(** [true] when the thread has gone to sleep (it resumes in [sleep_resume]),
    [false] when a wakeup came first. *)
Definition sleep (k : kcont) : M kstate bool :=
  i ← mine;
  lk (acquire (L_proc i));;
  p ← gets (the_proc i);
  if decide (p_chan p = NULL) then lk (release (L_proc i));; mret false
  else upd_proc i (set_state SLEEPING);; sched k;; mret true.

Definition sleep_resume (i : nat) (intena : bool) : M kstate unit :=
  sched_resume intena;;
  lk (release (L_proc i)).

(** * fork, exit, wait *)

Definition kfork : M kstate Z :=
  i ← mine;
  np ← allocproc;
  match np with
  | None => mret (-1)
  | Some n =>
      p ← gets (the_proc i);
      npt ← gets (fun s => p_pagetable (the_proc n s));
      r ← vm (uvmcopy (p_pagetable p) npt (p_sz p));
      if r <? 0 then freeproc n;; lk (release (L_proc n));; mret (-1) else
      upd_proc n (set_sz (p_sz p));;
      ntf ← gets (fun s => p_trapframe (the_proc n s));
      vm (modify (on_mem (fun m => (memmove ntf (Here (p_trapframe p)) TF_SIZE m).2)));;
      put_tf n TF_a0 0;;
      upd_proc n (fun q => set_name (safestrcpy 0 (There (load8 (p_name p)) 0) 16 (p_name q)).2 q);;
      pid ← gets (fun s => p_pid (the_proc n s));
      lk (release (L_proc n));;
      lk (acquire L_wait);;
      upd_proc n (set_parent (Some i));;
      lk (release L_wait);;
      lk (acquire (L_proc n));;
      upd_proc n (set_state RUNNABLE);;
      lk (release (L_proc n));;
      mret pid
  end.

Definition reparent (i : nat) : M kstate unit :=
  for_each procs_idx (fun j =>
    pp ← gets (the_proc j);
    if decide (p_parent pp = Some i) then
      init ← gets k_initproc;
      upd_proc j (set_parent init);;
      wakeup (procptr init)
    else mret tt).

(** [kexit] up to the switch it does not come back from. *)
Definition kexit (status : Z) : M kstate unit :=
  p ← myproc;
  init ← gets k_initproc;
  if decide (p = init) then panic "init exiting" else
  i ← deref p;
  lk (acquire L_wait);;
  reparent i;;
  parent ← gets (fun s => p_parent (the_proc i s));
  wakeup (procptr parent);;
  lk (acquire (L_proc i));;
  upd_proc i (set_xstate status);;
  upd_proc i (set_state ZOMBIE);;
  lk (release L_wait);;
  sched K_kexit.

(** The bytes of an [int] object. *)
Definition int_obj (x : Z) : Z -> Z := load8 (store_le 4 ∅ 0 (u32 x)).

(** What one pass over the children finds. *)
Inductive kwait_found : Type :=
  | W_ret (r : Z)                  (* returned from the middle of the loop *)
  | W_end (havekids : bool).

Fixpoint kwait_scan (l : list nat) (i : nat) (addr : Z) (havekids : bool) : M kstate kwait_found :=
  match l with
  | [] => mret (W_end havekids)
  | j :: l' =>
      pp ← gets (the_proc j);
      if decide (p_parent pp = Some i) then
        lk (acquire (L_proc j));;
        if decide (p_state pp = ZOMBIE) then
          let pid := p_pid pp in
          r ← (if negb (addr =? 0) then
                 p ← gets (the_proc i);
                 vm (copyout (p_pagetable p) (p_sz p) addr (There (int_obj (p_xstate pp)) 0) 4)
               else mret 0);
          if r <? 0 then
            lk (release (L_proc j));; lk (release L_wait);; mret (W_ret (-1))
          else
            upd_proc j (set_parent None);;
            freeproc j;;
            lk (release (L_proc j));;
            lk (release L_wait);;
            mret (W_ret pid)
        else
          lk (release (L_proc j));;
          kwait_scan l' i addr true
      else kwait_scan l' i addr havekids
  end.

(** One round of the [for (;;)] of [kwait], with [wait_lock] held. *)
Definition kwait_round (i : nat) (addr : Z) : M kstate kres :=
  f ← kwait_scan procs_idx i addr false;
  match f with
  | W_ret r => mret (KRet r)
  | W_end havekids =>
      k ← (if negb havekids then mret 1 else killed i);
      if negb havekids || negb (k =? 0) then lk (release L_wait);; mret (KRet (-1)) else
      sleep_prepare (P_proc i);;
      lk (release L_wait);;
      mret (KWindow (K_kwait addr))
  end.

Definition kwait (addr : Z) : M kstate kres :=
  i ← mine;
  lk (acquire L_wait);;
  kwait_round i addr.

(** [kwait] after the [sleep()] of a round. *)
Definition kwait_resume (i : nat) (addr : Z) : M kstate kres :=
  lk (acquire L_wait);;
  kwait_round i addr.

(** * Copies to a user or kernel address *)

Definition either_copyout (user_dst : bool) (dst : Z) (src : csrc) (len : Z) : M kstate Z :=
  i ← mine;
  p ← gets (the_proc i);
  if user_dst then vm (copyout (p_pagetable p) (p_sz p) dst src len)
  else vm (modify (on_mem (fun m => (memmove dst src len m).2)));; mret 0.

(** The destination is offset 0 of the array [buf]. *)
Definition either_copyin (buf : mem) (user_src : bool) (src len : Z) : M kstate (Z * mem) :=
  i ← mine;
  p ← gets (the_proc i);
  if user_src then vm (copyin (p_pagetable p) (p_sz p) buf 0 src len)
  else
    m ← gets (fun s => v_mem (k_vm s));
    mret (0, (memmove 0 (There (load8 m) src) len buf).2).

End Proc.
