(* ===== verification/ProcSpec.v ===== *)
(** What the routines of kernel/proc.c do: closed forms for [wakeup], [killed]
    and the other critical sections, and the theorems about sleeping and
    waking. *)

From stdpp Require Import base gmap list strings numbers.
From Stdlib Require Import ZArith Lia.
From S2P Require Import Prelude Mem KString Riscv Kdefs Spinlock Vm KState Proc.

(** * Updating every slot *)

Lemma foldl_alter_lookup {A} (f : A -> A) n : forall k (ps : list A) j,
  foldl (fun ps i => alter f i ps) ps (seq k n) !! j =
  if decide (k <= j < k + n)%nat then f <$> ps !! j else ps !! j.
Proof.
  induction n as [|n IH]; intros k ps j; cbn [seq foldl].
  - by rewrite decide_False by lia.
  - rewrite IH. destruct (decide (j = k)) as [->|Hne].
    + rewrite list_lookup_alter_eq. repeat case_decide; try lia; done.
    + rewrite list_lookup_alter_ne by done. repeat case_decide; try lia; done.
Qed.

Lemma foldl_alter_fmap {A} (f : A -> A) (ps : list A) :
  foldl (fun ps i => alter f i ps) ps (seq 0 (length ps)) = f <$> ps.
Proof.
  apply list_eq. intros j. rewrite foldl_alter_lookup, list_lookup_fmap.
  case_decide; [done|]. by rewrite (lookup_ge_None_2 ps j) by lia.
Qed.

Lemma lookup_total_fmap_proc (f : proc -> proc) (ps : list proc) i :
  (i < length ps)%nat -> (f <$> ps) !!! i = f (ps !!! i).
Proof. apply list_lookup_total_fmap. Qed.

Section ProcSpec.
Context `{Machine}.
Implicit Types s : kstate.

(** * Well-formed kernel states *)

(** Hart 0 in balanced sections, 64 slots, no process lock held. *)
Record k_ok (s : kstate) : Prop := {
  ok_lk : lk_ok s;
  ok_len : length (k_procs s) = NPROC;
  ok_free i : (i < NPROC)%nat -> lock_free (L_proc i) (k_lk s)
}.

(** The state after one or more balanced sections. *)
Definition settled (s : kstate) : kstate := with_lk (settle (k_lk s)) s.

Lemma settled_ok s : k_ok s -> k_ok (settled s).
Proof.
  intros [Hl Hn Hf]. split; [by apply settle_ok|done|].
  intros i Hi. by apply settle_free, Hf.
Qed.

Lemma settled_settled s : k_ok s -> settled (settled s) = settled s.
Proof.
  intros [[Hwf _] _ _]. unfold settled. cbn. by rewrite settle_settle.
Qed.

Lemma k_ok_procs s ps : k_ok s -> length ps = NPROC -> k_ok (with_procs ps s).
Proof. intros [Hl Hn Hf] Hp. by split. Qed.

Lemma k_ok_same s s' : k_ok s -> k_lk s' = k_lk s -> k_procs s' = k_procs s -> k_ok s'.
Proof.
  intros [Hl Hn Hf] E1 E2. split; [|by rewrite E2|by rewrite E1].
  unfold lk_ok in *. by rewrite E1.
Qed.

(** Inside a section of another lock nothing of this changes. *)
Lemma k_ok_acquired s x : k_ok s -> (forall i, x <> L_proc i) -> lock_free x (k_lk s) ->
  k_ok (with_lk (acquired x (k_lk s)) s) /\
  settled (with_lk (acquired x (k_lk s)) s) = with_lk (acquired x (k_lk s)) s.
Proof.
  intros [Hl Hn Hf] Hx Hfr. pose proof Hl as [Hwf Hi]. split.
  - split; [by apply acquired_ok|done|]. intros i Hlt. apply acquired_free; [apply Hx|by apply Hf].
  - unfold settled. cbn. by rewrite settle_acquired.
Qed.

Lemma myproc_run s : lk_ok s -> myproc s = Ok (c_proc (mycpu (k_lk s))) (settled s).
Proof.
  intros Hok. unfold myproc. mrun (push_off_run s Hok). mstep.
  destruct Hok as [Hwf Hi]. rewrite (bind_ok _ _ _ _ _ (pop_off_run (with_lk (pushed (k_lk s)) s) (k_lk s) Hwf Hi eq_refl)).
  unfold mret, M_ret. cbn. by rewrite pushed_cproc.
Qed.

Lemma mine_run s i : lk_ok s -> c_proc (mycpu (k_lk s)) = Some i -> mine s = Ok i (settled s).
Proof. intros Hok E. unfold mine. mrun (myproc_run s Hok). by rewrite E. Qed.

(** A section of the lock of slot [i] whose body updates the process table. *)
Lemma proc_section s i (body : M kstate unit) ps :
  lk_ok s -> lock_free (L_proc i) (k_lk s) ->
  body (with_lk (acquired (L_proc i) (k_lk s)) s) =
    Ok tt (with_procs ps (with_lk (acquired (L_proc i) (k_lk s)) s)) ->
  (lk (acquire (L_proc i));; body;; lk (release (L_proc i))) s =
  Ok tt (with_procs ps (settled s)).
Proof.
  intros Hok Hf Hb. mrun (acquire_run _ s Hok Hf). mrun Hb. destruct Hok as [Hwf Hi].
  by rewrite (release_run _ _ (k_lk s)) by done.
Qed.

(** The same section over a range of slots. *)
Lemma for_sections (F : nat -> M kstate unit) (f : proc -> proc) l : forall s,
  l <> [] -> lk_ok s -> (forall i, i ∈ l -> lock_free (L_proc i) (k_lk s)) ->
  (forall i s, i ∈ l -> lk_ok s -> lock_free (L_proc i) (k_lk s) ->
     F i s = Ok tt (with_procs (alter f i (k_procs s)) (settled s))) ->
  for_each l F s =
  Ok tt (with_procs (foldl (fun ps i => alter f i ps) (k_procs s) l) (settled s)).
Proof.
  induction l as [|i l IH]; intros s Hne Hok Hf HF; [done|]. cbn [for_each foldl].
  mrun (HF i s ltac:(set_solver) Hok (Hf i ltac:(set_solver))).
  destruct l as [|j l]; [done|].
  rewrite IH; [|done|by apply (settle_ok s Hok)| |intros; apply HF; set_solver].
  - unfold settled. cbn. destruct Hok as [Hwf _]. by rewrite settle_settle.
  - intros k Hk. apply settle_free, Hf. set_solver.
Qed.

Lemma elem_of_procs_idx i : i ∈ procs_idx <-> (i < NPROC)%nat.
Proof. unfold procs_idx. rewrite elem_of_seq. lia. Qed.

(** * wakeup *)

(** What [wakeup] does to one process. *)
Definition wake1 (chan : kptr) (p : proc) : proc :=
  if decide (p_chan p = chan) then
    if decide (p_state p = SLEEPING) then set_state RUNNABLE (set_chan NULL p) else set_chan NULL p
  else p.

Lemma alter_alter {A} (f g : A -> A) i (l : list A) : alter f i (alter g i l) = alter (f ∘ g) i l.
Proof.
  apply list_eq. intros j. destruct (decide (i = j)) as [->|Hne].
  - rewrite !list_lookup_alter_eq. by destruct (l !! j).
  - by rewrite !list_lookup_alter_ne.
Qed.

Lemma the_proc_lookup s i p : k_procs s !! i = Some p -> the_proc i s = p.
Proof. intros E. unfold the_proc. by rewrite (list_lookup_total_correct _ _ _ E). Qed.

Lemma alter_the {A} `{Inhabited A} (f g : A -> A) i (l : list A) :
  f (l !!! i) = g (l !!! i) -> alter f i l = alter g i l.
Proof.
  intros Hfg. apply list_eq. intros j. destruct (decide (i = j)) as [->|Hne].
  - rewrite !list_lookup_alter_eq. destruct (l !! j) as [x|] eqn:E; [|done].
    rewrite (list_lookup_total_correct _ _ _ E) in Hfg. simpl. by rewrite Hfg.
  - by rewrite !list_lookup_alter_ne.
Qed.

Lemma alter_id_the {A} `{Inhabited A} (f : A -> A) i (l : list A) :
  f (l !!! i) = l !!! i -> alter f i l = l.
Proof.
  intros Hf. apply list_eq. intros j. destruct (decide (i = j)) as [->|Hne].
  - rewrite list_lookup_alter_eq. destruct (l !! j) as [x|] eqn:E; [|done].
    rewrite (list_lookup_total_correct _ _ _ E) in Hf. simpl. by rewrite Hf.
  - by rewrite list_lookup_alter_ne.
Qed.

Lemma with_procs_id s : with_procs (k_procs s) s = s.
Proof. by destruct s. Qed.

Lemma wakeup_body i chan s :
  (p ← gets (the_proc i);
   if decide (p_chan p = chan) then
     upd_proc i (set_chan NULL);;
     (if decide (p_state p = SLEEPING) then upd_proc i (set_state RUNNABLE) else mret tt)
   else mret tt) s = Ok tt (with_procs (alter (wake1 chan) i (k_procs s)) s).
Proof.
  mstep. case_decide as Hc; [|].
  - unfold upd_proc. mstep. case_decide as Hs; unfold modify, mret, M_ret; cbn.
    + rewrite alter_alter, (alter_the _ (wake1 chan)); [done|]. unfold compose, wake1.
      change (k_procs s !!! i) with (the_proc i s). by rewrite !decide_True.
    + rewrite (alter_the _ (wake1 chan)); [done|]. unfold wake1.
      change (k_procs s !!! i) with (the_proc i s). by rewrite decide_True, decide_False.
  - unfold mret, M_ret. rewrite alter_id_the; [by rewrite with_procs_id|].
    unfold wake1. change (k_procs s !!! i) with (the_proc i s). by rewrite decide_False.
Qed.

Lemma wakeup_ok s chan :
  k_ok s -> wakeup chan s = Ok tt (with_procs (wake1 chan <$> k_procs s) (settled s)).
Proof.
  intros [Hok Hn Hf]. unfold wakeup. rewrite <- (foldl_alter_fmap (wake1 chan)), Hn.
  apply for_sections; [done|done| |].
  - intros i Hi. by apply Hf, elem_of_procs_idx.
  - intros i s' _ Hok' Hf'.
    etransitivity; [|exact (proc_section s' i _ _ Hok' Hf' (wakeup_body i chan _))].
    unfold mbind, M_bind. destruct (lk (acquire _) s'); [|done|done].
    cbn. by repeat case_decide.
Qed.

(** A state whose remembered enable bit is up to date: after any section. *)
Definition at_rest (s : kstate) : Prop := settle (k_lk s) = k_lk s.

Lemma at_rest_settled s : k_ok s -> at_rest (settled s).
Proof. intros [[Hwf _] _ _]. unfold at_rest, settled. cbn. by apply settle_settle. Qed.

Lemma settled_at_rest s : at_rest s -> settled s = s.
Proof. intros E. unfold settled. rewrite E. apply with_lk_id. Qed.

(** Several wakeups. *)
Definition wakes (ws : list kptr) (p : proc) : proc := foldl (fun p c => wake1 c p) p ws.

Lemma wakeups_ok ws : forall s,
  k_ok s -> at_rest s -> for_each ws wakeup s = Ok tt (with_procs (wakes ws <$> k_procs s) s).
Proof.
  induction ws as [|c ws IH]; intros s Hok Hr; cbn [for_each].
  - unfold mret, M_ret. replace (wakes [] <$> k_procs s) with (k_procs s);
      [by rewrite with_procs_id|]. symmetry. apply list_fmap_id.
  - mrun (wakeup_ok s c Hok). rewrite (settled_at_rest s Hr), IH.
    + f_equal. cbn. by rewrite <- list_fmap_compose.
    + apply k_ok_procs; [done|]. rewrite length_fmap. apply Hok.
    + exact Hr.
Qed.

Lemma wake1_chan c p : p_chan (wake1 c p) = if decide (p_chan p = c) then NULL else p_chan p.
Proof. unfold wake1. by repeat case_decide. Qed.

Lemma wake1_state c p : p_state (wake1 c p) =
  if decide (p_chan p = c /\ p_state p = SLEEPING) then RUNNABLE else p_state p.
Proof. unfold wake1. repeat case_decide; naive_solver. Qed.

Lemma wakes_chan ws : forall p,
  p_chan (wakes ws p) = if decide (p_chan p ∈ ws) then NULL else p_chan p.
Proof.
  induction ws as [|c ws IH]; intros p; [by rewrite decide_False by set_solver|].
  cbn [wakes foldl]. fold (wakes ws (wake1 c p)). rewrite IH, wake1_chan.
  repeat case_decide; set_solver.
Qed.

Lemma wakes_state ws : forall p, p_state p <> SLEEPING -> p_state (wakes ws p) = p_state p.
Proof.
  induction ws as [|c ws IH]; intros p Hp; [done|].
  cbn [wakes foldl]. fold (wakes ws (wake1 c p)).
  assert (p_state (wake1 c p) = p_state p) as E
    by (rewrite wake1_state; rewrite decide_False; naive_solver).
  rewrite IH; congruence.
Qed.

(** The process table after some wakeups. *)
Definition woken (s s' : kstate) : Prop := exists ws, k_procs s' = wakes ws <$> k_procs s.

Lemma woken_same s s' : k_procs s' = k_procs s -> woken s s'.
Proof. intros E. exists []. rewrite E. symmetry. apply list_fmap_id. Qed.

Lemma woken_one s s' c : k_procs s' = wake1 c <$> k_procs s -> woken s s'.
Proof. intros E. by exists [c]. Qed.

Lemma woken_trans s1 s2 s3 : woken s1 s2 -> woken s2 s3 -> woken s1 s3.
Proof.
  intros [ws1 E1] [ws2 E2]. exists (ws1 ++ ws2). rewrite E2, E1, <- list_fmap_compose.
  apply list_fmap_ext. intros i p _. unfold compose, wakes. by rewrite foldl_app.
Qed.

(** * Small sections *)

Lemma upd_section s i f :
  lk_ok s -> lock_free (L_proc i) (k_lk s) ->
  (lk (acquire (L_proc i));; upd_proc i f;; lk (release (L_proc i))) s =
  Ok tt (with_procs (alter f i (k_procs s)) (settled s)).
Proof. intros Hok Hf. by apply proc_section. Qed.

Lemma setkilled_ok s i : k_ok s -> (i < NPROC)%nat ->
  setkilled i s = Ok tt (with_procs (alter (set_killed 1) i (k_procs s)) (settled s)).
Proof. intros [Hok _ Hf] Hi. by apply upd_section; [|apply Hf]. Qed.

Lemma killed_ok s i : k_ok s -> (i < NPROC)%nat ->
  killed i s = Ok (p_killed (the_proc i s)) (settled s).
Proof.
  intros [Hok _ Hf] Hi. unfold killed. mrun (acquire_run _ s Hok (Hf i Hi)). mstep.
  destruct Hok as [Hwf Hirq].
  by rewrite (bind_ok _ _ _ _ _ (release_run _ (with_lk (acquired (L_proc i) (k_lk s)) s) (k_lk s)
    Hwf Hirq (Hf i Hi) eq_refl)).
Qed.

(** The current process. *)
Definition running_as (i : nat) (s : kstate) : Prop :=
  (i < NPROC)%nat /\ c_proc (mycpu (k_lk s)) = Some i.

Lemma running_as_settled i s : k_ok s -> running_as i s -> running_as i (settled s).
Proof. intros [[Hwf _] _ _] [Hi E]. split; [done|]. cbn. by rewrite settle_cproc. Qed.

Lemma mine_ok s i : k_ok s -> running_as i s -> mine s = Ok i (settled s).
Proof. intros [Hok _ _] [_ E]. by apply mine_run. Qed.

Lemma sleep_prepare_ok s i chan : k_ok s -> running_as i s ->
  sleep_prepare chan s = Ok tt (with_procs (alter (set_chan chan) i (k_procs s)) (settled s)).
Proof.
  intros Hok Hr. unfold sleep_prepare. mrun (mine_ok s i Hok Hr).
  pose proof (settled_ok s Hok) as Hok1. destruct Hr as [Hi _].
  rewrite (upd_section _ i (set_chan chan) (ok_lk _ Hok1) (ok_free _ Hok1 i Hi)).
  by rewrite settled_settled.
Qed.

(** The saved position of a thread that sleeps or exits. *)
Definition parked (k : kcont) (ie : bool) (p : proc) : proc :=
  set_context (mkContext (PC_sched k ie) (ctx_sp (p_context p))) p.

Lemma acquired_intena x l : lk_wf l -> c_noff (mycpu l) = 0 ->
  c_intena (mycpu (acquired x l)) = intr_get (l_hart l) /\ intr_get (l_hart (acquired x l)) = false.
Proof.
  intros Hwf. pose proof Hwf as (Hh & _ & _). lk_destruct l Hwf. unfold acquired, set_locked.
  rewrite pushed_cons, !mycpu_cons by done. cbn. intros E. rewrite mycpu_cons by done. cbn.
  rewrite E. split; [done|]. by apply intr_get_off.
Qed.

Lemma acquired_holding x l : holding x (acquired x l) = true.
Proof. unfold holding, the_lock, acquired, set_locked; cbn. by rewrite lookup_insert_eq. Qed.

(** [sched] switches away from the holder of its own lock alone. *)
Lemma sched_ok s i k l :
  lk_wf l -> irq_ok l -> c_noff (mycpu l) = 0 -> c_proc (mycpu l) = Some i ->
  k_lk s = acquired (L_proc i) l -> p_state (the_proc i s) <> RUNNING ->
  sched k s = Ok tt (with_procs (alter (parked k (intr_get (l_hart l))) i (k_procs s)) s).
Proof.
  intros Hwf Hirq Hn Hc E Hs. unfold sched.
  assert (lk_ok s) as Hok.
  { split; rewrite E; [by apply acquired_wf|by apply acquired_irq]. }
  assert (at_rest s) as Hr by (unfold at_rest; rewrite E; by apply settle_acquired).
  rewrite (bind_ok _ _ _ _ _ (mine_run s i Hok ltac:(rewrite E; by rewrite acquired_cproc))).
  rewrite (settled_at_rest s Hr). mstep. rewrite E, acquired_holding. cbn [negb].
  mstep. rewrite E, acquired_noff, Hn by done. change (negb (0 + 1 =? 1)) with false. cbv iota.
  mstep. rewrite decide_False by done. unfold csr. mstep. rewrite E. destruct (acquired_intena (L_proc i) l Hwf Hn) as [-> ->]. done.
Qed.

Lemma sleep_ok s i k : k_ok s -> running_as i s -> c_noff (mycpu (k_lk s)) = 0 -> at_rest s ->
  sleep k s =
  if decide (p_chan (the_proc i s) = NULL) then Ok false s
  else Ok true (with_procs
    (alter (parked k (intr_get (l_hart (k_lk s))) ∘ set_state SLEEPING) i (k_procs s))
    (with_lk (acquired (L_proc i) (k_lk s)) s)).
Proof.
  intros Hok Hr Hn Hrest. unfold sleep. mrun (mine_ok s i Hok Hr).
  rewrite settled_at_rest by done. destruct Hr as [Hi Hc]. destruct Hok as [Hok Hlen Hf].
  pose proof Hok as [Hwf Hirq]. mrun (acquire_run _ s Hok (Hf i Hi)). mstep.
  change (the_proc i (with_lk _ s)) with (the_proc i s). case_decide as Hch.
  - rewrite (bind_ok _ _ _ _ _ (release_run _ (with_lk (acquired (L_proc i) (k_lk s)) s) (k_lk s)
      Hwf Hirq (Hf i Hi) eq_refl)).
    unfold mret, M_ret. rewrite with_lk_lk, Hrest. by rewrite with_lk_id.
  - unfold upd_proc at 1. mstep.
    erewrite bind_ok; [|apply (sched_ok _ i k (k_lk s)); try done].
    + unfold mret, M_ret. cbn. by rewrite alter_alter.
    + unfold the_proc. cbn. rewrite list_lookup_total_alter_eq by lia. done.
Qed.

(** The scheduler's [c->proc = ...] inside and outside a section. *)
Definition on_cpu (p : option nat) (l : lkst) : lkst := upd_mycpu (set_cproc p) l.

Lemma on_cpu_acquired x p l : lk_wf l -> on_cpu p (acquired x l) = acquired x (on_cpu p l).
Proof.
  intros Hwf. lk_destruct l Hwf. unfold on_cpu, acquired. rewrite upd_mycpu_cons by done.
  rewrite !pushed_cons by done. unfold set_locked, the_lock; cbn. rewrite upd_mycpu_cons by done.
  by destruct (c_noff c =? 0).
Qed.

Lemma on_cpu_wf p l : lk_wf l -> lk_wf (on_cpu p l).
Proof.
  intros Hwf. lk_destruct l Hwf. unfold on_cpu. rewrite upd_mycpu_cons by done. by split_and!.
Qed.

Lemma on_cpu_irq p l : lk_wf l -> irq_ok l -> irq_ok (on_cpu p l).
Proof.
  intros Hwf. lk_destruct l Hwf. unfold on_cpu, irq_ok. rewrite upd_mycpu_cons by done.
  by rewrite !mycpu_cons.
Qed.

Lemma on_cpu_free x p l : lock_free x l -> lock_free x (on_cpu p l).
Proof. done. Qed.

Lemma on_cpu_cproc p l : lk_wf l -> c_proc (mycpu (on_cpu p l)) = p.
Proof.
  intros Hwf. lk_destruct l Hwf. unfold on_cpu. rewrite upd_mycpu_cons by done. by rewrite mycpu_cons.
Qed.

Lemma on_cpu_noff p l : lk_wf l -> c_noff (mycpu (on_cpu p l)) = c_noff (mycpu l).
Proof.
  intros Hwf. lk_destruct l Hwf. unfold on_cpu. rewrite upd_mycpu_cons by done. by rewrite !mycpu_cons.
Qed.

Lemma scheduler_back_ok s i l :
  lk_wf l -> irq_ok l -> lock_free (L_proc i) l -> k_lk s = acquired (L_proc i) l ->
  scheduler_back i s = Ok tt (with_lk (settle (on_cpu None l)) s).
Proof.
  intros Hwf Hi Hf E. unfold scheduler_back.
  rewrite (bind_ok _ _ s tt (with_lk (acquired (L_proc i) (on_cpu None l)) s)).
  - rewrite (release_run _ _ (on_cpu None l)); [done|by apply on_cpu_wf|by apply on_cpu_irq|done|done].
  - apply lk_run. unfold modify. rewrite E. by rewrite <- on_cpu_acquired.
Qed.

Lemma alter_length_ok {A} (f : A -> A) i (l : list A) n : length l = n -> length (alter f i l) = n.
Proof. intros <-. apply length_alter. Qed.

(** C3: no wakeup is lost.  A process announces its channel
    ([sleep_prepare]), the lock of the condition is released, any number of
    wakeups, on any channels, may come in, and only then it calls [sleep]:
    it goes to sleep exactly when its channel was not among them; when it
    does, it is SLEEPING on that channel and the next wakeup of the channel
    makes it RUNNABLE. *)
Theorem no_lost_wakeup s i chan ws k :
  k_ok s -> running_as i s -> c_noff (mycpu (k_lk s)) = 0 ->
  p_state (the_proc i s) = RUNNING -> chan <> NULL ->
  exists b s', (sleep_prepare chan;; for_each ws wakeup;; sleep k) s = Ok b s' /\
    (b = false <-> chan ∈ ws) /\
    (b = false -> p_state (the_proc i s') = RUNNING) /\
    (b = true -> p_state (the_proc i s') = SLEEPING /\ p_chan (the_proc i s') = chan /\
       exists s2, (scheduler_back i;; wakeup chan) s' = Ok tt s2 /\
         p_state (the_proc i s2) = RUNNABLE).
Proof.
  intros Hok Hr Hn Hst Hch. pose proof Hr as [Hi Hc].
  assert (i < length (k_procs s))%nat as Hlt by (rewrite (ok_len _ Hok); lia).
  mrun (sleep_prepare_ok s i chan Hok Hr).
  set (s1 := with_procs _ (settled s)).
  assert (k_ok s1) as Hok1.
  { apply k_ok_procs; [by apply settled_ok|]. apply alter_length_ok, Hok. }
  assert (at_rest s1) as Hr1 by (by apply at_rest_settled).
  mrun (wakeups_ok ws s1 Hok1 Hr1). set (s2 := with_procs _ s1).
  assert (k_ok s2) as Hok2.
  { apply k_ok_procs; [done|]. rewrite length_fmap. apply Hok1. }
  assert (the_proc i s2 = wakes ws (set_chan chan (the_proc i s))) as Ep.
  { unfold the_proc. cbn. rewrite lookup_total_fmap_proc by (by rewrite length_alter).
    by rewrite list_lookup_total_alter_eq. }
  assert (c_noff (mycpu (k_lk s2)) = 0) as Hn2.
  { cbn. rewrite settle_noff; [done|]. apply (ok_lk _ Hok). }
  rewrite (sleep_ok s2 i k Hok2 (running_as_settled i s Hok Hr) Hn2 Hr1).
  rewrite Ep, wakes_chan. cbn [set_chan p_chan]. destruct (decide (chan ∈ ws)) as [Hin|Hin].
  - rewrite decide_True by done. exists false, s2. split; [done|]. split; [done|]. split; [|done].
    intros _. rewrite Ep, wakes_state; cbn; [done|congruence].
  - rewrite decide_False by done. set (s3 := with_procs _ _).
    assert (i < length (k_procs s2))%nat as Hlt2 by (rewrite (ok_len _ Hok2); lia).
    assert (p_state (the_proc i s3) = SLEEPING /\ p_chan (the_proc i s3) = chan) as [Es Ec].
    { change (the_proc i s3) with
        (alter (parked k (intr_get (l_hart (k_lk s2))) ∘ set_state SLEEPING) i (k_procs s2) !!! i).
      rewrite list_lookup_total_alter_eq by done. split; [done|].
      change (p_chan (the_proc i s2) = chan). rewrite Ep, wakes_chan.
      by rewrite decide_False. }
    exists true, s3. split; [done|]. split; [done|]. split; [done|].
    intros _. split; [done|]. split; [done|].
    destruct Hok2 as [[Hwf2 Hirq2] Hlen2 Hfree2].
    mrun (scheduler_back_ok s3 i (k_lk s2) Hwf2 Hirq2 (Hfree2 i Hi) eq_refl).
    assert (k_ok (with_lk (settle (on_cpu None (k_lk s2))) s3)) as Hok4.
    { split; [split; cbn; [by apply settle_wf, on_cpu_wf|by apply settle_irq; [apply on_cpu_wf|apply on_cpu_irq]]| |].
      - by apply alter_length_ok.
      - intros j Hj. by apply settle_free, on_cpu_free, Hfree2. }
    rewrite (wakeup_ok _ chan Hok4). eexists. split; [done|].
    unfold the_proc. cbn [k_procs with_procs settled with_lk].
    rewrite lookup_total_fmap_proc by (by rewrite (ok_len _ Hok4 : length (k_procs s3) = NPROC)).
    change (k_procs s3 !!! i) with (the_proc i s3).
    rewrite wake1_state. by rewrite decide_True.
Qed.
End ProcSpec.

Lemma demo_k_ok v inp : k_ok (demo_k v inp).
Proof. split; [apply demo_lk_ok|done|]. intros i Hi. by apply demo_locks_free. Qed.

Lemma no_lost_wakeup_witness :
  exists b s', (sleep_prepare P_cons_r;; for_each [P_ticks; P_cons_r] wakeup;; sleep (K_kwait 0))
      (demo_k (mkVm ∅ KERNBASE) []) = Ok b s' /\ (b = false <-> P_cons_r ∈ [P_ticks; P_cons_r]).
Proof.
  destruct (no_lost_wakeup (demo_k (mkVm ∅ KERNBASE) []) 0%nat P_cons_r [P_ticks; P_cons_r] (K_kwait 0))
    as (b & s' & E & Hb & _).
  - apply demo_k_ok.
  - split; [unfold NPROC; lia|reflexivity].
  - reflexivity.
  - reflexivity.
  - discriminate.
  - exists b, s'. split; [exact E|exact Hb].
Defined.
