(* ===== verification/Console.v ===== *)
(** kernel/console.c, the input half: the ring buffer between the UART
    interrupt and the readers, and the console's read and write. *)

From stdpp Require Import base gmap list strings numbers.
From Stdlib Require Import ZArith Lia.
From S2P Require Import Prelude Mem KString Riscv Kdefs Spinlock Vm Printf KState Uart Proc.

Section Console.
Context `{Machine}.

(** [cons.buf[cons.e++ % INPUT_BUF_SIZE] = c; cons.w = cons.e] on [uint]s. *)
Definition cons_push (c : Z) (b : consbuf) : consbuf :=
  let e := u32 (cb_e b + 1) in
  mkCons (store8 (cb_buf b) (cb_e b mod INPUT_BUF_SIZE) c) (cb_r b) e e.

Definition consoleintr (c : Z) : M kstate unit :=
  lk (acquire L_cons);;
  b ← gets k_cons;
  (if negb (c =? 0) && (u32 (cb_e b - cb_r b) <? INPUT_BUF_SIZE) then
     let c := if c =? 13 then 10 else c in
     consputc c;;
     modify (fun s => with_cons (cons_push c (k_cons s)) s);;
     wakeup P_cons_r
   else mret tt);;
  lk (release L_cons).

Fixpoint uartintr_loop (fuel : nat) : M kstate unit :=
  match fuel with
  | O => out_of_fuel
  | S f =>
      c ← uartgetc;
      if c =? -1 then mret tt else consoleintr c;; uartintr_loop f
  end.

Definition uartintr : M kstate unit :=
  ReadReg ISR;;
  f ← gets (fun s => rx_fuel (k_uart s));
  uartintr_loop f.

(** [c = cons.buf[cons.r++ % INPUT_BUF_SIZE]] *)
Definition cons_pop (b : consbuf) : Z * consbuf :=
  (load8 (cb_buf b) (cb_r b mod INPUT_BUF_SIZE),
   mkCons (cb_buf b) (u32 (cb_r b + 1)) (cb_w b) (cb_e b)).

(** The outer loop of [consoleread], with [cons.lock] held; each round that
    goes on takes one character.  [p] is the reading process. *)
Fixpoint consoleread_loop (fuel : nat) (user_dst : bool) (dst n target : Z) : M kstate kres :=
  if n <=? 0 then lk (release L_cons);; mret (KRet (s32 (target - n))) else
  match fuel with
  | O => out_of_fuel
  | S f =>
      b ← gets k_cons;
      if cb_r b =? cb_w b then
        i ← mine;
        k ← killed i;
        if negb (k =? 0) then lk (release L_cons);; mret (KRet (-1)) else
        sleep_prepare P_cons_r;;
        lk (release L_cons);;
        mret (KWindow (K_consoleread user_dst dst n target))
      else
        let '(c, b') := cons_pop b in
        modify (with_cons b');;
        r ← either_copyout user_dst dst (There (fun _ => c) 0) 1;
        if r =? -1 then lk (release L_cons);; mret (KRet (s32 (target - n))) else
        let dst := u64 (dst + 1) in
        let n := n - 1 in
        if c =? 10 then lk (release L_cons);; mret (KRet (s32 (target - n))) else
        consoleread_loop f user_dst dst n target
  end.

Definition consoleread (user_dst : bool) (dst n : Z) : M kstate kres :=
  lk (acquire L_cons);;
  consoleread_loop (Z.to_nat n + 1) user_dst dst n (u32 n).

(** [consoleread] after the [sleep()] of a round. *)
Definition consoleread_resume (user_dst : bool) (dst n target : Z) : M kstate kres :=
  lk (acquire L_cons);;
  consoleread_loop (Z.to_nat n + 1) user_dst dst n target.

(** The rounds of [consolewrite], 32 bytes each; [buf] is its array. *)
Fixpoint consolewrite_loop (fuel : nat) (buf : mem) (user_src : bool) (src n i : Z) : M kstate Z :=
  if n <=? i then mret i else
  match fuel with
  | O => out_of_fuel
  | S f =>
      let nn := if n - i <? 32 then n - i else 32 in
      '(r, buf) ← either_copyin buf user_src (u64 (src + i)) nn;
      if r =? -1 then mret i else
      for_each (zseq 0 (Z.to_nat nn)) (fun j => uartputc_sync (load8 buf j));;
      consolewrite_loop f buf user_src src n (i + nn)
  end.

Definition consolewrite (user_src : bool) (src n : Z) : M kstate Z :=
  consolewrite_loop (Z.to_nat n + 1) ∅ user_src src n 0.

Definition consoleinit : M kstate unit :=
  lk (initlock L_cons "cons");;
  uartinit.
End Console.
