(* ===== verification/ConsoleSpec.v ===== *)
(** The console's input side implements a bounded queue: the ring buffer with
    free-running 32-bit indices, the interrupt handler that fills it and the
    reader that empties it (kernel/console.c). *)

From stdpp Require Import base gmap list strings numbers.
From Stdlib Require Import ZArith Lia.
From S2P Require Import Prelude Mem KString Riscv Kdefs Spinlock Vm PageTable UserVm UserCopy Printf KState Uart Proc ProcSpec Console.

(** * The ring *)

(** The characters between the read and the write index. *)
Definition cons_q (b : consbuf) : list Z :=
  (fun j => load8 (cb_buf b) ((cb_r b + j) mod 128)) <$> zseq 0 (Z.to_nat (u32 (cb_e b - cb_r b))).

(** The indices are [uint]s, at most a buffer apart; in the character-stream
    mode everything typed is available to the reader. *)
Record cons_wf (b : consbuf) : Prop := {
  cw_r : 0 <= cb_r b < 2 ^ 32;
  cw_e : 0 <= cb_e b < 2 ^ 32;
  cw_w : cb_w b = cb_e b;
  cw_len : u32 (cb_e b - cb_r b) <= 128
}.

Lemma u32_sub_add x y : u32 (u32 (x + 1) - y) = u32 (u32 (x - y) + 1).
Proof.
  unfold u32. rewrite Zminus_mod_idemp_l, Zplus_mod_idemp_l. f_equal. lia.
Qed.

Lemma u32_sub_succ x y : u32 (x - u32 (y + 1)) = u32 (u32 (x - y) - 1).
Proof.
  unfold u32. rewrite Zminus_mod_idemp_r, Zminus_mod_idemp_l. f_equal. lia.
Qed.

(** 128 divides 2^32: the wrap-around of the indices is invisible. *)
Lemma u32_mod_128 x : u32 x mod 128 = x mod 128.
Proof.
  unfold u32. change (2 ^ 32) with (128 * 2 ^ 25). rewrite Z.rem_mul_r by lia.
  rewrite Z.mul_comm, Z_mod_plus_full. apply Z.mod_mod. lia.
Qed.

Lemma add_u32_mod r j e : 0 <= r < 2 ^ 32 -> 0 <= e < 2 ^ 32 -> j = u32 (e - r) ->
  (r + j) mod 128 = e mod 128.
Proof.
  intros Hr He ->. rewrite <- (u32_mod_128 (r + _)). f_equal.
  unfold u32. rewrite Zplus_mod_idemp_r. replace (r + (e - r)) with e by lia.
  apply Z.mod_small. lia.
Qed.

Lemma cons_q_length b : length (cons_q b) = Z.to_nat (u32 (cb_e b - cb_r b)).
Proof. unfold cons_q. by rewrite length_fmap, zseq_length. Qed.

Lemma cons_q_lookup b j : (j < length (cons_q b))%nat ->
  cons_q b !! j = Some (load8 (cb_buf b) ((cb_r b + Z.of_nat j) mod 128)).
Proof.
  intros Hj. rewrite cons_q_length in Hj. unfold cons_q.
  rewrite list_lookup_fmap, zseq_lookup by done. done.
Qed.

(** Two slots of the window are different cells. *)
Lemma slot_ne r i j : 0 <= i < 128 -> 0 <= j < 128 -> i <> j -> (r + i) mod 128 <> (r + j) mod 128.
Proof.
  intros Hi Hj Hne E. apply Hne.
  pose proof (Z.div_mod (r + i) 128 ltac:(lia)). pose proof (Z.div_mod (r + j) 128 ltac:(lia)). lia.
Qed.

Lemma cons_push_ok c b :
  cons_wf b -> (length (cons_q b) < 128)%nat ->
  cons_wf (cons_push c b) /\ cons_q (cons_push c b) = cons_q b ++ [u8 c].
Proof.
  intros [Hr He Hw Hl] Hlt. rewrite cons_q_length in Hlt.
  pose proof (u32_range (cb_e b - cb_r b)) as Hn. set (n := u32 (cb_e b - cb_r b)) in *.
  assert (u32 (u32 (cb_e b + 1) - cb_r b) = n + 1) as Hn1.
  { rewrite u32_sub_add. fold n. apply u32_small. lia. }
  split.
  - split; cbn; [done|apply u32_range|done|lia].
  - apply list_eq. intros j. destruct (decide (j < Z.to_nat (n + 1))%nat) as [Hj|Hj].
    + rewrite (cons_q_lookup (cons_push c b)) by (rewrite cons_q_length; cbn; by rewrite Hn1).
      cbn [cb_buf cb_r cons_push]. change INPUT_BUF_SIZE with 128.
      destruct (decide (Z.of_nat j = n)) as [E|E].
      * rewrite E. rewrite (add_u32_mod _ n (cb_e b)) by done. rewrite load8_store8_eq.
        rewrite lookup_app_r by (rewrite cons_q_length; fold n; lia).
        rewrite cons_q_length. fold n. replace (j - Z.to_nat n)%nat with 0%nat by lia. done.
      * rewrite load8_store8_ne.
        -- rewrite lookup_app_l by (rewrite cons_q_length; fold n; lia).
           rewrite cons_q_lookup by (rewrite cons_q_length; fold n; lia). done.
        -- rewrite <- (add_u32_mod (cb_r b) n (cb_e b)) by done. apply slot_ne; lia.
    + rewrite !lookup_ge_None_2; [done| |].
      * rewrite length_app, cons_q_length. fold n. simpl. lia.
      * rewrite cons_q_length. cbn. rewrite Hn1. lia.
Qed.

Lemma cons_pop_ok b :
  cons_wf b -> cb_r b <> cb_w b ->
  cons_wf (cons_pop b).2 /\ cons_q b = (cons_pop b).1 :: cons_q (cons_pop b).2.
Proof.
  intros [Hr He Hw Hl] Hne. rewrite Hw in Hne.
  pose proof (u32_range (cb_e b - cb_r b)) as Hn. set (n := u32 (cb_e b - cb_r b)) in *.
  assert (n <> 0) as Hn0.
  { intros E. apply Hne. unfold n, u32 in E. apply Z.mod_divide in E as [q Hq]; [|lia].
    assert (q = 0) by lia. lia. }
  assert (u32 (cb_e b - u32 (cb_r b + 1)) = n - 1) as Hn1.
  { rewrite u32_sub_succ. fold n. apply u32_small. lia. }
  split.
  - split; cbn; [apply u32_range|done|done|lia].
  - apply list_eq. intros [|j].
    + rewrite cons_q_lookup by (rewrite cons_q_length; fold n; lia). cbn. by rewrite Z.add_0_r.
    + change ((?c :: ?q) !! S j) with (q !! j). destruct (decide (j < Z.to_nat (n - 1))%nat) as [Hj|Hj].
      * rewrite (cons_q_lookup b) by (rewrite cons_q_length; fold n; lia).
        rewrite (cons_q_lookup (cons_pop b).2) by (rewrite cons_q_length; cbn; by rewrite Hn1).
        cbn. do 2 f_equal. rewrite <- (Zplus_mod_idemp_l (u32 _)), u32_mod_128, Zplus_mod_idemp_l.
        f_equal. lia.
      * rewrite !lookup_ge_None_2; [done| |].
        -- rewrite cons_q_length. cbn. rewrite Hn1. lia.
        -- rewrite cons_q_length. fold n. lia.
Qed.

Lemma cons_empty b : cons_wf b -> cb_r b = cb_w b <-> cons_q b = [].
Proof.
  intros Hwf. split.
  - intros E. apply nil_length_inv. rewrite cons_q_length, <- (cw_w _ Hwf), E, Z.sub_diag. done.
  - intros E. destruct (decide (cb_r b = cb_w b)) as [|Hne]; [done|].
    apply (cons_pop_ok b Hwf) in Hne as [_ Hq]. congruence.
Qed.

Section ConsoleSpec.
Context `{Machine} `{!UartLaws}.
Implicit Types s : kstate.

(** * The interrupt handler *)

(** The abstract console: the queue of characters typed and not read, and
    what has been sent to the terminal. *)
Definition tty (s : kstate) : list Z * list Z := (cons_q (k_cons s), uart_out (k_uart s)).

Definition norm (c : Z) : Z := if c =? 13 then 10 else c.

Definition accepts (q : list Z) (c : Z) : Prop := c <> 0 /\ (length q < 128)%nat.
#[export] Instance accepts_dec q c : Decision (accepts q c).
Proof. apply and_dec; apply _. Defined.

(** A character is echoed and queued, or ignored. *)
Definition tty_step (t : list Z * list Z) (c : Z) : list Z * list Z :=
  if decide (accepts t.1 c) then (t.1 ++ [norm c], t.2 ++ [norm c]) else t.

Record con_ok (s : kstate) : Prop := {
  con_k : k_ok s;
  con_lock : lock_free L_cons (k_lk s);
  con_wf : cons_wf (k_cons s)
}.

(** What the console does not touch. *)
Record frame (s s' : kstate) : Prop := {
  fr_vm : k_vm s' = k_vm s;
  fr_emitted : k_emitted s' = k_emitted s;
  fr_plic : k_plic s' = k_plic s;
  fr_ticks : k_ticks s' = k_ticks s;
  fr_nextpid : k_nextpid s' = k_nextpid s;
  fr_init : k_initproc s' = k_initproc s;
  fr_first : k_first s' = k_first s;
  fr_kpgtbl : k_kpgtbl s' = k_kpgtbl s
}.

Lemma frame_refl s : frame s s.
Proof. by split. Qed.

Lemma frame_trans s1 s2 s3 : frame s1 s2 -> frame s2 s3 -> frame s1 s3.
Proof. intros [] []. split; congruence. Qed.

Lemma norm_range c : 0 <= c < 256 -> 0 <= norm c < 256.
Proof. unfold norm. zcase; lia. Qed.

Lemma con_full_test s c : con_ok s ->
  negb (c =? 0) && (u32 (cb_e (k_cons s) - cb_r (k_cons s)) <? INPUT_BUF_SIZE) =
  bool_decide (accepts (cons_q (k_cons s)) c).
Proof.
  intros Hok. apply Bool.eq_iff_eq_true.
  rewrite bool_decide_eq_true, andb_true_iff, negb_true_iff, Z.eqb_neq, Z.ltb_lt.
  unfold accepts. rewrite cons_q_length. change INPUT_BUF_SIZE with 128.
  pose proof (u32_range (cb_e (k_cons s) - cb_r (k_cons s))). lia.
Qed.

(** The section of [cons.lock]: how it begins and ends. *)
Lemma cons_enter s : con_ok s ->
  lk (acquire L_cons) s = Ok tt (with_lk (acquired L_cons (k_lk s)) s) /\
  k_ok (with_lk (acquired L_cons (k_lk s)) s) /\ at_rest (with_lk (acquired L_cons (k_lk s)) s).
Proof.
  intros [Hk Hl _]. pose proof (ok_lk _ Hk) as Hlk. split; [by apply acquire_run|].
  destruct (k_ok_acquired s L_cons Hk ltac:(done) Hl) as [Hk' _]. split; [done|].
  unfold at_rest. cbn. destruct Hlk. by apply settle_acquired.
Qed.

Lemma cons_leave s s0 : con_ok s0 -> k_lk s = acquired L_cons (k_lk s0) ->
  lk (release L_cons) s = Ok tt (with_lk (settle (k_lk s0)) s).
Proof. intros [Hk Hl _] E. destruct (ok_lk _ Hk) as [Hwf Hi]. by apply release_run. Qed.

(** After the section the console is well formed if its buffer is. *)
Lemma cons_after s s' : con_ok s -> k_lk s' = settle (k_lk s) -> length (k_procs s') = NPROC ->
  cons_wf (k_cons s') -> con_ok s'.
Proof.
  intros [[[Hwf Hi] Hn Hf] Hl Hc] E Hp Hc'. split; [split; [split| |]| |done]; rewrite ?E; try done.
  - by apply settle_wf.
  - by apply settle_irq.
  - intros i Hlt. by apply settle_free, Hf.
  - by apply settle_free.
Qed.

Lemma consoleintr_ok s c :
  con_ok s -> 0 <= c < 256 ->
  exists s', consoleintr c s = Ok tt s' /\ con_ok s' /\ frame s s' /\
    k_lk s' = settle (k_lk s) /\ tty s' = tty_step (tty s) c /\
    uart_in (k_uart s') = uart_in (k_uart s) /\
    k_procs s' = (if decide (accepts (cons_q (k_cons s)) c)
                  then wake1 P_cons_r <$> k_procs s else k_procs s).
Proof.
  intros Hok Hc. unfold consoleintr. destruct (cons_enter s Hok) as (E1 & Hk1 & Hr1). mrun E1.
  set (s1 := with_lk _ s) in *. mstep. change (k_cons s1) with (k_cons s).
  rewrite (con_full_test s c Hok). unfold tty, tty_step. cbn [fst snd].
  destruct (decide (accepts (cons_q (k_cons s)) c)) as [Ha|Ha].
  - rewrite bool_decide_eq_true_2 by done. fold (norm c).
    destruct (uartputc_sync_ok s1 (norm c) (ok_lk _ Hk1)) as (u & E2 & Ho & Hin).
    rewrite Hr1, with_lk_id in E2. unfold consputc. rewrite bind_assoc. mrun E2.
    rewrite bind_assoc. mstep. set (s2 := with_cons _ _).
    assert (k_ok s2) as Hk2 by (by apply (k_ok_same s1)).
    mrun (wakeup_ok s2 P_cons_r Hk2).
    rewrite (settled_at_rest s2 Hr1). set (s3 := with_procs _ s2).
    rewrite (cons_leave s3 s Hok eq_refl). eexists. split; [reflexivity|].
    destruct (cons_push_ok (norm c) (k_cons s) (con_wf _ Hok) (proj2 Ha)) as [Hw Hq].
    split; [apply (cons_after s); try done; cbn; rewrite length_fmap; apply Hok|].
    split; [by split|]. split; [done|]. split; [|split; [exact Hin|done]].
    cbn [k_cons k_uart with_lk with_procs s3 s2 with_cons with_uart s1]. rewrite Hq, Ho.
    by rewrite (u8_small (norm c)) by (by apply norm_range).
  - rewrite bool_decide_eq_false_2 by done. mstep.
    rewrite (cons_leave s1 s Hok eq_refl). eexists. split; [reflexivity|].
    split; [apply (cons_after s); try done; apply Hok|]. by split_and!.
Qed.

Lemma con_ok_uart s u : con_ok s -> con_ok (with_uart u s).
Proof. intros [Hk Hl Hc]. split; [by apply (k_ok_same s)|done|done]. Qed.

(** * uartintr *)

(** Nobody sleeps on the console. *)
Definition no_reader_sleeps (s : kstate) : Prop :=
  Forall (fun p => p_chan p = P_cons_r -> p_state p <> SLEEPING) (k_procs s).

Lemma wake_readers ps : Forall (fun p => p_chan p = P_cons_r -> p_state p <> SLEEPING)
  (wake1 P_cons_r <$> ps).
Proof. apply Forall_fmap, Forall_true. intros p. cbn. rewrite wake1_chan. by case_decide. Qed.

(** Whether one of the characters of a sequence is accepted. *)
Fixpoint some_accepted (t : list Z * list Z) (l : list Z) : Prop :=
  match l with
  | [] => False
  | c :: l => accepts t.1 c \/ some_accepted (tty_step t c) l
  end.

Lemma uartintr_loop_ok fuel : forall s,
  con_ok s -> (length (uart_in (k_uart s)) < fuel)%nat ->
  exists l s', uartintr_loop fuel s = Ok tt s' /\ con_ok s' /\ frame s s' /\
    uart_in (k_uart s) = l ++ uart_in (k_uart s') /\ no_char_ready (k_uart s') /\
    tty s' = foldl tty_step (tty s) l /\
    (some_accepted (tty s) l \/ no_reader_sleeps s -> no_reader_sleeps s') /\
    lk_like (k_lk s) (k_lk s') /\ woken s s'.
Proof.
  induction fuel as [|f IH]; intros s Hok Hf; [lia|]. cbn [uartintr_loop].
  destruct (uartgetc_ok s) as (c & u & E & Ho & Hc). mrun E. set (s1 := with_uart u s).
  assert (con_ok s1) as Hok1 by (by apply con_ok_uart).
  assert (tty s1 = tty s) as Ht1 by (unfold tty; cbn; by rewrite Ho).
  destruct Hc as [(-> & Hin & Hq)|[Hr Hin]].
  - change (-1 =? -1) with true. cbv iota. exists [], s1. split; [done|]. split; [done|].
    split; [by split|]. split; [exact (eq_sym Hin)|]. split; [exact Hq|]. split; [done|].
    split; [by intros [[]|]|]. split; [auto with oslab|by apply woken_same].
  - destruct (Z.eqb_spec c (-1)); [lia|].
    destruct (consoleintr_ok s1 c Hok1 Hr) as (s2 & E2 & Hok2 & F2 & Hlk2 & Ht2 & Hin2 & Hp2).
    mrun E2. rewrite Hin in Hf. cbn [length] in Hf.
    assert (uart_in (k_uart s2) = uart_in u) as Hu2 by exact Hin2.
    destruct (IH s2 Hok2) as (l & s3 & E3 & Hok3 & F3 & Hin3 & Hq3 & Ht3 & Hw3 & Hl3 & Hk3); [rewrite Hu2; lia|].
    exists (c :: l), s3. split; [exact E3|]. split; [done|].
    split; [eapply frame_trans; [|exact F3]; eapply frame_trans; [|exact F2]; by split|].
    split; [rewrite Hin; cbn; f_equal; congruence|]. split; [exact Hq3|].
    rewrite Ht1 in Ht2. split; [cbn [foldl]; congruence|].
    assert (woken s s3).
    { apply (woken_trans _ s2); [|done]. case_decide; [by eapply woken_one|by apply woken_same]. }
    assert (lk_like (k_lk s) (k_lk s3)).
    { eapply lk_like_trans; [|exact Hl3]. rewrite Hlk2. apply lk_like_settle, (ok_lk _ (con_k _ Hok)). }
    split; [|done]. intros Hsome. apply Hw3. rewrite Ht2. cbn [some_accepted] in Hsome.
    assert (accepts (tty s).1 c \/ ~ accepts (tty s).1 c) as [Ha|Ha]
      by (destruct (decide (accepts (tty s).1 c)); tauto).
    + right. unfold no_reader_sleeps. rewrite Hp2, decide_True; [apply wake_readers|].
      by rewrite <- Ht1 in Ha.
    + destruct Hsome as [[Hx|Hx]|Hx]; [done|by left|right].
      unfold no_reader_sleeps. rewrite Hp2, decide_False; [exact Hx|]. by rewrite <- Ht1 in Ha.
Qed.

Lemma uartintr_ok s :
  con_ok s ->
  exists l s', uartintr s = Ok tt s' /\ con_ok s' /\ frame s s' /\
    uart_in (k_uart s) = l ++ uart_in (k_uart s') /\ no_char_ready (k_uart s') /\
    tty s' = foldl tty_step (tty s) l /\
    (some_accepted (tty s) l -> no_reader_sleeps s') /\
    lk_like (k_lk s) (k_lk s') /\ woken s s'.
Proof.
  intros Hok. unfold uartintr. mrun (ReadReg_run ISR s). mstep. set (s1 := with_uart _ s).
  destruct (isr_keeps (k_uart s)) as [Ho Hi].
  assert (con_ok s1) as Hok1 by (by apply con_ok_uart).
  destruct (uartintr_loop_ok (rx_fuel (k_uart s1)) s1 Hok1 (rx_bound _))
    as (l & s' & E & Hok' & F & Hin & Hq & Ht & Hw & Hlk & Hwk).
  assert (tty s1 = tty s) as Ht1 by (unfold tty; cbn; by rewrite Ho).
  rewrite Ht1 in Ht, Hw. change (k_uart s1) with ((uart_read ISR (k_uart s)).2) in Hin.
  rewrite Hi in Hin. exists l, s'. split; [exact E|]. split; [done|].
  split; [eapply frame_trans; [|exact F]; by split|]. split; [done|]. split; [done|]. split; [done|].
  split; [tauto|done].
Qed.

(** C25: the UART interrupt handler implements the abstract console: it reads
    the input line in order and stops only when the line status, read last,
    says that no character is ready ([no_char_ready]); and the queue and the
    terminal output change exactly as if each character read had been queued
    and echoed (carriage return as newline), or dropped when it is NUL or 128
    characters are waiting.  It terminates, releases its locks, changes no
    other kernel data, and if anything was queued no process is left sleeping
    on the console. *)
Theorem uartintr_refines_queue s :
  con_ok s ->
  exists l s', uartintr s = Ok tt s' /\ con_ok s' /\ frame s s' /\
    uart_in (k_uart s) = l ++ uart_in (k_uart s') /\ no_char_ready (k_uart s') /\
    tty s' = foldl tty_step (tty s) l /\
    (some_accepted (tty s) l -> no_reader_sleeps s').
Proof.
  intros Hok. destruct (uartintr_ok s Hok) as (l & s' & E & Hok' & F & Hin & Hq & Ht & Hw & _).
  exists l, s'. by split_and!.
Qed.
(** * consoleread *)

(** What a read of at most [n] characters takes from the queue, and whether
    that completes it (a newline, or [n] characters). *)
Fixpoint take_line (n : nat) (q : list Z) : list Z * bool :=
  match n, q with
  | O, _ => ([], true)
  | S _, [] => ([], false)
  | S n, c :: q => if c =? 10 then ([c], true) else (c :: (take_line n q).1, (take_line n q).2)
  end.

Lemma take_line_length n : forall q, (length (take_line n q).1 <= n)%nat.
Proof.
  induction n as [|n IH]; intros [|c q]; cbn; try lia.
  destruct (c =? 10); cbn; [lia|]. pose proof (IH q). lia.
Qed.

Definition data (t : list Z) : Z -> Z := fun j => t !!! Z.to_nat j.

Lemma wrote_ext v v' pt dst n f a f' a' :
  (forall i, 0 <= i < n -> f (a + i) = f' (a' + i)) ->
  wrote v v' pt dst n f a -> wrote v v' pt dst n f' a'.
Proof.
  intros E (F & D & S). split; [done|]. split; [|done]. intros i Hi.
  destruct (D i Hi) as (p & Hp & Hl). exists p. by rewrite <- E.
Qed.

(** The state inside the section of [cons.lock] entered in [s0]. *)
Record in_section (s0 s : kstate) : Prop := {
  is_ok : con_ok s0;
  is_lk : k_lk s = acquired L_cons (k_lk s0);
  is_len : length (k_procs s) = NPROC;
  is_wf : cons_wf (k_cons s)
}.

Lemma in_section_ok s0 s : in_section s0 s -> k_ok s /\ at_rest s.
Proof.
  intros [Hok E Hn _]. destruct (cons_enter s0 Hok) as (_ & [Hl _ Hf] & Hr). split.
  - split; [|done|].
    + unfold lk_ok in *. by rewrite E.
    + by rewrite E.
  - unfold at_rest in *. by rewrite E.
Qed.

Lemma in_section_running s0 s i : in_section s0 s -> running_as i s0 -> running_as i s.
Proof.
  intros [Hok E _ _] [Hi Hc]. split; [done|]. rewrite E, acquired_cproc; [done|].
  apply (ok_lk _ (con_k _ Hok)).
Qed.

Lemma in_section_leave s0 s : in_section s0 s ->
  lk (release L_cons) s = Ok tt (with_lk (settle (k_lk s0)) s) /\
  con_ok (with_lk (settle (k_lk s0)) s).
Proof.
  intros [Hok E Hn Hw]. split; [by apply (cons_leave s s0)|]. by apply (cons_after s0).
Qed.

(** Handing one character to the reader. *)
Lemma give_char s0 s i c dst :
  in_section s0 s -> running_as i s0 ->
  let pt := p_pagetable (the_proc i s) in
  us_wf (k_vm s) pt -> 0 <= dst < 2 ^ 64 -> uwaddr (v_mem (k_vm s)) pt dst <> None ->
  exists v', either_copyout true dst (There (fun _ => c) 0) 1 s = Ok 0 (with_vm v' s) /\
    wrote (k_vm s) v' pt dst 1 (fun _ => c) 0.
Proof.
  intros Hs Hr pt Hus Hd Hw. destruct (in_section_ok s0 s Hs) as [Hk Hrest].
  unfold either_copyout. mrun (mine_ok s i Hk (in_section_running s0 s i Hs Hr)).
  rewrite settled_at_rest by done. mstep.
  destruct (copyout_ok (k_vm s) pt (p_sz (the_proc i s)) dst (fun _ => c) 0 1 Hus Hd ltac:(lia))
    as (r & v' & E & n & W & HR).
  destruct HR as [[-> ->]|(_ & Hn & Hx)].
  - exists v'. split; [|done]. by apply vm_run.
  - exfalso. apply Hw. rewrite <- Hx. f_equal. lia.
Qed.

(** What the loop leaves behind. *)
Record read_result (s0 s s' : kstate) (i : nat) (dst n target : Z) (r : kres) : Prop := {
  rr_ok : con_ok s';
  rr_lk : k_lk s' = settle (k_lk s0);
  rr_q : cons_q (k_cons s') = drop (length (take_line (Z.to_nat n) (cons_q (k_cons s))).1) (cons_q (k_cons s));
  rr_vm : wrote (k_vm s) (k_vm s') (p_pagetable (the_proc i s)) dst
            (Z.of_nat (length (take_line (Z.to_nat n) (cons_q (k_cons s))).1))
            (data (take_line (Z.to_nat n) (cons_q (k_cons s))).1) 0;
  rr_uart : k_uart s' = k_uart s;
  rr_ret :
    let k := Z.of_nat (length (take_line (Z.to_nat n) (cons_q (k_cons s))).1) in
    if (take_line (Z.to_nat n) (cons_q (k_cons s))).2
    then r = KRet (s32 (target - n + k)) /\ k_procs s' = k_procs s
    else if decide (p_killed (the_proc i s) = 0)
    then r = KWindow (K_consoleread true (dst + k) (n - k) target) /\
         k_procs s' = alter (set_chan P_cons_r) i (k_procs s)
    else r = KRet (-1) /\ k_procs s' = k_procs s
}.

Lemma consoleread_loop_S f user_dst dst n target :
  consoleread_loop (S f) user_dst dst n target =
  if n <=? 0 then lk (release L_cons);; mret (KRet (s32 (target - n))) else
  (b ← gets k_cons;
   if cb_r b =? cb_w b then
     i ← mine;
     k ← killed i;
     if negb (k =? 0) then lk (release L_cons);; mret (KRet (-1)) else
     sleep_prepare P_cons_r;;
     lk (release L_cons);;
     mret (KWindow (K_consoleread user_dst dst n target))
   else
     let '(c, b') := cons_pop b in
     modify (with_cons b');;
     r ← either_copyout user_dst dst (There (fun _ => c) 0) 1;
     if r =? -1 then lk (release L_cons);; mret (KRet (s32 (target - n))) else
     let dst := u64 (dst + 1) in
     let n := n - 1 in
     if c =? 10 then lk (release L_cons);; mret (KRet (s32 (target - n))) else
     consoleread_loop f user_dst dst n target).
Proof. done. Qed.

(** The queue is empty: the reader gives up if killed, else announces its
    channel and leaves the section. *)
Lemma read_wait f s0 s i dst n target :
  in_section s0 s -> running_as i s0 -> 0 < n -> cons_q (k_cons s) = [] ->
  exists r s', consoleread_loop (S f) true dst n target s = Ok r s' /\
    read_result s0 s s' i dst n target r.
Proof.
  intros Hs Hr Hn Hq. rewrite consoleread_loop_S. destruct (Z.leb_spec n 0); [lia|]. mstep.
  apply cons_empty in Hq as Heq; [|apply Hs]. destruct (Z.eqb_spec (cb_r (k_cons s)) (cb_w (k_cons s))); [|done].
  destruct (in_section_ok s0 s Hs) as [Hk Hrest].
  pose proof (in_section_running s0 s i Hs Hr) as Hr1. pose proof Hr1 as [Hi _].
  mrun (mine_ok s i Hk Hr1). rewrite settled_at_rest by done.
  mrun (killed_ok s i Hk Hi). rewrite settled_at_rest by done.
  destruct (Z.to_nat n) as [|m] eqn:Em; [lia|].
  destruct (Z.eqb_spec (p_killed (the_proc i s)) 0) as [Hz|Hz]; cbn [negb].
  - mrun (sleep_prepare_ok s i P_cons_r Hk Hr1). rewrite settled_at_rest by done.
    set (s1 := with_procs _ s).
    assert (in_section s0 s1) as Hs1.
    { split; [apply Hs|apply Hs|apply alter_length_ok, Hs|apply Hs]. }
    destruct (in_section_leave s0 s1 Hs1) as [E Hc]. mrun E.
    eexists _, _. split; [reflexivity|]. split; cbn; rewrite ?Em, ?Hq; cbn; try done.
    + apply wrote_0.
    + rewrite decide_True by done. split; [|done]. do 2 f_equal; lia.
  - destruct (in_section_leave s0 s Hs) as [E Hc]. mrun E.
    eexists _, _. split; [reflexivity|]. split; cbn; rewrite ?Em, ?Hq; cbn; try done.
    + apply wrote_0.
    + by rewrite decide_False.
Qed.

(** A character is taken and stored; [s1] is the state before the next round. *)
Lemma read_char f s0 s i dst n target c q :
  in_section s0 s -> running_as i s0 -> 0 < n -> cons_q (k_cons s) = c :: q ->
  us_wf (k_vm s) (p_pagetable (the_proc i s)) -> 0 <= dst < 2 ^ 64 ->
  uwaddr (v_mem (k_vm s)) (p_pagetable (the_proc i s)) dst <> None ->
  exists s1, in_section s0 s1 /\ cons_q (k_cons s1) = q /\ k_procs s1 = k_procs s /\
    k_uart s1 = k_uart s /\
    wrote (k_vm s) (k_vm s1) (p_pagetable (the_proc i s)) dst 1 (fun _ => c) 0 /\
    consoleread_loop (S f) true dst n target s =
      (if c =? 10 then lk (release L_cons);; mret (KRet (s32 (target - (n - 1))))
       else consoleread_loop f true (u64 (dst + 1)) (n - 1) target) s1.
Proof.
  intros Hs Hr Hn Hq Hus Hd Hw. rewrite consoleread_loop_S. destruct (Z.leb_spec n 0); [lia|]. mstep.
  destruct (Z.eqb_spec (cb_r (k_cons s)) (cb_w (k_cons s))) as [Heq|Hne].
  { apply cons_empty in Heq; [|apply Hs]. congruence. }
  destruct (cons_pop_ok (k_cons s) (is_wf _ _ Hs) Hne) as [Hw' Hq'].
  destruct (cons_pop (k_cons s)) as [c' b'] eqn:Epop. cbn [fst snd] in *.
  rewrite Hq in Hq'. injection Hq' as <- Hq'. mstep. set (sp := with_cons b' s).
  assert (in_section s0 sp) as Hsp by (split; [apply Hs|apply Hs|apply Hs|done]).
  destruct (give_char s0 sp i c dst Hsp Hr Hus Hd Hw) as (v' & E & W).
  mrun E. change (0 =? -1) with false. cbv iota zeta.
  exists (with_vm v' sp). split; [split; apply Hsp|]. split; [done|]. split; [done|]. split; [done|].
  split; [exact W|]. by destruct (c =? 10).
Qed.

Lemma data_cons c t i : 0 <= i -> data (c :: t) (1 + i) = data t i.
Proof. intros Hi. unfold data. by replace (Z.to_nat (1 + i)) with (S (Z.to_nat i)) by lia. Qed.

(** Putting the first character before the rest. *)
Lemma read_result_cons s0 s s1 s' i dst n target c q r :
  us_wf (k_vm s) (p_pagetable (the_proc i s)) -> 0 < n -> c <> 10 ->
  cons_q (k_cons s) = c :: q -> cons_q (k_cons s1) = q -> k_procs s1 = k_procs s ->
  k_uart s1 = k_uart s ->
  wrote (k_vm s) (k_vm s1) (p_pagetable (the_proc i s)) dst 1 (fun _ => c) 0 ->
  read_result s0 s1 s' i (dst + 1) (n - 1) target r -> read_result s0 s s' i dst n target r.
Proof.
  intros Hus Hn Hc Hq Hq1 Hp Hu W [Rok Rlk Rq Rvm Ru Rret].
  assert (the_proc i s1 = the_proc i s) as Ep by (unfold the_proc; by rewrite Hp).
  rewrite Hq1 in *. rewrite Ep in *. cbv zeta in Rret.
  assert (take_line (Z.to_nat n) (c :: q) =
          (c :: (take_line (Z.to_nat (n - 1)) q).1, (take_line (Z.to_nat (n - 1)) q).2)) as Et.
  { replace (Z.to_nat n) with (S (Z.to_nat (n - 1))) by lia. cbn [take_line].
    destruct (Z.eqb_spec c 10); [done|]. done. }
  set (t := take_line (Z.to_nat (n - 1)) q) in *.
  split; rewrite ?Hq, ?Et; cbn [fst snd length]; cbv zeta; try done; try congruence.
  - replace (Z.of_nat (S (length t.1))) with (1 + Z.of_nat (length t.1)) by lia.
    apply (wrote_app _ (k_vm s1)); try done; try lia.
    + eapply wrote_ext; [|exact W]. intros j Hj. assert (j = 0) as -> by lia. done.
    + eapply wrote_ext; [|exact Rvm]. intros j Hj. symmetry. apply data_cons. lia.
  - rewrite <- Hp. destruct t.2.
    + destruct Rret as [-> ->]. split; [|done]. do 2 f_equal. lia.
    + case_decide; destruct Rret as [-> ->]; (split; [|done]); try done. do 2 f_equal; lia.
Qed.

Lemma consoleread_loop_ok f : forall s0 s i dst n target,
  in_section s0 s -> running_as i s0 -> 0 <= n -> n < Z.of_nat f ->
  us_wf (k_vm s) (p_pagetable (the_proc i s)) -> 0 <= dst < 2 ^ 64 ->
  (forall j, 0 <= j < n -> uwaddr (v_mem (k_vm s)) (p_pagetable (the_proc i s)) (dst + j) <> None) ->
  exists r s', consoleread_loop f true dst n target s = Ok r s' /\
    read_result s0 s s' i dst n target r.
Proof.
  induction f as [|f IH]; intros s0 s i dst n target Hs Hr Hn Hf Hus Hd Hw; [lia|].
  destruct (decide (n = 0)) as [->|Hn0].
  { destruct (in_section_leave s0 s Hs) as [E Hc]. rewrite consoleread_loop_S.
    change (0 <=? 0) with true. cbv iota. mrun E. eexists _, _. split; [reflexivity|].
    split; cbn; try done; [apply wrote_0|]. by rewrite Z.add_0_r. }
  destruct (cons_q (k_cons s)) as [|c q] eqn:Hq; [apply read_wait; try done; lia|].
  assert (uwaddr (v_mem (k_vm s)) (p_pagetable (the_proc i s)) dst <> None) as Hw0.
  { rewrite <- (Z.add_0_r dst). apply Hw. lia. }
  destruct (read_char f s0 s i dst n target c q Hs Hr ltac:(lia) Hq Hus Hd Hw0)
    as (s1 & Hs1 & Hq1 & Hp1 & Hu1 & W & E). rewrite E.
  destruct (Z.eqb_spec c 10) as [->|Hc].
  - destruct (in_section_leave s0 s1 Hs1) as [E' Hc']. mrun E'. eexists _, _. split; [reflexivity|].
    assert (take_line (Z.to_nat n) (10 :: q) = ([10], true)) as Et.
    { by replace (Z.to_nat n) with (S (Z.to_nat (n - 1))) by lia. }
    split; cbn [k_lk k_cons k_vm k_uart k_procs with_lk]; rewrite ?Hq, ?Et; cbn [fst snd length drop];
      cbv zeta; try done.
    + eapply wrote_ext; [|exact W]. intros j Hj. assert (j = 0) as -> by lia. done.
    + split; [|done]. do 2 f_equal. cbn. lia.
  - destruct (wrote_us _ _ _ _ _ _ _ Hus W) as [Hus1 HU].
    assert (the_proc i s1 = the_proc i s) as Ep by (unfold the_proc; by rewrite Hp1).
    assert (dst + 1 < 2 ^ 64) as Hd1.
    { destruct (uwaddr (v_mem (k_vm s)) (p_pagetable (the_proc i s)) dst) as [p|] eqn:Ew; [|done].
      apply uwaddr_inv in Ew as (e & He & _). apply upte_valid in He as [_ He].
      rewrite MAXVA_eq in He. lia. }
    rewrite u64_small by lia.
    destruct (IH s0 s1 i (dst + 1) (n - 1) target) as (r & s' & E' & R); try done; try lia.
    + by rewrite Ep.
    + intros j Hj. rewrite Ep. replace (dst + 1 + j) with (dst + (1 + j)) by lia.
      unfold uwaddr. rewrite HU. apply Hw. lia.
    + exists r, s'. split; [done|]. eapply (read_result_cons s0 s s1); try done; lia.
Qed.

(** [consoleread] delivers what was typed: called with room for [n]
    characters in the reader's memory, it moves the longest prefix of the
    queue that does not go past a newline or past [n] characters to the
    user's buffer, in order, and to nowhere else.  If that completes the read
    it returns the number of characters; otherwise it returns -1 when the
    process has been killed, or is about to sleep with its channel announced
    and the lock released, to continue at the next free byte. *)
Theorem consoleread_correct s i dst n :
  con_ok s -> running_as i s -> 0 <= n < 2 ^ 31 ->
  us_wf (k_vm s) (p_pagetable (the_proc i s)) -> 0 <= dst < 2 ^ 64 ->
  (forall j, 0 <= j < n -> uwaddr (v_mem (k_vm s)) (p_pagetable (the_proc i s)) (dst + j) <> None) ->
  let t := take_line (Z.to_nat n) (cons_q (k_cons s)) in
  let k := Z.of_nat (length t.1) in
  exists r s', consoleread true dst n s = Ok r s' /\ con_ok s' /\
    cons_q (k_cons s') = drop (length t.1) (cons_q (k_cons s)) /\
    wrote (k_vm s) (k_vm s') (p_pagetable (the_proc i s)) dst k (data t.1) 0 /\
    (t.2 = true -> r = KRet k) /\
    (t.2 = false -> p_killed (the_proc i s) <> 0 -> r = KRet (-1)) /\
    (t.2 = false -> p_killed (the_proc i s) = 0 ->
       r = KWindow (K_consoleread true (dst + k) (n - k) n) /\ p_chan (the_proc i s') = P_cons_r).
Proof.
  intros Hok Hr Hn Hus Hd Hw t k. unfold consoleread.
  destruct (cons_enter s Hok) as (E1 & Hk1 & _). mrun E1. set (s1 := with_lk _ s).
  assert (in_section s s1) as Hs1 by (split; [done|done|apply Hok|apply Hok]).
  rewrite u32_small by lia.
  destruct (consoleread_loop_ok (Z.to_nat n + 1) s s1 i dst n n) as (r & s' & E & R); try done; try lia.
  exists r, s'. split; [exact E|]. destruct R as [Rok _ Rq Rvm _ Rret].
  change (cons_q (k_cons s1)) with (cons_q (k_cons s)) in *. fold t in Rq, Rvm, Rret. cbv zeta in Rret.
  fold k in Rret. change (the_proc i s1) with (the_proc i s) in *. change (k_procs s1) with (k_procs s) in *.
  split; [done|]. split; [done|]. split; [done|].
  destruct Hr as [Hi _]. pose proof (ok_len _ (con_k _ Hok)) as Hlen.
  pose proof (take_line_length (Z.to_nat n) (cons_q (k_cons s))) as Hle. fold t in Hle.
  destruct t.2.
  - destruct Rret as [-> _]. split; [|done]. intros _. f_equal. rewrite s32_small; lia.
  - split; [done|]. case_decide as Hz; destruct Rret as [-> Hp]; (split; [done|]); [|done].
    intros _ _. split; [done|]. unfold the_proc. rewrite Hp.
    rewrite list_lookup_total_alter_eq by lia. done.
Qed.
End ConsoleSpec.

Lemma demo_con_ok v inp : con_ok (demo_k v inp).
Proof.
  split; [apply demo_k_ok|by apply demo_locks_free|]. split; cbn; try lia; done.
Qed.

(** Typing two lines and a NUL. *)
Lemma uartintr_refines_queue_witness :
  exists s', uartintr (demo_k (mkVm ∅ KERNBASE) [104; 105; 13; 0; 115]) = Ok tt s' /\ con_ok s' /\
    tty s' = ([104; 105; 10; 115], [104; 105; 10; 115]).
Proof.
  destruct (uartintr_refines_queue (demo_k (mkVm ∅ KERNBASE) [104; 105; 13; 0; 115]))
    as (l & s' & E & Hok & _ & Hin & (u & Hu & Hq) & Ht & _); [apply demo_con_ok|].
  exists s'. split; [exact E|]. split; [exact Hok|].
  assert (uart_in (k_uart s') = []) as Hnil.
  { rewrite Hu. destruct u as [o [|c u]]; [reflexivity|]. by vm_compute in Hq. }
  rewrite Hnil, app_nil_r in Hin. rewrite Ht, <- Hin. by vm_compute.
Defined.

(** A reader with one writable page, and a line and a half waiting. *)
Definition reader_k : @kstate fifo_machine :=
  with_procs (alter (set_pagetable space_pt) 0%nat (k_procs (demo_k space_vm [])))
    (with_cons (mkCons (obj_of [108; 115; 10; 104]) 0 4 4) (demo_k space_vm [])).

Lemma reader_k_ok : con_ok reader_k.
Proof.
  destruct (demo_con_ok space_vm []) as [Hk Hl _]. split; [|exact Hl|].
  - apply k_ok_procs; [by apply (k_ok_same (demo_k space_vm []))|]. apply alter_length_ok, Hk.
  - split; vm_compute; try (split; congruence); congruence.
Qed.

Lemma consoleread_correct_witness :
  exists r s', consoleread true 16 100 reader_k = Ok r s' /\ con_ok s' /\
    r = KRet 3 /\ cons_q (k_cons s') = [104] /\
    wrote (k_vm reader_k) (k_vm s') space_pt 16 3 (data [108; 115; 10]) 0.
Proof.
  destruct (consoleread_correct reader_k 0%nat 16 100) as (r & s' & E & Hok & Hq & W & Hret & _).
  - apply reader_k_ok.
  - split; [unfold NPROC; lia|reflexivity].
  - lia.
  - exact space_us.
  - lia.
  - intros j Hj. apply (space_uwaddr (16 + j)). lia.
  - exists r, s'. split; [exact E|]. split; [exact Hok|].
    split; [apply Hret; reflexivity|]. split; [exact Hq|exact W].
Defined.
