(* ===== verification/Exec.v ===== *)
(** kernel/exec.c: the table of embedded programs and [kexec].

    [_uprog_table] is in the kernel image, so in RAM; its entries are
    [{start, end}] followed by a NUL-terminated name, padded to 8 bytes, and
    the table ends with [{0, 0}].  A path is a C array with the string at
    offset 0. *)

From stdpp Require Import base gmap list strings numbers.
From Stdlib Require Import ZArith Lia.
From S2P Require Import Prelude Mem KString Riscv Kdefs Spinlock Vm Printf KState Uart Proc.

(** Bound on the length of a string and on the number of programs: both loops
    of the code stop at a terminator only. *)
Definition SCAN_FUEL : nat := Z.to_nat 4096.

Section Exec.
Context `{Machine}.

Definition strlen_k (s : Z -> Z) : M kstate Z :=
  match strlen SCAN_FUEL s with Some n => mret n | None => out_of_fuel end.

(** The string at address [a] of RAM. *)
Definition ram_str (m : mem) (a : Z) : Z -> Z := fun i => load8 m (a + i).

Fixpoint find_uprog_loop (fuel : nat) (name : Z -> Z) (p : Z) : M kstate Z :=
  match fuel with
  | O => out_of_fuel
  | S f =>
      m ← gets (fun s => v_mem (k_vm s));
      let start := load64 m p in
      let end_ := load64 m (p + 8) in
      if (start =? 0) && (end_ =? 0) then mret 0 else
      let n := ram_str m (p + 16) in
      l ← strlen_k name;
      if strncmp n name (l + 1) =? 0 then mret p else
      ln ← strlen_k n;
      let sz := 16 + ln + 1 in
      let sz := Z.land (sz + 7) (Z.lnot 7) in
      find_uprog_loop f name (p + sz)
  end.

Definition find_uprog (name : Z -> Z) : M kstate Z :=
  find_uprog_loop SCAN_FUEL name sym_uprog_table.

(** The [while] that strips the white space at the end of the path. *)
Fixpoint strip_len (path : mem) (len : nat) : nat :=
  match len with
  | O => O
  | S l =>
      let c := load8 path (Z.of_nat l) in
      if (c =? 10) || (c =? 13) || (c =? 32) || (c =? 9) then strip_len path l else len
  end.

Definition kexec (path : mem) : M kstate Z :=
  len ← strlen_k (load8 path);
  let len := Z.of_nat (strip_len path (Z.to_nat len)) in
  if len =? 0 then mret (-1) else
  let name := store8 (memmove 0 (There (load8 path) 0) len ∅).2 len 0 in
  up ← find_uprog (load8 name);
  if up =? 0 then mret (-1) else
  i ← mine;
  m ← gets (fun s => v_mem (k_vm s));
  let size := u64 (load64 m (up + 8) - load64 m up) in
  p ← gets (the_proc i);
  let oldsz := p_sz p in
  let old := p_pagetable p in
  pt ← proc_pagetable i;
  if pt =? 0 then mret (-1) else
  let progsz := u64 (PGROUNDUP size + 2 * PGSIZE) in
  let total := u64 (progsz + PGSIZE) in
  r ← vm (uvmalloc pt 0 total (Z.lor PTE_W PTE_X));
  if r =? 0 then proc_freepagetable pt total;; mret (-1) else
  m ← gets (fun s => v_mem (k_vm s));
  r ← vm (copyout pt total 0 (Here (load64 m up)) size);
  if r <? 0 then proc_freepagetable pt total;; mret (-1) else
  upd_proc i (set_pagetable pt);;
  upd_proc i (set_sz total);;
  upd_proc i (fun p => set_name (safestrcpy 0 (There (load8 name) 0) 16 (p_name p)).2 p);;
  put_tf i TF_epc 0;;
  put_tf i TF_sp total;;
  proc_freepagetable old oldsz;;
  mret 0.
End Exec.
