(* ===== verification/Syscall.v ===== *)
(** kernel/syscall.c, kernel/sysproc.c, kernel/sysfile.c: argument fetching,
    the dispatch table and the system calls. *)

From stdpp Require Import base gmap list strings numbers.
From Stdlib Require Import ZArith Lia.
From S2P Require Import Prelude Mem KString Riscv Kdefs Spinlock Vm Printf KState Uart Proc Console Exec.

Definition SYS_fork : Z := 1.
Definition SYS_exit : Z := 2.
Definition SYS_wait : Z := 3.
Definition SYS_read : Z := 5.
Definition SYS_exec : Z := 7.
Definition SYS_getpid : Z := 11.
Definition SYS_write : Z := 16.

Section Syscall.
Context `{Machine}.

(** * Arguments *)

Definition argraw (n : Z) : M kstate Z :=
  i ← mine;
  if n =? 0 then get_tf i TF_a0
  else if n =? 1 then get_tf i TF_a1
  else if n =? 2 then get_tf i TF_a2
  else if n =? 3 then get_tf i TF_a3
  else if n =? 4 then get_tf i TF_a4
  else if n =? 5 then get_tf i TF_a5
  else panic "argraw".

Definition argint (n : Z) : M kstate Z := x ← argraw n; mret (s32 x).

Definition argaddr (n : Z) : M kstate Z := argraw n.

(** The result pairs the return value with [*ip] ([ip] holds [old] before). *)
Definition fetchaddr (addr old : Z) : M kstate (Z * Z) :=
  i ← mine;
  p ← gets (the_proc i);
  if (p_sz p <=? addr) || (p_sz p <? u64 (addr + 8)) then mret (-1, old) else
  '(r, buf) ← vm (copyin (p_pagetable p) (p_sz p) (store64 ∅ 0 old) 0 addr 8);
  if negb (r =? 0) then mret (-1, load64 buf 0) else mret (0, load64 buf 0).

Definition fetchstr (addr : Z) (buf : mem) (max : Z) : M kstate (Z * mem) :=
  i ← mine;
  p ← gets (the_proc i);
  '(r, buf) ← vm (copyinstr (p_pagetable p) (p_sz p) buf 0 addr max);
  if r <? 0 then mret (-1, buf) else
  n ← strlen_k (load8 buf);
  mret (n, buf).

Definition argstr (n : Z) (buf : mem) (max : Z) : M kstate (Z * mem) :=
  addr ← argaddr n;
  fetchstr addr buf max.

(** * sysproc.c *)

Definition sys_exit : M kstate kres :=
  n ← argint 0;
  kexit n;;
  mret KGone.

Definition sys_getpid : M kstate kres :=
  i ← mine;
  pid ← gets (fun s => p_pid (the_proc i s));
  mret (KRet pid).

Definition sys_fork : M kstate kres := r ← kfork; mret (KRet r).

Definition sys_wait : M kstate kres :=
  p ← argaddr 0;
  kwait p.

(** * sysfile.c *)

Definition sys_read : M kstate kres :=
  fd ← argint 0;
  p ← argaddr 1;
  n ← argint 2;
  if negb (fd =? 0) then mret (KRet (-1)) else
  consoleread true p n.

Definition sys_write : M kstate kres :=
  fd ← argint 0;
  p ← argaddr 1;
  n ← argint 2;
  if negb (fd =? 1) && negb (fd =? 2) then mret (KRet (-1)) else
  r ← consolewrite true p n;
  mret (KRet r).

Definition sys_exec : M kstate kres :=
  uargv ← argaddr 1;
  '(r, path) ← argstr 0 ∅ MAXPATH;
  if r <? 0 then mret (KRet (-1)) else
  r ← kexec path;
  mret (KRet r).

(** * Dispatch *)

Definition syscalls (num : Z) : option (M kstate kres) :=
  if num =? SYS_fork then Some sys_fork
  else if num =? SYS_exit then Some sys_exit
  else if num =? SYS_wait then Some sys_wait
  else if num =? SYS_read then Some sys_read
  else if num =? SYS_exec then Some sys_exec
  else if num =? SYS_getpid then Some sys_getpid
  else if num =? SYS_write then Some sys_write
  else None.

(** Storing the return value, when there is one. *)
Definition syscall_return (i : nat) (r : kres) : M kstate kres :=
  match r with
  | KRet x => put_tf i TF_a0 x;; mret r
  | _ => mret r
  end.

Definition syscall : M kstate kres :=
  i ← mine;
  a7 ← get_tf i TF_a7;
  let num := s32 a7 in
  match (if (0 <? num) && (num <? SYS_write + 1) then syscalls num else None) with
  | Some f => r ← f; syscall_return i r
  | None => syscall_return i (KRet (-1))
  end.
End Syscall.
