(* ===== verification/Trap.v ===== *)
(** kernel/trap.c: traps from user code, the way back, traps in the kernel,
    device and timer interrupts; [forkret] of kernel/proc.c, which ends like a
    trap. *)

From stdpp Require Import base gmap list strings numbers.
From Stdlib Require Import ZArith Lia.
From S2P Require Import Prelude Mem KString Riscv Kdefs Spinlock Vm Printf KState Uart Proc Console Exec Syscall.

(** Where a thread that was in [usertrap] stands. *)
Inductive ures : Type :=
  | U_ret (satp : Z)          (* back to user code with this page table *)
  | U_window (k : kcont)      (* about to call [sleep()] inside a system call *)
  | U_gone.                   (* exited *)

Section Trap.
Context `{Machine}.

Definition trapinit : M kstate unit := lk (initlock L_ticks "time").

Definition trapinithart : M kstate unit := set_csr (w_stvec sym_kernelvec).

Definition usertrapret : M kstate unit :=
  i ← mine;
  set_csr intr_off;;
  set_csr (w_stvec (u64 (TRAMPOLINE + (sym_uservec - sym_trampoline))));;
  satp ← csr r_satp;
  put_tf i TF_kernel_satp satp;;
  p ← gets (the_proc i);
  put_tf i TF_kernel_sp (p_kstack p + PGSIZE);;
  put_tf i TF_kernel_trap sym_usertrap;;
  tp ← csr r_tp;
  put_tf i TF_kernel_hartid tp;;
  x ← csr r_sstatus;
  let x := Z.ldiff x SSTATUS_SPP in
  let x := Z.lor x SSTATUS_SPIE in
  set_csr (w_sstatus x);;
  epc ← get_tf i TF_epc;
  set_csr (w_sepc epc).

Definition clockintr : M kstate unit :=
  id ← cpuid_k;
  (if id =? 0 then
     lk (acquire L_ticks);;
     modify (fun s => with_ticks (u32 (k_ticks s + 1)) s);;
     wakeup P_ticks;;
     lk (release L_ticks)
   else mret tt);;
  t ← csr r_time;
  set_csr (w_stimecmp (t + 1000000)).

Definition SCAUSE_EXT : Z := 0x8000000000000009.
Definition SCAUSE_TIMER : Z := 0x8000000000000005.

Definition devintr : M kstate Z :=
  scause ← csr r_scause;
  if scause =? SCAUSE_EXT then
    irq ← plic_claim;
    (if irq =? UART0_IRQ then uartintr
     else if negb (irq =? 0) then
       printf "unexpected interrupt irq=%d
" [A32 irq];; mret tt
     else mret tt);;
    (if negb (irq =? 0) then plic_complete irq else mret tt);;
    mret 1
  else if scause =? SCAUSE_TIMER then
    clockintr;;
    mret 2
  else mret 0.

(** The end of [usertrap], for the process [i]. *)
Definition usertrap_end (i : nat) : M kstate ures :=
  k ← killed i;
  if negb (k =? 0) then kexit (-1);; mret U_gone else
  usertrapret;;
  pt ← gets (fun s => p_pagetable (the_proc i s));
  mret (U_ret (MAKE_SATP pt)).

(** What follows the call of [syscall()]. *)
Definition after_syscall (i : nat) (r : kres) : M kstate ures :=
  match r with
  | KRet _ => usertrap_end i
  | KWindow k => mret (U_window k)
  | KGone => mret U_gone
  end.

Definition usertrap : M kstate ures :=
  st ← csr r_sstatus;
  if negb (Z.land st SSTATUS_SPP =? 0) then panic "usertrap: not from user mode" else
  set_csr (w_stvec sym_kernelvec);;
  i ← mine;
  sepc ← csr r_sepc;
  put_tf i TF_epc sepc;;
  scause ← csr r_scause;
  if scause =? 8 then
    epc ← get_tf i TF_epc;
    put_tf i TF_epc (epc + 4);;
    set_csr intr_on;;
    r ← syscall;
    after_syscall i r
  else
    which_dev ← devintr;
    (if negb (which_dev =? 0) then mret tt else
     scause ← csr r_scause;
     p ← gets (the_proc i);
     printf "usertrap(): unexpected scause 0x%lx pid=%d
" [A64 scause; A32 (p_pid p)];;
     sepc ← csr r_sepc;
     stval ← csr r_stval;
     printf "            sepc=0x%lx stval=0x%lx
" [A64 sepc; A64 stval];;
     setkilled i);;
    usertrap_end i.

Definition kerneltrap : M kstate unit :=
  sepc ← csr r_sepc;
  sstatus ← csr r_sstatus;
  scause ← csr r_scause;
  if Z.land sstatus SSTATUS_SPP =? 0 then panic "kerneltrap: not from supervisor mode" else
  on ← csr intr_get;
  if (on : bool) then panic "kerneltrap: interrupts enabled" else
  which_dev ← devintr;
  if which_dev =? 0 then
    sepc' ← csr r_sepc;
    stval ← csr r_stval;
    printf "scause=0x%lx sepc=0x%lx stval=0x%lx
" [A64 scause; A64 sepc'; A64 stval];;
    panic "kerneltrap"
  else
    set_csr (w_sepc sepc);;
    set_csr (w_sstatus sstatus).

(** * Threads *)

(** A system call that goes on after its [sleep()]. *)
Definition resume_cont (i : nat) (k : kcont) : M kstate ures :=
  match k with
  | K_consoleread user_dst dst n target =>
      r ← consoleread_resume user_dst dst n target;
      r ← syscall_return i r;
      after_syscall i r
  | K_kwait addr =>
      r ← kwait_resume i addr;
      r ← syscall_return i r;
      after_syscall i r
  | K_kexit => panic "zombie exit"
  | K_yield => usertrap_end i
  end.

(** A thread at the call of [sleep()]: it sleeps ([None]) or goes on. *)
Definition enter_sleep (i : nat) (k : kcont) : M kstate (option ures) :=
  b ← sleep k;
  if (b : bool) then mret None else r ← resume_cont i k; mret (Some r).

(** The path of [forkret]'s first call. *)
Definition path_sh : mem := obj_of (bytes "sh" ++ [0]).

(** [forkret], for the process [i] it runs in; [a0] is unsigned, so the test
    [p->trapframe->a0 < 0] never succeeds. *)
Definition forkret : M kstate ures :=
  i ← mine;
  lk (release (L_proc i));;
  first ← gets k_first;
  (if (first : bool) then
     modify (with_first false);;
     r ← kexec path_sh;
     put_tf i TF_a0 r;;
     a0 ← get_tf i TF_a0;
     if a0 <? 0 then panic "exec sh" else mret tt
   else mret tt);;
  usertrapret;;
  pt ← gets (fun s => p_pagetable (the_proc i s));
  mret (U_ret (MAKE_SATP pt)).

(** The thread of process [i] after the scheduler's [swtch] to it. *)
Definition resume (i : nat) : M kstate ures :=
  p ← gets (the_proc i);
  match ctx_ra (p_context p) with
  | PC_forkret => forkret
  | PC_sched k intena =>
      match k with
      | K_kexit => sched_resume intena;; panic "zombie exit"
      | K_yield => yield_resume i intena;; resume_cont i k
      | _ => sleep_resume i intena;; resume_cont i k
      end
  | _ => panic "no context"
  end.
End Trap.
