(* ===== verification/TrapSpec.v ===== *)
(** What traps and system calls do to the machine: the way back to user code,
    the transparency of kernel interrupts, the timer, and the dispatch of
    system calls (kernel/trap.c, kernel/syscall.c). *)

From stdpp Require Import base gmap list strings numbers.
From Stdlib Require Import ZArith Lia.
From S2P Require Import Prelude Mem KString Riscv Kdefs Spinlock Vm PageTable UserVm UserCopy Printf KState Uart Proc ProcSpec Console ConsoleSpec Exec Syscall Trap.

(** * Status register bits *)

Lemma lor_ldiff_bits x a b n : Z.testbit (Z.lor (Z.ldiff x a) b) n =
  Z.testbit x n && negb (Z.testbit a n) || Z.testbit b n.
Proof. by rewrite Z.lor_spec, Z.ldiff_spec. Qed.

Lemma u64_bits x n : 0 <= n < 64 -> Z.testbit (u64 x) n = Z.testbit x n.
Proof. intros Hn. unfold u64. apply Z.mod_pow2_bits_low. lia. Qed.

Lemma intr_bit h : intr_get h = Z.testbit (h_sstatus h) 1.
Proof. apply SIE_bit. Qed.

(** [sret] restores the saved enable bit. *)
Lemma sret_enable h : intr_get (hw_sret h) = Z.testbit (h_sstatus h) 5.
Proof.
  rewrite intr_bit. unfold hw_sret, w_sstatus, r_sstatus. cbn [h_sstatus].
  rewrite u64_bits by lia. unfold SSTATUS_SPIE at 1. rewrite land_bit, negb_involutive by lia.
  destruct (Z.testbit (h_sstatus h) 5).
  - rewrite Z.lor_spec. apply orb_true_r.
  - rewrite lor_ldiff_bits, Z.ldiff_spec.
    replace (Z.testbit SSTATUS_SIE 1) with true by done.
    replace (Z.testbit SSTATUS_SPIE 1) with false by done. cbn. by rewrite !andb_false_r.
Qed.

Section TrapSpec.
Context `{Machine}.
Implicit Types s : kstate.

(** * usertrapret *)

Definition tf_prepared (m : mem) (tf satp sp trap hartid : Z) : mem :=
  tf_set (tf_set (tf_set (tf_set m tf TF_kernel_satp satp) tf TF_kernel_sp sp)
            tf TF_kernel_trap trap) tf TF_kernel_hartid hartid.

Lemma tf_prepared_other m tf satp sp trap hartid r :
  r <> TF_kernel_satp -> r <> TF_kernel_sp -> r <> TF_kernel_trap -> r <> TF_kernel_hartid ->
  tf_get (tf_prepared m tf satp sp trap hartid) tf r = tf_get m tf r.
Proof. intros. unfold tf_prepared. by rewrite !tf_get_set_ne. Qed.

Lemma tf_prepared_load8 m tf satp sp trap hartid b :
  ~ (tf <= b < tf + TF_SIZE) -> load8 (tf_prepared m tf satp sp trap hartid) b = load8 m b.
Proof. intros. unfold tf_prepared. by rewrite !tf_set_load8. Qed.

(** The hart on the way back to user code. *)
Definition hart_ret (epc : Z) (h : hart) : hart :=
  let h := w_stvec (u64 (TRAMPOLINE + (sym_uservec - sym_trampoline))) (intr_off h) in
  w_sepc epc (w_sstatus (Z.lor (Z.ldiff (r_sstatus h) SSTATUS_SPP) SSTATUS_SPIE) h).

Lemma usertrapret_ok s i : k_ok s -> running_as i s ->
  let p := the_proc i s in
  let h := l_hart (k_lk s) in
  let m := v_mem (k_vm s) in
  usertrapret s = Ok tt
    (with_lk (set_hart (hart_ret (tf_get m (p_trapframe p) TF_epc)) (settle (k_lk s)))
      (with_vm (mkVm (tf_prepared m (p_trapframe p) (r_satp h) (p_kstack p + PGSIZE) sym_usertrap (r_tp h))
                     (v_freemem (k_vm s))) s)).
Proof.
  intros Hok Hr p h m. unfold usertrapret. mrun (mine_ok s i Hok Hr).
  rewrite <- (tf_prepared_other m (p_trapframe p) (r_satp h) (p_kstack p + PGSIZE) sym_usertrap
    (r_tp h) TF_epc) by done.
  unfold h. rewrite <- (settle_hart (k_lk s)). reflexivity.
Qed.

(** [usertrapret] prepares the return to user code: afterwards an [sret]
    goes to user mode with interrupts enabled, at the saved user PC; the next
    trap will enter through the trampoline's uservec, which will find the
    kernel page table, this process's kernel stack, [usertrap] and the hart
    id in the trapframe; all other saved registers, all other memory and the
    process table are unchanged, and interrupts are off until the [sret]. *)
Theorem usertrapret_correct s i :
  k_ok s -> running_as i s ->
  let tf := p_trapframe (the_proc i s) in
  let m := v_mem (k_vm s) in
  exists s', usertrapret s = Ok tt s' /\
    let h := l_hart (k_lk s') in
    let m' := v_mem (k_vm s') in
    intr_get h = false /\ Z.testbit (h_sstatus h) 8 = false /\ intr_get (hw_sret h) = true /\
    h_sepc h = u64 (tf_get m tf TF_epc) /\
    h_stvec h = u64 (TRAMPOLINE + (sym_uservec - sym_trampoline)) /\
    tf_get m' tf TF_kernel_satp = u64 (h_satp (l_hart (k_lk s))) /\
    tf_get m' tf TF_kernel_sp = u64 (p_kstack (the_proc i s) + PGSIZE) /\
    tf_get m' tf TF_kernel_trap = u64 sym_usertrap /\
    tf_get m' tf TF_kernel_hartid = u64 (h_tp (l_hart (k_lk s))) /\
    (forall r, r <> TF_kernel_satp -> r <> TF_kernel_sp -> r <> TF_kernel_trap ->
       r <> TF_kernel_hartid -> tf_get m' tf r = tf_get m tf r) /\
    (forall b, ~ (tf <= b < tf + TF_SIZE) -> load8 m' b = load8 m b) /\
    k_procs s' = k_procs s.
Proof.
  intros Hok Hr tf m. rewrite (usertrapret_ok s i Hok Hr). eexists. split; [reflexivity|].
  cbv zeta. cbn [k_lk k_vm k_procs with_lk with_vm l_hart set_hart v_mem]. fold tf m.
  rewrite settle_hart. set (h := l_hart (k_lk s)). rewrite sret_enable, intr_bit.
  unfold hart_ret. cbn [h_sstatus w_sepc w_sstatus w_stvec h_sepc h_stvec r_sstatus intr_off c_sstatus].
  rewrite !u64_bits, !lor_ldiff_bits, !u64_bits, !Z.ldiff_spec by lia.
  replace (Z.testbit SSTATUS_SIE 1) with true by done.
  replace (Z.testbit SSTATUS_SPP 8) with true by done.
  replace (Z.testbit SSTATUS_SPIE 5) with true by done.
  replace (Z.testbit SSTATUS_SPIE 1) with false by done.
  replace (Z.testbit SSTATUS_SPIE 8) with false by done. cbn [negb].
  rewrite !andb_false_r, orb_true_r. cbn [orb andb].
  split_and!; try done.
  - apply u64_small, u64_range.
  - unfold tf_prepared. by rewrite !tf_get_set_ne, tf_get_set by done.
  - unfold tf_prepared. by rewrite !tf_get_set_ne, tf_get_set by done.
  - unfold tf_prepared. by rewrite tf_get_set_ne, tf_get_set by done.
  - unfold tf_prepared. by rewrite tf_get_set by done.
  - intros r ? ? ? ?. by apply tf_prepared_other.
  - intros b Hb. by apply tf_prepared_load8.
Qed.
(** * Interrupts *)

(** The locks an interrupt handler takes are free. *)
Record intr_ok (s : kstate) : Prop := {
  io_con : con_ok s;
  io_ticks : lock_free L_ticks (k_lk s)
}.

(** What a handler may change: the console, the devices, the tick counter, the
    timer; processes are at most woken. *)
Record handled (s s' : kstate) : Prop := {
  ha_ok : intr_ok s';
  ha_vm : k_vm s' = k_vm s;
  ha_woken : woken s s';
  ha_noff : c_noff (mycpu (k_lk s')) = c_noff (mycpu (k_lk s));
  ha_cproc : c_proc (mycpu (k_lk s')) = c_proc (mycpu (k_lk s));
  ha_locks : l_locks (k_lk s') = l_locks (k_lk s);
  ha_hart : l_hart (k_lk s') = l_hart (k_lk s) \/
    l_hart (k_lk s') = w_stimecmp (h_time (l_hart (k_lk s)) + 1000000) (l_hart (k_lk s));
  ha_nextpid : k_nextpid s' = k_nextpid s;
  ha_init : k_initproc s' = k_initproc s;
  ha_first : k_first s' = k_first s
}.

Lemma clockintr_ok s : k_ok s -> lock_free L_ticks (k_lk s) ->
  clockintr s = Ok tt
    (with_lk (set_hart (w_stimecmp (h_time (l_hart (k_lk s)) + 1000000)) (settle (k_lk s)))
      (with_procs (wake1 P_ticks <$> k_procs s) (with_ticks (u32 (k_ticks s + 1)) s))).
Proof.
  intros Hk Hl. unfold clockintr, cpuid_k. mstep. destruct (ok_lk _ Hk) as [Hwf Hi].
  rewrite (cpuid_0 _ (proj1 (proj2 Hwf))). change (0 =? 0) with true. cbv iota.
  rewrite bind_assoc. mrun (acquire_run L_ticks s (ok_lk _ Hk) Hl). rewrite bind_assoc. mstep.
  rewrite bind_assoc. set (s1 := with_ticks _ _).
  destruct (k_ok_acquired s L_ticks Hk ltac:(done) Hl) as [Hk1 Hr1].
  assert (k_ok s1) as Hk2 by (by apply (k_ok_same (with_lk (acquired L_ticks (k_lk s)) s))).
  mrun (wakeup_ok s1 P_ticks Hk2).
  rewrite (settled_at_rest s1) by (unfold at_rest; cbn; by apply settle_acquired).
  set (s2 := with_procs _ s1).
  rewrite (bind_ok _ _ _ _ _ (release_run L_ticks s2 (k_lk s) Hwf Hi Hl eq_refl)).
  unfold csr, set_csr. mstep. cbn. rewrite settle_hart. reflexivity.
Qed.

Lemma wfl_ok l l' : lk_wf l -> l_hart l' = l_hart l -> l_cpus l' <> [] -> lk_wf l'.
Proof. intros (Hh & Ht & Hc) E Hc'. split_and!; by rewrite ?E. Qed.

Lemma set_hart_wf f l : lk_wf l -> hart_ok (f (l_hart l)) -> h_tp (f (l_hart l)) = h_tp (l_hart l) ->
  lk_wf (set_hart f l).
Proof. intros (Hh & Ht & Hc) Hf Htp. split_and!; cbn; [done|congruence|done]. Qed.

Lemma set_hart_mycpu f l : h_tp (f (l_hart l)) = h_tp (l_hart l) -> mycpu (set_hart f l) = mycpu l.
Proof. intros E. unfold mycpu, cpuid, r_tp. cbn. by rewrite E. Qed.

(** A change of a register other than the status, and of the console. *)
Lemma intr_ok_hart s f :
  intr_ok s -> h_sstatus (f (l_hart (k_lk s))) = h_sstatus (l_hart (k_lk s)) ->
  h_tp (f (l_hart (k_lk s))) = h_tp (l_hart (k_lk s)) ->
  intr_ok (with_lk (set_hart f (k_lk s)) s).
Proof.
  intros [[[[Hwf [Hn Hi]] Hlen Hf] Hl Hc] Ht] Es Etp. split; [|done].
  split; [|done|done]. split; [|done|done]. split; cbn.
  - apply set_hart_wf; [done|unfold hart_ok; rewrite Es; apply Hwf|done].
  - split; rewrite set_hart_mycpu by done; [done|]. cbn. rewrite !SIE_bit in *. by rewrite Es.
Qed.

Lemma clockintr_handled s : intr_ok s -> exists s', clockintr s = Ok tt s' /\ handled s s'.
Proof.
  intros [[Hk Hl Hc] Ht]. rewrite (clockintr_ok s Hk Ht). eexists. split; [reflexivity|].
  destruct (ok_lk _ Hk) as [Hwf Hi]. split; cbn; try done.
  - set (s1 := with_procs (wake1 P_ticks <$> k_procs s) (with_ticks (u32 (k_ticks s + 1)) s)).
    assert (intr_ok (settled s1)) as Hs.
    { split; [|by apply settle_free]. split; [|by apply settle_free|done].
      apply settled_ok, k_ok_procs; [by apply (k_ok_same s)|]. rewrite length_fmap. apply Hk. }
    by apply (intr_ok_hart _ _ Hs).
  - by apply (woken_one _ _ P_ticks).
  - rewrite set_hart_mycpu, settle_noff; done.
  - rewrite set_hart_mycpu, settle_cproc; done.
  - by rewrite settle_locks.
  - right. by rewrite settle_hart.
Qed.

Context `{!UartLaws}.

Lemma handled_trans s1 s2 s3 : handled s1 s2 -> l_hart (k_lk s2) = l_hart (k_lk s1) ->
  handled s2 s3 -> handled s1 s3.
Proof.
  intros [A1 A2 A3 A4 A5 A6 A7 A8 A9 A10] Eh [B1 B2 B3 B4 B5 B6 B7 B8 B9 B10].
  split; try congruence; try done.
  by eapply woken_trans.
Qed.

Lemma handled_plic s x : intr_ok s -> handled s (with_plic x s).
Proof.
  intros [[Hk Hl Hc] Ht]. split; try done; [|by apply woken_same|by left].
  split; [|done]. split; [by apply (k_ok_same s)|done|done].
Qed.

Lemma uartintr_handled s : intr_ok s ->
  exists s', uartintr s = Ok tt s' /\ handled s s' /\ l_hart (k_lk s') = l_hart (k_lk s).
Proof.
  intros [Hc Ht]. destruct (uartintr_ok s Hc) as (l & s' & E & Hc' & F & _ & _ & _ & _ & [L1 L2 L3 L4] & W).
  exists s'. split; [done|]. split; [|done]. destruct F. split; try done; [|by left].
  split; [done|]. unfold lock_free in *. by rewrite L2.
Qed.

(** Console output leaves everything but the UART alone. *)
Lemma printf_handled s fmt ap t : intr_ok s -> text (bytes fmt) ap = Some t -> t <> [] ->
  exists s', printf fmt ap s = Ok 0 s' /\ handled s s' /\ l_hart (k_lk s') = l_hart (k_lk s) /\
    k_procs s' = k_procs s.
Proof.
  intros [[Hk Hl Hc] Ht] Htx Hne.
  destruct (printf_ok s fmt ap t (ok_lk _ Hk) Htx Hne) as (s' & E & (u & e & -> & _) & _).
  eexists. split; [exact E|]. destruct (ok_lk _ Hk) as [Hwf Hi]. cbn.
  split; [|split; [apply settle_hart|done]].
  split; cbn; try done.
  - split; [|by apply settle_free]. split; [|by apply settle_free|done].
    by apply (k_ok_same (settled s)); [apply settled_ok|..].
  - by apply woken_same.
  - by rewrite settle_noff.
  - by rewrite settle_cproc.
  - by rewrite settle_locks.
  - left. apply settle_hart.
Qed.

Lemma plic_claim_run s : exists q pl, plic_claim s = Ok q (with_plic pl s).
Proof.
  unfold plic_claim, cpuid_k, plic_load. mstep.
  destruct (plic_read (PLIC_SCLAIM (cpuid (k_lk s))) (k_plic s)) as [irq pl] eqn:E.
  exists (s32 (u32 irq)), pl. unfold mbind, M_bind. by rewrite E.
Qed.

Definition is_intr (c : Z) : Prop := c = SCAUSE_EXT \/ c = SCAUSE_TIMER.

Lemma devintr_handled s :
  intr_ok s -> is_intr (h_scause (l_hart (k_lk s))) ->
  exists d s', devintr s = Ok d s' /\ d <> 0 /\ handled s s'.
Proof.
  intros Hok Hc. unfold devintr, csr, r_scause. mstep.
  destruct Hc as [-> | ->].
  2: { change (SCAUSE_TIMER =? SCAUSE_EXT) with false. change (SCAUSE_TIMER =? SCAUSE_TIMER) with true.
       cbv iota. destruct (clockintr_handled s Hok) as (s' & E & Hh). mrun E. by exists 2, s'. }
  change (SCAUSE_EXT =? SCAUSE_EXT) with true. cbv iota.
  destruct (plic_claim_run s) as (q & pl & E). mrun E. set (s1 := with_plic pl s).
  pose proof (handled_plic s pl Hok) as H1. fold s1 in H1. pose proof (ha_ok _ _ H1) as Hok1.
  assert (exists s2, (if q =? UART0_IRQ then uartintr
     else if negb (q =? 0) then
       printf "unexpected interrupt irq=%d
" [A32 q];; mret tt
     else mret tt) s1 = Ok tt s2 /\ handled s1 s2 /\ l_hart (k_lk s2) = l_hart (k_lk s1))
    as (s2 & E2 & H2 & Eh2).
  { destruct (q =? UART0_IRQ); [by apply uartintr_handled|]. destruct (q =? 0); cbn [negb].
    - exists s1. split; [done|]. split; [|done]. replace s1 with (with_plic (k_plic s1) s1) at 2 by done.
      by apply handled_plic.
    - edestruct (printf_handled s1 "unexpected interrupt irq=%d
" [A32 q]) as (s2 & E' & Hh & Eh & _); [done|reflexivity|discriminate|]. mrun E'. by exists s2. }
  mrun E2. pose proof (handled_trans s s1 s2 H1 eq_refl H2) as H12.
  destruct (q =? 0); cbn [negb]; mstep.
  - by exists 1, s2.
  - unfold plic_complete, cpuid_k, plic_store. rewrite bind_assoc. mstep.
    eexists 1, _. split; [reflexivity|]. split; [done|].
    apply (handled_trans s s2); [done|by rewrite Eh2|]. apply handled_plic, H2.
Qed.

(** Interrupts are transparent to the kernel code they interrupt:
    [kerneltrap], entered in supervisor mode with interrupts off, for a timer
    or an external interrupt handles it and returns with [sepc] and [sstatus]
    exactly as they were (so the [sret] of kernelvec resumes the interrupted
    code in its mode, with its enable bit), the same current process, the
    same nesting depth, every lock as before, no change to memory, and each
    process unchanged except that it may have been woken up. *)
Theorem kerneltrap_transparent s :
  intr_ok s -> is_intr (h_scause (l_hart (k_lk s))) ->
  Z.testbit (h_sstatus (l_hart (k_lk s))) 8 = true -> intr_get (l_hart (k_lk s)) = false ->
  0 <= h_sepc (l_hart (k_lk s)) < 2 ^ 64 ->
  exists s', kerneltrap s = Ok tt s' /\ intr_ok s' /\
    h_sepc (l_hart (k_lk s')) = h_sepc (l_hart (k_lk s)) /\
    h_sstatus (l_hart (k_lk s')) = h_sstatus (l_hart (k_lk s)) /\
    c_proc (mycpu (k_lk s')) = c_proc (mycpu (k_lk s)) /\
    c_noff (mycpu (k_lk s')) = c_noff (mycpu (k_lk s)) /\
    l_locks (k_lk s') = l_locks (k_lk s) /\ k_vm s' = k_vm s /\ woken s s'.
Proof.
  intros Hok Hc Hspp Hie Hpc. unfold kerneltrap, csr. mstep. unfold r_sstatus, r_sepc.
  unfold SSTATUS_SPP. rewrite land_bit, Hspp by lia. cbn [negb]. mstep. rewrite Hie. mstep.
  destruct (devintr_handled s Hok Hc) as (d & s1 & E & Hd & Hh). mrun E.
  destruct (Z.eqb_spec d 0); [done|].
  set (f := fun h => w_sstatus (h_sstatus (l_hart (k_lk s))) (w_sepc (h_sepc (l_hart (k_lk s))) h)).
  exists (with_lk (set_hart f (k_lk s1)) s1). split; [reflexivity|].
  pose proof (proj1 (ok_lk _ (con_k _ (io_con _ Hok)))) as (Hst & _ & _). unfold hart_ok in Hst.
  assert (h_sstatus (l_hart (k_lk s1)) = h_sstatus (l_hart (k_lk s))) as Es
    by (by destruct (ha_hart _ _ Hh) as [-> | ->]).
  split; [apply intr_ok_hart; [apply Hh| |done]; cbn; rewrite u64_small by done; congruence|].
  cbn [k_lk with_lk l_hart set_hart k_vm l_locks]. unfold f at 1 2. cbn [h_sepc h_sstatus w_sepc w_sstatus].
  rewrite !u64_small by done. rewrite !set_hart_mycpu by done.
  destruct Hh. split_and!; done.
Qed.
End TrapSpec.

(** The kernel of [demo_k] interrupted by the timer or the UART. *)
Definition interrupted_k (cause : Z) : @kstate fifo_machine :=
  with_lk (mkLk (mkHart 0 0 0 0x120 0 0 0 0x80001234 0 0 0 0 0 0 0 0 cause 0 0 7 0)
             (replicate NCPU (mkCpu (Some 0%nat) (mkContext PC_none 0) 0 true)) demo_locks)
    (demo_k (mkVm ∅ KERNBASE) [108; 115; 13]).

Lemma interrupted_k_ok cause : intr_ok (interrupted_k cause).
Proof.
  split; [|by apply demo_locks_free].
  split; [|by apply demo_locks_free|split; cbn; try lia; done].
  split; [|reflexivity|intros i Hi; by apply demo_locks_free].
  split; split; try (vm_compute; split; congruence); try done; vm_compute; done.
Qed.

Lemma kerneltrap_transparent_witness :
  exists s', kerneltrap (interrupted_k SCAUSE_EXT) = Ok tt s' /\ intr_ok s' /\
    h_sepc (l_hart (k_lk s')) = 0x80001234 /\ h_sstatus (l_hart (k_lk s')) = 0x120 /\
    woken (interrupted_k SCAUSE_EXT) s'.
Proof.
  destruct (kerneltrap_transparent (interrupted_k SCAUSE_EXT))
    as (s' & E & Hok & Epc & Est & _ & _ & _ & _ & Hw).
  - apply interrupted_k_ok.
  - left. reflexivity.
  - reflexivity.
  - reflexivity.
  - cbn. lia.
  - exists s'. split; [exact E|]. split; [exact Hok|]. split; [exact Epc|]. split; [exact Est|exact Hw].
Defined.

Lemma usertrapret_correct_witness :
  exists s', usertrapret (interrupted_k 8) = Ok tt s' /\
    intr_get (hw_sret (l_hart (k_lk s'))) = true /\ Z.testbit (h_sstatus (l_hart (k_lk s'))) 8 = false.
Proof.
  destruct (usertrapret_correct (interrupted_k 8) 0%nat) as (s' & E & _ & H8 & H5 & _).
  - apply interrupted_k_ok.
  - split; [unfold NPROC; lia|reflexivity].
  - exists s'. split; [exact E|]. split; [exact H5|exact H8].
Defined.
