(* ===== verification/SyscallSpec.v ===== *)
(** System calls end to end: from the trap to the return to user code
    (kernel/trap.c, kernel/syscall.c, kernel/sysproc.c). *)

From stdpp Require Import base gmap list strings numbers.
From Stdlib Require Import ZArith Lia.
From S2P Require Import Prelude Mem KString Riscv Kdefs Spinlock Vm PageTable UserVm UserCopy Printf KState Uart Proc ProcSpec Console ConsoleSpec Exec Syscall Trap TrapSpec.

Section SyscallSpec.
Context `{Machine}.
Implicit Types s : kstate.

(** Changing the memory of the trapframe page. *)
Definition on_ram (f : mem -> mem) (s : kstate) : kstate := with_vm (on_mem f (k_vm s)) s.

Lemma put_tf_run i r x s :
  put_tf i r x s = Ok tt (on_ram (fun m => tf_set m (p_trapframe (the_proc i s)) r x) s).
Proof. reflexivity. Qed.

Lemma k_ok_ram f s : k_ok s -> k_ok (on_ram f s).
Proof. intros Hk. by apply (k_ok_same s). Qed.

(** A system call that only produces a value. *)
Definition returns (i : nat) (s : kstate) (x : Z) : Prop :=
  syscall s = Ok (KRet x)
    (on_ram (fun m => tf_set m (p_trapframe (the_proc i s)) TF_a0 x) (settled s)).

(** ** The dispatch *)

Definition sysno (i : nat) (s : kstate) : Z :=
  s32 (tf_get (v_mem (k_vm s)) (p_trapframe (the_proc i s)) TF_a7).

Lemma syscalls_range n f : syscalls n = Some f -> (0 <? n) && (n <? SYS_write + 1) = true.
Proof.
  unfold syscalls, SYS_fork, SYS_exit, SYS_wait, SYS_read, SYS_exec, SYS_getpid, SYS_write.
  intros E. repeat match type of E with context [n =? ?y] => destruct (Z.eqb_spec n y) end;
    subst; done.
Qed.

Lemma syscall_run s i : k_ok s -> running_as i s ->
  syscall s = match syscalls (sysno i s) with
              | Some f => (r ← f; syscall_return i r) (settled s)
              | None => syscall_return i (KRet (-1)) (settled s)
              end.
Proof.
  intros Hk Hr. unfold syscall. mrun (mine_ok s i Hk Hr). unfold get_tf. mstep.
  change (s32 (tf_get _ _ TF_a7)) with (sysno i s).
  destruct (syscalls (sysno i s)) as [f|] eqn:E.
  - by rewrite (syscalls_range _ f E).
  - by destruct ((0 <? sysno i s) && (sysno i s <? SYS_write + 1)).
Qed.

(** An unknown number: -1. *)
Lemma returns_unknown s i : k_ok s -> running_as i s -> syscalls (sysno i s) = None ->
  returns i s (-1).
Proof. intros Hk Hr E. unfold returns. by rewrite (syscall_run s i Hk Hr), E. Qed.

(** getpid *)
Lemma returns_getpid s i : k_ok s -> running_as i s -> sysno i s = SYS_getpid ->
  returns i s (p_pid (the_proc i s)).
Proof.
  intros Hk Hr E. unfold returns. rewrite (syscall_run s i Hk Hr), E.
  change (syscalls SYS_getpid) with (Some sys_getpid). cbv iota.
  unfold sys_getpid. rewrite bind_assoc.
  mrun (mine_ok (settled s) i (settled_ok s Hk) (running_as_settled i s Hk Hr)).
  rewrite (settled_settled s Hk). reflexivity.
Qed.

(** ** The trap around it *)

(** The trapframe of [i] after the call: [epc] moved on, the result in [a0],
    the kernel's header for the next trap. *)
Definition after_call (m : mem) (tf epc x satp sp trap hartid : Z) : mem :=
  tf_prepared (tf_set (tf_set (tf_set m tf TF_epc epc) tf TF_epc (u64 epc + 4)) tf TF_a0 x)
    tf satp sp trap hartid.

Definition user_reg (r : tfreg) : Prop :=
  r <> TF_kernel_satp /\ r <> TF_kernel_sp /\ r <> TF_kernel_trap /\ r <> TF_kernel_hartid /\
  r <> TF_epc.

Lemma after_call_regs m tf epc x satp sp trap hartid r :
  user_reg r -> tf_get (after_call m tf epc x satp sp trap hartid) tf r =
    if decide (r = TF_a0) then u64 x else tf_get m tf r.
Proof.
  intros (? & ? & ? & ? & ?). unfold after_call. rewrite tf_prepared_other by done.
  case_decide; [subst; apply tf_get_set|]. by rewrite !tf_get_set_ne by done.
Qed.

Lemma after_call_epc m tf epc x satp sp trap hartid :
  tf_get (after_call m tf epc x satp sp trap hartid) tf TF_epc = u64 (epc + 4).
Proof.
  unfold after_call. rewrite tf_prepared_other, tf_get_set_ne, tf_get_set by done.
  unfold u64. by rewrite Zplus_mod_idemp_l.
Qed.

Lemma after_call_load8 m tf epc x satp sp trap hartid b :
  ~ (tf <= b < tf + TF_SIZE) -> load8 (after_call m tf epc x satp sp trap hartid) b = load8 m b.
Proof.
  intros Hb. unfold after_call. rewrite tf_prepared_load8 by done. by rewrite !tf_set_load8.
Qed.

(** Entry of [usertrap] for an [ecall]: the state in which [syscall] runs. *)
Definition in_syscall (i : nat) (s : kstate) : kstate :=
  let tf := p_trapframe (the_proc i s) in
  let epc := h_sepc (l_hart (k_lk s)) in
  let l := settle (set_hart (w_stvec sym_kernelvec) (k_lk s)) in
  with_lk (set_hart intr_on l)
    (on_ram (fun m => tf_set (tf_set m tf TF_epc epc) tf TF_epc (u64 epc + 4)) s).

Lemma k_ok_hart f s : k_ok s -> c_noff (mycpu (k_lk s)) = 0 ->
  hart_ok (f (l_hart (k_lk s))) -> h_tp (f (l_hart (k_lk s))) = h_tp (l_hart (k_lk s)) ->
  k_ok (with_lk (set_hart f (k_lk s)) s).
Proof.
  intros [[Hwf Hi] Hn Hf] H0 Hh Ht. split; [|done|done]. split; cbn; [by apply set_hart_wf|].
  split; rewrite set_hart_mycpu by done; lia.
Qed.

Record ecall_entry (s : kstate) (i : nat) : Prop := {
  ee_ok : k_ok s;
  ee_run : running_as i s;
  ee_noff : c_noff (mycpu (k_lk s)) = 0;
  ee_user : Z.testbit (h_sstatus (l_hart (k_lk s))) 8 = false;
  ee_cause : h_scause (l_hart (k_lk s)) = 8
}.

Lemma in_syscall_ok s i : ecall_entry s i ->
  k_ok (in_syscall i s) /\ running_as i (in_syscall i s) /\ c_noff (mycpu (k_lk (in_syscall i s))) = 0.
Proof.
  intros [Hk [Hi Hc] Hn _ _]. pose proof (ok_lk _ Hk) as [Hwf Hirq].
  set (s1 := with_lk (set_hart (w_stvec sym_kernelvec) (k_lk s)) s).
  assert (k_ok s1) as Hk1 by (apply k_ok_hart; [done|done|apply Hwf|done]).
  assert (lk_wf (k_lk s1)) as Hwf1 by (apply (ok_lk _ Hk1)).
  assert (c_noff (mycpu (settle (k_lk s1))) = 0) as Hn1.
  { rewrite settle_noff by done. cbn. by rewrite set_hart_mycpu. }
  unfold in_syscall. split; [|split; [split; [done|]|]].
  - apply (k_ok_same (with_lk (set_hart intr_on (k_lk (settled s1))) (settled s1))); [|done|done].
    apply k_ok_hart; [by apply settled_ok|exact Hn1|apply hart_ok_w_sstatus|done].
  - cbn. rewrite set_hart_mycpu, settle_cproc, set_hart_mycpu by done. done.
  - cbn. rewrite set_hart_mycpu by done. exact Hn1.
Qed.

Lemma usertrap_ecall s i : ecall_entry s i ->
  usertrap s = (r ← syscall; after_syscall i r) (in_syscall i s).
Proof.
  intros [Hk Hr Hn Hu Hc]. pose proof (ok_lk _ Hk) as [Hwf Hirq]. unfold usertrap, csr. mstep.
  unfold r_sstatus, SSTATUS_SPP. rewrite land_bit, Hu by lia. cbn [negb]. cbv iota.
  unfold set_csr. set (s1 := with_lk (set_hart (w_stvec sym_kernelvec) (k_lk s)) s).
  rewrite (bind_ok _ _ s tt s1) by reflexivity.
  assert (k_ok s1) as Hk1 by (apply k_ok_hart; [done|done|apply Hwf|done]).
  assert (running_as i s1) as Hr1.
  { destruct Hr as [Hi Hp]. split; [done|]. cbn. by rewrite set_hart_mycpu. }
  mrun (mine_ok s1 i Hk1 Hr1). mstep. rewrite (bind_ok _ _ _ _ _ (put_tf_run i TF_epc _ _)). mstep.
  unfold r_scause. cbn [k_lk on_ram with_vm settled with_lk l_hart].
  rewrite settle_hart. cbn [l_hart k_lk with_lk set_hart s1 h_scause w_stvec]. rewrite Hc.
  change (8 =? 8) with true. cbv iota. unfold get_tf. mstep.
  rewrite (bind_ok _ _ _ _ _ (put_tf_run i TF_epc _ _)).
  match goal with |- (_ ≫= _) ?st = _ =>
    replace st with (on_ram (fun m => tf_set (tf_set m (p_trapframe (the_proc i s)) TF_epc
       (h_sepc (l_hart (k_lk s)))) (p_trapframe (the_proc i s)) TF_epc
       (u64 (h_sepc (l_hart (k_lk s))) + 4)) (settled s1)) end.
  - reflexivity.
  - unfold r_sepc, on_ram, on_mem, the_proc. cbn. rewrite ?settle_hart, tf_get_set. reflexivity.
Qed.
(** A value-only system call, from the trap to the return. *)
Lemma usertrap_returns s i x :
  ecall_entry s i -> returns i (in_syscall i s) x -> p_killed (the_proc i s) = 0 ->
  exists s', usertrap s = Ok (U_ret (MAKE_SATP (p_pagetable (the_proc i s)))) s' /\
    v_mem (k_vm s') = after_call (v_mem (k_vm s)) (p_trapframe (the_proc i s))
      (h_sepc (l_hart (k_lk s))) x (r_satp (l_hart (k_lk s))) (p_kstack (the_proc i s) + PGSIZE)
      sym_usertrap (r_tp (l_hart (k_lk s))) /\
    h_sepc (l_hart (k_lk s')) = u64 (h_sepc (l_hart (k_lk s)) + 4) /\
    k_procs s' = k_procs s /\ v_freemem (k_vm s') = v_freemem (k_vm s).
Proof.
  intros He Hx Hkill. rewrite (usertrap_ecall s i He).
  destruct (in_syscall_ok s i He) as (Hk1 & Hr1 & Hn1). set (s1 := in_syscall i s) in *.
  unfold returns in Hx. mrun Hx. set (s2 := on_ram _ (settled s1)). cbn [after_syscall].
  assert (k_ok s2) as Hk2 by (apply k_ok_ram, settled_ok, Hk1).
  assert (running_as i s2) as Hr2 by (exact (running_as_settled i s1 Hk1 Hr1)).
  unfold usertrap_end. mrun (killed_ok s2 i Hk2 (proj1 Hr2)).
  change (the_proc i s2) with (the_proc i s). rewrite Hkill. change (negb (0 =? 0)) with false. cbv iota.
  pose proof (settled_ok s2 Hk2) as Hk3. pose proof (running_as_settled i s2 Hk2 Hr2) as Hr3.
  set (s3 := settled s2) in *. mrun (usertrapret_ok s3 i Hk3 Hr3). mstep.
  eexists. split; [reflexivity|]. cbn [k_vm k_procs k_lk with_lk with_vm v_mem v_freemem l_hart set_hart].
  assert (l_hart (k_lk s3) = intr_on (w_stvec sym_kernelvec (l_hart (k_lk s)))) as Eh.
  { unfold s3, s2, settled. cbn. by rewrite !settle_hart; cbn; rewrite settle_hart. }
  rewrite settle_hart, Eh. change (the_proc i s3) with (the_proc i s).
  split; [reflexivity|]. split; [|split; [reflexivity|reflexivity]].
  cbn [h_sepc hart_ret w_sepc]. 
  change (v_mem (k_vm s3)) with
    (tf_set (tf_set (tf_set (v_mem (k_vm s)) (p_trapframe (the_proc i s)) TF_epc (h_sepc (l_hart (k_lk s))))
       (p_trapframe (the_proc i s)) TF_epc (u64 (h_sepc (l_hart (k_lk s))) + 4))
       (p_trapframe (the_proc i s)) TF_a0 x).
  rewrite tf_get_set_ne, tf_get_set by done. rewrite (u64_small (u64 _)) by apply u64_range.
  unfold u64. by rewrite Zplus_mod_idemp_l.
Qed.

(** C37: an [ecall] with a number that is not one of the seven implemented
    calls (0, negative, one of the unimplemented xv6 numbers, or beyond the
    table) never harms the kernel: the trap returns to the calling process
    with -1 in [a0], at the instruction after the [ecall], with every other
    user register, all memory outside its trapframe and the process table
    unchanged. *)
Theorem unknown_syscall_returns_minus_one s i :
  ecall_entry s i -> p_killed (the_proc i s) = 0 ->
  (forall f, syscalls (sysno i s) <> Some f) ->
  let tf := p_trapframe (the_proc i s) in
  exists s', usertrap s = Ok (U_ret (MAKE_SATP (p_pagetable (the_proc i s)))) s' /\
    h_sepc (l_hart (k_lk s')) = u64 (h_sepc (l_hart (k_lk s)) + 4) /\
    tf_get (v_mem (k_vm s')) tf TF_a0 = 2 ^ 64 - 1 /\
    (forall r, user_reg r -> r <> TF_a0 ->
       tf_get (v_mem (k_vm s')) tf r = tf_get (v_mem (k_vm s)) tf r) /\
    (forall b, ~ (tf <= b < tf + TF_SIZE) -> load8 (v_mem (k_vm s')) b = load8 (v_mem (k_vm s)) b) /\
    k_procs s' = k_procs s.
Proof.
  intros He Hk Hno tf. destruct (in_syscall_ok s i He) as (Hk1 & Hr1 & _).
  assert (sysno i (in_syscall i s) = sysno i s) as Es.
  { unfold sysno. f_equal. unfold in_syscall. cbn. change (the_proc i _) with (the_proc i s).
    by rewrite !tf_get_set_ne by done. }
  destruct (usertrap_returns s i (-1) He) as (s' & E & Em & Epc & Ep & _); [|done|].
  { apply returns_unknown; [done|done|]. rewrite Es.
    destruct (syscalls (sysno i s)) as [f|]; [by destruct (Hno f)|done]. }
  exists s'. split; [exact E|]. split; [exact Epc|]. rewrite Em. fold tf. split_and!.
  - rewrite after_call_regs; [done|]. by repeat split.
  - intros r Hr Hne. rewrite after_call_regs by done. by rewrite decide_False.
  - intros b Hb. by apply after_call_load8.
  - exact Ep.
Qed.
End SyscallSpec.

(** Process 0 of [demo_k] with a trapframe, at an [ecall]. *)
Definition ecall_k (num : Z) : @kstate fifo_machine :=
  with_lk (mkLk (mkHart 0 0 0 0 0 0 0 0x120 0 0 0 0 0 0 0 0 8 0 0 0 0)
             (replicate NCPU (mkCpu (Some 0%nat) (mkContext PC_none 0) 0 true)) demo_locks)
    (with_procs (alter (set_trapframe 0x80300000) 0%nat (k_procs (demo_k (mkVm ∅ KERNBASE) [])))
      (demo_k (mkVm (tf_set ∅ 0x80300000 TF_a7 num) (KERNBASE + 0x400000)) [])).

Lemma ecall_k_entry num : ecall_entry (ecall_k num) 0%nat.
Proof.
  split; try reflexivity.
  - split; [|reflexivity|intros i Hi; by apply demo_locks_free].
    split; split; try (vm_compute; split; congruence); try done; vm_compute; done.
  - split; [unfold NPROC; lia|reflexivity].
Qed.

Lemma unknown_syscall_returns_minus_one_witness :
  exists s', usertrap (ecall_k 99) = Ok (U_ret (MAKE_SATP 0)) s' /\
    h_sepc (l_hart (k_lk s')) = 0x124 /\
    tf_get (v_mem (k_vm s')) 0x80300000 TF_a0 = 2 ^ 64 - 1.
Proof.
  destruct (unknown_syscall_returns_minus_one (ecall_k 99) 0%nat) as (s' & E & Epc & Ea & _).
  - apply ecall_k_entry.
  - reflexivity.
  - intros f. replace (sysno 0 (ecall_k 99)) with 99 by (vm_compute; reflexivity). discriminate.
  - exists s'. split; [exact E|]. split; [exact Epc|exact Ea].
Defined.
