(* ===== verification/Boot.v ===== *)
(** kernel/start.c and kernel/main.c: from machine mode to the scheduler. *)

From stdpp Require Import base gmap list strings numbers.
From Stdlib Require Import ZArith Lia.
From S2P Require Import Prelude Mem KString Riscv Kdefs Spinlock Vm Printf KState Uart Proc Console Exec Syscall Trap.

Section Boot.
Context `{Machine}.

(** * start.c *)

Definition timerinit (h : hart) : hart :=
  let h := w_menvcfg (Z.lor (r_menvcfg h) MENVCFG_STCE) h in
  let h := w_mcounteren (Z.lor (r_mcounteren h) 2) h in
  w_stimecmp (r_time h + 1000000) h.

(** The registers at the [mret]. *)
Definition start (h : hart) : hart :=
  let x := r_mstatus h in
  let x := Z.ldiff x MSTATUS_MPP_MASK in
  let x := Z.lor x MSTATUS_MPP_S in
  let x := Z.ldiff x (Z.shiftl 1 3) in
  let h := w_mstatus x h in
  let h := w_mepc sym_main h in
  let h := w_satp 0 h in
  let h := w_medeleg 0xffff h in
  let h := w_mideleg 0xffff h in
  let h := w_sie (Z.lor (Z.lor (r_sie h) SIE_SEIE) SIE_STIE) h in
  let h := w_pmpaddr0 0x3fffffffffffff h in
  let h := w_pmpcfg0 0xf h in
  let h := timerinit h in
  w_tp (r_mhartid h) h.

(** * Kernel page table *)

Definition kvminit : M kstate unit :=
  pt ← vm (kvmmake NPROC sym_etext sym_trampoline);
  modify (with_kpgtbl pt).

Definition kvminithart : M kstate unit :=
  pt ← gets k_kpgtbl;
  set_csr (w_satp (MAKE_SATP pt)).

(** * main.c *)

(** The loop over a C string, here over its bytes. *)
Definition banner_checksum (body : list Z) : Z := foldl (fun sum c => s32 (sum + u8 c)) 0 body.

(** The bytes of the C string in an array. *)
Fixpoint c_string (fuel : nat) (buf : mem) (i : Z) : list Z :=
  match fuel with
  | O => []
  | S f => if load8 buf i =? 0 then [] else load8 buf i :: c_string f buf (i + 1)
  end.

Definition banner_fmt : string := "OSLAB1 sid=%ld mod97=0x%x".

(** The two [printf]s of the banner and the [snprintf] before them. *)
Definition banner : M kstate unit :=
  match snprintf 64 (bytes banner_fmt) [A64 COURSE_SID; A32 (COURSE_SID mod 97)] ∅ with
  | Ok _ buf =>
      let body := c_string 64 buf 0 in
      printf "%s
[chk=%d]" [AStr (Some body); A32 (banner_checksum body)];;
      printf "
OSLAB2: traps, syscalls, interrupt-driven console
" [];;
      mret tt
  | Panic e _ => panic e
  | Diverge _ => out_of_fuel
  end.

(** [main] up to the call of the scheduler; a hart other than 0 spins. *)
Definition main : M kstate unit :=
  id ← cpuid_k;
  if negb (id =? 0) then out_of_fuel else
  consoleinit;;
  banner;;
  vm (kinit sym_end);;
  kvminit;;
  kvminithart;;
  procinit;;
  trapinit;;
  trapinithart;;
  plicinit;;
  plicinithart;;
  userinit;;
  scheduler_start.
End Boot.
