(* ===== verification/BootSpec.v ===== *)
(** The boot sequence: machine-mode setup, the banner, the initial process
    table (kernel/start.c, kernel/main.c, [procinit] of kernel/proc.c). *)

From stdpp Require Import base gmap list strings numbers.
From Stdlib Require Import ZArith Lia.
From S2P Require Import Prelude Mem KString Riscv Kdefs Spinlock Vm PageTable UserVm UserCopy Printf KState Uart Proc ProcSpec Console ConsoleSpec Exec Syscall Trap TrapSpec Boot.

Section BootSpec.
Context `{Machine}.
Implicit Types s : kstate.

(** [start] sets up the descent to supervisor mode: in [mstatus] exactly
    the previous-privilege field becomes S and the machine interrupt enable
    is cleared, every other bit is kept; [mepc] is [main], paging is off, all
    delegable exceptions and interrupts are delegated, external and timer
    interrupts are enabled in [sie] with its other bits kept, the timer
    extension is on with the first tick 1000000 from now, and [tp] holds the
    hart id. *)
Theorem start_correct h :
  let h' := start h in
  (forall n, 0 <= n < 64 -> n <> 3 -> n <> 11 -> n <> 12 ->
     Z.testbit (h_mstatus h') n = Z.testbit (h_mstatus h) n) /\
  Z.testbit (h_mstatus h') 3 = false /\ Z.testbit (h_mstatus h') 11 = true /\
  Z.testbit (h_mstatus h') 12 = false /\
  h_mepc h' = u64 sym_main /\ h_satp h' = 0 /\ h_medeleg h' = 0xffff /\ h_mideleg h' = 0xffff /\
  (forall n, 0 <= n < 64 -> Z.testbit (h_sie h') n = Z.testbit (h_sie h) n || (n =? 9) || (n =? 5)) /\
  Z.testbit (h_menvcfg h') 63 = true /\ Z.testbit (h_mcounteren h') 1 = true /\
  h_stimecmp h' = u64 (h_time h + 1000000) /\ h_tp h' = u64 (h_mhartid h) /\
  h_sstatus h' = h_sstatus h.
Proof.
  cbv zeta. unfold start, timerinit.
  cbn -[Z.lor Z.ldiff Z.shiftl Z.testbit u64 Z.eqb Z.add MSTATUS_MPP_MASK MSTATUS_MPP_S SIE_SEIE SIE_STIE MENVCFG_STCE].
  assert (forall k n, 0 <= k -> 0 <= n -> Z.testbit (Z.shiftl 1 k) n = (n =? k)) as H1.
  { intros k n Hk Hn. rewrite Z.shiftl_1_l. destruct (Z.eqb_spec n k) as [->|];
      [by apply Z.pow2_bits_true|by apply Z.pow2_bits_false]. }
  assert (forall n, 0 <= n -> Z.testbit MSTATUS_MPP_MASK n = (n =? 11) || (n =? 12)) as Hm.
  { intros n Hn. replace MSTATUS_MPP_MASK with (Z.lor (Z.shiftl 1 11) (Z.shiftl 1 12)) by done.
    by rewrite Z.lor_spec, !H1 by lia. }
  assert (forall x n, 0 <= n < 64 ->
    Z.testbit (u64 (Z.ldiff (Z.lor (Z.ldiff x MSTATUS_MPP_MASK) MSTATUS_MPP_S) (Z.shiftl 1 3))) n =
    (Z.testbit x n && negb ((n =? 11) || (n =? 12)) || (n =? 11)) && negb (n =? 3)) as Hst.
  { intros x n Hn. rewrite u64_bits by lia. unfold MSTATUS_MPP_S.
    by rewrite Z.ldiff_spec, lor_ldiff_bits, Hm, !H1 by lia. }
  split_and!; try done.
  - intros n Hn H3 H11 H12. rewrite Hst by lia.
    destruct (Z.eqb_spec n 11), (Z.eqb_spec n 12), (Z.eqb_spec n 3); try lia. cbn.
    by rewrite andb_true_r, orb_false_r, andb_true_r.
  - rewrite Hst by lia. apply andb_false_r.
  - rewrite Hst by lia. cbn. by rewrite andb_false_r.
  - rewrite Hst by lia. cbn. by rewrite andb_false_r.
  - intros n Hn. rewrite u64_bits, !Z.lor_spec by lia. unfold SIE_SEIE, SIE_STIE.
    by rewrite !H1 by lia.
  - rewrite u64_bits, Z.lor_spec by lia. unfold MENVCFG_STCE. rewrite H1 by lia. apply orb_true_r.
  - rewrite u64_bits, Z.lor_spec by lia. apply orb_true_r.
Qed.

Definition banner_text : string := "OSLAB1 sid=2024302111127 mod97=0xe
[chk=2275]
OSLAB2: traps, syscalls, interrupt-driven console
".

Definition banner_body : list Z := bytes "OSLAB1 sid=2024302111127 mod97=0xe".

Lemma banner_snprintf :
  exists buf, snprintf 64 (bytes banner_fmt) [A64 COURSE_SID; A32 (COURSE_SID mod 97)] ∅ = Ok 34 buf /\
    c_string 64 buf 0 = banner_body.
Proof.
  set (r := snprintf 64 (bytes banner_fmt) [A64 COURSE_SID; A32 (COURSE_SID mod 97)] ∅).
  exists (final r). split; vm_compute; reflexivity.
Qed.

(** The boot banner: whatever was on the terminal, [main]'s banner code
    appends exactly the text of expect_banner.txt (the student id, its
    residue in hexadecimal and the byte sum 2275 of the line, computed by the
    code) and the line that announces the second lab, and touches nothing
    but the UART. *)
Theorem banner_correct `{!UartLaws} s :
  lk_ok s ->
  exists s', banner s = Ok tt s' /\ same_but_out s s' /\
    uart_out (k_uart s') = uart_out (k_uart s) ++ bytes banner_text.
Proof.
  intros Hok. unfold banner. destruct banner_snprintf as (buf & -> & ->).
  edestruct (printf_ok s "%s
[chk=%d]" [AStr (Some banner_body); A32 (banner_checksum banner_body)])
    as (s1 & E1 & S1 & O1); [done|vm_compute; reflexivity|discriminate|].
  mrun E1. edestruct (printf_ok s1 "
OSLAB2: traps, syscalls, interrupt-driven console
" []) as (s2 & E2 & S2 & O2); [by eapply same_but_out_ok|vm_compute; reflexivity|discriminate|].
  mrun E2. exists s2. split; [done|]. split; [by eapply same_but_out_trans|].
  rewrite O2, O1, <- app_assoc. f_equal. 
Qed.

(** * The process table *)

Definition lk_init (l : lkst) (x : lockid) (name : string) : lkst :=
  mkLk (l_hart l) (l_cpus l) (<[x := mkLock 0 name]> (l_locks l)).

Lemma lk_init_free l x y name : lock_free y l \/ x = y -> lock_free y (lk_init l x name).
Proof.
  intros Hy. destruct (decide (x = y)) as [->|Hne].
  - eexists. cbn. by rewrite lookup_insert_eq.
  - destruct Hy as [(sl & E & H0)|]; [|done]. exists sl. cbn. by rewrite lookup_insert_ne.
Qed.

Definition fresh_slot (i : nat) (p : proc) : proc :=
  set_kstack (KSTACK (Z.of_nat i)) (set_state UNUSED p).

(** The slots and locks initialised so far. *)
Record inited (n : nat) (s0 s : kstate) : Prop := {
  in_lk : l_hart (k_lk s) = l_hart (k_lk s0) /\ l_cpus (k_lk s) = l_cpus (k_lk s0);
  in_free x : (x = L_pid \/ x = L_wait \/ (exists i, (i < n)%nat /\ x = L_proc i) \/
               lock_free x (k_lk s0)) -> lock_free x (k_lk s);
  in_len : length (k_procs s) = length (k_procs s0);
  in_procs i : (i < n)%nat -> k_procs s !! i = fresh_slot i <$> k_procs s0 !! i;
  in_rest i : (n <= i)%nat -> k_procs s !! i = k_procs s0 !! i;
  in_same : k_vm s = k_vm s0 /\ k_cons s = k_cons s0 /\ k_uart s = k_uart s0 /\
            k_nextpid s = k_nextpid s0
}.

Lemma procinit_loop n : forall k s0 s,
  inited k s0 s ->
  exists s', for_each (seq k n) (fun i =>
    lk (initlock (L_proc i) "proc");;
    upd_proc i (set_state UNUSED);;
    upd_proc i (set_kstack (KSTACK (Z.of_nat i)))) s = Ok tt s' /\ inited (k + n) s0 s'.
Proof.
  induction n as [|n IH]; intros k s0 s Hin; cbn [seq for_each].
  { exists s. split; [done|]. by rewrite Nat.add_0_r. }
  destruct Hin as [[Hh Hc] Hf Hl Hp Hr Hsame].
  edestruct (IH (S k) s0) as (s' & E & Hs'); [|exists s'; split; [exact E|]; by rewrite <- Nat.add_succ_comm].
  split; cbn; try done.
  - intros x Hx. apply lk_init_free. destruct (decide (L_proc k = x)) as [|Hne]; [by right|left].
    apply Hf. destruct Hx as [->|[->|[(i & Hi & ->)|Hx]]]; eauto.
    right. right. left. exists i. split; [|done]. assert (i <> k) by congruence. lia.
  - by rewrite !length_alter.
  - intros i Hi. destruct (decide (i = k)) as [->|Hne].
    + rewrite !list_lookup_alter_eq, Hr by lia. by destruct (k_procs s0 !! k).
    + rewrite !list_lookup_alter_ne by done. apply Hp. lia.
  - intros i Hi. rewrite !list_lookup_alter_ne by lia. apply Hr. lia.
Qed.

(** [procinit] establishes the invariants the kernel runs under: all 64
    slots are UNUSED with their own kernel stack, whose pages are separated by
    guard pages, every process lock and the pid and wait locks exist and are
    free, and nothing else changes. *)
Theorem procinit_establishes s :
  lk_wf (k_lk s) -> irq_ok (k_lk s) -> length (k_procs s) = NPROC ->
  exists s', procinit s = Ok tt s' /\ k_ok s' /\
    lock_free L_pid (k_lk s') /\ lock_free L_wait (k_lk s') /\ k_vm s' = k_vm s /\
    (forall i, (i < NPROC)%nat -> p_state (the_proc i s') = UNUSED /\
       p_kstack (the_proc i s') = KSTACK (Z.of_nat i)) /\
    (forall i j, (i < NPROC)%nat -> (j < NPROC)%nat -> i <> j ->
       p_kstack (the_proc i s') + 2 * PGSIZE <= p_kstack (the_proc j s') \/
       p_kstack (the_proc j s') + 2 * PGSIZE <= p_kstack (the_proc i s')).
Proof.
  intros Hwf Hi Hl. unfold procinit.
  set (s1 := with_lk (lk_init (lk_init (k_lk s) L_pid "nextpid") L_wait "wait_lock") s).
  assert (inited 0 s s1) as H0.
  { split; cbn; try done; [|lia]. intros x Hx. apply lk_init_free.
    destruct (decide (L_wait = x)) as [|Hw]; [by right|left]. apply lk_init_free.
    destruct (decide (L_pid = x)) as [|Hp]; [by right|left].
    destruct Hx as [->|[->|[(i & Hi' & _)|Hx]]]; done || lia. }
  destruct (procinit_loop NPROC 0 s s1 H0) as (s' & E & [[Hh Hc] Hf Hlen Hp _ (Hv & _)]).
  exists s'. split; [exact E|].
  assert (forall i, (i < NPROC)%nat -> p_state (the_proc i s') = UNUSED /\
            p_kstack (the_proc i s') = KSTACK (Z.of_nat i)) as Hslot.
  { intros i Hlt. unfold the_proc. specialize (Hp i Hlt).
    destruct (k_procs s !! i) as [p|] eqn:Ep; [|apply lookup_ge_None in Ep; lia].
    rewrite (list_lookup_total_correct _ _ _ Hp). split; reflexivity. }
  assert (forall x y, Z.of_nat x < Z.of_nat y -> KSTACK (Z.of_nat y) + 2 * PGSIZE <= KSTACK (Z.of_nat x)) as Hst.
  { intros x y Hxy. unfold KSTACK, PGSIZE. lia. }
  split; [|split; [|split; [|split; [exact Hv|split; [exact Hslot|]]]]].
  - split; [|rewrite Hlen; exact Hl|intros i Hlt; apply Hf; right; right; left; exists i; split; [exact Hlt|reflexivity]].
    unfold lk_ok, lk_wf, irq_ok, mycpu, cpuid in *. rewrite Hh, Hc. exact (conj Hwf Hi).
  - apply Hf. by left.
  - apply Hf. right. by left.
  - clear E H0. intros i j Hi' Hj Hne. destruct (Hslot i Hi') as [_ ->], (Hslot j Hj) as [_ ->].
    destruct (decide (i < j)%nat); [right; apply Hst; lia|left; apply Hst; lia].
Qed.
End BootSpec.

Lemma banner_correct_witness :
  exists s', banner (demo_k (mkVm ∅ KERNBASE) []) = Ok tt s' /\
    uart_out (k_uart s') = [] ++ bytes banner_text.
Proof.
  destruct (banner_correct (demo_k (mkVm ∅ KERNBASE) [])) as (s' & E & _ & Ho); [apply demo_lk_ok|].
  exists s'. split; [exact E|exact Ho].
Defined.

Lemma procinit_establishes_witness :
  exists s', procinit (demo_k (mkVm ∅ KERNBASE) []) = Ok tt s' /\ k_ok s' /\
    (forall i, (i < NPROC)%nat -> p_state (the_proc i s') = UNUSED /\
       p_kstack (the_proc i s') = KSTACK (Z.of_nat i)).
Proof.
  destruct (procinit_establishes (demo_k (mkVm ∅ KERNBASE) [])) as (s' & E & Hok & _ & _ & _ & Hs & _).
  - apply (demo_lk_ok (mkVm ∅ KERNBASE) []).
  - apply (demo_lk_ok (mkVm ∅ KERNBASE) []).
  - reflexivity.
  - exists s'. split; [exact E|]. split; [exact Hok|exact Hs].
Defined.
