(* ===== verification/Hoare.v ===== *)
(** Partial-correctness triples over the outcome monad. *)

From stdpp Require Import base gmap list strings numbers.
From Stdlib Require Import ZArith Lia.
From S2P Require Import Prelude Vm.

Definition triple {S A} (P : S -> Prop) (m : M S A) (Q : A -> S -> Prop) : Prop :=
  forall s a s', P s -> m s = Ok a s' -> Q a s'.

Section Triple.
Context {S : Type}.
Implicit Types P : S -> Prop.

Lemma triple_ret {A} P (a : A) : triple P (mret a) (fun _ => P).
Proof. intros s x s' HP [= <- <-]. exact HP. Qed.

Lemma triple_val {A} P (a : A) (Q : A -> S -> Prop) : (forall s, P s -> Q a s) -> triple P (mret a) Q.
Proof. intros HQ s x s' HP [= <- <-]. auto. Qed.

Lemma triple_bind {A B} P (m : M S A) (f : A -> M S B) R Q :
  triple P m R -> (forall a, triple (R a) (f a) Q) -> triple P (m ≫= f) Q.
Proof. intros Hm Hf s b s' HP E. apply bind_ok_inv in E as (a & s1 & E1 & E2). eapply Hf; eauto. Qed.

Lemma triple_weaken {A} P P' (m : M S A) (Q Q' : A -> S -> Prop) :
  triple P' m Q' -> (forall s, P s -> P' s) -> (forall a s, Q' a s -> Q a s) -> triple P m Q.
Proof. intros Hm HP HQ s a s' Hs E. eauto. Qed.

Lemma triple_panic {A} P e (Q : A -> S -> Prop) : triple P (panic e) Q.
Proof. intros s a s' _ [=]. Qed.

Lemma triple_fuel {A} P (Q : A -> S -> Prop) : triple P out_of_fuel Q.
Proof. intros s a s' _ [=]. Qed.

Lemma triple_gets {A} P (f : S -> A) : triple P (gets f) (fun a s => P s /\ a = f s).
Proof. intros s a s' HP [= <- <-]. done. Qed.

Lemma triple_if {A} P (b : bool) (m1 m2 : M S A) Q :
  triple P m1 Q -> triple P m2 Q -> triple P (if b then m1 else m2) Q.
Proof. by destruct b. Qed.

Lemma triple_for_each {A} P (l : list A) (f : A -> M S unit) :
  (forall a, a ∈ l -> triple P (f a) (fun _ => P)) -> triple P (for_each l f) (fun _ => P).
Proof.
  induction l as [|x l IH]; intros Hf; cbn [for_each]; [apply triple_ret|].
  apply (triple_bind P (f x) _ (fun _ => P)); [apply Hf; set_solver|].
  intros _. apply IH. intros a Ha. apply Hf. set_solver.
Qed.
End Triple.
