(* ===== verification/Triple.v ===== *)
(** The routines of the kernel that do not touch the process table ([quiet]):
    the automation behind the invariant proofs of the whole system, on the
    triples of [Hoare]. *)

From stdpp Require Import base gmap list strings numbers.
From Stdlib Require Import ZArith Lia.
From S2P Require Import Prelude Mem KString Riscv Kdefs Spinlock Vm Hoare Printf KState Uart Proc Console Exec Syscall Trap.

(** * Quiet routines *)

Create HintDb quiet.

Section Quiet.
Context `{Machine}.

Definition cproc (s : kstate) : option nat := c_proc (mycpu (k_lk s)).

(** [l'] has the same current process and the same hart as [l]. *)
Definition same_cpu (l l' : lkst) : Prop :=
  c_proc (mycpu l') = c_proc (mycpu l) /\ cpuid l' = cpuid l /\ length (l_cpus l') = length (l_cpus l).

(** The process table and the current process stay as they are. *)
Definition quiet {A} (m : M kstate A) : Prop :=
  forall s a s', m s = Ok a s' -> k_procs s' = k_procs s /\ same_cpu (k_lk s) (k_lk s').

(** The same at the level of the locks. *)
Definition lquiet {A} (m : M lkst A) : Prop :=
  forall l a l', m l = Ok a l' -> same_cpu l l'.

Lemma same_cpu_refl l : same_cpu l l.
Proof. done. Qed.
Lemma same_cpu_trans l1 l2 l3 : same_cpu l1 l2 -> same_cpu l2 l3 -> same_cpu l1 l3.
Proof. unfold same_cpu. intros (?&?&?) (?&?&?). split_and!; congruence. Qed.

Lemma lquiet_ret {A} (a : A) : lquiet (mret a).
Proof. by intros l x l' [= <- <-]. Qed.
Lemma lquiet_bind {A B} (m : M lkst A) (f : A -> M lkst B) :
  lquiet m -> (forall a, lquiet (f a)) -> lquiet (m ≫= f).
Proof.
  intros Hm Hf l b l' E. apply bind_ok_inv in E as (a & l1 & E1 & E2).
  eapply same_cpu_trans; [by eapply Hm|by eapply Hf].
Qed.
Lemma lquiet_panic {A} e : lquiet (panic (A := A) e).
Proof. by intros l a l' [=]. Qed.
Lemma lquiet_gets {A} (f : lkst -> A) : lquiet (gets f).
Proof. by intros l a l' [= <- <-]. Qed.
Lemma lquiet_if {A} (b : bool) (m1 m2 : M lkst A) : lquiet m1 -> lquiet m2 -> lquiet (if b then m1 else m2).
Proof. by destruct b. Qed.

Lemma mycpu_upd f l : mycpu (upd_mycpu f l) = f (mycpu l) \/ mycpu (upd_mycpu f l) = mycpu l.
Proof.
  unfold upd_mycpu. set (l1 := mkLk _ _ _). change (mycpu l1) with
    (<[Z.to_nat (cpuid l) := f (mycpu l)]> (l_cpus l) !!! Z.to_nat (cpuid l)).
  destruct (decide (Z.to_nat (cpuid l) < length (l_cpus l))%nat) as [Hlt|Hge].
  - left. by rewrite list_lookup_total_insert_eq.
  - right. by rewrite list_insert_ge by lia.
Qed.

Lemma lquiet_upd f : (forall c, c_proc (f c) = c_proc c) -> lquiet (modify (upd_mycpu f)).
Proof. 
  intros Hf l a l' [= <- <-]. split_and!.
  - by destruct (mycpu_upd f l) as [-> | ->].
  - done.
  - unfold upd_mycpu. cbn. apply length_insert.
Qed.

Lemma lquiet_hart f : (forall h, h_tp (f h) = h_tp h) -> lquiet (modify (set_hart f)).
Proof. 
  intros Hf l a l' [= <- <-]. unfold same_cpu, mycpu, cpuid, r_tp. cbn. by rewrite Hf.
Qed.

Lemma lquiet_locks f : (forall l, l_hart (f l) = l_hart l /\ l_cpus (f l) = l_cpus l) ->
  lquiet (modify f).
Proof.
  intros Hf l a l' [= <- <-]. destruct (Hf l) as [E1 E2]. unfold same_cpu, mycpu, cpuid. by rewrite E1, E2.
Qed.


Hint Resolve lquiet_ret lquiet_panic lquiet_gets : quiet.

Lemma lquiet_push_off : lquiet push_off.
Proof.
  unfold push_off. apply lquiet_bind; [auto with quiet|intros b].
  apply lquiet_bind; [by apply lquiet_hart|intros _]. apply lquiet_bind; [auto with quiet|intros c].
  apply lquiet_bind; [|intros _; by apply lquiet_upd].
  apply lquiet_if; [by apply lquiet_upd|auto with quiet].
Qed.

Lemma lquiet_pop_off : lquiet pop_off.
Proof.
  unfold pop_off. apply lquiet_bind; [auto with quiet|intros b]. apply lquiet_if; [auto with quiet|].
  apply lquiet_bind; [auto with quiet|intros c]. apply lquiet_if; [auto with quiet|].
  apply lquiet_bind; [by apply lquiet_upd|intros _]. apply lquiet_bind; [auto with quiet|intros c'].
  apply lquiet_if; [by apply lquiet_hart|auto with quiet].
Qed.

Lemma lquiet_acquire x : lquiet (acquire x).
Proof.
  unfold acquire. apply lquiet_bind; [apply lquiet_push_off|intros _].
  apply lquiet_bind; [auto with quiet|intros h]. apply lquiet_if; [auto with quiet|].
  intros l a l'. unfold test_and_set_loop. destruct (locked (the_lock x l) =? 0); [|done].
  by intros [= <- <-].
Qed.

Lemma lquiet_release x : lquiet (release x).
Proof.
  unfold release. apply lquiet_bind; [auto with quiet|intros h]. apply lquiet_if; [auto with quiet|].
  apply lquiet_bind; [by apply lquiet_locks|intros _]. apply lquiet_pop_off.
Qed.

Lemma lquiet_initlock x n : lquiet (initlock x n).
Proof. by apply lquiet_locks. Qed.

(** ** At the level of the kernel *)

Lemma quiet_lk {A} (m : M lkst A) : lquiet m -> quiet (lk m).
Proof.
  intros Hm s a s'. unfold lk, zoom. destruct (m (k_lk s)) eqn:E; [|done|done].
  intros [= <- <-]. split; [done|]. cbn. by apply (Hm _ _ _ E).
Qed.

Lemma quiet_vm {A} (m : M vmst A) : quiet (vm m).
Proof.
  intros s a s'. unfold vm, zoom. destruct (m (k_vm s)); [|done|done]. by intros [= <- <-].
Qed.

Lemma quiet_ret {A} (a : A) : quiet (mret a).
Proof. by intros s x s' [= <- <-]. Qed.
Lemma quiet_bind {A B} (m : M kstate A) (f : A -> M kstate B) :
  quiet m -> (forall a, quiet (f a)) -> quiet (m ≫= f).
Proof.
  intros Hm Hf s b s' E. apply bind_ok_inv in E as (a & s1 & E1 & E2).
  destruct (Hm _ _ _ E1) as [<- ?], (Hf _ _ _ _ E2) as [-> ?]. split; [done|].
  by eapply same_cpu_trans.
Qed.
Lemma quiet_panic {A} e : quiet (panic (A := A) e).
Proof. by intros s a s' [=]. Qed.
Lemma quiet_fuel {A} : quiet (out_of_fuel (A := A)).
Proof. by intros s a s' [=]. Qed.
Lemma quiet_gets {A} (f : kstate -> A) : quiet (gets f).
Proof. by intros s a s' [= <- <-]. Qed.
Lemma quiet_modify f :
  (forall s, k_procs (f s) = k_procs s /\ k_lk (f s) = k_lk s) -> quiet (modify f).
Proof.
  intros Hf s a s' [= <- <-]. destruct (Hf s) as [E1 E2]. by rewrite E1, E2.
Qed.
Lemma quiet_if {A} (b : bool) (m1 m2 : M kstate A) : quiet m1 -> quiet m2 -> quiet (if b then m1 else m2).
Proof. by destruct b. Qed.
Lemma quiet_csr_set f : (forall h, h_tp (f h) = h_tp h) -> quiet (set_csr f).
Proof. intros Hf. by apply quiet_lk, lquiet_hart. Qed.
Lemma quiet_for_each {A} (l : list A) (f : A -> M kstate unit) :
  (forall a, quiet (f a)) -> quiet (for_each l f).
Proof.
  intros Hf. induction l as [|x l IH]; cbn [for_each]; [apply quiet_ret|].
  by apply quiet_bind; [|intros _].
Qed.
End Quiet.

#[export] Hint Resolve quiet_ret quiet_panic quiet_fuel quiet_gets quiet_vm : quiet.
#[export] Hint Resolve lquiet_push_off lquiet_pop_off lquiet_acquire lquiet_release lquiet_initlock : quiet.

(** Solve [quiet] goals by the structure of the routine. *)
Ltac quiet1 :=
  match goal with
  | |- quiet (_ ≫= _) => apply quiet_bind; [|intros ?]
  | |- quiet (if _ then _ else _) => apply quiet_if
  | |- quiet (match ?x with _ => _ end) => destruct x
  | |- quiet (let _ := _ in _) => cbv zeta
  | |- quiet (lk _) => apply quiet_lk; solve [auto with quiet]
  | |- quiet (set_csr _) => apply quiet_csr_set; intros ?; reflexivity
  | |- quiet (csr _) => apply quiet_gets
  | |- quiet (modify _) => apply quiet_modify; intros ?; split; reflexivity
  | |- quiet (for_each _ _) => apply quiet_for_each; intros ?
  | |- quiet _ => solve [auto with quiet]
  end.
Ltac quiet := repeat quiet1; try solve [auto with quiet].

Section QuietRoutines.
Context `{Machine}.

Lemma quiet_ReadReg r : quiet (ReadReg r).
Proof. intros s a s'. unfold ReadReg. destruct (uart_read _ _). by intros [= <- <-]. Qed.
Hint Resolve quiet_ReadReg : quiet.
Lemma quiet_tx_wait n : quiet (tx_wait n).
Proof. induction n; cbn [tx_wait]; quiet. Qed.
Hint Resolve quiet_tx_wait : quiet.
Lemma quiet_uartputc_sync c : quiet (uartputc_sync c).
Proof. unfold uartputc_sync, WriteReg. quiet. Qed.
Hint Resolve quiet_uartputc_sync : quiet.
Lemma quiet_putchar c : quiet (putchar c).
Proof. unfold putchar. quiet. Qed.
Hint Resolve quiet_putchar : quiet.
Lemma quiet_cons_emit c : quiet (cons_emit c).
Proof. unfold cons_emit. quiet. Qed.
Hint Resolve quiet_cons_emit : quiet.
Lemma quiet_uartgetc : quiet uartgetc.
Proof. unfold uartgetc. quiet. Qed.

Lemma quiet_digit_loop f : forall x base buf, quiet (digit_loop f x base buf).
Proof. induction f; intros; cbn [digit_loop]; unfold buf_push; quiet. Qed.
Hint Resolve quiet_digit_loop : quiet.
Lemma quiet_printint x b sg : quiet (printint cons_emit x b sg).
Proof. unfold printint, buf_push. quiet. Qed.
Hint Resolve quiet_printint : quiet.
Lemma quiet_printptr_loop n : forall x, quiet (printptr_loop cons_emit n x).
Proof. induction n; intros; cbn [printptr_loop]; quiet. Qed.
Hint Resolve quiet_printptr_loop : quiet.

Lemma quiet_vprintfmt n : forall fmt ap, (length fmt <= n)%nat -> quiet (vprintfmt cons_emit fmt ap).
Proof.
  induction n as [|n IH]; intros [|c fmt] ap Hn; cbn [length] in Hn; try lia; cbn [vprintfmt]; quiet1.
  { quiet. apply IH. lia. }
  destruct fmt as [|d fmt]; [quiet|]. cbn [length] in Hn.
  unfold va_arg32, va_arg64, va_argstr, printptr.
  repeat (quiet1; try (apply IH; cbn [length] in *; lia)).
Qed.

Lemma quiet_printf fmt ap : quiet (printf fmt ap).
Proof. unfold printf. apply quiet_bind; [by eapply quiet_vprintfmt|intros _; quiet]. Qed.

Lemma quiet_myproc : quiet myproc.
Proof. unfold myproc. quiet. Qed.
Hint Resolve quiet_myproc : quiet.
Lemma quiet_mine : quiet mine.
Proof. unfold mine, deref. quiet. Qed.
Lemma quiet_get_tf i r : quiet (get_tf i r).
Proof. unfold get_tf. quiet. Qed.
Lemma quiet_put_tf i r x : quiet (put_tf i r x).
Proof. unfold put_tf. quiet. Qed.
Hint Resolve quiet_mine quiet_get_tf quiet_put_tf quiet_printf quiet_uartgetc : quiet.
Lemma quiet_allocpid : quiet allocpid.
Proof. unfold allocpid. quiet. Qed.
Lemma quiet_proc_pagetable i : quiet (proc_pagetable i).
Proof. unfold proc_pagetable. quiet. Qed.
Lemma quiet_proc_freepagetable pt sz : quiet (proc_freepagetable pt sz).
Proof. unfold proc_freepagetable. quiet. Qed.
Lemma quiet_killed i : quiet (killed i).
Proof. unfold killed. quiet. Qed.
Lemma quiet_either_copyout u d src n : quiet (either_copyout u d src n).
Proof. unfold either_copyout. quiet. Qed.
Lemma quiet_either_copyin b u src n : quiet (either_copyin b u src n).
Proof. unfold either_copyin. quiet. Qed.
Hint Resolve quiet_allocpid quiet_proc_pagetable quiet_proc_freepagetable quiet_killed
  quiet_either_copyout quiet_either_copyin : quiet.

Lemma quiet_consolewrite_loop f : forall b u src n i, quiet (consolewrite_loop f b u src n i).
Proof. induction f; intros; cbn [consolewrite_loop]; quiet. Qed.
Hint Resolve quiet_consolewrite_loop : quiet.
Lemma quiet_consolewrite u src n : quiet (consolewrite u src n).
Proof. unfold consolewrite. quiet. Qed.

Lemma quiet_strlen_k f : quiet (strlen_k f).
Proof. unfold strlen_k. quiet. Qed.
Hint Resolve quiet_strlen_k quiet_consolewrite : quiet.
Lemma quiet_find_uprog_loop f : forall name p, quiet (find_uprog_loop f name p).
Proof. induction f; intros; cbn [find_uprog_loop]; quiet. Qed.
Lemma quiet_find_uprog name : quiet (find_uprog name).
Proof. apply quiet_find_uprog_loop. Qed.
Lemma quiet_argraw n : quiet (argraw n).
Proof. unfold argraw. quiet. Qed.
Hint Resolve quiet_find_uprog quiet_argraw : quiet.
Lemma quiet_argint n : quiet (argint n).
Proof. unfold argint. quiet. Qed.
Lemma quiet_argaddr n : quiet (argaddr n).
Proof. apply quiet_argraw. Qed.
Hint Resolve quiet_argint quiet_argaddr : quiet.
Lemma quiet_fetchstr a b n : quiet (fetchstr a b n).
Proof. unfold fetchstr. quiet. Qed.
Hint Resolve quiet_fetchstr : quiet.
Lemma quiet_argstr n b m : quiet (argstr n b m).
Proof. unfold argstr. quiet. Qed.
Lemma quiet_usertrapret : quiet usertrapret.
Proof. unfold usertrapret. quiet. Qed.
Lemma quiet_syscall_return i r : quiet (syscall_return i r).
Proof. unfold syscall_return. quiet. Qed.
Lemma quiet_plic_claim : quiet plic_claim.
Proof.
  unfold plic_claim, cpuid_k, plic_load. quiet.
  intros s x s'. destruct (plic_read _ _). by intros [= <- <-].
Qed.
Lemma quiet_plic_complete q : quiet (plic_complete q).
Proof. unfold plic_complete, cpuid_k, plic_store. quiet. Qed.
End QuietRoutines.

#[export] Hint Resolve quiet_ReadReg quiet_uartputc_sync quiet_uartgetc quiet_printf quiet_mine quiet_myproc
  quiet_get_tf quiet_put_tf quiet_allocpid quiet_proc_pagetable quiet_proc_freepagetable quiet_killed
  quiet_either_copyout quiet_either_copyin quiet_consolewrite quiet_find_uprog quiet_strlen_k
  quiet_argint quiet_argaddr quiet_fetchstr quiet_argstr quiet_usertrapret quiet_syscall_return
  quiet_plic_claim quiet_plic_complete : quiet.
