(* ===== verification/Locks.v ===== *)
(** The locks of the kernel through every path of its code: which locks are
    held, how deeply interrupts are disabled and whose thread the CPU runs, as
    an assertion on the state of the locks ([held]), its rules, and one triple
    per routine that acquires or releases.  A routine is [balanced] when it
    leaves all three as it found them. *)

From stdpp Require Import base gmap list strings numbers.
From Stdlib Require Import ZArith Lia.
From S2P Require Import Prelude Mem KString Riscv Kdefs Spinlock Vm Hoare Printf KState Uart Proc Console Exec Syscall Trap Boot.

Create HintDb locks.

(** * The assertion *)

(** Exactly the locks of [X] are held, [n] sections are open (with interrupts
    off if any is), and the current process is [o]. *)
Record held (o : option nat) (X : gset lockid) (n : Z) (l : lkst) : Prop := {
  hd_wf : lk_wf l;
  hd_irq : irq_ok l;
  hd_locks x : holding x l = true <-> x ∈ X;
  hd_noff : c_noff (mycpu l) = n;
  hd_cproc : c_proc (mycpu l) = o
}.

Lemma holding_set x y v l :
  holding x (set_locked y v l) = if decide (x = y) then negb (v =? 0) else holding x l.
Proof.
  unfold holding, the_lock, set_locked. cbn. case_decide as H; [subst; by rewrite lookup_insert_eq|].
  by rewrite lookup_insert_ne.
Qed.

Lemma held_set_locked o X n y v l : held o X n l ->
  held o (if v =? 0 then X ∖ {[y]} else {[y]} ∪ X) n (set_locked y v l).
Proof.
  intros [Hwf Hi Hl Hn Hc]. split; [done|done| |done|done]. intros x. rewrite holding_set.
  case_decide as Hx; destruct (v =? 0); cbn; rewrite ?Hl; set_solver.
Qed.

(** ** push_off and pop_off *)

Lemma held_push_off o X n : triple (held o X n) push_off (fun _ => held o X (n + 1)).
Proof.
  intros l a l' [Hwf Hi Hl Hn Hc]. rewrite push_off_ok by done. intros [= <- <-].
  split; [by apply pushed_wf|by apply pushed_irq|exact Hl|by rewrite pushed_noff, Hn|by rewrite pushed_cproc].
Qed.

(** [pop_off] where a section is open. *)
Lemma pop_off_total o X n l : held o X n l -> 1 <= n -> exists l', pop_off l = Ok tt l' /\ held o X (n - 1) l'.
Proof.
  intros [Hwf [H0 Hi] Hl Hn Hc] Hge. lk_destruct l Hwf. rewrite mycpu_cons in * by done. cbn [l_hart] in Hi.
  unfold pop_off, gets, modify, mbind, M_bind, mret, M_ret; simpl.
  rewrite Hi by lia. rewrite mycpu_cons by done. destruct (Z.ltb_spec (c_noff c) 1); [lia|].
  rewrite upd_mycpu_cons, mycpu_cons by done. cbn [c_noff set_noff c_intena].
  set (c' := set_noff (c_noff c - 1) c).
  assert (forall h', hart_ok h' -> h_tp h' = 0 -> (0 < n - 1 -> intr_get h' = false) ->
    held o X (n - 1) (mkLk h' (c' :: cs) ls)) as Hheld.
  { intros h' Hh' Ht' Hi'. split; [done| |exact Hl| |]; rewrite ?mycpu_cons by done; cbn; [|lia|done].
    unfold irq_ok. rewrite mycpu_cons by done. cbn. rewrite Hn. split; [lia|done]. }
  destruct ((c_noff c - 1 =? 0) && c_intena c) eqn:E.
  - apply andb_true_iff in E as [E%Z.eqb_eq _]. eexists. split; [reflexivity|]. apply Hheld; [apply hart_ok_w_sstatus|done|lia].
  - eexists. split; [reflexivity|]. apply Hheld; [done|done|]. intros _. apply Hi. lia.
Qed.

Lemma held_pop_off o X n : triple (held o X n) pop_off (fun _ => held o X (n - 1)).
Proof.
  intros l a l' Hl E. destruct (decide (1 <= n)) as [Hn|Hn].
  - destruct (pop_off_total o X n l Hl Hn) as (l1 & E1 & H1). congruence.
  - exfalso. unfold pop_off, gets, modify, mbind, M_bind in E. destruct (intr_get _); [done|].
    rewrite (hd_noff _ _ _ _ Hl) in E. destruct (Z.ltb_spec n 1); [done|lia].
Qed.

(** ** acquire and release *)

(** [acquire] succeeds on a lock that is free, and only then. *)
Lemma acquire_total o X n x l : held o X n l -> x ∉ X ->
  exists l', acquire x l = Ok tt l' /\ held o ({[x]} ∪ X) (n + 1) l'.
Proof.
  intros Hl Hx. pose proof (push_off_ok l (hd_wf _ _ _ _ Hl)) as E.
  pose proof (held_push_off o X n l tt _ Hl E) as Hp. unfold acquire. mrun E.
  assert (holding x (pushed l) = false) as Hh.
  { apply not_true_iff_false. by rewrite (hd_locks _ _ _ _ Hp). }
  mstep. rewrite Hh. unfold test_and_set_loop. unfold holding in Hh. apply negb_false_iff in Hh. rewrite Hh.
  eexists. split; [reflexivity|]. by apply (held_set_locked o X (n + 1) x 1).
Qed.

Lemma held_acquire o X n x :
  triple (held o X n) (acquire x) (fun _ l => x ∉ X /\ held o ({[x]} ∪ X) (n + 1) l).
Proof.
  intros l a l' Hl E. assert (x ∉ X) as Hx.
  { intros Hx. apply (hd_locks _ _ _ _ Hl) in Hx. by rewrite (acquire_held x l (hd_wf _ _ _ _ Hl) Hx) in E. }
  split; [done|]. destruct (acquire_total o X n x l Hl Hx) as (l1 & E1 & H1). congruence.
Qed.

(** [release] succeeds on a lock that is held, and only then. *)
Lemma release_total o X n x l : held o X n l -> x ∈ X -> 1 <= n ->
  exists l', release x l = Ok tt l' /\ held o (X ∖ {[x]}) (n - 1) l'.
Proof.
  intros Hl Hx Hn. unfold release. mstep. rewrite (proj2 (hd_locks _ _ _ _ Hl x) Hx). cbn [negb]. mstep.
  apply pop_off_total; [|done]. by apply (held_set_locked o X n x 0).
Qed.

Lemma held_release o X n x :
  triple (held o X n) (release x) (fun _ l => x ∈ X /\ held o (X ∖ {[x]}) (n - 1) l).
Proof.
  intros l a l' Hl E. unfold release in E. rewrite bind_gets in E.
  destruct (holding x l) eqn:Hh; [|done]. apply (hd_locks _ _ _ _ Hl) in Hh. split; [done|].
  refine (held_pop_off o _ n _ a l' _ E). by apply (held_set_locked o X n x 0).
Qed.

(** * Rules for the kernel's routines *)

Section Locks.
Context `{Machine}.

Definition have (o : option nat) (X : gset lockid) (n : Z) (s : kstate) : Prop := held o X n (k_lk s).

Definition balanced {A} (m : M kstate A) : Prop :=
  forall o X n, triple (have o X n) m (fun _ => have o X n).

Lemma lk_triple {A} (P : lkst -> Prop) (m : M lkst A) (Q : A -> lkst -> Prop) :
  triple P m Q -> triple (fun s => P (k_lk s)) (lk m) (fun a s => Q a (k_lk s)).
Proof.
  intros Hm s a s' HP. unfold lk, zoom. destruct (m (k_lk s)) eqn:E; [|done|done].
  intros [= <- <-]. by apply (Hm (k_lk s)).
Qed.

Lemma lk_have {A} o X n o' X' n' (m : M lkst A) :
  triple (held o X n) m (fun _ => held o' X' n') -> triple (have o X n) (lk m) (fun _ => have o' X' n').
Proof. exact (lk_triple _ m (fun _ => held o' X' n')). Qed.

Lemma balanced_same {A} (m : M kstate A) :
  (forall s a s', m s = Ok a s' -> k_lk s' = k_lk s) -> balanced m.
Proof. intros Hm o X n s a s' Hs E. unfold have. by rewrite (Hm _ _ _ E). Qed.

Lemma balanced_ret {A} (a : A) : balanced (mret a).
Proof. intros o X n. apply triple_ret. Qed.
Lemma balanced_panic {A} e : balanced (panic (A := A) e).
Proof. intros o X n. apply triple_panic. Qed.
Lemma balanced_fuel {A} : balanced (out_of_fuel (A := A)).
Proof. intros o X n. apply triple_fuel. Qed.
Lemma balanced_gets {A} (f : kstate -> A) : balanced (gets f).
Proof. apply balanced_same. by intros s a s' [= <- <-]. Qed.
Lemma balanced_modify f : (forall s, k_lk (f s) = k_lk s) -> balanced (modify f).
Proof. intros Hf. apply balanced_same. by intros s a s' [= <- <-]. Qed.
Lemma balanced_upd i f : balanced (upd_proc i f).
Proof. by apply balanced_modify. Qed.
Lemma balanced_vm {A} (m : M vmst A) : balanced (vm m).
Proof.
  apply balanced_same. intros s a s'. unfold vm, zoom. destruct (m (k_vm s)); [|done|done].
  by intros [= <- <-].
Qed.
Lemma balanced_for_each {A} (l : list A) (f : A -> M kstate unit) :
  (forall a, balanced (f a)) -> balanced (for_each l f).
Proof. intros Hf o X n. apply triple_for_each. intros a _. apply Hf. Qed.

(** A register of the hart other than sstatus and tp. *)
Lemma balanced_set_csr f :
  (forall h, h_tp (f h) = h_tp h /\ h_sstatus (f h) = h_sstatus h) -> balanced (set_csr f).
Proof.
  intros Hf o X n. apply lk_have. intros l a l' Hl [= <- <-]. destruct Hl as [Hwf Hi Hl Hn Hc].
  lk_destruct l Hwf. destruct (Hf h) as [Et Es]. unfold set_hart. cbn [l_hart l_cpus l_locks].
  rewrite mycpu_cons in * by done. cbn [l_hart] in *.
  assert (hart_ok (f h)) as Hh' by (unfold hart_ok; by rewrite Es).
  split; rewrite ?mycpu_cons by congruence; try done.
  - split_and!; [done|cbn; congruence|done].
  - unfold irq_ok in *. rewrite mycpu_cons in * by congruence. cbn [l_hart] in *. destruct Hi as [H0 Hi].
    split; [done|]. rewrite SIE_bit, Es, <- SIE_bit. exact Hi.
Qed.

(** sstatus, where no section is open. *)
Lemma held_on_hart o X l f :
  (forall h, hart_ok h -> h_tp (f h) = h_tp h /\ hart_ok (f h)) -> held o X 0 l -> held o X 0 (set_hart f l).
Proof.
  intros Hf [Hwf Hi Hl Hn Hc]. lk_destruct l Hwf. destruct (Hf h Hh) as [Et Hh'].
  unfold set_hart. cbn [l_hart l_cpus l_locks]. rewrite mycpu_cons in * by done.
  split; rewrite ?mycpu_cons by congruence; try done.
  - split_and!; [done|cbn; congruence|done].
  - unfold irq_ok. rewrite mycpu_cons by congruence. rewrite Hn. split; lia.
Qed.

Lemma set_csr_triple o X f : (forall h, hart_ok h -> h_tp (f h) = h_tp h /\ hart_ok (f h)) ->
  triple (have o X 0) (set_csr f) (fun _ => have o X 0).
Proof. intros Hf. apply lk_have. intros l a l' Hl [= <- <-]. by apply held_on_hart. Qed.

(** The record of the CPU. *)
Lemma held_upd_mycpu o o' X n f l :
  (forall c, c_noff (f c) = c_noff c /\ (c_proc c = o -> c_proc (f c) = o')) ->
  held o X n l -> held o' X n (upd_mycpu f l).
Proof.
  intros Hf [Hwf Hi Hl Hn Hc]. lk_destruct l Hwf. rewrite upd_mycpu_cons by done.
  rewrite mycpu_cons in * by done. destruct (Hf c) as [En Ec].
  split; rewrite ?mycpu_cons by done; [done| |exact Hl|congruence|auto].
  unfold irq_ok in *. rewrite mycpu_cons in * by done. by rewrite En.
Qed.

Lemma balanced_upd_mycpu f : (forall c, c_noff (f c) = c_noff c /\ c_proc (f c) = c_proc c) ->
  balanced (lk (modify (upd_mycpu f))).
Proof.
  intros Hf o X n. apply lk_have. intros l a l' Hl [= <- <-].
  apply (held_upd_mycpu o); [|done]. intros c. destruct (Hf c) as [-> ->]. done.
Qed.

Lemma cproc_set_triple o o' X n :
  triple (have o X n) (lk (modify (upd_mycpu (set_cproc o')))) (fun _ => have o' X n).
Proof. apply lk_have. intros l a l' Hl [= <- <-]. by apply (held_upd_mycpu o). Qed.

Lemma balanced_initlock o X n x name : x ∉ X ->
  triple (have o X n) (lk (initlock x name)) (fun _ => have o X n).
Proof.
  intros Hx. apply lk_have. intros l a l' Hl [= <- <-]. destruct Hl as [Hwf Hi Hl Hn Hc].
  split; [done|done| |done|done]. intros y. rewrite <- Hl. unfold holding, the_lock. cbn.
  destruct (decide (y = x)) as [->|Hne]; [|by rewrite lookup_insert_ne].
  rewrite lookup_insert_eq. cbn. split; [done|]. intros Hy. by apply (proj1 (Hl x)) in Hy.
Qed.

(** ** Sequences *)

Section Seq.
Context {B : Type} (o : option nat) (X : gset lockid) (n : Z) (Q : B -> kstate -> Prop).

Lemma t_bind {A} (m : M kstate A) (f : A -> M kstate B) :
  balanced m -> (forall a, triple (have o X n) (f a) Q) -> triple (have o X n) (m ≫= f) Q.
Proof. intros Hm Hf. eapply triple_bind; [apply Hm|done]. Qed.

Lemma t_acquire x (g : unit -> M kstate B) :
  (x ∉ X -> triple (have o ({[x]} ∪ X) (n + 1)) (g tt) Q) -> triple (have o X n) (lk (acquire x) ≫= g) Q.
Proof.
  intros Hg. eapply triple_bind; [apply lk_triple, held_acquire|]. intros [] s b s' [Hx Hs] E.
  by apply (Hg Hx s).
Qed.

Lemma t_release x (g : unit -> M kstate B) :
  (x ∈ X -> triple (have o (X ∖ {[x]}) (n - 1)) (g tt) Q) -> triple (have o X n) (lk (release x) ≫= g) Q.
Proof.
  intros Hg. eapply triple_bind; [apply lk_triple, held_release|]. intros [] s b s' [Hx Hs] E.
  by apply (Hg Hx s).
Qed.

Lemma t_release_top x (g : unit -> M kstate B) : x ∉ X ->
  triple (have o X n) (g tt) Q -> triple (have o ({[x]} ∪ X) (n + 1)) (lk (release x) ≫= g) Q.
Proof.
  intros Hx Hg. eapply triple_bind; [apply lk_triple, held_release|]. intros [] s b s' [_ Hs] E.
  apply (Hg s b s'); [|done]. unfold have. replace ({[x]} ∪ X) with (X ∪ {[x]}) in Hs by set_solver.
  replace ((X ∪ {[x]}) ∖ {[x]}) with X in Hs by set_solver. by replace (n + 1 - 1) with n in Hs by lia.
Qed.

(** The process whose thread runs. *)
Lemma t_myproc (g : option nat -> M kstate B) :
  triple (have o X n) (g o) Q -> triple (have o X n) (myproc ≫= g) Q.
Proof.
  intros Hg s b s' Hs E. apply bind_ok_inv in E as (p & s1 & E1 & E2).
  unfold myproc in E1. inv_ok.
  repeat match goal with x : unit |- _ => destruct x end.
  match goal with E : lk push_off _ = _ |- _ =>
    pose proof (lk_have _ _ _ _ _ _ _ (held_push_off o X n) _ _ _ Hs E) as H1 end.
  match goal with E : lk pop_off _ = _ |- _ =>
    pose proof (lk_have _ _ _ _ _ _ _ (held_pop_off o X (n + 1)) _ _ _ H1 E) as H2 end.
  cbn beta in H2. replace (n + 1 - 1) with n in H2 by lia. rewrite (hd_cproc _ _ _ _ H1) in E2.
  exact (Hg _ b s' H2 E2).
Qed.

End Seq.

Lemma t_mine {B} o X n (Q : B -> kstate -> Prop) (g : nat -> M kstate B) :
  (forall i, o = Some i -> triple (have o X n) (g i) Q) -> triple (have o X n) (mine ≫= g) Q.
Proof.
  intros Hg s b s' Hs E. apply bind_ok_inv in E as (i & s2 & E1 & E2). unfold mine in E1.
  assert (triple (have o X n) (myproc ≫= deref) (fun i s => o = Some i /\ have o X n s)) as Hd.
  { apply t_myproc. destruct o; [by apply triple_val|apply triple_panic]. }
  destruct (Hd s i s2 Hs E1) as [Ei Hs2]. exact (Hg i Ei s2 b s' Hs2 E2).
Qed.

Lemma t_release_end o X n x : x ∉ X ->
  triple (have o ({[x]} ∪ X) (n + 1)) (lk (release x)) (fun _ => have o X n).
Proof.
  intros Hx s a s' Hs E. apply (t_release_top o X n (fun _ => have o X n) x mret Hx) with s a; [|done|].
  - destruct a. apply triple_ret.
  - mrun E. by destruct a.
Qed.

Lemma t_push_off {B} o X n (Q : B -> kstate -> Prop) g :
  triple (have o X (n + 1)) (g tt) Q -> triple (have o X n) (lk push_off ≫= g) Q.
Proof. intros Hg. eapply triple_bind; [apply lk_have, held_push_off|]. by intros []. Qed.

Lemma t_pop_off_end o X n : triple (have o X (n + 1)) (lk pop_off) (fun _ => have o X n).
Proof. apply lk_have. intros l a l' Hl E. rewrite <- (Z.add_simpl_r n 1). exact (held_pop_off _ _ _ _ _ _ Hl E). Qed.

Lemma triple_and {A} (φ : Prop) P (m : M kstate A) Q :
  (φ -> triple P m Q) -> triple (fun s => φ /\ P s) m Q.
Proof. intros Hm s a s' [Hφ Hs] E. by apply (Hm Hφ s). Qed.


Lemma balanced_bind {A B} (m : M kstate A) (f : A -> M kstate B) :
  balanced m -> (forall a, balanced (f a)) -> balanced (m ≫= f).
Proof. intros Hm Hf o X n. apply t_bind; [done|]. intros a. apply Hf. Qed.

Lemma balanced_mine : balanced mine.
Proof.
  intros o X n s i s' Hs E. apply (t_mine o X n (fun _ => have o X n) mret) with s i; [|done|].
  - intros j _. apply triple_ret.
  - by mrun E.
Qed.
End Locks.

#[export] Hint Resolve balanced_ret balanced_panic balanced_fuel balanced_gets balanced_upd balanced_vm
  balanced_mine : locks.

(** Routines of one step, and others by their structure. *)
Ltac bal_step :=
  lazymatch goal with
  | |- balanced (csr _) => apply balanced_gets
  | |- balanced (modify _) => apply balanced_modify; intros ?; reflexivity
  | |- balanced (set_csr _) => apply balanced_set_csr; intros ?; split; reflexivity
  | |- balanced _ => solve [auto with locks]
  end.
Ltac bal1 :=
  lazymatch goal with
  | |- triple _ (lk (acquire _) ≫= _) _ => apply t_acquire; intros ?
  | |- triple _ (lk (release _) ≫= _) _ => apply t_release_top; [assumption|]
  | |- triple _ (lk (release _)) _ => apply t_release_end; assumption
  | |- triple _ (lk push_off ≫= _) _ => apply t_push_off
  | |- triple _ (lk pop_off) _ => apply t_pop_off_end
  | |- triple _ (let _ := _ in _) _ => cbv zeta
  | |- triple _ (if ?b then _ else _) _ => destruct b
  | |- triple _ (match ?x with _ => _ end) _ => destruct x
  | |- triple _ (mret _) _ => apply triple_ret
  | |- triple _ (panic _) _ => apply triple_panic
  | |- triple _ out_of_fuel _ => apply triple_fuel
  | |- triple _ (_ ≫= _) _ => apply t_bind; [solve [bal]|intros ?]
  | |- triple _ (for_each _ _) _ => apply balanced_for_each; intros ?; bal
  | |- triple (have ?o ?X ?n) ?m _ =>
      let Hb := fresh in assert (balanced m) as Hb by bal_step; exact (Hb o X n)
  end
with bal := first [bal_step | intros ? ? ?; repeat bal1].

Section Routines.
Context `{Machine}.

Lemma balanced_ReadReg r : balanced (ReadReg r).
Proof. apply balanced_same. intros s a s'. unfold ReadReg. destruct (uart_read _ _). by intros [= <- <-]. Qed.
Hint Resolve balanced_ReadReg : locks.
Lemma balanced_tx_wait f : balanced (tx_wait f).
Proof. induction f; cbn [tx_wait]; bal. Qed.
Hint Resolve balanced_tx_wait : locks.
Lemma balanced_uartputc_sync c : balanced (uartputc_sync c).
Proof. unfold uartputc_sync, WriteReg. bal. Qed.
Hint Resolve balanced_uartputc_sync : locks.
Lemma balanced_cons_emit c : balanced (cons_emit c).
Proof. unfold cons_emit, putchar. bal. Qed.
Hint Resolve balanced_cons_emit : locks.
Lemma balanced_uartgetc : balanced uartgetc.
Proof. unfold uartgetc. bal. Qed.
Hint Resolve balanced_uartgetc : locks.
Lemma balanced_wakeup ch : balanced (wakeup ch).
Proof. unfold wakeup. bal. Qed.
Hint Resolve balanced_wakeup : locks.

(** ** Formatted output *)

Lemma balanced_digit_loop f : forall x base buf, balanced (digit_loop (S := kstate) f x base buf).
Proof. induction f; intros; cbn [digit_loop]; unfold buf_push; bal. Qed.
Hint Resolve balanced_digit_loop : locks.
Lemma balanced_printint x b sg : balanced (printint cons_emit x b sg).
Proof. unfold printint, buf_push. bal. Qed.
Lemma balanced_printptr_loop n : forall x, balanced (printptr_loop cons_emit n x).
Proof. induction n; intros; cbn [printptr_loop]; bal. Qed.
Hint Resolve balanced_printint balanced_printptr_loop : locks.
Lemma balanced_vprintfmt n : forall fmt ap, (length fmt <= n)%nat -> balanced (vprintfmt cons_emit fmt ap).
Proof.
  induction n as [|n IH]; intros [|c fmt] ap Hn; cbn [length] in Hn; try lia; cbn [vprintfmt]; [bal..|].
  unfold va_arg32, va_arg64, va_argstr, printptr. intros ? ? ?.
  repeat bal1; apply IH; cbn [length] in *; lia.
Qed.
Lemma balanced_printf fmt ap : balanced (printf fmt ap).
Proof. apply balanced_bind; [by eapply balanced_vprintfmt|intros _; bal]. Qed.
Hint Resolve balanced_printf : locks.

(** ** Processes, without those that exit or sleep *)

Lemma balanced_get_tf i r : balanced (get_tf i r).
Proof. unfold get_tf. bal. Qed.
Lemma balanced_put_tf i r x : balanced (put_tf i r x).
Proof. unfold put_tf. bal. Qed.
Lemma balanced_allocpid : balanced allocpid.
Proof. unfold allocpid. bal. Qed.
Lemma balanced_proc_pagetable i : balanced (proc_pagetable i).
Proof. unfold proc_pagetable. bal. Qed.
Lemma balanced_proc_freepagetable pt sz : balanced (proc_freepagetable pt sz).
Proof. unfold proc_freepagetable. bal. Qed.
Hint Resolve balanced_get_tf balanced_put_tf balanced_allocpid balanced_proc_pagetable
  balanced_proc_freepagetable : locks.
Lemma balanced_freeproc i : balanced (freeproc i).
Proof. unfold freeproc. bal. Qed.
Lemma balanced_killed i : balanced (killed i).
Proof. unfold killed. bal. Qed.
Lemma balanced_setkilled i : balanced (setkilled i).
Proof. unfold setkilled. bal. Qed.
Lemma balanced_sleep_prepare ch : balanced (sleep_prepare ch).
Proof. unfold sleep_prepare. bal. Qed.
Lemma balanced_sched k : balanced (sched k).
Proof. unfold sched. bal. Qed.
Lemma balanced_sched_resume ie : balanced (sched_resume ie).
Proof. by apply balanced_upd_mycpu. Qed.
Lemma balanced_either_copyout u d src n : balanced (either_copyout u d src n).
Proof. unfold either_copyout. bal. Qed.
Lemma balanced_either_copyin b u src n : balanced (either_copyin b u src n).
Proof. unfold either_copyin. bal. Qed.
Hint Resolve balanced_freeproc balanced_killed balanced_setkilled balanced_sleep_prepare balanced_sched
  balanced_sched_resume balanced_either_copyout balanced_either_copyin : locks.
Lemma balanced_reparent i : balanced (reparent i).
Proof. unfold reparent. bal. Qed.
Hint Resolve balanced_reparent : locks.

(** [allocproc] leaves the lock of the new process held. *)
Definition alloc_post (o : option nat) (X : gset lockid) (n : Z) (r : option nat) (s : kstate) : Prop :=
  match r with
  | None => have o X n s
  | Some i => L_proc i ∉ X /\ have o ({[L_proc i]} ∪ X) (n + 1) s
  end.

Lemma find_unused_locks o X n l : triple (have o X n) (find_unused l) (alloc_post o X n).
Proof.
  induction l as [|i l IH]; cbn [find_unused]; [by apply triple_val|]. do 2 bal1. case_decide.
  - by apply triple_val.
  - bal1. exact IH.
Qed.

Lemma allocproc_locks o X n : triple (have o X n) allocproc (alloc_post o X n).
Proof.
  unfold allocproc. eapply triple_bind; [apply find_unused_locks|]. intros [i|]; cbn; [|by apply triple_val].
  apply triple_and. intros Hi.
  assert (triple (have o ({[L_proc i]} ∪ X) (n + 1)) (freeproc i;; lk (release (L_proc i));; mret None)
    (alloc_post o X n)) as Hfail by (do 2 bal1; by apply triple_val).
  do 5 bal1. case_match; [exact Hfail|]. do 2 bal1. case_match; [exact Hfail|]. do 2 bal1. by apply triple_val.
Qed.

Lemma balanced_kfork : balanced kfork.
Proof.
  unfold kfork. intros o X n. apply t_mine. intros i _.
  eapply triple_bind; [apply allocproc_locks|]. intros [j|]; cbn; [|apply triple_ret].
  apply triple_and. intros Hj. repeat bal1.
Qed.

Lemma balanced_find_uprog name : balanced (find_uprog name).
Proof.
  unfold find_uprog, strlen_k. generalize sym_uprog_table. induction SCAN_FUEL as [|f IH]; intros p; cbn [find_uprog_loop]; [bal|].
  unfold strlen_k. bal.
Qed.
Hint Resolve balanced_kfork balanced_find_uprog : locks.
Lemma balanced_kexec path : balanced (kexec path).
Proof. unfold kexec, strlen_k. bal. Qed.
Hint Resolve balanced_kexec : locks.

(** ** The console and the interrupts *)

Lemma balanced_consoleintr c : balanced (consoleintr c).
Proof. unfold consoleintr, consputc. bal. Qed.
Hint Resolve balanced_consoleintr : locks.
Lemma balanced_uartintr : balanced uartintr.
Proof.
  unfold uartintr. do 2 (apply balanced_bind; [bal|intros ?]).
  match goal with |- balanced (uartintr_loop ?f) => induction f as [|f IH]; cbn [uartintr_loop] end; [bal|].
  bal.
Qed.
Hint Resolve balanced_uartintr : locks.
Lemma balanced_plic_claim : balanced plic_claim.
Proof.
  unfold plic_claim, cpuid_k. assert (forall a, balanced (plic_load a)).
  { intros a. apply balanced_same. intros s x s'. unfold plic_load. destruct (plic_read _ _). by intros [= <- <-]. }
  bal.
Qed.
Lemma balanced_plic_complete q : balanced (plic_complete q).
Proof. unfold plic_complete, cpuid_k, plic_store. bal. Qed.
Lemma balanced_clockintr : balanced clockintr.
Proof. unfold clockintr, cpuid_k. bal. Qed.
Hint Resolve balanced_plic_claim balanced_plic_complete balanced_clockintr : locks.
Lemma balanced_devintr : balanced devintr.
Proof. unfold devintr. bal. Qed.
Hint Resolve balanced_devintr : locks.

Lemma balanced_consolewrite u src n : balanced (consolewrite u src n).
Proof.
  unfold consolewrite. generalize 0 (∅ : mem). induction (Z.to_nat n + 1)%nat as [|f IH]; intros i buf; cbn [consolewrite_loop];
    bal.
Qed.

Lemma consoleread_loop_locks f : forall o X n u d m t, L_cons ∉ X ->
  triple (have o ({[L_cons]} ∪ X) (n + 1)) (consoleread_loop f u d m t) (fun _ => have o X n).
Proof.
  induction f as [|f IH]; intros o X n u d m t HX; cbn [consoleread_loop]; [repeat bal1|].
  repeat bal1. by apply IH.
Qed.
Lemma balanced_consoleread u d n : balanced (consoleread u d n).
Proof. unfold consoleread. intros o X m. bal1. by apply consoleread_loop_locks. Qed.
Lemma balanced_consoleread_resume u d n t : balanced (consoleread_resume u d n t).
Proof. unfold consoleread_resume. intros o X m. bal1. by apply consoleread_loop_locks. Qed.
Hint Resolve balanced_consolewrite balanced_consoleread balanced_consoleread_resume : locks.

(** ** wait *)

Definition scan_post (o : option nat) (X : gset lockid) (n : Z) (r : kwait_found) (s : kstate) : Prop :=
  match r with
  | W_ret _ => have o X n s
  | W_end _ => have o ({[L_wait]} ∪ X) (n + 1) s
  end.

Lemma kwait_scan_locks o X n i addr l : L_wait ∉ X -> forall hk,
  triple (have o ({[L_wait]} ∪ X) (n + 1)) (kwait_scan l i addr hk) (scan_post o X n).
Proof.
  intros HX. induction l as [|j l IH]; intros hk; cbn [kwait_scan]; [by apply triple_val|].
  bal1. case_decide; [|apply IH]. bal1. case_decide; [|bal1; apply IH].
  repeat bal1; by apply triple_val.
Qed.

Lemma kwait_round_locks o X n i addr : L_wait ∉ X ->
  triple (have o ({[L_wait]} ∪ X) (n + 1)) (kwait_round i addr) (fun _ => have o X n).
Proof.
  intros HX. unfold kwait_round. eapply triple_bind; [by apply kwait_scan_locks|]. intros [r|hk]; cbn; repeat bal1.
Qed.
Lemma balanced_kwait addr : balanced (kwait addr).
Proof. unfold kwait. intros o X n. do 2 bal1. by apply kwait_round_locks. Qed.
Lemma balanced_kwait_resume i addr : balanced (kwait_resume i addr).
Proof. unfold kwait_resume. intros o X n. bal1. by apply kwait_round_locks. Qed.
Hint Resolve balanced_kwait balanced_kwait_resume : locks.

(** ** exit and sleep: the thread leaves the CPU with its own lock held *)

Definition gone (o : option nat) (s : kstate) : Prop := exists i, o = Some i /\ have o {[L_proc i]} 1 s.

Lemma kexit_locks o st : triple (have o ∅ 0) (kexit st) (fun _ => gone o).
Proof.
  unfold kexit. apply t_myproc. bal1. case_decide; [apply triple_panic|].
  destruct o as [i|]; [|intros s x s' _ E; by apply bind_ok_inv in E as (? & ? & ? & _)].
  match goal with |- triple ?P (deref (Some ?j) ≫= ?g) ?Q => change (triple P (g j) Q) end. cbv beta.
  do 7 bal1. apply t_release. intros _.
  eapply triple_weaken; [apply balanced_sched|done|]. cbn. intros _ s Hs. exists i. split; [done|].
  by replace (({[L_proc i]} ∪ ({[L_wait]} ∪ ∅)) ∖ {[L_wait]}) with ({[L_proc i]} : gset lockid) in Hs by set_solver.
Qed.

Definition kres_locks (o : option nat) (r : kres) : kstate -> Prop :=
  match r with KGone => gone o | _ => have o ∅ 0 end.
Definition ures_locks (o : option nat) (r : ures) : kstate -> Prop :=
  match r with U_gone => gone o | _ => have o ∅ 0 end.

(** A system call that comes back. *)
Definition comes_back (r : kres) : Prop := r <> KGone.

Lemma kres_locks_back o (m : M kstate kres) :
  balanced m -> triple (fun _ => True) m (fun r _ => comes_back r) -> triple (have o ∅ 0) m (kres_locks o).
Proof.
  intros Hm Hr s r s' Hs E. pose proof (Hm _ _ _ _ _ _ Hs E) as Hs'. pose proof (Hr _ _ _ I E).
  by destruct r.
Qed.

Lemma back_bind {A} (m : M kstate A) (f : A -> M kstate kres) :
  (forall a, triple (fun _ => True) (f a) (fun r _ => comes_back r)) ->
  triple (fun _ => True) (m ≫= f) (fun r _ => comes_back r).
Proof. intros Hf. apply (triple_bind _ m _ (fun _ _ => True)); [done|exact Hf]. Qed.

Ltac back :=
  repeat match goal with
  | |- triple _ (let _ := _ in _) _ => cbv zeta
  | |- triple _ (_ ≫= _) _ => apply back_bind; intros ?
  | |- triple _ (mret _) _ => by apply triple_val
  | |- triple _ out_of_fuel _ => apply triple_fuel
  | |- triple _ (if ?b then _ else _) _ => destruct b
  | |- triple _ (match ?x with _ => _ end) _ => destruct x
  end.

Lemma back_consoleread_loop f : forall u d n t,
  triple (fun _ => True) (consoleread_loop f u d n t) (fun r _ => comes_back r).
Proof. induction f as [|f IH]; intros u d n t; cbn [consoleread_loop]; back. apply IH. Qed.

Lemma back_consoleread u d n : triple (fun _ => True) (consoleread u d n) (fun r _ => comes_back r).
Proof. unfold consoleread. back. apply back_consoleread_loop. Qed.
Lemma back_consoleread_resume u d n t :
  triple (fun _ => True) (consoleread_resume u d n t) (fun r _ => comes_back r).
Proof. unfold consoleread_resume. back. apply back_consoleread_loop. Qed.
Lemma back_kwait_round i addr : triple (fun _ => True) (kwait_round i addr) (fun r _ => comes_back r).
Proof. unfold kwait_round. back. Qed.

(** ** System calls and traps *)

Lemma balanced_argraw n : balanced (argraw n).
Proof. unfold argraw. bal. Qed.
Hint Resolve balanced_argraw : locks.
Lemma balanced_argint n : balanced (argint n).
Proof. unfold argint. bal. Qed.
Lemma balanced_argaddr n : balanced (argaddr n).
Proof. apply balanced_argraw. Qed.
Lemma balanced_argstr n b m : balanced (argstr n b m).
Proof. unfold argstr, argaddr, fetchstr, strlen_k. bal. Qed.
Hint Resolve balanced_argint balanced_argaddr balanced_argstr : locks.

Lemma syscalls_locks o num f : syscalls num = Some f -> triple (have o ∅ 0) f (kres_locks o).
Proof.
  unfold syscalls. repeat (case_match; [intros [= <-]|]); [..|done].
  - apply kres_locks_back; unfold sys_fork; [bal|back].
  - unfold sys_exit. bal1. eapply triple_bind; [apply kexit_locks|]. intros []. by apply triple_val.
  - apply kres_locks_back; unfold sys_wait; [bal|]. unfold kwait. back. apply back_kwait_round.
  - apply kres_locks_back; unfold sys_read; [bal|]. back. apply back_consoleread.
  - apply kres_locks_back; unfold sys_exec; [bal|back].
  - apply kres_locks_back; unfold sys_getpid; [bal|back].
  - apply kres_locks_back; unfold sys_write; [bal|back].
Qed.

Lemma syscall_return_locks o i r : triple (kres_locks o r) (syscall_return i r) (kres_locks o).
Proof.
  destruct r; cbn [kres_locks syscall_return]; [|by apply triple_val..].
  bal1. by apply triple_val.
Qed.

Lemma syscall_locks o : triple (have o ∅ 0) syscall (kres_locks o).
Proof.
  unfold syscall. apply t_mine. intros i _. bal1. cbv zeta.
  destruct (_ && _); [destruct (syscalls _) as [f|] eqn:E|]; [|apply (syscall_return_locks o i (KRet (-1)))..].
  eapply triple_bind; [by eapply syscalls_locks|]. intros r. apply syscall_return_locks.
Qed.

(** The way back: no section is open, so sstatus may be written. *)
Lemma usertrapret_locks o X : triple (have o X 0) usertrapret (fun _ => have o X 0).
Proof.
  unfold usertrapret. apply t_mine. intros i _.
  eapply triple_bind; [apply set_csr_triple; intros h _; split; [done|apply hart_ok_w_sstatus]|]. intros [].
  do 9 bal1. cbv zeta. eapply triple_bind; [apply set_csr_triple; intros h _; split; [done|apply hart_ok_w_sstatus]|].
  intros []. repeat bal1.
Qed.

Lemma usertrap_end_locks o i : triple (have o ∅ 0) (usertrap_end i) (ures_locks o).
Proof.
  unfold usertrap_end. bal1. case_match.
  - eapply triple_bind; [apply kexit_locks|]. intros []. by apply triple_val.
  - eapply triple_bind; [apply usertrapret_locks|]. intros []. bal1. by apply triple_val.
Qed.

Lemma after_syscall_locks o i r : triple (kres_locks o r) (after_syscall i r) (ures_locks o).
Proof. destruct r; cbn [kres_locks after_syscall]; [apply usertrap_end_locks|by apply triple_val..]. Qed.

Lemma usertrap_locks o : triple (have o ∅ 0) usertrap (ures_locks o).
Proof.
  unfold usertrap. bal1. case_match; [apply triple_panic|]. bal1. apply t_mine. intros i _. do 3 bal1. case_match.
  - do 2 bal1. eapply triple_bind; [apply set_csr_triple; intros h _; split; [done|apply hart_ok_w_sstatus]|]. intros [].
    eapply triple_bind; [apply syscall_locks|]. intros r. apply after_syscall_locks.
  - do 2 bal1. apply usertrap_end_locks.
Qed.

Lemma kerneltrap_locks o X : triple (have o X 0) kerneltrap (fun _ => have o X 0).
Proof.
  unfold kerneltrap. do 3 bal1. case_match; [apply triple_panic|]. bal1. case_match; [apply triple_panic|].
  bal1. case_match; [repeat bal1|]. bal1.
  apply set_csr_triple. intros h _. split; [done|apply hart_ok_w_sstatus].
Qed.

(** ** Threads and the scheduler *)

Lemma sleep_locks o k : triple (have o ∅ 0) (sleep k) (fun b : bool => if b then gone o else have o ∅ 0).
Proof.
  unfold sleep. apply t_mine. intros i ->. do 2 bal1. case_decide.
  - bal1. by apply triple_val.
  - do 2 bal1. apply triple_val. intros s Hs. exists i. split; [done|].
    by replace ({[L_proc i]} ∪ ∅ : gset lockid) with ({[L_proc i]} : gset lockid) in Hs by set_solver.
Qed.

Lemma resume_cont_locks o i k : triple (have o ∅ 0) (resume_cont i k) (ures_locks o).
Proof.
  destruct k; cbn [resume_cont]; [| |apply triple_panic|apply usertrap_end_locks].
  - eapply triple_bind; [apply kres_locks_back; [bal|apply back_consoleread_resume]|]. intros r.
    eapply triple_bind; [apply syscall_return_locks|]. intros r'. apply after_syscall_locks.
  - eapply triple_bind; [apply kres_locks_back; [bal|unfold kwait_resume; back; apply back_kwait_round]|]. intros r.
    eapply triple_bind; [apply syscall_return_locks|]. intros r'. apply after_syscall_locks.
Qed.

Lemma enter_sleep_locks o i k :
  triple (have o ∅ 0) (enter_sleep i k)
    (fun r => match r with None => gone o | Some r => ures_locks o r end).
Proof.
  unfold enter_sleep. eapply triple_bind; [apply sleep_locks|]. intros [|]; [by apply triple_val|].
  eapply triple_bind; [apply resume_cont_locks|]. intros r. by apply triple_val.
Qed.

(** The lock of a process that the scheduler has switched to. *)
Lemma release_own {B} o i (g : unit -> M kstate B) Q : triple (have o ∅ 0) (g tt) Q ->
  triple (have o {[L_proc i]} 1) (lk (release (L_proc i)) ≫= g) Q.
Proof.
  intros Hg. apply t_release. intros _. by replace ({[L_proc i]} ∖ {[L_proc i]}) with (∅ : gset lockid) by set_solver.
Qed.

Lemma forkret_locks i : triple (have (Some i) {[L_proc i]} 1) forkret (ures_locks (Some i)).
Proof.
  unfold forkret. apply t_mine. intros j [= <-]. apply release_own.
  bal1. apply t_bind; [bal|]. intros _. eapply triple_bind; [apply usertrapret_locks|]. intros []. bal1. by apply triple_val.
Qed.

Lemma release_own_end o i : triple (have o {[L_proc i]} 1) (lk (release (L_proc i))) (fun _ => have o ∅ 0).
Proof.
  intros s a s' Hs E. refine (release_own o i mret (fun _ => have o ∅ 0) _ s a s' Hs _).
  - apply triple_ret.
  - mrun E. by destruct a.
Qed.

Lemma sleep_resume_locks o i ie :
  triple (have o {[L_proc i]} 1) (sleep_resume i ie) (fun _ => have o ∅ 0).
Proof. unfold sleep_resume. bal1. apply release_own_end. Qed.

Lemma resume_locks i : triple (have (Some i) {[L_proc i]} 1) (resume i) (ures_locks (Some i)).
Proof.
  unfold resume. bal1. case_match; try apply triple_panic; [apply forkret_locks|].
  case_match; try (bal1; apply triple_panic);
    (eapply triple_bind; [apply sleep_resume_locks|]; intros []; apply resume_cont_locks).
Qed.

Lemma scheduler_try_locks i :
  triple (have None ∅ 0) (scheduler_try i)
    (fun b : bool => if b then have (Some i) {[L_proc i]} 1 else have None ∅ 0).
Proof.
  unfold scheduler_try. do 2 bal1. case_decide; [|bal1; by apply triple_val]. bal1.
  eapply triple_bind; [apply cproc_set_triple|]. intros [].
  apply t_bind; [by apply balanced_upd_mycpu|]. intros _. apply triple_val. intros s Hs.
  by replace ({[L_proc i]} ∪ ∅ : gset lockid) with ({[L_proc i]} : gset lockid) in Hs by set_solver.
Qed.

Lemma scheduler_back_locks i :
  triple (have (Some i) {[L_proc i]} 1) (scheduler_back i) (fun _ => have None ∅ 0).
Proof. unfold scheduler_back. eapply triple_bind; [apply cproc_set_triple|]. intros []. apply release_own_end. Qed.

(** From boot: no section is open when [main] hands over to the scheduler. *)
Definition unlocked {A} (m : M kstate A) : Prop := forall o, triple (have o ∅ 0) m (fun _ => have o ∅ 0).

Lemma unlocked_balanced {A} (m : M kstate A) : balanced m -> unlocked m.
Proof. intros Hm o. apply Hm. Qed.

Lemma unlocked_bind {A B} (m : M kstate A) (f : A -> M kstate B) :
  unlocked m -> (forall a, unlocked (f a)) -> unlocked (m ≫= f).
Proof. intros Hm Hf o. eapply triple_bind; [apply Hm|]. intros a. apply Hf. Qed.

Lemma unlocked_initlock x n : unlocked (lk (initlock x n)).
Proof. intros o. by apply balanced_initlock. Qed.

Lemma unlocked_for_each {A} (l : list A) (f : A -> M kstate unit) :
  (forall a, unlocked (f a)) -> unlocked (for_each l f).
Proof. intros Hf o. apply triple_for_each. intros a _. apply Hf. Qed.

Ltac unl :=
  repeat match goal with
  | |- unlocked (lk (initlock _ _)) => apply unlocked_initlock
  | |- unlocked (_ ≫= _) => apply unlocked_bind; [|intros ?]
  | |- unlocked (for_each _ _) => apply unlocked_for_each; intros ?
  | |- unlocked _ => apply unlocked_balanced; solve [bal]
  end.

Lemma unlocked_userinit : unlocked userinit.
Proof.
  intros o. unfold userinit. eapply triple_bind; [apply allocproc_locks|]. intros [i|]; cbn [alloc_post];
    [|bal1; apply triple_panic]. apply triple_and. intros Hi. bal1.
  match goal with |- triple ?P (deref (Some ?j) ≫= ?g) ?Q => change (triple P (g j) Q) end. cbv beta.
  repeat bal1.
Qed.

Lemma main_locks o : triple (have o ∅ 0) main (fun _ => have None ∅ 0).
Proof.
  assert (balanced banner) as Hb by (unfold banner; bal).
  unfold main, consoleinit, uartinit, WriteReg, kvminit, kvminithart, procinit, trapinit, trapinithart,
    plicinit, plicinithart, cpuid_k, plic_store.
  bal1. case_match; [apply triple_fuel|].
  do 10 (eapply triple_bind; [match goal with |- triple _ ?m _ => assert (unlocked m) as Hm by unl; apply Hm end|intros ?]).
  eapply triple_bind; [apply unlocked_userinit|intros []]. apply cproc_set_triple.
Qed.
End Routines.
