(* ===== verification/System.v ===== *)
(** The whole kernel as a transition system over user code, traps, the
    windows before [sleep()], interrupts and the scheduler; the invariant of
    the process table and of the locks: one process runs at a time, a sleeping
    process is parked at the [sleep()] of its wait channel, a runnable one at a
    point its thread can go on from, a free slot holds nothing, and no lock is
    leaked; and the order in which the scheduler tries the slots. *)

From stdpp Require Import base gmap list strings numbers.
From Stdlib Require Import ZArith Lia.
From S2P Require Import Prelude Mem KString Riscv Kdefs Spinlock Vm Printf UserCopy KState Uart Proc ProcSpec Console Exec Syscall Trap Boot Hoare Triple Locks.

(** * The transition system *)

(** Who has the CPU: user code of a process, its kernel thread just before a
    [sleep()], a kernel thread that has switched to the scheduler, or the
    scheduler before slot [j] (having run something this round or not). *)
Inductive ctl : Type :=
  | C_user (i : nat)
  | C_window (i : nat) (k : kcont)
  | C_back (i : nat)
  | C_sched (j : nat).

(** Where a thread that left [usertrap] or [forkret] stands. *)
Definition ctl_of (i : nat) (r : ures) : ctl :=
  match r with
  | U_ret _ => C_user i
  | U_window k => C_window i k
  | U_gone => C_back i
  end.

Section System.
Context `{Machine}.

Definition on_hart (f : hart -> hart) (s : kstate) : kstate := with_lk (set_hart f (k_lk s)) s.

(** What user code can change of RAM: bytes its page table maps writable,
    and, when it traps, its trapframe (where [uservec] saves its registers). *)
Definition user_writes (i : nat) (m : mem) (s : kstate) : Prop :=
  forall b, load8 m b <> load8 (v_mem (k_vm s)) b ->
    (exists va, uwaddr (v_mem (k_vm s)) (p_pagetable (the_proc i s)) va = Some b) \/
    p_trapframe (the_proc i s) <= b < p_trapframe (the_proc i s) + TF_SIZE.

(** Kernel code an interrupt can come in at. *)
Definition interruptible (c : ctl) (s : kstate) : Prop :=
  intr_get (l_hart (k_lk s)) = true /\
  match c with C_window _ _ | C_sched _ => True | _ => False end.

Inductive step : ctl * kstate -> ctl * kstate -> Prop :=
  | step_user i m s :
      user_writes i m s ->
      step (C_user i, s) (C_user i, with_vm (on_mem (fun _ => m) (k_vm s)) s)
  | step_trap i cause epc tval s r s' :
      usertrap (on_hart (hw_trap false cause epc tval) s) = Ok r s' ->
      step (C_user i, s) (ctl_of i r, s')
  | step_sleep i k s s' :
      enter_sleep i k s = Ok None s' ->
      step (C_window i k, s) (C_back i, s')
  | step_no_sleep i k s r s' :
      enter_sleep i k s = Ok (Some r) s' ->
      step (C_window i k, s) (ctl_of i r, s')
  | step_interrupt c cause epc tval s s' :
      interruptible c s ->
      kerneltrap (on_hart (hw_trap true cause epc tval) s) = Ok tt s' ->
      step (c, s) (c, on_hart hw_sret s')
  | step_back i s s' :
      scheduler_back i s = Ok tt s' ->
      step (C_back i, s) (C_sched (S i), s')
  | step_skip j s s' :
      (j < NPROC)%nat -> scheduler_try j s = Ok false s' ->
      step (C_sched j, s) (C_sched (S j), s')
  | step_run j s s1 r s' :
      (j < NPROC)%nat -> scheduler_try j s = Ok true s1 -> resume j s1 = Ok r s' ->
      step (C_sched j, s) (ctl_of j r, s')
  | step_head s s' :
      scheduler_head s = Ok tt s' ->
      step (C_sched NPROC, s) (C_sched 0, s').

(** The slot at which a step has the scheduler look for a process. *)
Definition tried (cs cs' : ctl * kstate) : list nat :=
  match cs.1, cs'.1 with
  | C_sched j, C_sched m => if decide (m = S j) then [j] else []
  | C_sched j, _ => [j]
  | _, _ => []
  end.

Lemma tried_run j s r s' : tried (C_sched j, s) (ctl_of j r, s') = [j].
Proof. by destruct r. Qed.

(** * Processes at rest *)

(** The channel a thread that will go on at [k] sleeps on. *)
Definition cont_chan (i : nat) (k : kcont) : option kptr :=
  match k with
  | K_consoleread _ _ _ _ => Some P_cons_r
  | K_kwait _ => Some (P_proc i)
  | _ => None
  end.

(** A saved context the thread of process [i] can go on from. *)
Definition resumable (i : nat) (p : proc) : Prop :=
  ctx_ra (p_context p) = PC_forkret \/
  exists k ie, ctx_ra (p_context p) = PC_sched k ie /\ is_Some (cont_chan i k).

(** A slot that holds nothing. *)
Definition cleared (p : proc) : Prop :=
  p_pid p = 0 /\ p_parent p = None /\ p_killed p = 0 /\ p_xstate p = 0 /\ load8 (p_name p) 0 = 0 /\
  p_sz p = 0 /\ p_pagetable p = 0 /\ p_trapframe p = 0 /\ p_chan p = NULL.

(** What the state of a process that is not on the CPU says of it. *)
Definition rests (i : nat) (p : proc) : Prop :=
  match p_state p with
  | RUNNING => False
  | SLEEPING => exists k ie,
      ctx_ra (p_context p) = PC_sched k ie /\ cont_chan i k = Some (p_chan p)
  | RUNNABLE => resumable i p
  | UNUSED => cleared p
  | USED | ZOMBIE => True
  end.

Definition is_running (p : proc) : Prop := p_state p = RUNNING.

Definition at_window (i : nat) (k : kcont) (p : proc) : Prop :=
  is_running p /\ (p_chan p = NULL \/ cont_chan i k = Some (p_chan p)).

Definition table : Type := list proc -> option nat -> Prop.

Definition cpu_ok (s : kstate) : Prop := (Z.to_nat (cpuid (k_lk s)) < length (l_cpus (k_lk s)))%nat.

(** An assertion on the process table, as one on the state. *)
Definition on (T : table) (s : kstate) : Prop := cpu_ok s /\ T (k_procs s) (cproc s).

(** * Rules for the assertions *)

Lemma on_weaken (T T' : table) s : (forall ps c, T ps c -> T' ps c) -> on T s -> on T' s.
Proof. intros HT [Hc Hs]. split; auto. Qed.

Lemma triple_quiet {A} T (m : M kstate A) : quiet m -> triple (on T) m (fun _ => on T).
Proof.
  intros Hq s a s' [Hc Hs] E. destruct (Hq _ _ _ E) as [Ep (E1 & E2 & E3)].
  unfold on, cpu_ok, cproc. rewrite Ep, E1, E2, E3. done.
Qed.

Lemma triple_quiet_bind {A B} T (m : M kstate A) (f : A -> M kstate B) Q :
  quiet m -> (forall a, triple (on T) (f a) Q) -> triple (on T) (m ≫= f) Q.
Proof. intros Hq Hf. eapply triple_bind; [by apply triple_quiet|done]. Qed.

Lemma triple_conseq {A} (T T' : table) (m : M kstate A) Q Q' :
  triple (on T') m Q' -> (forall ps c, T ps c -> T' ps c) -> (forall a s, Q' a s -> Q a s) ->
  triple (on T) m Q.
Proof. intros Hm HT HQ. eapply triple_weaken; [exact Hm| |exact HQ]. intros s. by apply on_weaken. Qed.

Lemma triple_pre {A} (T T' : table) (m : M kstate A) Q :
  triple (on T') m Q -> (forall ps c, T ps c -> T' ps c) -> triple (on T) m Q.
Proof. intros. by eapply triple_conseq. Qed.

Lemma triple_upd T i f : triple (on (fun ps c => T (alter f i ps) c)) (upd_proc i f) (fun _ => on T).
Proof. intros s a s' Hs [= <- <-]. exact Hs. Qed.

Lemma triple_upd_bind {B} (T T' : table) i f (g : unit -> M kstate B) Q :
  (forall ps c, T ps c -> T' (alter f i ps) c) -> triple (on T') (g tt) Q ->
  triple (on T) (upd_proc i f ≫= g) Q.
Proof.
  intros HT Hg. apply (triple_bind _ _ _ (fun _ => on T')); [|intros []; exact Hg].
  eapply triple_pre; [apply triple_upd|done].
Qed.

Lemma triple_proc_bind {B} T j (g : proc -> M kstate B) Q :
  (forall p, triple (on (fun ps c => T ps c /\ p = ps !!! j)) (g p) Q) ->
  triple (on T) (gets (the_proc j) ≫= g) Q.
Proof.
  intros Hg s b s' [Hc Hs] E. rewrite bind_gets in E. apply (Hg _ _ _ _ (conj Hc (conj Hs eq_refl)) E).
Qed.

Lemma triple_pure {A} (φ : Prop) (T : table) (m : M kstate A) Q :
  (φ -> triple (on T) m Q) -> triple (on (fun ps c => φ /\ T ps c)) m Q.
Proof. intros Hm s a s' [Hc [Hφ Hs]] E. by apply (Hm Hφ s). Qed.

Lemma triple_myproc T : triple (on T) myproc (fun p => on (fun ps c => T ps c /\ c = p)).
Proof.
  intros s a s' Hs E. pose proof (quiet_myproc s a s' E) as [Ep (E1 & E2 & E3)].
  unfold myproc in E. inv_ok. destruct a0, a2.
  match goal with X : lk push_off s = Ok _ _ |- _ => rename X into Eo end.
  assert (quiet (lk push_off)) as Hq by (apply quiet_lk; auto with quiet).
  destruct (Hq _ _ _ Eo) as [_ (Ec & _)]. destruct Hs as [Hc Hs].
  unfold on, cpu_ok, cproc. rewrite Ep, E1, E2, E3. split; [done|]. split; [done|]. by rewrite Ec.
Qed.

Lemma triple_mine_bind {B} T i (g : nat -> M kstate B) Q :
  (forall ps c, T ps c -> c = Some i) -> triple (on T) (g i) Q -> triple (on T) (mine ≫= g) Q.
Proof.
  intros HT Hg s b s' Hs E. apply bind_ok_inv in E as (j & s1 & E1 & E2).
  unfold mine in E1. apply bind_ok_inv in E1 as (p & s2 & E1 & E3).
  pose proof (triple_myproc T _ _ _ Hs E1) as [Hc [HT2 Hp]].
  unfold deref in E3. destruct p as [j'|]; [|done]. injection E3 as <- <-.
  assert (j' = i) as -> by (apply HT in HT2; congruence). apply (Hg s2 b s'); [by split|done].
Qed.

(** Run the quiet routines at the head. *)
Ltac tq1 :=
  lazymatch goal with
  | |- triple _ (gets (the_proc _) ≫= _) _ => fail
  | |- triple _ (mine ≫= _) _ => fail
  | |- triple _ (_ ≫= _) _ => apply triple_quiet_bind; [solve [quiet]|intros ?]
  end.
Ltac tq := repeat tq1.
Ltac tq_end := first [apply triple_quiet; solve [quiet] | tq; apply triple_quiet; solve [quiet]].

(** * The invariant of the table *)

(** The invariant for any process, or ([hot = Some n]) while the scheduler
    has not reached slot [n]: then process [n] stays RUNNABLE. *)
Section Invariant.
Variable hot : option nat.

(** A process that is not on the CPU. *)
Definition idle (i : nat) (p : proc) : Prop :=
  (hot = Some i -> p_state p = RUNNABLE) /\ rests i p.

(** Process [i] has the CPU and satisfies [P]; the others are idle. *)
Definition act (i : nat) (P : proc -> Prop) : table := fun ps c =>
  c = Some i /\ length ps = NPROC /\ ((i < NPROC)%nat /\ hot <> Some i) /\ P (ps !!! i) /\
  forall j, (j < NPROC)%nat -> j <> i -> idle j (ps !!! j).

(** No process runs; nobody has the CPU. *)
Definition all_idle : table := fun ps _ =>
  length ps = NPROC /\ forall j, (j < NPROC)%nat -> idle j (ps !!! j).
Definition calm : table := fun ps c => c = None /\ all_idle ps c.

Definition sys_inv (cs : ctl * kstate) : Prop :=
  let '(c, s) := cs in
  match c with
  | C_user i => on (act i is_running) s
  | C_window i k => on (act i (at_window i k)) s
  | C_back i => on (act i (idle i)) s
  | C_sched _ => on calm s
  end.

(** Updates of one process. *)
Lemma act_self i (P Q : proc -> Prop) f ps c :
  (forall p, P p -> Q (f p)) -> act i P ps c -> act i Q (alter f i ps) c.
Proof.
  intros Hf (-> & Hl & [Hi Hh] & HP & Hoth). unfold act. rewrite length_alter.
  rewrite list_lookup_total_alter_eq by lia. split_and!; auto.
  intros j Hj Hne. rewrite list_lookup_total_alter_ne by done. auto.
Qed.

(** Assertions that wakeups keep. *)
Definition wstable (T : table) : Prop :=
  forall ps c j ch, T ps c -> T (alter (wake1 ch) j ps) c.

Lemma wake1_idle i ch p : idle i p -> idle i (wake1 ch p).
Proof.
  unfold idle, rests, wake1, resumable, cleared. destruct (decide (p_chan p = ch)); [|done].
  destruct (decide (p_state p = SLEEPING)) as [E|E]; cbn.
  - rewrite E. intros [_ (k & ie & Hk & Hch)]. split; [done|]. right. exists k, ie. eauto.
  - destruct (p_state p); naive_solver.
Qed.

Lemma wstable_act i P : (forall p ch, P p -> P (wake1 ch p)) -> wstable (act i P).
Proof.
  intros HP ps c j ch (-> & Hl & [Hi Hh] & HPi & Hoth). unfold act. rewrite length_alter. split_and!; auto.
  - destruct (decide (i = j)) as [<-|].
    + rewrite list_lookup_total_alter_eq by lia. auto.
    + by rewrite list_lookup_total_alter_ne.
  - intros j' Hj' Hne. destruct (decide (j' = j)) as [<-|].
    + rewrite list_lookup_total_alter_eq by lia. auto using wake1_idle.
    + rewrite list_lookup_total_alter_ne by done. auto.
Qed.

Lemma wstable_calm : wstable calm.
Proof.
  intros ps c j ch (-> & Hl & Hall). split; [done|]. unfold all_idle. rewrite length_alter. split_and!; auto.
  intros j' Hj'. destruct (decide (j' = j)) as [<-|].
  - rewrite list_lookup_total_alter_eq by lia. auto using wake1_idle.
  - rewrite list_lookup_total_alter_ne by done. auto.
Qed.

Lemma wake1_running ch p : is_running p -> is_running (wake1 ch p).
Proof. unfold is_running. rewrite wake1_state. intros Hr. rewrite decide_False; [done|]. intros [_ E]. congruence. Qed.

Lemma wake1_window i k ch p : at_window i k p -> at_window i k (wake1 ch p).
Proof.
  intros [Hr Hc]. split; [by apply wake1_running|]. rewrite wake1_chan.
  destruct (decide _); [by left|done].
Qed.

Lemma wstable_running i : wstable (act i is_running).
Proof. apply wstable_act. intros. by apply wake1_running. Qed.
Lemma wstable_window i k : wstable (act i (at_window i k)).
Proof. apply wstable_act. intros. by apply wake1_window. Qed.

Lemma wakeup_triple T ch : wstable T -> triple (on T) (wakeup ch) (fun _ => on T).
Proof.
  intros HT. apply triple_for_each. intros j _. tq. apply triple_proc_bind. intros p.
  apply (triple_bind _ _ _ (fun _ => on T)); [|intros _; apply triple_quiet; quiet].
  case_decide as Hc; [|apply (triple_pre _ T); [apply triple_ret|by intros ? ? []]].
  case_decide as Hs.
  - apply (triple_upd_bind _ (fun ps c => T (alter (set_state RUNNABLE) j ps) c)); [|apply triple_upd].
    intros ps c [HTp ->]. rewrite alter_alter, (alter_the _ (wake1 ch)); [by apply HT|].
    unfold compose, wake1. by rewrite !decide_True.
  - apply (triple_upd_bind _ T); [|apply triple_ret].
    intros ps c [HTp ->]. rewrite (alter_the _ (wake1 ch)); [by apply HT|].
    unfold wake1. by rewrite decide_True, decide_False.
Qed.

(** * Interrupts *)

Lemma consoleintr_triple T c : wstable T -> triple (on T) (consoleintr c) (fun _ => on T).
Proof.
  intros HT. unfold consoleintr. tq.
  apply (triple_bind _ _ _ (fun _ => on T)); [|intros _; tq_end].
  case_match; [|tq_end]. cbv zeta. unfold consputc. tq. by apply wakeup_triple.
Qed.

Lemma uartintr_loop_triple T n : wstable T -> triple (on T) (uartintr_loop n) (fun _ => on T).
Proof.
  intros HT. induction n as [|n IH]; [apply triple_fuel|]. cbn [uartintr_loop]. tq.
  case_match; [tq_end|]. apply (triple_bind _ _ _ (fun _ => on T)); [by apply consoleintr_triple|done].
Qed.

Lemma devintr_triple T : wstable T -> triple (on T) devintr (fun _ => on T).
Proof.
  intros HT. unfold devintr. tq. case_match; [|case_match; [|tq_end]].
  - tq. apply (triple_bind _ _ _ (fun _ => on T)); [|intros _; tq_end].
    case_match; [|tq_end]. unfold uartintr. tq. by apply uartintr_loop_triple.
  - apply (triple_bind _ _ _ (fun _ => on T)); [|intros _; tq_end].
    unfold clockintr, cpuid_k. tq. apply (triple_bind _ _ _ (fun _ => on T)); [|intros _; tq_end].
    case_match; [|tq_end]. tq. apply (triple_bind _ _ _ (fun _ => on T)); [by apply wakeup_triple|].
    intros _. tq_end.
Qed.

Lemma kerneltrap_triple T : wstable T -> triple (on T) kerneltrap (fun _ => on T).
Proof.
  intros HT. unfold kerneltrap. tq. case_match; [apply triple_panic|]. tq.
  case_match; [apply triple_panic|].
  apply (triple_bind _ _ _ (fun _ => on T)); [by apply devintr_triple|]. intros r.
  case_match; [tq; apply triple_panic|tq_end].
Qed.

Lemma on_hart_on T f s : (forall h, h_tp (f h) = h_tp h) -> on T s -> on T (on_hart f s).
Proof.
  intros Hf. assert (quiet (set_csr f)) as Hq by by apply quiet_csr_set.
  intros Hs. by apply (triple_quiet T _ Hq s tt).
Qed.

(** * Creation and reaping *)

(** A slot that holds no thread. *)
Definition dead (p : proc) : Prop :=
  match p_state p with UNUSED | USED | ZOMBIE => True | _ => False end.
Definition used (p : proc) : Prop := p_state p = USED.
Definition orphan (p : proc) : Prop := p_parent p = None.
Definition empty (p : proc) : Prop := p_state p = UNUSED /\ cleared p.
(** A new process, whose thread starts in [forkret]. *)
Definition newborn (p : proc) : Prop := used p /\ ctx_ra (p_context p) = PC_forkret.
Definition fresh (p : proc) : Prop := newborn p /\ orphan p.

(** While a routine works on the dead slot [n], the table without it
    satisfies [T]: the slot counts as that of a zombie. *)
Definition spare : proc := set_state ZOMBIE zero_proc.

Definition slot (T : table) (n : nat) (Q : proc -> Prop) : table := fun ps c =>
  T (<[n := spare]> ps) c /\ length ps = NPROC /\ (n < NPROC)%nat /\ Q (ps !!! n).

(** Assertions of which a dead slot can be taken out, and put back at rest. *)
Record sstable (T : table) : Prop := {
  ss_length ps c : T ps c -> length ps = NPROC;
  ss_take ps c n : T ps c -> (n < NPROC)%nat -> dead (ps !!! n) -> T (<[n := spare]> ps) c;
  ss_give ps c n : T (<[n := spare]> ps) c -> (n < NPROC)%nat -> rests n (ps !!! n) -> T ps c
}.

Lemma dead_cold n p : idle n p -> dead p -> hot <> Some n.
Proof. intros [Hh _] Hd E. unfold dead in Hd. by rewrite (Hh E) in Hd. Qed.

Lemma spare_idle n : hot <> Some n -> idle n spare.
Proof. by split. Qed.

Lemma idles_take ps n (A : nat -> Prop) : length ps = NPROC -> (n < NPROC)%nat -> dead (ps !!! n) -> A n ->
  (forall j, (j < NPROC)%nat -> A j -> idle j (ps !!! j)) ->
  forall j, (j < NPROC)%nat -> A j -> idle j (<[n := spare]> ps !!! j).
Proof.
  intros Hl Hn Hd Ha Hall j Hj HA. destruct (decide (j = n)) as [->|].
  - rewrite list_lookup_total_insert_eq by lia. apply spare_idle. eapply dead_cold; [by apply Hall|done].
  - rewrite list_lookup_total_insert_ne by done. auto.
Qed.

Lemma idles_give ps n (A : nat -> Prop) : length ps = NPROC -> (n < NPROC)%nat -> rests n (ps !!! n) -> A n ->
  (forall j, (j < NPROC)%nat -> A j -> idle j (<[n := spare]> ps !!! j)) ->
  forall j, (j < NPROC)%nat -> A j -> idle j (ps !!! j).
Proof.
  intros Hl Hn Hr Ha Hall j Hj HA. specialize (Hall j Hj HA). destruct (decide (j = n)) as [->|].
  - rewrite list_lookup_total_insert_eq in Hall by lia. split; [|done].
    intros E. by apply (dead_cold n spare) in Hall.
  - by rewrite list_lookup_total_insert_ne in Hall.
Qed.

Lemma sstable_act i P : (forall p, P p -> ~ dead p) -> sstable (act i P).
Proof.
  intros HP. split.
  - by intros ps c (_ & ? & _).
  - intros ps c n (-> & Hl & [Hi Hh] & HPi & Hoth) Hn Hd.
    assert (n <> i) as Hne by (intros ->; by apply HP in HPi).
    unfold act. rewrite length_insert, list_lookup_total_insert_ne by done. split_and!; auto.
    by apply (idles_take ps n (fun j => j <> i)).
  - intros ps c n (-> & Hl & [Hi Hh] & HPi & Hoth) Hn Hr. rewrite length_insert in Hl.
    assert (n <> i) as Hne.
    { intros ->. rewrite list_lookup_total_insert_eq in HPi by lia. by apply HP in HPi. }
    rewrite list_lookup_total_insert_ne in HPi by done. unfold act. split_and!; auto.
    by apply (idles_give ps n (fun j => j <> i)).
Qed.

Lemma sstable_running i : sstable (act i is_running).
Proof. apply sstable_act. unfold is_running, dead. intros p ->. auto. Qed.

Lemma sstable_all_idle : sstable all_idle.
Proof.
  split.
  - by intros ps c (? & _).
  - intros ps c n (Hl & Hall) Hn Hd. split; [by rewrite length_insert|].
    intros j Hj. by apply (idles_take ps n (fun _ => True)); auto.
  - intros ps c n (Hl & Hall) Hn Hr. rewrite length_insert in Hl. split; [done|].
    intros j Hj. by apply (idles_give ps n (fun _ => True)); auto.
Qed.

Lemma slot_take T n (Q : proc -> Prop) ps c :
  sstable T -> T ps c -> (n < NPROC)%nat -> dead (ps !!! n) -> Q (ps !!! n) -> slot T n Q ps c.
Proof. intros HT Hs Hn Hd HQ. split_and!; [by apply ss_take|by eapply ss_length|done|done]. Qed.

Lemma slot_give T n (Q : proc -> Prop) ps c :
  sstable T -> (forall p, Q p -> rests n p) -> slot T n Q ps c -> T ps c.
Proof. intros HT HQ (Hs & Hl & Hn & Hq). eapply ss_give; eauto. Qed.

Lemma insert_alter_same (ps : list proc) n f x : <[n := x]> (alter f n ps) = <[n := x]> ps.
Proof.
  apply list_eq. intros j. destruct (decide (j = n)) as [->|].
  - destruct (decide (n < length ps)%nat).
    + rewrite !list_lookup_insert_eq; [done|done|by rewrite length_alter].
    + rewrite !lookup_ge_None_2; [done|rewrite length_insert; lia|rewrite length_insert, length_alter; lia].
  - rewrite !list_lookup_insert_ne by done. by rewrite list_lookup_alter_ne.
Qed.

Lemma slot_upd T n (Q Q' : proc -> Prop) f ps c :
  (forall p, Q p -> Q' (f p)) -> slot T n Q ps c -> slot T n Q' (alter f n ps) c.
Proof.
  intros Hf (HTp & Hl & Hn & HQ). unfold slot.
  rewrite insert_alter_same, length_alter, list_lookup_total_alter_eq by lia. split_and!; auto.
Qed.

Lemma slot_weaken T n (Q Q' : proc -> Prop) ps c :
  (forall p, Q p -> Q' p) -> slot T n Q ps c -> slot T n Q' ps c.
Proof. intros HQ (? & ? & ? & ?). split_and!; auto. Qed.

Lemma empty_rests n p : empty p -> rests n p.
Proof. intros [E Hc]. unfold rests. by rewrite E. Qed.
Lemma newborn_runnable n p : newborn p -> rests n (set_state RUNNABLE p).
Proof. intros [_ Hf]. by left. Qed.

(** An update of the slot [n]. *)
Tactic Notation "tupd" constr(Q') :=
  lazymatch goal with
  | |- triple (on (slot ?T ?n _)) (_ ≫= _) _ =>
      apply (triple_upd_bind _ (slot T n Q'));
        [intros ? ?; apply slot_upd; unfold fresh, newborn, used, orphan; cbn; intuition|]
  end.

(** The same, with the strongest condition on the result. *)
Lemma triple_slot_bind {B} T n (Q : proc -> Prop) f (g : unit -> M kstate B) R :
  triple (on (slot T n (fun p => exists q, Q q /\ p = f q))) (g tt) R ->
  triple (on (slot T n Q)) (upd_proc n f ≫= g) R.
Proof.
  intros Hg. eapply triple_upd_bind; [|exact Hg]. intros ps c. apply slot_upd. eauto.
Qed.

Lemma freeproc_triple T n :
  triple (on (slot T n orphan)) (freeproc n) (fun _ => on (slot T n empty)).
Proof.
  unfold freeproc. apply triple_proc_bind. intros p.
  apply (triple_pre _ (slot T n orphan)); [|by intros ? ? []].
  tq. apply triple_slot_bind. tq. do 7 apply triple_slot_bind.
  eapply triple_pre; [apply triple_upd|]. intros ps c. apply slot_upd.
  intros q Hq. repeat (destruct Hq as (? & Hq & ->)). split; [done|]. split_and!; try done.
  cbn. apply load8_store8_eq.
Qed.

Lemma find_unused_triple T l :
  sstable T -> (forall ps c j, T ps c -> (j < NPROC)%nat -> p_state (ps !!! j) = UNUSED -> cleared (ps !!! j)) ->
  (forall j, j ∈ l -> (j < NPROC)%nat) ->
  triple (on T) (find_unused l)
    (fun r => on (match r with None => T | Some n => slot T n orphan end)).
Proof.
  intros HT HC. induction l as [|j l IH]; intros Hl; cbn [find_unused]; [by apply triple_val|].
  tq. apply triple_proc_bind. intros p. case_decide as Hs.
  - intros s r s' [Hc [HTp ->]] [= <- <-]. split; [done|].
    assert (j < NPROC)%nat as Hj by (apply Hl; set_solver).
    apply slot_take; [done|done|done|unfold dead; by rewrite Hs|]. by destruct (HC _ _ j HTp Hj Hs) as (_ & ? & _).
  - apply (triple_pre _ T); [|by intros ? ? []]. tq. apply IH. set_solver.
Qed.

Lemma procs_idx_bound j : j ∈ procs_idx -> (j < NPROC)%nat.
Proof. by rewrite elem_of_procs_idx. Qed.

Lemma allocproc_triple T :
  sstable T -> (forall ps c j, T ps c -> (j < NPROC)%nat -> p_state (ps !!! j) = UNUSED -> cleared (ps !!! j)) ->
  triple (on T) allocproc
    (fun r => on (match r with None => T | Some n => slot T n fresh end)).
Proof.
  intros HT HC. unfold allocproc.
  apply (triple_bind _ _ _ (fun r => on (match r with None => T | Some n => slot T n orphan end)));
    [by apply find_unused_triple; [..|apply procs_idx_bound]|].
  intros [n|]; [|by apply triple_val]. tq. tupd orphan. tupd (fun p => used p /\ orphan p). tq.
  tupd (fun p => used p /\ orphan p).
  assert (triple (on (slot T n (fun p => used p /\ orphan p))) (freeproc n;; lk (release (L_proc n));; mret None)
    (fun r => on (match r with None => T | Some n => slot T n fresh end))) as Hfail.
  { apply (triple_pre _ (slot T n orphan)); [|intros ps c; apply slot_weaken; by intros p []].
    apply (triple_bind _ _ _ _ _ (freeproc_triple T n)). intros _. tq.
    apply triple_val. intros s. apply on_weaken. intros ps c. apply slot_give; [done|apply empty_rests]. }
  case_match; [done|]. tq. tupd (fun p => used p /\ orphan p). case_match; [done|].
  tupd (fun p => used p /\ orphan p).
  apply (triple_upd_bind _ (slot T n fresh)); [|by apply triple_val].
  intros ps c. apply slot_upd. by intros p [? ?].
Qed.

(** What a system call leaves. *)
Definition kres_inv (i : nat) (r : kres) : kstate -> Prop :=
  match r with
  | KRet _ => on (act i is_running)
  | KWindow k => on (act i (at_window i k))
  | KGone => on (act i (idle i))
  end.

Lemma act_cleared i P ps c j :
  (forall p, P p -> ~ dead p) -> act i P ps c -> (j < NPROC)%nat -> p_state (ps !!! j) = UNUSED -> cleared (ps !!! j).
Proof.
  intros HP (_ & _ & _ & HPi & Hoth) Hj Hs. destruct (decide (j = i)) as [->|Hne].
  - apply HP in HPi. unfold dead in HPi. by rewrite Hs in HPi.
  - destruct (Hoth j Hj Hne) as [_ Hr]. unfold rests in Hr. by rewrite Hs in Hr.
Qed.

Lemma running_cleared i ps c j :
  act i is_running ps c -> (j < NPROC)%nat -> p_state (ps !!! j) = UNUSED -> cleared (ps !!! j).
Proof. apply act_cleared. unfold is_running, dead. intros p ->. auto. Qed.

Lemma kfork_triple i :
  triple (on (act i is_running)) kfork (fun _ => on (act i is_running)).
Proof.
  unfold kfork. apply (triple_mine_bind _ i); [by intros ps c [-> _]|].
  pose proof (sstable_running i) as HS.
  apply (triple_bind _ _ _ _ _ (allocproc_triple _ HS (running_cleared i))).
  intros [n|]; [|apply triple_ret]. apply triple_proc_bind. intros p.
  apply (triple_pre _ (slot (act i is_running) n fresh)); [|by intros ? ? []]. tq. case_match.
  { apply (triple_pre _ (slot (act i is_running) n orphan)); [|intros ps c; apply slot_weaken; by intros q []].
    apply (triple_bind _ _ _ _ _ (freeproc_triple _ n)). intros _. tq.
    apply triple_val. intros s. apply on_weaken. intros ps c. apply slot_give; [done|apply empty_rests]. }
  tupd fresh. tq. tupd fresh. tq. tupd newborn. tq.
  apply (triple_upd_bind _ (act i is_running)); [|tq_end].
  intros ps c Hs. apply (slot_give _ n (rests n)); [done|done|]. revert Hs. apply slot_upd, newborn_runnable.
Qed.

(** An update of a process that is idle before and after, or of the running
    one. *)
Lemma act_upd i P f j ps c :
  (idle j (ps !!! j) -> idle j (f (ps !!! j))) -> (forall p, P p -> P (f p)) -> act i P ps c -> act i P (alter f j ps) c.
Proof.
  intros Hf HP HT. destruct (decide (j = i)) as [->|Hne]; [by eapply act_self|].
  destruct HT as (-> & Hl & [Hi Hh] & HPi & Hoth). unfold act. rewrite length_alter.
  split_and!; auto; [by rewrite list_lookup_total_alter_ne|].
  intros j' Hj' Hne'. destruct (decide (j' = j)) as [->|].
  - rewrite list_lookup_total_alter_eq by lia. auto.
  - rewrite list_lookup_total_alter_ne by done. auto.
Qed.

Lemma reparent_triple i : triple (on (act i is_running)) (reparent i) (fun _ => on (act i is_running)).
Proof.
  apply triple_for_each. intros j _. apply triple_proc_bind. intros p.
  case_decide as Hp; [|apply (triple_pre _ (act i is_running)); [apply triple_ret|by intros ? ? []]]. tq.
  apply (triple_upd_bind _ (act i is_running)).
  { intros ps c [HT ->]. apply act_upd; [|done|done]. unfold idle, rests. cbn.
    destruct (p_state (ps !!! j)); try done. intros [_ (_ & Hn & _)]. congruence. }
  apply wakeup_triple, wstable_running.
Qed.

(** [sched] saves where the thread goes on. *)
Lemma sched_triple i k (P Q : proc -> Prop) :
  (hot <> Some i -> forall p ie sp, P p -> Q (set_context (mkContext (PC_sched k ie) sp) p)) ->
  triple (on (act i P)) (sched k) (fun _ => on (act i Q)).
Proof.
  intros HPQ. unfold sched. apply (triple_mine_bind _ i); [by intros ps c [-> _]|].
  tq. case_match; [apply triple_panic|]. tq. case_match; [apply triple_panic|].
  apply triple_proc_bind. intros p. apply (triple_pre _ (act i P)); [|by intros ? ? []].
  case_match; [apply triple_panic|]. tq. case_match; [apply triple_panic|].
  eapply triple_pre; [apply triple_upd|]. intros ps c HT. pose proof HT as (_ & _ & [_ Hh] & _).
  revert HT. apply act_self. auto.
Qed.

Lemma kexit_triple i st : triple (on (act i is_running)) (kexit st) (fun _ => on (act i (idle i))).
Proof.
  unfold kexit. apply (triple_bind _ _ _ _ _ (triple_myproc _)). intros o.
  apply (triple_pre _ (fun ps c => o = Some i /\ act i is_running ps c));
    [|intros ps c [[-> HT] <-]; by split].
  apply triple_pure. intros ->. tq. case_match; [apply triple_panic|].
  match goal with |- triple ?T (deref (Some ?j) ≫= ?g) ?Q => change (triple T (g j) Q) end. cbv beta. tq.
  apply (triple_bind _ _ _ (fun _ => on (act i is_running))).
  { eapply triple_pre; [apply reparent_triple|]. done. }
  intros _. tq.
  apply (triple_bind _ _ _ (fun _ => on (act i is_running))); [apply wakeup_triple, wstable_running|].
  intros _. tq. apply (triple_upd_bind _ (act i is_running)); [intros ps c; by apply act_self|].
  apply (triple_upd_bind _ (act i (fun p => p_state p = ZOMBIE))); [intros ps c; by apply act_self|].
  tq. apply sched_triple. intros Hh p ie sp Hp. split; [done|]. unfold rests. cbn. by rewrite Hp.
Qed.

Lemma sleep_prepare_triple i ch :
  triple (on (act i is_running)) (sleep_prepare ch)
    (fun _ => on (act i (fun p => is_running p /\ p_chan p = ch))).
Proof.
  unfold sleep_prepare. apply (triple_mine_bind _ i); [by intros ps c [-> _]|]. tq.
  apply (triple_upd_bind _ (act i (fun p => is_running p /\ p_chan p = ch)));
    [intros ps c; by apply act_self|tq_end].
Qed.

Lemma kwait_scan_triple i addr l : (forall j, j ∈ l -> (j < NPROC)%nat) -> forall hk,
  triple (on (act i is_running)) (kwait_scan l i addr hk) (fun _ => on (act i is_running)).
Proof.
  induction l as [|j l IH]; intros Hl hk; cbn [kwait_scan]; [apply triple_ret|].
  assert (forall hk, triple (on (act i is_running)) (kwait_scan l i addr hk)
    (fun _ => on (act i is_running))) as IH' by (apply IH; set_solver).
  apply triple_proc_bind. intros p. case_decide as Hp;
    [|apply (triple_pre _ (act i is_running)); [done|by intros ? ? []]].
  tq. case_decide as Hz;
    [|apply (triple_pre _ (act i is_running)); [|by intros ? ? []]; tq; apply IH'].
  pose proof (sstable_running i) as HS.
  apply (triple_pre _ (slot (act i is_running) j (fun p => p_state p = ZOMBIE))).
  - cbv zeta. tq. case_match.
    { tq. apply triple_val. intros s. apply on_weaken. intros ps c. apply slot_give; [done|].
      intros q Hq. unfold rests. by rewrite Hq. }
    tupd orphan. apply (triple_bind _ _ _ _ _ (freeproc_triple _ j)). intros _. tq.
    apply triple_val. intros s. apply on_weaken. intros ps c. apply slot_give; [done|apply empty_rests].
  - intros ps c [HT ->]. apply slot_take; [done|done|apply Hl; set_solver|unfold dead; by rewrite Hz|done].
Qed.

Lemma kwait_round_triple i addr : triple (on (act i is_running)) (kwait_round i addr) (kres_inv i).
Proof.
  unfold kwait_round.
  apply (triple_bind _ _ _ _ _ (kwait_scan_triple i addr procs_idx procs_idx_bound false)).
  intros [r|hk]; cbn beta iota; [by apply triple_val|]. tq.
  case_match; [tq; by apply triple_val|].
  apply (triple_bind _ _ _ _ _ (sleep_prepare_triple i _)). intros _. tq.
  apply triple_val. intros s. apply on_weaken. intros ps c (? & ? & [? ?] & [HR Hch] & ?).
  split_and!; auto. split; [done|]. right. cbn. congruence.
Qed.

Lemma kwait_triple i addr : triple (on (act i is_running)) (kwait addr) (kres_inv i).
Proof.
  unfold kwait. apply (triple_mine_bind _ i); [by intros ps c [-> _]|]. tq. apply kwait_round_triple.
Qed.

Lemma consoleread_loop_triple i f : forall u d n t,
  triple (on (act i is_running)) (consoleread_loop f u d n t) (kres_inv i).
Proof.
  induction f as [|f IH]; intros u d n t; cbn [consoleread_loop];
    (case_match; [tq; by apply triple_val|]); [apply triple_fuel|].
  tq. case_match.
  - apply (triple_mine_bind _ i); [by intros ps c [-> _]|]. tq.
    case_match; [tq; by apply triple_val|].
    apply (triple_bind _ _ _ _ _ (sleep_prepare_triple i _)). intros _. tq.
    apply triple_val. intros s. apply on_weaken. intros ps c (? & ? & [? ?] & [HR Hch] & ?).
    split_and!; auto. split; [done|]. right. cbn. congruence.
  - case_match. tq. case_match; [tq; by apply triple_val|]. cbv zeta.
    case_match; [tq; by apply triple_val|apply IH].
Qed.

Lemma kexec_triple i path : triple (on (act i is_running)) (kexec path) (fun _ => on (act i is_running)).
Proof.
  unfold kexec. tq. cbv zeta. case_match; [apply triple_ret|]. tq. case_match; [apply triple_ret|].
  apply (triple_mine_bind _ i); [by intros ps c [-> _]|]. tq.
  apply triple_proc_bind. intros p. apply (triple_pre _ (act i is_running)); [|by intros ? ? []]. tq.
  case_match; [apply triple_ret|]. tq. case_match; [tq_end|]. tq. case_match; [tq_end|].
  do 3 (apply (triple_upd_bind _ (act i is_running)); [intros ps c; by apply act_self|]). tq_end.
Qed.

(** * System calls and traps *)

Lemma on_mine i P ps c : act i P ps c -> c = Some i.
Proof. by intros [-> _]. Qed.

Lemma kres_ret i {A} (m : M kstate A) (f : A -> Z) :
  triple (on (act i is_running)) m (fun _ => on (act i is_running)) ->
  triple (on (act i is_running)) (r ← m; mret (KRet (f r))) (kres_inv i).
Proof. intros Hm. apply (triple_bind _ _ _ _ _ Hm). intros r. by apply triple_val. Qed.

Lemma syscall_return_triple i r : triple (kres_inv i r) (syscall_return i r) (kres_inv i).
Proof.
  destruct r as [x|k|]; cbn [kres_inv syscall_return]; [|by apply triple_val|by apply triple_val].
  tq. by apply triple_val.
Qed.

Lemma syscalls_triple i num f :
  syscalls num = Some f -> triple (on (act i is_running)) f (kres_inv i).
Proof.
  unfold syscalls. repeat (case_match; [intros [= <-]|]); [..|done].
  - apply (kres_ret i kfork id), kfork_triple.
  - unfold sys_exit. tq. apply (triple_bind _ _ _ _ _ (kexit_triple i _)). intros _. by apply triple_val.
  - unfold sys_wait. tq. apply kwait_triple.
  - unfold sys_read. tq. case_match; [by apply triple_val|]. unfold consoleread. tq.
    apply consoleread_loop_triple.
  - unfold sys_exec. tq. case_match. case_match; [by apply triple_val|].
    apply (kres_ret i (kexec _) id), kexec_triple.
  - unfold sys_getpid. apply (triple_mine_bind _ i); [apply on_mine|]. tq. by apply triple_val.
  - unfold sys_write. tq. case_match; [by apply triple_val|]. tq. by apply triple_val.
Qed.

Lemma syscall_triple i : triple (on (act i is_running)) syscall (kres_inv i).
Proof.
  unfold syscall. apply (triple_mine_bind _ i); [apply on_mine|]. tq. cbv zeta.
  destruct (_ && _); [destruct (syscalls _) as [f|] eqn:E|].
  - apply (triple_bind _ _ _ _ _ (syscalls_triple i _ _ E)). intros r. apply syscall_return_triple.
  - apply (syscall_return_triple i (KRet (-1))).
  - apply (syscall_return_triple i (KRet (-1))).
Qed.

(** What a thread that leaves the kernel leaves. *)
Definition ures_inv (i : nat) (r : ures) : kstate -> Prop :=
  fun s => sys_inv (ctl_of i r, s).

Lemma usertrap_end_triple i : triple (on (act i is_running)) (usertrap_end i) (ures_inv i).
Proof.
  unfold usertrap_end. tq. case_match.
  - apply (triple_bind _ _ _ _ _ (kexit_triple i _)). intros _. by apply triple_val.
  - tq. by apply triple_val.
Qed.

Lemma after_syscall_triple i r : triple (kres_inv i r) (after_syscall i r) (ures_inv i).
Proof.
  destruct r as [x|k|]; cbn [kres_inv after_syscall]; [apply usertrap_end_triple|by apply triple_val..].
Qed.

Lemma setkilled_triple i : triple (on (act i is_running)) (setkilled i) (fun _ => on (act i is_running)).
Proof.
  unfold setkilled. tq. apply (triple_upd_bind _ (act i is_running)); [|tq_end].
  intros ps c. by apply act_self.
Qed.

Lemma usertrap_triple i : triple (on (act i is_running)) usertrap (ures_inv i).
Proof.
  unfold usertrap. tq. case_match; [apply triple_panic|]. tq.
  apply (triple_mine_bind _ i); [apply on_mine|]. tq. case_match.
  - tq. apply (triple_bind _ _ _ _ _ (syscall_triple i)). intros r. apply after_syscall_triple.
  - apply (triple_bind _ _ _ _ _ (devintr_triple _ (wstable_running i))). intros d.
    apply (triple_bind _ _ _ (fun _ => on (act i is_running))); [|intros _; apply usertrap_end_triple].
    case_match; [apply triple_ret|]. tq. apply triple_proc_bind. intros p.
    apply (triple_pre _ (act i is_running)); [|by intros ? ? []]. tq. apply setkilled_triple.
Qed.

(** * sleep and the scheduler *)

Lemma sleep_triple i k :
  triple (on (act i (at_window i k))) (sleep k)
    (fun b : bool => on (act i (if b then idle i else is_running))).
Proof.
  unfold sleep. apply (triple_mine_bind _ i); [apply on_mine|]. tq. apply triple_proc_bind. intros p.
  case_decide as Hch.
  - apply (triple_pre _ (act i is_running)); [|intros ps c [(? & ? & [? ?] & [? _] & ?) _]; by split_and!].
    tq. by apply triple_val.
  - apply (triple_pre _ (act i (fun q => cont_chan i k = Some (p_chan q)))).
    2: { intros ps c [(? & ? & [? ?] & [? [Hc|Hc]] & ?) ->]; [done|]. by split_and!. }
    apply (triple_upd_bind _ (act i (fun q => p_state q = SLEEPING /\ cont_chan i k = Some (p_chan q))));
      [intros ps c; by apply act_self|].
    apply (triple_bind _ _ _ (fun _ => on (act i (idle i)))); [|intros _; by apply triple_val].
    apply sched_triple. intros Hh q ie sp [Hs Hc]. split; [done|]. unfold rests. cbn. rewrite Hs. eauto.
Qed.

Lemma resume_cont_triple i k : triple (on (act i is_running)) (resume_cont i k) (ures_inv i).
Proof.
  destruct k as [u d n t|addr| |]; cbn [resume_cont].
  - unfold consoleread_resume. apply (triple_bind _ _ _ (kres_inv i)).
    + tq. apply consoleread_loop_triple.
    + intros r. apply (triple_bind _ _ _ _ _ (syscall_return_triple i r)). intros r'.
      apply after_syscall_triple.
  - unfold kwait_resume. apply (triple_bind _ _ _ (kres_inv i)).
    + tq. apply kwait_round_triple.
    + intros r. apply (triple_bind _ _ _ _ _ (syscall_return_triple i r)). intros r'.
      apply after_syscall_triple.
  - apply triple_panic.
  - apply usertrap_end_triple.
Qed.

Lemma enter_sleep_triple i k :
  triple (on (act i (at_window i k))) (enter_sleep i k)
    (fun r => match r with None => on (act i (idle i)) | Some r => ures_inv i r end).
Proof.
  unfold enter_sleep. apply (triple_bind _ _ _ _ _ (sleep_triple i k)). intros [|]; [by apply triple_val|].
  apply (triple_bind _ _ _ _ _ (resume_cont_triple i k)). intros r. by apply triple_val.
Qed.

Lemma forkret_triple i : triple (on (act i is_running)) forkret (ures_inv i).
Proof.
  unfold forkret. apply (triple_mine_bind _ i); [apply on_mine|]. tq.
  apply (triple_bind _ _ _ (fun _ => on (act i is_running))); [|intros _; tq; by apply triple_val].
  case_match; [|apply triple_ret]. tq. apply (triple_bind _ _ _ _ _ (kexec_triple i _)). intros r.
  tq. tq_end.
Qed.

Lemma cproc_triple T o :
  triple (on (fun ps _ => T ps o)) (lk (modify (upd_mycpu (set_cproc o)))) (fun _ => on T).
Proof.
  intros s a s' [Hc Hs] [= <- <-]. unfold on, cpu_ok, cproc, upd_mycpu. cbn.
  set (l := k_lk s) in *. set (l1 := mkLk _ _ _). change (cpuid l1) with (cpuid l).
  rewrite length_insert. split; [done|].
  unfold mycpu at 1. change (cpuid l1) with (cpuid l). unfold l1. cbn.
  by rewrite list_lookup_total_insert_eq.
Qed.

Lemma quiet_ccontext x : quiet (lk (modify (upd_mycpu (set_ccontext x)))).
Proof. by apply quiet_lk, lquiet_upd. Qed.

Lemma quiet_sched_resume ie : quiet (sched_resume ie).
Proof. by apply quiet_lk, lquiet_upd. Qed.
Hint Resolve quiet_sched_resume : quiet.

Lemma scheduler_back_triple i : triple (on (act i (idle i))) (scheduler_back i) (fun _ => on calm).
Proof.
  unfold scheduler_back. apply (triple_bind _ _ _ (fun _ => on calm)); [|intros _; tq_end].
  eapply triple_pre; [apply cproc_triple|]. intros ps c (_ & Hl & Hi & Hid & Hoth).
  split; [done|]. split; [done|]. intros j Hj. destruct (decide (j = i)) as [->|]; auto.
Qed.

(** The scheduler at slot [i], which is not the one kept RUNNABLE. *)
Lemma scheduler_try_triple i : (i < NPROC)%nat -> hot <> Some i ->
  triple (on calm) (scheduler_try i)
    (fun b : bool => on (if b then act i (fun p => is_running p /\ resumable i p) else calm)).
Proof.
  intros Hi Hh. unfold scheduler_try. tq. apply triple_proc_bind. intros p. case_decide as Hs.
  - set (T := fun ps (_ : option nat) => length ps = NPROC /\
      (is_running (ps !!! i) /\ resumable i (ps !!! i)) /\
      forall j, (j < NPROC)%nat -> j <> i -> idle j (ps !!! j)).
    apply (triple_upd_bind _ T).
    { intros ps c [(_ & Hl & Hall) ->]. unfold T. rewrite length_alter.
      rewrite list_lookup_total_alter_eq by lia. split_and!; [done|done| |].
      - destruct (Hall i Hi) as [_ Hr]. unfold rests in Hr. by rewrite Hs in Hr.
      - intros j Hj Hne. rewrite list_lookup_total_alter_ne by done. auto. }
    apply (triple_bind _ _ _ (fun _ => on (act i (fun p => is_running p /\ resumable i p)))).
    { eapply triple_pre; [apply cproc_triple|]. intros ps c (Hl & [HR1 HR2] & Hoth). by split_and!. }
    intros _. apply triple_quiet_bind; [apply quiet_ccontext|]. intros _. by apply triple_val.
  - apply (triple_pre _ calm); [|by intros ? ? []]. tq. by apply triple_val.
Qed.

(** Passing over a slot changes no process. *)
Lemma scheduler_skip_triple T i : triple (on T) (scheduler_try i) (fun b => if b then fun _ => True else on T).
Proof.
  unfold scheduler_try. tq. apply triple_proc_bind. intros p. case_decide as Hs.
  - apply (triple_bind _ _ _ (fun _ _ => True)); [done|intros _].
    apply (triple_bind _ _ _ (fun _ _ => True)); [done|intros _].
    apply (triple_bind _ _ _ (fun _ _ => True)); [done|intros _]. by apply triple_val.
  - apply (triple_pre _ T); [|by intros ? ? []]. tq. by apply triple_val.
Qed.

Lemma resume_triple i :
  triple (on (act i (fun p => is_running p /\ resumable i p))) (resume i) (ures_inv i).
Proof.
  unfold resume. apply triple_proc_bind. intros p.
  apply (triple_pre _ (act i is_running)).
  - case_match; try apply triple_panic; [apply forkret_triple|].
    case_match; try (tq; apply triple_panic);
      unfold sleep_resume, yield_resume; (apply triple_quiet_bind; [solve [quiet]|intros _]);
      apply resume_cont_triple.
  - intros ps c [(? & ? & [? ?] & [? _] & ?) _]. by split_and!.
Qed.

(** * The invariant of the steps *)

Lemma step_inv cs cs' : step cs cs' -> (forall n, hot = Some n -> n ∉ tried cs cs') -> sys_inv cs -> sys_inv cs'.
Proof.
  intros Hstep. destruct Hstep as [i m s Hw|i cause epc tval s r s' E|i k s s' E|i k s r s' E
    |c cause epc tval s s' [_ Hk] E|i s s' E|j s s' Hj E|j s s1 r s' Hj E1 E2|s s' E]; intros Hhot Hinv.
  - exact Hinv.
  - refine (usertrap_triple i _ r s' _ E). by apply on_hart_on.
  - exact (enter_sleep_triple i k s None s' Hinv E).
  - exact (enter_sleep_triple i k s (Some r) s' Hinv E).
  - destruct c as [i|i k|i|j]; try done; cbn in Hinv |- *.
    + apply on_hart_on; [done|]. refine (kerneltrap_triple _ _ _ tt s' _ E); [apply wstable_window|].
      by apply on_hart_on.
    + apply on_hart_on; [done|]. refine (kerneltrap_triple _ _ _ tt s' _ E); [apply wstable_calm|].
      by apply on_hart_on.
  - by apply (scheduler_back_triple i s tt s').
  - by apply (scheduler_skip_triple calm j s false s').
  - apply (resume_triple j s1 r s'); [|done].
    apply (scheduler_try_triple j Hj) with (s := s) (a := true) (s' := s1); [|done|done].
    intros Hn. apply (Hhot j Hn). rewrite tried_run. set_solver.
  - cbn in Hinv |- *. unfold scheduler_head in E.
    apply (triple_quiet calm (set_csr intr_on)) with s tt; [by apply quiet_csr_set|done|done].
Qed.
End Invariant.

Lemma steps_inv cs cs' : rtc step cs cs' -> sys_inv None cs -> sys_inv None cs'.
Proof. induction 1 as [|cs cs1 cs2 Hs _ IH]; intros Hinv; [done|]. by apply IH, (step_inv None _ _ Hs). Qed.

(** ** From boot *)

(** The table in the BSS of the kernel: every slot is free. *)
Definition blank : table := fun ps _ => length ps = NPROC /\ forall j, (j < NPROC)%nat -> empty (ps !!! j).

Lemma blank_upd n f ps c : blank ps c -> empty (f (ps !!! n)) -> blank (alter f n ps) c.
Proof.
  intros [Hl Hall] Hid. split; [by rewrite length_alter|]. intros j Hj.
  destruct (decide (j = n)) as [->|].
  - by rewrite list_lookup_total_alter_eq by lia.
  - rewrite list_lookup_total_alter_ne by done. auto.
Qed.

Lemma blank_idle ps c : blank ps c -> all_idle None ps c.
Proof. intros [Hl Hall]. split; [done|]. intros j Hj. split; [done|]. by apply empty_rests, Hall. Qed.

Lemma procinit_triple : triple (on blank) procinit (fun _ => on blank).
Proof.
  unfold procinit. tq. apply triple_for_each. intros i Hi%procs_idx_bound. tq.
  apply (triple_upd_bind _ blank).
  - intros ps c HT. apply blank_upd; [done|]. destruct HT as [_ Hall]. by destruct (Hall i Hi).
  - eapply triple_pre; [apply triple_upd|]. intros ps c HT. apply blank_upd; [done|].
    destruct HT as [_ Hall]. by destruct (Hall i Hi).
Qed.

Lemma userinit_triple : triple (on (all_idle None)) userinit (fun _ => on (all_idle None)).
Proof.
  pose proof (sstable_all_idle None) as HS.
  unfold userinit. eapply triple_bind; [apply (allocproc_triple _ HS)|].
  { intros ps c j [_ Hall] Hj Hs. destruct (Hall j Hj) as [_ Hr]. unfold rests in Hr. by rewrite Hs in Hr. }
  intros [n|]; cbn beta iota; tq; [|apply triple_panic].
  match goal with |- triple ?T (deref (Some ?j) ≫= ?g) ?Q => change (triple T (g j) Q) end. cbv beta.
  apply (triple_upd_bind _ (all_idle None)); [|tq_end]. intros ps c Hs.
  apply (slot_give _ n (rests n)); [done|done|]. revert Hs. apply slot_upd.
  intros p [Hp _]. by apply newborn_runnable.
Qed.

Lemma quiet_banner : quiet banner.
Proof. unfold banner. quiet. Qed.

Lemma quiet_devices : quiet consoleinit /\ quiet plicinit /\ quiet plicinithart.
Proof.
  unfold consoleinit, uartinit, plicinit, plicinithart, WriteReg, cpuid_k, plic_store. split_and!; quiet.
Qed.

(** [main] hands a calm machine without held locks to the scheduler. *)
Lemma main_triple : triple (on blank) main (fun _ => on (calm None)).
Proof.
  destruct quiet_devices as (Hc & Hp & Hph).
  unfold main, kvminit, kvminithart, trapinit, trapinithart, cpuid_k. tq.
  case_match; [apply triple_fuel|]. apply triple_quiet_bind; [exact Hc|intros _].
  apply triple_quiet_bind; [exact quiet_banner|intros _]. tq.
  apply (triple_bind _ _ _ _ _ procinit_triple). intros _. tq.
  apply (triple_bind _ _ _ (fun _ => on (all_idle None))).
  { eapply triple_pre; [apply userinit_triple|apply blank_idle]. }
  intros _. eapply triple_pre; [apply cproc_triple|]. by intros ps c HT.
Qed.

(** Where [main] ends, started on a blank table with no lock held. *)
Theorem main_starts_scheduler o s s' :
  on blank s -> have o ∅ 0 s -> main s = Ok tt s' -> on (calm None) s' /\ have None ∅ 0 s'.
Proof. intros Hb Hl E. split; [exact (main_triple s tt s' Hb E)|exact (main_locks o s tt s' Hl E)]. Qed.

(** The process whose thread runs, and the one [mycpu()->proc] names. *)
Definition running_of (c : ctl) : option nat :=
  match c with C_user i | C_window i _ => Some i | _ => None end.
Definition owner_of (c : ctl) : option nat :=
  match c with C_user i | C_window i _ | C_back i => Some i | _ => None end.

Lemma sys_inv_facts hot c s : sys_inv hot (c, s) ->
  length (k_procs s) = NPROC /\ cproc s = owner_of c /\
  forall i p, k_procs s !! i = Some p ->
    (running_of c = Some i /\ is_running p \/ running_of c <> Some i /\ idle hot i p).
Proof.
  assert (forall i P, on (act hot i P) s -> length (k_procs s) = NPROC /\ cproc s = Some i /\
    forall j p, k_procs s !! j = Some p -> (j = i /\ P p \/ j <> i /\ idle hot j p)) as Hact.
  { intros i P [_ (Ec & Hl & [Hi Hh] & HP & Hoth)]. split_and!; [done|done|]. intros j p Hj.
    pose proof (lookup_lt_Some _ _ _ Hj). rewrite <- (list_lookup_total_correct _ _ _ Hj).
    destruct (decide (j = i)) as [->|]; [by left|right]. split; [done|]. apply Hoth; [lia|done]. }
  unfold sys_inv. destruct c as [i|i k|i|j]; intros Hs; cbn [running_of owner_of].
  - destruct (Hact _ _ Hs) as (? & ? & Hp). split_and!; [done|done|].
    intros j p Hj. destruct (Hp j p Hj) as [[-> ?]|[? ?]]; [by left|right]. split; [congruence|done].
  - destruct (Hact _ _ Hs) as (? & ? & Hp). split_and!; [done|done|].
    intros j p Hj. destruct (Hp j p Hj) as [[-> [? _]]|[? ?]]; [by left|right]. split; [congruence|done].
  - destruct (Hact _ _ Hs) as (? & ? & Hp). split_and!; [done|done|].
    intros j p Hj. right. split; [done|]. destruct (Hp j p Hj) as [[-> ?]|[? ?]]; done.
  - destruct Hs as [_ (Ec & Hl & Hall)]. split_and!; [done|done|]. intros i p Hi. right. split; [done|].
    pose proof (lookup_lt_Some _ _ _ Hi). rewrite <- (list_lookup_total_correct _ _ _ Hi).
    apply Hall. lia.
Qed.

Lemma sys_inv_cold hot c s : sys_inv hot (c, s) -> hot <> None -> running_of c <> hot.
Proof.
  unfold sys_inv. destruct c; cbn [running_of]; [intros [_ (_ & _ & [_ Hh] & _)] _; congruence..| |]; by destruct hot.
Qed.

(** ** The locks

    Outside the kernel's routines a lock is held only by a thread that has
    switched to the scheduler: its own. *)
Definition locks_of (c : ctl) : gset lockid := match c with C_back i => {[L_proc i]} | _ => ∅ end.
Definition depth_of (c : ctl) : Z := match c with C_back _ => 1 | _ => 0 end.

Definition locks_inv (cs : ctl * kstate) : Prop :=
  have (owner_of cs.1) (locks_of cs.1) (depth_of cs.1) cs.2.

Lemma ures_locks_inv i r s : ures_locks (Some i) r s -> locks_inv (ctl_of i r, s).
Proof. destruct r; [done|done|]. by intros (j & [= <-] & Hs). Qed.

Lemma have_on_hart o X f s : (forall h, hart_ok h -> h_tp (f h) = h_tp h /\ hart_ok (f h)) ->
  have o X 0 s -> have o X 0 (on_hart f s).
Proof. intros Hf. by apply held_on_hart. Qed.

Lemma have_trap o X b cause epc tval s : have o X 0 s -> have o X 0 (on_hart (hw_trap b cause epc tval) s).
Proof. apply have_on_hart. intros h _. split; [done|]. apply u64_range. Qed.

Lemma step_locks cs cs' : step cs cs' -> locks_inv cs -> locks_inv cs'.
Proof.
  intros Hstep. destruct Hstep as [i m s Hw|i cause epc tval s r s' E|i k s s' E|i k s r s' E
    |c cause epc tval s s' [_ Hk] E|i s s' E|j s s' Hj E|j s s1 r s' Hj E1 E2|s s' E]; intros Hinv.
  - exact Hinv.
  - apply ures_locks_inv. exact (usertrap_locks _ _ _ _ (have_trap _ _ _ _ _ _ _ Hinv) E).
  - apply (ures_locks_inv i U_gone). exact (enter_sleep_locks _ i k s None s' Hinv E).
  - apply ures_locks_inv. exact (enter_sleep_locks _ i k s (Some r) s' Hinv E).
  - assert (depth_of c = 0) as Hd by by destruct c. unfold locks_inv in *. cbn [fst snd] in *. rewrite Hd in *.
    apply have_on_hart; [intros h _; split; [done|apply hart_ok_w_sstatus]|].
    exact (kerneltrap_locks _ _ _ _ _ (have_trap _ _ _ _ _ _ _ Hinv) E).
  - exact (scheduler_back_locks i s tt s' Hinv E).
  - exact (scheduler_try_locks j s false s' Hinv E).
  - apply ures_locks_inv. apply (resume_locks j s1 r s'); [|done]. exact (scheduler_try_locks j s true s1 Hinv E1).
  - unfold scheduler_head in E. apply (set_csr_triple None ∅ intr_on) with s tt; [|done|done].
    intros h _. split; [done|apply hart_ok_w_sstatus].
Qed.

Lemma steps_locks cs cs' : rtc step cs cs' -> locks_inv cs -> locks_inv cs'.
Proof. induction 1; eauto using step_locks. Qed.

(** C1: the process table stays consistent with the CPU and the locks through
    every sequence of user steps, traps, system calls, interrupts, sleeps and
    scheduling rounds that starts in the scheduler with all processes idle and
    no lock held (where [main] ends).  The process the running thread belongs
    to is [RUNNING] and the only one; [mycpu()->proc] names it; a [SLEEPING]
    process has its thread parked in the [sleep()] of [consoleread] or [kwait]
    and waits on exactly the channel that routine prepared; every [RUNNABLE]
    process has a context its thread can go on from ([forkret] or such a
    [sleep()]), never the one of a zombie; and an [UNUSED] slot holds nothing:
    no pid, parent, name, memory, page table, trapframe, channel or exit
    status.  No routine leaks a lock: in user code, in front of a [sleep()]
    and in the scheduler none is held and the nesting depth is 0; a thread
    that has switched to the scheduler holds exactly its process's lock, at
    depth 1. *)
Theorem process_table_invariant s0 c s :
  on (calm None) s0 -> have None ∅ 0 s0 -> rtc step (C_sched NPROC, s0) (c, s) ->
  length (k_procs s) = NPROC /\ cproc s = owner_of c /\
  (forall x, holding x (k_lk s) = true <-> x ∈ locks_of c) /\
  c_noff (mycpu (k_lk s)) = depth_of c /\
  forall i p, k_procs s !! i = Some p ->
    (p_state p = RUNNING <-> running_of c = Some i) /\
    (p_state p = SLEEPING -> exists k ie,
       ctx_ra (p_context p) = PC_sched k ie /\ cont_chan i k = Some (p_chan p)) /\
    (p_state p = RUNNABLE -> resumable i p) /\
    (p_state p = UNUSED -> cleared p).
Proof.
  intros Hs Hl0 Hr. pose proof (steps_locks _ _ Hr Hl0) as HL.
  apply steps_inv in Hr; [|done]. apply sys_inv_facts in Hr as (Hl & Hc & Hp).
  split_and!; [done|done|apply HL|apply HL|]. intros i p Hi. destruct (Hp i p Hi) as [[-> HR]|[Hne [_ Hid]]].
  - unfold is_running in HR. rewrite HR. by split_and!.
  - unfold rests in Hid. destruct (p_state p); (split; [split|split; [|split]]); intros; done || congruence.
Qed.

(** * The scheduler's choice *)

(** The scheduler does not get stuck where no lock is held. *)
Lemma scheduler_try_total s m : have None ∅ 0 s ->
  exists s1, scheduler_try m s = Ok (bool_decide (p_state (the_proc m s) = RUNNABLE)) s1 /\
    k_procs s1 = if decide (p_state (the_proc m s) = RUNNABLE)
                 then alter (set_state RUNNING) m (k_procs s) else k_procs s.
Proof.
  intros Hs. destruct (acquire_total None ∅ 0 (L_proc m) (k_lk s) Hs) as (l1 & E1 & H1); [set_solver|].
  unfold scheduler_try. mrun (lk_run _ s _ _ E1). mstep. change (the_proc m (with_lk l1 s)) with (the_proc m s).
  case_decide as Hr.
  - rewrite bool_decide_eq_true_2 by done. unfold upd_proc. mstep. by eexists.
  - rewrite bool_decide_eq_false_2 by done.
    destruct (release_total _ _ _ (L_proc m) l1 H1) as (l2 & E2 & _); [set_solver|lia|].
    mrun (lk_run _ (with_lk l1 s) _ _ E2). by eexists.
Qed.

Lemma scheduler_back_total s i : have (Some i) {[L_proc i]} 1 s ->
  exists s1, scheduler_back i s = Ok tt s1 /\ k_procs s1 = k_procs s.
Proof.
  intros Hs. unfold scheduler_back.
  pose proof (cproc_set_triple (Some i) None _ _ s tt _ Hs eq_refl) as H1.
  destruct (release_total _ _ _ (L_proc i) _ H1) as (l2 & E2 & _); [set_solver|lia|].
  rewrite (bind_ok _ _ s tt (with_lk (upd_mycpu (set_cproc None) (k_lk s)) s) eq_refl).
  rewrite (lk_run _ _ _ _ E2). by eexists.
Qed.

(** Runs of the system with the slots that the scheduler has tried. *)
Inductive spath : ctl * kstate -> list nat -> ctl * kstate -> Prop :=
  | spath_refl x : spath x [] x
  | spath_step x y l z : step x y -> spath y l z -> spath x (tried x y ++ l) z.

(** The slots from [j] up to [n], round the table. *)
Definition round (j n : nat) : list nat :=
  if decide (j <= n)%nat then seq j (n - j) else seq j (NPROC - j) ++ seq 0 n.

(** The slot the scheduler is to try next. *)
Definition cursor (c : ctl) : nat :=
  match c with C_sched k => k | C_user i | C_window i _ | C_back i => S i end.

(** The slots [l] have been tried on the way from [j] to [k], not past [n]. *)
Definition on_the_way (j n k : nat) (l : list nat) : Prop :=
  (j <= k <= NPROC /\ (j <= n -> k <= n) /\ l = seq j (k - j))%nat \/
  (n < j /\ k <= n /\ l = seq j (NPROC - j) ++ seq 0 k)%nat.

Lemma way_advance j n k l : on_the_way j n k l -> (k < NPROC)%nat -> k <> n -> on_the_way j n (S k) (l ++ [k]).
Proof.
  intros [(Hk & Hn & ->)|(Hn & Hk & ->)] Hlt Hne; [left|right].
  - split_and!; [lia|lia|lia|]. replace (S k - j)%nat with (S (k - j)) by lia. rewrite seq_S. do 2 f_equal. lia.
  - split_and!; [lia|lia|]. by rewrite seq_S, app_assoc.
Qed.

Lemma way_prefix j n k l : on_the_way j n k l -> (n < NPROC)%nat -> l `prefix_of` round j n.
Proof.
  unfold round. intros [(Hk & Hn & ->)|(Hn & Hk & ->)] Hlt.
  - destruct (decide (j <= n)%nat) as [Hj|Hj].
    + exists (seq k (n - k)). replace (n - j)%nat with (k - j + (n - k))%nat by lia. rewrite seq_app. do 2 f_equal. lia.
    + exists (seq k (NPROC - k) ++ seq 0 n). rewrite app_assoc. f_equal.
      replace (NPROC - j)%nat with (k - j + (NPROC - k))%nat by lia. rewrite seq_app. do 2 f_equal. lia.
  - rewrite decide_False by lia. exists (seq k (n - k)). rewrite <- app_assoc. f_equal.
    replace n with (k + (n - k))%nat at 1 by lia. by rewrite seq_app.
Qed.

(** At [n] the round is complete. *)
Lemma way_end j n l : on_the_way j n n l -> (n < NPROC)%nat -> l = round j n.
Proof.
  unfold round. intros [(Hk & Hn & ->)|(Hn & Hk & ->)] Hlt; [by rewrite decide_True by lia|by rewrite decide_False by lia].
Qed.

Lemma way_next j n k l : on_the_way j n k l -> (k < NPROC)%nat -> (n < NPROC)%nat ->
  l ++ [k] `prefix_of` round j n ++ [n].
Proof.
  intros Hw Hk Hn. destruct (decide (k = n)) as [->|Hne].
  - by rewrite (way_end j n l Hw Hn).
  - apply prefix_app_r. apply (way_prefix j n (S k)); [|done]. by apply way_advance.
Qed.

Lemma cursor_ctl_of i r : cursor (ctl_of i r) = S i.
Proof. by destruct r. Qed.

Lemma step_way x y j n l : step x y -> (n < NPROC)%nat -> n ∉ tried x y ->
  on_the_way j n (cursor x.1) l -> on_the_way j n (cursor y.1) (l ++ tried x y).
Proof.
  intros Hstep Hn. destruct Hstep as [i m s Hw|i cause epc tval s r s' E|i k s s' E|i k s r s' E
    |c cause epc tval s s' [_ Hk] E|i s s' E|m s s' Hm E|m s s1 r s' Hm E1 E2|s s' E];
    rewrite ?tried_run; cbn [tried fst snd cursor]; rewrite ?cursor_ctl_of, ?app_nil_r; intros Hnot Hway; try done.
  - assert (tried (c, s) (c, on_hart hw_sret s') = []) as ->; [|by rewrite app_nil_r].
    destruct c as [| | |m]; cbn; try done. by rewrite decide_False by lia.
  - rewrite decide_True in * by done. apply way_advance; [done|done|set_solver].
  - apply way_advance; [done|done|set_solver].
  - destruct Hway as [(Hk & Hj & ->)|(Hj & Hk & ->)]; [|lia].
    right. split_and!; [lia|lia|]. by rewrite app_nil_r.
Qed.

(** Along a run in which slot [n] has not been tried, its process stays
    RUNNABLE, and the slots tried are those of the round. *)
Lemma spath_inv x l y : spath x l y -> forall j n l0, (n < NPROC)%nat -> n ∉ l ->
  sys_inv (Some n) x -> locks_inv x -> on_the_way j n (cursor x.1) l0 ->
  sys_inv (Some n) y /\ locks_inv y /\ on_the_way j n (cursor y.1) (l0 ++ l).
Proof.
  induction 1 as [x|x y l z Hs _ IH]; intros j n l0 Hn Hnot Hinv HL Hway; [by rewrite app_nil_r|].
  apply not_elem_of_app in Hnot as [Hn1 Hn2]. rewrite app_assoc. apply IH; [done|done| | |].
  - apply (step_inv (Some n) x y Hs); [|done]. by intros ? [= <-].
  - by apply (step_locks x y).
  - by apply step_way.
Qed.

(** C24: the scheduler is round-robin.  Take any run of the system from the
    scheduler at slot [j], with user code, system calls, interrupts, sleeps
    and switches back in between, that has not tried slot [n], whose process
    is RUNNABLE.  The process is still RUNNABLE, and the slots tried so far
    are, one after the other, those of the round from [j] on, past the end of
    the table and up to [n]: behind a process that ran the scheduler goes on
    with the next slot, and no slot gets a second turn before [n] has its own.
    At a slot the scheduler is never stuck: it switches to the process if it
    is RUNNABLE, which becomes RUNNING and the CPU's current process and is
    entered with its lock held, no other process being changed, and otherwise
    passes on without changing any; at the end of the table it starts again
    at slot 0; and it takes the CPU back from a process that has switched
    away. *)
Theorem scheduler_round_robin s0 j n c s l :
  on (calm None) s0 -> have None ∅ 0 s0 -> (j <= NPROC)%nat -> (n < NPROC)%nat ->
  p_state (the_proc n s0) = RUNNABLE ->
  spath (C_sched j, s0) l (c, s) -> n ∉ l ->
  p_state (the_proc n s) = RUNNABLE /\ l `prefix_of` round j n /\
  match c with
  | C_sched m =>
      if decide (m < NPROC)%nat then
        l ++ [m] `prefix_of` round j n ++ [n] /\
        exists s1, scheduler_try m s = Ok (bool_decide (p_state (the_proc m s) = RUNNABLE)) s1 /\
          if decide (p_state (the_proc m s) = RUNNABLE) then
            cproc s1 = Some m /\ holding (L_proc m) (k_lk s1) = true /\ p_state (the_proc m s1) = RUNNING /\
            forall i, i <> m -> the_proc i s1 = the_proc i s
          else k_procs s1 = k_procs s
      else exists s1, step (C_sched m, s) (C_sched 0, s1) /\ k_procs s1 = k_procs s
  | C_back i => exists s1, step (C_back i, s) (C_sched (S i), s1) /\ k_procs s1 = k_procs s
  | _ => True
  end.
Proof.
  intros Hs Hl0 Hj Hn Hr Hp Hnot.
  assert (sys_inv (Some n) (C_sched j, s0)) as Hinv.
  { destruct Hs as [Hcpu (Hc & Hl & Hall)]. split; [done|]. split; [done|]. split; [done|]. intros i Hi.
    split; [intros [= <-]; exact Hr|]. by apply Hall. }
  assert (on_the_way j n j []) as Hw0 by (left; split_and!; [lia|lia|done|by rewrite Nat.sub_diag]).
  destruct (spath_inv _ _ _ Hp j n [] Hn Hnot Hinv Hl0 Hw0) as (Hinv' & HL & Hway). cbn [fst app] in Hway.
  destruct (sys_inv_facts (Some n) c s Hinv') as (Hlen & _ & Hall).
  assert (p_state (the_proc n s) = RUNNABLE) as Hrn.
  { destruct (Hall n (the_proc n s)) as [[E _]|[_ [Hh _]]]; [apply list_lookup_lookup_total_lt; lia| |by apply Hh].
    pose proof (sys_inv_cold (Some n) c s Hinv') as Hcold. by apply Hcold in E. }
  split; [done|]. split; [by eapply way_prefix|]. destruct c as [i|i k|i|m]; [done|done| |].
  - destruct (scheduler_back_total s i HL) as (s1 & E & Ep). exists s1. split; [by apply step_back|done].
  - case_decide as Hm.
    + split; [by eapply way_next|]. destruct (scheduler_try_total s m HL) as (s1 & E & Ep). exists s1. split; [done|].
      pose proof (scheduler_try_locks m s _ s1 HL E) as H1. case_decide as Hrm; [|done].
      rewrite bool_decide_eq_true_2 in H1 by done. split_and!.
      * apply H1.
      * apply H1. set_solver.
      * unfold the_proc. rewrite Ep. by rewrite list_lookup_total_alter_eq by lia.
      * intros i Hi. unfold the_proc. rewrite Ep. by rewrite list_lookup_total_alter_ne.
    + exists (with_lk (set_hart intr_on (k_lk s)) s). split; [|done].
      assert (m = NPROC) as -> by (destruct Hway as [(? & _)|(? & ? & _)]; cbn [cursor] in *; lia).
      by apply step_head.
Qed.
End System.

(** * Witnesses *)

(** The scheduler with process 1 in [kwait], woken, and the others unused. *)
Definition sched_k : @kstate fifo_machine :=
  with_procs (zero_proc ::
              set_state RUNNABLE (set_context (mkContext (PC_sched (K_kwait 0) true) 0)
                (set_pid 1 zero_proc)) ::
              replicate 62 zero_proc)
    (with_lk (demo_lk None) (demo_k (mkVm ∅ KERNBASE) [])).

Lemma sched_calm : on (calm None) sched_k.
Proof.
  split; [unfold cpu_ok; vm_compute; lia|]. split; [reflexivity|]. split; [reflexivity|].
  intros j Hj. split; [done|]. destruct j as [|[|j]].
  - by vm_compute.
  - right. exists (K_kwait 0), true. split; [reflexivity|]. by exists (P_proc 1).
  - change (k_procs sched_k !!! S (S j)) with (replicate 62 zero_proc !!! j).
    rewrite lookup_total_replicate_2; [by vm_compute|]. unfold NPROC in Hj. lia.
Qed.

Lemma sched_unlocked : have None ∅ 0 sched_k.
Proof.
  split; [|split; [vm_compute; congruence|intros Hx; by vm_compute in Hx]| |reflexivity|reflexivity].
  - split; [vm_compute; split; congruence|done].
  - intros x. split; [|set_solver]. unfold holding, the_lock. destruct (l_locks (k_lk sched_k) !! x) as [sl|] eqn:E; [|done].
    apply elem_of_list_to_map_2, list_elem_of_fmap in E as (y & [= _ ->] & _). done.
Qed.

(** A run: the head of the loop, slot 0 skipped, process 1 resumed; it has no
    children, so its [wait] returns -1 to user code. *)
Definition sched_k1 : kstate := final (scheduler_head sched_k).
Definition sched_k2 : kstate := final (scheduler_try 0 sched_k1).
Definition sched_k3 : kstate := final (scheduler_try 1 sched_k2).
Definition sched_k4 : kstate := final (resume 1 sched_k3).

Lemma sched_run : rtc step (C_sched NPROC, sched_k) (C_user 1, sched_k4).
Proof.
  eapply rtc_l; [apply (step_head sched_k sched_k1); vm_compute; reflexivity|].
  eapply rtc_l; [apply (step_skip 0 sched_k1 sched_k2);
    [unfold NPROC; lia|vm_compute; reflexivity]|].
  apply rtc_once, (step_run 1 sched_k2 sched_k3 (U_ret SATP_SV39) sched_k4);
    [unfold NPROC; lia|vm_compute; reflexivity|vm_compute; reflexivity].
Qed.

Lemma process_table_invariant_witness :
  rtc step (C_sched NPROC, sched_k) (C_user 1, sched_k4) /\ cproc sched_k4 = Some 1%nat /\
  (forall x, holding x (k_lk sched_k4) = true <-> x ∈ (∅ : gset lockid)) /\
  cleared (the_proc 0 sched_k4).
Proof.
  split; [exact sched_run|].
  destruct (process_table_invariant sched_k _ sched_k4 sched_calm sched_unlocked sched_run)
    as (_ & Hc & Hl & _ & Hp).
  split; [exact Hc|]. split; [exact Hl|]. by apply (Hp 0%nat (the_proc 0 sched_k4)); vm_compute.
Defined.

(** Two processes in [kwait], woken, the first of them killed: from the end of
    the table the scheduler starts again at slot 0, whose process exits, and
    goes on to slot 1. *)
Definition ring_proc (i : nat) (k : Z) : proc :=
  set_state RUNNABLE (set_killed k (set_context (mkContext (PC_sched (K_kwait 0) true) 0)
    (set_pid (Z.of_nat i + 1) zero_proc))).
Definition ring_k : @kstate fifo_machine :=
  with_procs (ring_proc 0 1 :: ring_proc 1 0 :: replicate 62 zero_proc) sched_k.

Lemma ring_calm : on (calm None) ring_k.
Proof.
  split; [unfold cpu_ok; vm_compute; lia|]. split; [reflexivity|]. split; [reflexivity|].
  intros j Hj. split; [done|]. destruct j as [|[|j]].
  - right. exists (K_kwait 0), true. split; [reflexivity|]. by exists (P_proc 0).
  - right. exists (K_kwait 0), true. split; [reflexivity|]. by exists (P_proc 1).
  - change (k_procs ring_k !!! S (S j)) with (replicate 62 zero_proc !!! j).
    rewrite lookup_total_replicate_2; [by vm_compute|]. unfold NPROC in Hj. lia.
Qed.

Definition ring_k1 : kstate := final (scheduler_head ring_k).
Definition ring_k2 : kstate := final (scheduler_try 0 ring_k1).
Definition ring_k3 : kstate := final (resume 0 ring_k2).
Definition ring_k4 : kstate := final (scheduler_back 0 ring_k3).

Lemma ring_run : spath (C_sched NPROC, ring_k) [0%nat] (C_sched 1, ring_k4).
Proof.
  apply (spath_step (C_sched NPROC, ring_k) (C_sched 0, ring_k1) [0%nat]); [apply step_head; vm_compute; reflexivity|].
  apply (spath_step (C_sched 0, ring_k1) (C_back 0, ring_k3) []).
  - apply (step_run 0 ring_k1 ring_k2 U_gone ring_k3); [unfold NPROC; lia|vm_compute; reflexivity|vm_compute; reflexivity].
  - apply (spath_step (C_back 0, ring_k3) (C_sched 1, ring_k4) []); [apply step_back; vm_compute; reflexivity|apply spath_refl].
Qed.

Lemma scheduler_round_robin_witness :
  spath (C_sched NPROC, ring_k) [0%nat] (C_sched 1, ring_k4) /\ round NPROC 1 = [0%nat] /\
  exists s1, scheduler_try 1 ring_k4 = Ok true s1 /\ cproc s1 = Some 1%nat /\
    p_state (the_proc 1 s1) = RUNNING.
Proof.
  split; [exact ring_run|]. split; [reflexivity|].
  destruct (scheduler_round_robin ring_k NPROC 1 (C_sched 1) ring_k4 [0%nat] ring_calm sched_unlocked)
    as (Hr & _ & Hm); [lia|unfold NPROC; lia|reflexivity|exact ring_run|set_solver|].
  rewrite decide_True in Hm by (unfold NPROC; lia). destruct Hm as (_ & s1 & E & Hm).
  rewrite bool_decide_eq_true_2 in E by exact Hr. rewrite decide_True in Hm by exact Hr.
  destruct Hm as (Hc & _ & Hs & _). exists s1. split; [exact E|]. split; [exact Hc|exact Hs].
Defined.
