(* ===== verification/Ulib.v ===== *)
(** os-kernel/user: the user library (ulib.c, printf.c) and the programs that
    are embedded in the kernel image (sh.c, hi.c, spin.c, badecall.c,
    bufstorm.c).

    The system calls are an interface ([Sys]): a program is a computation over
    whatever world implements them.  [SysLaws] states what the programs rely
    on; the kernel theorems behind each law are named there. *)

From stdpp Require Import base gmap list strings numbers.
From Stdlib Require Import ZArith Lia.
From S2P Require Import Prelude Mem KString Vm Printf.

(** * System calls as user code sees them (usys.pl) *)

Class Sys (W : Type) : Type := {
  (** [read(fd, buf, n)]: the return value and the bytes stored at [buf] *)
  u_read : Z -> Z -> M W (Z * list Z);
  (** [write(fd, buf, n)] with the bytes of the buffer *)
  u_write : Z -> list Z -> M W Z;
  u_fork : M W Z;
  (** [exec(path, argv)]: [None] when the image has been replaced *)
  u_exec : list Z -> M W (option Z);
  u_wait : M W Z;
  u_getpid : M W Z;
  (** a raw [ecall] with a number and one argument *)
  u_ecall : Z -> Z -> M W Z;
  u_open : list Z -> Z -> M W Z;
  u_fstat : Z -> M W (Z * list Z);
  u_close : Z -> M W Z;
  u_sbrk : Z -> Z -> M W Z
}.

(** * ulib.c: strings and memory *)

(** [strcpy]; [None] when no NUL comes within [fuel] bytes. *)
Fixpoint strcpy_loop (fuel : nat) (s : Z) (t : csrc) (m : mem) : option mem :=
  match fuel with
  | O => None
  | S f =>
      let c := src_read m t in
      let m := store8 m s c in
      if negb (c =? 0) then strcpy_loop f (s + 1) (src_add t 1) m else Some m
  end.

Definition strcpy (fuel : nat) (s : Z) (t : csrc) (m : mem) : option (Z * mem) :=
  m' ← strcpy_loop fuel s t m; Some (s, m').

Fixpoint strcmp_loop (fuel : nat) (p q : Z -> Z) (i : Z) : option Z :=
  match fuel with
  | O => None
  | S f =>
      if negb (p i =? 0) && (p i =? q i) then strcmp_loop f p q (i + 1)
      else Some (u8 (p i) - u8 (q i))
  end.

Definition strcmp (fuel : nat) (p q : Z -> Z) : option Z := strcmp_loop fuel p q 0.

Fixpoint ustrlen_loop (fuel : nat) (s : Z -> Z) (n : Z) : option Z :=
  match fuel with
  | O => None
  | S f => if negb (s n =? 0) then ustrlen_loop f s (n + 1) else Some (u32 n)
  end.

Definition ustrlen (fuel : nat) (s : Z -> Z) : option Z := ustrlen_loop fuel s 0.

Definition umemset (dst c n : Z) (m : mem) : Z * mem :=
  (dst, memset_loop (Z.to_nat n) dst c 0 m).

(** The offset of the match, if there is one. *)
Fixpoint strchr_loop (fuel : nat) (s : Z -> Z) (c i : Z) : option (option Z) :=
  match fuel with
  | O => None
  | S f =>
      if negb (s i =? 0) then
        if s i =? u8 c then Some (Some i) else strchr_loop f s c (i + 1)
      else Some None
  end.

Definition strchr (fuel : nat) (s : Z -> Z) (c : Z) : option (option Z) := strchr_loop fuel s c 0.

(** [n] is an [int]: it wraps. *)
Fixpoint atoi_loop (fuel : nat) (s : Z -> Z) (i n : Z) : option Z :=
  match fuel with
  | O => None
  | S f =>
      if (48 <=? s i) && (s i <=? 57) then atoi_loop f s (i + 1) (s32 (n * 10 + s i - 48))
      else Some n
  end.

Definition atoi (fuel : nat) (s : Z -> Z) : option Z := atoi_loop fuel s 0 0.

(** [src > dst]; a source in another object counts as the case [dst]. *)
Definition umemmove (dst : Z) (src : csrc) (n : Z) (m : mem) : Z * mem :=
  match src with
  | Here a =>
      if dst <? a then (dst, copy_fwd (Z.to_nat n) dst src m)
      else (dst, copy_bwd (Z.to_nat n) (dst + n) (src_add src n) m)
  | There _ _ => (dst, copy_bwd (Z.to_nat n) (dst + n) (src_add src n) m)
  end.

Definition umemcmp (v1 v2 : Z -> Z) (n : Z) : Z := memcmp_loop (Z.to_nat n) v1 v2 0.

Definition umemcpy (dst : Z) (src : csrc) (n : Z) (m : mem) : Z * mem := umemmove dst src n m.

Definition O_RDONLY : Z := 0.
Definition SBRK_EAGER : Z := 1.
Definition SBRK_LAZY : Z := 2.

Section Ulib.
Context `{Sys W}.

(** [start]: the value of [main] is the status of [exit]. *)
Definition ustart (main : M W Z) : M W Z := r ← main; mret r.

Fixpoint gets_loop (fuel : nat) (buf : mem) (i max : Z) : M W (mem * Z) :=
  if negb (i + 1 <? max) then mret (buf, i) else
  match fuel with
  | O => out_of_fuel
  | S f =>
      '(cc, d) ← u_read 0 1;
      if cc <? 1 then mret (buf, i) else
      let c := default 0 (head d) in
      let buf := store8 buf i c in
      if (c =? 10) || (c =? 13) then mret (buf, i + 1) else
      gets_loop f buf (i + 1) max
  end.

Definition gets (buf : mem) (max : Z) : M W mem :=
  '(buf, i) ← gets_loop (Z.to_nat max) buf 0 max;
  mret (store8 buf i 0).

Definition ustat (n : list Z) : M W (Z * list Z) :=
  fd ← u_open n O_RDONLY;
  if fd <? 0 then mret (-1, []) else
  '(r, st) ← u_fstat fd;
  u_close fd;;
  mret (r, st).

Definition sbrk (n : Z) : M W Z := u_sbrk n SBRK_EAGER.
Definition sbrklazy (n : Z) : M W Z := u_sbrk n SBRK_LAZY.

(** * printf.c *)

Definition udigits : list Z := bytes "0123456789ABCDEF".

Definition putc (fd c : Z) : M W unit := u_write fd [u8 c];; mret tt.

(** [buf[i++] = c] on the 20-byte array of [printint]. *)
Definition ubuf_push (buf : list Z) (c : Z) : M W (list Z) :=
  if (20 <=? length buf)%nat then panic "printint: buf" else mret (buf ++ [c]).

Fixpoint udigit_loop (fuel : nat) (x base : Z) (buf : list Z) : M W (list Z) :=
  match fuel with
  | O => out_of_fuel
  | S f =>
      buf ← ubuf_push buf (udigits !!! Z.to_nat (x mod base));
      let x := x / base in
      if x =? 0 then mret buf else udigit_loop f x base buf
  end.

Definition uprintint (fd xx base : Z) (sgn : bool) : M W unit :=
  let neg := sgn && (xx <? 0) in
  let x := if neg then u64 (- xx) else u64 xx in
  buf ← udigit_loop 64 x base [];
  buf ← (if neg then ubuf_push buf 45 else mret buf);
  for_each (rev buf) (putc fd).

Fixpoint uprintptr_loop (n : nat) (fd x : Z) : M W unit :=
  match n with
  | O => mret tt
  | S n' => putc fd (udigits !!! Z.to_nat (Z.shiftr x 60));; uprintptr_loop n' fd (u64 (Z.shiftl x 4))
  end.

Definition uprintptr (fd x : Z) : M W unit :=
  putc fd 48;; putc fd 120;; uprintptr_loop 16 fd x.

(** [vprintf], [fmt] being the rest of the format at the loop head. *)
Fixpoint vprintf (fd : Z) (fmt : list Z) (ap : list varg) : M W unit :=
  match fmt with
  | [] => mret tt
  | c0 :: fmt =>
      if negb (c0 =? 37) then putc fd c0;; vprintf fd fmt ap else
      match fmt with
      | [] => mret tt
      | c0 :: fmt =>
          if c0 =? 100 then
            '(x, ap) ← va_arg32 s32 ap; uprintint fd x 10 true;; vprintf fd fmt ap
          else if c0 =? 108 then
            match fmt with
            | c1 :: fmt' =>
                if c1 =? 100 then
                  '(x, ap) ← va_arg64 u64 ap; uprintint fd (s64 x) 10 true;; vprintf fd fmt' ap
                else if c1 =? 117 then
                  '(x, ap) ← va_arg64 u64 ap; uprintint fd (s64 x) 10 false;; vprintf fd fmt' ap
                else if c1 =? 120 then
                  '(x, ap) ← va_arg64 u64 ap; uprintint fd (s64 x) 16 false;; vprintf fd fmt' ap
                else if c1 =? 108 then
                  match fmt' with
                  | c2 :: fmt'' =>
                      if c2 =? 100 then
                        '(x, ap) ← va_arg64 u64 ap; uprintint fd (s64 x) 10 true;; vprintf fd fmt'' ap
                      else if c2 =? 117 then
                        '(x, ap) ← va_arg64 u64 ap; uprintint fd (s64 x) 10 false;; vprintf fd fmt'' ap
                      else if c2 =? 120 then
                        '(x, ap) ← va_arg64 u64 ap; uprintint fd (s64 x) 16 false;; vprintf fd fmt'' ap
                      else putc fd 37;; putc fd c0;; vprintf fd fmt ap
                  | [] => putc fd 37;; putc fd c0;; vprintf fd fmt ap
                  end
                else putc fd 37;; putc fd c0;; vprintf fd fmt ap
            | [] => putc fd 37;; putc fd c0;; vprintf fd fmt ap
            end
          else if c0 =? 117 then
            '(x, ap) ← va_arg32 u32 ap; uprintint fd x 10 false;; vprintf fd fmt ap
          else if c0 =? 120 then
            '(x, ap) ← va_arg32 u32 ap; uprintint fd x 16 false;; vprintf fd fmt ap
          else if c0 =? 112 then
            '(x, ap) ← va_arg64 u64 ap; uprintptr fd x;; vprintf fd fmt ap
          else if c0 =? 99 then
            '(x, ap) ← va_arg32 u32 ap; putc fd x;; vprintf fd fmt ap
          else if c0 =? 115 then
            '(s, ap) ← va_argstr ap;
            for_each (default (bytes "(null)") s) (putc fd);; vprintf fd fmt ap
          else if c0 =? 37 then
            putc fd 37;; vprintf fd fmt ap
          else
            putc fd 37;; putc fd c0;; vprintf fd fmt ap
      end
  end.

Definition fprintf (fd : Z) (fmt : string) (ap : list varg) : M W unit := vprintf fd (bytes fmt) ap.
Definition uprintf (fmt : string) (ap : list varg) : M W unit := vprintf 1 (bytes fmt) ap.

(** * The programs *)

(** The bytes of the C string at the start of an array of [n] bytes. *)
Fixpoint cbytes (n : nat) (buf : mem) (i : Z) : list Z :=
  match n with
  | O => []
  | S n' => if load8 buf i =? 0 then [] else load8 buf i :: cbytes n' buf (i + 1)
  end.

(** sh.c: how a round of the shell's loop ends; the child of [fork] either
    becomes another program or exits. *)
Inductive sh_end : Type :=
  | Sh_next (buf : mem)      (* the loop goes on *)
  | Sh_exec                  (* the child runs the command *)
  | Sh_exit (status : Z).    (* the child failed to *)

Definition sh_round (buf : mem) : M W sh_end :=
  uprintf "sh> " [];;
  buf ← gets buf 64;
  if load8 buf 0 =? 0 then mret (Sh_next buf) else
  pid ← u_fork;
  if pid <? 0 then
    uprintf "fork failed
" [];;
    mret (Sh_next buf)
  else if pid =? 0 then
    r ← u_exec (cbytes 64 buf 0);
    match r with
    | None => mret Sh_exec
    | Some _ =>
        uprintf "exec %s failed
" [AStr (Some (cbytes 64 buf 0))];;
        mret (Sh_exit 1)
    end
  else
    u_wait;;
    mret (Sh_next buf).

(** [n] rounds of [while (1)]. *)
Fixpoint sh_rounds (n : nat) (buf : mem) : M W sh_end :=
  match n with
  | O => mret (Sh_next buf)
  | S n' =>
      r ← sh_round buf;
      match r with
      | Sh_next buf => sh_rounds n' buf
      | r => mret r
      end
  end.

(** hi.c *)
Definition hi_main : M W Z :=
  pid ← u_getpid;
  uprintf "hi: user program running, pid=%d
" [A32 pid];;
  mret 0.

(** spin.c: [n] rounds of the outer loop (the inner one only delays). *)
Definition spin_rounds (n : nat) : M W unit :=
  for_each (seq 0 n) (fun i => uprintf "spin %d
" [A32 (s32 (Z.of_nat i))]).

(** badecall.c *)
Definition ecall_raw (num a0 : Z) : M W Z := r ← u_ecall num a0; mret (s32 r).

Fixpoint bad_count (l : list Z) (bad : Z) : M W Z :=
  match l with
  | [] => mret bad
  | num :: l' =>
      r ← ecall_raw num 0;
      bad_count l' (if negb (r =? -1) then bad + 1 else bad)
  end.

Definition badecall_main : M W Z :=
  bad ← bad_count (zseq 90 10) 0;
  if bad =? 0 then
    uprintf "TEST-1 PASS: unknown syscalls all return -1
" [];;
    mret 0
  else
    uprintf "TEST-1 FAIL: %d unknown syscalls did not return -1
" [A32 bad];;
    mret 1.

(** bufstorm.c *)
Definition ROUND : nat := 4.

Fixpoint bufstorm_loop (n : nat) (total lines : Z) : M W (Z * Z) :=
  match n with
  | O => mret (total, lines)
  | S n' =>
      '(k, d) ← u_read 0 256;
      if k <=? 0 then mret (total, lines) else
      u_write 1 d;;
      bufstorm_loop n' (total + k) (lines + 1)
  end.

Definition bufstorm_main : M W Z :=
  '(total, lines) ← bufstorm_loop ROUND 0 0;
  uprintf "BUFSTORM lines=%d bytes=%d
" [A32 lines; A32 total];;
  if lines =? Z.of_nat ROUND then mret 0 else mret 1.
End Ulib.

(** * What the programs rely on *)

(** [u_in] is the input of the console still to come, [u_out] what has been
    written, with the descriptor.  A read returns a non-empty prefix of the
    input, as [consoleread] does ([ConsoleSpec]), or fails; a write of bytes
    appends them ([Uart]); unknown calls return -1 ([SyscallSpec]). *)
Class SysLaws W `{Sys W} : Type := {
  u_in : W -> list Z;
  u_out : W -> list (Z * Z);
  read_law w n : 0 < n -> exists k d w', u_read 0 n w = Ok (k, d) w' /\ u_out w' = u_out w /\
    (k = Z.of_nat (length d) /\ 0 < k <= n /\ u_in w = d ++ u_in w' /\ Forall (fun c => 0 <= c < 256) d
     \/ k <= 0 /\ u_in w' = u_in w /\ u_in w = []);
  write_law fd d w : exists w', u_write fd d w = Ok (Z.of_nat (length d)) w' /\
    u_out w' = u_out w ++ ((fun c => (fd, c)) <$> d) /\ u_in w' = u_in w;
  ecall_law num a w : 22 < num -> exists w', u_ecall num a w = Ok (u64 (-1)) w' /\
    u_out w' = u_out w /\ u_in w' = u_in w;
  fork_law w : exists pid w', u_fork w = Ok pid w';
  wait_law w : exists r w', u_wait w = Ok r w';
  exec_law path w : exists r w', u_exec path w = Ok r w'
}.

(** * The text of a user format *)

Definition udigit (d : Z) : Z := udigits !!! Z.to_nat d.

Definition unum_text (neg : bool) (x base : Z) : list Z :=
  (if neg then [45] else []) ++ (udigit <$> rev (ldigits 64 x base)).
Definition uint_text (x : Z) : list Z := unum_text (x <? 0) (Z.abs x) 10.
Definition uptr_text (x : Z) : list Z :=
  [48; 120] ++ ((fun i => udigit (x / 16 ^ (15 - i) mod 16)) <$> zseq 0 16).

(** The directive [l], [ll] or none before [d], [u], [x]; the others. *)
Definition udirective (fmt : list Z) (ap : list varg) : option (list Z * list Z * list varg) :=
  let num64 c fmt := '(t, ap) ← (
      if c =? 100 then arg64 (fun x => uint_text (s64 x)) ap
      else if c =? 117 then arg64 (fun x => unum_text false (u64 x) 10) ap
      else arg64 (fun x => unum_text false (u64 x) 16) ap); Some (t, fmt, ap) in
  let is_num c := (c =? 100) || (c =? 117) || (c =? 120) in
  match fmt with
  | [] => Some ([], [], ap)
  | c :: fmt =>
      let with_arg r := '(t, ap) ← r; Some (t, fmt, ap) in
      if c =? 100 then with_arg (arg32 (fun x => uint_text (s32 x)) ap)
      else if c =? 108 then
        match fmt with
        | d :: fmt' =>
            if is_num d then num64 d fmt'
            else if d =? 108 then
              match fmt' with
              | e :: fmt'' => if is_num e then num64 e fmt'' else Some ([37; c], fmt, ap)
              | [] => Some ([37; c], fmt, ap)
              end
            else Some ([37; c], fmt, ap)
        | [] => Some ([37; c], fmt, ap)
        end
      else if c =? 117 then with_arg (arg32 (fun x => unum_text false (u32 x) 10) ap)
      else if c =? 120 then with_arg (arg32 (fun x => unum_text false (u32 x) 16) ap)
      else if c =? 112 then with_arg (arg64 (fun x => uptr_text (u64 x)) ap)
      else if c =? 99 then with_arg (arg32 (fun x => [u32 x]) ap)
      else if c =? 115 then with_arg (argstr_text ap)
      else if c =? 37 then Some ([37], fmt, ap)
      else Some ([37; c], fmt, ap)
  end.

Fixpoint ufmt_text (fuel : nat) (fmt : list Z) (ap : list varg) : option (list Z) :=
  match fuel, fmt with
  | _, [] => Some []
  | O, _ => None
  | S f, c :: fmt =>
      if negb (c =? 37) then t ← ufmt_text f fmt ap; Some (c :: t) else
      '(t, fmt, ap) ← udirective fmt ap; t' ← ufmt_text f fmt ap; Some (t ++ t')
  end.

Definition utext (fmt : list Z) (ap : list varg) : option (list Z) := ufmt_text (length fmt) fmt ap.

Section Printing.
Context `{Sys W}.
Implicit Types w : W.

Lemma udigit_loop_ok fuel : forall x base buf w,
  2 <= base -> 0 <= x < base ^ Z.of_nat fuel -> (0 < fuel)%nat ->
  (length buf + length (ldigits fuel x base) <= 20)%nat ->
  udigit_loop fuel x base buf w = Ok (buf ++ (udigit <$> ldigits fuel x base)) w.
Proof.
  induction fuel as [|f IH]; intros x base buf w Hb Hx Hf Hl; [lia|].
  cbn [udigit_loop ldigits length] in *. unfold ubuf_push.
  destruct (Nat.leb_spec 20 (length buf)) as [Hge|Hlt]; [lia|]. mstep.
  rewrite Nat2Z.inj_succ, Z.pow_succ_r in Hx by lia.
  destruct (Z.eqb_spec (x / base) 0) as [E|E]; [done|].
  assert (0 <= x / base < base ^ Z.of_nat f) as Hq.
  { split; [apply Z.div_pos; lia|]. apply Z.div_lt_upper_bound; lia. }
  rewrite IH; [by rewrite <- app_assoc|done|done| |rewrite length_app; simpl; lia].
  destruct f; [change (base ^ Z.of_nat 0) with 1 in *; lia|lia].
Qed.

(** 20 bytes are enough: 20 digits without a sign, 19 with one. *)
Lemma uprintint_text fd xx base sgn w :
  10 <= base -> - 2 ^ 63 <= xx < 2 ^ 63 ->
  let neg := sgn && (xx <? 0) in
  uprintint fd xx base sgn w =
  for_each (unum_text neg (u64 (if neg then - xx else xx)) base) (putc fd) w.
Proof.
  intros Hb Hxx neg. unfold uprintint. fold neg.
  replace (if neg then u64 (- xx) else u64 xx) with (u64 (if neg then - xx else xx))
    by (by destruct neg).
  set (x := u64 _). pose proof (u64_range (if neg then - xx else xx)) as Hx. fold x in Hx.
  destruct (ldigits_64 x base Hb Hx) as [Hlt Hlen].
  assert (neg = true -> (length (ldigits 64 x base) <= 19)%nat) as Hneg.
  { intros En. apply (ldigits_length 64 19); [lia|lia|]. split; [lia|].
    assert (x = - xx) as ->.
    { unfold x. rewrite En. apply u64_small. unfold neg in En. destruct sgn; [|done].
      cbn in En. apply Z.ltb_lt in En. lia. }
    assert (10 ^ 19 <= base ^ 19) by (apply Z.pow_le_mono_l; lia).
    assert (2 ^ 63 < 10 ^ 19) by done. change (Z.of_nat 19) with 19. lia. }
  assert (udigit_loop 64 x base [] w = Ok (udigit <$> ldigits 64 x base) w) as E.
  { rewrite udigit_loop_ok; [done|lia| |lia|exact Hlen]. split; [apply Hx|exact Hlt]. }
  mrun E. clear E.
  unfold unum_text. set (l := ldigits 64 x base) in *. clearbody l. destruct neg; cbn [app].
  - unfold ubuf_push. rewrite length_fmap. specialize (Hneg eq_refl).
    destruct (Nat.leb_spec 20 (length l)); [lia|]. mstep.
    by rewrite rev_app_distr, <- map_rev.
  - mstep. by rewrite <- map_rev.
Qed.

Lemma uprintint_signed fd x w : - 2 ^ 63 <= x < 2 ^ 63 ->
  uprintint fd x 10 true w = for_each (uint_text x) (putc fd) w.
Proof.
  intros Hx. rewrite uprintint_text by lia. unfold uint_text. cbn [andb].
  rewrite u64_small by (destruct (Z.ltb_spec x 0); lia).
  replace (if x <? 0 then - x else x) with (Z.abs x); [done|]. destruct (Z.ltb_spec x 0); lia.
Qed.

Lemma uprintint_unsigned fd x base w : 10 <= base -> - 2 ^ 63 <= x < 2 ^ 63 ->
  uprintint fd x base false w = for_each (unum_text false (u64 x) base) (putc fd) w.
Proof. intros Hb Hx. by rewrite uprintint_text by lia. Qed.

Lemma uprintptr_loop_text n : forall fd x i w,
  0 <= x -> 0 <= i -> i + Z.of_nat n <= 16 ->
  uprintptr_loop n fd (u64 (x * 16 ^ i)) w =
  for_each ((fun i => udigit (x / 16 ^ (15 - i) mod 16)) <$> zseq i n) (putc fd) w.
Proof.
  induction n as [|n IH]; intros fd x i w Hx Hi Hn; [done|].
  rewrite zseq_cons. cbn [uprintptr_loop fmap list_fmap for_each].
  rewrite printptr_digit by lia. unfold mbind, M_bind.
  destruct (putc fd _ w) as [[] w'| |]; [|done|done].
  rewrite <- (IH fd x (i + 1)) by lia. f_equal. rewrite Z.pow_add_r by lia.
  rewrite Z.shiftl_mul_pow2 by lia. unfold u64. rewrite Zmult_mod_idemp_l. f_equal. lia.
Qed.

Lemma uprintptr_text fd x w : 0 <= x < 2 ^ 64 -> uprintptr fd x w = for_each (uptr_text x) (putc fd) w.
Proof.
  intros Hx. unfold uprintptr, uptr_text. cbn [app for_each].
  unfold mbind, M_bind. destruct (putc fd 48 w) as [[] w1| |]; [|done|done].
  destruct (putc fd 120 w1) as [[] w2| |]; [|done|done].
  rewrite <- (uprintptr_loop_text 16 fd x 0) by lia. by rewrite Z.mul_1_r, u64_small.
Qed.

Lemma s64_of_u64 x : s64 (u64 x) = s64 x.
Proof. unfold s64. by rewrite (u64_small (u64 x) (u64_range x)). Qed.

Lemma u64_of_s64 x : u64 (s64 x) = u64 x.
Proof. by rewrite <- s64_of_u64, s64_u64. Qed.

Lemma vprintf_directive fd fmt ap t fmt' ap' w :
  udirective fmt ap = Some (t, fmt', ap') ->
  vprintf fd (37 :: fmt) ap w = (for_each t (putc fd);; vprintf fd fmt' ap') w.
Proof.
  intros Hd. cbn [vprintf]. change (negb (37 =? 37)) with false. cbv iota.
  destruct fmt as [|c fmt]; cbn [udirective] in Hd; [by injection Hd as <- <- <-|].
  cbv zeta in Hd.
  repeat (match type of Hd with
    | context [?x =? ?y] => destruct (Z.eqb_spec x y); subst; try done
    | context [match ?f with [] => _ | _ :: _ => _ end] => is_var f; destruct f as [|? f]
    end; cbn [orb] in Hd).
  all: try (destruct ap as [|[x|x|x] ap]; try discriminate Hd).
  all: cbn [arg32 arg64 argstr_text mbind option_bind] in Hd; try discriminate Hd.
  all: injection Hd as <- <- <-.
  all: unfold va_arg32, va_arg64, va_argstr; mstep; try apply emit_1; try apply emit_2; try done.
  all: apply seq_ext.
  all: try (pose proof (s32_range x); pose proof (u32_range x)); pose proof (s64_range (u64 x)).
  all: rewrite ?s64_of_u64 in *.
  all: try (apply uprintint_signed; lia).
  all: try (rewrite uprintint_unsigned by lia; by rewrite ?u64_of_s64, ?(u64_small (u32 _)) by lia).
  all: try apply uprintptr_text, u64_range.
Qed.

Lemma vprintf_ufmt_text fuel : forall fd fmt ap t w,
  ufmt_text fuel fmt ap = Some t -> vprintf fd fmt ap w = for_each t (putc fd) w.
Proof.
  induction fuel as [|f IH]; intros fd [|c fmt] ap t w Ht; try (by injection Ht as <-); [done|].
  cbn [ufmt_text] in Ht. destruct (Z.eqb_spec c 37) as [->|Hc]; cbn [negb] in Ht.
  - destruct (udirective fmt ap) as [[[t1 fmt'] ap']|] eqn:Ed; [|done].
    cbn [mbind option_bind] in Ht. destruct (ufmt_text f fmt' ap') as [t2|] eqn:Et; [|done].
    injection Ht as <-. rewrite (vprintf_directive fd fmt ap t1 fmt' ap' w Ed).
    rewrite for_each_app. unfold mbind, M_bind. destruct (for_each t1 (putc fd) w); [|done|done].
    by apply IH.
  - destruct (ufmt_text f fmt ap) as [t2|] eqn:Et; [|done]. injection Ht as <-.
    cbn [vprintf for_each]. destruct (Z.eqb_spec c 37); [done|]. cbn [negb].
    unfold mbind, M_bind. destruct (putc fd c w); [|done|done]. by apply IH.
Qed.
End Printing.

(** * Correctness against the interface *)

Section Laws.
Context `{SysLaws W}.
Implicit Types w : W.

(** [w'] is [w] after [t] has been written to [fd]. *)
Definition printed (fd : Z) (t : list Z) (w w' : W) : Prop :=
  u_out w' = u_out w ++ ((fun c => (fd, u8 c)) <$> t) /\ u_in w' = u_in w.

Lemma printed_nil fd w : printed fd [] w w.
Proof. split; [by rewrite app_nil_r|done]. Qed.
Lemma printed_app fd t t' w w1 w2 : printed fd t w w1 -> printed fd t' w1 w2 -> printed fd (t ++ t') w w2.
Proof.
  intros [E1 E2] [E3 E4]. split; [|congruence]. by rewrite E3, E1, fmap_app, app_assoc.
Qed.

Lemma putc_ok fd c w : exists w', putc fd c w = Ok tt w' /\ printed fd [c] w w'.
Proof.
  destruct (write_law fd [u8 c] w) as (w' & E & Ho & Hi). exists w'. unfold putc. mrun E. by split.
Qed.

Lemma uputs_ok fd t : forall w, exists w', for_each t (putc fd) w = Ok tt w' /\ printed fd t w w'.
Proof.
  induction t as [|c t IH]; intros w; [exists w; split; [done|apply printed_nil]|].
  destruct (putc_ok fd c w) as (w1 & E1 & P1). destruct (IH w1) as (w2 & E2 & P2).
  exists w2. cbn [for_each]. mrun E1. split; [done|]. by apply (printed_app fd [c] t w w1).
Qed.

Lemma vprintf_ok fd fmt ap t w : utext fmt ap = Some t ->
  exists w', vprintf fd fmt ap w = Ok tt w' /\ printed fd t w w'.
Proof. intros Ht. rewrite (vprintf_ufmt_text _ fd fmt ap t w Ht). apply uputs_ok. Qed.

(** The user [vprintf] writes exactly the text of its format: literal
    characters, [%d %u %x] with the optional [l] or [ll], [%p %c %s %%], an
    unknown sequence verbatim, with no byte lost or reordered and the 20-byte
    digit array of [printint] never overrun, for every format whose arguments
    fit. *)
Theorem vprintf_correct fd fmt ap t w :
  utext fmt ap = Some t ->
  exists w', vprintf fd fmt ap w = Ok tt w' /\
    u_out w' = u_out w ++ ((fun c => (fd, u8 c)) <$> t) /\ u_in w' = u_in w.
Proof. apply vprintf_ok. Qed.

(** ** gets *)

Definition eol (c : Z) : bool := (c =? 10) || (c =? 13).

(** The part of the input that [gets] takes, with room for [n] bytes. *)
Fixpoint line (n : nat) (l : list Z) : list Z :=
  match n, l with
  | S n', c :: l' => c :: if eol c then [] else line n' l'
  | _, _ => []
  end.

Lemma line_length n l : (length (line n l) <= n)%nat.
Proof.
  revert l. induction n as [|n IH]; intros [|c l]; cbn; try lia. destruct (eol c); cbn; [lia|].
  specialize (IH l). lia.
Qed.

Lemma gets_loop_ok f : forall buf i max w,
  0 <= i -> max <= i + Z.of_nat f ->
  let l := line (Z.to_nat (max - 1 - i)) (u_in w) in
  exists buf' w', gets_loop f buf i max w = Ok (buf', i + Z.of_nat (length l)) w' /\
    u_in w = l ++ u_in w' /\ u_out w' = u_out w /\
    forall j, load8 buf' j =
      if decide (i <= j < i + Z.of_nat (length l)) then u8 (l !!! Z.to_nat (j - i)) else load8 buf j.
Proof.
  induction f as [|f IH]; intros buf i max w Hi Hm l; cbn [gets_loop].
  { destruct (Z.ltb_spec (i + 1) max); [lia|]. cbn [negb].
    assert (l = []) as -> by (unfold l; replace (Z.to_nat _) with 0%nat by lia; done).
    exists buf, w. split_and!; [by rewrite Z.add_0_r|done|done|].
    intros j. rewrite decide_False; [done|]. cbn. lia. }
  destruct (Z.ltb_spec (i + 1) max) as [Hlt|Hge]; cbn [negb].
  2: { assert (l = []) as -> by (unfold l; replace (Z.to_nat _) with 0%nat by lia; done).
       exists buf, w. split_and!; [by rewrite Z.add_0_r|done|done|].
       intros j. rewrite decide_False; [done|]. cbn. lia. }
  destruct (read_law w 1 ltac:(lia)) as (k & d & w1 & E & Ho & Hd). mrun E.
  destruct Hd as [(-> & Hk & Hin & Hb)|(Hk & Hi1 & Hnil)].
  2: { destruct (Z.ltb_spec k 1); [|lia].
       assert (l = []) as -> by (unfold l; rewrite Hnil; by destruct (Z.to_nat _)).
       exists buf, w1. split_and!; [by rewrite Z.add_0_r|by rewrite Hi1|done|].
       intros j. rewrite decide_False; [done|]. cbn. lia. }
  destruct d as [|c [|? ?]]; cbn in Hk; try lia. change (default 0 (head [c])) with c. cbn [length].
  change (Z.of_nat 1 <? 1) with false. cbv iota. apply Forall_cons_1 in Hb as [Hc _].
  cbn [app] in Hin. unfold l. rewrite Hin.
  replace (Z.to_nat (max - 1 - i)) with (S (Z.to_nat (max - 1 - (i + 1)))) by lia. cbn [line].
  change ((c =? 10) || (c =? 13)) with (eol c). destruct (eol c) eqn:Ec.
  - exists (store8 buf i c), w1. cbn [length app]. split_and!; [done|done|done|].
    intros j. destruct (decide (j = i)) as [->|Hne].
    + rewrite load8_store8_eq, decide_True by lia. by rewrite Z.sub_diag.
    + rewrite load8_store8_ne by done. rewrite decide_False by lia. done.
  - destruct (IH (store8 buf i c) (i + 1) max w1) as (buf' & w' & E' & Hin' & Ho' & Hbuf); [lia|lia|].
    set (l' := line (Z.to_nat (max - 1 - (i + 1))) (u_in w1)) in *.
    exists buf', w'. rewrite E'. split_and!.
    + do 2 f_equal. cbn [length]. lia.
    + cbn [app]. by rewrite Hin'.
    + congruence.
    + intros j. rewrite Hbuf. destruct (decide (j = i)) as [->|Hne].
      * rewrite decide_False by lia. rewrite load8_store8_eq, decide_True by (cbn [length]; lia).
        by rewrite Z.sub_diag.
      * rewrite load8_store8_ne by done. repeat case_decide; try (cbn [length] in *; lia).
        replace (Z.to_nat (j - i)) with (S (Z.to_nat (j - (i + 1)))) by lia. done.
Qed.

Lemma gets_ok buf max w : 0 < max ->
  let l := line (Z.to_nat (max - 1)) (u_in w) in
  exists buf' w', gets buf max w = Ok buf' w' /\ u_in w = l ++ u_in w' /\ u_out w' = u_out w /\
    forall j, load8 buf' j =
      if decide (0 <= j < Z.of_nat (length l)) then u8 (l !!! Z.to_nat j)
      else if decide (j = Z.of_nat (length l)) then 0 else load8 buf j.
Proof.
  intros Hmax l. destruct (gets_loop_ok (Z.to_nat max) buf 0 max w) as (b & w' & E & Hin & Ho & Hb);
    [lia|lia|]. unfold gets. mrun E. rewrite Z.sub_0_r in *. fold l in E, Hin, Hb |- *.
  eexists _, w'. split_and!; [done|done|done|]. intros j. rewrite Z.add_0_l.
  destruct (decide (j = Z.of_nat (length l))) as [->|Hne].
  - rewrite load8_store8_eq. rewrite decide_False by lia. done.
  - rewrite load8_store8_ne by done. rewrite Hb, Z.sub_0_r. by repeat case_decide; try lia.
Qed.

(** [gets] reads one line: it takes from the input the bytes up to and
    including the first newline or carriage return, at most [max - 1] of them
    (or all there are), leaves the rest unread, stores them in order with a
    NUL after them, and touches no byte beyond that NUL, so never one at
    [buf + max]. *)
Theorem gets_correct buf max w :
  0 < max ->
  let l := line (Z.to_nat (max - 1)) (u_in w) in
  exists buf' w', gets buf max w = Ok buf' w' /\ u_in w = l ++ u_in w' /\ u_out w' = u_out w /\
    Z.of_nat (length l) < max /\
    forall j, load8 buf' j =
      if decide (0 <= j < Z.of_nat (length l)) then u8 (l !!! Z.to_nat j)
      else if decide (j = Z.of_nat (length l)) then 0 else load8 buf j.
Proof.
  intros Hmax l. destruct (gets_ok buf max w Hmax) as (b & w' & E & Hin & Ho & Hb).
  exists b, w'. split_and!; try done. unfold l. pose proof (line_length (Z.to_nat (max - 1)) (u_in w)). lia.
Qed.

(** ** badecall *)

Lemma bad_count_ok l : forall bad w, Forall (fun n => 22 < n) l ->
  exists w', bad_count l bad w = Ok bad w' /\ u_out w' = u_out w /\ u_in w' = u_in w.
Proof.
  induction l as [|n l IH]; intros bad w Hl; [by exists w|].
  apply Forall_cons_1 in Hl as [Hn Hl]. destruct (ecall_law n 0 w Hn) as (w1 & E & Ho & Hi).
  destruct (IH bad w1 Hl) as (w2 & E2 & Ho2 & Hi2). exists w2. cbn [bad_count]. unfold ecall_raw.
  rewrite bind_assoc. mrun E. mstep. change (negb (s32 (u64 (-1)) =? -1)) with false. cbv iota.
  split_and!; [done|congruence|congruence].
Qed.

Lemma badecall_ok w : exists w', badecall_main w = Ok 0 w' /\
  printed 1 (bytes "TEST-1 PASS: unknown syscalls all return -1
") w w'.
Proof.
  destruct (bad_count_ok (zseq 90 10) 0 w) as (w1 & E & Ho & Hi).
  { vm_compute. repeat constructor. }
  unfold badecall_main. mrun E. change (0 =? 0) with true. cbv iota.
  destruct (vprintf_ok 1 (bytes "TEST-1 PASS: unknown syscalls all return -1
") [] _ w1 eq_refl) as (w2 & E2 & P1 & P2). unfold uprintf. mrun E2. exists w2. split; [done|].
  split; [|congruence]. rewrite P1, Ho. done.
Qed.

(** The test program badecall passes on any system that answers -1 to
    unknown call numbers: it issues the calls 90 to 99, prints exactly its
    PASS line on descriptor 1 and exits with status 0. *)
Theorem badecall_passes w :
  exists w', badecall_main w = Ok 0 w' /\
    u_out w' = u_out w ++ ((fun c => (1, u8 c)) <$> bytes "TEST-1 PASS: unknown syscalls all return -1
") /\ u_in w' = u_in w.
Proof. apply badecall_ok. Qed.

(** ** The shell *)

Lemma cbytes_ok buf n : forall l i,
  (length l < n)%nat ->
  (forall j, 0 <= j < Z.of_nat (length l) -> load8 buf (i + j) = l !!! Z.to_nat j) ->
  load8 buf (i + Z.of_nat (length l)) = 0 -> Forall (fun c => 0 < c < 256) l ->
  cbytes n buf i = l.
Proof.
  induction n as [|n IH]; intros l i Hn Hj Hz Hl; [lia|]. cbn [cbytes].
  destruct l as [|c l]; cbn [length] in *.
  - rewrite Z.add_0_r in Hz. by rewrite Hz.
  - apply Forall_cons_1 in Hl as [Hc Hl]. specialize (Hj 0 ltac:(lia)) as E0.
    rewrite Z.add_0_r in E0. change ((c :: l) !!! Z.to_nat 0) with c in E0. rewrite E0.
    destruct (Z.eqb_spec c 0); [lia|]. f_equal. apply IH; [lia| |by rewrite <- Hz; f_equal; lia|done].
    intros j Hj'. replace (i + 1 + j) with (i + (j + 1)) by lia. rewrite Hj by lia.
    by replace (Z.to_nat (j + 1)) with (S (Z.to_nat j)) by lia.
Qed.

Lemma line_Forall (P : Z -> Prop) n l : Forall P l -> Forall P (line n l).
Proof.
  revert l. induction n as [|n IH]; intros [|c l] Hl; cbn; try constructor.
  - by apply Forall_cons_1 in Hl as [? _].
  - destruct (eol c); [constructor|]. apply IH. by apply Forall_cons_1 in Hl as [_ ?].
Qed.

(** The command line [gets] left in the buffer. *)
Lemma gets_cbytes buf w : Forall (fun c => 0 < c < 256) (u_in w) ->
  let l := line 63 (u_in w) in
  exists buf' w', gets buf 64 w = Ok buf' w' /\ u_in w = l ++ u_in w' /\ u_out w' = u_out w /\
    cbytes 64 buf' 0 = l /\ load8 buf' 0 = default 0 (head l).
Proof.
  intros Hin l. destruct (gets_ok buf 64 w ltac:(lia)) as (b & w' & E & Hi & Ho & Hb).
  change (Z.to_nat (64 - 1)) with 63%nat in *. fold l in Hi, Hb.
  pose proof (line_Forall _ 63 _ Hin) as Hl. fold l in Hl.
  assert (forall j, 0 <= j < Z.of_nat (length l) -> load8 b j = l !!! Z.to_nat j) as Hbj.
  { intros j Hj. rewrite Hb, decide_True by done. apply u8_small.
    destruct (lookup_lt_is_Some_2 l (Z.to_nat j) ltac:(lia)) as [c Ec].
    rewrite (list_lookup_total_correct _ _ _ Ec).
    apply (Forall_lookup_1 _ _ _ _ Hl) in Ec. lia. }
  exists b, w'. split_and!; [done..| |].
  - apply cbytes_ok; [pose proof (line_length 63 (u_in w)); fold l; unfold l in *; lia| | |done].
    + intros j Hj. by rewrite Z.add_0_l, Hbj.
    + rewrite Z.add_0_l, Hb, decide_False by lia. by rewrite decide_True.
  - destruct l as [|c l'] eqn:El.
    + rewrite Hb. cbn [length]. rewrite decide_False by lia. by rewrite decide_True.
    + rewrite Hbj by (cbn [length]; lia). done.
Qed.

Definition prompt : list Z := bytes "sh> ".
Definition exec_failed (l : list Z) : list Z := bytes "exec " ++ l ++ bytes " failed
".

Lemma exec_failed_text l : utext (bytes "exec %s failed
") [AStr (Some l)] = Some (exec_failed l).
Proof. vm_compute. reflexivity. Qed.

(** A round of the shell: it prints the prompt and takes one line of at
    most 63 bytes; with no input it goes on at once, otherwise it forks.  The
    parent waits for the child before the next round; a failed fork is
    reported; the child executes exactly the line that was read, and when
    that fails reports it and exits with status 1. *)
Theorem sh_round_correct buf w :
  Forall (fun c => 0 < c < 256) (u_in w) ->
  let l := line 63 (u_in w) in
  exists w1, u_in w = l ++ u_in w1 /\
    u_out w1 = u_out w ++ ((fun c => (1, u8 c)) <$> prompt) /\
    match l with
    | [] => exists b, sh_round buf w = Ok (Sh_next b) w1
    | _ => exists pid w2, u_fork w1 = Ok pid w2 /\
        (0 < pid -> exists b r w3, u_wait w2 = Ok r w3 /\ sh_round buf w = Ok (Sh_next b) w3) /\
        (pid < 0 -> exists b w3, sh_round buf w = Ok (Sh_next b) w3 /\ printed 1 (bytes "fork failed
") w2 w3) /\
        (pid = 0 -> exists r w3, u_exec l w2 = Ok r w3 /\
           match r with
           | None => sh_round buf w = Ok Sh_exec w3
           | Some _ => exists w4, sh_round buf w = Ok (Sh_exit 1) w4 /\ printed 1 (exec_failed l) w3 w4
           end)
    end.
Proof.
  intros Hin l. destruct (vprintf_ok 1 (bytes "sh> ") [] prompt w eq_refl) as (w0 & E0 & Ho0 & Hi0).
  destruct (gets_cbytes buf w0) as (b & w1 & E1 & Hi1 & Ho1 & Hcb & Hb0); [by rewrite Hi0|].
  rewrite Hi0 in *. fold l in Hi1, Hcb, Hb0. exists w1. split; [done|]. split; [by rewrite Ho1|].
  assert (forall c l', l = c :: l' -> load8 b 0 =? 0 = false) as Hne.
  { intros c l' El. rewrite Hb0, El. cbn. apply Z.eqb_neq.
    pose proof (line_Forall _ 63 _ Hin) as Hl. fold l in Hl. rewrite El in Hl.
    apply Forall_cons_1 in Hl as [? _]. unfold id. lia. }
  unfold sh_round. destruct l as [|c l'] eqn:El.
  - exists b. unfold uprintf. mrun E0. mrun E1. rewrite Hb0. done.
  - destruct (fork_law w1) as (pid & w2 & E2). exists pid, w2. split; [done|].
    assert (forall X, (pid ← u_fork; X pid) w1 = X pid w2 :> outcome W sh_end) as Hfork.
    { intros X. by mrun E2. }
    rewrite <- El in *. split_and!; intros Hp.
    + destruct (wait_law w2) as (r & w3 & E3). exists b, r, w3. split; [done|].
      unfold uprintf. mrun E0. mrun E1. rewrite (Hne c l' El), Hfork.
      destruct (Z.ltb_spec pid 0); [lia|]. destruct (Z.eqb_spec pid 0); [lia|]. by mrun E3.
    + destruct (vprintf_ok 1 (bytes "fork failed
") [] _ w2 eq_refl) as (w3 & E3 & P3). exists b, w3.
      unfold uprintf. mrun E0. mrun E1. rewrite (Hne c l' El), Hfork.
      destruct (Z.ltb_spec pid 0); [|lia]. mrun E3. by split.
    + destruct (exec_law l w2) as (r & w3 & E3). exists r, w3. split; [done|].
      destruct r as [r|].
      * destruct (vprintf_ok 1 _ _ _ w3 (exec_failed_text l)) as (w4 & E4 & P4). exists w4.
        split; [|done]. unfold uprintf. mrun E0. mrun E1. rewrite (Hne c l' El), Hfork, Hp.
        cbn [Z.ltb Z.eqb Z.compare]. rewrite Hcb. mrun E3. by mrun E4.
      * unfold uprintf. mrun E0. mrun E1. rewrite (Hne c l' El), Hfork, Hp.
        cbn [Z.ltb Z.eqb Z.compare]. rewrite Hcb. by mrun E3.
Qed.
End Laws.

(** * A world *)

(** A terminal with all its input typed, where no program can be executed. *)
Record tworld : Type := mkT { t_in : list Z; t_out : list (Z * Z); t_pid : Z }.

#[export] Instance tworld_sys : Sys tworld := {|
  u_read fd n := fun w =>
    let d := u8 <$> take (Z.to_nat n) (t_in w) in
    Ok (Z.of_nat (length d), d) (mkT (drop (Z.to_nat n) (t_in w)) (t_out w) (t_pid w));
  u_write fd d := fun w =>
    Ok (Z.of_nat (length d)) (mkT (t_in w) (t_out w ++ ((fun c => (fd, c)) <$> d)) (t_pid w));
  u_fork := fun w => Ok (t_pid w) w;
  u_exec path := fun w => Ok (Some (-1)) w;
  u_wait := fun w => Ok (t_pid w) w;
  u_getpid := fun w => Ok 1 w;
  u_ecall num a := fun w => Ok (u64 (-1)) w;
  u_open path mode := fun w => Ok (-1) w;
  u_fstat fd := fun w => Ok (-1, []) w;
  u_close fd := fun w => Ok (-1) w;
  u_sbrk n mode := fun w => Ok (-1) w
|}.

#[export] Instance tworld_laws : SysLaws tworld.
Proof.
  refine {| u_in := fun w => u8 <$> t_in w; u_out := t_out |}.
  - intros w n Hn. eexists _, _, _. split; [reflexivity|]. split; [reflexivity|].
    cbn [u_read t_in]. destruct (t_in w) as [|c l] eqn:E.
    + right. cbn. rewrite take_nil, drop_nil. by cbn.
    + left. split_and!; [done| | | |].
      * rewrite length_fmap. replace (Z.to_nat n) with (S (Z.to_nat (n - 1))) by lia. cbn. lia.
      * rewrite length_fmap, length_take. lia.
      * by rewrite <- fmap_app, take_drop.
      * apply Forall_fmap, Forall_true. intros x. apply u8_range.
  - intros fd d w. by eexists _.
  - intros num a w _. by exists w.
  - intros w. by eexists _, _.
  - intros w. by eexists _, _.
  - intros path w. by eexists _, _.
Defined.

Lemma vprintf_correct_witness :
  exists w' : tworld, vprintf 1 (bytes "%d%%") [A32 (-7)] (mkT [] [] 0) = Ok tt w' /\
    u_out w' = [(1, 45); (1, 55); (1, 37)].
Proof.
  destruct (vprintf_correct 1 (bytes "%d%%") [A32 (-7)] [45; 55; 37] (mkT [] [] 0)) as (w' & E & Ho & _).
  - vm_compute. reflexivity.
  - exists w'. split; [exact E|exact Ho].
Defined.

Lemma gets_correct_witness :
  exists buf' (w' : tworld), gets ∅ 64 (mkT (bytes "hi
x") [] 0) = Ok buf' w' /\ bytes "hi
x" = bytes "hi
" ++ u_in w'.
Proof.
  destruct (gets_correct ∅ 64 (mkT (bytes "hi
x") [] 0)) as (b & w' & E & Hin & _).
  - lia.
  - exists b, w'. split; [exact E|exact Hin].
Defined.

Lemma sh_round_correct_witness :
  exists r (w' : tworld), sh_round ∅ (mkT (bytes "ls
") [] 0) = Ok r w'.
Proof.
  destruct (sh_round_correct ∅ (mkT (bytes "ls
") [] 0)) as (w1 & _ & _ & pid & w2 & E & Hpos & Hneg & Hz).
  - vm_compute. repeat constructor.
  - destruct (Z.lt_trichotomy pid 0) as [Hp|[Hp|Hp]].
    + destruct (Hneg Hp) as (b & w3 & Er & _). by exists (Sh_next b), w3.
    + destruct (Hz Hp) as ([r|] & w3 & _ & Er).
      * destruct Er as (w4 & Er & _). by exists (Sh_exit 1), w4.
      * by exists Sh_exec, w3.
    + destruct (Hpos Hp) as (b & r & w3 & _ & Er). by exists (Sh_next b), w3.
Defined.

Lemma badecall_passes_witness :
  exists w' : tworld, badecall_main (mkT [] [] 0) = Ok 0 w' /\ u_in w' = [].
Proof.
  destruct (badecall_passes (mkT [] [] 0)) as (w' & E & _ & Hin). exists w'. split; [exact E|exact Hin].
Defined.
