(* ===== verification/XGrep.v ===== *)
(** reference/xv6-riscv/user/grep.c: the regular-expression matcher and the
    program around it, over the system-call interface of [Ulib].

    A C string is the list of its bytes before the NUL, and a [char *] into
    it is the suffix it points to. *)

From stdpp Require Import base gmap list strings numbers.
From Stdlib Require Import ZArith Lia.
From S2P Require Import Prelude Mem KString Vm Printf Ulib.

(** * The matcher *)

(** The loop of [matchstar], for the matcher [mh] of what follows the star. *)
Fixpoint matchstar_loop (mh : list Z -> bool) (c : Z) (text : list Z) : bool :=
  if mh text then true else
  match text with
  | [] => false
  | t :: text' => if (t =? c) || (c =? 46) then matchstar_loop mh c text' else false
  end.

Fixpoint matchhere (re text : list Z) {struct re} : bool :=
  match re with
  | [] => true
  | c :: re' =>
      let chr :=
        match text with
        | t :: text' => if (c =? 46) || (c =? t) then matchhere re' text' else false
        | [] => false
        end in
      match re' with
      | [] => if c =? 36 then match text with [] => true | _ => false end else chr
      | d :: re'' => if d =? 42 then matchstar_loop (matchhere re'') c text else chr
      end
  end.

Definition matchstar (c : Z) (re text : list Z) : bool := matchstar_loop (matchhere re) c text.

(** The [do .. while] of [match]. *)
Fixpoint match_loop (re text : list Z) : bool :=
  if matchhere re text then true else
  match text with
  | [] => false
  | _ :: text' => match_loop re text'
  end.

Definition re_match (re text : list Z) : bool :=
  match re with
  | c :: re' => if c =? 94 then matchhere re' text else match_loop re text
  | [] => match_loop re text
  end.

(** * The program *)

(** [strchr(p, c)]: what comes before the first [c] (and before any NUL), and
    what comes after it. *)
Fixpoint split_at (c : Z) (p : list Z) : option (list Z * list Z) :=
  match p with
  | [] => None
  | x :: p' =>
      if x =? 0 then None else
      if x =? c then Some ([], p') else
      '(l, r) ← split_at c p'; Some (x :: l, r)
  end.

Definition BUF_SIZE : Z := 1024.

Section Grep.
Context `{Sys W}.

(** The inner loop, from [p] on; the result is [p] at its end. *)
Fixpoint grep_scan (fuel : nat) (pattern p : list Z) : M W (list Z) :=
  match fuel with
  | O => out_of_fuel
  | S f =>
      match split_at 10 p with
      | None => mret p
      | Some (l, p') =>
          (if re_match pattern l then u_write 1 (l ++ [10]);; mret tt else mret tt);;
          grep_scan f pattern p'
      end
  end.

(** [grep]; [data] is [buf[0..m)].  The number of reads is not bounded by the
    code: [fuel] is. *)
Fixpoint grep_loop (fuel : nat) (pattern : list Z) (fd : Z) (data : list Z) : M W unit :=
  match fuel with
  | O => out_of_fuel
  | S f =>
      '(n, d) ← u_read fd (BUF_SIZE - Z.of_nat (length data) - 1);
      if n <=? 0 then mret tt else
      let data := data ++ d in
      p ← grep_scan (S (length data)) pattern data;
      grep_loop f pattern fd p
  end.

Definition grep (fuel : nat) (pattern : list Z) (fd : Z) : M W unit := grep_loop fuel pattern fd [].

(** [main], on the arguments after [argv[0]]; its value is the exit status. *)
Fixpoint grep_files (fuel : nat) (pattern : list Z) (files : list (list Z)) : M W Z :=
  match files with
  | [] => mret 0
  | name :: files' =>
      fd ← u_open name O_RDONLY;
      if fd <? 0 then
        uprintf "grep: cannot open %s
" [AStr (Some name)];;
        mret 1
      else
        grep fuel pattern fd;;
        u_close fd;;
        grep_files fuel pattern files'
  end.

Definition grep_main (fuel : nat) (argv : list (list Z)) : M W Z :=
  match argv with
  | [] =>
      fprintf 2 "usage: grep pattern [file ...]
" [];;
      mret 1
  | [pattern] => grep fuel pattern 0;; mret 0
  | pattern :: files => grep_files fuel pattern files
  end.
End Grep.

(** * Specification of the matcher

    [Matches re s rest]: [re] matches the text [s] when [rest] follows it. *)

Definition chr_ok (c x : Z) : Prop := c = 46 \/ c = x.

Inductive Matches : list Z -> list Z -> list Z -> Prop :=
  | M_nil rest : Matches [] [] rest
  | M_end : Matches [36] [] []
  | M_star c re s1 s2 rest :
      Forall (chr_ok c) s1 -> Matches re s2 rest -> Matches (c :: 42 :: re) (s1 ++ s2) rest
  | M_chr c x re s rest :
      head re <> Some 42 -> (c = 36 -> re <> []) -> chr_ok c x ->
      Matches re s rest -> Matches (c :: re) (x :: s) rest.

Definition prefix_match (re text : list Z) : Prop :=
  exists s rest, text = s ++ rest /\ Matches re s rest.

Lemma chr_ok_spec c x : (c =? 46) || (c =? x) = true <-> chr_ok c x.
Proof. unfold chr_ok. rewrite orb_true_iff, !Z.eqb_eq. done. Qed.

Lemma matchstar_loop_spec mh c text :
  matchstar_loop mh c text = true <->
  exists s1 s2, text = s1 ++ s2 /\ Forall (chr_ok c) s1 /\ mh s2 = true.
Proof.
  induction text as [|t text IH]; cbn [matchstar_loop].
  - destruct (mh []) eqn:E; split; try done.
    + intros _. by exists [], [].
    + intros (s1 & s2 & Hs & _ & Hm). destruct s1, s2; try done. congruence.
  - destruct (mh (t :: text)) eqn:E.
    { split; [|done]. intros _. by exists [], (t :: text). }
    assert ((t =? c) || (c =? 46) = true <-> chr_ok c t) as Hc.
    { unfold chr_ok. rewrite orb_true_iff, !Z.eqb_eq. naive_solver. }
    destruct ((t =? c) || (c =? 46)).
    + rewrite IH. split.
      * intros (s1 & s2 & -> & Hs & Hm). exists (t :: s1), s2. split_and!; [done| |done].
        constructor; [by apply Hc|done].
      * intros (s1 & s2 & Hs & Hf & Hm). destruct s1 as [|x s1]; cbn in Hs; [congruence|].
        injection Hs as -> ->. apply Forall_cons_1 in Hf as [_ Hf]. by exists s1, s2.
    + split; [done|]. intros (s1 & s2 & Hs & Hf & Hm). destruct s1 as [|x s1]; cbn in Hs; [congruence|].
      injection Hs as -> ->. apply Forall_cons_1 in Hf as [Hx _]. by apply Hc in Hx.
Qed.

Lemma matchhere_spec n : forall re text, (length re <= n)%nat ->
  matchhere re text = true <-> prefix_match re text.
Proof.
  induction n as [|n IH]; intros [|c re] text Hn; cbn [length] in Hn; try lia.
  1,2: split; [|done]; intros _; exists [], text; split; [done|constructor].
  assert (head re <> Some 42 -> (c = 36 -> re <> []) ->
    match text with
    | t :: text' => if (c =? 46) || (c =? t) then matchhere re text' else false
    | [] => false
    end = true <-> prefix_match (c :: re) text) as Hchr.
  { intros Hh Hd. split.
    - destruct text as [|t text]; [done|]. destruct ((c =? 46) || (c =? t)) eqn:E; [|done].
      intros Hm. apply IH in Hm as (s & rest & -> & HM); [|lia]. apply chr_ok_spec in E.
      exists (t :: s), rest. split; [done|]. by constructor.
    - intros (s & rest & -> & HM). remember (c :: re) as r eqn:Er.
      destruct HM as [rest| |c' re' s1 s2 r _ _|c' x re' s' r _ _ Hx HM]; [done| | |].
      + injection Er as <- <-. by destruct (Hd eq_refl).
      + injection Er as -> <-. done.
      + injection Er as -> ->. cbn [app]. apply chr_ok_spec in Hx. rewrite Hx.
        apply IH; [lia|]. by exists s', r. }
  cbn [matchhere]. destruct re as [|d re].
  - destruct (Z.eqb_spec c 36) as [->|Hc].
    + destruct text as [|t text]; split; try done.
      * intros _. exists [], []. split; [done|constructor].
      * intros (s & rest & Hs & HM). exfalso. remember [36] as r eqn:Er.
        destruct HM as [rest| |c' re' s1 s2 r _ _|c' x re' s' r _ Hd _ _]; try done.
        injection Er as -> ->. by destruct (Hd eq_refl).
    + apply Hchr; [done|]. intros ->. done.
  - destruct (Z.eqb_spec d 42) as [->|Hd]; [|apply Hchr; [intros [= ->]; done|done]].
    cbn [length] in Hn. rewrite matchstar_loop_spec. split.
    + intros (s1 & s2 & -> & Hf & Hm). apply IH in Hm as (s & rest & -> & HM); [|lia].
      exists (s1 ++ s), rest. split; [by rewrite app_assoc|]. by constructor.
    + intros (s & rest & -> & HM). remember (c :: 42 :: re) as r eqn:Er.
      destruct HM as [rest| |c' re' s1 s2 r Hf HM|c' x re' s' r Hh _ _ _]; try done.
      * injection Er as -> ->. exists s1, (s2 ++ r). split_and!; [by rewrite app_assoc|done|].
        apply IH; [lia|]. by exists s2, r.
      * injection Er as -> ->. by destruct Hh.
Qed.

Lemma match_loop_spec re text :
  match_loop re text = true <-> exists pre text', text = pre ++ text' /\ prefix_match re text'.
Proof.
  induction text as [|t text IH]; cbn [match_loop].
  - destruct (matchhere re []) eqn:E.
    + apply (matchhere_spec (length re)) in E; [|done]. split; [|done]. intros _. by exists [], [].
    + split; [done|]. intros (pre & text' & Hs & Hm). destruct pre, text'; try done.
      apply (matchhere_spec (length re)) in Hm; [congruence|done].
  - destruct (matchhere re (t :: text)) eqn:E.
    { apply (matchhere_spec (length re)) in E; [|done]. split; [|done]. intros _. by exists [], (t :: text). }
    rewrite IH. split.
    + intros (pre & text' & -> & Hm). by exists (t :: pre), text'.
    + intros (pre & text' & Hs & Hm). destruct pre as [|x pre]; cbn in Hs.
      * subst text'. apply (matchhere_spec (length re)) in Hm; [congruence|done].
      * injection Hs as -> ->. by exists pre, text'.
Qed.

(** C28: the matcher of grep.c decides its regular expressions.  [match]
    returns true exactly when some stretch of the line matches: a character
    matches itself, [.] any character, [c*] a run of [c] (of anything for
    [.*]) of any length, a final [$] the end of the line, and a leading [^]
    fixes the stretch at the start; this for every pattern and line, with the
    recursion of [matchhere] and the loop of [matchstar] both terminating. *)
Theorem re_match_correct re text :
  re_match re text = true <->
  exists pre s rest, text = pre ++ s ++ rest /\
    match re with
    | 94 :: re' => pre = [] /\ Matches re' s rest
    | _ => Matches re s rest
    end.
Proof.
  unfold re_match. assert (forall re, match_loop re text = true <->
    exists pre s rest, text = pre ++ s ++ rest /\ Matches re s rest) as Hl.
  { intros re'. rewrite match_loop_spec. unfold prefix_match. split.
    - intros (pre & text' & -> & s & rest & -> & HM). by exists pre, s, rest.
    - intros (pre & s & rest & -> & HM). exists pre, (s ++ rest). split; [done|]. by exists s, rest. }
  destruct re as [|c re]; [apply Hl|].
  destruct (Z.eqb_spec c 94) as [->|Hc].
  - rewrite (matchhere_spec (length re)) by done. unfold prefix_match. split.
    + intros (s & rest & -> & HM). by exists [], s, rest.
    + intros (pre & s & rest & -> & -> & HM). by exists s, rest.
  - rewrite Hl. destruct c as [|p|p]; try done. repeat (destruct p as [p|p|]; try done).
Qed.

(** * Specification of the program *)

(** The complete lines of a stream whose current line starts with [cur], and
    the incomplete one at its end. *)
Fixpoint lines (cur s : list Z) : list (list Z) :=
  match s with
  | [] => []
  | x :: s' => if x =? 10 then cur :: lines [] s' else lines (cur ++ [x]) s'
  end.

Fixpoint partial (cur s : list Z) : list Z :=
  match s with
  | [] => cur
  | x :: s' => if x =? 10 then partial [] s' else partial (cur ++ [x]) s'
  end.

(** What [grep] prints of these lines. *)
Definition selected (re : list Z) (ls : list (list Z)) : list Z :=
  flat_map (fun l => if re_match re l then l ++ [10] else []) ls.

Lemma lines_app cur s1 s2 : lines cur (s1 ++ s2) = lines cur s1 ++ lines (partial cur s1) s2.
Proof.
  revert cur. induction s1 as [|x s1 IH]; intros cur; [done|]. cbn. destruct (x =? 10); [|done].
  cbn. by rewrite IH.
Qed.

Lemma partial_app cur s1 s2 : partial cur (s1 ++ s2) = partial (partial cur s1) s2.
Proof. revert cur. induction s1 as [|x s1 IH]; intros cur; [done|]. cbn. by destruct (x =? 10). Qed.

Lemma split_at_lines p : Forall (fun x => x <> 0) p -> forall cur,
  match split_at 10 p with
  | Some (l, p') => lines cur p = (cur ++ l) :: lines [] p' /\ partial cur p = partial [] p' /\
      (length p' < length p)%nat /\ Forall (fun x => x <> 0) p'
  | None => lines cur p = [] /\ partial cur p = cur ++ p
  end.
Proof.
  induction p as [|x p IH]; intros Hz cur; cbn [split_at].
  { split; [done|]. cbn. by rewrite app_nil_r. }
  apply Forall_cons_1 in Hz as [Hx Hz]. destruct (Z.eqb_spec x 0); [done|].
  destruct (Z.eqb_spec x 10) as [->|Hne].
  - cbn. rewrite app_nil_r. split_and!; try done. lia.
  - specialize (IH Hz (cur ++ [x])). destruct (split_at 10 p) as [[l p']|]; cbn [mbind option_bind].
    + destruct IH as (E1 & E2 & Hl & Hp). cbn. destruct (Z.eqb_spec x 10); [done|].
      rewrite E1, E2, <- app_assoc. split_and!; try done. lia.
    + destruct IH as (E1 & E2). cbn. destruct (Z.eqb_spec x 10); [done|].
      by rewrite E1, E2, <- app_assoc.
Qed.

Section GrepCorrect.
Context `{SysLaws W}.
Implicit Types w : W.

(** [w'] is [w] after [t] has been written to standard output. *)
Definition wrote1 (t : list Z) (w w' : W) : Prop :=
  u_out w' = u_out w ++ ((fun c => (1, c)) <$> t) /\ u_in w' = u_in w.

Lemma wrote1_trans t t' w w1 w2 : wrote1 t w w1 -> wrote1 t' w1 w2 -> wrote1 (t ++ t') w w2.
Proof. intros [E1 E2] [E3 E4]. split; [|congruence]. by rewrite E3, E1, fmap_app, app_assoc. Qed.

Lemma grep_scan_ok re f : forall p w, (length p < f)%nat -> Forall (fun x => x <> 0) p ->
  exists w', grep_scan f re p w = Ok (partial [] p) w' /\ wrote1 (selected re (lines [] p)) w w'.
Proof.
  induction f as [|f IH]; intros p w Hf Hz; [lia|]. cbn [grep_scan].
  pose proof (split_at_lines p Hz []) as Hs. destruct (split_at 10 p) as [[l p']|].
  - destruct Hs as (-> & -> & Hl & Hz'). cbn [selected flat_map app].
    assert (exists w1, (if re_match re l then u_write 1 (l ++ [10]);; mret tt else mret tt) w = Ok tt w1 /\
      wrote1 (if re_match re l then l ++ [10] else []) w w1) as (w1 & E1 & P1).
    { destruct (re_match re l).
      - destruct (write_law 1 (l ++ [10]) w) as (w1 & E & Ho & Hi). exists w1. mrun E. by split.
      - exists w. split; [done|]. split; [by rewrite app_nil_r|done]. }
    mrun E1. destruct (IH p' w1) as (w2 & E2 & P2); [lia|done|]. exists w2. split; [exact E2|].
    by apply (wrote1_trans _ _ w w1).
  - destruct Hs as (-> & ->). exists w. split; [done|]. split; [by rewrite app_nil_r|done].
Qed.

Lemma selected_app re l1 l2 : selected re (l1 ++ l2) = selected re l1 ++ selected re l2.
Proof. unfold selected. by rewrite flat_map_app. Qed.

Lemma lines_partial p s : partial [] p = p -> lines [] (p ++ s) = lines [] p ++ lines p s.
Proof. intros E. by rewrite lines_app, E. Qed.

Lemma partial_fits cur s n : Forall (fun l => (length l < n)%nat) (lines cur s) ->
  (length (partial cur s) < n)%nat -> (length cur < n)%nat.
Proof.
  revert cur. induction s as [|x s IH]; intros cur; cbn; [done|]. destruct (x =? 10).
  - intros Hl _. by apply Forall_cons_1 in Hl as [? _].
  - intros Hl Hp. specialize (IH _ Hl Hp). rewrite length_app in IH. cbn in IH. lia.
Qed.

Lemma partial_Forall (P : Z -> Prop) cur s : Forall P cur -> Forall P s -> Forall P (partial cur s).
Proof.
  revert cur. induction s as [|x s IH]; intros cur Hc Hs; [done|]. cbn.
  apply Forall_cons_1 in Hs as [Hx Hs]. destruct (x =? 10); apply IH; try done.
  apply Forall_app. by split; [|constructor].
Qed.

Lemma partial_idem cur s : partial [] cur = cur -> partial [] (partial cur s) = partial cur s.
Proof.
  revert cur. induction s as [|x s IH]; intros cur E; [done|]. cbn.
  destruct (Z.eqb_spec x 10); [by apply IH|]. apply IH. rewrite partial_app, E. cbn.
  by destruct (Z.eqb_spec x 10).
Qed.

(** An incomplete line has no newline. *)
Lemma partial_length cur q : (length (partial cur q) <= length cur + length q)%nat.
Proof.
  revert cur. induction q as [|y q IH]; intros cur; cbn; [lia|]. destruct (y =? 10).
  - specialize (IH []). cbn in IH. lia.
  - specialize (IH (cur ++ [y])). rewrite length_app in IH. cbn in IH. lia.
Qed.

Lemma partial_shorter cur q : lines cur q = [] \/ (length (partial cur q) < length cur + length q)%nat.
Proof.
  revert cur. induction q as [|x q IH]; intros cur; cbn; [by left|]. destruct (x =? 10).
  - right. pose proof (partial_length [] q). cbn in *. lia.
  - destruct (IH (cur ++ [x])) as [E|E]; [by left|right]. rewrite length_app in E. cbn in E. lia.
Qed.

Lemma partial_no_lines q : partial [] q = q -> lines [] q = [].
Proof. intros E. destruct (partial_shorter [] q) as [|Hlt]; [done|]. rewrite E in Hlt. cbn in Hlt. lia. Qed.

Lemma grep_loop_ok re f : forall data w,
  (length (u_in w) < f)%nat -> partial [] data = data -> lines [] data = [] ->
  Forall (fun x => x <> 0) data -> Forall (fun x => x <> 0) (u_in w) ->
  Forall (fun l => (length l < 1023)%nat) (lines data (u_in w)) ->
  (length (partial data (u_in w)) < 1023)%nat ->
  exists w', grep_loop f re 0 data w = Ok tt w' /\ u_in w' = [] /\
    u_out w' = u_out w ++ ((fun c => (1, c)) <$> selected re (lines data (u_in w))).
Proof.
  induction f as [|f IH]; intros data w Hf Hp Hl Hz Hzi Hfit Hpfit; [lia|]. cbn [grep_loop].
  pose proof (partial_fits _ _ _ Hfit Hpfit) as Hdata.
  destruct (read_law w (BUF_SIZE - Z.of_nat (length data) - 1)) as (k & d & w1 & E & Ho & Hd).
  { unfold BUF_SIZE. lia. }
  mrun E. destruct Hd as [(-> & Hk & Hin & _)|(Hk & Hi1 & Hnil)].
  2: { destruct (Z.leb_spec k 0); [|lia]. exists w1. rewrite Hnil in *. split_and!; [done|done|].
       cbn. by rewrite app_nil_r. }
  destruct (Z.leb_spec (Z.of_nat (length d)) 0); [lia|].
  rewrite Hin in *. apply Forall_app in Hzi as [Hzd Hz1].
  destruct (grep_scan_ok re (S (length (data ++ d))) (data ++ d) w1) as (w2 & E2 & P2o & P2i);
    [lia|by apply Forall_app|]. mrun E2.
  rewrite partial_app, Hp. rewrite lines_app, Hl, Hp in P2o. cbn [app] in P2o.
  rewrite lines_app in Hfit. apply Forall_app in Hfit as [Hfit1 Hfit2].
  rewrite partial_app in Hpfit.
  assert (partial [] (partial data d) = partial data d) as Hpp by (by apply partial_idem).
  destruct (IH (partial data d) w2) as (w3 & E3 & Hi3 & Ho3).
  - rewrite P2i. rewrite length_app in Hf. lia.
  - done.
  - by apply partial_no_lines.
  - by apply partial_Forall.
  - by rewrite P2i.
  - by rewrite P2i.
  - by rewrite P2i.
  - exists w3. rewrite P2i in Ho3. split_and!; [done|done|].
    rewrite Ho3, P2o, Ho, lines_app, selected_app, fmap_app. by rewrite app_assoc.
Qed.

(** [grep] on its standard input prints exactly the matching lines: for an
    input without NUL bytes whose lines all fit its buffer (at most 1022
    bytes), however the input is cut into reads, it comes to an end with all
    input consumed, and it has written the complete lines the pattern matches,
    each with its newline, in their order, and nothing else. *)
Theorem grep_correct re f w :
  (length (u_in w) < f)%nat -> Forall (fun x => x <> 0) (u_in w) ->
  Forall (fun l => (length l < 1023)%nat) (lines [] (u_in w)) ->
  (length (partial [] (u_in w)) < 1023)%nat ->
  exists w', grep f re 0 w = Ok tt w' /\ u_in w' = [] /\
    u_out w' = u_out w ++ ((fun c => (1, c)) <$> selected re (lines [] (u_in w))).
Proof. intros Hf Hz Hl Hp. by apply grep_loop_ok. Qed.
End GrepCorrect.

Lemma grep_correct_witness :
  exists w' : tworld, grep 100 (bytes "^a.*b$") 0 (mkT (bytes "axxb
bab
ab
") [] 0) = Ok tt w' /\ u_out w' = (fun c => (1, c)) <$> bytes "axxb
ab
".
Proof.
  destruct (grep_correct (bytes "^a.*b$") 100 (mkT (bytes "axxb
bab
ab
") [] 0)) as (w' & E & _ & Ho).
  - vm_compute. lia.
  - vm_compute. repeat constructor; discriminate.
  - vm_compute. repeat constructor.
  - vm_compute. lia.
  - exists w'. split; [exact E|]. rewrite Ho. vm_compute. reflexivity.
Defined.
