(* ===== verification/XStore.v ===== *)
(** What the buffer cache promises to the log (reference/xv6-riscv): blocks in
    use have one shared content, and a write reaches the disk as a whole.

    [store] is the abstract state: the blocks that some reference keeps in
    memory, the disk, and the writes the disk has seen.  [BlockStore] is the
    interface: the operations, a relation between the states of an
    implementation and [store], and what each operation does to it.  The
    cache of bio.c is an instance (file [XBio]); the log of log.c is verified
    against the interface (file [XLog]). *)

From Stdlib Require Import ZArith Lia.
From stdpp Require Import base strings numbers gmap list.
From S2P Require Import Prelude Vm.

Definition NBUF : nat := 30.
Definition ROOTDEV : Z := 1.
Definition BSIZE : nat := Z.to_nat 1024.

Definition block : Type := list Z.
Definition zero_block : block := replicate BSIZE 0.

(** The content of a block of the disk. *)
Definition on_disk (n : Z) (d : gmap Z block) : block := default zero_block (d !! n).

(** A block in use: its buffer, the number of references, its content and
    whether it is locked. *)
Record live : Type := mkLive { lv_h : nat; lv_cnt : Z; lv_data : block; lv_locked : bool }.

Record store : Type := mkStore {
  st_live : gmap Z live;
  st_disk : gmap Z block;
  st_writes : list (Z * block)
}.

Definition set_live (n : Z) (lv : live) (st : store) : store :=
  mkStore (<[n := lv]> (st_live st)) (st_disk st) (st_writes st).
Definition drop_live (n : Z) (st : store) : store :=
  mkStore (delete n (st_live st)) (st_disk st) (st_writes st).
Definition put_disk (n : Z) (d : block) (st : store) : store :=
  mkStore (st_live st) (<[n := d]> (st_disk st)) (st_writes st ++ [(n, d)]).

(** The content of a block as the file system sees it. *)
Definition current (n : Z) (st : store) : block :=
  match st_live st !! n with Some lv => lv_data lv | None => on_disk n (st_disk st) end.

(** A reference to block [n] is taken. *)
Definition take_ref (n : Z) (h : nat) (st : store) : store :=
  match st_live st !! n with
  | Some lv => set_live n (mkLive (lv_h lv) (lv_cnt lv + 1) (lv_data lv) true) st
  | None => set_live n (mkLive h 1 (on_disk n (st_disk st)) true) st
  end.

(** Block [n] can be locked: it is free, or not in use and there is room. *)
Definition can_read (n : Z) (st : store) : Prop :=
  match st_live st !! n with
  | Some lv => lv_locked lv = false /\ lv_cnt lv + 1 < 2 ^ 32
  | None => (size (st_live st) < NBUF)%nat
  end.

Class BlockStore (S : Type) : Type := {
  bs_bread : Z -> Z -> M S nat;
  bs_data : nat -> S -> block;
  bs_blockno : nat -> S -> Z;
  bs_fill : nat -> block -> M S unit;
  bs_write : nat -> M S unit;
  bs_release : nat -> M S unit;
  bs_pin : nat -> M S unit;
  bs_unpin : nat -> M S unit;

  bs_rel : S -> store -> Prop;

  read_spec s st n : bs_rel s st -> can_read n st ->
    exists h s', bs_bread ROOTDEV n s = Ok h s' /\ bs_rel s' (take_ref n h st) /\
      match st_live st !! n with Some lv => h = lv_h lv | None => True end;
  data_spec s st n lv : bs_rel s st -> st_live st !! n = Some lv ->
    bs_data (lv_h lv) s = lv_data lv /\ bs_blockno (lv_h lv) s = n;
  fill_spec s st n lv d : bs_rel s st -> st_live st !! n = Some lv -> lv_locked lv = true ->
    exists s', bs_fill (lv_h lv) d s = Ok tt s' /\
      bs_rel s' (set_live n (mkLive (lv_h lv) (lv_cnt lv) d true) st);
  write_spec s st n lv : bs_rel s st -> st_live st !! n = Some lv -> lv_locked lv = true ->
    exists s', bs_write (lv_h lv) s = Ok tt s' /\ bs_rel s' (put_disk n (lv_data lv) st);
  release_spec s st n lv : bs_rel s st -> st_live st !! n = Some lv -> lv_locked lv = true ->
    (lv_cnt lv = 1 -> lv_data lv = on_disk n (st_disk st)) ->
    exists s', bs_release (lv_h lv) s = Ok tt s' /\
      bs_rel s' (if lv_cnt lv =? 1 then drop_live n st
                 else set_live n (mkLive (lv_h lv) (lv_cnt lv - 1) (lv_data lv) false) st);
  pin_spec s st n lv : bs_rel s st -> st_live st !! n = Some lv -> lv_cnt lv + 1 < 2 ^ 32 ->
    exists s', bs_pin (lv_h lv) s = Ok tt s' /\
      bs_rel s' (set_live n (mkLive (lv_h lv) (lv_cnt lv + 1) (lv_data lv) (lv_locked lv)) st);
  unpin_spec s st n lv : bs_rel s st -> st_live st !! n = Some lv -> 1 < lv_cnt lv ->
    exists s', bs_unpin (lv_h lv) s = Ok tt s' /\
      bs_rel s' (set_live n (mkLive (lv_h lv) (lv_cnt lv - 1) (lv_data lv) (lv_locked lv)) st)
}.

(** [bread] of the one disk there is, as the log uses it. *)
Notation bs_read := (bs_bread ROOTDEV).
