(* ===== verification/XBio.v ===== *)
(** reference/xv6-riscv/kernel/bio.c and sleeplock.c: the buffer cache.

    [struct buf bcache.buf[NBUF]] and [bcache.head] are the entries of one
    list, the head last, and [prev], [next] are indices into it.  The bodies
    between [acquire] and [release] of the cache's spinlock run as one step;
    a sleep lock that is held by another process makes [acquiresleep] wait
    ([Diverge]).  The disk transfers a whole block per request
    ([virtio_disk_rw]) and keeps the sequence of its writes, so that a crash
    between two of them can be expressed. *)

From Stdlib Require Import ZArith Lia.
From stdpp Require Import base strings numbers gmap list.
From S2P Require Import Prelude Vm XStore.

Record sleeplock : Type := mkSleep { sl_locked : Z; sl_pid : Z }.

Record buf : Type := mkBuf {
  b_valid : bool;
  b_dev : Z;
  b_blockno : Z;
  b_lock : sleeplock;
  b_refcnt : Z;
  b_prev : nat;
  b_next : nat;
  b_data : block
}.
#[export] Instance buf_inhabited : Inhabited buf :=
  populate (mkBuf false 0 0 (mkSleep 0 0) 0 0 0 zero_block).

Definition set_valid (x : bool) (b : buf) : buf :=
  mkBuf x (b_dev b) (b_blockno b) (b_lock b) (b_refcnt b) (b_prev b) (b_next b) (b_data b).
Definition set_id (d n : Z) (b : buf) : buf :=
  mkBuf (b_valid b) d n (b_lock b) (b_refcnt b) (b_prev b) (b_next b) (b_data b).
Definition set_lock (x : sleeplock) (b : buf) : buf :=
  mkBuf (b_valid b) (b_dev b) (b_blockno b) x (b_refcnt b) (b_prev b) (b_next b) (b_data b).
Definition set_refcnt (x : Z) (b : buf) : buf :=
  mkBuf (b_valid b) (b_dev b) (b_blockno b) (b_lock b) x (b_prev b) (b_next b) (b_data b).
Definition set_prev (x : nat) (b : buf) : buf :=
  mkBuf (b_valid b) (b_dev b) (b_blockno b) (b_lock b) (b_refcnt b) x (b_next b) (b_data b).
Definition set_next (x : nat) (b : buf) : buf :=
  mkBuf (b_valid b) (b_dev b) (b_blockno b) (b_lock b) (b_refcnt b) (b_prev b) x (b_data b).
Definition set_data (x : block) (b : buf) : buf :=
  mkBuf (b_valid b) (b_dev b) (b_blockno b) (b_lock b) (b_refcnt b) (b_prev b) (b_next b) x.

(** The cache, the disk with its writes so far, and the running process. *)
Record bst : Type := mkB {
  bc_bufs : list buf;
  bc_disk : gmap Z block;
  bc_writes : list (Z * block);
  bc_pid : Z
}.

Definition with_bufs (x : list buf) (s : bst) : bst := mkB x (bc_disk s) (bc_writes s) (bc_pid s).
Definition with_disk (x : gmap Z block) (t : list (Z * block)) (s : bst) : bst :=
  mkB (bc_bufs s) x t (bc_pid s).

Definition HEAD : nat := NBUF.
Definition the_buf (i : nat) (s : bst) : buf := bc_bufs s !!! i.
Definition updf (i : nat) (f : buf -> buf) (s : bst) : bst := with_bufs (alter f i (bc_bufs s)) s.
Definition upd (i : nat) (f : buf -> buf) : M bst unit := modify (updf i f).

(** * Sleep locks *)

Definition initsleeplock (i : nat) : M bst unit := upd i (set_lock (mkSleep 0 0)).

Definition acquiresleep (i : nat) : M bst unit :=
  l ← gets (fun s => b_lock (the_buf i s));
  if negb (sl_locked l =? 0) then out_of_fuel else
  pid ← gets bc_pid;
  upd i (set_lock (mkSleep 1 pid)).

Definition releasesleep (i : nat) : M bst unit := upd i (set_lock (mkSleep 0 0)).

Definition holdingsleep (i : nat) (s : bst) : bool :=
  negb (sl_locked (b_lock (the_buf i s)) =? 0) && (sl_pid (b_lock (the_buf i s)) =? bc_pid s).

(** * The cache *)

(** The disk driver: one block to or from the buffer. *)
Definition virtio_disk_rw (i : nat) (write : bool) : M bst unit :=
  b ← gets (the_buf i);
  if write then
    modify (fun s => with_disk (<[b_blockno b := b_data b]> (bc_disk s))
                               (bc_writes s ++ [(b_blockno b, b_data b)]) s)
  else
    d ← gets bc_disk;
    upd i (set_data (on_disk (b_blockno b) d)).

Definition binit : M bst unit :=
  upd HEAD (set_prev HEAD);;
  upd HEAD (set_next HEAD);;
  for_each (seq 0 NBUF) (fun b =>
    h ← gets (the_buf HEAD);
    upd b (set_next (b_next h));;
    upd b (set_prev HEAD);;
    initsleeplock b;;
    upd (b_next h) (set_prev b);;
    upd HEAD (set_next b)).

(** The two searches of [bget]; each is over the cycle through [HEAD]. *)
Fixpoint find_cached (fuel : nat) (b : nat) (dev blockno : Z) : M bst (option nat) :=
  match fuel with
  | O => out_of_fuel
  | S f =>
      if (b =? HEAD)%nat then mret None else
      x ← gets (the_buf b);
      if (b_dev x =? dev) && (b_blockno x =? blockno) then mret (Some b) else
      find_cached f (b_next x) dev blockno
  end.

Fixpoint find_unused (fuel : nat) (b : nat) : M bst (option nat) :=
  match fuel with
  | O => out_of_fuel
  | S f =>
      if (b =? HEAD)%nat then mret None else
      x ← gets (the_buf b);
      if b_refcnt x =? 0 then mret (Some b) else find_unused f (b_prev x)
  end.

Definition bget (dev blockno : Z) : M bst nat :=
  h ← gets (the_buf HEAD);
  f ← find_cached (S NBUF) (b_next h) dev blockno;
  match f with
  | Some b =>
      upd b (fun x => set_refcnt (u32 (b_refcnt x + 1)) x);;
      acquiresleep b;;
      mret b
  | None =>
      h ← gets (the_buf HEAD);
      f ← find_unused (S NBUF) (b_prev h);
      match f with
      | Some b =>
          upd b (set_id dev blockno);;
          upd b (set_valid false);;
          upd b (set_refcnt 1);;
          acquiresleep b;;
          mret b
      | None => panic "bget: no buffers"
      end
  end.

Definition bread (dev blockno : Z) : M bst nat :=
  b ← bget dev blockno;
  x ← gets (the_buf b);
  (if negb (b_valid x) then virtio_disk_rw b false;; upd b (set_valid true) else mret tt);;
  mret b.

Definition bwrite (b : nat) : M bst unit :=
  h ← gets (holdingsleep b);
  if negb h then panic "bwrite" else virtio_disk_rw b true.

Definition brelse (b : nat) : M bst unit :=
  h ← gets (holdingsleep b);
  if negb h then panic "brelse" else
  releasesleep b;;
  upd b (fun x => set_refcnt (u32 (b_refcnt x - 1)) x);;
  x ← gets (the_buf b);
  if b_refcnt x =? 0 then
    upd (b_next x) (set_prev (b_prev x));;
    upd (b_prev x) (set_next (b_next x));;
    h ← gets (the_buf HEAD);
    upd b (set_next (b_next h));;
    upd b (set_prev HEAD);;
    upd (b_next h) (set_prev b);;
    upd HEAD (set_next b)
  else mret tt.

Definition bpin (b : nat) : M bst unit := upd b (fun x => set_refcnt (u32 (b_refcnt x + 1)) x).
Definition bunpin (b : nat) : M bst unit := upd b (fun x => set_refcnt (u32 (b_refcnt x - 1)) x).

(** * Linked lists of indices *)

(** Following [f] from [a] visits [l] and then reaches [b]. *)
Fixpoint path (f : nat -> nat) (a : nat) (l : list nat) (b : nat) : Prop :=
  match l with
  | [] => f a = b
  | x :: l' => f a = x /\ path f x l' b
  end.

Lemma path_ext f g a l b : (forall x, x = a \/ x ∈ l -> g x = f x) -> path f a l b -> path g a l b.
Proof.
  revert a. induction l as [|x l IH]; intros a Hfg; cbn.
  - intros <-. apply Hfg. by left.
  - intros [<- Hp]. split; [apply Hfg; by left|]. apply IH; [|done].
    intros y Hy. apply Hfg. right. set_solver.
Qed.

Lemma path_app f a l1 x l2 b : path f a (l1 ++ x :: l2) b <-> path f a l1 x /\ path f x l2 b.
Proof.
  revert a. induction l1 as [|y l1 IH]; intros a; cbn; [done|]. rewrite IH. naive_solver.
Qed.

Lemma path_first f a l b : path f a l b -> f a = default b (head l).
Proof. by destruct l as [|x l]; [|intros [? _]]. Qed.

Lemma path_at f a l1 x l2 b : path f a (l1 ++ x :: l2) b -> f x = default b (head l2).
Proof. rewrite path_app. intros [_ Hp]. by eapply path_first. Qed.

(** The predecessor of [x] skips it. *)
Lemma path_remove f g a l1 x l2 b :
  path f a (l1 ++ x :: l2) b -> NoDup (a :: l1 ++ x :: l2) ->
  (forall y, y ∈ a :: l1 ++ l2 -> g y = if decide (y = default a (last l1)) then f x else f y) ->
  path g a (l1 ++ l2) b.
Proof.
  revert a. induction l1 as [|c l1 IH]; intros a Hp Hnd Hg; cbn [app] in *.
  - destruct Hp as [Ha Hp]. cbn in Hg. assert (g a = f x) as Ega.
    { rewrite Hg by set_solver. by rewrite decide_True. }
    destruct l2 as [|z l2]; cbn in *; [congruence|]. destruct Hp as [Ez Hp].
    split; [congruence|]. eapply path_ext; [|exact Hp]. intros y Hy. rewrite Hg by set_solver.
    rewrite decide_False; [done|]. intros ->. apply NoDup_cons in Hnd as [Hn _]. apply Hn. set_solver.
  - destruct Hp as [Ha Hp]. apply NoDup_cons in Hnd as [Hn Hnd]. split.
    + rewrite Hg by set_solver. rewrite decide_False; [done|].
      intros Ea. apply Hn. rewrite last_cons in Ea. destruct (last l1) as [z|] eqn:El; cbn in Ea.
      * subst z. apply last_Some_elem_of in El. set_solver.
      * set_solver.
    + apply IH; [done|done|]. intros y Hy. rewrite Hg by set_solver. rewrite last_cons.
      by destruct (last l1).
Qed.

Lemma path_push f g a x l b :
  path f a l b -> g a = x -> g x = f a -> (forall y, y ∈ l -> g y = f y) -> path g a (x :: l) b.
Proof.
  intros Hp Ha Hx Hl. split; [done|]. destruct l as [|z l]; cbn in *; [congruence|].
  destruct Hp as [<- Hp]. split; [done|]. eapply path_ext; [|exact Hp]. intros y Hy. apply Hl. set_solver.
Qed.

Lemma path_snoc f g a x l b :
  path f a l b -> NoDup (a :: l) -> g (default a (last l)) = x -> g x = b ->
  (forall y, y ∈ a :: l -> y <> default a (last l) -> g y = f y) -> path g a (l ++ [x]) b.
Proof.
  revert a. induction l as [|c l IH]; intros a Hp Hnd Hlast Hx Hg; cbn [app] in *; [done|].
  destruct Hp as [Ea Hp]. apply NoDup_cons in Hnd as [Hn Hnd].
  rewrite last_cons in Hlast, Hg. split.
  - rewrite Hg; [done|set_solver|]. intros E. apply Hn. destruct (last l) as [z|] eqn:El; cbn in E.
    + subst z. apply last_Some_elem_of in El. set_solver.
    + set_solver.
  - apply IH; [done|done| |done|].
    + by destruct (last l).
    + intros y Hy Hne. apply Hg; [set_solver|]. by destruct (last l).
Qed.

(** * The recency list *)

Definition nxt (s : bst) (i : nat) : nat := b_next (the_buf i s).
Definition prv (s : bst) (i : nat) : nat := b_prev (the_buf i s).

(** [l] is the order of recency, most recent first. *)
Record linked (s : bst) (l : list nat) : Prop := {
  lk_len : length (bc_bufs s) = S NBUF;
  lk_perm : l ≡ₚ seq 0 NBUF;
  lk_next : path (nxt s) HEAD l HEAD;
  lk_prev : path (prv s) HEAD (reverse l) HEAD
}.

Lemma the_buf_updf i f s j : (i < length (bc_bufs s))%nat ->
  the_buf j (updf i f s) = if decide (j = i) then f (the_buf j s) else the_buf j s.
Proof.
  intros Hi. unfold the_buf, updf. cbn. case_decide as E.
  - subst. by rewrite list_lookup_total_alter_eq.
  - by rewrite list_lookup_total_alter_ne.
Qed.

Lemma updf_len i f s : length (bc_bufs (updf i f s)) = length (bc_bufs s).
Proof. apply length_alter. Qed.

(** Everything of a buffer but its links. *)
Definition content (b : buf) : bool * Z * Z * sleeplock * Z * block :=
  (b_valid b, b_dev b, b_blockno b, b_lock b, b_refcnt b, b_data b).

Lemma linked_idx s l i : linked s l -> i ∈ l <-> (i < NBUF)%nat.
Proof. intros [_ Hp _ _]. rewrite Hp, elem_of_seq. lia. Qed.

Lemma linked_nodup s l : linked s l -> NoDup (HEAD :: l).
Proof.
  intros Hl. pose proof (lk_perm _ _ Hl) as Hp. constructor.
  - rewrite Hp, elem_of_seq. unfold HEAD. lia.
  - rewrite Hp. apply NoDup_seq.
Qed.

(** An update that keeps the links. *)
Lemma linked_updf s l i f : linked s l -> (forall b, b_next (f b) = b_next b /\ b_prev (f b) = b_prev b) ->
  (i < S NBUF)%nat -> linked (updf i f s) l.
Proof.
  intros Hl Hf Hi. pose proof (lk_len _ _ Hl) as Hlen. split.
  - by rewrite updf_len.
  - apply Hl.
  - eapply path_ext; [|apply (lk_next _ _ Hl)]. intros x _. unfold nxt.
    rewrite the_buf_updf by lia. case_decide; [apply Hf|done].
  - eapply path_ext; [|apply (lk_prev _ _ Hl)]. intros x _. unfold prv.
    rewrite the_buf_updf by lia. case_decide; [apply Hf|done].
Qed.

(** The pointer operations of [brelse]: unlink, then link at the head. *)
Definition unlink (b : nat) (s : bst) : bst :=
  let x := the_buf b s in
  updf (b_prev x) (set_next (b_next x)) (updf (b_next x) (set_prev (b_prev x)) s).
Definition push_front (b : nat) (s : bst) : bst :=
  let n0 := nxt s HEAD in
  updf HEAD (set_next b) (updf n0 (set_prev b) (updf b (set_prev HEAD) (updf b (set_next n0) s))).

Lemma head_last {A} (l : list A) : head (reverse l) = last l.
Proof.
  destruct (last l) as [x|] eqn:E.
  - apply last_Some in E as [l' ->]. by rewrite reverse_app.
  - apply last_None in E as ->. done.
Qed.

Lemma linked_neighbours s l1 b l2 : linked s (l1 ++ b :: l2) ->
  b_next (the_buf b s) = default HEAD (head l2) /\ b_prev (the_buf b s) = default HEAD (last l1).
Proof.
  intros [_ _ Hn Hp]. split.
  - by apply path_at in Hn.
  - rewrite reverse_app, reverse_cons, <- app_assoc in Hp. cbn in Hp. apply path_at in Hp.
    by rewrite head_last in Hp.
Qed.

Lemma neighbour_range s l1 b l2 : linked s (l1 ++ b :: l2) ->
  (default HEAD (head l2) < S NBUF)%nat /\ (default HEAD (last l1) < S NBUF)%nat /\ (b < NBUF)%nat.
Proof.
  intros Hl. assert (forall i, i ∈ l1 ++ b :: l2 -> (i < NBUF)%nat) as Hi by (intros i; by apply (linked_idx s)).
  split_and!.
  - destruct l2 as [|x l2]; cbn; [unfold HEAD; lia|]. specialize (Hi x ltac:(set_solver)). lia.
  - destruct (last l1) as [x|] eqn:E; cbn; [|unfold HEAD; lia].
    apply last_Some_elem_of in E. specialize (Hi x ltac:(set_solver)). lia.
  - apply Hi. set_solver.
Qed.

(** After [unlink] the cycle is the one of the others. *)
Lemma unlink_paths s l1 b l2 : linked s (l1 ++ b :: l2) ->
  path (nxt (unlink b s)) HEAD (l1 ++ l2) HEAD /\
  path (prv (unlink b s)) HEAD (reverse (l1 ++ l2)) HEAD.
Proof.
  intros Hl. pose proof (linked_neighbours _ _ _ _ Hl) as [En Ep].
  pose proof (neighbour_range _ _ _ _ Hl) as (Hn & Hp & Hb). pose proof (lk_len _ _ Hl) as Hlen.
  pose proof (linked_nodup _ _ Hl) as Hnd. unfold unlink. rewrite En, Ep. split.
  - eapply path_remove; [apply (lk_next _ _ Hl)|done|]. intros y Hy. unfold nxt at 1.
    rewrite the_buf_updf by (rewrite updf_len; lia). case_decide as E; cbn; [by rewrite <- En|].
    rewrite the_buf_updf by lia. by case_decide.
  - rewrite reverse_app. pose proof (lk_prev _ _ Hl) as Hpp.
    rewrite reverse_app, reverse_cons, <- app_assoc in Hpp. cbn in Hpp.
    eapply path_remove; [exact Hpp| |].
    + apply NoDup_cons in Hnd as [H1 H2]. constructor; [set_solver|].
      change (NoDup (reverse l2 ++ [b] ++ reverse l1)). rewrite app_assoc, <- reverse_cons, <- reverse_app.
      by rewrite reverse_Permutation.
    + intros y Hy. unfold prv at 1. rewrite the_buf_updf by (rewrite updf_len; lia).
      assert (last (reverse l2) = head l2) as El by (by rewrite <- head_last, reverse_involutive).
      rewrite El. case_decide as E1; cbn; rewrite the_buf_updf by lia; case_decide; cbn; try done;
        by rewrite <- Ep.
Qed.

Lemma brelse_links s l1 b l2 : linked s (l1 ++ b :: l2) ->
  linked (push_front b (unlink b s)) (b :: l1 ++ l2).
Proof.
  intros Hl. destruct (unlink_paths _ _ _ _ Hl) as [Hn Hp].
  pose proof (neighbour_range _ _ _ _ Hl) as (Hr1 & Hr2 & Hb). pose proof (lk_len _ _ Hl) as Hlen.
  pose proof (linked_nodup _ _ Hl) as Hnd.
  set (s1 := unlink b s) in *. assert (length (bc_bufs s1) = S NBUF) as Hlen1
    by (unfold s1, unlink; by rewrite !updf_len).
  assert (nxt s1 HEAD = default HEAD (head (l1 ++ l2))) as En0 by (by apply path_first in Hn).
  assert (NoDup (HEAD :: l1 ++ l2) /\ b ∉ HEAD :: l1 ++ l2) as [Hnd1 Hbn].
  { apply NoDup_cons in Hnd as [H1 H2]. apply NoDup_app in H2 as (H2 & H3 & H4).
    apply NoDup_cons in H4 as [H4 H5]. split.
    - constructor; [set_solver|]. apply NoDup_app. split_and!; [done|set_solver|done].
    - assert (b ∉ l1) by (intros Hx; specialize (H3 b Hx); set_solver). set_solver. }
  assert (default HEAD (head (l1 ++ l2)) < S NBUF)%nat as Hr0.
  { destruct (l1 ++ l2) as [|x l] eqn:E; cbn; [unfold HEAD; lia|].
    assert (x ∈ l1 ++ b :: l2) as Hx by (assert (x ∈ l1 ++ l2) by (rewrite E; set_solver); set_solver).
    apply (linked_idx s) in Hx; [lia|done]. }
  assert (HEAD < S NBUF)%nat as HH by (unfold HEAD; lia).
  assert (forall y, the_buf y (push_front b s1) =
    (if decide (y = HEAD) then set_next b else id)
      ((if decide (y = default HEAD (head (l1 ++ l2))) then set_prev b else id)
        ((if decide (y = b) then set_prev HEAD ∘ set_next (nxt s1 HEAD) else id) (the_buf y s1)))) as Hbuf.
  { intros y. unfold push_front. cbv zeta. rewrite <- En0 in *.
    rewrite !the_buf_updf by (rewrite ?updf_len; lia). by repeat case_decide. }
  split.
  - unfold push_front. by rewrite !updf_len.
  - rewrite <- (lk_perm _ _ Hl). by rewrite Permutation_middle.
  - eapply path_push; [exact Hn| | |].
    + unfold nxt at 1. rewrite Hbuf. by rewrite decide_True.
    + unfold nxt at 1. rewrite Hbuf. rewrite decide_False by set_solver.
      cbn [id]. rewrite (decide_True (P := b = b)) by done. by case_decide.
    + intros y Hy. unfold nxt. rewrite Hbuf. rewrite (decide_False (P := y = HEAD)), (decide_False (P := y = b)).
      * by case_decide.
      * set_solver.
      * apply NoDup_cons in Hnd1 as [? _]. set_solver.
  - rewrite reverse_cons. assert (last (reverse (l1 ++ l2)) = head (l1 ++ l2)) as El
      by (by rewrite <- head_last, reverse_involutive).
    assert (NoDup (HEAD :: reverse (l1 ++ l2))) as Hndr.
    { apply NoDup_cons in Hnd1 as [H1 H2]. constructor; [set_solver|by rewrite reverse_Permutation]. }
    eapply path_snoc; [exact Hp|done| | |]; rewrite ?El.
    + unfold prv. rewrite Hbuf. rewrite (decide_True (P := default HEAD _ = default HEAD _)) by done.
      by case_decide.
    + unfold prv. rewrite Hbuf. rewrite (decide_True (P := b = b)) by done.
      rewrite (decide_False (P := b = default HEAD _)).
      * by case_decide.
      * intros E. apply Hbn. rewrite E. destruct (l1 ++ l2) as [|x l] eqn:E'; cbn; set_solver.
    + intros y Hy Hne. unfold prv. rewrite Hbuf. rewrite (decide_False (P := y = default HEAD _)) by done.
      rewrite (decide_False (P := y = b)).
      * by case_decide.
      * intros ->. set_solver.
Qed.

(** * The cache implements the block store *)

Definition sl_of (locked : bool) (pid : Z) : sleeplock := if locked then mkSleep 1 pid else mkSleep 0 0.

(** Buffer [i] holds block [n]. *)
Definition holds (i : nat) (n : Z) (s : bst) : Prop :=
  b_dev (the_buf i s) = ROOTDEV /\ b_blockno (the_buf i s) = n.

(** The buffer of a block in use. *)
Definition live_buf (n : Z) (lv : live) (pid : Z) (b : buf) : Prop :=
  b_dev b = ROOTDEV /\ b_blockno b = n /\ b_valid b = true /\ b_refcnt b = lv_cnt lv /\
  0 < lv_cnt lv < 2 ^ 32 /\ b_data b = lv_data lv /\ b_lock b = sl_of (lv_locked lv) pid.

(** A buffer nobody uses. *)
Definition idle_buf (d : gmap Z block) (b : buf) : Prop :=
  b_refcnt b = 0 /\ b_lock b = mkSleep 0 0 /\
  (b_dev b = ROOTDEV -> b_valid b = true -> b_data b = on_disk (b_blockno b) d).

Record cinv (s : bst) (st : store) : Prop := {
  ci_disk : bc_disk s = st_disk st;
  ci_writes : bc_writes s = st_writes st;
  ci_uniq i j n : (i < NBUF)%nat -> (j < NBUF)%nat -> holds i n s -> holds j n s -> i = j;
  ci_live n lv : st_live st !! n = Some lv ->
    (lv_h lv < NBUF)%nat /\ live_buf n lv (bc_pid s) (the_buf (lv_h lv) s);
  ci_idle i : (i < NBUF)%nat ->
    idle_buf (bc_disk s) (the_buf i s) \/ exists n lv, st_live st !! n = Some lv /\ lv_h lv = i
}.

Definition bio_rel (s : bst) (st : store) : Prop := exists l, linked s l /\ cinv s st.

(** Different blocks have different buffers. *)
Lemma live_inj s st n n' lv lv' : cinv s st -> st_live st !! n = Some lv -> st_live st !! n' = Some lv' ->
  lv_h lv = lv_h lv' -> n = n'.
Proof.
  intros Hc H1 H2 E. destruct (ci_live _ _ Hc _ _ H1) as [_ (_ & <- & _)].
  destruct (ci_live _ _ Hc _ _ H2) as [_ (_ & <- & _)]. by rewrite E.
Qed.

(** An update of the buffer of block [n] that keeps it the buffer of [n]. *)
Lemma cinv_upd s st n lv lv' f :
  cinv s st -> length (bc_bufs s) = S NBUF -> st_live st !! n = Some lv -> lv_h lv' = lv_h lv ->
  live_buf n lv' (bc_pid s) (f (the_buf (lv_h lv) s)) ->
  cinv (updf (lv_h lv) f s) (set_live n lv' st).
Proof.
  intros Hc Hlen Hn Eh Hf. destruct (ci_live _ _ Hc _ _ Hn) as [Hh Hb].
  assert (forall j, the_buf j (updf (lv_h lv) f s) =
    if decide (j = lv_h lv) then f (the_buf j s) else the_buf j s) as Hbuf
    by (intros j; apply the_buf_updf; lia).
  assert (forall j m, holds j m (updf (lv_h lv) f s) <-> holds j m s) as Hholds.
  { intros j m. unfold holds. rewrite Hbuf. case_decide as E; [subst j|done].
    destruct Hb as (-> & -> & _), Hf as (-> & -> & _). done. }
  split.
  - apply Hc.
  - apply Hc.
  - intros i j m Hi Hj. rewrite !Hholds. by apply (ci_uniq _ _ Hc).
  - intros m lm. cbn. rewrite lookup_insert_Some. intros [[<- <-]|[Hne Hm]].
    + rewrite Eh, Hbuf. by rewrite decide_True.
    + rewrite Hbuf, decide_False; [by apply (ci_live _ _ Hc)|]. intros E. apply Hne.
      by apply (live_inj s st n m lv lm).
  - intros i Hi. rewrite Hbuf. case_decide as E; [subst i|].
    + right. exists n, lv'. cbn. by rewrite lookup_insert_eq.
    + destruct (ci_idle _ _ Hc i Hi) as [Hid|(m & lm & Hm & Em)]; [by left|right].
      exists m, lm. split; [|done]. cbn. rewrite lookup_insert_ne; [done|].
      intros ->. rewrite Hn in Hm. injection Hm as <-. done.
Qed.

Lemma bio_upd s st n lv lv' f :
  bio_rel s st -> st_live st !! n = Some lv -> lv_h lv' = lv_h lv ->
  (forall b, b_next (f b) = b_next b /\ b_prev (f b) = b_prev b) ->
  live_buf n lv' (bc_pid s) (f (the_buf (lv_h lv) s)) ->
  bio_rel (updf (lv_h lv) f s) (set_live n lv' st).
Proof.
  intros (l & Hl & Hc) Hn Eh Hlk Hf. exists l. destruct (ci_live _ _ Hc _ _ Hn) as [Hh _]. split.
  - apply linked_updf; [done|done|lia].
  - eapply cinv_upd; try done. apply Hl.
Qed.

(** ** The searches *)

Lemma find_cached_ok s dev n l : forall a fuel,
  path (nxt s) a l HEAD -> HEAD ∉ l -> (length l < fuel)%nat ->
  (exists i, i ∈ l /\ b_dev (the_buf i s) = dev /\ b_blockno (the_buf i s) = n /\
     find_cached fuel (nxt s a) dev n s = Ok (Some i) s) \/
  ((forall i, i ∈ l -> ~ (b_dev (the_buf i s) = dev /\ b_blockno (the_buf i s) = n)) /\
     find_cached fuel (nxt s a) dev n s = Ok None s).
Proof.
  induction l as [|x l IH]; intros a [|fuel] Hp Hh Hf; cbn [length] in Hf; try lia; cbn [find_cached].
  - right. cbn in Hp. split; [set_solver|]. by rewrite Hp.
  - destruct Hp as [-> Hp]. destruct (Nat.eqb_spec x HEAD); [set_solver|]. mstep.
    destruct (Z.eqb_spec (b_dev (the_buf x s)) dev) as [E1|E1];
      [destruct (Z.eqb_spec (b_blockno (the_buf x s)) n) as [E2|E2]|]; cbn [andb].
    + left. exists x. split_and!; try done. set_solver.
    + destruct (IH x fuel Hp ltac:(set_solver) ltac:(lia)) as [(i & Hi & ? & ? & E)|[Hno E]].
      * left. exists i. split_and!; [set_solver|done..].
      * right. split; [|exact E]. intros i [->|Hi]%elem_of_cons; [naive_solver|by apply Hno].
    + destruct (IH x fuel Hp ltac:(set_solver) ltac:(lia)) as [(i & Hi & ? & ? & E)|[Hno E]].
      * left. exists i. split_and!; [set_solver|done..].
      * right. split; [|exact E]. intros i [->|Hi]%elem_of_cons; [naive_solver|by apply Hno].
Qed.

(** The backward search finds the least recently used buffer that is free. *)
Lemma find_unused_ok s l : forall a fuel,
  path (prv s) a l HEAD -> HEAD ∉ l -> (length l < fuel)%nat ->
  find_unused fuel (prv s a) s =
  Ok (head (filter (fun i => b_refcnt (the_buf i s) = 0) l)) s.
Proof.
  induction l as [|x l IH]; intros a [|fuel] Hp Hh Hf; cbn [length] in Hf; try lia; cbn [find_unused].
  - cbn in Hp. by rewrite Hp.
  - destruct Hp as [-> Hp]. destruct (Nat.eqb_spec x HEAD); [set_solver|]. mstep.
    rewrite filter_cons. destruct (Z.eqb_spec (b_refcnt (the_buf x s)) 0) as [E|E].
    + by rewrite decide_True.
    + rewrite decide_False by done. apply (IH x fuel); [done|set_solver|lia].
Qed.

(** ** bread *)

Lemma updf_updf i f g s : updf i f (updf i g s) = updf i (f ∘ g) s.
Proof. unfold updf, with_bufs. cbn. f_equal. apply list_alter_alter_eq. Qed.

Lemma the_buf_updf_eq i f s : (i < length (bc_bufs s))%nat -> the_buf i (updf i f s) = f (the_buf i s).
Proof. intros Hi. rewrite the_buf_updf by done. by rewrite decide_True. Qed.

(** The end of [bget] and [bread], after buffer [b] has been chosen and
    updated by [g]. *)
Definition bread_fin (pid : Z) (d : gmap Z block) (x : buf) : buf :=
  let y := set_lock (mkSleep 1 pid) x in
  if b_valid y then y else set_valid true (set_data (on_disk (b_blockno y) d) y).

Lemma bread_fin_run s b : (b < length (bc_bufs s))%nat -> b_lock (the_buf b s) = mkSleep 0 0 ->
  (acquiresleep b;;
   x ← gets (the_buf b);
   (if negb (b_valid x) then virtio_disk_rw b false;; upd b (set_valid true) else mret tt);;
   mret b) s = Ok b (updf b (fun _ => bread_fin (bc_pid s) (bc_disk s) (the_buf b s)) s).
Proof.
  intros Hb Hl. unfold acquiresleep. mstep. rewrite bind_assoc. mstep. rewrite Hl. cbn [sl_locked].
  change (negb (0 =? 0)) with false. cbv iota. rewrite bind_assoc. mstep. unfold upd. mstep.
  set (s1 := updf b _ s).
  assert (the_buf b s1 = set_lock (mkSleep 1 (bc_pid s)) (the_buf b s)) as E1 by by apply the_buf_updf_eq.
  assert (length (bc_bufs s1) = length (bc_bufs s)) as L1 by apply updf_len.
  assert (forall f g, f (the_buf b s) = g (the_buf b s) -> updf b f s = updf b g s) as Hext.
  { intros f g E. unfold updf. f_equal. apply list_eq. intros j. destruct (decide (j = b)) as [->|].
    - rewrite !list_lookup_alter_eq. unfold the_buf in E.
      destruct (bc_bufs s !! b) as [y|] eqn:Ey; [|done].
      rewrite (list_lookup_total_correct _ _ _ Ey) in E. cbn. by rewrite E.
    - by rewrite !list_lookup_alter_ne. }
  rewrite E1. cbn [b_valid set_lock]. unfold bread_fin. cbv zeta. cbn [b_valid set_lock].
  destruct (b_valid (the_buf b s)) eqn:Ev; cbn [negb].
  - mstep. unfold mret, M_ret. apply (f_equal (Ok b)), Hext. done.
  - unfold virtio_disk_rw, upd. mstep. unfold mret, M_ret. apply (f_equal (Ok b)). rewrite E1.
    change (bc_disk s1) with (bc_disk s). unfold s1. rewrite !updf_updf. by apply Hext.
Qed.

(** A free buffer [i] becomes the buffer of block [n]. *)
Lemma cinv_new s st n i f lv :
  cinv s st -> length (bc_bufs s) = S NBUF -> (i < NBUF)%nat -> idle_buf (bc_disk s) (the_buf i s) ->
  (forall j, (j < NBUF)%nat -> holds j n s -> j = i) -> st_live st !! n = None -> lv_h lv = i ->
  live_buf n lv (bc_pid s) (f (the_buf i s)) -> cinv (updf i f s) (set_live n lv st).
Proof.
  intros Hc Hlen Hi Hidle Hno Hn Eh Hf.
  assert (forall j, the_buf j (updf i f s) = if decide (j = i) then f (the_buf j s) else the_buf j s) as Hbuf
    by (intros j; apply the_buf_updf; lia).
  assert (forall m lm, st_live st !! m = Some lm -> lv_h lm <> i) as Hoth.
  { intros m lm Hm E. destruct (ci_live _ _ Hc _ _ Hm) as [_ (_ & _ & _ & Hr & Hpos & _)].
    rewrite E in Hr. destruct Hidle as [Hr0 _]. lia. }
  split.
  - apply Hc.
  - apply Hc.
  - intros j j' m Hj Hj' H1 H2. unfold holds in H1, H2. rewrite Hbuf in H1, H2.
    destruct Hf as (Hd & Hb & _).
    destruct (decide (j = i)) as [E1|E1], (decide (j' = i)) as [E2|E2]; [congruence| | |].
    + destruct H1 as [_ H1]. rewrite E1, Hb in H1. rewrite E1. symmetry. apply Hno; [done|by rewrite H1].
    + destruct H2 as [_ H2]. rewrite E2, Hb in H2. rewrite E2. apply Hno; [done|by rewrite H2].
    + by apply (ci_uniq _ _ Hc j j' m).
  - intros m lm. cbn. rewrite lookup_insert_Some. intros [[<- <-]|[Hne Hm]].
    + rewrite Eh, Hbuf. by rewrite decide_True.
    + rewrite Hbuf, decide_False by (by eapply Hoth). by apply (ci_live _ _ Hc).
  - intros j Hj. rewrite Hbuf. case_decide as E.
    + right. exists n, lv. cbn. rewrite lookup_insert_eq. by subst.
    + destruct (ci_idle _ _ Hc j Hj) as [?|(m & lm & Hm & Em)]; [by left|right].
      exists m, lm. split; [|done]. cbn. rewrite lookup_insert_ne; [done|]. congruence.
Qed.

(** With fewer than [NBUF] blocks in use some buffer is free. *)
Lemma some_idle s st l : linked s l -> cinv s st -> (size (st_live st) < NBUF)%nat ->
  exists i, head (filter (fun i => b_refcnt (the_buf i s) = 0) (reverse l)) = Some i /\
    (i < NBUF)%nat /\ idle_buf (bc_disk s) (the_buf i s).
Proof.
  intros Hl Hc Hsz.
  assert (forall i, (i < NBUF)%nat -> b_refcnt (the_buf i s) = 0 -> idle_buf (bc_disk s) (the_buf i s)) as Hid.
  { intros i Hi Hr. destruct (ci_idle _ _ Hc i Hi) as [?|(m & lm & Hm & Em)]; [done|].
    destruct (ci_live _ _ Hc _ _ Hm) as [_ (_ & _ & _ & Hr' & Hpos & _)]. rewrite Em in Hr'. lia. }
  destruct (filter (fun i => b_refcnt (the_buf i s) = 0) (reverse l)) as [|i fl] eqn:E.
  - exfalso. assert (forall i, (i < NBUF)%nat -> exists lv, st_live st !! b_blockno (the_buf i s) = Some lv /\ lv_h lv = i) as Hall.
    { intros i Hi. destruct (ci_idle _ _ Hc i Hi) as [[Hr _]|(m & lm & Hm & Em)].
      - assert (i ∈ filter (fun i => b_refcnt (the_buf i s) = 0) (reverse l)) as Hin.
        { apply list_elem_of_filter. split; [done|]. rewrite elem_of_reverse. by apply (linked_idx s). }
        rewrite E in Hin. set_solver.
      - exists lm. destruct (ci_live _ _ Hc _ _ Hm) as [_ (_ & Hb & _)]. rewrite Em in Hb. by rewrite Hb. }
    set (ks := (fun i => b_blockno (the_buf i s)) <$> seq 0 NBUF).
    assert (NoDup ks) as Hnd.
    { apply NoDup_fmap_2_strong; [|apply NoDup_seq]. intros i j Hi Hj Eij.
      apply elem_of_seq in Hi, Hj. destruct (Hall i ltac:(lia)) as (li & Hli & <-).
      destruct (Hall j ltac:(lia)) as (lj & Hlj & <-). rewrite Eij in Hli. congruence. }
    assert ((list_to_set ks : gset Z) ⊆ dom (st_live st)) as Hsub.
    { intros k. rewrite elem_of_list_to_set, elem_of_dom. intros (i & -> & Hi)%list_elem_of_fmap.
      apply elem_of_seq in Hi. destruct (Hall i ltac:(lia)) as (lv & Hlv & _). by rewrite Hlv. }
    apply subseteq_size in Hsub. rewrite size_dom, size_list_to_set in Hsub by done.
    unfold ks in Hsub. rewrite length_fmap, length_seq in Hsub. lia.
  - exists i. assert (i ∈ filter (fun i => b_refcnt (the_buf i s) = 0) (reverse l)) as Hin by (rewrite E; set_solver).
    apply list_elem_of_filter in Hin as [Hr Hin]. rewrite elem_of_reverse in Hin.
    apply (linked_idx s) in Hin; [|done]. split_and!; [done|done|by apply Hid].
Qed.

(** [bread], once [bget] has chosen buffer [b] and updated it with [g]. *)
Definition bread_rest (b : nat) : M bst nat :=
  x ← gets (the_buf b);
  (if negb (b_valid x) then virtio_disk_rw b false;; upd b (set_valid true) else mret tt);;
  mret b.

Lemma bread_chosen s b g : (b < length (bc_bufs s))%nat -> b_lock (g (the_buf b s)) = mkSleep 0 0 ->
  ((acquiresleep b;; mret b) ≫= bread_rest) (updf b g s) =
  Ok b (updf b (bread_fin (bc_pid s) (bc_disk s) ∘ g) s).
Proof.
  intros Hb Hl. rewrite bind_assoc. etransitivity;
    [|etransitivity; [apply (bread_fin_run (updf b g s) b)|]].
  - reflexivity.
  - by rewrite updf_len.
  - by rewrite the_buf_updf_eq.
  - apply (f_equal (Ok b)). rewrite updf_updf, the_buf_updf_eq by done. unfold updf. f_equal. apply list_eq. intros j.
    destruct (decide (j = b)) as [->|]; [|by rewrite !list_lookup_alter_ne].
    rewrite !list_lookup_alter_eq. destruct (bc_bufs s !! b) as [y|] eqn:Ey; [|done]. cbn. f_equal.
    unfold the_buf. by rewrite (list_lookup_total_correct _ _ _ Ey).
Qed.

Lemma bread_fin_links pid d b :
  b_next (bread_fin pid d b) = b_next b /\ b_prev (bread_fin pid d b) = b_prev b.
Proof. unfold bread_fin. cbn. by destruct (b_valid b). Qed.

Lemma linked_free_len s l : linked s l -> HEAD ∉ l /\ (length l < S NBUF)%nat.
Proof.
  intros Hl. split; [pose proof (linked_nodup _ _ Hl) as Hnd; by apply NoDup_cons in Hnd as [? _]|].
  rewrite (lk_perm _ _ Hl), length_seq. lia.
Qed.

Lemma bread_ok s st n : bio_rel s st -> can_read n st ->
  exists h s', bread ROOTDEV n s = Ok h s' /\ bio_rel s' (take_ref n h st) /\
    match st_live st !! n with Some lv => h = lv_h lv | None => True end.
Proof.
  intros (l & Hl & Hc) Hcan. destruct (linked_free_len _ _ Hl) as [Hh Hlen].
  pose proof (lk_len _ _ Hl) as Hbl. unfold bread. fold bread_rest. unfold bget. rewrite bind_assoc. mstep.
  rewrite bind_assoc. change (b_next (the_buf HEAD s)) with (nxt s HEAD).
  assert (forall i, i ∈ l -> (i < NBUF)%nat) as Hidx by (intros i; by apply (linked_idx s)).
  unfold can_read, take_ref in *.
  assert (forall i, idle_buf (bc_disk s) (the_buf i s) -> (i < NBUF)%nat -> st_live st !! n = None ->
    (forall j, (j < NBUF)%nat -> holds j n s -> j = i) ->
    forall g, live_buf n (mkLive i 1 (on_disk n (st_disk st)) true) (bc_pid s)
                (bread_fin (bc_pid s) (bc_disk s) (g (the_buf i s))) ->
      (forall b, b_next (g b) = b_next b /\ b_prev (g b) = b_prev b) ->
      bio_rel (updf i (bread_fin (bc_pid s) (bc_disk s) ∘ g) s)
        (set_live n (mkLive i 1 (on_disk n (st_disk st)) true) st)) as Hnew.
  { intros i Hid Hi Hn Hno g Hg Hgl. exists l. split.
    - apply linked_updf; [done| |lia]. intros b. cbn. destruct (bread_fin_links (bc_pid s) (bc_disk s) (g b)) as [-> ->].
      apply Hgl.
    - by apply cinv_new. }
  destruct (find_cached_ok s ROOTDEV n l HEAD (S NBUF) (lk_next _ _ Hl) Hh Hlen)
    as [(i & Hi & Hd & Hbn & E)|[Hno E]].
  - mrun E. unfold upd. rewrite bind_assoc. mstep. apply Hidx in Hi.
    destruct (st_live st !! n) as [lv|] eqn:En.
    + destruct (ci_live _ _ Hc _ _ En) as [Hlh (E1 & E2 & E3 & E4 & E5 & E6 & E7)].
      assert (i = lv_h lv) as -> by (apply (ci_uniq _ _ Hc i (lv_h lv) n); done).
      destruct Hcan as [Hul Hcnt]. rewrite Hul in E7. cbn in E7.
      rewrite bread_chosen by first [lia|done]. eexists _, _. split; [done|]. split; [|done].
      apply (bio_upd s st n lv); [by exists l|done|done| |].
      * intros b. apply (bread_fin_links _ _ (set_refcnt _ b)).
      * unfold bread_fin. cbn. rewrite E3. unfold live_buf. cbn. split_and!; try done; try lia.
        rewrite E4. apply u32_small. lia.
    + assert (idle_buf (bc_disk s) (the_buf i s)) as Hid.
      { destruct (ci_idle _ _ Hc i Hi) as [?|(m & lm & Hm & Em)]; [done|].
        destruct (ci_live _ _ Hc _ _ Hm) as [_ (_ & Hmb & _)]. rewrite Em, Hbn in Hmb. congruence. }
      pose proof Hid as (Hr & Hlk & Hcl).
      rewrite bread_chosen by first [lia|done]. eexists _, _. split; [done|]. split; [|done].
      apply Hnew; [done|done|done| | |done].
      * intros j Hj Hjn. by apply (ci_uniq _ _ Hc j i n).
      * unfold bread_fin. cbn. destruct (b_valid (the_buf i s)) eqn:Ev; unfold live_buf; cbn;
          rewrite Hr; split_and!; try done.
        -- rewrite Hcl by done. by rewrite Hbn, (ci_disk _ _ Hc).
        -- by rewrite Hbn, (ci_disk _ _ Hc).
  - mrun E. rewrite bind_assoc. mstep. rewrite bind_assoc.
    change (b_prev (the_buf HEAD s)) with (prv s HEAD).
    assert (forall j, (j < NBUF)%nat -> ~ holds j n s) as Hnoh.
    { intros j Hj Hjn. apply (Hno j); [by apply (linked_idx s)|done]. }
    destruct (st_live st !! n) as [lv|] eqn:En.
    { exfalso. destruct (ci_live _ _ Hc _ _ En) as [Hlh (E1 & E2 & _)]. by apply (Hnoh (lv_h lv)). }
    destruct (some_idle s st l Hl Hc Hcan) as (i & Ei & Hi & Hid).
    assert (find_unused (S NBUF) (prv s HEAD) s = Ok (Some i) s) as Ef.
    { rewrite <- Ei. apply find_unused_ok; [apply Hl|by rewrite elem_of_reverse|by rewrite length_reverse]. }
    mrun Ef. unfold upd. rewrite bind_assoc. mstep. rewrite bind_assoc. mstep. rewrite bind_assoc. mstep.
    rewrite !updf_updf. pose proof Hid as (Hr & Hlk & Hcl).
    rewrite bread_chosen by first [lia|done]. eexists _, _. split; [done|]. split; [|done].
    apply Hnew; [done|done|done| | |done].
    + intros j Hj Hjn. by destruct (Hnoh j Hj).
    + unfold bread_fin, live_buf. cbn. split_and!; try done. by rewrite (ci_disk _ _ Hc).
Qed.

(** ** The other operations *)

Lemma locked_holding s st n lv : cinv s st -> st_live st !! n = Some lv -> lv_locked lv = true ->
  holdingsleep (lv_h lv) s = true.
Proof.
  intros Hc Hn Hlk. destruct (ci_live _ _ Hc _ _ Hn) as [_ (_ & _ & _ & _ & _ & _ & E)].
  unfold holdingsleep. rewrite E, Hlk. cbn. by rewrite Z.eqb_refl.
Qed.

Lemma bwrite_ok s st n lv : bio_rel s st -> st_live st !! n = Some lv -> lv_locked lv = true ->
  exists s', bwrite (lv_h lv) s = Ok tt s' /\ bio_rel s' (put_disk n (lv_data lv) st).
Proof.
  intros (l & Hl & Hc) Hn Hlk. unfold bwrite. mstep. rewrite (locked_holding _ _ _ _ Hc Hn Hlk).
  unfold virtio_disk_rw. mstep. eexists. split; [done|]. exists l.
  destruct (ci_live _ _ Hc _ _ Hn) as [Hh (E1 & E2 & E3 & E4 & E5 & E6 & E7)]. rewrite E2, E6. split.
  - destruct Hl as [? ? ? ?]. by split.
  - split; cbn.
    + by rewrite (ci_disk _ _ Hc).
    + by rewrite (ci_writes _ _ Hc).
    + apply (ci_uniq _ _ Hc).
    + apply (ci_live _ _ Hc).
    + intros i Hi. destruct (ci_idle _ _ Hc i Hi) as [(Hr & Hs & Hd)|?]; [left|by right].
      split_and!; [done|done|]. intros Hdev Hv. etransitivity; [exact (Hd Hdev Hv)|]. unfold on_disk.
      rewrite lookup_insert_ne; [done|]. intros Hin.
      assert (i = lv_h lv) as -> by (apply (ci_uniq _ _ Hc i (lv_h lv) n); done).
      change (b_refcnt (the_buf (lv_h lv) s) = 0) in Hr. lia.
Qed.

Lemma fill_ok s st n lv d : bio_rel s st -> st_live st !! n = Some lv -> lv_locked lv = true ->
  exists s', upd (lv_h lv) (set_data d) s = Ok tt s' /\
    bio_rel s' (set_live n (mkLive (lv_h lv) (lv_cnt lv) d true) st).
Proof.
  intros HR Hn Hlk. eexists. split; [done|]. apply bio_upd; [done|done|done|done|].
  destruct HR as (l & _ & Hc). destruct (ci_live _ _ Hc _ _ Hn) as [_ (E1 & E2 & E3 & E4 & E5 & E6 & E7)].
  unfold live_buf. cbn. rewrite Hlk in E7. split_and!; done || lia.
Qed.

Lemma bpin_ok s st n lv : bio_rel s st -> st_live st !! n = Some lv -> lv_cnt lv + 1 < 2 ^ 32 ->
  exists s', bpin (lv_h lv) s = Ok tt s' /\
    bio_rel s' (set_live n (mkLive (lv_h lv) (lv_cnt lv + 1) (lv_data lv) (lv_locked lv)) st).
Proof.
  intros HR Hn Hb. eexists. split; [done|]. apply bio_upd; [done|done|done|done|].
  destruct HR as (l & _ & Hc). destruct (ci_live _ _ Hc _ _ Hn) as [_ (E1 & E2 & E3 & E4 & E5 & E6 & E7)].
  unfold live_buf. cbn. split_and!; try done; try lia. rewrite E4. apply u32_small. lia.
Qed.

Lemma bunpin_ok s st n lv : bio_rel s st -> st_live st !! n = Some lv -> 1 < lv_cnt lv ->
  exists s', bunpin (lv_h lv) s = Ok tt s' /\
    bio_rel s' (set_live n (mkLive (lv_h lv) (lv_cnt lv - 1) (lv_data lv) (lv_locked lv)) st).
Proof.
  intros HR Hn Hb. eexists. split; [done|]. apply bio_upd; [done|done|done|done|].
  destruct HR as (l & _ & Hc). destruct (ci_live _ _ Hc _ _ Hn) as [_ (E1 & E2 & E3 & E4 & E5 & E6 & E7)].
  unfold live_buf. cbn. split_and!; try done; try lia. rewrite E4. apply u32_small. lia.
Qed.

(** The links are not part of the content. *)
Lemma content_updf i f s j : (forall b, content (f b) = content b) ->
  content (the_buf j (updf i f s)) = content (the_buf j s).
Proof.
  intros Hf. unfold the_buf, updf. cbn. destruct (decide (j = i)) as [->|].
  - destruct (decide (i < length (bc_bufs s))%nat).
    + by rewrite list_lookup_total_alter_eq.
    + rewrite !list_lookup_total_alt, list_lookup_alter_eq.
      by rewrite (lookup_ge_None_2 (bc_bufs s) i) by lia.
  - by rewrite list_lookup_total_alter_ne.
Qed.

Lemma cinv_content s s' st : cinv s st -> bc_disk s' = bc_disk s -> bc_writes s' = bc_writes s ->
  bc_pid s' = bc_pid s -> (forall j, content (the_buf j s') = content (the_buf j s)) -> cinv s' st.
Proof.
  intros Hc Ed Ew Ep Hcont.
  assert (forall j, b_valid (the_buf j s') = b_valid (the_buf j s) /\ b_dev (the_buf j s') = b_dev (the_buf j s) /\
    b_blockno (the_buf j s') = b_blockno (the_buf j s) /\ b_lock (the_buf j s') = b_lock (the_buf j s) /\
    b_refcnt (the_buf j s') = b_refcnt (the_buf j s) /\ b_data (the_buf j s') = b_data (the_buf j s)) as Hf.
  { intros j. specialize (Hcont j). unfold content in Hcont. by simplify_eq. }
  split.
  - rewrite Ed. apply Hc.
  - rewrite Ew. apply Hc.
  - intros i j n Hi Hj. unfold holds. destruct (Hf i) as (_ & -> & -> & _), (Hf j) as (_ & -> & -> & _).
    by apply (ci_uniq _ _ Hc).
  - intros n lv Hn. destruct (ci_live _ _ Hc n lv Hn) as [Hh Hb]. split; [done|]. unfold live_buf in *.
    destruct (Hf (lv_h lv)) as (-> & -> & -> & -> & -> & ->). by rewrite Ep.
  - intros i Hi. destruct (ci_idle _ _ Hc i Hi) as [Hid|?]; [left|by right]. unfold idle_buf in *.
    destruct (Hf i) as (-> & -> & -> & -> & -> & ->). by rewrite Ed.
Qed.

(** The last reference to a clean block is given back. *)
Lemma cinv_drop s st n lv f : cinv s st -> length (bc_bufs s) = S NBUF -> st_live st !! n = Some lv ->
  idle_buf (bc_disk s) (f (the_buf (lv_h lv) s)) ->
  b_dev (f (the_buf (lv_h lv) s)) = ROOTDEV -> b_blockno (f (the_buf (lv_h lv) s)) = n ->
  cinv (updf (lv_h lv) f s) (drop_live n st).
Proof.
  intros Hc Hlen Hn Hid Hd Hb. destruct (ci_live _ _ Hc _ _ Hn) as [Hh (E1 & E2 & _)].
  assert (forall j, the_buf j (updf (lv_h lv) f s) =
    if decide (j = lv_h lv) then f (the_buf j s) else the_buf j s) as Hbuf
    by (intros j; apply the_buf_updf; lia).
  split.
  - apply Hc.
  - apply Hc.
  - intros i j m Hi Hj. assert (forall i, holds i m (updf (lv_h lv) f s) <-> holds i m s) as Hholds.
    { intros i'. unfold holds. rewrite Hbuf. case_decide as E; [subst i'|done]. by rewrite Hd, Hb, E1, E2. }
    rewrite !Hholds. by apply (ci_uniq _ _ Hc).
  - intros m lm. cbn. rewrite lookup_delete_Some. intros [Hne Hm]. rewrite Hbuf, decide_False.
    + by apply (ci_live _ _ Hc).
    + intros E. apply Hne. symmetry. by apply (live_inj s st m n lm lv).
  - intros i Hi. rewrite Hbuf. case_decide as E; [subst i; by left|].
    destruct (ci_idle _ _ Hc i Hi) as [?|(m & lm & Hm & Em)]; [by left|right]. exists m, lm.
    split; [|done]. cbn. rewrite lookup_delete_ne; [done|]. intros ->. congruence.
Qed.

(** The update [brelse] begins with. *)
Definition unref (x : buf) : buf :=
  let y := set_lock (mkSleep 0 0) x in set_refcnt (u32 (b_refcnt y - 1)) y.

Lemma brelse_run s b : (b < length (bc_bufs s))%nat -> holdingsleep b s = true ->
  brelse b s = Ok tt (if b_refcnt (unref (the_buf b s)) =? 0
                      then push_front b (unlink b (updf b unref s)) else updf b unref s).
Proof.
  intros Hb Hh. unfold brelse. mstep. rewrite Hh. cbn [negb]. unfold releasesleep, upd. mstep.
  rewrite updf_updf. rewrite the_buf_updf_eq by done.
  change (b_refcnt (unref (the_buf b s)) =? 0) with
    (b_refcnt (((fun x => set_refcnt (u32 (b_refcnt x - 1)) x) ∘ set_lock (mkSleep 0 0)) (the_buf b s)) =? 0).
  case_match; [|done]. mstep. unfold modify. f_equal. unfold push_front, unlink, nxt.
  rewrite the_buf_updf_eq by done. reflexivity.
Qed.

Lemma unref_links b : b_next (unref b) = b_next b /\ b_prev (unref b) = b_prev b.
Proof. done. Qed.

Lemma relink_content b s j : content (the_buf j (push_front b (unlink b s))) = content (the_buf j s).
Proof. unfold push_front, unlink. cbv zeta. by rewrite !content_updf. Qed.

(** The order of recency after [brelse] of the last reference. *)
Lemma brelse_order s l b : linked s l -> (b < NBUF)%nat ->
  exists l1 l2, l = l1 ++ b :: l2 /\ linked (push_front b (unlink b s)) (b :: l1 ++ l2).
Proof.
  intros Hl Hb. apply (linked_idx s l b Hl) in Hb. apply list_elem_of_split in Hb as (l1 & l2 & ->).
  exists l1, l2. split; [done|]. by apply brelse_links.
Qed.

Lemma brelse_ok s st n lv : bio_rel s st -> st_live st !! n = Some lv -> lv_locked lv = true ->
  (lv_cnt lv = 1 -> lv_data lv = on_disk n (st_disk st)) ->
  exists s', brelse (lv_h lv) s = Ok tt s' /\
    bio_rel s' (if lv_cnt lv =? 1 then drop_live n st
                else set_live n (mkLive (lv_h lv) (lv_cnt lv - 1) (lv_data lv) false) st).
Proof.
  intros (l & Hl & Hc) Hn Hlk Hcl. pose proof (lk_len _ _ Hl) as Hlen.
  destruct (ci_live _ _ Hc _ _ Hn) as [Hh (E1 & E2 & E3 & E4 & E5 & E6 & E7)].
  rewrite brelse_run; [|lia|by eapply locked_holding]. eexists. split; [done|].
  assert (b_refcnt (unref (the_buf (lv_h lv) s)) = lv_cnt lv - 1) as Er.
  { cbn. rewrite E4. apply u32_small. lia. }
  rewrite Er. destruct (Z.eqb_spec (lv_cnt lv) 1) as [E|E].
  - rewrite E. change (1 - 1 =? 0) with true. cbv iota.
    assert (linked (updf (lv_h lv) unref s) l) as Hl1 by (apply linked_updf; [done|done|lia]).
    destruct (brelse_order _ l (lv_h lv) Hl1 Hh) as (l1 & l2 & -> & Hl2). exists (lv_h lv :: l1 ++ l2).
    split; [done|]. apply cinv_content with (updf (lv_h lv) unref s); try done.
    + apply cinv_drop; try done. split_and!; [lia|done|]. intros _ _. cbn.
      rewrite E6, E2, Hcl by done. by rewrite (ci_disk _ _ Hc).
    + intros j. apply relink_content.
  - destruct (Z.eqb_spec (lv_cnt lv - 1) 0); [lia|]. exists l. split; [apply linked_updf; [done|done|lia]|].
    apply cinv_upd; try done. unfold live_buf. cbn -[u32]. split_and!; try done; try lia.
Qed.

Lemma data_ok s st n lv : bio_rel s st -> st_live st !! n = Some lv ->
  b_data (the_buf (lv_h lv) s) = lv_data lv /\ b_blockno (the_buf (lv_h lv) s) = n.
Proof.
  intros (l & _ & Hc) Hn. by destruct (ci_live _ _ Hc _ _ Hn) as [_ (_ & ? & _ & _ & _ & ? & _)].
Qed.

(** The cache, with its promises for the root device. *)
#[export] Instance bio_store : BlockStore bst := {|
  bs_bread := bread;
  bs_data h s := b_data (the_buf h s);
  bs_blockno h s := b_blockno (the_buf h s);
  bs_fill h d := upd h (set_data d);
  bs_write := bwrite;
  bs_release := brelse;
  bs_pin := bpin;
  bs_unpin := bunpin;
  bs_rel := bio_rel;
  read_spec := bread_ok;
  data_spec := data_ok;
  fill_spec := fill_ok;
  write_spec := bwrite_ok;
  release_spec := brelse_ok;
  pin_spec := bpin_ok;
  unpin_spec := bunpin_ok
|}.

(** * Initialisation *)

(** The cache in zeroed memory. *)
Definition zero_buf : buf := mkBuf false 0 0 (mkSleep 0 0) 0 0 0 zero_block.
Definition boot_bst (d : gmap Z block) (pid : Z) : bst := mkB (replicate (S NBUF) zero_buf) d [] pid.

Lemma binit_run d pid : exists bs, binit (boot_bst d pid) = Ok tt (mkB bs d [] pid) /\
  length bs = S NBUF /\
  Forall (fun b => content b = (false, 0, 0, mkSleep 0 0, 0, zero_block)) bs /\
  path (fun i => b_next (bs !!! i)) HEAD (reverse (seq 0 NBUF)) HEAD /\
  path (fun i => b_prev (bs !!! i)) HEAD (seq 0 NBUF) HEAD.
Proof.
  unfold boot_bst, zero_buf. generalize zero_block. intros z.
  eexists. split; [vm_compute; reflexivity|]. split; [reflexivity|]. split.
  - repeat constructor.
  - vm_compute. tauto.
Qed.

(** After [binit] the cache is empty and every block has its disk content. *)
Lemma binit_rel d pid : exists s, binit (boot_bst d pid) = Ok tt s /\ bio_rel s (mkStore ∅ d []).
Proof.
  destruct (binit_run d pid) as (bs & E & Hlen & Hc & Hn & Hp). eexists. split; [done|].
  exists (reverse (seq 0 NBUF)). split.
  - split; [done|by rewrite reverse_Permutation|done|by rewrite reverse_involutive].
  - assert (forall i, (i < NBUF)%nat -> content (bs !!! i) = (false, 0, 0, mkSleep 0 0, 0, zero_block)) as Hz.
    { intros i Hi. destruct (lookup_lt_is_Some_2 bs i ltac:(lia)) as [b Eb].
      rewrite (list_lookup_total_correct _ _ _ Eb). by apply (Forall_lookup_1 _ _ _ _ Hc Eb). }
    split; [reflexivity|reflexivity| | |].
    + intros i j n Hi _ [Hd _] _. specialize (Hz i Hi). unfold content in Hz. unfold the_buf in Hd.
      cbn [bc_bufs] in Hd. injection Hz as _ E2 _ _ _ _. rewrite E2 in Hd. discriminate Hd.
    + intros n lv Hlv. cbn [st_live] in Hlv. by rewrite lookup_empty in Hlv.
    + intros i Hi. left. specialize (Hz i Hi). unfold content in Hz. unfold the_buf. cbn [bc_bufs bc_disk].
      injection Hz as E1 E2 E3 E4 E5 E6. split; [exact E5|]. split; [exact E4|].
      intros _ Hv. rewrite E1 in Hv. discriminate Hv.
Qed.

(** * Theorems *)

Lemma take_ref_live n h st : exists lv, st_live (take_ref n h st) !! n = Some lv /\
  lv_data lv = current n st /\ lv_locked lv = true /\
  lv_h lv = match st_live st !! n with Some lv => lv_h lv | None => h end.
Proof.
  unfold take_ref, current. destruct (st_live st !! n) as [lv|] eqn:E; cbn;
    rewrite lookup_insert_eq; by eexists.
Qed.

(** C27: [bread] gives exclusive access to the one current copy of a block.
    When the block is not locked and a buffer can be had, it returns a buffer
    that the caller holds locked, that is the only buffer of that block and
    whose data is the block's current content (what the last holder left when
    the block is in use, the disk's otherwise), and the result is the state
    the abstract block store goes to: no other block, and nothing on the disk,
    has changed. *)
Theorem bread_correct s st n :
  bio_rel s st -> can_read n st ->
  exists h s', bread ROOTDEV n s = Ok h s' /\ holdingsleep h s' = true /\
    b_blockno (the_buf h s') = n /\ b_data (the_buf h s') = current n st /\
    (forall i, (i < NBUF)%nat -> holds i n s' -> i = h) /\
    bio_rel s' (take_ref n h st) /\ bc_disk s' = bc_disk s.
Proof.
  intros HR Hcan. destruct (bread_ok s st n HR Hcan) as (h & s' & E & HR' & Hh).
  destruct (take_ref_live n h st) as (lv & Hn & Hd & Hlk & Elv).
  assert (lv_h lv = h) as <- by (rewrite Elv; by destruct (st_live st !! n)).
  pose proof (data_ok _ _ _ _ HR' Hn) as [Ed Eb].
  destruct HR as (l & Hl & Hc), HR' as (l' & Hl' & Hc').
  destruct (ci_live _ _ Hc' _ _ Hn) as [Hlt (Edev & _)].
  exists (lv_h lv), s'. split_and!; [done|by eapply locked_holding|done|congruence| |by exists l'|].
  - intros i Hi Hin. by apply (ci_uniq _ _ Hc' i (lv_h lv) n).
  - rewrite (ci_disk _ _ Hc), (ci_disk _ _ Hc'). unfold take_ref. by destruct (st_live st !! n).
Qed.

Lemma bread_correct_witness :
  exists s h s', binit (boot_bst ∅ 1) = Ok tt s /\ bread ROOTDEV 2 s = Ok h s' /\
    b_data (the_buf h s') = zero_block.
Proof.
  destruct (binit_rel ∅ 1) as (s & E & HR).
  destruct (bread_correct s (mkStore ∅ ∅ []) 2 HR) as (h & s' & Er & _ & _ & Hd & _).
  - apply Nat.ltb_lt. reflexivity.
  - exists s, h, s'. split; [exact E|]. split; [exact Er|]. rewrite Hd. reflexivity.
Defined.

(** The cache replaces the least recently used free buffer.  With [l] the
    order of recency, a block that no buffer holds gets the last buffer of [l]
    without references, and no other buffer changes owner; when every buffer
    is referenced [bget] panics.  And releasing the last reference moves a
    buffer to the front of the order, leaving the others as they were. *)
Theorem bget_recycles_lru s st l n b :
  linked s l -> cinv s st -> (forall i, (i < NBUF)%nat -> ~ holds i n s) -> (b < NBUF)%nat ->
  match head (filter (fun i => b_refcnt (the_buf i s) = 0) (reverse l)) with
  | Some i => exists s', bget ROOTDEV n s = Ok i s' /\ linked s' l /\ holds i n s' /\
      (forall j, j <> i -> the_buf j s' = the_buf j s)
  | None => bget ROOTDEV n s = Panic "bget: no buffers" s
  end /\
  exists l1 l2, l = l1 ++ b :: l2 /\ linked (push_front b (unlink b s)) (b :: l1 ++ l2).
Proof.
  intros Hl Hc Hno Hb. split; [|by apply brelse_order]. destruct (linked_free_len _ _ Hl) as [Hh Hlen].
  pose proof (lk_len _ _ Hl) as Hbl. unfold bget. mstep.
  change (b_next (the_buf HEAD s)) with (nxt s HEAD). change (b_prev (the_buf HEAD s)) with (prv s HEAD).
  destruct (find_cached_ok s ROOTDEV n l HEAD (S NBUF) (lk_next _ _ Hl) Hh Hlen)
    as [(i & Hi & Hd & Hbn & _)|[_ E]].
  { apply (linked_idx s l i Hl) in Hi. by destruct (Hno i Hi). }
  mrun E. mstep. change (b_prev (the_buf HEAD s)) with (prv s HEAD).
  pose proof (find_unused_ok s (reverse l) HEAD (S NBUF) (lk_prev _ _ Hl)) as Ef.
  rewrite elem_of_reverse, length_reverse in Ef. specialize (Ef Hh Hlen). mrun Ef.
  destruct (head _) as [i|] eqn:Ei; [|done].
  assert (i ∈ filter (fun i => b_refcnt (the_buf i s) = 0) (reverse l)) as Hi.
  { destruct (filter _ _); [done|]. injection Ei as ->. set_solver. }
  apply list_elem_of_filter in Hi as [Hr Hi]. rewrite elem_of_reverse in Hi. apply (linked_idx s l i Hl) in Hi.
  assert (b_lock (the_buf i s) = mkSleep 0 0) as Elk.
  { destruct (ci_idle _ _ Hc i Hi) as [(_ & ? & _)|(m & lm & Hm & Em)]; [done|].
    destruct (ci_live _ _ Hc _ _ Hm) as [_ (_ & _ & _ & Hr' & Hpos & _)]. rewrite Em in Hr'. lia. }
  unfold upd. mstep. rewrite !updf_updf. unfold acquiresleep, upd. rewrite bind_assoc. mstep.
  rewrite the_buf_updf_eq by lia. cbn [compose set_refcnt set_valid set_id b_lock]. unfold compose.
  cbn [set_refcnt set_valid set_id b_lock]. rewrite Elk. change (negb (sl_locked (mkSleep 0 0) =? 0)) with false.
  cbv iota. rewrite bind_assoc. mstep. rewrite updf_updf. eexists. split; [done|]. split; [|split].
  - apply linked_updf; [done|done|lia].
  - unfold holds. rewrite the_buf_updf_eq by lia. done.
  - intros j Hne. rewrite the_buf_updf by lia. by rewrite decide_False.
Qed.

Lemma bget_recycles_lru_witness :
  exists s l, binit (boot_bst ∅ 1) = Ok tt s /\ linked s l /\
    exists l1 l2, l = l1 ++ 3%nat :: l2 /\ linked (push_front 3 (unlink 3 s)) (3%nat :: l1 ++ l2).
Proof.
  destruct (binit_rel ∅ 1) as (s & E & l & Hl & Hc). exists s, l. split; [exact E|]. split; [exact Hl|].
  refine (proj2 (bget_recycles_lru s (mkStore ∅ ∅ []) l 7 3 Hl Hc _ _)).
  - intros i Hi [Hd Hn]. destruct (binit_run ∅ 1) as (bs & E' & Hlen & Hz & _).
    rewrite E' in E. injection E as <-. destruct (lookup_lt_is_Some_2 bs i) as [x Ex]; [rewrite Hlen; unfold NBUF in *; lia|].
    unfold the_buf in Hd. cbn [bc_bufs] in Hd. rewrite (list_lookup_total_correct _ _ _ Ex) in Hd.
    apply (Forall_lookup_1 _ _ _ _ Hz) in Ex. unfold content in Ex. injection Ex as _ E2 _ _ _ _.
    rewrite E2 in Hd. discriminate Hd.
  - unfold NBUF. lia.
Defined.
