(* ===== verification/XLog.v ===== *)
(** reference/xv6-riscv/kernel/log.c: the write-ahead log, over the block store
    interface of [XStore].

    [struct log] is a record; the sections of [log.lock] run as one step, and
    a thread that has to sleep does not return ([Diverge]).  The header block
    on disk is [struct logheader] as bytes: little-endian 32-bit integers, the
    count first. *)

From Stdlib Require Import ZArith Lia.
From stdpp Require Import base strings numbers gmap list.
From S2P Require Import Prelude Vm XStore.

Definition LOGBLOCKS : Z := 30.
Definition MAXOPBLOCKS : Z := 10.

(** * The header block *)

(** [((int * )data)[k]] and its assignment. *)
Definition get32 (b : list Z) (k : nat) : Z :=
  s32 (b !!! (4 * k)%nat + 256 * (b !!! (4 * k + 1)%nat) + 65536 * (b !!! (4 * k + 2)%nat)
       + 16777216 * (b !!! (4 * k + 3)%nat)).
Definition put32 (b : list Z) (k : nat) (v : Z) : list Z :=
  <[(4 * k)%nat := u8 v]> (<[(4 * k + 1)%nat := u8 (v / 256)]>
    (<[(4 * k + 2)%nat := u8 (v / 65536)]> (<[(4 * k + 3)%nat := u8 (v / 16777216)]> b))).

Lemma put32_length b k v : length (put32 b k v) = length b.
Proof. unfold put32. by rewrite !length_insert. Qed.

Lemma u8_digits v : 0 <= v < 2 ^ 32 ->
  u8 v + 256 * u8 (v / 256) + 65536 * u8 (v / 65536) + 16777216 * u8 (v / 16777216) = v.
Proof.
  intros Hv. unfold u8. change (2 ^ 8) with 256.
  replace (v / 65536) with (v / 256 / 256) by (by rewrite Z.div_div).
  replace (v / 16777216) with (v / 256 / 256 / 256) by (by rewrite !Z.div_div).
  pose proof (Z.div_mod v 256 ltac:(lia)). pose proof (Z.div_mod (v / 256) 256 ltac:(lia)).
  pose proof (Z.div_mod (v / 256 / 256) 256 ltac:(lia)).
  assert (0 <= v / 256 / 256 / 256 < 256).
  { rewrite !Z.div_div by lia. split; [apply Z.div_pos; lia|]. apply Z.div_lt_upper_bound; lia. }
  rewrite (Z.mod_small (v / 256 / 256 / 256)) by lia. lia.
Qed.

Lemma get32_put32 b k v : (4 * k + 3 < length b)%nat -> 0 <= v < 2 ^ 31 -> get32 (put32 b k v) k = v.
Proof.
  intros Hk Hv. unfold get32, put32.
  repeat first [rewrite list_lookup_total_insert_eq by (rewrite ?length_insert; lia)
               |rewrite list_lookup_total_insert_ne by lia].
  rewrite u8_digits by lia. apply s32_small. lia.
Qed.

Lemma get32_put32_ne b k j v : j <> k -> get32 (put32 b k v) j = get32 b j.
Proof. intros Hj. unfold get32, put32. by rewrite !list_lookup_total_insert_ne by lia. Qed.

(** * The log *)

Section Log.
Context {BC : Type} `{BlockStore BC}.

Record logst : Type := mkLog {
  lg_start : Z;
  lg_outstanding : Z;
  lg_committing : bool;
  lg_ncommit : Z;
  lg_n : Z;                (* lh.n *)
  lg_block : list Z;       (* lh.block[LOGBLOCKS] *)
  lg_bs : BC
}.

Definition with_bs (x : BC) (s : logst) : logst :=
  mkLog (lg_start s) (lg_outstanding s) (lg_committing s) (lg_ncommit s) (lg_n s) (lg_block s) x.
Definition with_start (x : Z) (s : logst) : logst :=
  mkLog x (lg_outstanding s) (lg_committing s) (lg_ncommit s) (lg_n s) (lg_block s) (lg_bs s).
Definition with_outstanding (x : Z) (s : logst) : logst :=
  mkLog (lg_start s) x (lg_committing s) (lg_ncommit s) (lg_n s) (lg_block s) (lg_bs s).
Definition with_committing (x : bool) (s : logst) : logst :=
  mkLog (lg_start s) (lg_outstanding s) x (lg_ncommit s) (lg_n s) (lg_block s) (lg_bs s).
Definition with_ncommit (x : Z) (s : logst) : logst :=
  mkLog (lg_start s) (lg_outstanding s) (lg_committing s) x (lg_n s) (lg_block s) (lg_bs s).
Definition with_n (x : Z) (s : logst) : logst :=
  mkLog (lg_start s) (lg_outstanding s) (lg_committing s) (lg_ncommit s) x (lg_block s) (lg_bs s).
Definition with_block (x : list Z) (s : logst) : logst :=
  mkLog (lg_start s) (lg_outstanding s) (lg_committing s) (lg_ncommit s) (lg_n s) x (lg_bs s).

Definition bs {A} (m : M BC A) : M logst A := zoom lg_bs with_bs m.
Definition data (h : nat) : M logst block := gets (fun s => bs_data h (lg_bs s)).

(** [log.lh.block[i]] and its assignment. *)
Definition lh_block (i : Z) (s : logst) : Z := lg_block s !!! Z.to_nat i.
Definition set_lh_block (i v : Z) : M logst unit :=
  b ← gets lg_block;
  if (i <? LOGBLOCKS) && (0 <=? i) then modify (with_block (<[Z.to_nat i := v]> b))
  else panic "log.lh.block: index".

(** The [printk] of a recovery is left out. *)
Definition install_trans (recovering : bool) : M logst unit :=
  n ← gets lg_n;
  for_each (zseq 0 (Z.to_nat n)) (fun tail =>
    start ← gets lg_start;
    b ← gets (lh_block tail);
    lbuf ← bs (bs_read (start + tail + 1));
    dbuf ← bs (bs_read b);
    d ← data lbuf;
    bs (bs_fill dbuf d);;
    bs (bs_write dbuf);;
    (if negb recovering then bs (bs_unpin dbuf) else mret tt);;
    bs (bs_release lbuf);;
    bs (bs_release dbuf)).

Definition read_head : M logst unit :=
  start ← gets lg_start;
  buf ← bs (bs_read start);
  lh ← data buf;
  modify (with_n (get32 lh 0));;
  n ← gets lg_n;
  for_each (zseq 0 (Z.to_nat n)) (fun i => set_lh_block i (get32 lh (Z.to_nat (i + 1))));;
  bs (bs_release buf).

(** The stores of [write_head] into the header block. *)
Definition put_head (n : Z) (blocks : list Z) (hb : block) : block :=
  foldl (fun hb i => put32 hb (Z.to_nat (i + 1)) (blocks !!! Z.to_nat i)) (put32 hb 0 n)
    (zseq 0 (Z.to_nat n)).

Definition write_head : M logst unit :=
  start ← gets lg_start;
  buf ← bs (bs_read start);
  hb ← data buf;
  n ← gets lg_n;
  blocks ← gets lg_block;
  bs (bs_fill buf (put_head n blocks hb));;
  bs (bs_write buf);;
  bs (bs_release buf).

Definition recover_from_log : M logst unit :=
  read_head;;
  install_trans true;;
  modify (with_n 0);;
  write_head.

(** [sizeof(struct logheader)]. *)
Definition SIZEOF_LOGHEADER : nat := 4 * (1 + Z.to_nat LOGBLOCKS).

(** The device is the one [BlockStore] reads. *)
Definition initlog (logstart : Z) : M logst unit :=
  if (BSIZE <=? SIZEOF_LOGHEADER)%nat then panic "initlog: too big logheader" else
  modify (with_start logstart);;
  recover_from_log.

(** One pass of the [while (1)] of [begin_op]; a pass that sleeps does not
    return. *)
Definition begin_op : M logst unit :=
  s ← get;
  if lg_committing s then out_of_fuel
  else if LOGBLOCKS <? lg_n s + (lg_outstanding s + 1) * MAXOPBLOCKS then out_of_fuel
  else modify (with_outstanding (lg_outstanding s + 1)).

Definition write_log : M logst unit :=
  n ← gets lg_n;
  for_each (zseq 0 (Z.to_nat n)) (fun tail =>
    start ← gets lg_start;
    b ← gets (lh_block tail);
    to ← bs (bs_read (start + tail + 1));
    from ← bs (bs_read b);
    d ← data from;
    bs (bs_fill to d);;
    bs (bs_write to);;
    bs (bs_release from);;
    bs (bs_release to)).

Definition commit : M logst unit :=
  n ← gets lg_n;
  if 0 <? n then
    write_log;;
    write_head;;
    install_trans false;;
    modify (with_n 0);;
    write_head
  else mret tt.

Definition end_op : M logst unit :=
  modify (fun s => with_outstanding (lg_outstanding s - 1) s);;
  s ← get;
  if lg_committing s then panic "log.committing" else
  if lg_outstanding s =? 0 then
    modify (with_committing true);;
    commit;;
    modify (with_committing false);;
    modify (fun s => with_ncommit (lg_ncommit s + 1) s)
  else mret tt.

(** The index at which the search of [log_write] stops. *)
Fixpoint absorb (blocks : list Z) (n : nat) (i : Z) (blockno : Z) : Z :=
  match n, blocks with
  | Datatypes.S n', b :: blocks' => if b =? blockno then i else absorb blocks' n' (i + 1) blockno
  | _, _ => i
  end.

Definition log_write (b : nat) : M logst unit :=
  s ← get;
  if LOGBLOCKS <=? lg_n s then panic "too big a transaction" else
  if lg_outstanding s <? 1 then panic "log_write outside of trans" else
  let blockno := bs_blockno b (lg_bs s) in
  let i := absorb (lg_block s) (Z.to_nat (lg_n s)) 0 blockno in
  set_lh_block i blockno;;
  if i =? lg_n s then
    bs (bs_pin b);;
    modify (fun s => with_n (lg_n s + 1) s)
  else mret tt.

(** [sys_sync]: it waits for the commit of the operations under way. *)
Definition sys_sync : M logst Z :=
  s ← get;
  if lg_committing s || (0 <? lg_outstanding s) then out_of_fuel else mret 0.
End Log.
Arguments logst : clear implicits.

(** * Steps of the store *)

Section Steps.
Context {BC : Type} `{BlockStore BC}.
Implicit Types s : logst BC.

Lemma bs_run {A} (m : M BC A) s a c : m (lg_bs s) = Ok a c -> bs m s = Ok a (with_bs c s).
Proof. apply zoom_ok. Qed.

Lemma lookup_set_live n lv st m :
  st_live (set_live n lv st) !! m = if decide (n = m) then Some lv else st_live st !! m.
Proof. cbn. case_decide; [subst; by rewrite lookup_insert_eq|by rewrite lookup_insert_ne]. Qed.

(** Copying the pinned block [b] to block [l] of the log. *)
Lemma write_log_step s st l b lv :
  bs_rel (lg_bs s) st -> st_live st !! l = None -> st_live st !! b = Some lv ->
  lv_locked lv = false -> lv_cnt lv = 1 -> (size (st_live st) < NBUF)%nat ->
  exists c, (to ← bs (bs_read l); from ← bs (bs_read b); d ← data from;
             bs (bs_fill to d);; bs (bs_write to);; bs (bs_release from);; bs (bs_release to)) s
    = Ok tt (with_bs c s) /\ bs_rel c (put_disk l (lv_data lv) st).
Proof.
  intros HR Hl Hb Hlk Hcnt Hsz. assert (l <> b) as Hne by congruence.
  destruct (read_spec (lg_bs s) st l HR) as (h1 & c1 & E1 & R1 & _).
  { unfold can_read. by rewrite Hl. }
  mrun (bs_run _ s _ _ E1). unfold take_ref in R1. rewrite Hl in R1.
  destruct (read_spec c1 _ b R1) as (h2 & c2 & E2 & R2 & Eh2).
  { unfold can_read. rewrite lookup_set_live, decide_False, Hb by done. split; [done|lia]. }
  mrun (bs_run _ (with_bs c1 s) _ _ E2). unfold take_ref in R2.
  rewrite lookup_set_live, decide_False, Hb in R2, Eh2 by done. subst h2.
  unfold data. mstep. destruct (data_spec c2 _ b (mkLive (lv_h lv) (lv_cnt lv + 1) (lv_data lv) true) R2) as [Ed _].
  { rewrite lookup_set_live. by rewrite decide_True. }
  cbn [lv_h lv_data] in Ed. cbn [lg_bs with_bs]. rewrite Ed.
  destruct (fill_spec c2 _ l (mkLive h1 1 (on_disk l (st_disk st)) true) (lv_data lv) R2) as (c3 & E3 & R3);
    [|done|].
  { rewrite !lookup_set_live. rewrite decide_False by done. by rewrite decide_True. }
  mrun (bs_run _ (with_bs c2 s) _ _ E3).
  destruct (write_spec c3 _ l (mkLive h1 1 (lv_data lv) true) R3) as (c4 & E4 & R4); [|done|].
  { rewrite lookup_set_live. by rewrite decide_True. }
  mrun (bs_run _ (with_bs c3 s) _ _ E4).
  destruct (release_spec c4 _ b (mkLive (lv_h lv) (lv_cnt lv + 1) (lv_data lv) true) R4) as (c5 & E5 & R5).
  { cbn. rewrite !lookup_insert_ne by done. by rewrite lookup_insert_eq. }
  { done. }
  { cbn. lia. }
  mrun (bs_run _ (with_bs c4 s) _ _ E5). cbn [lv_cnt lv_h lv_data] in R5.
  destruct (Z.eqb_spec (lv_cnt lv + 1) 1); [lia|].
  destruct (release_spec c5 _ l (mkLive h1 1 (lv_data lv) true) R5) as (c6 & E6 & R6).
  { cbn. rewrite lookup_insert_ne by done. by rewrite lookup_insert_eq. }
  { done. }
  { intros _. cbn. unfold on_disk. by rewrite lookup_insert_eq. }
  exists c6. split; [exact (bs_run _ (with_bs c5 s) _ _ E6)|].
  match type of R6 with bs_rel _ ?x => replace (put_disk l (lv_data lv) st) with x; [done|] end.
  unfold drop_live, set_live, put_disk. cbn. f_equal. apply map_eq. intros m.
  destruct (decide (m = l)) as [->|Hml]; [by rewrite lookup_delete_eq|]. rewrite lookup_delete_ne by done.
  destruct (decide (m = b)) as [->|Hmb].
  - rewrite lookup_insert_eq, Hb. f_equal. destruct lv as [h c d k]. cbn in *. by subst.
  - by rewrite !lookup_insert_ne by done.
Qed.

(** Installing block [l] of the log at [b], which is pinned exactly when the
    log is not being recovered. *)
Lemma install_step (recovering : bool) s st l b :
  bs_rel (lg_bs s) st -> st_live st !! l = None -> l <> b ->
  (if recovering then st_live st !! b = None
   else exists lv, st_live st !! b = Some lv /\ lv_locked lv = false /\ lv_cnt lv = 1) ->
  (Datatypes.S (size (st_live st)) < NBUF)%nat ->
  exists c, (lbuf ← bs (bs_read l); dbuf ← bs (bs_read b); d ← data lbuf;
             bs (bs_fill dbuf d);; bs (bs_write dbuf);;
             (if negb recovering then bs (bs_unpin dbuf) else mret tt);;
             bs (bs_release lbuf);; bs (bs_release dbuf)) s
    = Ok tt (with_bs c s) /\
    bs_rel c (drop_live b (put_disk b (on_disk l (st_disk st)) st)).
Proof.
  intros HR Hl Hne Hb Hsz. set (d := on_disk l (st_disk st)).
  destruct (read_spec (lg_bs s) st l HR) as (h1 & c1 & E1 & R1 & _).
  { unfold can_read. rewrite Hl. lia. }
  mrun (bs_run _ s _ _ E1). unfold take_ref in R1. rewrite Hl in R1. fold d in R1.
  assert (exists h2 c2 lv, bs_read b c1 = Ok h2 c2 /\
    bs_rel c2 (set_live b (mkLive h2 (if recovering then 1 else 2) lv true) (set_live l (mkLive h1 1 d true) st)))
    as (h2 & c2 & dv & E2 & R2).
  { destruct recovering.
    - destruct (read_spec c1 _ b R1) as (h2 & c2 & E2 & R2 & _).
      { unfold can_read. rewrite lookup_set_live, decide_False, Hb by done. cbn.
        rewrite map_size_insert_None by done. lia. }
      unfold take_ref in R2. rewrite lookup_set_live, decide_False, Hb in R2 by done. eauto.
    - destruct Hb as (lv & Hb & Hlk & Hcnt). destruct (read_spec c1 _ b R1) as (h2 & c2 & E2 & R2 & Eh).
      { unfold can_read. rewrite lookup_set_live, decide_False, Hb by done. split; [done|lia]. }
      unfold take_ref in R2. rewrite lookup_set_live, decide_False, Hb in R2, Eh by done. subst h2.
      rewrite Hcnt in R2. eauto. }
  mrun (bs_run _ (with_bs c1 s) _ _ E2). unfold data. mstep.
  destruct (data_spec c2 _ l (mkLive h1 1 d true) R2) as [Ed _].
  { rewrite !lookup_set_live. rewrite decide_False by done. by rewrite decide_True. }
  cbn [lv_h lv_data] in Ed. cbn [lg_bs with_bs]. rewrite Ed.
  destruct (fill_spec c2 _ b (mkLive h2 (if recovering then 1 else 2) dv true) d R2) as (c3 & E3 & R3);
     [rewrite lookup_set_live; by rewrite decide_True|done|].
  cbn [lv_h lv_cnt] in E3, R3. mrun (bs_run _ (with_bs c2 s) _ _ E3).
  destruct (write_spec c3 _ b (mkLive h2 (if recovering then 1 else 2) d true) R3) as (c4 & E4 & R4);
     [rewrite lookup_set_live; by rewrite decide_True|done|].
  cbn [lv_h lv_data] in E4, R4. mrun (bs_run _ (with_bs c3 s) _ _ E4).
  assert (exists c5, (if negb recovering then bs (bs_unpin h2) else mret tt) (with_bs c4 s) = Ok tt (with_bs c5 s) /\
    bs_rel c5 (put_disk b d (set_live b (mkLive h2 1 d true) (set_live l (mkLive h1 1 d true) st)))) as (c5 & E5 & R5).
  { destruct recovering; cbn [negb].
    - exists c4. split; [done|]. replace (put_disk b d _) with (put_disk b d (set_live b (mkLive h2 1 d true)
        (set_live b (mkLive h2 1 dv true) (set_live l (mkLive h1 1 d true) st)))); [done|].
      unfold put_disk, set_live. cbn. by rewrite insert_insert_eq.
    - destruct (unpin_spec c4 _ b (mkLive h2 2 d true) R4) as (c5 & E5 & R5).
      { cbn. by rewrite lookup_insert_eq. }
      { cbn. lia. }
      exists c5. split; [by apply (bs_run _ (with_bs c4 s))|]. cbn [lv_h lv_cnt lv_data lv_locked] in R5.
      replace (put_disk b d _) with (set_live b (mkLive h2 (2 - 1) d true) (put_disk b d (set_live b (mkLive h2 2 d true)
        (set_live b (mkLive h2 2 dv true) (set_live l (mkLive h1 1 d true) st))))); [done|].
      unfold put_disk, set_live. cbn. by rewrite !insert_insert_eq. }
  mrun E5.
  destruct (release_spec c5 _ l (mkLive h1 1 d true) R5) as (c6 & E6 & R6).
  { cbn. rewrite lookup_insert_ne by done. by rewrite lookup_insert_eq. }
  { done. }
  { intros _. cbn. unfold on_disk. by rewrite lookup_insert_ne. }
  mrun (bs_run _ (with_bs c5 s) _ _ E6). cbn [lv_cnt] in R6. change (1 =? 1) with true in R6. cbv iota in R6.
  destruct (release_spec c6 _ b (mkLive h2 1 d true) R6) as (c7 & E7 & R7).
  { cbn. rewrite lookup_delete_ne by done. by rewrite lookup_insert_eq. }
  { done. }
  { intros _. cbn. unfold on_disk. by rewrite lookup_insert_eq. }
  exists c7. split; [exact (bs_run _ (with_bs c6 s) _ _ E7)|].
  cbn [lv_cnt] in R7. change (1 =? 1) with true in R7. cbv iota in R7.
  match type of R7 with bs_rel _ ?x => replace (drop_live b (put_disk b d st)) with x; [done|] end.
  unfold drop_live, set_live, put_disk. cbn. f_equal. apply map_eq. intros m.
  destruct (decide (m = b)) as [->|Hmb]; [by rewrite !lookup_delete_eq|]. rewrite !(lookup_delete_ne _ b) by done.
  destruct (decide (m = l)) as [->|Hml]; [by rewrite lookup_delete_eq|].
  rewrite lookup_delete_ne, !lookup_insert_ne by done. done.
Qed.

(** ** Sequences of writes *)

Definition puts (ws : list (Z * block)) (st : store) : store :=
  foldl (fun st w => put_disk w.1 w.2 st) st ws.
Definition unlive (ks : list Z) (st : store) : store :=
  mkStore (foldl (fun m k => delete k m) (st_live st) ks) (st_disk st) (st_writes st).

(** The disk after some writes. *)
Definition apply_writes (ws : list (Z * block)) (d : gmap Z block) : gmap Z block :=
  foldl (fun d w => <[w.1 := w.2]> d) d ws.

Lemma puts_store ws st :
  puts ws st = mkStore (st_live st) (apply_writes ws (st_disk st)) (st_writes st ++ ws).
Proof.
  revert st. induction ws as [|w ws IH]; intros st; cbn.
  - rewrite app_nil_r. by destruct st.
  - etransitivity; [apply IH|]. cbn. rewrite <- app_assoc. by destruct w.
Qed.

Lemma apply_writes_app ws ws' d : apply_writes (ws ++ ws') d = apply_writes ws' (apply_writes ws d).
Proof. apply foldl_app. Qed.

Lemma apply_writes_cons w ws d : apply_writes (w :: ws) d = apply_writes ws (<[w.1 := w.2]> d).
Proof. done. Qed.

Lemma apply_writes_ne ws d b : b ∉ ws.*1 -> on_disk b (apply_writes ws d) = on_disk b d.
Proof.
  revert d. induction ws as [|w ws IH]; intros d Hb; [done|]. rewrite apply_writes_cons. rewrite fmap_cons in Hb.
  rewrite IH by set_solver.
  unfold on_disk. rewrite lookup_insert_ne; [done|set_solver].
Qed.

Lemma apply_writes_last ws d b v : on_disk b (apply_writes (ws ++ [(b, v)]) d) = v.
Proof. rewrite apply_writes_app. unfold on_disk. cbn. by rewrite lookup_insert_eq. Qed.

(** The last write to a block decides; here all writes to it agree. *)
Lemma apply_writes_eq ws d b v : b ∈ ws.*1 -> (forall w, w ∈ ws -> w.1 = b -> w.2 = v) ->
  on_disk b (apply_writes ws d) = v.
Proof.
  revert d. induction ws as [|w ws IH]; intros d Hb Hv; [set_solver|].
  rewrite apply_writes_cons. rewrite fmap_cons in Hb.
  destruct (decide (b ∈ ws.*1)) as [Hin|Hnin]; [apply IH; [done|set_solver]|].
  rewrite apply_writes_ne by done. assert (w.1 = b) as Ew by set_solver.
  rewrite Ew. unfold on_disk. rewrite lookup_insert_eq. apply Hv; set_solver.
Qed.

(** ** The loops *)

Lemma write_log_loop F l : forall s st,
  bs_rel (lg_bs s) st -> (size (st_live st) < NBUF)%nat ->
  (forall t, t ∈ l -> st_live st !! (lg_start s + t + 1) = None /\
     exists lv, st_live st !! lh_block t s = Some lv /\ lv_locked lv = false /\ lv_cnt lv = 1) ->
  (forall t s, F t s = (start ← gets lg_start; b ← gets (lh_block t);
     to ← bs (bs_read (start + t + 1)); from ← bs (bs_read b); d ← data from;
     bs (bs_fill to d);; bs (bs_write to);; bs (bs_release from);; bs (bs_release to)) s) ->
  exists c, for_each l F s = Ok tt (with_bs c s) /\
    bs_rel c (puts ((fun t => (lg_start s + t + 1, current (lh_block t s) st)) <$> l) st).
Proof.
  induction l as [|t l IH]; intros s st HR Hsz Hl HF; cbn [for_each fmap list_fmap].
  { exists (lg_bs s). split; [by destruct s|done]. }
  destruct (Hl t ltac:(set_solver)) as (H1 & lv & H2 & H3 & H4).
  destruct (write_log_step s st _ _ lv HR H1 H2 H3 H4 Hsz) as (c1 & E1 & R1).
  rewrite (bind_ok _ _ s tt (with_bs c1 s)) by (rewrite HF; mstep; exact E1).
  destruct (IH (with_bs c1 s) (put_disk (lg_start s + t + 1) (lv_data lv) st)) as (c2 & E2 & R2);
    [done|done|intros t' Ht'; apply Hl; set_solver|done|].
  exists c2. split; [exact E2|]. unfold current at 1. rewrite H2.
  match type of R2 with bs_rel _ (puts ?x _) =>
    replace ((fun t => (lg_start s + t + 1, current (lh_block t s) st)) <$> l) with x; [exact R2|] end.
  apply list_fmap_ext. intros i t' Hi. cbn. f_equal. unfold current. cbn.
  destruct (Hl t') as (_ & lv' & G & _); [apply list_elem_of_lookup_2 in Hi; set_solver|].
  change (lh_block t' (with_bs c1 s)) with (lh_block t' s). by rewrite G.
Qed.

Lemma install_loop (recovering : bool) F l : forall s st,
  bs_rel (lg_bs s) st -> (Datatypes.S (size (st_live st)) < NBUF)%nat ->
  NoDup ((fun t => lh_block t s) <$> l) \/ recovering = true ->
  (forall t t', t ∈ l -> t' ∈ l -> lg_start s + t + 1 <> lh_block t' s) ->
  (forall t, t ∈ l -> st_live st !! (lg_start s + t + 1) = None /\
     if recovering then st_live st !! lh_block t s = None
     else exists lv, st_live st !! lh_block t s = Some lv /\ lv_locked lv = false /\ lv_cnt lv = 1) ->
  (forall t s, F t s = (start ← gets lg_start; b ← gets (lh_block t);
     lbuf ← bs (bs_read (start + t + 1)); dbuf ← bs (bs_read b); d ← data lbuf;
     bs (bs_fill dbuf d);; bs (bs_write dbuf);;
     (if negb recovering then bs (bs_unpin dbuf) else mret tt);;
     bs (bs_release lbuf);; bs (bs_release dbuf)) s) ->
  exists c, for_each l F s = Ok tt (with_bs c s) /\
    bs_rel c (unlive ((fun t => lh_block t s) <$> l)
      (puts ((fun t => (lh_block t s, on_disk (lg_start s + t + 1) (st_disk st))) <$> l) st)).
Proof.
  induction l as [|t l IH]; intros s st HR Hsz Hnd Hsep Hl HF; cbn [for_each fmap list_fmap].
  { exists (lg_bs s). split; [by destruct s|]. by destruct st. }
  destruct (Hl t ltac:(set_solver)) as (H1 & H2).
  destruct (install_step recovering s st (lg_start s + t + 1) (lh_block t s) HR H1) as (c1 & E1 & R1);
    [apply Hsep; set_solver|done|done|].
  rewrite (bind_ok _ _ s tt (with_bs c1 s)) by (rewrite HF; mstep; exact E1).
  set (d := on_disk (lg_start s + t + 1) (st_disk st)) in *.
  set (st1 := drop_live (lh_block t s) (put_disk (lh_block t s) d st)) in *.
  destruct (IH (with_bs c1 s) st1) as (c2 & E2 & R2); [done| | | | |done|].
  - unfold st1. cbn. assert (size (delete (lh_block t s) (st_live st)) <= size (st_live st))%nat; [|lia].
    apply map_subseteq_size, delete_subseteq.
  - destruct Hnd as [Hnd|?]; [left|by right]. cbn in Hnd. by apply NoDup_cons in Hnd as [_ ?].
  - intros t1 t2 Ht1 Ht2. apply (Hsep t1 t2); set_solver.
  - intros t' Ht'. destruct (Hl t' ltac:(set_solver)) as [G1 G2]. unfold st1. cbn. split.
    + rewrite lookup_delete_None. by right.
    + destruct recovering.
      * rewrite lookup_delete_None. by right.
      * destruct Hnd as [Hnd|?]; [|done]. cbn in Hnd. apply NoDup_cons in Hnd as [Hn _].
        change (lh_block t' (with_bs c1 s)) with (lh_block t' s).
        rewrite lookup_delete_ne; [done|]. intros E. apply Hn. rewrite E. apply list_elem_of_fmap. eauto.
  - exists c2. split; [exact E2|].
    assert ((fun t => (lh_block t s, on_disk (lg_start s + t + 1) (st_disk st))) <$> l =
            (fun t => (lh_block t s, on_disk (lg_start s + t + 1) (st_disk st1))) <$> l) as ->.
    { apply list_fmap_ext. intros i t' Hi. f_equal. unfold on_disk, st1. cbn.
      rewrite lookup_insert_ne; [done|]. intros E.
      apply (Hsep t' t); [apply list_elem_of_lookup_2 in Hi; set_solver|set_solver|done]. }
    revert R2. match goal with |- bs_rel c2 ?x -> bs_rel c2 ?y => replace y with x; [done|] end.
    unfold unlive. rewrite !puts_store. unfold st1. cbn. by rewrite <- app_assoc.
Qed.

(** ** The header *)

Lemma put_head_get n blocks hb : (length hb = BSIZE) -> 0 <= n <= LOGBLOCKS ->
  (forall t, 0 <= t < n -> 0 <= blocks !!! Z.to_nat t < 2 ^ 31) ->
  length (put_head n blocks hb) = BSIZE /\ get32 (put_head n blocks hb) 0 = n /\
  forall t, 0 <= t < n -> get32 (put_head n blocks hb) (Z.to_nat (t + 1)) = blocks !!! Z.to_nat t.
Proof.
  intros Hhb Hn Hb. unfold put_head.
  assert (BSIZE = 1024)%nat as HB by reflexivity. unfold LOGBLOCKS in Hn.
  assert (forall k hb', (k <= Z.to_nat n)%nat -> length hb' = BSIZE -> get32 hb' 0 = n ->
    let r := foldl (fun hb i => put32 hb (Z.to_nat (i + 1)) (blocks !!! Z.to_nat i)) hb' (zseq 0 k) in
    length r = BSIZE /\ get32 r 0 = n /\
    forall t, 0 <= t < Z.of_nat k -> get32 r (Z.to_nat (t + 1)) = blocks !!! Z.to_nat t) as Hk.
  { induction k as [|k IH]; intros hb' Hk Hl H0; cbv zeta.
    - cbn. split_and!; [done|done|lia].
    - assert (zseq 0 (Datatypes.S k) = zseq 0 k ++ [Z.of_nat k]) as ->.
      { unfold zseq. rewrite seq_S, fmap_app. done. }
      rewrite foldl_app. cbn [foldl]. destruct (IH hb' ltac:(lia) Hl H0) as (L & G0 & G).
      rewrite put32_length. split_and!; [done|rewrite get32_put32_ne by lia; done|].
      intros t Ht. destruct (decide (t = Z.of_nat k)) as [->|Hne].
      + rewrite get32_put32; [done|rewrite L, HB; lia|apply Hb; lia].
      + rewrite get32_put32_ne by lia. apply G. lia. }
  specialize (Hk (Z.to_nat n) (put32 hb 0 n)). rewrite Z2Nat.id in Hk by lia. apply Hk.
  - lia.
  - by rewrite put32_length.
  - apply get32_put32; [rewrite Hhb, HB; lia|lia].
Qed.

Lemma write_head_ok s st : bs_rel (lg_bs s) st -> st_live st !! lg_start s = None ->
  (size (st_live st) < NBUF)%nat ->
  exists c, write_head s = Ok tt (with_bs c s) /\
    bs_rel c (put_disk (lg_start s) (put_head (lg_n s) (lg_block s) (on_disk (lg_start s) (st_disk st))) st).
Proof.
  intros HR Hn Hsz. unfold write_head. mstep. set (b := lg_start s) in *.
  destruct (read_spec (lg_bs s) st b HR) as (h1 & c1 & E1 & R1 & _).
  { unfold can_read. by rewrite Hn. }
  mrun (bs_run _ s _ _ E1). unfold take_ref in R1. rewrite Hn in R1. unfold data. mstep.
  destruct (data_spec c1 _ b (mkLive h1 1 (on_disk b (st_disk st)) true) R1) as [Ed _].
  { rewrite lookup_set_live. by rewrite decide_True. }
  cbn [lv_h lv_data] in Ed. cbn [lg_bs with_bs lg_n lg_block]. rewrite Ed.
  set (d := put_head _ _ _).
  destruct (fill_spec c1 _ b (mkLive h1 1 (on_disk b (st_disk st)) true) d R1) as (c2 & E2 & R2); [|done|].
  { rewrite lookup_set_live. by rewrite decide_True. }
  mrun (bs_run _ (with_bs c1 s) _ _ E2).
  destruct (write_spec c2 _ b (mkLive h1 1 d true) R2) as (c3 & E3 & R3); [|done|].
  { rewrite lookup_set_live. by rewrite decide_True. }
  mrun (bs_run _ (with_bs c2 s) _ _ E3).
  destruct (release_spec c3 _ b (mkLive h1 1 d true) R3) as (c4 & E4 & R4); [|done| |].
  { cbn. by rewrite lookup_insert_eq. }
  { intros _. cbn. unfold on_disk. by rewrite lookup_insert_eq. }
  exists c4. split; [exact (bs_run _ (with_bs c3 s) _ _ E4)|]. cbn [lv_cnt] in R4.
  change (1 =? 1) with true in R4. cbv iota in R4.
  match type of R4 with bs_rel _ ?x => replace (put_disk b d st) with x; [done|] end.
  unfold drop_live, set_live, put_disk. cbn. f_equal. by rewrite insert_insert_eq, delete_insert_id.
Qed.

Lemma set_lh_block_ok i v s : 0 <= i < LOGBLOCKS ->
  set_lh_block i v s = Ok tt (with_block (<[Z.to_nat i := v]> (lg_block s)) s).
Proof.
  intros Hi. unfold set_lh_block. mstep.
  destruct (Z.ltb_spec i LOGBLOCKS); [|lia]. by destruct (Z.leb_spec 0 i); [|lia].
Qed.

(** The log state after [read_head]. *)
Lemma read_head_loop lh l : forall s,
  (forall t, t ∈ l -> 0 <= t < LOGBLOCKS) -> length (lg_block s) = Z.to_nat LOGBLOCKS ->
  exists blk, for_each l (fun i => set_lh_block i (get32 lh (Z.to_nat (i + 1)))) s = Ok tt (with_block blk s) /\
    length blk = Z.to_nat LOGBLOCKS /\
    forall t, 0 <= t < LOGBLOCKS -> blk !!! Z.to_nat t =
      if decide (t ∈ l) then get32 lh (Z.to_nat (t + 1)) else lg_block s !!! Z.to_nat t.
Proof.
  induction l as [|i l IH]; intros s Hl Hlen; cbn [for_each].
  { exists (lg_block s). split_and!; [by destruct s|done|]. intros t _. by rewrite decide_False by set_solver. }
  pose proof (Hl i ltac:(set_solver)) as Hi. mrun (set_lh_block_ok i (get32 lh (Z.to_nat (i + 1))) s Hi).
  set (blk1 := <[Z.to_nat i := get32 lh (Z.to_nat (i + 1))]> (lg_block s)).
  destruct (IH (with_block blk1 s)) as (blk & E & Hlb & Hb); [set_solver|unfold blk1; cbn; by rewrite length_insert|].
  exists blk. split_and!; [exact E|done|]. intros t Ht. rewrite Hb by done. cbn. unfold blk1.
  destruct (decide (t = i)) as [->|Hne].
  - rewrite list_lookup_total_insert_eq by (rewrite Hlen; lia). rewrite (decide_True (P := i ∈ i :: l)) by set_solver.
    by case_decide.
  - rewrite list_lookup_total_insert_ne by lia. repeat case_decide; try done; set_solver.
Qed.

Lemma elem_of_zseq t n : t ∈ zseq 0 n <-> 0 <= t < Z.of_nat n.
Proof.
  unfold zseq. rewrite list_elem_of_fmap. split.
  - intros (i & -> & Hi%elem_of_seq). lia.
  - intros Ht. exists (Z.to_nat t). split; [lia|]. apply elem_of_seq. lia.
Qed.

Lemma read_head_ok s st n : bs_rel (lg_bs s) st -> st_live st !! lg_start s = None ->
  (size (st_live st) < NBUF)%nat -> length (lg_block s) = Z.to_nat LOGBLOCKS ->
  get32 (on_disk (lg_start s) (st_disk st)) 0 = n -> 0 <= n <= LOGBLOCKS ->
  exists c blk, read_head s = Ok tt (with_bs c (with_block blk (with_n n s))) /\ bs_rel c st /\
    length blk = Z.to_nat LOGBLOCKS /\
    forall t, 0 <= t < n -> blk !!! Z.to_nat t = get32 (on_disk (lg_start s) (st_disk st)) (Z.to_nat (t + 1)).
Proof.
  intros HR Hn Hsz Hlen Hhd Hrange. unfold read_head. mstep. set (b := lg_start s) in *.
  destruct (read_spec (lg_bs s) st b HR) as (h1 & c1 & E1 & R1 & _).
  { unfold can_read. by rewrite Hn. }
  mrun (bs_run _ s _ _ E1). unfold take_ref in R1. rewrite Hn in R1. unfold data. mstep.
  destruct (data_spec c1 _ b (mkLive h1 1 (on_disk b (st_disk st)) true) R1) as [Ed _].
  { rewrite lookup_set_live. by rewrite decide_True. }
  cbn [lv_h lv_data] in Ed. cbn [lg_bs with_bs]. rewrite Ed, Hhd. cbn [lg_n with_n].
  set (s1 := with_n n (with_bs c1 s)).
  destruct (read_head_loop (on_disk b (st_disk st)) (zseq 0 (Z.to_nat n)) s1) as (blk & E2 & Hlb & Hb);
    [intros t Ht%elem_of_zseq; lia|done|].
  mrun E2.
  destruct (release_spec c1 _ b (mkLive h1 1 (on_disk b (st_disk st)) true) R1) as (c3 & E3 & R3); [|done|done|].
  { cbn. by rewrite lookup_insert_eq. }
  exists c3, blk. split; [exact (bs_run _ (with_block blk s1) _ _ E3)|].
  cbn [lv_cnt] in R3. change (1 =? 1) with true in R3. cbv iota in R3. split_and!; [|done|].
  - match type of R3 with bs_rel _ ?x => replace st with x at 1; [done|] end.
    unfold drop_live, set_live. cbn. rewrite delete_insert_id by done. by destruct st.
  - intros t Ht. rewrite Hb by lia. rewrite decide_True; [done|]. apply elem_of_zseq. lia.
Qed.

(** ** Recovery *)

(** The blocks of the log, header included. *)
Definition in_log (start b : Z) : Prop := start <= b <= start + LOGBLOCKS.

(** The copies that a committed header [hd] asks for. *)
Definition redo (start : Z) (hd : block) (n : Z) (D : gmap Z block) : list (Z * block) :=
  (fun t => (get32 hd (Z.to_nat (t + 1)), on_disk (start + t + 1) D)) <$> zseq 0 (Z.to_nat n).

Lemma unlive_empty ks d ws : unlive ks (mkStore ∅ d ws) = mkStore ∅ d ws.
Proof. unfold unlive. cbn. f_equal. induction ks as [|k ks IH]; [done|]. cbn. by rewrite delete_empty. Qed.

Lemma recover_ok s D wr n :
  let start := lg_start s in let hd := on_disk start D in
  bs_rel (lg_bs s) (mkStore ∅ D wr) -> length (lg_block s) = Z.to_nat LOGBLOCKS ->
  length hd = BSIZE -> get32 hd 0 = n -> 0 <= n <= LOGBLOCKS ->
  (forall t, 0 <= t < n -> ~ in_log start (get32 hd (Z.to_nat (t + 1)))) ->
  exists s', recover_from_log s = Ok tt s' /\ lg_n s' = 0 /\
    bs_rel (lg_bs s') (mkStore ∅ (apply_writes (redo start hd n D ++ [(start, put32 hd 0 0)]) D)
      (wr ++ redo start hd n D ++ [(start, put32 hd 0 0)])).
Proof.
  intros start hd HR Hlen Hhd Hn Hrange Hblk. unfold recover_from_log.
  assert (forall m : Z, st_live (mkStore ∅ D wr) !! m = None) as Hemp by (intros m; apply lookup_empty).
  destruct (read_head_ok s (mkStore ∅ D wr) n HR (Hemp _)) as (c1 & blk & E1 & R1 & Hlb & Hb);
    [apply Nat.ltb_lt; reflexivity|done|done|done|]. mrun E1. set (s1 := with_bs c1 _) in *.
  fold hd in Hb. fold start in Hb.
  assert (forall t, 0 <= t < n -> lh_block t s1 = get32 hd (Z.to_nat (t + 1))) as Hlh by exact Hb.
  assert (forall t, t ∈ zseq 0 (Z.to_nat n) -> 0 <= t < n) as Hz by (intros t Ht%elem_of_zseq; lia).
  destruct (install_loop true
    (fun tail => start ← gets lg_start; b ← gets (lh_block tail);
      lbuf ← bs (bs_read (start + tail + 1)); dbuf ← bs (bs_read b); d ← data lbuf;
      bs (bs_fill dbuf d);; bs (bs_write dbuf);;
      (if negb true then bs (bs_unpin dbuf) else mret tt);;
      bs (bs_release lbuf);; bs (bs_release dbuf)) (zseq 0 (Z.to_nat n)) s1 (mkStore ∅ D wr) R1)
    as (c2 & E2 & R2).
  { apply Nat.ltb_lt. reflexivity. }
  { by right. }
  { intros t t' Ht%Hz Ht'%Hz E. change (lg_start s1) with start in E. rewrite Hlh in E by done.
    apply (Hblk t' Ht'). rewrite <- E. unfold in_log. lia. }
  { intros t _. split; apply lookup_empty. }
  { done. }
  assert (install_trans true s1 = Ok tt (with_bs c2 s1)) as E2' by exact E2.
  mrun E2'. mstep. rewrite puts_store, unlive_empty in R2. cbn [st_live st_disk st_writes] in R2.
  assert ((fun t => (lh_block t s1, on_disk (lg_start s1 + t + 1) D)) <$> zseq 0 (Z.to_nat n) = redo start hd n D) as Ew.
  { apply list_fmap_ext. intros i t Hi. rewrite Hlh by (apply Hz; by eapply list_elem_of_lookup_2). done. }
  rewrite Ew in R2.
  destruct (write_head_ok (with_n 0 (with_bs c2 s1)) _ R2) as (c3 & E3 & R3);
    [apply lookup_empty|apply Nat.ltb_lt; reflexivity|].
  eexists. split; [exact E3|]. split; [done|]. cbn [lg_bs with_bs]. revert R3.
  match goal with |- bs_rel c3 ?x -> bs_rel c3 ?y => replace y with x; [done|] end.
  unfold put_disk. cbn [st_live st_disk st_writes]. change (lg_start (with_n 0 (with_bs c2 s1))) with start.
  assert (on_disk start (apply_writes (redo start hd n D) D) = hd) as Eh.
  { apply apply_writes_ne. intros (w & Ew1 & (t & -> & Ht%Hz)%list_elem_of_fmap)%list_elem_of_fmap.
    cbn in Ew1. apply (Hblk t Ht). rewrite <- Ew1. unfold in_log, LOGBLOCKS. lia. }
  rewrite Eh. cbn [lg_n with_n put_head]. unfold put_head. cbn [Z.to_nat zseq seq fmap list_fmap foldl].
  rewrite apply_writes_app, <- app_assoc. done.
Qed.

(** ** Commit *)

(** The state in which [commit] runs: the blocks of the transaction are
    distinct, outside the log, and are just the ones in use, each pinned once;
    the header on disk is empty; two buffers are left. *)
Record commit_pre (s : logst BC) (st : store) : Prop := {
  cp_rel : bs_rel (lg_bs s) st;
  cp_n : 0 < lg_n s <= LOGBLOCKS - 2;
  cp_len : length (lg_block s) = Z.to_nat LOGBLOCKS;
  cp_blocks t : 0 <= t < lg_n s -> ~ in_log (lg_start s) (lh_block t s) /\ 0 <= lh_block t s < 2 ^ 31;
  cp_nodup : NoDup ((fun t => lh_block t s) <$> zseq 0 (Z.to_nat (lg_n s)));
  cp_live t : 0 <= t < lg_n s -> is_Some (st_live st !! lh_block t s);
  cp_pins b lv : st_live st !! b = Some lv ->
    lv_locked lv = false /\ lv_cnt lv = 1 /\ exists t, 0 <= t < lg_n s /\ lh_block t s = b;
  cp_head : length (on_disk (lg_start s) (st_disk st)) = BSIZE /\
    get32 (on_disk (lg_start s) (st_disk st)) 0 = 0
}.

(** The writes of [commit], in order. *)
Definition log_copies (s : logst BC) (st : store) : list (Z * block) :=
  (fun t => (lg_start s + t + 1, current (lh_block t s) st)) <$> zseq 0 (Z.to_nat (lg_n s)).
Definition home_copies (s : logst BC) (st : store) : list (Z * block) :=
  (fun t => (lh_block t s, current (lh_block t s) st)) <$> zseq 0 (Z.to_nat (lg_n s)).
Definition new_head (s : logst BC) (st : store) : block :=
  put_head (lg_n s) (lg_block s) (on_disk (lg_start s) (st_disk st)).
Definition commit_writes (s : logst BC) (st : store) : list (Z * block) :=
  log_copies s st ++ (lg_start s, new_head s st) :: home_copies s st ++
    [(lg_start s, put32 (new_head s st) 0 0)].

Lemma cp_size s st : commit_pre s st -> (size (st_live st) <= Z.to_nat (lg_n s))%nat.
Proof.
  intros Hp. rewrite <- size_dom.
  assert (dom (st_live st) ⊆ (list_to_set ((fun t => lh_block t s) <$> zseq 0 (Z.to_nat (lg_n s))) : gset Z)) as Hsub.
  { intros b Hb. apply elem_of_dom in Hb as [lv Hb]. apply (cp_pins _ _ Hp) in Hb as (_ & _ & t & Ht & <-).
    apply elem_of_list_to_set, list_elem_of_fmap. exists t. split; [done|]. apply elem_of_zseq. lia. }
  apply subseteq_size in Hsub. rewrite size_list_to_set in Hsub by apply Hp.
  rewrite length_fmap, zseq_length in Hsub. done.
Qed.

Lemma cp_log_free s st b : commit_pre s st -> in_log (lg_start s) b -> st_live st !! b = None.
Proof.
  intros Hp Hb. destruct (st_live st !! b) as [lv|] eqn:E; [|done].
  apply (cp_pins _ _ Hp) in E as (_ & _ & t & Ht & <-). by destruct (cp_blocks _ _ Hp t Ht) as [? _].
Qed.

Lemma unlive_all s st : commit_pre s st ->
  foldl (fun m k => delete k m) (st_live st) ((fun t => lh_block t s) <$> zseq 0 (Z.to_nat (lg_n s))) = ∅.
Proof.
  intros Hp. assert (forall ks (m : gmap Z live) b,
    foldl (fun m k => delete k m) m ks !! b = if decide (b ∈ ks) then None else m !! b) as Hd.
  { induction ks as [|k ks IH]; intros m b; [by rewrite decide_False by set_solver|]. cbn. rewrite IH.
    destruct (decide (b = k)) as [->|Hne].
    - rewrite (decide_True (P := k ∈ k :: ks)) by set_solver. case_decide; [done|by rewrite lookup_delete_eq].
    - rewrite lookup_delete_ne by done. repeat case_decide; try done; set_solver. }
  apply map_eq. intros b. rewrite Hd, lookup_empty. case_decide as Hb; [done|].
  destruct (st_live st !! b) as [lv|] eqn:E; [|done].
  apply (cp_pins _ _ Hp) in E as (_ & _ & t & Ht & <-). destruct Hb. apply list_elem_of_fmap.
  exists t. split; [done|]. apply elem_of_zseq. lia.
Qed.

Lemma zseq_range s t : t ∈ zseq 0 (Z.to_nat (lg_n s)) -> 0 <= t < lg_n s.
Proof. intros Ht%elem_of_zseq. lia. Qed.

Lemma log_copies_keys s st b : commit_pre s st -> b ∈ (log_copies s st).*1 -> in_log (lg_start s) b /\ b <> lg_start s.
Proof.
  intros Hp (w & -> & (t & -> & Ht%zseq_range)%list_elem_of_fmap)%list_elem_of_fmap. cbn.
  pose proof (cp_n _ _ Hp). unfold in_log, LOGBLOCKS in *. lia.
Qed.

Lemma home_copies_keys s st b : commit_pre s st -> b ∈ (home_copies s st).*1 -> ~ in_log (lg_start s) b.
Proof.
  intros Hp (w & -> & (t & -> & Ht%zseq_range)%list_elem_of_fmap)%list_elem_of_fmap. cbn.
  by apply (cp_blocks _ _ Hp).
Qed.

(** The log blocks hold the transaction, after any writes outside the log. *)
Lemma logged s st ws D t : commit_pre s st -> 0 <= t < lg_n s ->
  (forall b, b ∈ ws.*1 -> ~ in_log (lg_start s) b \/ b = lg_start s) ->
  on_disk (lg_start s + t + 1) (apply_writes (log_copies s st ++ ws) D) = current (lh_block t s) st.
Proof.
  intros Hp Ht Hws. pose proof (cp_n _ _ Hp) as Hn. rewrite apply_writes_app, apply_writes_ne.
  - apply apply_writes_eq.
    + apply list_elem_of_fmap. exists (lg_start s + t + 1, current (lh_block t s) st). split; [done|].
      apply list_elem_of_fmap. exists t. split; [done|]. apply elem_of_zseq. lia.
    + intros w (t' & -> & _)%list_elem_of_fmap Et. cbn in *. by replace t' with t by lia.
  - intros Hin. destruct (Hws _ Hin) as [Hno|E]; [apply Hno|]; unfold in_log, LOGBLOCKS in *; lia.
Qed.

Lemma in_log_start s : in_log (lg_start s) (lg_start s).
Proof. unfold in_log, LOGBLOCKS. lia. Qed.

Lemma commit_ok s st : commit_pre s st ->
  exists c, commit s = Ok tt (with_bs c (with_n 0 s)) /\
    bs_rel c (mkStore ∅ (apply_writes (commit_writes s st) (st_disk st)) (st_writes st ++ commit_writes s st)).
Proof.
  intros Hp. pose proof (cp_n _ _ Hp) as Hn. pose proof (cp_size _ _ Hp) as Hsz.
  assert (NBUF = 30)%nat as HNB by reflexivity. unfold LOGBLOCKS in Hn.
  unfold commit. mstep. destruct (Z.ltb_spec 0 (lg_n s)); [|lia].
  destruct (write_log_loop
    (fun tail => start ← gets lg_start; b ← gets (lh_block tail);
      to ← bs (bs_read (start + tail + 1)); from ← bs (bs_read b); d ← data from;
      bs (bs_fill to d);; bs (bs_write to);; bs (bs_release from);; bs (bs_release to))
    (zseq 0 (Z.to_nat (lg_n s))) s st (cp_rel _ _ Hp) ltac:(lia)) as (c1 & E1 & R1).
  { intros t Ht%zseq_range. split; [apply (cp_log_free _ _ _ Hp); unfold in_log, LOGBLOCKS; lia|].
    destruct (cp_live _ _ Hp t Ht) as [lv Hlv]. exists lv. apply (cp_pins _ _ Hp) in Hlv as Hpin. naive_solver. }
  { done. }
  assert (write_log s = Ok tt (with_bs c1 s)) as E1' by exact E1. mrun E1'. clear E1 E1'.
  fold (log_copies s st) in R1. rewrite puts_store in R1.
  destruct (write_head_ok (with_bs c1 s) _ R1) as (c2 & E2 & R2);
    [exact (cp_log_free s st (lg_start s) Hp (in_log_start s))|cbn [st_live]; lia|].
  mrun E2. cbn [st_live st_disk st_writes with_bs lg_start lg_n lg_block] in R2.
  rewrite (apply_writes_ne (log_copies s st)) in R2.
  2: { intros Hin. by apply (log_copies_keys _ _ _ Hp) in Hin as [_ ?]. }
  fold (new_head s st) in R2. unfold put_disk in R2. cbn [st_live st_disk st_writes] in R2.
  set (D2 := <[lg_start s := new_head s st]> _) in R2.
  assert (D2 = apply_writes (log_copies s st ++ [(lg_start s, new_head s st)]) (st_disk st)) as ED2
    by (by rewrite apply_writes_app).
  assert (forall t, 0 <= t < lg_n s -> on_disk (lg_start s + t + 1) D2 = current (lh_block t s) st) as HD2.
  { intros t Ht. rewrite ED2. apply logged; [done|done|]. intros b Hb. right. set_solver. }
  destruct (install_loop false
    (fun tail => start ← gets lg_start; b ← gets (lh_block tail);
      lbuf ← bs (bs_read (start + tail + 1)); dbuf ← bs (bs_read b); d ← data lbuf;
      bs (bs_fill dbuf d);; bs (bs_write dbuf);;
      (if negb false then bs (bs_unpin dbuf) else mret tt);;
      bs (bs_release lbuf);; bs (bs_release dbuf))
    (zseq 0 (Z.to_nat (lg_n s))) (with_bs c2 s) _ R2) as (c3 & E3 & R3).
  { cbn [st_live]. lia. }
  { left. apply (cp_nodup _ _ Hp). }
  { intros t t' Ht%zseq_range Ht'%zseq_range E. destruct (cp_blocks _ _ Hp t' Ht') as [Hno _]. apply Hno.
    change (lh_block t' (with_bs c2 s)) with (lh_block t' s) in E. rewrite <- E. cbn.
    unfold in_log, LOGBLOCKS. lia. }
  { intros t Ht%zseq_range. cbn [st_live]. split; [apply (cp_log_free _ _ _ Hp); cbn; unfold in_log, LOGBLOCKS; lia|].
    destruct (cp_live _ _ Hp t Ht) as [lv Hlv]. exists lv. apply (cp_pins _ _ Hp) in Hlv as Hpin. naive_solver. }
  { done. }
  assert (install_trans false (with_bs c2 s) = Ok tt (with_bs c3 s)) as E3' by exact E3. mrun E3'. clear E3 E3'.
  mstep. rewrite puts_store in R3. unfold unlive in R3. cbn [st_live st_disk st_writes] in R3.
  change (fun t => lh_block t (with_bs c2 s)) with (fun t => lh_block t s) in R3.
  rewrite (unlive_all _ _ Hp) in R3.
  assert ((fun t => (lh_block t (with_bs c2 s), on_disk (lg_start (with_bs c2 s) + t + 1) D2)) <$>
    zseq 0 (Z.to_nat (lg_n s)) = home_copies s st) as Ehc.
  { apply list_fmap_ext. intros i t Hi. cbn. rewrite HD2; [done|]. apply zseq_range. by eapply list_elem_of_lookup_2. }
  rewrite Ehc in R3.
  destruct (write_head_ok (with_n 0 (with_bs c3 s)) _ R3) as (c4 & E4 & R4);
    [apply lookup_empty|apply Nat.ltb_lt; reflexivity|].
  exists c4. split; [exact E4|]. revert R4.
  match goal with |- bs_rel c4 ?x -> bs_rel c4 ?y => replace y with x; [done|] end.
  unfold put_disk. cbn [st_live st_disk st_writes]. change (lg_start (with_n 0 (with_bs c3 s))) with (lg_start s).
  rewrite (apply_writes_ne (home_copies s st)).
  2: { intros Hin. by apply (home_copies_keys _ _ _ Hp) in Hin; destruct Hin; apply in_log_start. }
  assert (on_disk (lg_start s) D2 = new_head s st) as ->.
  { unfold D2, on_disk. by rewrite lookup_insert_eq. }
  unfold commit_writes. change (put_head (lg_n (with_n 0 (with_bs c3 s))) _ (new_head s st)) with (put32 (new_head s st) 0 0).
  f_equal.
  - rewrite apply_writes_app, apply_writes_cons, apply_writes_app. done.
  - by rewrite <- !app_assoc.
Qed.

(** ** Crashes *)

(** The file system (all blocks outside the log) as [f] has it. *)
Definition fs_is (start : Z) (D : gmap Z block) (f : Z -> block) : Prop :=
  forall b, ~ in_log start b -> on_disk b D = f b.

Lemma fs_is_writes start D ws f :
  fs_is start D f -> (forall b, b ∈ ws.*1 -> in_log start b) -> fs_is start (apply_writes ws D) f.
Proof. intros HD Hws b Hb. rewrite apply_writes_ne; [by apply HD|]. intros Hin. by apply Hws in Hin. Qed.

(** With the home copies made, the file system is the new one. *)
Lemma fs_is_home s st D : commit_pre s st ->
  (forall b, ~ in_log (lg_start s) b -> b ∉ (home_copies s st).*1 -> on_disk b D = on_disk b (st_disk st)) ->
  fs_is (lg_start s) (apply_writes (home_copies s st) D) (fun b => current b st).
Proof.
  intros Hp HD b Hb. destruct (decide (b ∈ (home_copies s st).*1)) as [Hin|Hnin].
  - apply apply_writes_eq; [done|]. intros w (t & -> & _)%list_elem_of_fmap Ew. cbn in *. by rewrite Ew.
  - rewrite apply_writes_ne, HD by done. unfold current. destruct (st_live st !! b) as [lv|] eqn:E; [|done].
    destruct Hnin. apply (cp_pins _ _ Hp) in E as (_ & _ & t & Ht & <-).
    apply list_elem_of_fmap. exists (lh_block t s, current (lh_block t s) st). split; [done|].
    apply list_elem_of_fmap. exists t. split; [done|]. apply elem_of_zseq. lia.
Qed.

Lemma new_head_get s st : commit_pre s st ->
  length (new_head s st) = BSIZE /\ get32 (new_head s st) 0 = lg_n s /\
  forall t, 0 <= t < lg_n s -> get32 (new_head s st) (Z.to_nat (t + 1)) = lh_block t s.
Proof.
  intros Hp. pose proof (cp_n _ _ Hp) as Hn. unfold LOGBLOCKS in Hn. apply put_head_get.
  - apply Hp.
  - unfold LOGBLOCKS. lia.
  - intros t Ht. by apply (cp_blocks _ _ Hp).
Qed.

(** The writes after the header name [start] or blocks outside the log. *)
Lemma home_prefix_keys s st j b : commit_pre s st ->
  b ∈ ((lg_start s, new_head s st) :: take j (home_copies s st)).*1 -> ~ in_log (lg_start s) b \/ b = lg_start s.
Proof.
  intros Hp Hb. cbn in Hb. apply elem_of_cons in Hb as [->|Hb]; [by right|left].
  apply (home_copies_keys _ _ _ Hp). apply list_elem_of_fmap in Hb as (w & -> & Hw).
  apply list_elem_of_fmap. exists w. split; [done|]. by apply (subseteq_take _ _ _ Hw).
Qed.

(** Recovery from a disk whose header is empty. *)
Lemma recover_empty r D wr f :
  bs_rel (lg_bs r) (mkStore ∅ D wr) -> length (lg_block r) = Z.to_nat LOGBLOCKS ->
  length (on_disk (lg_start r) D) = BSIZE -> get32 (on_disk (lg_start r) D) 0 = 0 ->
  fs_is (lg_start r) D f ->
  exists r' D' wr', recover_from_log r = Ok tt r' /\ bs_rel (lg_bs r') (mkStore ∅ D' wr') /\
    get32 (on_disk (lg_start r) D') 0 = 0 /\ fs_is (lg_start r) D' f.
Proof.
  intros HR Hlen Hhd Hn Hf.
  destruct (recover_ok r D wr 0 HR Hlen Hhd Hn) as (r' & E & _ & R'); [done|lia|].
  eexists r', _, _. split; [exact E|]. split; [exact R'|]. split.
  - rewrite apply_writes_last. apply get32_put32; [|lia].
    rewrite Hhd. apply Nat.ltb_lt. reflexivity.
  - apply fs_is_writes; [done|]. intros b Hb. cbn in Hb. assert (b = lg_start r) as -> by set_solver.
    apply in_log_start.
Qed.

(** Recovery from a disk whose header commits the transaction. *)
Lemma recover_committed s st r j : commit_pre s st -> lg_start r = lg_start s ->
  let D := apply_writes (log_copies s st ++ (lg_start s, new_head s st) :: take j (home_copies s st)) (st_disk st) in
  forall wr, bs_rel (lg_bs r) (mkStore ∅ D wr) -> length (lg_block r) = Z.to_nat LOGBLOCKS ->
  exists r' D' wr', recover_from_log r = Ok tt r' /\ bs_rel (lg_bs r') (mkStore ∅ D' wr') /\
    get32 (on_disk (lg_start s) D') 0 = 0 /\ fs_is (lg_start s) D' (fun b => current b st).
Proof.
  intros Hp Es D wr HR Hlen. destruct (new_head_get _ _ Hp) as (Hl & Hn0 & Hbl).
  pose proof (cp_n _ _ Hp) as Hn. unfold LOGBLOCKS in Hn.
  assert (on_disk (lg_start s) D = new_head s st) as Eh.
  { unfold D. rewrite apply_writes_app, apply_writes_cons, apply_writes_ne.
    - unfold on_disk. cbn. by rewrite lookup_insert_eq.
    - intros Hin. destruct (home_copies_keys s st (lg_start s) Hp); [|apply in_log_start].
      apply list_elem_of_fmap in Hin as (w & -> & Hw). apply list_elem_of_fmap. exists w.
      split; [done|]. by apply (subseteq_take _ _ _ Hw). }
  assert (redo (lg_start s) (new_head s st) (lg_n s) D = home_copies s st) as Er.
  { apply list_fmap_ext. intros i t Hi. apply list_elem_of_lookup_2, zseq_range in Hi.
    rewrite Hbl by done. f_equal. apply logged; [done|done|]. intros b. by apply home_prefix_keys. }
  destruct (recover_ok r D wr (lg_n s) HR Hlen) as (r' & E & _ & R'); rewrite ?Es, ?Eh in *;
    [done|done|unfold LOGBLOCKS; lia|intros t Ht; rewrite Hbl by done; by apply (cp_blocks _ _ Hp)|].
  rewrite Er in R'. eexists r', _, _. split; [exact E|]. split; [exact R'|]. split.
  - rewrite apply_writes_last. apply get32_put32; [|lia]. rewrite Hl. apply Nat.ltb_lt. reflexivity.
  - rewrite apply_writes_app. apply fs_is_writes.
    2: { intros b Hb. cbn in Hb. assert (b = lg_start s) as -> by set_solver. apply in_log_start. }
    apply fs_is_home; [done|]. intros b Hb Hnin. unfold D. apply apply_writes_ne.
    rewrite fmap_app, elem_of_app. intros [Hin|Hin].
    + by apply (log_copies_keys _ _ _ Hp) in Hin as [? _].
    + cbn in Hin. apply elem_of_cons in Hin as [->|Hin]; [by apply Hb, in_log_start|]. apply Hnin.
      apply list_elem_of_fmap in Hin as (w & -> & Hw). apply list_elem_of_fmap. exists w.
      split; [done|]. by apply (subseteq_take _ _ _ Hw).
Qed.

Lemma log_copies_length s st : length (log_copies s st) = Z.to_nat (lg_n s).
Proof. unfold log_copies. by rewrite length_fmap, zseq_length. Qed.
Lemma home_copies_length s st : length (home_copies s st) = Z.to_nat (lg_n s).
Proof. unfold home_copies. by rewrite length_fmap, zseq_length. Qed.

(** The disk when [commit] has returned. *)
Lemma committed_disk s st : commit_pre s st ->
  on_disk (lg_start s) (apply_writes (commit_writes s st) (st_disk st)) = put32 (new_head s st) 0 0 /\
  fs_is (lg_start s) (apply_writes (commit_writes s st) (st_disk st)) (fun b => current b st).
Proof.
  intros Hp. assert (apply_writes (commit_writes s st) (st_disk st) =
    apply_writes ([] ++ [(lg_start s, put32 (new_head s st) 0 0)]) (apply_writes (home_copies s st)
      (apply_writes (log_copies s st ++ [(lg_start s, new_head s st)]) (st_disk st)))) as ->.
  { unfold commit_writes. cbn [app]. by rewrite <- !apply_writes_app, <- !app_assoc. }
  split; [apply apply_writes_last|]. apply fs_is_writes.
  2: { intros b Hb. cbn in Hb. assert (b = lg_start s) as -> by set_solver. apply in_log_start. }
  apply fs_is_home; [done|]. intros b Hb Hnin. apply apply_writes_ne.
  rewrite fmap_app, elem_of_app. intros [Hin|Hin].
  - by apply (log_copies_keys _ _ _ Hp) in Hin as [? _].
  - cbn in Hin. assert (b = lg_start s) as -> by set_solver. by apply Hb, in_log_start.
Qed.

(** Recovery after a crash behind the first [k] writes of [commit]. *)
Lemma recover_prefix s st r k : commit_pre s st -> lg_start r = lg_start s ->
  forall wr, bs_rel (lg_bs r) (mkStore ∅ (apply_writes (take k (commit_writes s st)) (st_disk st)) wr) ->
  length (lg_block r) = Z.to_nat LOGBLOCKS ->
  exists r' D' wr', recover_from_log r = Ok tt r' /\ bs_rel (lg_bs r') (mkStore ∅ D' wr') /\
    get32 (on_disk (lg_start s) D') 0 = 0 /\
    fs_is (lg_start s) D' (fun b => if decide (k <= Z.to_nat (lg_n s))%nat then on_disk b (st_disk st) else current b st).
Proof.
  intros Hp Es wr HR Hlen. destruct (new_head_get _ _ Hp) as (Hl & Hn0 & Hbl).
  pose proof (log_copies_length s st) as Ll. pose proof (home_copies_length s st) as Lh.
  destruct (cp_head _ _ Hp) as [Hh1 Hh2]. unfold commit_writes in HR.
  case_decide as Hk.
  - rewrite take_app_le in HR by lia.
    assert (forall b, b ∈ (take k (log_copies s st)).*1 -> in_log (lg_start s) b /\ b <> lg_start s) as Hkeys.
    { intros b (w & -> & Hw)%list_elem_of_fmap. apply (log_copies_keys s st); [done|]. apply list_elem_of_fmap.
      exists w. split; [done|]. by apply (subseteq_take _ _ _ Hw). }
    assert (on_disk (lg_start s) (apply_writes (take k (log_copies s st)) (st_disk st)) = on_disk (lg_start s) (st_disk st)) as Eh.
    { apply apply_writes_ne. intros Hin. by apply Hkeys in Hin as [_ ?]. }
    rewrite <- Es. apply recover_empty with (1 := HR); rewrite ?Es, ?Eh; try done.
    apply fs_is_writes; [done|]. intros b Hb. by apply Hkeys.
  - destruct (decide (k <= 2 * Z.to_nat (lg_n s) + 1)%nat) as [Hk2|Hk2].
    + rewrite take_app_ge in HR by lia. rewrite Ll in HR.
      destruct (k - Z.to_nat (lg_n s))%nat as [|j] eqn:Ej; [lia|]. cbn [take] in HR.
      rewrite take_app_le in HR by lia. by apply (recover_committed s st r j Hp Es wr).
    + rewrite take_ge in HR.
      2: { rewrite length_app, Ll. cbn. rewrite length_app, Lh. cbn. lia. }
      destruct (committed_disk s st Hp) as [ED Hfs]. unfold commit_writes in ED, Hfs.
      rewrite <- Es. eapply recover_empty; [exact HR|done| | |]; rewrite ?Es; [rewrite ED..|done].
      * by rewrite put32_length.
      * apply get32_put32; [|lia]. rewrite Hl. apply Nat.ltb_lt. reflexivity.
Qed.

(** The same, from [initlog]. *)
Lemma initlog_ok s st k r wr : commit_pre s st -> length (lg_block r) = Z.to_nat LOGBLOCKS ->
  bs_rel (lg_bs r) (mkStore ∅ (apply_writes (take k (commit_writes s st)) (st_disk st)) wr) ->
  exists r' D' wr', initlog (lg_start s) r = Ok tt r' /\ bs_rel (lg_bs r') (mkStore ∅ D' wr') /\
    get32 (on_disk (lg_start s) D') 0 = 0 /\
    fs_is (lg_start s) D' (fun b => if decide (k <= Z.to_nat (lg_n s))%nat then on_disk b (st_disk st) else current b st).
Proof.
  intros Hp Hlen HR. unfold initlog.
  rewrite (proj2 (Nat.leb_gt BSIZE SIZEOF_LOGHEADER)) by (apply Nat.ltb_lt; reflexivity). mstep.
  by apply (recover_prefix s st (with_start (lg_start s) r) k Hp eq_refl wr).
Qed.

(** C36: a transaction is atomic across crashes.  [commit] runs to its end,
    leaves every block outside the log with the content the cache had for it
    and the log empty on disk.  And when the machine stops after any number
    [k] of the disk writes [commit] makes, and [initlog] runs after the
    restart on an empty cache, it ends normally with an empty log and a file
    system that is exactly the old one when the header had not been written
    yet, and exactly the new one from the header write on: never a mixture. *)
Theorem commit_crash_atomic s st :
  commit_pre s st ->
  exists s', commit s = Ok tt s' /\ lg_n s' = 0 /\
    bs_rel (lg_bs s') (mkStore ∅ (apply_writes (commit_writes s st) (st_disk st))
                         (st_writes st ++ commit_writes s st)) /\
    (forall b, ~ in_log (lg_start s) b ->
       on_disk b (apply_writes (commit_writes s st) (st_disk st)) = current b st) /\
    forall k r wr, length (lg_block r) = Z.to_nat LOGBLOCKS ->
      bs_rel (lg_bs r) (mkStore ∅ (apply_writes (take k (commit_writes s st)) (st_disk st)) wr) ->
      exists r' D' wr', initlog (lg_start s) r = Ok tt r' /\ bs_rel (lg_bs r') (mkStore ∅ D' wr') /\
        get32 (on_disk (lg_start s) D') 0 = 0 /\
        forall b, ~ in_log (lg_start s) b ->
          on_disk b D' = if decide (k <= Z.to_nat (lg_n s))%nat then on_disk b (st_disk st) else current b st.
Proof.
  intros Hp. destruct (commit_ok s st Hp) as (c & E & R). eexists. split; [exact E|]. split; [done|].
  split; [exact R|]. split; [by apply committed_disk|]. intros k r wr. by apply initlog_ok.
Qed.
End Steps.
