(* ===== verification/XTxn.v ===== *)
(** reference/xv6-riscv/kernel/log.c: transactions, over [XLog].

    [txn] is the state of the log while a transaction is open: every block
    that was modified is pinned exactly once and recorded exactly once.
    [log_update] is the use of [log_write] its comment prescribes; it keeps
    [txn], and [end_op] of the last operation turns it into a commit.  The
    second part shows that the space [begin_op] reserves is enough for any
    interleaving of operations that each write at most [MAXOPBLOCKS] blocks. *)

From Stdlib Require Import ZArith Lia.
From stdpp Require Import base strings numbers gmap list.
From S2P Require Import Prelude Vm XStore XBio XLog.

Section Txn.
Context {BC : Type} `{BlockStore BC}.
Implicit Types s : logst BC.

(** [bp = bread(...); modify bp->data; log_write(bp); brelse(bp)]. *)
Definition log_update (n : Z) (d : block) : M (logst BC) unit :=
  bp ← bs (bs_read n);
  bs (bs_fill bp d);;
  log_write bp;;
  bs (bs_release bp).

Definition recorded (s : logst BC) : list Z := take (Z.to_nat (lg_n s)) (lg_block s).

Record txn (s : logst BC) (st : store) : Prop := {
  tx_rel : bs_rel (lg_bs s) st;
  tx_n : 0 <= lg_n s <= LOGBLOCKS - 2;
  tx_len : length (lg_block s) = Z.to_nat LOGBLOCKS;
  tx_blocks : Forall (fun b => ~ in_log (lg_start s) b /\ 0 <= b < 2 ^ 31) (recorded s);
  tx_nodup : NoDup (recorded s);
  tx_pins b : match st_live st !! b with
    | Some lv => lv_locked lv = false /\ lv_cnt lv = 1 /\ b ∈ recorded s
    | None => b ∉ recorded s
    end;
  tx_head : length (on_disk (lg_start s) (st_disk st)) = BSIZE /\
    get32 (on_disk (lg_start s) (st_disk st)) 0 = 0
}.

Lemma recorded_zseq s : length (lg_block s) = Z.to_nat LOGBLOCKS -> 0 <= lg_n s <= LOGBLOCKS ->
  (fun t => lh_block t s) <$> zseq 0 (Z.to_nat (lg_n s)) = recorded s.
Proof.
  intros Hlen Hn. unfold recorded, lh_block. apply list_eq_same_length with (Z.to_nat (lg_n s)).
  - rewrite length_take. lia.
  - by rewrite length_fmap, zseq_length.
  - intros i x y Hi. rewrite list_lookup_fmap, zseq_lookup by done. cbn. intros [= <-].
    rewrite lookup_take_lt by done. intros E.
    apply list_lookup_total_correct. replace (Z.to_nat (0 + Z.of_nat i)) with i by lia. exact E.
Qed.

Lemma txn_commit_pre s st : txn s st -> 0 < lg_n s -> commit_pre s st.
Proof.
  intros Ht Hn. pose proof (tx_n _ _ Ht) as Hb. assert (lg_n s <= LOGBLOCKS) as Hb' by lia.
  pose proof (recorded_zseq s (tx_len _ _ Ht) ltac:(lia)) as Er.
  assert (forall t, 0 <= t < lg_n s -> lh_block t s ∈ recorded s) as Hin.
  { intros t Hr. rewrite <- Er. apply list_elem_of_fmap. exists t. split; [done|]. apply elem_of_zseq. lia. }
  split; try apply Ht; [lia| | | |].
  - intros t Hr. pose proof (tx_blocks _ _ Ht) as Hf. rewrite Forall_forall in Hf. by apply Hf, Hin.
  - rewrite Er. apply Ht.
  - intros t Hr. specialize (Hin t Hr). pose proof (tx_pins _ _ Ht (lh_block t s)) as Hp.
    destruct (st_live st !! lh_block t s); [by eexists|done].
  - intros b lv E. pose proof (tx_pins _ _ Ht b) as Hp. rewrite E in Hp. destruct Hp as (? & ? & Hr).
    split_and!; [done|done|]. rewrite <- Er in Hr. apply list_elem_of_fmap in Hr as (t & -> & Ht').
    exists t. split; [by apply zseq_range|done].
Qed.

(** The search of [log_write]. *)
Lemma absorb_spec blocks n i b : (n <= length blocks)%nat ->
  if decide (b ∈ take n blocks)
  then exists j, absorb blocks n i b = i + Z.of_nat j /\ (j < n)%nat /\ blocks !! j = Some b
  else absorb blocks n i b = i + Z.of_nat n.
Proof.
  revert n i. induction blocks as [|x blocks IH]; intros [|n] i Hn; cbn [length] in Hn; try lia.
  1-2: rewrite decide_False by apply not_elem_of_nil; cbn; lia.
  - cbn [absorb take]. destruct (Z.eqb_spec x b) as [->|Hne].
    + rewrite decide_True by set_solver. exists 0%nat. split_and!; [lia|lia|done].
    + specialize (IH n (i + 1) ltac:(lia)). destruct (decide (b ∈ take n blocks)) as [Hin|Hnin].
      * rewrite decide_True by set_solver. destruct IH as (j & E & Hj & El). exists (Datatypes.S j).
        split_and!; [lia|lia|done].
      * rewrite decide_False by set_solver. lia.
Qed.

(** [log_write] of a block that the transaction has already: nothing changes. *)
Lemma log_write_again s b : bs_blockno b (lg_bs s) ∈ recorded s ->
  length (lg_block s) = Z.to_nat LOGBLOCKS -> 0 <= lg_n s < LOGBLOCKS -> 1 <= lg_outstanding s ->
  log_write b s = Ok tt s.
Proof.
  intros Hin Hlen Hn Ho. unfold log_write. mstep.
  destruct (Z.leb_spec LOGBLOCKS (lg_n s)); [lia|]. destruct (Z.ltb_spec (lg_outstanding s) 1); [lia|].
  pose proof (absorb_spec (lg_block s) (Z.to_nat (lg_n s)) 0 (bs_blockno b (lg_bs s)) ltac:(lia)) as Ha.
  unfold recorded in Hin. rewrite decide_True in Ha by done. destruct Ha as (j & -> & Hj & El).
  mrun (set_lh_block_ok (0 + Z.of_nat j) (bs_blockno b (lg_bs s)) s ltac:(lia)).
  destruct (Z.eqb_spec (0 + Z.of_nat j) (lg_n s)); [lia|].
  replace (Z.to_nat (0 + Z.of_nat j)) with j by lia. rewrite list_insert_id by done. by destruct s.
Qed.

(** [log_write] of a new block: it is pinned and recorded. *)
Lemma log_write_new s b c : bs_blockno b (lg_bs s) ∉ recorded s ->
  length (lg_block s) = Z.to_nat LOGBLOCKS -> 0 <= lg_n s < LOGBLOCKS -> 1 <= lg_outstanding s ->
  bs_pin b (lg_bs s) = Ok tt c ->
  log_write b s = Ok tt (with_n (lg_n s + 1)
    (with_bs c (with_block (<[Z.to_nat (lg_n s) := bs_blockno b (lg_bs s)]> (lg_block s)) s))).
Proof.
  intros Hin Hlen Hn Ho Hp. unfold log_write. mstep.
  destruct (Z.leb_spec LOGBLOCKS (lg_n s)); [lia|]. destruct (Z.ltb_spec (lg_outstanding s) 1); [lia|].
  pose proof (absorb_spec (lg_block s) (Z.to_nat (lg_n s)) 0 (bs_blockno b (lg_bs s)) ltac:(lia)) as Ha.
  unfold recorded in Hin. rewrite decide_False in Ha by done. rewrite Ha.
  replace (0 + Z.of_nat (Z.to_nat (lg_n s))) with (lg_n s) by lia.
  mrun (set_lh_block_ok (lg_n s) (bs_blockno b (lg_bs s)) s ltac:(lia)).
  rewrite Z.eqb_refl. by mrun (bs_run (bs_pin b) (with_block (<[Z.to_nat (lg_n s) := bs_blockno b (lg_bs s)]> (lg_block s)) s) tt c Hp).
Qed.

Lemma recorded_new s v c : length (lg_block s) = Z.to_nat LOGBLOCKS -> 0 <= lg_n s < LOGBLOCKS ->
  recorded (with_n (lg_n s + 1) (with_bs c (with_block (<[Z.to_nat (lg_n s) := v]> (lg_block s)) s)))
  = recorded s ++ [v].
Proof.
  intros Hlen Hn. unfold recorded. cbn.
  replace (Z.to_nat (lg_n s + 1)) with (Datatypes.S (Z.to_nat (lg_n s))) by lia.
  rewrite (take_S_r _ _ v) by (rewrite list_lookup_insert_eq by lia; done).
  by rewrite take_insert_ge by lia.
Qed.

Lemma txn_size s st : txn s st -> (size (st_live st) <= Z.to_nat (lg_n s))%nat.
Proof.
  intros Ht. destruct (decide (lg_n s = 0)) as [E|Hne].
  - assert (st_live st = ∅) as ->; [|rewrite map_size_empty; lia].
    apply map_empty. intros b. pose proof (tx_pins _ _ Ht b) as Hp. destruct (st_live st !! b); [|done].
    destruct Hp as (_ & _ & Hr). unfold recorded in Hr. rewrite E in Hr. by apply not_elem_of_nil in Hr.
  - apply cp_size, txn_commit_pre; [done|]. pose proof (tx_n _ _ Ht). lia.
Qed.

(** The open transaction after an update of block [n]: recorded once, its
    buffer holds [d], the disk is as before. *)
Record updated (n : Z) (d : block) (s : logst BC) (st : store) (s' : logst BC) (st' : store) : Prop := {
  up_txn : txn s' st';
  up_n : lg_n s' = if decide (n ∈ recorded s) then lg_n s else lg_n s + 1;
  up_same : lg_start s' = lg_start s /\ lg_outstanding s' = lg_outstanding s /\
            lg_committing s' = lg_committing s /\ lg_ncommit s' = lg_ncommit s;
  up_disk : st_disk st' = st_disk st /\ st_writes st' = st_writes st;
  up_cur m : current m st' = if decide (m = n) then d else current m st
}.

Lemma log_update_again s st n d : txn s st -> 1 <= lg_outstanding s -> n ∈ recorded s ->
  exists s' st', log_update n d s = Ok tt s' /\ updated n d s st s' st'.
Proof.
  intros Ht Ho Hin. pose proof (tx_n _ _ Ht) as Hn. unfold LOGBLOCKS in Hn.
  pose proof (tx_pins _ _ Ht n) as Hp. destruct (st_live st !! n) as [lv|] eqn:En; [|done].
  destruct Hp as (Hlk & Hcnt & _).
  destruct (read_spec (lg_bs s) st n (tx_rel _ _ Ht)) as (h & c1 & E1 & R1 & Eh).
  { unfold can_read. rewrite En. split; [done|lia]. }
  unfold take_ref in R1. rewrite En in R1, Eh. subst h. unfold log_update. mrun (bs_run _ s _ _ E1).
  destruct (fill_spec c1 _ n (mkLive (lv_h lv) (lv_cnt lv + 1) (lv_data lv) true) d R1) as (c2 & E2 & R2);
    [rewrite lookup_set_live; by rewrite decide_True|done|].
  cbn [lv_h lv_cnt] in E2, R2. mrun (bs_run _ (with_bs c1 s) _ _ E2).
  assert (bs_blockno (lv_h lv) c2 = n) as Eb.
  { eapply (data_spec c2 _ n (mkLive (lv_h lv) (lv_cnt lv + 1) d true) R2). rewrite lookup_set_live. by rewrite decide_True. }
  pose proof (log_write_again (with_bs c2 s) (lv_h lv)) as Ew. cbn [lg_bs with_bs lg_block lg_n] in Ew. rewrite Eb in Ew.
  mrun (Ew Hin (tx_len _ _ Ht) ltac:(unfold LOGBLOCKS; lia) Ho). clear Ew.
  destruct (release_spec c2 _ n (mkLive (lv_h lv) (lv_cnt lv + 1) d true) R2) as (c3 & E3 & R3);
    [rewrite lookup_set_live; by rewrite decide_True|done|cbn; lia|].
  cbn [lv_h lv_cnt lv_data] in E3, R3. destruct (Z.eqb_spec (lv_cnt lv + 1) 1); [lia|].
  match type of R3 with bs_rel _ ?x => eexists _, x end. split; [exact (bs_run _ (with_bs c2 s) _ _ E3)|].
  split; [| by rewrite decide_True|done|done|].
  - split; [exact R3|apply Ht|apply Ht|apply Ht|apply Ht| |apply Ht]. intros b. pose proof (tx_pins _ _ Ht b) as Hp. rewrite !lookup_set_live.
    case_decide as Hb; [|done]. subst b. split_and!; [done|cbn; lia|done].
  - intros m. unfold current. rewrite !lookup_set_live. case_decide as Hm.
    + subst. by rewrite decide_True.
    + by rewrite decide_False by done.
Qed.

Lemma log_update_new s st n d : txn s st -> 1 <= lg_outstanding s -> n ∉ recorded s ->
  ~ in_log (lg_start s) n -> 0 <= n < 2 ^ 31 -> lg_n s < LOGBLOCKS - 2 ->
  exists s' st', log_update n d s = Ok tt s' /\ updated n d s st s' st'.
Proof.
  intros Ht Ho Hin Hnl Hnr Hlt. pose proof (tx_n _ _ Ht) as Hn. pose proof (txn_size _ _ Ht) as Hsz.
  pose proof (tx_pins _ _ Ht n) as Hp. destruct (st_live st !! n) as [lv|] eqn:En; [by destruct Hp as (_ & _ & ?)|].
  destruct (read_spec (lg_bs s) st n (tx_rel _ _ Ht)) as (h & c1 & E1 & R1 & _).
  { unfold can_read. rewrite En. unfold LOGBLOCKS, NBUF in *. lia. }
  unfold take_ref in R1. rewrite En in R1. unfold log_update. mrun (bs_run _ s _ _ E1).
  destruct (fill_spec c1 _ n (mkLive h 1 (on_disk n (st_disk st)) true) d R1) as (c2 & E2 & R2);
    [rewrite lookup_set_live; by rewrite decide_True|done|].
  cbn [lv_h lv_cnt] in E2, R2. mrun (bs_run _ (with_bs c1 s) _ _ E2).
  assert (bs_blockno h c2 = n) as Eb.
  { eapply (data_spec c2 _ n (mkLive h 1 d true) R2). rewrite lookup_set_live. by rewrite decide_True. }
  destruct (pin_spec c2 _ n (mkLive h 1 d true) R2) as (c3 & E3 & R3);
    [rewrite lookup_set_live; by rewrite decide_True|cbn; lia|].
  cbn [lv_h lv_cnt lv_data lv_locked] in E3, R3.
  pose proof (log_write_new (with_bs c2 s) h c3) as Ew. cbn [lg_bs with_bs lg_block lg_n] in Ew. rewrite Eb in Ew.
  mrun (Ew Hin (tx_len _ _ Ht) ltac:(lia) Ho E3). clear Ew.
  destruct (release_spec c3 _ n (mkLive h (1 + 1) d true) R3) as (c4 & E4 & R4);
    [rewrite lookup_set_live; by rewrite decide_True|done|cbn; lia|].
  cbn [lv_h lv_cnt lv_data] in E4, R4. change (1 + 1 =? 1) with false in R4. cbv iota in R4.
  match type of R4 with bs_rel _ ?x => eexists _, x end. split.
  { match goal with |- bs _ ?x = _ => exact (bs_run (bs_release h) x tt c4 E4) end. }
  assert (forall x, recorded (with_bs x (with_n (lg_n s + 1) (with_bs c3 (with_block
     (<[Z.to_nat (lg_n s) := n]> (lg_block s)) s)))) = recorded s ++ [n]) as Er.
  { intros x. exact (recorded_new s n c3 (tx_len _ _ Ht) ltac:(lia)). }
  split; [|by rewrite decide_False|done|done|].
  - split; [exact R4| | | | | |].
    + cbn. lia.
    + cbn. rewrite length_insert. apply Ht.
    + rewrite Er. apply Forall_app. split; [apply Ht|]. by constructor.
    + rewrite Er. apply NoDup_app. split_and!; [apply Ht|set_solver|apply NoDup_singleton].
    + intros b. rewrite Er, !lookup_set_live. pose proof (tx_pins _ _ Ht b) as Hb.
      repeat case_decide; [subst; split_and!; [done|done|set_solver]|].
      destruct (st_live st !! b); [destruct Hb as (? & ? & ?)|]; set_solver.
    + apply Ht.
  - intros m. unfold current. rewrite !lookup_set_live. case_decide as Hm.
    + subst. by rewrite decide_True.
    + by rewrite decide_False by done.
Qed.

Lemma log_update_ok s st n d : txn s st -> 1 <= lg_outstanding s -> ~ in_log (lg_start s) n ->
  0 <= n < 2 ^ 31 -> lg_n s < LOGBLOCKS - 2 ->
  exists s' st', log_update n d s = Ok tt s' /\ updated n d s st s' st'.
Proof.
  intros. destruct (decide (n ∈ recorded s)); [by apply log_update_again|by apply log_update_new].
Qed.

(** The content of block [m] after the updates [ws]. *)
Definition after_updates (ws : list (Z * block)) (m : Z) (v : block) : block :=
  foldl (fun v w => if decide (m = w.1) then w.2 else v) v ws.

Definition fs_block (start n : Z) : Prop := ~ in_log start n /\ 0 <= n < 2 ^ 31.

Lemma updates_ok ws : forall s st, txn s st -> 1 <= lg_outstanding s ->
  lg_n s + Z.of_nat (length ws) <= LOGBLOCKS - 2 -> Forall (fun w => fs_block (lg_start s) w.1) ws ->
  exists s' st', for_each ws (fun w => log_update w.1 w.2) s = Ok tt s' /\ txn s' st' /\
    lg_n s <= lg_n s' /\ (ws <> [] -> 0 < lg_n s') /\
    lg_start s' = lg_start s /\ lg_outstanding s' = lg_outstanding s /\
    lg_committing s' = lg_committing s /\ lg_ncommit s' = lg_ncommit s /\
    st_disk st' = st_disk st /\ st_writes st' = st_writes st /\
    forall m, current m st' = after_updates ws m (current m st).
Proof.
  induction ws as [|w ws IH]; intros s st Ht Ho Hn Hf; cbn [for_each].
  { exists s, st. split_and!; done. }
  apply Forall_cons_1 in Hf as [[Hw1 Hw2] Hf]. cbn [length] in Hn.
  destruct (log_update_ok s st w.1 w.2 Ht Ho Hw1 Hw2 ltac:(lia)) as (s1 & st1 & E1 & U). mrun E1.
  destruct (up_same _ _ _ _ _ _ U) as (Es & Eo & Ec & Enc). destruct (up_disk _ _ _ _ _ _ U) as [Ed Ew].
  pose proof (up_n _ _ _ _ _ _ U) as En1. pose proof (tx_n _ _ Ht) as Hn0.
  assert (lg_n s <= lg_n s1 /\ 0 < lg_n s1 <= lg_n s + 1) as [Hle Hpos].
  { rewrite En1. case_decide as Hr; [|lia]. split; [lia|]. unfold recorded in Hr.
    destruct (decide (lg_n s = 0)) as [E|]; [|lia]. rewrite E in Hr. by apply not_elem_of_nil in Hr. }
  destruct (IH s1 st1) as (s' & st' & E2 & Ht2 & Hle2 & _ & Es2 & Eo2 & Ec2 & Enc2 & Ed2 & Ew2 & Hc);
    [apply U|lia|lia|by rewrite Es|].
  exists s', st'. split_and!; try congruence; try lia.
  intros m. rewrite Hc, (up_cur _ _ _ _ _ _ U). done.
Qed.

(** The log between two transactions. *)
Definition idle (s : logst BC) (st : store) : Prop :=
  txn s st /\ lg_n s = 0 /\ lg_outstanding s = 0 /\ lg_committing s = false.

Lemma idle_live s st : idle s st -> st_live st = ∅.
Proof.
  intros (Ht & En & _). apply map_size_empty_inv. pose proof (txn_size _ _ Ht). lia.
Qed.

Lemma begin_op_idle s st : idle s st -> begin_op s = Ok tt (with_outstanding 1 s).
Proof.
  intros (_ & En & Eo & Ec). unfold begin_op. mstep. rewrite Ec, En, Eo. done.
Qed.

Lemma end_op_commits s s' : lg_outstanding s = 1 -> lg_committing s = false ->
  commit (with_committing true (with_outstanding 0 s)) = Ok tt s' ->
  end_op s = Ok tt (with_ncommit (lg_ncommit s' + 1) (with_committing false s')).
Proof.
  intros Eo Ec E. unfold end_op. mstep. cbn [lg_committing lg_outstanding with_outstanding]. rewrite Ec, Eo.
  change (1 - 1 =? 0) with true. cbv iota. mstep. change (1 - 1) with 0. mrun E. mstep. done.
Qed.

Lemma txn_outstanding s st x : txn s st -> txn (with_outstanding x s) st.
Proof. by intros []. Qed.
Lemma txn_committing s st x : txn s st -> txn (with_committing x s) st.
Proof. by intros []. Qed.

(** The log after a commit is idle. *)
Lemma committed_idle s st c : txn s st -> commit_pre s st -> lg_outstanding s = 0 ->
  bs_rel c (mkStore ∅ (apply_writes (commit_writes s st) (st_disk st)) (st_writes st ++ commit_writes s st)) ->
  idle (with_ncommit (lg_ncommit s + 1) (with_committing false (with_bs c (with_n 0 s))))
    (mkStore ∅ (apply_writes (commit_writes s st) (st_disk st)) (st_writes st ++ commit_writes s st)).
Proof.
  intros Ht Hp Eo HR. split; [|done]. destruct (committed_disk s st Hp) as [Eh _].
  destruct (new_head_get s st Hp) as (Hl & _). split; [exact HR|done|apply Ht|constructor|constructor| |].
  - intros b. cbn [st_live]. rewrite lookup_empty. apply not_elem_of_nil.
  - cbn [lg_start with_ncommit with_committing with_bs with_n st_disk]. rewrite Eh.
    split; [by rewrite put32_length|]. apply get32_put32; [|lia]. rewrite Hl. apply Nat.ltb_lt. reflexivity.
Qed.

(** C2: a file-system operation is durable and atomic.  On an idle log, an
    operation that updates up to [MAXOPBLOCKS] blocks, each with [bread], a
    change of the buffer, [log_write] and [brelse], between [begin_op] and
    [end_op], ends normally and leaves the log idle again, with [W] the disk
    writes it made: every block outside the log is on disk with its last
    update.  When the machine stops after any number [k] of these writes,
    [initlog] on an empty cache ends normally with an empty log and a file
    system that has all the updates or none of them. *)
Theorem transaction_atomic s st ws :
  idle s st -> ws <> [] -> Z.of_nat (length ws) <= MAXOPBLOCKS ->
  Forall (fun w => fs_block (lg_start s) w.1) ws ->
  exists s' W, (begin_op;; for_each ws (fun w => log_update w.1 w.2);; end_op) s = Ok tt s' /\
    idle s' (mkStore ∅ (apply_writes W (st_disk st)) (st_writes st ++ W)) /\
    lg_ncommit s' = lg_ncommit s + 1 /\
    fs_is (lg_start s) (apply_writes W (st_disk st)) (fun b => after_updates ws b (on_disk b (st_disk st))) /\
    forall k r wr, length (lg_block r) = Z.to_nat LOGBLOCKS ->
      bs_rel (lg_bs r) (mkStore ∅ (apply_writes (take k W) (st_disk st)) wr) ->
      exists r' D' wr', initlog (lg_start s) r = Ok tt r' /\ bs_rel (lg_bs r') (mkStore ∅ D' wr') /\
        get32 (on_disk (lg_start s) D') 0 = 0 /\
        (fs_is (lg_start s) D' (fun b => on_disk b (st_disk st)) \/
         fs_is (lg_start s) D' (fun b => after_updates ws b (on_disk b (st_disk st)))).
Proof.
  intros Hi Hne Hlen Hf. pose proof (idle_live s st Hi) as El. pose proof (begin_op_idle s st Hi) as Eb.
  destruct Hi as (Ht & En & Eo & Ec). unfold MAXOPBLOCKS in Hlen.
  destruct (updates_ok ws (with_outstanding 1 s) st (txn_outstanding s st 1 Ht)) as
    (s1 & st1 & E1 & Ht1 & _ & Hpos & Es & Eo1 & Ec1 & Enc & Ed & Ew & Hc); [done| |done|].
  { cbn [lg_n with_outstanding]. rewrite En. unfold LOGBLOCKS. lia. }
  set (s2 := with_committing true (with_outstanding 0 s1)).
  assert (txn s2 st1) as Ht2 by by apply txn_committing, txn_outstanding.
  pose proof (txn_commit_pre s2 st1 Ht2 (Hpos Hne)) as Hp. destruct (commit_ok s2 st1 Hp) as (c & E2 & R2).
  pose proof (end_op_commits s1 _ Eo1 (eq_trans Ec1 Ec) E2) as E3.
  assert (forall b, current b st1 = after_updates ws b (on_disk b (st_disk st))) as Hcur.
  { intros b. rewrite Hc. f_equal. unfold current. by rewrite El, lookup_empty. }
  pose proof (committed_idle s2 st1 c Ht2 Hp eq_refl R2) as Hi. destruct (committed_disk s2 st1 Hp) as [_ Hfs].
  change (lg_start s2) with (lg_start s1) in Hfs. rewrite Ed, Es in Hfs. rewrite Ed, Ew in Hi.
  exists (with_ncommit (lg_ncommit s2 + 1) (with_committing false (with_bs c (with_n 0 s2)))), (commit_writes s2 st1).
  split; [mrun Eb; mrun E1; exact E3|]. split; [exact Hi|]. split; [cbn in *; congruence|].
  split; [intros b Hb; rewrite <- Hcur; by apply Hfs|]. intros k r wr Hr HR. rewrite <- Ed in HR.
  destruct (initlog_ok s2 st1 k r wr Hp Hr HR) as (r' & D' & wr' & E4 & R4 & H0 & HD).
  change (lg_start s2) with (lg_start s1) in E4, H0, HD. rewrite Es in E4, H0, HD. exists r', D', wr'.
  split_and!; [exact E4|exact R4|exact H0|]. case_decide; [left|right]; intros b Hb; rewrite (HD b Hb); [by rewrite Ed|done].
Qed.
End Txn.

(** * The space of the log *)

Section Space.
Context {BC : Type} `{BlockStore BC}.
Implicit Types s : logst BC.

(** A field that a computation leaves alone. *)
Definition keeps {A B} (f : logst BC -> B) (m : M (logst BC) A) : Prop :=
  forall s a s', m s = Ok a s' -> f s' = f s.

Lemma keeps_ret {A B} (f : logst BC -> B) (a : A) : keeps f (mret a).
Proof. by intros s a' s' [= _ <-]. Qed.
Lemma keeps_gets {A B} (f : logst BC -> B) (g : logst BC -> A) : keeps f (gets g).
Proof. by intros s a s' [= _ <-]. Qed.
Lemma keeps_modify {B} (f : logst BC -> B) g : (forall s, f (g s) = f s) -> keeps f (modify g).
Proof. intros Hg s a s' [= _ <-]. apply Hg. Qed.
Lemma keeps_panic {A B} (f : logst BC -> B) msg : keeps f (panic (A := A) msg).
Proof. by intros s a s'. Qed.
Lemma keeps_bind {A A' B} (f : logst BC -> B) (m : M (logst BC) A) (k : A -> M (logst BC) A') :
  keeps f m -> (forall a, keeps f (k a)) -> keeps f (a ← m; k a).
Proof.
  intros Hm Hk s a s' E. apply bind_ok_inv in E as (b & s1 & E1 & E2).
  rewrite (Hk b _ _ _ E2). by apply (Hm _ _ _ E1).
Qed.
Lemma keeps_bs {A B} (f : logst BC -> B) (m : M BC A) :
  (forall c s, f (with_bs c s) = f s) -> keeps f (bs m).
Proof.
  intros Hf s a s'. unfold bs, zoom. destruct (m (lg_bs s)); [|done..]. intros [= _ <-]. apply Hf.
Qed.
Lemma keeps_for_each {A B} (f : logst BC -> B) (l : list A) (F : A -> M (logst BC) unit) :
  (forall x, keeps f (F x)) -> keeps f (for_each l F).
Proof. intros HF. induction l; [apply keeps_ret|]. by apply keeps_bind. Qed.

Ltac keeps :=
  repeat first [apply keeps_ret | apply keeps_gets | apply keeps_panic | apply keeps_bs; done
               | apply keeps_modify; done | apply keeps_for_each; intros ? | apply keeps_bind; [|intros ?]
               | case_match].

(** The counters that [commit] leaves alone, and what it does to [lh.n]. *)
Lemma write_head_keeps {B} (f : logst BC -> B) : (forall c s, f (with_bs c s) = f s) -> keeps f write_head.
Proof. intros Hf. unfold write_head. keeps. Qed.

Lemma commit_keeps {B} (f : logst BC -> B) : (forall c s, f (with_bs c s) = f s) ->
  (forall n s, f (with_n n s) = f s) -> keeps f commit.
Proof. intros Hf Hn. unfold commit, write_log, install_trans, write_head, data. keeps. Qed.

Lemma commit_empties s s' : 0 <= lg_n s -> commit s = Ok tt s' -> lg_n s' = 0.
Proof.
  intros Hn E. unfold commit in E. autorewrite with monad in E. destruct (Z.ltb_spec 0 (lg_n s)); inv_ok; [|lia].
  by rewrite (write_head_keeps lg_n ltac:(done) _ _ _ E).
Qed.

Lemma end_op_spec s s' : 0 <= lg_n s -> end_op s = Ok tt s' ->
  lg_committing s = false /\ lg_committing s' = false /\ lg_outstanding s' = lg_outstanding s - 1 /\
  lg_n s' = if lg_outstanding s =? 1 then 0 else lg_n s.
Proof.
  intros Hn E. unfold end_op in E. autorewrite with monad in E.
  cbn [lg_committing lg_outstanding with_outstanding] in E.
  destruct (lg_committing s) eqn:Ec; [done|]. destruct (Z.eqb_spec (lg_outstanding s - 1) 0).
  - autorewrite with monad in E. apply bind_ok_inv in E as ([] & s2 & E2 & E). inv_ok. cbn.
    rewrite (proj2 (Z.eqb_eq _ _)) by lia.
    rewrite (commit_keeps lg_outstanding ltac:(done) ltac:(done) _ _ _ E2).
    by rewrite (commit_empties (with_committing true (with_outstanding (lg_outstanding s - 1) s)) _ Hn E2).
  - inv_ok. by rewrite (proj2 (Z.eqb_neq (lg_outstanding s) 1)) by lia.
Qed.

Lemma log_write_spec b s s' : log_write b s = Ok tt s' ->
  lg_n s <= lg_n s' <= lg_n s + 1 /\ lg_outstanding s' = lg_outstanding s /\ lg_committing s' = lg_committing s.
Proof.
  intros E. unfold log_write in E. autorewrite with monad in E. do 2 (case_match; [done|]).
  apply bind_ok_inv in E as ([] & s1 & E1 & E).
  assert (forall B (f : logst BC -> B), (forall x s, f (with_block x s) = f s) -> f s1 = f s) as Hs1.
  { intros B f Hf. unfold set_lh_block in E1. autorewrite with monad in E1. destruct (_ && _); inv_ok. apply Hf. }
  case_match; inv_ok; cbn.
  - rename E0 into Ep. assert (forall B (f : logst BC -> B), (forall x s, f (with_bs x s) = f s) -> f s0 = f s1) as Hs2.
    { intros B f Hf. by apply (keeps_bs f (bs_pin b) Hf) in Ep. }
    rewrite !(Hs2 _ lg_n), !(Hs2 _ lg_outstanding), !(Hs2 _ lg_committing) by done.
    rewrite (Hs1 _ lg_n), (Hs1 _ lg_outstanding), (Hs1 _ lg_committing) by done. split; [lia|done].
  - rewrite (Hs1 _ lg_n), (Hs1 _ lg_outstanding), (Hs1 _ lg_committing) by done. split; [lia|done].
Qed.

(** Interleaved operations: the log, and for each operation under way the
    number of blocks it may still write. *)
Inductive op_step : logst BC * list Z -> logst BC * list Z -> Prop :=
| op_begin s s' l : begin_op s = Ok tt s' -> op_step (s, l) (s', l ++ [MAXOPBLOCKS])
| op_write s s' l i k b : l !! i = Some k -> 0 < k -> log_write b s = Ok tt s' ->
    op_step (s, l) (s', <[i := k - 1]> l)
| op_end s s' l i : (i < length l)%nat -> end_op s = Ok tt s' -> op_step (s, l) (s', delete i l).

Definition total (l : list Z) : Z := foldr Z.add 0 l.

Record space_inv (x : logst BC * list Z) : Prop := {
  si_out : lg_outstanding x.1 = Z.of_nat (length x.2);
  si_budget : Forall (fun k => 0 <= k <= MAXOPBLOCKS) x.2;
  si_n : 0 <= lg_n x.1;
  si_room : lg_n x.1 + total x.2 <= LOGBLOCKS;
  si_calm : lg_committing x.1 = false
}.

Lemma total_app l l' : total (l ++ l') = total l + total l'.
Proof. induction l; cbn in *; unfold total in *; lia. Qed.
Lemma total_bound l : Forall (fun k => 0 <= k <= MAXOPBLOCKS) l -> 0 <= total l <= MAXOPBLOCKS * Z.of_nat (length l).
Proof. unfold total, MAXOPBLOCKS. induction 1; cbn [foldr length]; lia. Qed.
Lemma total_cons x l : total (x :: l) = x + total l.
Proof. done. Qed.
Lemma total_insert l i k v : l !! i = Some k -> total (<[i := v]> l) = total l - k + v.
Proof.
  revert i. induction l as [|x l IH]; intros [|i]; [done..| |]; intros E.
  - injection E as ->. change (<[0%nat := v]> (k :: l)) with (v :: l). rewrite !total_cons. lia.
  - change (<[Datatypes.S i := v]> (x :: l)) with (x :: <[i := v]> l). rewrite !total_cons, (IH _ E). lia.
Qed.
Lemma total_delete l i k : l !! i = Some k -> total (delete i l) = total l - k.
Proof.
  revert i. induction l as [|x l IH]; intros [|i]; [done..| |]; intros E.
  - injection E as ->. change (delete 0%nat (k :: l)) with l. rewrite total_cons. lia.
  - change (delete (Datatypes.S i) (x :: l)) with (x :: delete i l). rewrite !total_cons, (IH _ E). lia.
Qed.

Lemma begin_op_spec s s' : begin_op s = Ok tt s' ->
  lg_n s + (lg_outstanding s + 1) * MAXOPBLOCKS <= LOGBLOCKS /\ lg_committing s = false /\
  s' = with_outstanding (lg_outstanding s + 1) s.
Proof.
  intros E. unfold begin_op in E. autorewrite with monad in E. destruct (lg_committing s); [done|].
  destruct (Z.ltb_spec LOGBLOCKS (lg_n s + (lg_outstanding s + 1) * MAXOPBLOCKS)); [done|]. by inv_ok.
Qed.

Lemma op_step_inv x y : space_inv x -> op_step x y -> space_inv y.
Proof.
  intros [Ho Hb Hn Hr Hc] Hst. destruct Hst as [s s' l E|s s' l i k b Hi Hk E|s s' l i Hi E]; cbn [fst snd] in *.
  - apply begin_op_spec in E as (Hle & _ & ->). pose proof (total_bound l Hb) as Ht.
    unfold MAXOPBLOCKS in *. split; cbn [fst snd lg_outstanding lg_n lg_committing with_outstanding]; try done.
    + rewrite length_app. cbn. lia.
    + apply Forall_app. split; [done|]. by constructor.
    + rewrite total_app. change (total [10]) with 10. lia.
  - apply log_write_spec in E as (Hn' & Ho' & Hc'). split; cbn [fst snd]; try lia.
    + rewrite length_insert. lia.
    + apply Forall_insert; [done|]. apply (Forall_lookup_1 _ _ _ _ Hb) in Hi. lia.
    + rewrite (total_insert _ _ _ _ Hi). lia.
    + congruence.
  - apply (end_op_spec s s' Hn) in E as (_ & Hc' & Ho' & Hn').
    destruct (lookup_lt_is_Some_2 l i Hi) as [k Ek]. pose proof (total_delete _ _ _ Ek) as Et.
    pose proof (total_bound l Hb). pose proof (Forall_lookup_1 _ _ _ _ Hb Ek) as Hk. cbn in Hk.
    assert (length (delete i l) = length l - 1)%nat as Hdl by (by rewrite length_delete by eauto).
    assert (Forall (fun k => 0 <= k <= MAXOPBLOCKS) (delete i l)) as Hb' by by apply Forall_delete.
    pose proof (total_bound _ Hb'). split; cbn [fst snd]; try done; [lia| |]; rewrite Hn'; destruct (Z.eqb_spec (lg_outstanding s) 1); try lia.
Qed.

(** C23: the reservation of [begin_op] is enough.  However the operations of
    several processes interleave, each starting with [begin_op], writing at
    most [MAXOPBLOCKS] blocks with [log_write] and finishing with [end_op],
    an operation that has not used up its blocks can call [log_write], which
    returns when the block can be pinned: it never panics with a full log or
    outside a transaction, and stores inside [log.lh.block] only.  The count of
    outstanding operations is exact and [end_op] never meets a commit under
    way. *)
Theorem log_space_reserved s0 s l :
  lg_n s0 = 0 -> lg_outstanding s0 = 0 -> lg_committing s0 = false ->
  rtc op_step (s0, []) (s, l) ->
  lg_outstanding s = Z.of_nat (length l) /\ lg_committing s = false /\ 0 <= lg_n s <= LOGBLOCKS /\
  forall i k b c, l !! i = Some k -> 0 < k -> length (lg_block s) = Z.to_nat LOGBLOCKS ->
    bs_pin b (lg_bs s) = Ok tt c -> exists s', log_write b s = Ok tt s'.
Proof.
  intros E1 E2 E3 Hst. assert (space_inv (s, l)) as [Ho Hb Hn Hr Hc].
  { apply (rtc_ind_r (fun y => space_inv y) (s0, [])) in Hst; [done| |].
    - split; cbn; try done; try lia. by rewrite E1.
    - intros x y _ Hs Hx. by apply (op_step_inv x). }
  cbn [fst snd] in *. pose proof (total_bound l Hb). split_and!; try done; [lia|].
  intros i k b c Ei Hk Hlen Hp. pose proof (lookup_lt_Some _ _ _ Ei) as Hlt.
  pose proof (total_delete _ _ _ Ei) as Et. pose proof (total_bound _ (Forall_delete _ _ i Hb)).
  destruct (decide (bs_blockno b (lg_bs s) ∈ recorded s)).
  - eexists. by apply log_write_again; [|done|lia|lia].
  - eexists. by apply log_write_new; [|done|lia|lia|done].
Qed.
End Space.

(** * Instances *)

(** The log of a fresh file system: block 2 starts the log, the disk is zero. *)
Definition fresh_log (c : bst) : logst bst := mkLog 2 0 false 0 0 (replicate (Z.to_nat LOGBLOCKS) 0) c.

Lemma fresh_idle c : bs_rel c (mkStore ∅ ∅ []) -> idle (fresh_log c) (mkStore ∅ ∅ []).
Proof.
  intros HR. split; [|done]. split; [exact HR|done|reflexivity|constructor|constructor| |].
  - intros b. cbn [st_live]. rewrite lookup_empty. apply not_elem_of_nil.
  - unfold on_disk. cbn [st_disk]. rewrite lookup_empty. split; vm_compute; reflexivity.
Qed.

Definition some_updates : list (Z * block) := [(50, [1; 2; 3]); (51, [4]); (50, [5])].

Lemma transaction_atomic_witness :
  exists c s' W, binit (boot_bst ∅ 1) = Ok tt c /\
    (begin_op;; for_each some_updates (fun w => log_update w.1 w.2);; end_op) (fresh_log c) = Ok tt s' /\
    on_disk 50 (apply_writes W ∅) = [5] /\ on_disk 51 (apply_writes W ∅) = [4].
Proof.
  destruct (binit_rel ∅ 1) as (c & E & HR).
  destruct (transaction_atomic (fresh_log c) (mkStore ∅ ∅ []) some_updates (fresh_idle c HR))
    as (s' & W & E' & _ & _ & Hfs & _).
  - discriminate.
  - cbn. unfold MAXOPBLOCKS. lia.
  - repeat constructor; cbn; unfold in_log, LOGBLOCKS; lia.
  - exists c, s', W. split; [exact E|]. split; [exact E'|].
    split; apply Hfs; cbn; unfold in_log, LOGBLOCKS; lia.
Defined.

Lemma commit_crash_atomic_witness :
  exists s st s', commit_pre s st /\ commit s = Ok tt s' /\ lg_n s' = 0 /\
    on_disk 50 (apply_writes (commit_writes s st) (st_disk st)) = [5].
Proof.
  destruct (binit_rel ∅ 1) as (c & _ & HR).
  destruct (updates_ok some_updates (with_outstanding 1 (fresh_log c)) (mkStore ∅ ∅ [])) as
    (s1 & st1 & _ & Ht & _ & Hpos & Es & _ & _ & _ & _ & _ & Hc).
  - apply txn_outstanding. by apply fresh_idle.
  - done.
  - cbn. unfold LOGBLOCKS. lia.
  - repeat constructor; cbn; unfold in_log, LOGBLOCKS; lia.
  - pose proof (txn_commit_pre s1 st1 Ht (Hpos ltac:(discriminate))) as Hp.
    destruct (commit_crash_atomic s1 st1 Hp) as (s' & E & En & _ & Hfs & _).
    exists s1, st1, s'. split_and!; [exact Hp|exact E|exact En|].
    rewrite Hfs, Hc; [reflexivity|]. rewrite Es. cbn. unfold in_log, LOGBLOCKS. lia.
Defined.

Lemma log_space_reserved_witness :
  exists c s, begin_op (fresh_log c) = Ok tt s /\ lg_outstanding s = 1.
Proof.
  exists (boot_bst ∅ 1), (with_outstanding 1 (fresh_log (boot_bst ∅ 1))). split; [reflexivity|].
  refine (proj1 (log_space_reserved (fresh_log (boot_bst ∅ 1)) _ [MAXOPBLOCKS] eq_refl eq_refl eq_refl _)).
  apply rtc_once. apply (op_begin _ _ []). reflexivity.
Defined.
