(* ===== verification/XTx.v ===== *)
(** What the log promises to the file system (reference/xv6-riscv): inside a
    transaction, blocks that are read, changed and logged by one process.

    [tstore] is the abstract state: one content per block, the blocks the
    process has locked with the buffers that hold them, the blocks the open
    transaction has recorded.  [TxStore] is the interface fs.c is verified
    against: [bread], [log_write], [brelse], [begin_op], [end_op] and what each
    does to a [tstore].  The second part shows that the log of log.c over any
    [BlockStore] is an instance. *)

From Stdlib Require Import ZArith Lia.
From stdpp Require Import base strings numbers gmap list.
From S2P Require Import Prelude Vm XStore XLog XTxn.

(** The largest transaction the cache has room to commit. *)
Definition TXMAX : nat := 28.

Record tstore : Type := mkTs {
  ts_start : Z;              (* first block of the log *)
  ts_cur : Z -> block;       (* the content of each block *)
  ts_base : Z -> block;      (* its content when the transaction began *)
  ts_held : gmap Z nat;      (* locked blocks and their buffers *)
  ts_rec : gset Z;           (* blocks recorded by the transaction *)
  ts_tx : bool               (* a transaction is open *)
}.

Definition ts_take (n : Z) (h : nat) (ts : tstore) : tstore :=
  mkTs (ts_start ts) (ts_cur ts) (ts_base ts) (<[n := h]> (ts_held ts)) (ts_rec ts) (ts_tx ts).
Definition ts_drop (n : Z) (ts : tstore) : tstore :=
  mkTs (ts_start ts) (ts_cur ts) (ts_base ts) (delete n (ts_held ts)) (ts_rec ts) (ts_tx ts).
Definition ts_update (n : Z) (d : block) (ts : tstore) : tstore :=
  mkTs (ts_start ts) (fun m => if decide (m = n) then d else ts_cur ts m) (ts_base ts) (ts_held ts)
    ({[n]} ∪ ts_rec ts) (ts_tx ts).
Definition ts_open (ts : tstore) : tstore :=
  mkTs (ts_start ts) (ts_cur ts) (ts_base ts) (ts_held ts) (ts_rec ts) true.
Definition ts_close (ts : tstore) : tstore :=
  mkTs (ts_start ts) (ts_cur ts) (ts_cur ts) (ts_held ts) ∅ false.

Class TxStore (S : Type) : Type := {
  t_bread : Z -> Z -> M S nat;
  t_data : nat -> S -> block;
  t_fill : nat -> block -> M S unit;
  t_log_write : nat -> M S unit;
  t_brelse : nat -> M S unit;
  t_begin_op : M S unit;
  t_end_op : M S unit;
  t_initlog : Z -> M S unit;

  t_st : S -> tstore -> Prop;

  t_read_spec s ts n : t_st s ts -> ts_held ts !! n = None -> fs_block (ts_start ts) n ->
    (size (ts_held ts) <= 1)%nat ->
    exists h s', t_bread ROOTDEV n s = Ok h s' /\ t_st s' (ts_take n h ts);
  t_data_spec s ts n h : t_st s ts -> ts_held ts !! n = Some h -> t_data h s = ts_cur ts n;
  t_update_spec s ts n h d : t_st s ts -> ts_held ts !! n = Some h -> ts_tx ts = true ->
    (size ({[n]} ∪ ts_rec ts) <= TXMAX)%nat ->
    exists s1 s', t_fill h d s = Ok tt s1 /\ t_log_write h s1 = Ok tt s' /\ t_st s' (ts_update n d ts);
  t_release_spec s ts n h : t_st s ts -> ts_held ts !! n = Some h ->
    exists s', t_brelse h s = Ok tt s' /\ t_st s' (ts_drop n ts);
  t_begin_spec s ts : t_st s ts -> ts_tx ts = false ->
    exists s', t_begin_op s = Ok tt s' /\ t_st s' (ts_open ts);
  t_end_spec s ts : t_st s ts -> ts_tx ts = true -> ts_held ts = ∅ ->
    exists s', t_end_op s = Ok tt s' /\ t_st s' (ts_close ts)
}.

(** * The log is an instance *)

Section Log.
Context {BC : Type} `{BlockStore BC}.
Implicit Types (s : logst BC) (ts : tstore) (st : store).

(** A block in use: locked by the process, or pinned by the transaction, or both. *)
Definition live_ok (ts : tstore) (b : Z) (lv : live) : Prop :=
  lv_data lv = ts_cur ts b /\
  match ts_held ts !! b with
  | Some h => lv_h lv = h /\ lv_locked lv = true /\ lv_cnt lv = if decide (b ∈ ts_rec ts) then 2 else 1
  | None => b ∈ ts_rec ts /\ lv_locked lv = false /\ lv_cnt lv = 1
  end.

Record txrel (s : logst BC) (ts : tstore) (st : store) : Prop := {
  tr_rel : bs_rel (lg_bs s) st;
  tr_start : lg_start s = ts_start ts;
  tr_n : 0 <= lg_n s <= LOGBLOCKS - 2;
  tr_len : length (lg_block s) = Z.to_nat LOGBLOCKS;
  tr_blocks : Forall (fs_block (ts_start ts)) (recorded s);
  tr_nodup : NoDup (recorded s);
  tr_rec : ts_rec ts = list_to_set (recorded s);
  tr_live b : match st_live st !! b with
    | Some lv => live_ok ts b lv
    | None => ts_held ts !! b = None /\ b ∉ ts_rec ts
    end;
  tr_disk b : fs_block (ts_start ts) b -> on_disk b (st_disk st) = ts_base ts b;
  tr_base b : fs_block (ts_start ts) b -> b ∉ ts_rec ts -> ts_base ts b = ts_cur ts b;
  tr_held b h : ts_held ts !! b = Some h -> fs_block (ts_start ts) b;
  tr_head : length (on_disk (lg_start s) (st_disk st)) = BSIZE /\
    get32 (on_disk (lg_start s) (st_disk st)) 0 = 0;
  tr_out : lg_outstanding s = if ts_tx ts then 1 else 0;
  tr_calm : lg_committing s = false;
  tr_idle : ts_tx ts = false -> ts_rec ts = ∅
}.

Definition log_st (s : logst BC) (ts : tstore) : Prop := exists st, txrel s ts st.

(** [log.lh.n] counts the recorded blocks. *)
Lemma recorded_size s ts st : txrel s ts st -> size (ts_rec ts) = Z.to_nat (lg_n s).
Proof.
  intros R. rewrite (tr_rec _ _ _ R), size_list_to_set by apply R. unfold recorded.
  rewrite length_take, (tr_len _ _ _ R). pose proof (tr_n _ _ _ R). unfold LOGBLOCKS in *. lia.
Qed.

Lemma live_size s ts st : txrel s ts st ->
  (size (st_live st) <= size (ts_held ts) + Z.to_nat (lg_n s))%nat.
Proof.
  intros R. rewrite <- (recorded_size s ts st R), <- (size_dom (D := gset Z) (st_live st)), <- (size_dom (D := gset Z) (ts_held ts)).
  assert (dom (st_live st) ⊆ dom (ts_held ts) ∪ ts_rec ts) as Hsub.
  { intros b [lv Eb]%elem_of_dom. pose proof (tr_live _ _ _ R b) as Hb. rewrite Eb in Hb. destruct Hb as [_ Hb].
    rewrite elem_of_union, elem_of_dom. destruct (ts_held ts !! b); [left; by eexists|right; by apply Hb]. }
  apply subseteq_size in Hsub. rewrite size_union_alt in Hsub.
  pose proof (subseteq_size (ts_rec ts ∖ dom (ts_held ts)) (ts_rec ts) ltac:(set_solver)). lia.
Qed.

(** A block that is locked is in use. *)
Lemma held_live s ts st b h : txrel s ts st -> ts_held ts !! b = Some h ->
  st_live st !! b = Some (mkLive h (if decide (b ∈ ts_rec ts) then 2 else 1) (ts_cur ts b) true).
Proof.
  intros R Hh. pose proof (tr_live _ _ _ R b) as Hb. destruct (st_live st !! b) as [[lh lc ld lk]|].
  - unfold live_ok in Hb. rewrite Hh in Hb. cbn in Hb. destruct Hb as (-> & -> & -> & ->). done.
  - destruct Hb as [Hb _]. congruence.
Qed.

(** The state changes in the cache only. *)
Lemma txrel_store s ts st c ts' st' : txrel s ts st -> bs_rel c st' ->
  ts_start ts' = ts_start ts -> ts_rec ts' = ts_rec ts -> ts_tx ts' = ts_tx ts ->
  ts_cur ts' = ts_cur ts -> ts_base ts' = ts_base ts -> st_disk st' = st_disk st ->
  (forall b h, ts_held ts' !! b = Some h -> fs_block (ts_start ts) b) ->
  (forall b, match st_live st' !! b with
    | Some lv => live_ok ts' b lv
    | None => ts_held ts' !! b = None /\ b ∉ ts_rec ts'
    end) -> txrel (with_bs c s) ts' st'.
Proof.
  intros R Rc E1 E2 E3 E4 E5 E6 Hh Hl. split; rewrite ?E1, ?E2, ?E3, ?E4, ?E5, ?E6; try apply R; try done.
  intros b. specialize (Hl b). rewrite E2 in Hl. exact Hl.
Qed.

Lemma log_read s ts n : log_st s ts -> ts_held ts !! n = None -> fs_block (ts_start ts) n ->
  (size (ts_held ts) <= 1)%nat ->
  exists h s', bs (bs_bread ROOTDEV n) s = Ok h s' /\ log_st s' (ts_take n h ts).
Proof.
  intros [st R] Hh Hn Hsz. pose proof (tr_live _ _ _ R n) as Hl. pose proof (live_size _ _ _ R) as Hs.
  pose proof (tr_n _ _ _ R) as Hln. unfold LOGBLOCKS in Hln.
  destruct (read_spec (lg_bs s) st n (tr_rel _ _ _ R)) as (h & c & E & Rc & Eh).
  { unfold can_read, NBUF. destruct (st_live st !! n) as [lv|]; [|lia]. destruct Hl as [_ Hl].
    rewrite Hh in Hl. destruct Hl as (_ & -> & ->). split; [done|lia]. }
  exists h, (with_bs c s). split; [by apply bs_run|]. exists (take_ref n h st).
  eapply txrel_store; [exact R|exact Rc|done..| | |].
  - unfold take_ref. by destruct (st_live st !! n).
  - intros b h'. cbn. destruct (decide (b = n)) as [->|Hne]; [done|]. rewrite lookup_insert_ne by done.
    apply (tr_held _ _ _ R).
  - intros b. pose proof (tr_live _ _ _ R b) as Hb. unfold live_ok in *. cbn. unfold take_ref.
    destruct (decide (b = n)) as [->|Hne].
    + rewrite lookup_insert_eq. destruct (st_live st !! n) as [lv|]; rewrite lookup_set_live, decide_True by done; cbn.
      * rewrite Hh in Hl. destruct Hl as (-> & Hr & _ & ->). by rewrite decide_True.
      * rewrite decide_False by apply Hl. rewrite (tr_disk _ _ _ R n Hn), (tr_base _ _ _ R n Hn); [done|apply Hl].
    + rewrite lookup_insert_ne by done.
      destruct (st_live st !! n) as [lv|]; rewrite lookup_set_live, decide_False by done; exact Hb.
Qed.

Lemma log_release s ts n h : log_st s ts -> ts_held ts !! n = Some h ->
  exists s', bs (bs_release h) s = Ok tt s' /\ log_st s' (ts_drop n ts).
Proof.
  intros [st R] Hh. pose proof (held_live _ _ _ _ _ R Hh) as El. pose proof (tr_held _ _ _ R n h Hh) as Hn.
  destruct (release_spec (lg_bs s) st n _ (tr_rel _ _ _ R) El eq_refl) as (c & E & Rc).
  { cbn. case_decide as Hr; [done|]. intros _. by rewrite (tr_disk _ _ _ R), (tr_base _ _ _ R). }
  exists (with_bs c s). split; [by apply bs_run|]. cbn [lv_h lv_cnt lv_data] in Rc. eexists.
  eapply txrel_store; [exact R|exact Rc|done..| | |].
  - by case_decide.
  - intros b h'. cbn. rewrite lookup_delete_Some. intros [_ Hb]. by apply (tr_held _ _ _ R) in Hb.
  - intros b. pose proof (tr_live _ _ _ R b) as Hb. unfold live_ok in *. cbn [ts_drop ts_held ts_cur ts_rec].
    destruct (decide (b = n)) as [->|Hne].
    + rewrite lookup_delete_eq. destruct (decide (n ∈ ts_rec ts)) as [Hr|Hr].
      * change (2 =? 1) with false. cbv iota. rewrite lookup_set_live, decide_True by done. done.
      * change (1 =? 1) with true. cbv iota. cbn [drop_live st_live]. by rewrite lookup_delete_eq.
    + rewrite lookup_delete_ne by done. destruct (decide (n ∈ ts_rec ts)) as [Hr|Hr].
      * change (2 =? 1) with false. cbv iota. by rewrite lookup_set_live, decide_False by done.
      * change (1 =? 1) with true. cbv iota. cbn [drop_live st_live]. by rewrite lookup_delete_ne by done.
Qed.

Lemma log_data s ts n h : log_st s ts -> ts_held ts !! n = Some h -> bs_data h (lg_bs s) = ts_cur ts n.
Proof.
  intros [st R] Hh. pose proof (held_live _ _ _ _ _ R Hh) as El.
  by apply (data_spec _ _ _ _ (tr_rel _ _ _ R)) in El as [? _].
Qed.

Lemma log_fill s ts st n h d : txrel s ts st -> ts_held ts !! n = Some h ->
  exists c, bs (bs_fill h d) s = Ok tt (with_bs c s) /\ bs_blockno h c = n /\
    bs_rel c (set_live n (mkLive h (if decide (n ∈ ts_rec ts) then 2 else 1) d true) st).
Proof.
  intros R Hh. pose proof (held_live _ _ _ _ _ R Hh) as El.
  destruct (fill_spec (lg_bs s) st n _ d (tr_rel _ _ _ R) El eq_refl) as (c & E & Rc). cbn [lv_h lv_cnt] in *.
  exists c. split; [by apply bs_run|]. split; [|exact Rc].
  eapply (data_spec c _ n (mkLive h (if decide (n ∈ ts_rec ts) then 2 else 1) d true) Rc).
  by rewrite lookup_set_live, decide_True.
Qed.

(** The cells of the abstract state after an update of block [n]. *)
Lemma update_live s ts st n h d b : txrel s ts st -> ts_held ts !! n = Some h ->
  match st_live (set_live n (mkLive h 2 d true) st) !! b with
  | Some lv => live_ok (ts_update n d ts) b lv
  | None => ts_held ts !! b = None /\ b ∉ ts_rec (ts_update n d ts)
  end.
Proof.
  intros R Hh. pose proof (tr_live _ _ _ R b) as Hb. rewrite lookup_set_live.
  unfold live_ok in *. cbn [ts_update ts_cur ts_held ts_rec]. destruct (decide (b = n)) as [->|Hne].
  - rewrite Hh, decide_True by done. cbn. by rewrite decide_True by set_solver.
  - rewrite decide_False by done. destruct (st_live st !! b) as [lv|]; [|destruct Hb as [? Hb]; split; [done|set_solver]]. destruct Hb as [Hd Hb]. split; [done|].
    destruct (ts_held ts !! b); [|destruct Hb as (? & ? & ?); split_and!; [set_solver|done..]]. destruct Hb as (? & ? & ->). split_and!; [done|done|].
    destruct (decide (b ∈ ts_rec ts)); [rewrite decide_True by set_solver|rewrite decide_False by set_solver]; done.
Qed.

Lemma log_update_spec s ts n h d : log_st s ts -> ts_held ts !! n = Some h -> ts_tx ts = true ->
  (size ({[n]} ∪ ts_rec ts) <= TXMAX)%nat ->
  exists s1 s', bs (bs_fill h d) s = Ok tt s1 /\ log_write h s1 = Ok tt s' /\ log_st s' (ts_update n d ts).
Proof.
  intros [st R] Hh Htx Hsz. destruct (log_fill s ts st n h d R Hh) as (c & E & En & Rc).
  pose proof (tr_n _ _ _ R) as Hn. pose proof (tr_out _ _ _ R) as Ho. rewrite Htx in Ho.
  pose proof (tr_len _ _ _ R) as Hlen. pose proof (tr_rec _ _ _ R) as Er. pose proof (tr_held _ _ _ R _ _ Hh) as Hfs.
  exists (with_bs c s). destruct (decide (n ∈ ts_rec ts)) as [Hr|Hr].
  - exists (with_bs c s). split; [done|]. split.
    { apply log_write_again; cbn [lg_bs with_bs lg_block lg_n lg_outstanding]; try done; unfold LOGBLOCKS in *; try lia.
      rewrite En. change (n ∈ recorded s). rewrite Er in Hr. set_solver. }
    assert ({[n]} ∪ ts_rec ts = ts_rec ts) as Eu by set_solver. eexists.
    split; [exact Rc|..]; cbn [ts_update ts_start ts_rec ts_base ts_cur ts_held ts_tx]; rewrite ?Eu; try apply R.
    + intros b. pose proof (update_live s ts st n h d b R Hh) as Hb. cbn [ts_update ts_held ts_rec] in Hb.
      rewrite Eu in Hb. exact Hb.
    + intros b Hb Hnr. rewrite decide_False by set_solver. by apply R.
  - rewrite size_union, size_singleton in Hsz by set_solver. rewrite (recorded_size _ _ _ R) in Hsz. unfold TXMAX in Hsz.
    destruct (pin_spec c _ n (mkLive h 1 d true) Rc) as (c2 & E2 & R2);
      [by rewrite lookup_set_live, decide_True|cbn; lia|]. cbn [lv_h lv_cnt lv_data lv_locked] in E2, R2.
    change (1 + 1) with 2 in R2.
    pose proof (log_write_new (with_bs c s) h c2) as Ew. cbn [lg_bs with_bs lg_block lg_n lg_outstanding] in Ew.
    rewrite En in Ew. assert (n ∉ recorded s) as Hnr by (rewrite Er in Hr; set_solver).
    specialize (Ew Hnr Hlen ltac:(unfold LOGBLOCKS in *; lia) ltac:(lia) E2).
    eexists. split; [done|]. split; [exact Ew|].
    assert (recorded (with_n (lg_n s + 1) (with_bs c2 (with_block (<[Z.to_nat (lg_n s) := n]> (lg_block s)) (with_bs c s))))
      = recorded s ++ [n]) as Err by exact (recorded_new s n c2 Hlen ltac:(lia)).
    eexists. split; [exact R2|..]; rewrite ?Err; cbn [ts_update ts_start ts_rec ts_base ts_cur ts_held ts_tx]; try apply R.
    + cbn [lg_n with_n]. unfold LOGBLOCKS in *. lia.
    + cbn [lg_block with_n with_bs with_block]. by rewrite length_insert.
    + apply Forall_app. split; [apply R|]. by constructor.
    + apply NoDup_app. split_and!; [apply R|set_solver|apply NoDup_singleton].
    + rewrite Er, list_to_set_app_L. cbn. set_solver.
    + intros b. pose proof (update_live s ts st n h d b R Hh) as Hb. rewrite !lookup_set_live in *. revert Hb.
      by case_decide.
    + intros b Hb Hbr. rewrite decide_False by set_solver. apply R; [done|set_solver].
    + congruence.
Qed.

Lemma log_begin s ts : log_st s ts -> ts_tx ts = false ->
  exists s', begin_op s = Ok tt s' /\ log_st s' (ts_open ts).
Proof.
  intros [st R] Htx. pose proof (tr_out _ _ _ R) as Ho. rewrite Htx in Ho.
  pose proof (recorded_size _ _ _ R) as Hs. rewrite (tr_idle _ _ _ R Htx), size_empty in Hs.
  pose proof (tr_n _ _ _ R) as Hn. exists (with_outstanding 1 s). split.
  - unfold begin_op. mstep. rewrite (tr_calm _ _ _ R), Ho. replace (lg_n s) with 0 by lia. done.
  - exists st. by destruct R.
Qed.

(** With no block locked, the transaction is one of [XTxn]. *)
Lemma txrel_txn s ts st : txrel s ts st -> ts_held ts = ∅ -> txn s st.
Proof.
  intros R Hh. split; try apply R.
  - rewrite (tr_start _ _ _ R). apply (tr_blocks _ _ _ R).
  - intros b. pose proof (tr_live _ _ _ R b) as Hb. unfold live_ok in Hb. rewrite Hh, lookup_empty, (tr_rec _ _ _ R) in Hb.
    destruct (st_live st !! b); set_solver.
Qed.

Lemma txrel_current s ts st b : txrel s ts st -> fs_block (ts_start ts) b -> current b st = ts_cur ts b.
Proof.
  intros R Hfs. pose proof (tr_live _ _ _ R b) as Hb. unfold current. destruct (st_live st !! b) as [lv|].
  - apply Hb.
  - rewrite (tr_disk _ _ _ R), (tr_base _ _ _ R); [done|done|apply Hb|done].
Qed.

(** An idle log is a closed transaction. *)
Lemma idle_log_st s st cur : idle s st -> (forall b, fs_block (lg_start s) b -> on_disk b (st_disk st) = cur b) ->
  log_st s (mkTs (lg_start s) cur cur ∅ ∅ false).
Proof.
  intros Hi Hc. pose proof (idle_live _ _ Hi) as El. destruct Hi as (Ht & En & Eo & Ec). exists st.
  assert (recorded s = []) as Er by (unfold recorded; by rewrite En).
  split; cbn [ts_start ts_rec ts_held ts_cur ts_base ts_tx]; rewrite ?Er; try apply Ht; try done.
  - constructor.
  - intros b. rewrite El, lookup_empty. split; [apply lookup_empty|set_solver].
Qed.

(** The state that [end_op] leaves, and what a crash during it leaves:
    [W] are the disk writes it makes, on a disk [D]. *)
Definition ends_atomically (s : logst BC) (ts : tstore) : Prop :=
  exists s' st W, end_op s = Ok tt s' /\ log_st s' (ts_close ts) /\ bs_rel (lg_bs s) st /\
    bs_rel (lg_bs s') (mkStore ∅ (apply_writes W (st_disk st)) (st_writes st ++ W)) /\
    forall k r wr, length (lg_block r) = Z.to_nat LOGBLOCKS ->
      bs_rel (lg_bs r) (mkStore ∅ (apply_writes (take k W) (st_disk st)) wr) ->
      exists r' D' wr', initlog (ts_start ts) r = Ok tt r' /\ bs_rel (lg_bs r') (mkStore ∅ D' wr') /\
        get32 (on_disk (ts_start ts) D') 0 = 0 /\
        ((forall b, fs_block (ts_start ts) b -> on_disk b D' = ts_base ts b) \/
         (forall b, fs_block (ts_start ts) b -> on_disk b D' = ts_cur ts b)).

(** Nothing was logged: [commit] does nothing. *)
Lemma log_end_empty s ts : log_st s ts -> ts_tx ts = true -> ts_held ts = ∅ -> lg_n s = 0 -> ends_atomically s ts.
Proof.
  intros [st R] Htx Hh En. pose proof (tr_out _ _ _ R) as Ho. rewrite Htx in Ho.
  pose proof (recorded_size _ _ _ R) as Hsz. rewrite En in Hsz. apply size_empty_inv in Hsz.
  assert (st_live st = ∅) as El.
  { apply map_size_empty_inv. pose proof (live_size _ _ _ R) as Hl. rewrite Hh, En, map_size_empty in Hl. cbn in Hl. lia. }
  assert (st = mkStore ∅ (st_disk st) (st_writes st)) as Est by (destruct st; cbn in *; by rewrite El).
  assert (commit (with_committing true (with_outstanding 0 s)) = Ok tt (with_committing true (with_outstanding 0 s))) as Ec.
  { unfold commit. mstep. cbn [lg_n with_committing with_outstanding]. by rewrite En. }
  pose proof (end_op_commits s _ Ho (tr_calm _ _ _ R) Ec) as E.
  assert (forall b, fs_block (ts_start ts) b -> on_disk b (st_disk st) = ts_cur ts b) as Hd.
  { intros b Hb. rewrite (tr_disk _ _ _ R) by done. apply (tr_base _ _ _ R); [done|set_solver]. }
  eexists _, st, []. split; [exact E|]. split.
  - exists st. split; cbn [ts_close ts_start ts_rec ts_held ts_cur ts_base ts_tx]; try apply R; try done.
    + unfold recorded. cbn [lg_n with_ncommit with_committing with_outstanding]. by rewrite En.
    + intros b. rewrite El, Hh. split; [apply lookup_empty|set_solver].
  - split; [apply R|]. rewrite app_nil_r. change (apply_writes [] (st_disk st)) with (st_disk st).
    split; [rewrite <- Est; apply R|].
    intros k r wr Hr HR. rewrite take_nil in HR. destruct (tr_head _ _ _ R) as [Hl H0]. unfold initlog.
    rewrite (proj2 (Nat.leb_gt BSIZE SIZEOF_LOGHEADER)) by (apply Nat.ltb_lt; reflexivity). mstep.
    rewrite (tr_start _ _ _ R) in Hl, H0.
    destruct (recover_empty (with_start (ts_start ts) r) (st_disk st) wr (fun b => on_disk b (st_disk st)) HR Hr Hl H0)
      as (r' & D' & wr' & E' & R' & Hz & Hf); [by intros b|].
    exists r', D', wr'. split_and!; [done|done|exact Hz|]. right. intros b Hb. rewrite (Hf b) by apply Hb. by apply Hd.
Qed.

Lemma log_end_commit s ts : log_st s ts -> ts_tx ts = true -> ts_held ts = ∅ -> lg_n s <> 0 -> ends_atomically s ts.
Proof.
  intros [st R] Htx Hh Hne. pose proof (tr_out _ _ _ R) as Ho. rewrite Htx in Ho. pose proof (tr_n _ _ _ R) as Hn.
  pose proof (tr_start _ _ _ R) as Es. set (s2 := with_committing true (with_outstanding 0 s)).
  assert (txn s2 st) as Ht by by apply txn_committing, txn_outstanding, (txrel_txn s ts).
  pose proof (txn_commit_pre s2 st Ht ltac:(cbn; lia)) as Hp. destruct (commit_ok s2 st Hp) as (c & Ec & Rc).
  pose proof (end_op_commits s _ Ho (tr_calm _ _ _ R) Ec) as E.
  pose proof (committed_idle s2 st c Ht Hp eq_refl Rc) as Hi. destruct (committed_disk s2 st Hp) as [_ Hfs].
  assert (forall b, fs_block (ts_start ts) b ->
    on_disk b (apply_writes (commit_writes s2 st) (st_disk st)) = ts_cur ts b) as Hd.
  { intros b Hb. rewrite (Hfs b) by (cbn; rewrite Es; apply Hb). by apply (txrel_current s). }
  eexists _, st, (commit_writes s2 st). split; [exact E|]. split.
  - unfold ts_close. rewrite Hh. pose proof (idle_log_st _ _ (ts_cur ts) Hi) as Hs. rewrite <- Es. apply Hs.
    intros b Hb. apply Hd. rewrite <- Es. exact Hb.
  - split; [apply R|]. split; [exact Rc|]. intros k r wr Hr HR. rewrite <- Es.
    destruct (initlog_ok s2 st k r wr Hp Hr HR) as (r' & D' & wr' & E' & R' & Hz & Hf).
    exists r', D', wr'. split_and!; [exact E'|exact R'|exact Hz|]. rewrite Es.
    case_decide; [left|right]; intros b Hb; rewrite (Hf b) by (cbn; rewrite Es; apply Hb).
    + by apply (tr_disk _ _ _ R).
    + by apply (txrel_current s).
Qed.

(** [end_op] makes the transaction durable, all or nothing across a crash. *)
Lemma log_end_atomic s ts : log_st s ts -> ts_tx ts = true -> ts_held ts = ∅ -> ends_atomically s ts.
Proof. intros. destruct (decide (lg_n s = 0)); [by apply log_end_empty|by apply log_end_commit]. Qed.

Lemma log_end s ts : log_st s ts -> ts_tx ts = true -> ts_held ts = ∅ ->
  exists s', end_op s = Ok tt s' /\ log_st s' (ts_close ts).
Proof. intros Hs Ht Hh. destruct (log_end_atomic s ts Hs Ht Hh) as (s' & _ & _ & ? & ? & _). by exists s'. Qed.

#[export] Instance log_txstore : TxStore (logst BC) := {|
  t_bread dev n := bs (bs_bread dev n);
  t_data h s := bs_data h (lg_bs s);
  t_fill h d := bs (bs_fill h d);
  t_log_write := log_write;
  t_brelse h := bs (bs_release h);
  t_begin_op := begin_op;
  t_end_op := end_op;
  t_initlog := initlog;
  t_st := log_st;
  t_read_spec := log_read;
  t_data_spec := log_data;
  t_update_spec := log_update_spec;
  t_release_spec := log_release;
  t_begin_spec := log_begin;
  t_end_spec := log_end
|}.
End Log.
