(* ===== verification/XBytes.v ===== *)
(** Byte-level access to a block of the disk (reference/xv6-riscv): a run of
    bytes at an offset, little-endian integers, the bits of the free map. *)

From Stdlib Require Import ZArith Lia.
From stdpp Require Import base strings numbers gmap list.
From S2P Require Import Prelude Mem XStore.

(** [n] bytes at offset [off], and a store of the bytes [l] there. *)
Definition slice (off n : nat) (b : list Z) : list Z := take n (drop off b).
Definition splice (off : nat) (l b : list Z) : list Z := take off b ++ l ++ drop (off + length l) b.

Definition of_le (l : list Z) : Z := foldr (fun x acc => x + 256 * acc) 0 l.

(** A [uint] at a byte offset: [*(uint * )(b + off)] and its assignment. *)
Definition getu32 (off : nat) (b : list Z) : Z := of_le (slice off 4 b).
Definition putu32 (off : nat) (v : Z) (b : list Z) : list Z := splice off (le_bytes 4 v) b.

(** [data[bi / 8]] with the bit [bi % 8] set, or cleared. *)
Definition set_bit (bi : Z) (d : list Z) : list Z :=
  <[Z.to_nat (bi / 8) := u8 (Z.lor (d !!! Z.to_nat (bi / 8)) (Z.shiftl 1 (bi mod 8)))]> d.
Definition clear_bit (bi : Z) (d : list Z) : list Z :=
  <[Z.to_nat (bi / 8) := u8 (Z.land (d !!! Z.to_nat (bi / 8)) (Z.lnot (Z.shiftl 1 (bi mod 8))))]> d.
Definition bit_clear (bi : Z) (d : list Z) : bool :=
  Z.land (d !!! Z.to_nat (bi / 8)) (Z.shiftl 1 (bi mod 8)) =? 0.


Definition byte_list (l : list Z) : Prop := Forall (fun x => 0 <= x < 256) l.

(** * Runs of bytes *)

Lemma length_slice off n b : (off + n <= length b)%nat -> length (slice off n b) = n.
Proof. intros. unfold slice. rewrite length_take, length_drop. lia. Qed.

Lemma length_splice off l b : (off + length l <= length b)%nat -> length (splice off l b) = length b.
Proof. intros. unfold splice. rewrite !length_app, length_take, length_drop. lia. Qed.

Lemma lookup_slice off n b i : (i < n)%nat -> slice off n b !! i = b !! (off + i)%nat.
Proof. intros. unfold slice. by rewrite lookup_take_lt, lookup_drop. Qed.

Lemma lookup_splice off l b i : (off + length l <= length b)%nat ->
  splice off l b !! i = if decide (off <= i < off + length l)%nat then l !! (i - off)%nat else b !! i.
Proof.
  intros Hl. unfold splice. destruct (decide (i < off)%nat).
  - rewrite lookup_app_l by (rewrite length_take; lia). rewrite decide_False by lia. by apply lookup_take_lt.
  - rewrite lookup_app_r by (rewrite length_take; lia). rewrite length_take. replace (i - off `min` length b)%nat with (i - off)%nat by lia.
    destruct (decide (i < off + length l)%nat).
    + rewrite decide_True by lia. apply lookup_app_l. lia.
    + rewrite decide_False by lia. rewrite lookup_app_r by lia. rewrite lookup_drop. f_equal. lia.
Qed.

Lemma slice_splice off l b n : (off + length l <= length b)%nat -> n = length l -> slice off n (splice off l b) = l.
Proof.
  intros Hl ->. apply list_eq. intros i. destruct (decide (i < length l)%nat).
  - rewrite lookup_slice, lookup_splice by done. rewrite decide_True by lia. f_equal. lia.
  - rewrite !lookup_ge_None_2; [done|lia|]. rewrite length_slice; [lia|]. by rewrite length_splice.
Qed.

Lemma slice_splice_ne off n off' l b : (off' + length l <= length b)%nat ->
  (off + n <= off' \/ off' + length l <= off)%nat -> slice off n (splice off' l b) = slice off n b.
Proof.
  intros Hl Hd. apply list_eq. intros i. destruct (decide (i < n)%nat).
  - rewrite !lookup_slice, lookup_splice by done. by rewrite decide_False by lia.
  - rewrite !lookup_ge_None_2; [done| |]; unfold slice; rewrite length_take; lia.
Qed.

Lemma slice_slice off n a k b : (a + k <= n)%nat -> slice a k (slice off n b) = slice (off + a) k b.
Proof.
  intros Hk. apply list_eq. intros i. destruct (decide (i < k)%nat).
  - rewrite !lookup_slice by lia. f_equal. lia.
  - rewrite !lookup_ge_None_2; [done| |]; unfold slice; rewrite length_take; lia.
Qed.

Lemma splice_nil off b : splice off [] b = b.
Proof. unfold splice. cbn. rewrite Nat.add_0_r. apply take_drop. Qed.

Lemma byte_slice off n b : byte_list b -> byte_list (slice off n b).
Proof. intros. by apply Forall_take, Forall_drop. Qed.

Lemma byte_splice off l b : byte_list b -> byte_list l -> byte_list (splice off l b).
Proof. intros. apply Forall_app. split; [by apply Forall_take|]. apply Forall_app. split; [done|by apply Forall_drop]. Qed.

Lemma byte_le_bytes n v : byte_list (le_bytes n v).
Proof. revert v. induction n as [|n IH]; intros v; [constructor|]. constructor; [apply u8_range|apply IH]. Qed.

Lemma byte_zero : byte_list zero_block.
Proof. unfold zero_block. apply Forall_replicate. lia. Qed.

(** * Little-endian integers *)

Lemma of_le_le_bytes n v : of_le (le_bytes n v) = v mod 256 ^ Z.of_nat n.
Proof.
  revert v. induction n as [|n IH]; intros v; [by rewrite Z.mod_1_r|]. cbn [le_bytes of_le foldr].
  change (foldr _ 0 (le_bytes n (v / 256))) with (of_le (le_bytes n (v / 256))). rewrite IH. unfold u8. change (2 ^ 8) with 256.
  rewrite Nat2Z.inj_succ, Z.pow_succ_r by lia. rewrite Z.rem_mul_r by lia. lia.
Qed.

Lemma of_le_range l : byte_list l -> 0 <= of_le l < 256 ^ Z.of_nat (length l).
Proof.
  induction 1 as [|x l Hx _ IH]; [done|]. cbn [of_le foldr length].
  change (foldr _ 0 l) with (of_le l). rewrite Nat2Z.inj_succ, Z.pow_succ_r by lia. lia.
Qed.

Lemma le_bytes_of_le l : byte_list l -> le_bytes (length l) (of_le l) = l.
Proof.
  induction 1 as [|x l Hx Hl IH]; [done|]. cbn [of_le foldr length le_bytes].
  change (foldr _ 0 l) with (of_le l). f_equal.
  - unfold u8. change (2 ^ 8) with 256. rewrite Z.mul_comm, Z_mod_plus_full. by apply Z.mod_small.
  - rewrite Z.mul_comm, Z.div_add, Z.div_small by lia. exact IH.
Qed.

Lemma getu32_put off v b : (off + 4 <= length b)%nat -> 0 <= v < 2 ^ 32 -> getu32 off (putu32 off v b) = v.
Proof.
  intros Hl Hv. unfold getu32, putu32. rewrite slice_splice; [|by rewrite le_bytes_length|by rewrite le_bytes_length].
  rewrite of_le_le_bytes. by apply Z.mod_small.
Qed.

Lemma getu32_put_ne off off' v b : (off' + 4 <= length b)%nat -> (off + 4 <= off' \/ off' + 4 <= off)%nat ->
  getu32 off (putu32 off' v b) = getu32 off b.
Proof. intros Hl Hd. unfold getu32, putu32. f_equal. by apply slice_splice_ne; rewrite le_bytes_length. Qed.

Lemma putu32_length off v b : (off + 4 <= length b)%nat -> length (putu32 off v b) = length b.
Proof. intros. apply length_splice. by rewrite le_bytes_length. Qed.

Lemma getu32_range off b : byte_list b -> (off + 4 <= length b)%nat -> 0 <= getu32 off b < 2 ^ 32.
Proof.
  intros Hb Hl. pose proof (of_le_range (slice off 4 b) (byte_slice _ _ _ Hb)) as Hr.
  by rewrite length_slice in Hr.
Qed.

Lemma getu32_zero j : getu32 (4 * j) zero_block = 0.
Proof.
  unfold getu32. assert (forall l, Forall (fun x => x = 0) l -> of_le l = 0) as Hz.
  { induction 1 as [|x l -> _ IH]; [done|]. cbn [of_le foldr]. change (foldr _ 0 l) with (of_le l). lia. }
  apply Hz, Forall_take, Forall_drop, Forall_replicate. done.
Qed.

(** * Bits *)

Lemma bit_clear_testbit bi d : 0 <= bi -> bit_clear bi d = negb (Z.testbit (d !!! Z.to_nat (bi / 8)) (bi mod 8)).
Proof.
  intros Hb. unfold bit_clear. pose proof (Z.mod_pos_bound bi 8 ltac:(lia)) as Hm.
  set (x := d !!! _). set (k := bi mod 8) in *.
  assert (Z.land x (Z.shiftl 1 k) = if Z.testbit x k then 2 ^ k else 0) as ->.
  { apply Z.bits_inj'. intros n Hn. rewrite Z.land_spec, Z.shiftl_1_l, Z.pow2_bits_eqb by lia.
    destruct (Z.eqb_spec k n) as [->|Hne].
    - destruct (Z.testbit x n) eqn:E; [by rewrite Z.pow2_bits_true|by rewrite Z.bits_0].
    - rewrite andb_false_r. destruct (Z.testbit x k); [by rewrite Z.pow2_bits_false|by rewrite Z.bits_0]. }
  destruct (Z.testbit x k); cbn; [|done]. apply Z.eqb_neq. pose proof (Z.pow_pos_nonneg 2 k). lia.
Qed.

Lemma byte_lor_bit x k : 0 <= x < 256 -> 0 <= k < 8 -> 0 <= Z.lor x (Z.shiftl 1 k) < 256.
Proof.
  intros Hx Hk. rewrite Z.shiftl_1_l. pose proof (Z.lor_nonneg x (2 ^ k)). split; [pose proof (Z.pow_nonneg 2 k); lia|].
  destruct (Z.eq_dec (Z.lor x (2 ^ k)) 0) as [->|Hne]; [lia|].
  apply Z.log2_lt_pow2 with (b := 8); [pose proof (Z.pow_nonneg 2 k); lia|].
  rewrite Z.log2_lor by (try lia; apply Z.pow_nonneg; lia). rewrite Z.log2_pow2 by lia.
  destruct (Z.eq_dec x 0) as [->|]; [change (Z.log2 0) with 0; lia|].
  pose proof (Z.log2_lt_pow2 x 8 ltac:(lia)). lia.
Qed.

Lemma byte_clear_bit x k : 0 <= x < 256 -> 0 <= k < 8 -> 0 <= Z.land x (Z.lnot (Z.shiftl 1 k)) < 256.
Proof.
  intros Hx Hk. set (m := Z.lnot _). assert (Z.land x m = Z.land x m mod 2 ^ 8) as ->; [|apply Z.mod_pos_bound; lia].
  rewrite <- Z.land_ones, <- Z.land_assoc, (Z.land_comm m), Z.land_assoc, Z.land_ones by lia.
  by rewrite (Z.mod_small x (2 ^ 8)) by lia.
Qed.

Lemma set_bit_length bi d : length (set_bit bi d) = length d.
Proof. apply length_insert. Qed.
Lemma clear_bit_length bi d : length (clear_bit bi d) = length d.
Proof. apply length_insert. Qed.
Lemma byte_set_bit bi d : byte_list d -> byte_list (set_bit bi d).
Proof. intros. apply Forall_insert; [done|apply u8_range]. Qed.
Lemma byte_clear bi d : byte_list d -> byte_list (clear_bit bi d).
Proof. intros. apply Forall_insert; [done|apply u8_range]. Qed.

Lemma byte_total d i : byte_list d -> 0 <= d !!! i < 256.
Proof.
  intros Hd. rewrite list_lookup_total_alt. destruct (d !! i) eqn:E; cbn; [|lia]. by apply (Forall_lookup_1 _ _ _ _ Hd E).
Qed.

Lemma bit_set bi bj d : length d = BSIZE -> byte_list d -> 0 <= bi < 8192 -> 0 <= bj < 8192 ->
  bit_clear bj (set_bit bi d) = if decide (bj = bi) then false else bit_clear bj d.
Proof.
  intros Hl Hd Hi Hj. rewrite !bit_clear_testbit by lia. pose proof (byte_total d (Z.to_nat (bi / 8)) Hd) as Hx.
  pose proof (Z.mod_pos_bound bi 8 ltac:(lia)) as Hm. pose proof (Z.mod_pos_bound bj 8 ltac:(lia)) as Hm'.
  assert (bi / 8 < 1024) by (apply Z.div_lt_upper_bound; lia). assert (0 <= bi / 8) by (apply Z.div_pos; lia).
  assert (0 <= bj / 8) by (apply Z.div_pos; lia).
  pose proof (Z.div_mod bi 8 ltac:(lia)). pose proof (Z.div_mod bj 8 ltac:(lia)).
  unfold set_bit. destruct (decide (bj / 8 = bi / 8)) as [E|E].
  - rewrite E, list_lookup_total_insert_eq by (rewrite Hl; unfold BSIZE; lia).
    rewrite u8_small by (apply byte_lor_bit; lia). rewrite Z.lor_spec, Z.shiftl_1_l, Z.pow2_bits_eqb by lia.
    case_decide as Eb; [subst bj; by rewrite Z.eqb_refl, orb_true_r|].
    rewrite (proj2 (Z.eqb_neq _ _)) by lia. by rewrite orb_false_r.
  - rewrite list_lookup_total_insert_ne by lia. by rewrite decide_False by congruence.
Qed.

Lemma bit_cleared bi bj d : length d = BSIZE -> byte_list d -> 0 <= bi < 8192 -> 0 <= bj < 8192 ->
  bit_clear bj (clear_bit bi d) = if decide (bj = bi) then true else bit_clear bj d.
Proof.
  intros Hl Hd Hi Hj. rewrite !bit_clear_testbit by lia. pose proof (byte_total d (Z.to_nat (bi / 8)) Hd) as Hx.
  pose proof (Z.mod_pos_bound bi 8 ltac:(lia)) as Hm. pose proof (Z.mod_pos_bound bj 8 ltac:(lia)) as Hm'.
  assert (bi / 8 < 1024) by (apply Z.div_lt_upper_bound; lia). assert (0 <= bi / 8) by (apply Z.div_pos; lia).
  assert (0 <= bj / 8) by (apply Z.div_pos; lia).
  pose proof (Z.div_mod bi 8 ltac:(lia)). pose proof (Z.div_mod bj 8 ltac:(lia)).
  unfold clear_bit. destruct (decide (bj / 8 = bi / 8)) as [E|E].
  - rewrite E, list_lookup_total_insert_eq by (rewrite Hl; unfold BSIZE; lia).
    rewrite u8_small by (apply byte_clear_bit; lia). rewrite Z.land_spec, Z.lnot_spec, Z.shiftl_1_l, Z.pow2_bits_eqb by lia.
    case_decide as Eb; [subst bj; by rewrite Z.eqb_refl, andb_false_r|].
    rewrite (proj2 (Z.eqb_neq _ _)) by lia. by rewrite andb_true_r.
  - rewrite list_lookup_total_insert_ne by lia. by rewrite decide_False by congruence.
Qed.
