(* ===== verification/XFs.v ===== *)
(** reference/xv6-riscv/kernel/fs.c: the file system, over the transactions of
    [XTx].

    Blocks are lists of bytes; the structures on disk ([struct superblock],
    [struct dinode], [struct dirent]) are little-endian bytes of them.  An inode
    pointer is an index into the table, [None] for NULL.  The sections of
    [itable.lock] run as one step; a process that has to wait for the lock of an
    inode does not return ([Diverge]).  Path names and names are lists of bytes
    without the final NUL, [name] buffers of [DIRSIZ] bytes are lists of that
    length. *)

From Stdlib Require Import ZArith Lia.
From stdpp Require Import base strings numbers gmap list.
From S2P Require Import Prelude Mem Vm XBytes XStore XBio XTx.

Definition ROOTINO : Z := 1.
Definition FSMAGIC : Z := 0x10203040.
Definition NDIRECT : nat := 12.
Definition NINDIRECT : nat := 256.
Definition MAXFILE : Z := 268.
Definition NINODE : nat := 50.
Definition DIRSIZ : nat := 14.
Definition BSZ : Z := 1024.
Definition IPB : Z := 16.
Definition BPB : Z := 8192.
Definition T_DIR : Z := 1.
Definition T_FILE : Z := 2.
Definition T_DEVICE : Z := 3.
Definition SIZEOF_DIRENT : Z := 16.

Definition s16 (x : Z) : Z := let y := x mod 2 ^ 16 in if y <? 2 ^ 15 then y else y - 2 ^ 16.

(** A [short] at a byte offset. *)
Definition gets16 (off : nat) (b : list Z) : Z := s16 (of_le (slice off 2 b)).

(** * Structures *)

Record superblock : Type := mkSb {
  sb_magic : Z;
  sb_size : Z;
  sb_nblocks : Z;
  sb_ninodes : Z;
  sb_nlog : Z;
  sb_logstart : Z;
  sb_inodestart : Z;
  sb_bmapstart : Z
}.

Definition get_sb (b : list Z) : superblock :=
  mkSb (getu32 0 b) (getu32 4 b) (getu32 8 b) (getu32 12 b) (getu32 16 b) (getu32 20 b) (getu32 24 b) (getu32 28 b).

Record dinode : Type := mkDi {
  di_type : Z;
  di_major : Z;
  di_minor : Z;
  di_nlink : Z;
  di_size : Z;
  di_addrs : list Z
}.
Definition zero_dinode : dinode := mkDi 0 0 0 0 0 (replicate (S NDIRECT) 0).

Definition di_set_type (x : Z) (d : dinode) : dinode :=
  mkDi x (di_major d) (di_minor d) (di_nlink d) (di_size d) (di_addrs d).
Definition di_set_nlink (x : Z) (d : dinode) : dinode :=
  mkDi (di_type d) (di_major d) (di_minor d) x (di_size d) (di_addrs d).
Definition di_set_size (x : Z) (d : dinode) : dinode :=
  mkDi (di_type d) (di_major d) (di_minor d) (di_nlink d) x (di_addrs d).
Definition di_set_addr (i : nat) (x : Z) (d : dinode) : dinode :=
  mkDi (di_type d) (di_major d) (di_minor d) (di_nlink d) (di_size d) (<[i := x]> (di_addrs d)).

(** [(struct dinode * )bp->data + k]: its 64 bytes. *)
Definition get_dinode (k : nat) (b : list Z) : dinode :=
  mkDi (gets16 (64 * k) b) (gets16 (64 * k + 2) b) (gets16 (64 * k + 4) b) (gets16 (64 * k + 6) b)
    (getu32 (64 * k + 8) b) ((fun i => getu32 (64 * k + 12 + 4 * i)%nat b) <$> seq 0 (S NDIRECT)).
Definition dinode_bytes (d : dinode) : list Z :=
  le_bytes 2 (di_type d) ++ le_bytes 2 (di_major d) ++ le_bytes 2 (di_minor d) ++ le_bytes 2 (di_nlink d)
  ++ le_bytes 4 (di_size d) ++ concat (le_bytes 4 <$> di_addrs d).
Definition put_dinode (k : nat) (d : dinode) (b : list Z) : list Z := splice (64 * k) (dinode_bytes d) b.

Record inode : Type := mkInode {
  i_dev : Z;
  i_inum : Z;
  i_ref : Z;
  i_lock : sleeplock;
  i_valid : Z;
  i_d : dinode         (* type, major, minor, nlink, size, addrs *)
}.
#[export] Instance inode_inhabited : Inhabited inode :=
  populate (mkInode 0 0 0 (mkSleep 0 0) 0 zero_dinode).

Definition set_iid (dev inum : Z) (x : inode) : inode :=
  mkInode dev inum (i_ref x) (i_lock x) (i_valid x) (i_d x).
Definition set_ref (r : Z) (x : inode) : inode :=
  mkInode (i_dev x) (i_inum x) r (i_lock x) (i_valid x) (i_d x).
Definition set_ilock (l : sleeplock) (x : inode) : inode :=
  mkInode (i_dev x) (i_inum x) (i_ref x) l (i_valid x) (i_d x).
Definition set_ivalid (v : Z) (x : inode) : inode :=
  mkInode (i_dev x) (i_inum x) (i_ref x) (i_lock x) v (i_d x).
Definition set_d (d : dinode) (x : inode) : inode :=
  mkInode (i_dev x) (i_inum x) (i_ref x) (i_lock x) (i_valid x) d.

(** [struct stat]. *)
Record stat : Type := mkStat { st_dev : Z; st_ino : Z; st_type : Z; st_nlink : Z; st_size : Z }.

(** * Copies to and from the memory of the process

    The reference kernel's [copyout] and [copyin] (vm.c) are not modelled; this
    is what fs.c relies on, for a process: which bytes can be copied, what they
    hold, and what a copy does.  A copy that fails may have copied some of the
    bytes before the page that is missing.  [cm_ok] is to be read as readable
    where a routine copies in and as writable where it copies out ([copyout]
    also refuses pages that are mapped read-only). *)
Class CopyMem (U : Type) : Type := {
  cm_byte : U -> Z -> Z;
  cm_ok : U -> Z -> bool;
  u_copyout : Z -> list Z -> U -> Z * U;
  u_copyin : Z -> nat -> U -> Z * list Z;
  u_copyout_ok u dst l : byte_list l -> (forall i, 0 <= i < Z.of_nat (length l) -> cm_ok u (dst + i) = true) ->
    exists u', u_copyout dst l u = (0, u') /\ (forall a, cm_ok u' a = cm_ok u a) /\
      forall a, cm_byte u' a = if decide (dst <= a < dst + Z.of_nat (length l)) then l !!! Z.to_nat (a - dst) else cm_byte u a;
  u_copyout_fail u dst l i : 0 <= i < Z.of_nat (length l) -> cm_ok u (dst + i) = false ->
    exists u', u_copyout dst l u = (-1, u') /\ forall a, cm_ok u' a = cm_ok u a;
  u_copyin_ok u src n : (forall i, 0 <= i < Z.of_nat n -> cm_ok u (src + i) = true) ->
    u_copyin src n u = (0, (fun i => cm_byte u (src + i)) <$> zseq 0 n);
  u_copyin_fail u src n i : 0 <= i < Z.of_nat n -> cm_ok u (src + i) = false ->
    exists l, u_copyin src n u = (-1, l) /\ (length l <= n)%nat /\ byte_list l;
  cm_byte_range u a : 0 <= cm_byte u a < 256
}.

Section Fs.
Context {St : Type} `{TxStore St} {U : Type} `{CopyMem U}.

(** The super block, the inode table, the running process (pid, current
    directory, memory), kernel memory and the calls of [printk]. *)
Record fsys : Type := mkFs {
  fs_sb : superblock;
  fs_itable : list inode;
  fs_pid : Z;
  fs_cwd : nat;
  fs_um : U;
  fs_km : mem;
  fs_con : list (string * list Z);
  fs_st : St
}.

Definition with_sb (x : superblock) (s : fsys) : fsys :=
  mkFs x (fs_itable s) (fs_pid s) (fs_cwd s) (fs_um s) (fs_km s) (fs_con s) (fs_st s).
Definition with_itable (x : list inode) (s : fsys) : fsys :=
  mkFs (fs_sb s) x (fs_pid s) (fs_cwd s) (fs_um s) (fs_km s) (fs_con s) (fs_st s).
Definition with_um (x : U) (s : fsys) : fsys :=
  mkFs (fs_sb s) (fs_itable s) (fs_pid s) (fs_cwd s) x (fs_km s) (fs_con s) (fs_st s).
Definition with_km (x : mem) (s : fsys) : fsys :=
  mkFs (fs_sb s) (fs_itable s) (fs_pid s) (fs_cwd s) (fs_um s) x (fs_con s) (fs_st s).
Definition with_con (x : list (string * list Z)) (s : fsys) : fsys :=
  mkFs (fs_sb s) (fs_itable s) (fs_pid s) (fs_cwd s) (fs_um s) (fs_km s) x (fs_st s).
Definition with_st (x : St) (s : fsys) : fsys :=
  mkFs (fs_sb s) (fs_itable s) (fs_pid s) (fs_cwd s) (fs_um s) (fs_km s) (fs_con s) x.

Definition tx {A} (m : M St A) : M fsys A := zoom fs_st with_st m.
Definition bread (dev blockno : Z) : M fsys nat := tx (t_bread dev blockno).
Definition log_write (bp : nat) : M fsys unit := tx (t_log_write bp).
Definition brelse (bp : nat) : M fsys unit := tx (t_brelse bp).
Definition begin_op : M fsys unit := tx t_begin_op.
Definition end_op : M fsys unit := tx t_end_op.
(** [bp->data], and stores into it. *)
Definition bdata (bp : nat) : M fsys block := gets (fun s => t_data bp (fs_st s)).
Definition bstore (bp : nat) (d : block) : M fsys unit := tx (t_fill bp d).

Definition printk (fmt : string) (args : list Z) : M fsys unit :=
  modify (fun s => with_con (fs_con s ++ [(fmt, args)]) s).

Definition the_inode (i : nat) (s : fsys) : inode := fs_itable s !!! i.
Definition iupdf (i : nat) (f : inode -> inode) (s : fsys) : fsys := with_itable (alter f i (fs_itable s)) s.
Definition iupd (i : nat) (f : inode -> inode) : M fsys unit := modify (iupdf i f).
(** A store into one of [ip->type], ..., [ip->addrs]. *)
Definition dupd (i : nat) (f : dinode -> dinode) : M fsys unit := iupd i (fun x => set_d (f (i_d x)) x).

(** The sleep lock of an inode. *)
Definition iacquire (i : nat) : M fsys unit :=
  x ← gets (the_inode i);
  if negb (sl_locked (i_lock x) =? 0) then out_of_fuel else
  pid ← gets fs_pid;
  iupd i (set_ilock (mkSleep 1 pid)).
Definition irelease (i : nat) : M fsys unit := iupd i (set_ilock (mkSleep 0 0)).
Definition iholding (i : nat) (s : fsys) : bool :=
  negb (sl_locked (i_lock (the_inode i s)) =? 0) && (sl_pid (i_lock (the_inode i s)) =? fs_pid s).

(** * The super block and the free map *)

Definition readsb (dev : Z) : M fsys unit :=
  bp ← bread dev 1;
  d ← bdata bp;
  modify (with_sb (get_sb d));;
  brelse bp.

Definition IBLOCK (i : Z) (sb : superblock) : Z := u32 (i / IPB + sb_inodestart sb).
Definition BBLOCK (b : Z) (sb : superblock) : Z := u32 (b / BPB + sb_bmapstart sb).

Definition bzero (dev bno : Z) : M fsys unit :=
  bp ← bread dev bno;
  bstore bp zero_block;;
  log_write bp;;
  brelse bp.

(** The inner loop of [balloc], over the bits [l] of the block in [bp]. *)
Fixpoint balloc_bits (dev : Z) (bp : nat) (b : Z) (l : list Z) : M fsys (option Z) :=
  match l with
  | [] => mret None
  | bi :: l' =>
      sb ← gets fs_sb;
      if negb (b + bi <? sb_size sb) then mret None else
      d ← bdata bp;
      if bit_clear bi d then
        bstore bp (set_bit bi d);;
        log_write bp;;
        brelse bp;;
        bzero dev (b + bi);;
        mret (Some (b + bi))
      else balloc_bits dev bp b l'
  end.

Fixpoint balloc_loop (fuel : nat) (dev b : Z) : M fsys Z :=
  match fuel with
  | O => out_of_fuel
  | S f =>
      sb ← gets fs_sb;
      if negb (b <? sb_size sb) then
        printk "balloc: out of blocks
" [];;
        mret 0
      else
        bp ← bread dev (BBLOCK b sb);
        r ← balloc_bits dev bp b (zseq 0 (Z.to_nat BPB));
        match r with
        | Some x => mret x
        | None => brelse bp;; balloc_loop f dev (b + BPB)
        end
  end.

Definition balloc (dev : Z) : M fsys Z :=
  sb ← gets fs_sb;
  balloc_loop (S (Z.to_nat (sb_size sb))) dev 0.

Definition bfree (dev b : Z) : M fsys unit :=
  sb ← gets fs_sb;
  bp ← bread dev (BBLOCK b sb);
  let bi := b mod BPB in
  d ← bdata bp;
  if bit_clear bi d then panic "freeing free block" else
  bstore bp (clear_bit bi d);;
  log_write bp;;
  brelse bp.

(** * Inodes *)

Definition iinit : M fsys unit := for_each (seq 0 NINODE) (fun i => irelease i).

(** The search of [iget]: the entry of (dev, inum) and the first empty one. *)
Fixpoint iget_scan (l : list inode) (i : nat) (dev inum : Z) (empty : option nat) : option nat * option nat :=
  match l with
  | [] => (None, empty)
  | x :: l' =>
      if (0 <? i_ref x) && (i_dev x =? dev) && (i_inum x =? inum) then (Some i, empty) else
      iget_scan l' (S i) dev inum
        (match empty with None => if i_ref x =? 0 then Some i else None | Some _ => empty end)
  end.

Definition iget (dev inum : Z) : M fsys nat :=
  t ← gets fs_itable;
  match iget_scan t 0 dev inum None with
  | (Some i, _) => iupd i (fun x => set_ref (s32 (i_ref x + 1)) x);; mret i
  | (None, None) => panic "iget: no inodes"
  | (None, Some i) =>
      iupd i (set_iid dev inum);;
      iupd i (set_ref 1);;
      iupd i (set_ivalid 0);;
      mret i
  end.

Fixpoint ialloc_loop (dev type : Z) (l : list Z) : M fsys (option nat) :=
  match l with
  | [] => printk "ialloc: no inodes
" [];; mret None
  | inum :: l' =>
      sb ← gets fs_sb;
      bp ← bread dev (IBLOCK inum sb);
      d ← bdata bp;
      let k := Z.to_nat (inum mod IPB) in
      if di_type (get_dinode k d) =? 0 then
        bstore bp (put_dinode k (di_set_type type zero_dinode) d);;
        log_write bp;;
        brelse bp;;
        i ← iget dev inum;
        mret (Some i)
      else brelse bp;; ialloc_loop dev type l'
  end.

Definition ialloc (dev type : Z) : M fsys (option nat) :=
  sb ← gets fs_sb;
  ialloc_loop dev type (zseq 1 (Z.to_nat (sb_ninodes sb - 1))).

Definition iupdate (i : nat) : M fsys unit :=
  ip ← gets (the_inode i);
  sb ← gets fs_sb;
  bp ← bread (i_dev ip) (IBLOCK (i_inum ip) sb);
  d ← bdata bp;
  bstore bp (put_dinode (Z.to_nat (i_inum ip mod IPB)) (i_d ip) d);;
  log_write bp;;
  brelse bp.

Definition idup (i : nat) : M fsys nat :=
  iupd i (fun x => set_ref (s32 (i_ref x + 1)) x);;
  mret i.

Definition ilock (ip : option nat) : M fsys unit :=
  match ip with
  | None => panic "ilock"
  | Some i =>
      x ← gets (the_inode i);
      if i_ref x <? 1 then panic "ilock" else
      iacquire i;;
      if i_valid x =? 0 then
        sb ← gets fs_sb;
        bp ← bread (i_dev x) (IBLOCK (i_inum x) sb);
        d ← bdata bp;
        let dip := get_dinode (Z.to_nat (i_inum x mod IPB)) d in
        dupd i (fun _ => dip);;
        brelse bp;;
        iupd i (set_ivalid 1);;
        if di_type dip =? 0 then panic "ilock: no type" else mret tt
      else mret tt
  end.

Definition iunlock (ip : option nat) : M fsys unit :=
  match ip with
  | None => panic "iunlock"
  | Some i =>
      h ← gets (iholding i);
      x ← gets (the_inode i);
      if negb h || (i_ref x <? 1) then panic "iunlock" else irelease i
  end.

(** The body of the first loop of [itrunc]. *)
Definition itrunc_direct (ip : nat) (i : nat) : M fsys unit :=
  x ← gets (the_inode ip);
  let a := di_addrs (i_d x) !!! i in
  if negb (a =? 0) then
    bfree (i_dev x) a;;
    dupd ip (di_set_addr i 0)
  else mret tt.

Definition itrunc (ip : nat) : M fsys unit :=
  for_each (seq 0 NDIRECT) (itrunc_direct ip);;
  x ← gets (the_inode ip);
  let ind := di_addrs (i_d x) !!! NDIRECT in
  (if negb (ind =? 0) then
     bp ← bread (i_dev x) ind;
     for_each (seq 0 NINDIRECT) (fun j =>
       d ← bdata bp;
       let a := getu32 (4 * j) d in
       if negb (a =? 0) then bfree (i_dev x) a else mret tt);;
     brelse bp;;
     bfree (i_dev x) ind;;
     dupd ip (di_set_addr NDIRECT 0)
   else mret tt);;
  dupd ip (di_set_size 0);;
  iupdate ip.

Definition iput (ip : nat) : M fsys unit :=
  x ← gets (the_inode ip);
  (if (i_ref x =? 1) && negb (i_valid x =? 0) && (di_nlink (i_d x) =? 0) then
     iacquire ip;;
     itrunc ip;;
     dupd ip (di_set_type 0);;
     iupdate ip;;
     iupd ip (set_ivalid 0);;
     irelease ip
   else mret tt);;
  iupd ip (fun x => set_ref (s32 (i_ref x - 1)) x).

Definition iunlockput (ip : nat) : M fsys unit :=
  iunlock (Some ip);;
  iput ip.

Definition ireclaim (dev : Z) : M fsys unit :=
  sb ← gets fs_sb;
  for_each (zseq 1 (Z.to_nat (sb_ninodes sb - 1))) (fun inum =>
    sb ← gets fs_sb;
    bp ← bread dev (IBLOCK inum sb);
    d ← bdata bp;
    let dip := get_dinode (Z.to_nat (inum mod IPB)) d in
    ip ← (if negb (di_type dip =? 0) && (di_nlink dip =? 0) then
            printk "ireclaim: orphaned inode %d
" [inum];;
            i ← iget dev inum;
            mret (Some i)
          else mret None);
    brelse bp;;
    match ip with
    | Some i =>
        begin_op;;
        ilock (Some i);;
        iunlock (Some i);;
        iput i;;
        end_op
    | None => mret tt
    end).

(** [initlog] also takes [sb.logstart]. *)
Definition fsinit (dev : Z) : M fsys unit :=
  readsb dev;;
  sb ← gets fs_sb;
  if negb (sb_magic sb =? FSMAGIC) then panic "invalid file system" else
  tx (t_initlog (sb_logstart sb));;
  ireclaim dev.

(** * File content *)

Definition bmap (ip : nat) (bn : Z) : M fsys Z :=
  x ← gets (the_inode ip);
  if bn <? Z.of_nat NDIRECT then
    let addr := di_addrs (i_d x) !!! Z.to_nat bn in
    if addr =? 0 then
      addr ← balloc (i_dev x);
      if addr =? 0 then mret 0 else
      dupd ip (di_set_addr (Z.to_nat bn) addr);;
      mret addr
    else mret addr
  else
  let bn := bn - Z.of_nat NDIRECT in
  if bn <? Z.of_nat NINDIRECT then
    let ind := di_addrs (i_d x) !!! NDIRECT in
    ind ← (if ind =? 0 then
             addr ← balloc (i_dev x);
             if addr =? 0 then mret 0 else
             dupd ip (di_set_addr NDIRECT addr);;
             mret addr
           else mret ind);
    if ind =? 0 then mret 0 else
    bp ← bread (i_dev x) ind;
    d ← bdata bp;
    let addr := getu32 (4 * Z.to_nat bn) d in
    addr ← (if addr =? 0 then
              addr ← balloc (i_dev x);
              (if negb (addr =? 0) then
                 d ← bdata bp;
                 bstore bp (putu32 (4 * Z.to_nat bn) addr d);;
                 log_write bp
               else mret tt);;
              mret addr
            else mret addr);
    brelse bp;;
    mret addr
  else panic "bmap: out of range".

Definition stati (ip : nat) : M fsys stat :=
  x ← gets (the_inode ip);
  mret (mkStat (s32 (i_dev x)) (i_inum x) (di_type (i_d x)) (di_nlink (i_d x)) (di_size (i_d x))).

Definition either_copyout (user_dst : bool) (dst : Z) (l : list Z) : M fsys Z :=
  if user_dst then
    u ← gets fs_um;
    let (r, u') := u_copyout dst l u in
    modify (with_um u');;
    mret r
  else
    modify (fun s => with_km (store_bytes (fs_km s) dst l) s);;
    mret 0.

(** The status, and the bytes that were stored at the kernel's [dst]. *)
Definition either_copyin (user_src : bool) (src : Z) (n : nat) : M fsys (Z * list Z) :=
  if user_src then
    u ← gets fs_um;
    mret (u_copyin src n u)
  else
    m ← gets fs_km;
    mret (0, load_bytes m src n).

Fixpoint readi_loop (fuel : nat) (ip : nat) (user_dst : bool) (dst off n tot : Z) : M fsys Z :=
  match fuel with
  | O => out_of_fuel
  | S f =>
      if negb (tot <? n) then mret tot else
      addr ← bmap ip (off / BSZ);
      if addr =? 0 then mret tot else
      x ← gets (the_inode ip);
      bp ← bread (i_dev x) addr;
      let m := Z.min (n - tot) (BSZ - off mod BSZ) in
      d ← bdata bp;
      r ← either_copyout user_dst dst (slice (Z.to_nat (off mod BSZ)) (Z.to_nat m) d);
      if r =? -1 then brelse bp;; mret (u32 (-1)) else
      brelse bp;;
      readi_loop f ip user_dst (u64 (dst + m)) (u32 (off + m)) n (tot + m)
  end.

Definition readi (ip : nat) (user_dst : bool) (dst off n : Z) : M fsys Z :=
  x ← gets (the_inode ip);
  let size := di_size (i_d x) in
  if (size <? off) || (u32 (off + n) <? off) then mret 0 else
  let n := if size <? u32 (off + n) then u32 (size - off) else n in
  r ← readi_loop (S (Z.to_nat n)) ip user_dst dst off n 0;
  mret (s32 r).

(** The loop of [writei]: the bytes written and the offset it stops at. *)
Fixpoint writei_loop (fuel : nat) (ip : nat) (user_src : bool) (src off n tot : Z) : M fsys (Z * Z) :=
  match fuel with
  | O => out_of_fuel
  | S f =>
      if negb (tot <? n) then mret (tot, off) else
      addr ← bmap ip (off / BSZ);
      if addr =? 0 then mret (tot, off) else
      x ← gets (the_inode ip);
      bp ← bread (i_dev x) addr;
      let m := Z.min (n - tot) (BSZ - off mod BSZ) in
      r ← either_copyin user_src src (Z.to_nat m);
      d ← bdata bp;
      bstore bp (splice (Z.to_nat (off mod BSZ)) r.2 d);;
      if r.1 =? -1 then log_write bp;; brelse bp;; mret (tot, off) else
      log_write bp;;
      brelse bp;;
      writei_loop f ip user_src (u64 (src + m)) (u32 (off + m)) n (tot + m)
  end.

Definition writei (ip : nat) (user_src : bool) (src off n : Z) : M fsys Z :=
  x ← gets (the_inode ip);
  if (di_size (i_d x) <? off) || (u32 (off + n) <? off) then mret (-1) else
  if MAXFILE * BSZ <? u32 (off + n) then mret (-1) else
  r ← writei_loop (S (Z.to_nat n)) ip user_src src off n 0;
  x ← gets (the_inode ip);
  (if di_size (i_d x) <? r.2 then dupd ip (di_set_size r.2) else mret tt);;
  iupdate ip;;
  mret (s32 r.1).

(** * Directories *)

(** string.c on lists of bytes; past the end of a list is its NUL. *)
Fixpoint strncmp (n : nat) (p q : list Z) : Z :=
  match n with
  | O => 0
  | S n' =>
      if negb (hd 0 p =? 0) && (hd 0 p =? hd 0 q) then strncmp n' (tl p) (tl q)
      else u8 (hd 0 p) - u8 (hd 0 q)
  end.
(** The [n] bytes that [strncpy] stores. *)
Fixpoint strncpy (n : nat) (t : list Z) : list Z :=
  match n with
  | O => []
  | S n' => if hd 0 t =? 0 then replicate n 0 else hd 0 t :: strncpy n' (tl t)
  end.

Definition namecmp (s t : list Z) : Z := strncmp DIRSIZ s t.

(** The local [de] is at address [de] of the kernel's stack. *)
Variable de : Z.
Definition de_inum (m : mem) : Z := of_le (load_bytes m de 2).
Definition de_name (m : mem) : list Z := load_bytes m (de + 2) DIRSIZ.

(** The loop over the entries: the reference to the inode of the first entry
    with this name, and the offset of the entry. *)
Fixpoint dirlookup_loop (fuel : nat) (dp : nat) (name : list Z) (off : Z) : M fsys (option (nat * Z)) :=
  match fuel with
  | O => out_of_fuel
  | S f =>
      x ← gets (the_inode dp);
      if negb (off <? di_size (i_d x)) then mret None else
      r ← readi dp false de off SIZEOF_DIRENT;
      if negb (r =? SIZEOF_DIRENT) then panic "dirlookup read" else
      m ← gets fs_km;
      if de_inum m =? 0 then dirlookup_loop f dp name (u32 (off + SIZEOF_DIRENT)) else
      if namecmp name (de_name m) =? 0 then
        x ← gets (the_inode dp);
        i ← iget (i_dev x) (de_inum m);
        mret (Some (i, off))
      else dirlookup_loop f dp name (u32 (off + SIZEOF_DIRENT))
  end.

(** The inode and [*poff]. *)
Definition dirlookup (dp : nat) (name : list Z) : M fsys (option (nat * Z)) :=
  x ← gets (the_inode dp);
  if negb (di_type (i_d x) =? T_DIR) then panic "dirlookup not DIR" else
  dirlookup_loop (S (Z.to_nat (di_size (i_d x)))) dp name 0.

(** The offset of the first empty entry, the size when there is none. *)
Fixpoint dirlink_loop (fuel : nat) (dp : nat) (off : Z) : M fsys Z :=
  match fuel with
  | O => out_of_fuel
  | S f =>
      x ← gets (the_inode dp);
      if negb (off <? di_size (i_d x)) then mret off else
      r ← readi dp false de off SIZEOF_DIRENT;
      if negb (r =? SIZEOF_DIRENT) then panic "dirlink read" else
      m ← gets fs_km;
      if de_inum m =? 0 then mret off else dirlink_loop f dp (off + SIZEOF_DIRENT)
  end.

Definition dirlink (dp : nat) (name : list Z) (inum : Z) : M fsys Z :=
  ip ← dirlookup dp name;
  match ip with
  | Some (i, _) => iput i;; mret (-1)
  | None =>
      x ← gets (the_inode dp);
      off ← dirlink_loop (S (Z.to_nat (di_size (i_d x)))) dp 0;
      modify (fun s => with_km (store_bytes (fs_km s) (de + 2) (strncpy DIRSIZ name)) s);;
      modify (fun s => with_km (store_bytes (fs_km s) de (le_bytes 2 inum)) s);;
      r ← writei dp false de (u32 off) SIZEOF_DIRENT;
      if negb (r =? SIZEOF_DIRENT) then mret (-1) else mret 0
  end.

(** * Paths *)

Definition SLASH : Z := 47.

(** The loops over slashes and over the element. *)
Fixpoint skip_slashes (path : list Z) : list Z :=
  match path with
  | c :: path' => if c =? SLASH then skip_slashes path' else path
  | [] => []
  end.
Fixpoint path_elem (path : list Z) : list Z :=
  match path with
  | c :: path' => if c =? SLASH then [] else c :: path_elem path'
  | [] => []
  end.

(** The rest of the path and the new content of [name]. *)
Definition skipelem (path name : list Z) : option (list Z * list Z) :=
  match skip_slashes path with
  | [] => None
  | path =>
      let s := path_elem path in
      let len := length s in
      let name := if (DIRSIZ <=? len)%nat then splice 0 (take DIRSIZ s) name
                  else splice len [0] (splice 0 s name) in
      Some (skip_slashes (drop len path), name)
  end.

(** The loop of [namex]: the inode, and [name]. *)
Fixpoint namex_loop (fuel : nat) (ip : nat) (path : list Z) (nameiparent : bool) (name : list Z) :
    M fsys (option nat * list Z) :=
  match fuel with
  | O => out_of_fuel
  | S f =>
      match skipelem path name with
      | None =>
          if nameiparent then iput ip;; mret (None, name) else mret (Some ip, name)
      | Some (path, name) =>
          ilock (Some ip);;
          x ← gets (the_inode ip);
          if negb (di_type (i_d x) =? T_DIR) then iunlockput ip;; mret (None, name) else
          if di_nlink (i_d x) =? 0 then iunlockput ip;; mret (None, name) else
          if nameiparent && match path with [] => true | _ => false end
          then iunlock (Some ip);; mret (Some ip, name) else
          next ← dirlookup ip name;
          match next with
          | None => iunlockput ip;; mret (None, name)
          | Some (next, _) => iunlockput ip;; namex_loop f next path nameiparent name
          end
      end
  end.

Definition namex (path : list Z) (nameiparent : bool) (name : list Z) : M fsys (option nat * list Z) :=
  ip ← (match path with
        | c :: _ => if c =? SLASH then iget ROOTDEV ROOTINO else cwd ← gets fs_cwd; idup cwd
        | [] => cwd ← gets fs_cwd; idup cwd
        end);
  namex_loop (S (length path)) ip path nameiparent name.

(** The local [name] of [namei] is uninitialised. *)
Definition namei (path name : list Z) : M fsys (option nat) :=
  r ← namex path false name;
  mret r.1.

Definition nameiparent (path name : list Z) : M fsys (option nat * list Z) := namex path true name.
End Fs.

Arguments fsys : clear implicits.
