(* ===== verification/XBlocks.v ===== *)
(** reference/xv6-riscv/kernel/fs.c: the free map.

    The bits of the map blocks are the set of blocks in use; [balloc] takes the
    first free block and zeroes it, [bfree] puts one back.  The lemmas of the
    first section run the accesses to one block against the interface of
    [XTx]; the other files about fs.c use them. *)

From Stdlib Require Import ZArith Lia.
From stdpp Require Import base strings numbers gmap list.
From S2P Require Import Prelude Mem Vm XBytes XStore XBio XLog XTxn XTx XFs.

(** Like [mrun], up to conversion of the state. *)
Ltac mrunc E :=
  lazymatch type of E with
  | ?m ?s = Ok _ _ =>
      match goal with
      | |- context [(m ≫= ?f) ?t] => change ((m ≫= f) t) with ((m ≫= f) s); rewrite (bind_ok _ _ _ _ _ E)
      end
  end.

(** Bring the first step of a computation to its head. *)
Ltac mnorm := repeat first [rewrite bind_assoc | progress mstep].

(** * One block *)

(** Room for [k] more blocks in the transaction. *)
Definition room (k : nat) (ts : tstore) : Prop := ts_tx ts = true /\ (size (ts_rec ts) + k <= TXMAX)%nat.

Lemma ts_take_drop n h ts : ts_held ts !! n = None -> ts_drop n (ts_take n h ts) = ts.
Proof. intros Hn. destruct ts. unfold ts_drop, ts_take. cbn in *. by rewrite delete_insert_id. Qed.

Lemma ts_put n h d ts : ts_held ts !! n = None -> ts_drop n (ts_update n d (ts_take n h ts)) = ts_update n d ts.
Proof. intros Hn. destruct ts. unfold ts_drop, ts_take, ts_update. cbn in *. by rewrite delete_insert_id. Qed.

Lemma room_update k n d ts : room (S k) ts -> room k (ts_update n d ts).
Proof.
  intros [Ht Hs]. split; [done|]. cbn [ts_update ts_rec]. rewrite size_union_alt, size_singleton.
  pose proof (subseteq_size (ts_rec ts ∖ {[n]}) (ts_rec ts) ltac:(set_solver)). lia.
Qed.

Lemma room_le k k' ts : room k ts -> (k' <= k)%nat -> room k' ts.
Proof. intros [? ?]. split; [done|lia]. Qed.

Lemma room_size n ts k : room (S k) ts -> (size ({[n]} ∪ ts_rec ts) <= TXMAX)%nat.
Proof.
  intros [Ht Hs]. rewrite size_union_alt, size_singleton.
  pose proof (subseteq_size (ts_rec ts ∖ {[n]}) (ts_rec ts) ltac:(set_solver)). lia.
Qed.

Section Block.
Context {St : Type} `{TxStore St} {U : Type} `{CopyMem U}.
Implicit Types s : fsys St U.

Lemma tx_run {A} (m : M St A) s a x : m (fs_st s) = Ok a x -> tx m s = Ok a (with_st x s).
Proof. apply zoom_ok. Qed.

Lemma with_st_st x y s : with_st x (with_st y s) = with_st x s.
Proof. done. Qed.

(** A block the process can lock. *)
Definition can_lock (n : Z) (ts : tstore) : Prop :=
  ts_held ts !! n = None /\ fs_block (ts_start ts) n /\ (size (ts_held ts) <= 1)%nat.

Lemma bread_run s ts n : t_st (fs_st s) ts -> can_lock n ts ->
  exists h x, bread ROOTDEV n s = Ok h (with_st x s) /\ t_st x (ts_take n h ts).
Proof.
  intros Hs (Hh & Hf & Hz). destruct (t_read_spec _ _ n Hs Hh Hf Hz) as (h & x & E & Hx).
  exists h, x. split; [by apply tx_run|done].
Qed.

Lemma bdata_run s ts n h : t_st (fs_st s) ts -> ts_held ts !! n = Some h -> bdata h s = Ok (ts_cur ts n) s.
Proof. intros Hs Hh. unfold bdata, gets. by rewrite (t_data_spec _ _ n h Hs Hh). Qed.

(** Block [n] can be logged: it is already, or there is room. *)
Definition can_log (n : Z) (ts : tstore) : Prop := ts_tx ts = true /\ (size ({[n]} ∪ ts_rec ts) <= TXMAX)%nat.

Lemma room_can_log n k ts : room (S k) ts -> can_log n ts.
Proof. intros Hr. split; [apply Hr|by apply (room_size n ts k)]. Qed.

Lemma bupdate_log s ts n h d : t_st (fs_st s) ts -> ts_held ts !! n = Some h -> can_log n ts ->
  exists x1 x, bstore h d s = Ok tt (with_st x1 s) /\ log_write h (with_st x1 s) = Ok tt (with_st x s) /\
    t_st x (ts_update n d ts).
Proof.
  intros Hs Hh [Ht Hr]. destruct (t_update_spec _ _ n h d Hs Hh Ht Hr) as (x1 & x & E1 & E2 & Hx).
  exists x1, x. split; [by apply tx_run|]. split; [|done]. exact (tx_run (t_log_write h) (with_st x1 s) tt x E2).
Qed.

Lemma bupdate_run s ts n h d k : t_st (fs_st s) ts -> ts_held ts !! n = Some h -> room (S k) ts ->
  exists x1 x, bstore h d s = Ok tt (with_st x1 s) /\ log_write h (with_st x1 s) = Ok tt (with_st x s) /\
    t_st x (ts_update n d ts).
Proof. intros Hs Hh Hr. apply bupdate_log; [done|done|by eapply room_can_log]. Qed.

Lemma brelse_tx s ts n h : t_st (fs_st s) ts -> ts_held ts !! n = Some h ->
  exists x, brelse h s = Ok tt (with_st x s) /\ t_st x (ts_drop n ts).
Proof.
  intros Hs Hh. destruct (t_release_spec _ _ n h Hs Hh) as (x & E & Hx). exists x. split; [by apply tx_run|done].
Qed.

(** [bp->data = d; log_write(bp); brelse(bp)] of a locked block. *)
Lemma bput_log s ts n h d : t_st (fs_st s) ts -> ts_held ts !! n = Some h -> can_log n ts ->
  exists x, (bstore h d;; log_write h;; brelse h) s = Ok tt (with_st x s) /\ t_st x (ts_drop n (ts_update n d ts)).
Proof.
  intros Hs Hh Hr. destruct (bupdate_log s ts n h d Hs Hh Hr) as (x1 & x2 & E1 & E2 & Hx).
  destruct (brelse_tx (with_st x2 s) (ts_update n d ts) n h Hx Hh) as (x & E3 & Hx').
  exists x. split; [|done]. mrun E1. mrun E2. exact E3.
Qed.

Lemma bput_run s ts n h d k : t_st (fs_st s) ts -> ts_held ts !! n = Some h -> room (S k) ts ->
  exists x, (bstore h d;; log_write h;; brelse h) s = Ok tt (with_st x s) /\ t_st x (ts_drop n (ts_update n d ts)).
Proof. intros Hs Hh Hr. apply bput_log; [done|done|by eapply room_can_log]. Qed.

Lemma bzero_run s ts n k : t_st (fs_st s) ts -> can_lock n ts -> room (S k) ts ->
  exists x, bzero ROOTDEV n s = Ok tt (with_st x s) /\ t_st x (ts_update n zero_block ts).
Proof.
  intros Hs Hl Hr. destruct (bread_run s ts n Hs Hl) as (h & x & E & Hx). unfold bzero. mrun E.
  destruct (bput_run (with_st x s) (ts_take n h ts) n h zero_block k Hx) as (x' & E' & Hx');
    [apply lookup_insert_eq|done|].
  exists x'. split; [exact E'|]. by rewrite ts_put in Hx' by apply Hl.
Qed.
End Block.

(** * The layout of the disk *)

(** [ boot block | super block | log | inode blocks | free bit map | data blocks ]. *)
Definition datastart (sb : superblock) : Z := sb_bmapstart sb + sb_size sb / BPB + 1.

Record sb_ok (sb : superblock) : Prop := {
  sb_log : 2 <= sb_logstart sb;
  sb_inodes : sb_logstart sb + LOGBLOCKS < sb_inodestart sb;
  sb_ninodes_pos : 1 <= sb_ninodes sb;
  sb_bmap : sb_inodestart sb + sb_ninodes sb / IPB < sb_bmapstart sb;
  sb_data : datastart sb <= sb_size sb;
  sb_max : sb_size sb <= 2 ^ 30
}.

(** Every block is [BSIZE] bytes. *)
Definition blocks_ok (sb : superblock) (cur : Z -> block) : Prop :=
  forall b, 0 <= b < sb_size sb -> length (cur b) = BSIZE /\ byte_list (cur b).

(** The bit of block [b]. *)
Definition used (sb : superblock) (cur : Z -> block) (b : Z) : bool :=
  negb (bit_clear (b mod BPB) (cur (BBLOCK b sb))).

(** The free blocks, in order. *)
Definition free_blocks (sb : superblock) (cur : Z -> block) : list Z :=
  filter (fun b => used sb cur b = false) (zseq 0 (Z.to_nat (sb_size sb))).

(** The blocks before the data blocks are in use. *)
Definition meta_used (sb : superblock) (cur : Z -> block) : Prop :=
  forall b, 0 <= b < datastart sb -> used sb cur b = true.

Record fmap_ok (sb : superblock) (ts : tstore) : Prop := {
  fm_sb : sb_ok sb;
  fm_start : ts_start ts = sb_logstart sb;
  fm_blocks : blocks_ok sb (ts_cur ts);
  fm_meta : meta_used sb (ts_cur ts)
}.

Section Layout.
Context (sb : superblock) (Hsb : sb_ok sb).

Lemma size_pos : 0 <= sb_bmapstart sb < datastart sb /\ datastart sb <= sb_size sb.
Proof.
  destruct Hsb. unfold datastart, BPB, LOGBLOCKS, IPB in *. pose proof (Z.div_pos (sb_ninodes sb) 16).
  assert (0 <= sb_size sb); [|pose proof (Z.div_pos (sb_size sb) 8192); lia].
  pose proof (Z.div_mod (sb_size sb) 8192). pose proof (Z.mod_pos_bound (sb_size sb) 8192). lia.
Qed.

Lemma bpb_div b : 0 <= b < sb_size sb -> 0 <= b / BPB <= sb_size sb / BPB.
Proof. intros. unfold BPB. split; [apply Z.div_pos; lia|]. apply Z.div_le_mono; lia. Qed.

Lemma bblock_eq b : 0 <= b < sb_size sb -> BBLOCK b sb = b / BPB + sb_bmapstart sb.
Proof.
  intros Hb. destruct Hsb. pose proof (bpb_div b Hb). unfold BBLOCK, datastart, BPB, LOGBLOCKS, IPB in *.
  pose proof (Z.div_pos (sb_ninodes sb) 16). apply u32_small. lia.
Qed.

Lemma bblock_range b : 0 <= b < sb_size sb -> sb_bmapstart sb <= BBLOCK b sb < datastart sb.
Proof. intros Hb. rewrite bblock_eq by done. pose proof (bpb_div b Hb). unfold datastart. lia. Qed.

Lemma bblock_fs b : 0 <= b < sb_size sb -> fs_block (sb_logstart sb) (BBLOCK b sb).
Proof.
  intros Hb. pose proof (bblock_range b Hb). destruct Hsb. pose proof (Z.div_pos (sb_ninodes sb) IPB). unfold fs_block, in_log, IPB, LOGBLOCKS in *. lia.
Qed.

Lemma iblock_range i : 0 <= i <= sb_ninodes sb ->
  IBLOCK i sb = i / IPB + sb_inodestart sb /\ sb_inodestart sb <= IBLOCK i sb < sb_bmapstart sb.
Proof.
  intros Hi. pose proof size_pos. destruct Hsb. assert (IBLOCK i sb = i / IPB + sb_inodestart sb) as ->.
  { unfold IBLOCK, datastart, BPB, LOGBLOCKS, IPB in *. pose proof (Z.div_pos (sb_size sb) 8192).
    pose proof (Z.div_pos i 16). pose proof (Z.div_le_mono i (sb_ninodes sb) 16). apply u32_small. lia. }
  pose proof (Z.div_pos i IPB). pose proof (Z.div_le_mono i (sb_ninodes sb) IPB). unfold IPB in *. lia.
Qed.

Lemma iblock_fs i : 0 <= i <= sb_ninodes sb -> fs_block (sb_logstart sb) (IBLOCK i sb).
Proof.
  intros Hi. pose proof (iblock_range i Hi). pose proof size_pos. destruct Hsb. unfold fs_block, in_log, LOGBLOCKS in *. lia.
Qed.

Lemma data_fs b : datastart sb <= b < sb_size sb -> fs_block (sb_logstart sb) b.
Proof.
  intros Hb. pose proof size_pos. destruct Hsb. pose proof (Z.div_pos (sb_ninodes sb) IPB).
  unfold fs_block, in_log, IPB, LOGBLOCKS in *. lia.
Qed.

(** The bits are in one block for each run of [BPB] blocks. *)
Lemma bblock_same b b' : 0 <= b < sb_size sb -> 0 <= b' < sb_size sb ->
  BBLOCK b sb = BBLOCK b' sb -> b mod BPB = b' mod BPB -> b = b'.
Proof.
  intros Hb Hb'. rewrite !bblock_eq by done. intros E Em.
  rewrite (Z.div_mod b BPB), (Z.div_mod b' BPB) by done. lia.
Qed.

(** What an update of other blocks than the map does to the bits. *)
Lemma used_other n d ts b : 0 <= b < sb_size sb -> n <> BBLOCK b sb ->
  used sb (ts_cur (ts_update n d ts)) b = used sb (ts_cur ts) b.
Proof. intros Hb Hn. unfold used. cbn. by rewrite decide_False by done. Qed.

(** Setting the bit of [c], or clearing it. *)
Definition mark (c : Z) (ts : tstore) : tstore :=
  ts_update (BBLOCK c sb) (set_bit (c mod BPB) (ts_cur ts (BBLOCK c sb))) ts.
Definition unmark (c : Z) (ts : tstore) : tstore :=
  ts_update (BBLOCK c sb) (clear_bit (c mod BPB) (ts_cur ts (BBLOCK c sb))) ts.

Lemma used_mark c ts b : blocks_ok sb (ts_cur ts) -> 0 <= b < sb_size sb -> 0 <= c < sb_size sb ->
  used sb (ts_cur (mark c ts)) b = if decide (b = c) then true else used sb (ts_cur ts) b.
Proof.
  intros Hok Hb Hc. unfold used, mark. cbn [ts_update ts_cur].
  pose proof (Z.mod_pos_bound b BPB ltac:(done)) as Hm. pose proof (Z.mod_pos_bound c BPB ltac:(done)) as Hm'.
  pose proof (bblock_range c Hc). pose proof size_pos.
  destruct (Hok (BBLOCK c sb)) as [Hl Hd]; [lia|].
  destruct (decide (BBLOCK b sb = BBLOCK c sb)) as [E|E].
  - rewrite bit_set by done. rewrite E. destruct (decide (b = c)) as [->|Hne]; [by rewrite decide_True|].
    rewrite decide_False; [done|]. intros Em. by apply Hne, bblock_same.
  - rewrite decide_False; [done|]. congruence.
Qed.

Lemma used_unmark c ts b : blocks_ok sb (ts_cur ts) -> 0 <= b < sb_size sb -> 0 <= c < sb_size sb ->
  used sb (ts_cur (unmark c ts)) b = if decide (b = c) then false else used sb (ts_cur ts) b.
Proof.
  intros Hok Hb Hc. unfold used, unmark. cbn [ts_update ts_cur].
  pose proof (Z.mod_pos_bound b BPB ltac:(done)) as Hm. pose proof (Z.mod_pos_bound c BPB ltac:(done)) as Hm'.
  pose proof (bblock_range c Hc). pose proof size_pos.
  destruct (Hok (BBLOCK c sb)) as [Hl Hd]; [lia|].
  destruct (decide (BBLOCK b sb = BBLOCK c sb)) as [E|E].
  - rewrite bit_cleared by done. rewrite E. destruct (decide (b = c)) as [->|Hne]; [by rewrite decide_True|].
    rewrite decide_False; [done|]. intros Em. by apply Hne, bblock_same.
  - rewrite decide_False; [done|]. congruence.
Qed.

Lemma blocks_update n d ts : blocks_ok sb (ts_cur ts) -> length d = BSIZE -> byte_list d ->
  blocks_ok sb (ts_cur (ts_update n d ts)).
Proof. intros Hok Hl Hd b Hb. cbn. case_decide; [done|by apply Hok]. Qed.

Lemma blocks_mark c ts : blocks_ok sb (ts_cur ts) -> 0 <= c < sb_size sb -> blocks_ok sb (ts_cur (mark c ts)).
Proof.
  intros Hok Hc. pose proof (bblock_range c Hc). pose proof size_pos. destruct (Hok (BBLOCK c sb)) as [Hl Hd]; [lia|].
  apply blocks_update; [done|by rewrite set_bit_length|by apply byte_set_bit].
Qed.
Lemma blocks_unmark c ts : blocks_ok sb (ts_cur ts) -> 0 <= c < sb_size sb -> blocks_ok sb (ts_cur (unmark c ts)).
Proof.
  intros Hok Hc. pose proof (bblock_range c Hc). pose proof size_pos. destruct (Hok (BBLOCK c sb)) as [Hl Hd]; [lia|].
  apply blocks_update; [done|by rewrite clear_bit_length|by apply byte_clear].
Qed.

(** The state after [balloc] has taken [c]. *)
Definition alloced (c : Z) (ts : tstore) : tstore := ts_update c zero_block (mark c ts).

Lemma used_alloced c ts b : blocks_ok sb (ts_cur ts) -> 0 <= b < sb_size sb -> datastart sb <= c < sb_size sb ->
  used sb (ts_cur (alloced c ts)) b = if decide (b = c) then true else used sb (ts_cur ts) b.
Proof.
  intros Hok Hb Hc. pose proof size_pos. unfold alloced. rewrite used_other; [|done|pose proof (bblock_range b Hb); lia].
  apply used_mark; [done|done|lia].
Qed.

Lemma fmap_alloced c ts : fmap_ok sb ts -> datastart sb <= c < sb_size sb -> fmap_ok sb (alloced c ts).
Proof.
  intros [H1 H2 H3 H4] Hc. pose proof size_pos. split; [done|done| |].
  - apply blocks_update; [apply blocks_mark; [done|lia]|reflexivity|apply byte_zero].
  - intros b Hb. rewrite used_alloced; [|done|lia|done]. rewrite decide_False by lia. by apply H4.
Qed.

Lemma fmap_unmark c ts : fmap_ok sb ts -> datastart sb <= c < sb_size sb -> fmap_ok sb (unmark c ts).
Proof.
  intros [H1 H2 H3 H4] Hc. pose proof size_pos. split; [done|done| |].
  - apply blocks_unmark; [done|lia].
  - intros b Hb. rewrite used_unmark; [|done|lia|lia]. rewrite decide_False by lia. by apply H4.
Qed.

Lemma free_data ts c : fmap_ok sb ts -> 0 <= c < sb_size sb -> used sb (ts_cur ts) c = false -> datastart sb <= c.
Proof.
  intros Hf Hc Hu. destruct (Z.le_gt_cases (datastart sb) c); [done|]. rewrite (fm_meta _ _ Hf c) in Hu; [done|lia].
Qed.
End Layout.

(** * balloc and bfree *)

Definition out_of_blocks : string * list Z := ("balloc: out of blocks
"%string, []).

Section Alloc.
Context {St : Type} `{TxStore St} {U : Type} `{CopyMem U}.
Implicit Types s : fsys St U.
Context (sb : superblock).

(** Blocks that are locked while the map is changed are data blocks in use. *)
Definition held_data (ts : tstore) : Prop :=
  (size (ts_held ts) <= 1)%nat /\
  forall b h, ts_held ts !! b = Some h -> datastart sb <= b < sb_size sb /\ used sb (ts_cur ts) b = true.

Lemma held_data_lock ts b : fmap_ok sb ts -> held_data ts -> 0 <= b < sb_size sb -> fs_block (sb_logstart sb) b ->
  b < datastart sb \/ used sb (ts_cur ts) b = false -> can_lock b ts.
Proof.
  intros Hf [Hz Hh] Hb Hfs Hd. split_and!; [|by rewrite (fm_start _ _ Hf)|done].
  destruct (ts_held ts !! b) as [h|] eqn:E; [|done]. apply Hh in E as [? Hu]. destruct Hd as [?|Hd]; [lia|congruence].
Qed.

(** No free block in [lo, hi). *)
Definition none_free (ts : tstore) (lo hi : Z) : Prop := forall c, lo <= c < hi -> used sb (ts_cur ts) c = true.

(** [c] is the first free block from [lo] on. *)
Definition first_free (ts : tstore) (lo c : Z) : Prop :=
  lo <= c < sb_size sb /\ used sb (ts_cur ts) c = false /\ none_free ts lo c.

Lemma none_free_app ts lo mid hi : none_free ts lo mid -> none_free ts mid hi -> none_free ts lo hi.
Proof. intros H1 H2 c Hc. destruct (Z.lt_ge_cases c mid); [apply H1|apply H2]; lia. Qed.

Lemma first_free_app ts lo mid c : none_free ts lo mid -> lo <= mid -> first_free ts mid c -> first_free ts lo c.
Proof. intros H1 Hle (H2 & H3 & H4). split_and!; [lia|lia|done|by eapply none_free_app]. Qed.

(** Setting the bit of the block under scan, then zeroing the block. *)
Lemma balloc_take s ts b bi h : fs_sb s = sb -> fmap_ok sb ts -> held_data ts -> room 2 ts ->
  let n := BBLOCK b sb in
  0 <= b + bi < sb_size sb -> BBLOCK (b + bi) sb = n -> (b + bi) mod BPB = bi ->
  used sb (ts_cur ts) (b + bi) = false ->
  t_st (fs_st s) (ts_take n h ts) -> ts_held ts !! n = None ->
  exists x, (bstore h (set_bit bi (ts_cur ts n));; log_write h;; brelse h;;
             bzero ROOTDEV (b + bi);; mret (Some (b + bi))) s = Ok (Some (b + bi)) (with_st x s) /\
    t_st x (alloced sb (b + bi) ts).
Proof.
  intros Es Hf Hh Hr n Hc En Em Hu Hs Hn. pose proof (fm_sb _ _ Hf) as Hsb. pose proof (free_data sb ts (b + bi) Hf Hc Hu) as Hd.
  destruct (bupdate_run s _ n h (set_bit bi (ts_cur ts n)) 1 Hs (lookup_insert_eq _ _ _) Hr) as (x1 & x2 & E1 & E2 & Hx2).
  destruct (brelse_tx (with_st x2 s) _ n h Hx2 (lookup_insert_eq _ _ _)) as (x3 & E3 & Hx3).
  mrun E1. mrun E2. mrun E3.
  assert (ts_drop n (ts_update n (set_bit bi (ts_cur ts n)) (ts_take n h ts)) = mark sb (b + bi) ts) as Et.
  { rewrite ts_put by done. unfold mark. by rewrite En, Em. }
  rewrite Et in Hx3.
  destruct (bzero_run (with_st x3 (with_st x2 s)) _ (b + bi) 0 Hx3) as (x4 & E4 & Hx4).
  - exact (held_data_lock ts (b + bi) Hf Hh Hc (data_fs sb Hsb (b + bi) ltac:(lia)) (or_intror Hu)).
  - by apply room_update.
  - mrun E4. exists x4. split; [done|exact Hx4].
Qed.

Lemma balloc_bits_ok s ts b h k : fs_sb s = sb -> fmap_ok sb ts -> held_data ts -> room 2 ts ->
  let n := BBLOCK b sb in
  0 <= b < sb_size sb -> b mod BPB = 0 -> t_st (fs_st s) (ts_take n h ts) -> ts_held ts !! n = None ->
  forall lo, 0 <= lo -> lo + Z.of_nat k = BPB ->
  (exists c x, balloc_bits ROOTDEV h b (zseq lo k) s = Ok (Some c) (with_st x s) /\
     first_free ts (b + lo) c /\ t_st x (alloced sb c ts)) \/
  (balloc_bits ROOTDEV h b (zseq lo k) s = Ok None s /\ none_free ts (b + lo) (Z.min (b + BPB) (sb_size sb))).
Proof.
  intros Es Hf Hh Hr n Hb Hb0 Hs Hn. pose proof (fm_sb _ _ Hf) as Hsb. induction k as [|k IH]; intros lo Hlo Hk.
  { right. split; [done|]. intros c Hc. unfold BPB in *. lia. }
  rewrite zseq_cons. cbn [balloc_bits]. mstep. rewrite Es.
  destruct (Z.ltb_spec (b + lo) (sb_size sb)) as [Hlt|Hge]; cbn [negb].
  2: { right. split; [done|]. intros c Hc. lia. }
  assert ((b + lo) mod BPB = lo /\ BBLOCK (b + lo) sb = n) as [Em En].
  { pose proof (Z.div_mod b BPB ltac:(done)) as Eb. rewrite Hb0, Z.add_0_r in Eb.
    split; [symmetry; apply (Z.mod_unique _ _ (b / BPB)); lia|]. unfold n. rewrite !(bblock_eq sb Hsb) by lia.
    f_equal. symmetry. apply (Z.div_unique _ _ _ lo); lia. }
  mrun (bdata_run s _ n h Hs (lookup_insert_eq _ _ _)). cbn [ts_take ts_cur].
  destruct (bit_clear lo (ts_cur ts n)) eqn:Ebit.
  - left. assert (used sb (ts_cur ts) (b + lo) = false) as Hu by (unfold used; by rewrite Em, En, Ebit).
    destruct (balloc_take s ts b lo h Es Hf Hh Hr ltac:(lia) En Em Hu Hs Hn) as (x & E & Hx).
    exists (b + lo), x. split; [exact E|]. split; [|done]. split_and!; [lia|lia|done|]. intros c Hc. lia.
  - assert (none_free ts (b + lo) (b + (lo + 1))) as H1.
    { intros c Hc. assert (c = b + lo) as -> by lia. unfold used. by rewrite Em, En, Ebit. }
    destruct (IH (lo + 1) ltac:(lia) ltac:(lia)) as [(c & x & E & Hc & Hx)|[E Hc]].
    + left. exists c, x. split; [exact E|]. split; [|done]. eapply first_free_app; [exact H1|lia|done].
    + right. split; [exact E|]. by eapply none_free_app.
Qed.

Lemma balloc_loop_ok ts fuel : fmap_ok sb ts -> held_data ts -> room 2 ts ->
  forall s b, fs_sb s = sb -> t_st (fs_st s) ts -> 0 <= b -> b mod BPB = 0 ->
  b < sb_size sb + BPB -> sb_size sb - b + BPB <= Z.of_nat fuel * BPB ->
  (exists c x, balloc_loop fuel ROOTDEV b s = Ok c (with_st x s) /\ first_free ts b c /\ t_st x (alloced sb c ts)) \/
  (exists x, balloc_loop fuel ROOTDEV b s = Ok 0 (with_con (fs_con s ++ [out_of_blocks]) (with_st x s)) /\
     none_free ts b (sb_size sb) /\ t_st x ts).
Proof.
  intros Hf Hh Hr. pose proof (fm_sb _ _ Hf) as Hsb. induction fuel as [|fuel IH]; intros s b Es Hs Hb Hb0 Hlim Hfuel.
  { unfold BPB in *. lia. }
  cbn [balloc_loop]. mstep. rewrite Es.
  destruct (Z.ltb_spec b (sb_size sb)) as [Hlt|Hge]; cbn [negb].
  2: { right. exists (fs_st s). split; [by destruct s|]. split; [|done]. intros c Hc. lia. }
  assert (can_lock (BBLOCK b sb) ts) as Hl.
  { pose proof (bblock_range sb Hsb b ltac:(lia)). pose proof (size_pos sb Hsb).
    apply held_data_lock; [done|done|lia|apply bblock_fs; [done|lia]|lia]. }
  destruct (bread_run s ts _ Hs Hl) as (h & x & E & Hx). mrun E. destruct Hl as [Hn _].
  destruct (balloc_bits_ok (with_st x s) ts b h (Z.to_nat BPB) Es Hf Hh Hr ltac:(lia) Hb0 Hx Hn 0)
    as [(c & x' & E' & Hc & Hx')|[E' Hc]]; [lia|done| |]; mrun E'.
  - left. exists c, x'. rewrite Z.add_0_r in Hc. done.
  - destruct (brelse_tx (with_st x s) _ _ h Hx (lookup_insert_eq _ _ _)) as (x2 & E2 & Hx2). mrun E2.
    rewrite ts_take_drop in Hx2 by done. rewrite Z.add_0_r in Hc.
    assert (none_free ts b (Z.min (b + BPB) (sb_size sb))) as Hc' by done.
    destruct (IH (with_st x2 (with_st x s)) (b + BPB) Es Hx2) as [(c & x3 & E3 & Hf3 & Hx3)|(x3 & E3 & Hf3 & Hx3)].
    + unfold BPB. lia.
    + rewrite <- Zplus_mod_idemp_l, Hb0. done.
    + lia.
    + lia.
    + left. exists c, x3. split; [exact E3|]. split; [|done]. pose proof Hf3 as (? & ? & ?).
      apply (first_free_app _ _ (b + BPB)); [|unfold BPB; lia|done].
      intros c' Hc3. apply Hc'. lia.
    + right. exists x3. split; [exact E3|]. split; [|done]. intros c Hc3. destruct (Z.lt_ge_cases c (b + BPB)); [apply Hc'; lia|apply Hf3; lia].
Qed.

(** The first element of the sorted list of free blocks. *)
Lemma first_free_head ts c : first_free ts 0 c -> head (free_blocks sb (ts_cur ts)) = Some c.
Proof.
  intros (Hc & Hu & Hn). unfold free_blocks.
  replace (Z.to_nat (sb_size sb)) with (Z.to_nat c + S (Z.to_nat (sb_size sb - c - 1)))%nat by lia.
  rewrite zseq_app, zseq_cons, filter_app, Z.add_0_l, Z2Nat.id by lia.
  rewrite filter_none.
  2: { intros b Hb%elem_of_zseq. rewrite Hn; [done|lia]. }
  cbn [app]. by rewrite filter_cons_True.
Qed.

Lemma none_free_nil ts : none_free ts 0 (sb_size sb) -> free_blocks sb (ts_cur ts) = [].
Proof.
  intros Hn. apply filter_none. intros b Hb%elem_of_zseq. rewrite Hn; [done|lia].
Qed.

Lemma balloc_ok s ts : fs_sb s = sb -> t_st (fs_st s) ts -> fmap_ok sb ts -> held_data ts -> room 2 ts ->
  match free_blocks sb (ts_cur ts) with
  | c :: _ => exists x, balloc ROOTDEV s = Ok c (with_st x s) /\ t_st x (alloced sb c ts)
  | [] => exists x, balloc ROOTDEV s = Ok 0 (with_con (fs_con s ++ [out_of_blocks]) (with_st x s)) /\ t_st x ts
  end.
Proof.
  intros Es Hs Hf Hh Hr. pose proof (size_pos sb (fm_sb _ _ Hf)). unfold balloc. mstep. rewrite Es.
  destruct (balloc_loop_ok ts (S (Z.to_nat (sb_size sb))) Hf Hh Hr s 0 Es Hs) as [(c & x & E & Hc & Hx)|(x & E & Hc & Hx)];
    [done|done|unfold BPB; lia|unfold BPB; lia| |].
  - apply first_free_head in Hc. destruct (free_blocks sb (ts_cur ts)) as [|c' l]; [done|]. injection Hc as ->. by exists x.
  - rewrite none_free_nil by done. by exists x.
Qed.

Lemma free_blocks_in ts c : fmap_ok sb ts -> c ∈ free_blocks sb (ts_cur ts) <->
  datastart sb <= c < sb_size sb /\ used sb (ts_cur ts) c = false.
Proof.
  intros Hf. pose proof (size_pos sb (fm_sb _ _ Hf)). unfold free_blocks. rewrite list_elem_of_filter, elem_of_zseq. split.
  - intros [Hu Hc]. split; [|done]. split; [|lia]. apply (free_data sb ts c Hf); [lia|done].
  - intros [Hc Hu]. split; [done|lia].
Qed.

Lemma free_blocks_nodup cur : NoDup (free_blocks sb cur).
Proof. apply NoDup_filter, zseq_nodup. Qed.

(** The list of free blocks after one is taken. *)
Lemma free_alloced ts c l : fmap_ok sb ts -> free_blocks sb (ts_cur ts) = c :: l ->
  free_blocks sb (ts_cur (alloced sb c ts)) = l.
Proof.
  intros Hf E. pose proof (size_pos sb (fm_sb _ _ Hf)).
  assert (datastart sb <= c < sb_size sb /\ used sb (ts_cur ts) c = false) as [Hc _].
  { apply free_blocks_in; [done|]. rewrite E. set_solver. }
  pose proof (free_blocks_nodup (ts_cur ts)) as Hnd. rewrite E in Hnd. apply NoDup_cons in Hnd as [Hni _].
  assert (free_blocks sb (ts_cur (alloced sb c ts)) = filter (fun b => b <> c) (free_blocks sb (ts_cur ts))) as ->.
  { unfold free_blocks. rewrite list_filter_filter. apply filter_ext_in. intros b Hb%elem_of_zseq.
    rewrite used_alloced; [|apply Hf|apply Hf|lia|done]. case_decide; naive_solver. }
  rewrite E, filter_cons_False by naive_solver. clear -Hni. induction l as [|x l IH]; [done|].
  rewrite filter_cons_True by set_solver. f_equal. apply IH. set_solver.
Qed.

(** After one is freed: the same set with it. *)
Lemma free_unmark ts c : fmap_ok sb ts -> datastart sb <= c < sb_size sb -> used sb (ts_cur ts) c = true ->
  free_blocks sb (ts_cur (unmark sb c ts)) ≡ₚ c :: free_blocks sb (ts_cur ts).
Proof.
  intros Hf Hc Hu. pose proof (size_pos sb (fm_sb _ _ Hf)). pose proof (fmap_unmark sb (fm_sb _ _ Hf) c ts Hf Hc) as Hf'.
  apply NoDup_Permutation; [apply free_blocks_nodup| |].
  - constructor; [|apply free_blocks_nodup]. rewrite free_blocks_in by done. intros [_ ?]. congruence.
  - intros b. rewrite elem_of_cons, !free_blocks_in by done. split.
    + intros [Hb Hbu]. rewrite used_unmark in Hbu; [|apply Hf|apply Hf|lia|lia]. case_decide; [by left|by right].
    + intros [->|[Hb Hbu]].
      * split; [done|]. rewrite used_unmark; [|apply Hf|apply Hf|lia|lia]. by rewrite decide_True.
      * split; [done|]. rewrite used_unmark; [|apply Hf|apply Hf|lia|lia]. by case_decide.
Qed.

Lemma bfree_run s ts c : fs_sb s = sb -> t_st (fs_st s) ts -> fmap_ok sb ts -> held_data ts -> can_log (BBLOCK c sb) ts ->
  datastart sb <= c < sb_size sb ->
  if used sb (ts_cur ts) c then
    exists x, bfree ROOTDEV c s = Ok tt (with_st x s) /\ t_st x (unmark sb c ts)
  else exists s', bfree ROOTDEV c s = Panic "freeing free block" s'.
Proof.
  intros Es Hs Hf Hh Hr Hc. pose proof (fm_sb _ _ Hf) as Hsb. pose proof (size_pos sb Hsb) as Hsz.
  pose proof (bblock_range sb Hsb c ltac:(lia)) as Hb.
  assert (can_lock (BBLOCK c sb) ts) as Hl.
  { apply held_data_lock; [done|done|lia|apply bblock_fs; [done|lia]|lia]. }
  unfold bfree. mstep. rewrite Es. destruct (bread_run s ts _ Hs Hl) as (h & x & E & Hx). mrun E.
  mrun (bdata_run (with_st x s) _ _ h Hx (lookup_insert_eq _ _ _)). cbn [ts_take ts_cur]. unfold used.
  destruct (bit_clear (c mod BPB) (ts_cur ts (BBLOCK c sb))); cbn [negb]; [by eexists|].
  destruct (bput_log (with_st x s) _ (BBLOCK c sb) h (clear_bit (c mod BPB) (ts_cur ts (BBLOCK c sb))) Hx) as (x' & E' & Hx');
    [apply lookup_insert_eq|done|].
  exists x'. split; [exact E'|]. by rewrite ts_put in Hx' by apply Hl.
Qed.

(** C7: [balloc] and the free map implement the ordered list of free blocks.
    [balloc] returns the first one, marked in use and filled with zeroes, and
    leaves the others free; with none left it prints its message, returns 0 and
    changes no block.  It changes the map and the block it returns only, logs
    two blocks, keeps every block before the data blocks in use, and ends
    normally. *)
Theorem balloc_refines_free_list s ts :
  fs_sb s = sb -> t_st (fs_st s) ts -> fmap_ok sb ts -> held_data ts -> room 2 ts ->
  match free_blocks sb (ts_cur ts) with
  | c :: l => exists x ts', balloc ROOTDEV s = Ok c (with_st x s) /\ t_st x ts' /\ fmap_ok sb ts' /\
      datastart sb <= c < sb_size sb /\ free_blocks sb (ts_cur ts') = l /\ ts_cur ts' c = zero_block /\
      ts_rec ts' = {[c]} ∪ ({[BBLOCK c sb]} ∪ ts_rec ts) /\
      forall b, b <> c -> ~ (sb_bmapstart sb <= b < datastart sb) -> ts_cur ts' b = ts_cur ts b
  | [] => exists x, balloc ROOTDEV s = Ok 0 (with_con (fs_con s ++ [out_of_blocks]) (with_st x s)) /\ t_st x ts
  end.
Proof.
  intros Es Hs Hf Hh Hr. pose proof (balloc_ok s ts Es Hs Hf Hh Hr) as Hb. pose proof (fm_sb _ _ Hf) as Hsb.
  destruct (free_blocks sb (ts_cur ts)) as [|c l] eqn:El; [done|]. destruct Hb as (x & E & Hx).
  assert (datastart sb <= c < sb_size sb /\ used sb (ts_cur ts) c = false) as [Hc _].
  { apply free_blocks_in; [done|]. rewrite El. set_solver. }
  exists x, (alloced sb c ts). split; [done|]. split; [done|]. split; [by apply fmap_alloced|]. split; [done|].
  split; [by apply free_alloced|]. split; [cbn; by rewrite decide_True|]. split; [done|]. intros b Hne Hnm.
  cbn. rewrite decide_False by done. rewrite decide_False; [done|]. intros ->. apply Hnm.
  apply bblock_range; [done|]. pose proof (size_pos sb Hsb). lia.
Qed.
End Alloc.

(** * A small file system

    60 blocks, the log in blocks 2 to 32, 16 inodes in blocks 33 and 34, the
    map in block 35; the blocks before 36 are in use.  User memory is a finite
    map of bytes. *)

Definition small_sb : superblock := mkSb FSMAGIC 60 24 16 31 2 33 35.
Definition small_map : block := [255; 255; 255; 255; 15] ++ replicate 1019 0.
Definition small_disk : gmap Z block := {[35 := small_map]}.

Definition flat_bytes (u : gmap Z Z) (a : Z) : Z := u8 (default 0 (u !! a)).
Definition flat_ok (u : gmap Z Z) (a : Z) : bool := bool_decide (is_Some (u !! a)).
Definition flat_range (u : gmap Z Z) (a : Z) (n : nat) : bool := forallb (flat_ok u) (zseq a n).
Fixpoint flat_put (a : Z) (l : list Z) (u : gmap Z Z) : gmap Z Z :=
  match l with [] => u | x :: l' => <[a := x]> (flat_put (a + 1) l' u) end.

Lemma flat_range_true u a n : flat_range u a n = true <-> forall i, 0 <= i < Z.of_nat n -> flat_ok u (a + i) = true.
Proof.
  unfold flat_range. rewrite forallb_forall. split.
  - intros Hx i Hi. apply Hx, list_elem_of_In. unfold zseq. apply list_elem_of_fmap. exists (Z.to_nat i).
    split; [lia|]. apply elem_of_seq. lia.
  - intros Hx b Hb. apply list_elem_of_In, list_elem_of_fmap in Hb as (i & -> & Hi). apply elem_of_seq in Hi. apply Hx. lia.
Qed.

Lemma flat_put_lookup a l u b : flat_put a l u !! b =
  if decide (a <= b < a + Z.of_nat (length l)) then l !! Z.to_nat (b - a) else u !! b.
Proof.
  revert a. induction l as [|x l IH]; intros a; cbn [flat_put length].
  - by rewrite decide_False by lia.
  - destruct (decide (b = a)) as [->|Hne].
    + rewrite lookup_insert_eq, decide_True by lia. by rewrite Z.sub_diag.
    + rewrite lookup_insert_ne by done. rewrite IH. destruct (decide (a + 1 <= b < a + 1 + Z.of_nat (length l))).
      * rewrite decide_True by lia. replace (Z.to_nat (b - a)) with (S (Z.to_nat (b - (a + 1)))) by lia. done.
      * by rewrite decide_False by lia.
Qed.

#[export, refine] Instance flat_mem : CopyMem (gmap Z Z) := {|
  cm_byte := flat_bytes;
  cm_ok := flat_ok;
  u_copyout dst l u := if flat_range u dst (length l) then (0, flat_put dst l u) else (-1, u);
  u_copyin src n u := if flat_range u src n then (0, (fun i => flat_bytes u (src + i)) <$> zseq 0 n) else (-1, [])
|}.
Proof.
  - intros u dst l Hl Hok. rewrite (proj2 (flat_range_true _ _ _) Hok). eexists. split; [done|]. split; intros a.
    + unfold flat_ok. rewrite flat_put_lookup. case_decide as Ha; [|done]. specialize (Hok (a - dst) ltac:(lia)).
      unfold flat_ok in Hok. replace (dst + (a - dst)) with a in Hok by lia. rewrite Hok. apply bool_decide_eq_true_2.
      apply lookup_lt_is_Some_2. lia.
    + unfold flat_bytes. rewrite flat_put_lookup. case_decide; [|done]. destruct (lookup_lt_is_Some_2 l (Z.to_nat (a - dst))) as [x Hx]; [lia|].
      rewrite Hx, (list_lookup_total_correct _ _ _ Hx). apply u8_small. by apply (Forall_lookup_1 _ _ _ _ Hl Hx).
  - intros u dst l i Hi Hno. destruct (flat_range u dst (length l)) eqn:E; [|by exists u].
    rewrite (proj1 (flat_range_true _ _ _) E i Hi) in Hno. done.
  - intros u src n Hok. by rewrite (proj2 (flat_range_true _ _ _) Hok).
  - intros u src n i Hi Hno. destruct (flat_range u src n) eqn:E.
    + rewrite (proj1 (flat_range_true _ _ _) E i Hi) in Hno. done.
    + exists []. split_and!; [done|cbn; lia|constructor].
  - intros u a. apply u8_range.
Defined.

(** A disk whose log is empty, in a machine that has just started. *)
Lemma fresh_disk (d : gmap Z block) (start : Z) (cur : Z -> block) : length (on_disk start d) = BSIZE -> get32 (on_disk start d) 0 = 0 ->
  (forall b, fs_block start b -> on_disk b d = cur b) ->
  exists c : bst, log_st (mkLog start 0 false 0 0 (replicate (Z.to_nat LOGBLOCKS) 0) c) (mkTs start cur cur ∅ ∅ false).
Proof.
  intros Hl H0 Hc. destruct (binit_rel d 1) as (c & _ & HR). exists c.
  apply (idle_log_st (mkLog start 0 false 0 0 (replicate (Z.to_nat LOGBLOCKS) 0) c) (mkStore ∅ d [])); [|exact Hc].
  split; [|done]. split; [exact HR|done|reflexivity|constructor|constructor| |by split].
  intros b. cbn [st_live]. rewrite lookup_empty. apply not_elem_of_nil.
Qed.

Definition small_cur (b : Z) : block := on_disk b small_disk.
Definition small_ts (tx : bool) : tstore := mkTs 2 small_cur small_cur ∅ ∅ tx.

Lemma small_sb_ok : sb_ok small_sb.
Proof. split; vm_compute; first [reflexivity|discriminate]. Qed.

Lemma small_fmap tx : fmap_ok small_sb (small_ts tx).
Proof.
  split; [exact small_sb_ok|done| |].
  - intros b _. cbn [small_ts ts_cur]. unfold small_cur, on_disk, small_disk. destruct (decide (b = 35)) as [->|Hne].
    + rewrite lookup_singleton_eq. split; [reflexivity|]. apply Forall_app.
      split; [repeat (apply Forall_cons; split; [lia|]); by apply Forall_nil|apply Forall_replicate; lia].
    + rewrite lookup_singleton_ne by done. split; [reflexivity|apply byte_zero].
  - intros b Hb. change (datastart small_sb) with 36 in Hb.
    assert (forallb (used small_sb small_cur) (zseq 0 36) = true) as Hu by (vm_compute; reflexivity).
    rewrite forallb_forall in Hu. apply Hu, list_elem_of_In, elem_of_zseq. lia.
Qed.

(** The running system on the small disk, inside a transaction. *)
Definition small_fs (st : logst bst) (u : gmap Z Z) : fsys (logst bst) (gmap Z Z) :=
  mkFs small_sb (replicate NINODE (mkInode 0 0 0 (mkSleep 0 0) 0 zero_dinode)) 1 0 u ∅ [] st.

Lemma small_start : exists st : logst bst, t_st st (small_ts true).
Proof.
  destruct (fresh_disk small_disk 2 small_cur) as [c Hc]; [vm_compute; reflexivity|vm_compute; reflexivity|done|].
  destruct (log_begin _ _ Hc eq_refl) as (st & _ & Hst). by exists st.
Qed.

Lemma small_held : held_data small_sb (small_ts true).
Proof. split; [vm_compute; lia|]. intros b h Hh. cbn [small_ts ts_held] in Hh. by rewrite lookup_empty in Hh. Qed.
Lemma small_room : room 20 (small_ts true).
Proof. split; [done|vm_compute; lia]. Qed.

Lemma balloc_refines_free_list_witness : exists st x,
  balloc ROOTDEV (small_fs st ∅) = Ok 36 (with_st x (small_fs st ∅)).
Proof.
  destruct small_start as [st Hst].
  pose proof (balloc_refines_free_list small_sb (small_fs st ∅) (small_ts true) eq_refl Hst (small_fmap true)) as Hb.
  replace (free_blocks small_sb (ts_cur (small_ts true))) with (zseq 36 24) in Hb by (vm_compute; reflexivity).
  destruct Hb as (x & ts' & E & _).
  - exact small_held.
  - apply (room_le 20); [exact small_room|lia].
  - by exists st, x.
Defined.
