(* ===== verification/XInode.v ===== *)
(** reference/xv6-riscv/kernel/fs.c: the blocks of a file.

    [slot] numbers the block pointers of an inode, direct, indirect and those
    in the indirect block; [inode_ok] says that the pointers in use are
    distinct data blocks in use and that the file has no holes.  [grows] is
    what allocation may do to an inode: new blocks behind free slots, nothing
    else.  [bmap] is proved against it. *)

From Stdlib Require Import ZArith Lia.
From stdpp Require Import base strings numbers gmap list.
From S2P Require Import Prelude Mem Vm XBytes XStore XBio XLog XTxn XTx XFs XBlocks.

Definition NSLOTS : nat := 269.

Definition slot (cur : Z -> block) (d : dinode) (k : nat) : Z :=
  if (k <? 13)%nat then di_addrs d !!! k else
  let ind := di_addrs d !!! NDIRECT in
  if ind =? 0 then 0 else getu32 (4 * (k - 13)) (cur ind).

(** The slot of block [bn] of the file: the indirect block has number 12. *)
Definition slot_of (bn : Z) : nat := if bn <? 12 then Z.to_nat bn else S (Z.to_nat bn).
Definition blk (cur : Z -> block) (d : dinode) (bn : Z) : Z := slot cur d (slot_of bn).

(** Byte [i] of the file. *)
Definition fbyte (cur : Z -> block) (d : dinode) (i : Z) : Z :=
  (cur (blk cur d (i / BSZ)) : list Z) !!! Z.to_nat (i mod BSZ).
(** The content of the file. *)
Definition fcontent (cur : Z -> block) (d : dinode) : list Z :=
  fbyte cur d <$> zseq 0 (Z.to_nat (di_size d)).

Definition owned (cur : Z -> block) (d : dinode) (b : Z) : Prop :=
  b <> 0 /\ exists k, (k < NSLOTS)%nat /\ slot cur d k = b.

Section Inode.
Context (sb : superblock).

Record inode_ok (cur : Z -> block) (d : dinode) : Prop := {
  io_len : length (di_addrs d) = 13%nat;
  io_data k : (k < NSLOTS)%nat -> slot cur d k <> 0 ->
    datastart sb <= slot cur d k < sb_size sb /\ used sb cur (slot cur d k) = true;
  io_inj k k' : (k < NSLOTS)%nat -> (k' < NSLOTS)%nat -> slot cur d k <> 0 ->
    slot cur d k = slot cur d k' -> k = k';
  io_size : 0 <= di_size d <= MAXFILE * BSZ;
  io_full bn : 0 <= bn -> bn * BSZ < di_size d -> blk cur d bn <> 0
}.

Definition map_block (b : Z) : Prop := sb_bmapstart sb <= b < datastart sb.
Definition same_meta (d d' : dinode) : Prop :=
  di_type d' = di_type d /\ di_major d' = di_major d /\ di_minor d' = di_minor d /\
  di_nlink d' = di_nlink d /\ di_size d' = di_size d.

(** The inode [d] has become [d'] by allocation of blocks. *)
Record grows (ts : tstore) (d : dinode) (ts' : tstore) (d' : dinode) : Prop := {
  gr_fmap : fmap_ok sb ts';
  gr_ok : inode_ok (ts_cur ts') d';
  gr_same : ts_held ts' = ts_held ts /\ ts_base ts' = ts_base ts /\ ts_tx ts' = ts_tx ts;
  gr_meta : same_meta d d';
  gr_slot k : (k < NSLOTS)%nat -> slot (ts_cur ts) d k <> 0 -> slot (ts_cur ts') d' k = slot (ts_cur ts) d k;
  gr_new k : (k < NSLOTS)%nat -> slot (ts_cur ts) d k = 0 -> slot (ts_cur ts') d' k <> 0 ->
    used sb (ts_cur ts) (slot (ts_cur ts') d' k) = false;
  gr_cur b : 0 <= b < sb_size sb -> used sb (ts_cur ts) b = true -> ~ map_block b ->
    b = 0 \/ b <> di_addrs d !!! NDIRECT -> ts_cur ts' b = ts_cur ts b;
  gr_used b : 0 <= b < sb_size sb ->
    used sb (ts_cur ts') b = true <-> used sb (ts_cur ts) b = true \/ owned (ts_cur ts') d' b
}.

Lemma slot_of_lt bn : 0 <= bn < MAXFILE -> (slot_of bn < NSLOTS)%nat.
Proof. unfold slot_of, MAXFILE, NSLOTS. intros. zcase; lia. Qed.

Lemma slot_of_inj bn bn' : 0 <= bn -> 0 <= bn' -> slot_of bn = slot_of bn' -> bn = bn'.
Proof. unfold slot_of. intros. zcase_in H1; lia. Qed.

Lemma slot_ind cur d : slot cur d NDIRECT = di_addrs d !!! NDIRECT.
Proof. done. Qed.

Lemma io_owned cur d b : inode_ok cur d -> owned cur d b -> datastart sb <= b < sb_size sb /\ used sb cur b = true.
Proof. intros Ho [Hb (k & Hk & <-)]. by apply Ho. Qed.

Lemma grows_refl ts d : fmap_ok sb ts -> inode_ok (ts_cur ts) d -> grows ts d ts d.
Proof.
  intros Hf Ho. split; try done. intros b Hb. split; [by left|]. intros [?|Hw]; [done|]. by apply (io_owned _ _ _ Ho Hw).
Qed.

Lemma grows_owned ts d ts' d' b : grows ts d ts' d' -> owned (ts_cur ts) d b -> owned (ts_cur ts') d' b.
Proof. intros G [Hb (k & Hk & <-)]. split; [done|]. exists k. split; [done|]. by apply (gr_slot _ _ _ _ G). Qed.

Lemma grows_ind ts d ts' d' : grows ts d ts' d' -> di_addrs d !!! NDIRECT <> 0 ->
  di_addrs d' !!! NDIRECT = di_addrs d !!! NDIRECT.
Proof. intros G Hi. apply (gr_slot _ _ _ _ G NDIRECT); [unfold NDIRECT, NSLOTS; lia|exact Hi]. Qed.

Lemma grows_trans ts d ts1 d1 ts2 d2 : grows ts d ts1 d1 -> grows ts1 d1 ts2 d2 -> grows ts d ts2 d2.
Proof.
  intros G1 G2. split; try apply G2.
  - destruct (gr_same _ _ _ _ G1) as (? & ? & ?), (gr_same _ _ _ _ G2) as (? & ? & ?). split_and!; congruence.
  - destruct (gr_meta _ _ _ _ G1) as (? & ? & ? & ? & ?), (gr_meta _ _ _ _ G2) as (? & ? & ? & ? & ?).
    split_and!; congruence.
  - intros k Hk Hs. rewrite <- (gr_slot _ _ _ _ G1 k Hk Hs). apply (gr_slot _ _ _ _ G2); [done|].
    by rewrite (gr_slot _ _ _ _ G1 k Hk Hs).
  - intros k Hk H0 H2. destruct (decide (slot (ts_cur ts1) d1 k = 0)) as [E|E].
    + pose proof (gr_new _ _ _ _ G2 k Hk E H2) as Hu. destruct (io_data _ _ (gr_ok _ _ _ _ G2) k Hk H2) as [Hr _].
      pose proof (size_pos sb (fm_sb _ _ (gr_fmap _ _ _ _ G2))).
      destruct (used sb (ts_cur ts) (slot (ts_cur ts2) d2 k)) eqn:Eu; [|done].
      rewrite (proj2 (gr_used _ _ _ _ G1 (slot (ts_cur ts2) d2 k) ltac:(lia)) (or_introl Eu)) in Hu. done.
    + rewrite (gr_slot _ _ _ _ G2 k Hk E). by apply (gr_new _ _ _ _ G1).
  - intros b Hb Hu Hm Hi. rewrite (gr_cur _ _ _ _ G2 b Hb), (gr_cur _ _ _ _ G1 b Hb); try done.
    + apply (gr_used _ _ _ _ G1 b Hb). by left.
    + destruct (decide (b = 0)) as [|Hb0]; [by left|right]. destruct Hi as [?|Hi]; [done|]. intros ->.
      destruct (decide (di_addrs d !!! NDIRECT = 0)) as [E|E].
      * destruct (decide (di_addrs d1 !!! NDIRECT = 0)) as [E1|E1]; [congruence|].
        pose proof (gr_new _ _ _ _ G1 NDIRECT ltac:(unfold NDIRECT, NSLOTS; lia) E E1) as Hn. rewrite slot_ind in Hn. congruence.
      * by rewrite (grows_ind _ _ _ _ G1 E) in Hi.
  - intros b Hb. rewrite (gr_used _ _ _ _ G2 b Hb), (gr_used _ _ _ _ G1 b Hb). split; [|tauto].
    intros [[?|Hw]|?]; [by left| |by right]. right. by apply (grows_owned _ _ _ _ _ G2).
Qed.

(** One slot is filled with a new block. *)
Lemma grows_one ts d ts' d' k0 c : fmap_ok sb ts -> inode_ok (ts_cur ts) d -> fmap_ok sb ts' ->
  length (di_addrs d') = 13%nat -> same_meta d d' ->
  (ts_held ts' = ts_held ts /\ ts_base ts' = ts_base ts /\ ts_tx ts' = ts_tx ts) ->
  (k0 < NSLOTS)%nat -> slot (ts_cur ts) d k0 = 0 -> datastart sb <= c < sb_size sb ->
  used sb (ts_cur ts) c = false ->
  (forall k, (k < NSLOTS)%nat -> slot (ts_cur ts') d' k = if decide (k = k0) then c else slot (ts_cur ts) d k) ->
  (forall b, 0 <= b < sb_size sb -> used sb (ts_cur ts') b = if decide (b = c) then true else used sb (ts_cur ts) b) ->
  (forall b, 0 <= b < sb_size sb -> used sb (ts_cur ts) b = true -> ~ map_block b ->
    b = 0 \/ b <> di_addrs d !!! NDIRECT -> ts_cur ts' b = ts_cur ts b) ->
  grows ts d ts' d'.
Proof.
  intros Hf Ho Hf' Hlen Hm Hsame Hk0 H0 Hc Hu Hslot Hused Hcur. pose proof (size_pos sb (fm_sb _ _ Hf)) as Hsz.
  assert (c <> 0) as Hc0 by lia.
  assert (inode_ok (ts_cur ts') d') as Ho'.
  { split.
    - done.
    - intros k Hk. rewrite Hslot by done. case_decide as E; intros Hs.
      + split; [done|]. rewrite Hused by lia. by rewrite decide_True.
      + destruct (io_data _ _ Ho k Hk Hs) as [Hr Hus]. split; [done|]. rewrite Hused by lia. by case_decide.
    - intros k k' Hk Hk'. rewrite !Hslot by done. repeat case_decide; subst; try done.
      + intros _ E. destruct (io_data _ _ Ho k' Hk') as [_ Hus]; congruence.
      + intros Hs E. destruct (io_data _ _ Ho k Hk) as [_ Hus]; congruence.
      + by apply Ho.
    - destruct Hm as (_ & _ & _ & _ & ->). apply Ho.
    - intros bn Hbn. destruct Hm as (_ & _ & _ & _ & ->). intros Hlt. pose proof (io_size _ _ Ho) as Hmax.
      pose proof (io_full _ _ Ho bn Hbn Hlt) as Hb. unfold blk in *. rewrite Hslot.
      + by case_decide.
      + apply slot_of_lt. unfold BSZ in *. lia. }
  split; try done.
  - intros k Hk Hs. rewrite Hslot by done. case_decide; [congruence|done].
  - intros k Hk Hs. rewrite Hslot by done. case_decide; [done|congruence].
  - intros b Hb. rewrite Hused by done. split.
    + case_decide as E; [|by left]. intros _. right. split; [lia|]. exists k0. split; [done|].
      rewrite Hslot by done. by rewrite decide_True.
    + case_decide as E; [done|]. intros [?|Hw]; [done|]. destruct Hw as [Hb0 (k & Hk & Es)].
      rewrite Hslot in Es by done. case_decide; [congruence|]. subst b. by apply Ho.
Qed.

Lemma alloced_cur ts c b : sb_ok sb -> datastart sb <= c < sb_size sb -> b <> c -> ~ map_block b ->
  ts_cur (alloced sb c ts) b = ts_cur ts b.
Proof.
  intros Hsb Hc Hne Hm. pose proof (size_pos sb Hsb). cbn. rewrite !decide_False; [done| |done].
  intros ->. apply Hm. apply bblock_range; [done|lia].
Qed.

(** The slots when one of the pointers of the inode is a new block. *)
Lemma slot_addr ts d k0 c k : fmap_ok sb ts -> inode_ok (ts_cur ts) d -> (k0 < 13)%nat -> di_addrs d !!! k0 = 0 -> datastart sb <= c < sb_size sb ->
  used sb (ts_cur ts) c = false -> slot (ts_cur (alloced sb c ts)) (di_set_addr k0 c d) k = if decide (k = k0) then c else slot (ts_cur ts) d k.
Proof.
  intros Hf Ho Hk0 H0 Hc Hu. pose proof (fm_sb _ _ Hf) as Hsb. pose proof (size_pos sb Hsb) as Hsz. pose proof (io_len _ _ Ho) as Hlen.
  assert (forall i, di_addrs (di_set_addr k0 c d) !!! i = if decide (i = k0) then c else di_addrs d !!! i) as Hi.
  { intros i. cbn. case_decide as E; [subst; apply list_lookup_total_insert_eq; lia|by apply list_lookup_total_insert_ne]. }
  unfold slot. rewrite !Hi. destruct (Nat.ltb_spec k 13) as [Hlt|Hge]; [done|]. rewrite (decide_False (P := k = k0)) by lia.
  destruct (decide (NDIRECT = k0)) as [E|E].
  + rewrite (proj2 (Z.eqb_neq c 0)) by lia. rewrite <- E in H0. rewrite H0, Z.eqb_refl. cbn [alloced ts_update ts_cur].
    rewrite decide_True by done. apply getu32_zero.
  + destruct (Z.eqb_spec (di_addrs d !!! NDIRECT) 0) as [Ei|Ei]; [done|].
    pose proof (io_data _ _ Ho NDIRECT ltac:(unfold NDIRECT, NSLOTS; lia) Ei) as [Hr Hui]. rewrite slot_ind in Hr, Hui.
    rewrite alloced_cur; [done|done|done|congruence|unfold map_block; lia].
Qed.

(** A direct pointer, or the pointer to the indirect block. *)
Lemma grows_addr ts d k0 c : fmap_ok sb ts -> inode_ok (ts_cur ts) d -> (k0 < 13)%nat ->
  di_addrs d !!! k0 = 0 -> datastart sb <= c < sb_size sb -> used sb (ts_cur ts) c = false ->
  grows ts d (alloced sb c ts) (di_set_addr k0 c d).
Proof.
  intros Hf Ho Hk0 H0 Hc Hu. pose proof (fm_sb _ _ Hf) as Hsb. pose proof (size_pos sb Hsb) as Hsz.
  pose proof (io_len _ _ Ho) as Hlen. assert (slot (ts_cur ts) d k0 = 0) as Hs0.
  { unfold slot. by rewrite (proj2 (Nat.ltb_lt k0 13)) by lia. }
  apply (grows_one ts d _ _ k0 c); try done.
  - by apply fmap_alloced.
  - cbn. by rewrite length_insert.
  - unfold NSLOTS. lia.
  - intros k _. by apply slot_addr.
  - intros b Hb. apply used_alloced; [done|apply Hf|done|done].
  - intros b Hb Hub Hm _. apply alloced_cur; [done|done|congruence|done].
Qed.

(** The indirect block with entry [j] set to a new block. *)
Definition with_entry (ind : Z) (j : nat) (c : Z) (ts : tstore) : tstore :=
  ts_update ind (putu32 (4 * j) c (ts_cur ts ind)) (alloced sb c ts).

Lemma slot_entry ts d j c k : let ind := di_addrs d !!! NDIRECT in
  fmap_ok sb ts -> inode_ok (ts_cur ts) d -> (j < 256)%nat -> ind <> 0 -> datastart sb <= c < sb_size sb ->
  slot (ts_cur (with_entry ind j c ts)) d k = if decide (k = (13 + j)%nat) then c else slot (ts_cur ts) d k.
Proof.
  intros ind Hf Ho Hj Hi Hc. pose proof (fm_sb _ _ Hf) as Hsb. pose proof (size_pos sb Hsb) as Hsz. pose proof (sb_max _ Hsb) as Hmx.
  destruct (io_data _ _ Ho NDIRECT ltac:(unfold NDIRECT, NSLOTS; lia) Hi) as [Hr Hui]. rewrite slot_ind in Hr, Hui. fold ind in Hr, Hui.
  destruct (fm_blocks _ _ Hf ind ltac:(lia)) as [Hl Hb]. change BSIZE with (Z.to_nat 1024) in Hl.
  unfold slot. fold ind. rewrite (proj2 (Z.eqb_neq _ _) Hi). destruct (Nat.ltb_spec k 13); [by rewrite decide_False by lia|].
  cbn [with_entry ts_update ts_cur]. rewrite (decide_True (P := ind = ind)) by done. case_decide as E.
  - subst k. replace (13 + j - 13)%nat with j by lia. apply getu32_put; [lia|lia].
  - apply getu32_put_ne; lia.
Qed.

Lemma grows_entry ts d j c : let ind := di_addrs d !!! NDIRECT in
  fmap_ok sb ts -> inode_ok (ts_cur ts) d -> (j < 256)%nat -> ind <> 0 -> getu32 (4 * j) (ts_cur ts ind) = 0 ->
  datastart sb <= c < sb_size sb -> used sb (ts_cur ts) c = false ->
  grows ts d (with_entry ind j c ts) d.
Proof.
  intros ind Hf Ho Hj Hi H0 Hc Hu. pose proof (fm_sb _ _ Hf) as Hsb. pose proof (size_pos sb Hsb) as Hsz.
  pose proof (sb_max _ Hsb) as Hmx.
  destruct (io_data _ _ Ho NDIRECT ltac:(unfold NDIRECT, NSLOTS; lia) Hi) as [Hr Hui]. rewrite slot_ind in Hr, Hui. fold ind in Hr, Hui.
  destruct (fm_blocks _ _ Hf ind ltac:(lia)) as [Hl Hb]. change BSIZE with (Z.to_nat 1024) in Hl.
  pose proof (fmap_alloced sb Hsb c ts Hf Hc) as Hfa.
  assert (forall b, 0 <= b < sb_size sb -> used sb (ts_cur (with_entry ind j c ts)) b = used sb (ts_cur (alloced sb c ts)) b) as Hus.
  { intros b Hbr. apply used_other; [done|]. pose proof (bblock_range sb Hsb b Hbr). lia. }
  apply (grows_one ts d _ _ (13 + j) c); try done.
  - split; [done|apply Hfa| |].
    + apply blocks_update; [apply Hfa|rewrite putu32_length; [done|lia]|]. apply byte_splice; [done|apply byte_le_bytes].
    + intros b Hbr. rewrite Hus by lia. by apply Hfa.
  - apply Ho.
  - unfold NSLOTS. lia.
  - unfold slot. rewrite (proj2 (Nat.ltb_ge (13 + j) 13)) by lia. fold ind. rewrite (proj2 (Z.eqb_neq _ _) Hi).
    by replace (13 + j - 13)%nat with j by lia.
  - intros k _. by apply slot_entry.
  - intros b Hbr. rewrite Hus by done. apply used_alloced; [done|apply Hf|done|done].
  - intros b Hbr Hub Hm Hne. cbn [with_entry ts_update ts_cur]. rewrite decide_False.
    2: { intros E. destruct Hne as [Hne|Hne]; [apply Hi; by rewrite <- E|by apply Hne]. }
    apply alloced_cur; [done|done|congruence|done].
Qed.
End Inode.

(** * bmap *)

Section Bmap.
Context {St : Type} `{TxStore St} {U : Type} `{CopyMem U}.
Implicit Types s : fsys St U.
Context (sb : superblock).

(** The state with [d] for the inode [ip], and another disk and console. *)
Definition chg (ip : nat) (d : dinode) (x : St) (c : list (string * list Z)) (s : fsys St U) : fsys St U :=
  mkFs (fs_sb s) (alter (set_d d) ip (fs_itable s)) (fs_pid s) (fs_cwd s) (fs_um s) (fs_km s) c x.

(** [ip] is an entry of the table for an inode of the disk with content [d]. *)
Record entry_is (ip : nat) (d : dinode) (s : fsys St U) : Prop := {
  en_lt : (ip < length (fs_itable s))%nat;
  en_d : i_d (the_inode ip s) = d;
  en_dev : i_dev (the_inode ip s) = ROOTDEV
}.

Lemma chg_inode ip d x c s : (ip < length (fs_itable s))%nat -> the_inode ip (chg ip d x c s) = set_d d (the_inode ip s).
Proof. intros Hl. unfold the_inode, chg. cbn. by rewrite list_lookup_total_alter_eq. Qed.

Lemma chg_chg ip d x c d' x' c' s : chg ip d' x' c' (chg ip d x c s) = chg ip d' x' c' s.
Proof. unfold chg. cbn. f_equal. rewrite list_alter_alter_eq. by apply list_alter_ext. Qed.

Lemma chg_self ip d x c s : entry_is ip d s -> chg ip d x c s = with_con c (with_st x s).
Proof.
  intros [Hl <- _]. unfold chg, with_con, with_st. cbn. f_equal.
  rewrite <- (list_alter_id id (fs_itable s) ip) at 2 by done. apply list_alter_ext; [|done]. intros y Hy. unfold the_inode. rewrite (list_lookup_total_correct _ _ _ Hy). by destruct y.
Qed.

Lemma entry_chg ip d d' x c s : entry_is ip d s -> entry_is ip d' (chg ip d' x c s).
Proof.
  intros [Hl Hd Hv]. split.
  - cbn. by rewrite length_alter.
  - by rewrite chg_inode.
  - by rewrite chg_inode.
Qed.

Lemma dupd_chg ip d f s : entry_is ip d s -> dupd ip f s = Ok tt (chg ip (f d) (fs_st s) (fs_con s) s).
Proof.
  intros [Hl <- _]. unfold dupd, iupd, modify, chg, iupdf, with_itable. do 2 f_equal. apply list_alter_ext; [|done].
  intros y Hy. unfold the_inode. by rewrite (list_lookup_total_correct _ _ _ Hy).
Qed.

(** What an allocating step leaves: the result [r], the inode [d'], the abstract
    state [ts']; 0 when the disk is full. *)
Record stepped (ts : tstore) (d : dinode) (used_up : nat) (r : Z) (d' : dinode) (ts' : tstore) : Prop := {
  sp_grows : grows sb ts d ts' d';
  sp_full : r = 0 -> free_blocks sb (ts_cur ts') = [];
  sp_room k : room (used_up + k) ts -> room k ts'
}.

Lemma free_head ts c l : fmap_ok sb ts -> free_blocks sb (ts_cur ts) = c :: l ->
  datastart sb <= c < sb_size sb /\ used sb (ts_cur ts) c = false.
Proof. intros Hf E. apply free_blocks_in; [done|]. rewrite E. set_solver. Qed.

(** [addr = balloc(dev); if (addr == 0) return 0; ip->addrs[k] = addr]. *)
Lemma alloc_addr_run s ts ip d k0 : fs_sb s = sb -> t_st (fs_st s) ts -> fmap_ok sb ts -> held_data sb ts -> room 2 ts ->
  entry_is ip d s -> inode_ok sb (ts_cur ts) d -> (k0 < 13)%nat -> di_addrs d !!! k0 = 0 ->
  exists r d' x c ts', (addr ← balloc ROOTDEV; if addr =? 0 then mret 0 else
      dupd ip (di_set_addr k0 addr);; mret addr) s = Ok r (chg ip d' x c s) /\
    t_st x ts' /\ stepped ts d 2 r d' ts' /\ (r <> 0 -> di_addrs d' !!! k0 = r).
Proof.
  intros Es Hs Hf Hh Hr He Ho Hk Hz0. pose proof (balloc_ok sb s ts Es Hs Hf Hh Hr) as Hb.
  destruct (free_blocks sb (ts_cur ts)) as [|c l] eqn:El; destruct Hb as (x & E & Hx); mrun E.
  - cbn [Z.eqb]. exists 0, d, x, (fs_con s ++ [out_of_blocks]), ts. rewrite (chg_self ip d) by done. split; [done|]. split; [done|].
    split; [|done]. split; [by apply grows_refl|done|]. intros k ?. by apply (room_le (2 + k)); [|lia].
  - destruct (free_head ts c l Hf El) as [Hc Hu]. pose proof (size_pos sb (fm_sb _ _ Hf)).
    destruct (Z.eqb_spec c 0); [lia|]. assert (entry_is ip d (with_st x s)) as He' by (by destruct He).
    mrun (dupd_chg ip d (di_set_addr k0 c) (with_st x s) He').
    exists c, (di_set_addr k0 c d), x, (fs_con s), (alloced sb c ts). split; [done|]. split; [done|]. split.
    + split; [by apply grows_addr|done|]. intros k Hk'. by do 2 apply room_update.
    + intros _. cbn. apply list_lookup_total_insert_eq. rewrite (io_len _ _ _ Ho). lia.
Qed.

(** The indirect block: [bp = bread(ind); if (a[j] == 0) a[j] = balloc(dev)]. *)
Definition bmap_entry (ind : Z) (j : nat) : M (fsys St U) Z :=
  bp ← bread ROOTDEV ind;
  d ← bdata bp;
  let addr := getu32 (4 * j) d in
  addr ← (if addr =? 0 then
            addr ← balloc ROOTDEV;
            (if negb (addr =? 0) then
               d ← bdata bp;
               bstore bp (putu32 (4 * j) addr d);;
               log_write bp
             else mret tt);;
            mret addr
          else mret addr);
  brelse bp;;
  mret addr.

Lemma held_one ind h ts : ts_held ts = ∅ -> datastart sb <= ind < sb_size sb -> used sb (ts_cur ts) ind = true ->
  held_data sb (ts_take ind h ts).
Proof.
  intros Hh Hr Hu. split.
  - cbn. rewrite Hh, insert_empty, map_size_singleton. lia.
  - intros b h' Hb. cbn in Hb. rewrite Hh, insert_empty, lookup_singleton_Some in Hb. destruct Hb as [<- _]. done.
Qed.

Lemma fmap_take ind h ts : fmap_ok sb ts -> fmap_ok sb (ts_take ind h ts).
Proof. by intros []. Qed.

Lemma entry_run s ts ip d j : let ind := di_addrs d !!! NDIRECT in
  fs_sb s = sb -> t_st (fs_st s) ts -> fmap_ok sb ts -> ts_held ts = ∅ ->
  entry_is ip d s -> inode_ok sb (ts_cur ts) d -> ind <> 0 -> (j < 256)%nat ->
  (getu32 (4 * j) (ts_cur ts ind) <> 0 \/ room 3 ts) ->
  exists r x c ts', bmap_entry ind j s = Ok r (chg ip d x c s) /\
    t_st x ts' /\ stepped ts d 3 r d ts' /\ (r <> 0 -> slot (ts_cur ts') d (13 + j) = r) /\
    (getu32 (4 * j) (ts_cur ts ind) <> 0 -> r = getu32 (4 * j) (ts_cur ts ind) /\ ts' = ts /\ c = fs_con s).
Proof.
  intros ind Es Hs Hf Hh He Ho Hi Hj Hroom. pose proof (fm_sb _ _ Hf) as Hsb.
  destruct (io_data _ _ _ Ho NDIRECT ltac:(unfold NDIRECT, NSLOTS; lia) Hi) as [Hr Hu]. rewrite slot_ind in Hr, Hu. fold ind in Hr, Hu.
  assert (ts_held ts !! ind = None) as Hn by (rewrite Hh; apply lookup_empty).
  destruct (bread_run s ts ind Hs) as (h & x1 & E1 & Hx1).
  { split_and!; [done|rewrite (fm_start _ _ Hf); by apply data_fs|rewrite Hh, map_size_empty; lia]. }
  assert (slot (ts_cur ts) d (13 + j) = getu32 (4 * j) (ts_cur ts ind)) as Hslot.
  { unfold slot. rewrite (proj2 (Nat.ltb_ge (13 + j) 13)) by lia. fold ind. rewrite (proj2 (Z.eqb_neq _ _) Hi).
    by replace (13 + j - 13)%nat with j by lia. }
  unfold bmap_entry. mrun E1. mrun (bdata_run (with_st x1 s) _ ind h Hx1 (lookup_insert_eq _ _ _)). cbn [ts_take ts_cur].
  destruct (Z.eqb_spec (getu32 (4 * j) (ts_cur ts ind)) 0) as [E0|E0].
  - destruct Hroom as [|Hroom]; [done|].
    pose proof (balloc_ok sb (with_st x1 s) _ Es Hx1 (fmap_take ind h ts Hf) (held_one ind h ts Hh Hr Hu)
      (room_le 3 2 _ Hroom ltac:(lia))) as Hb. cbn [ts_take ts_cur] in Hb. rewrite bind_assoc.
    destruct (free_blocks sb (ts_cur ts)) as [|c l] eqn:El; destruct Hb as (x2 & E2 & Hx2); mrun E2.
    + cbn [Z.eqb negb]. mnorm.
      destruct (brelse_tx (with_con (fs_con s ++ [out_of_blocks]) (with_st x2 s)) _ ind h Hx2 (lookup_insert_eq _ _ _)) as (x3 & E3 & Hx3).
      mrunc E3. rewrite ts_take_drop in Hx3 by done. exists 0, x3, (fs_con s ++ [out_of_blocks]), ts.
      rewrite (chg_self ip d) by done. split; [done|]. split; [done|]. split; [|done].
      split; [by apply grows_refl|done|]. intros k ?. by apply (room_le (3 + k)); [|lia].
    + destruct (free_head ts c l Hf El) as [Hc Hcu]. pose proof (size_pos sb Hsb).
      destruct (Z.eqb_spec c 0); [lia|]. cbn [negb].
      assert (ts_cur (alloced sb c (ts_take ind h ts)) ind = ts_cur ts ind) as Ec.
      { change (ts_cur (alloced sb c (ts_take ind h ts)) ind) with (ts_cur (alloced sb c ts) ind).
        apply alloced_cur; [done|done|congruence|unfold map_block; lia]. }
      mnorm. mrunc (bdata_run (with_st x2 s) _ ind h Hx2 (lookup_insert_eq _ _ _)). rewrite Ec.
      destruct (bupdate_run (with_st x2 s) _ ind h (putu32 (4 * j) c (ts_cur ts ind)) 0 Hx2 (lookup_insert_eq _ _ _)) as (x3 & x4 & E3 & E4 & Hx4);
        [by do 2 apply room_update|]. mnorm. mrunc E3. mnorm. mrunc E4. mnorm.
      destruct (brelse_tx (with_st x4 s) _ ind h Hx4 (lookup_insert_eq _ _ _)) as (x5 & E5 & Hx5). mrunc E5.
      exists c, x5, (fs_con s), (with_entry sb ind j c ts). rewrite (chg_self ip d) by done. split; [done|]. split.
      { replace (with_entry sb ind j c ts) with (ts_drop ind (ts_update ind (putu32 (4 * j) c (ts_cur ts ind)) (alloced sb c (ts_take ind h ts)))); [done|].
        unfold with_entry, ts_drop, ts_update, alloced, mark, ts_take. cbn. by rewrite delete_insert_id. }
      split; [|split; [|done]].
      * split; [by apply grows_entry|lia|]. intros k Hk. by do 3 apply room_update.
      * intros _. unfold slot. rewrite (proj2 (Nat.ltb_ge (13 + j) 13)) by lia. fold ind. rewrite (proj2 (Z.eqb_neq _ _) Hi).
        replace (13 + j - 13)%nat with j by lia. cbn [with_entry ts_update ts_cur]. rewrite decide_True by done.
        destruct (fm_blocks _ _ Hf ind ltac:(lia)) as [Hl _]. change BSIZE with (Z.to_nat 1024) in Hl. pose proof (sb_max _ Hsb).
        apply getu32_put; lia.
  - mstep. destruct (brelse_tx (with_st x1 s) _ ind h Hx1 (lookup_insert_eq _ _ _)) as (x2 & E2 & Hx2). mrun E2.
    rewrite ts_take_drop in Hx2 by done. exists (getu32 (4 * j) (ts_cur ts ind)), x2, (fs_con s), ts.
    rewrite (chg_self ip d) by done. split; [by destruct s|]. split; [done|]. split; [|done].
    split; [by apply grows_refl|done|]. intros k ?. by apply (room_le (3 + k)); [|lia].
Qed.

Lemma stepped_le ts d n n' r d' ts' : stepped ts d n r d' ts' -> (n <= n')%nat -> stepped ts d n' r d' ts'.
Proof. intros [H1 H2 H3] Hn. split; [done|done|]. intros k Hk. apply H3. by apply (room_le (n' + k)); [|lia]. Qed.

Lemma stepped_trans ts d n r d1 ts1 n' r' d2 ts2 : stepped ts d n r d1 ts1 -> stepped ts1 d1 n' r' d2 ts2 ->
  stepped ts d (n + n') r' d2 ts2.
Proof.
  intros [H1 _ H3] [H1' H2' H3']. split; [by eapply grows_trans|done|]. intros k Hk. apply H3', H3. by rewrite Nat.add_assoc.
Qed.

Lemma held_none ts : ts_held ts = ∅ -> held_data sb ts.
Proof.
  intros E. split; [rewrite E, map_size_empty; lia|]. intros b h. rewrite E, lookup_empty. done.
Qed.

Lemma stepped_held ts d n r d' ts' : stepped ts d n r d' ts' -> ts_held ts' = ts_held ts.
Proof. intros [G _ _]. apply G. Qed.

(** [bmap] of a block of the file that is there gives its address; of one that
    is not there, allocates it and the indirect block if needed. *)
Lemma bmap_ok s ts ip d bn : fs_sb s = sb -> t_st (fs_st s) ts -> fmap_ok sb ts -> ts_held ts = ∅ ->
  entry_is ip d s -> inode_ok sb (ts_cur ts) d -> 0 <= bn < MAXFILE -> (blk (ts_cur ts) d bn <> 0 \/ room 5 ts) ->
  exists r d' x c ts', bmap ip bn s = Ok r (chg ip d' x c s) /\
    t_st x ts' /\ stepped ts d 5 r d' ts' /\ (r <> 0 -> blk (ts_cur ts') d' bn = r) /\
    (blk (ts_cur ts) d bn <> 0 -> r = blk (ts_cur ts) d bn /\ ts' = ts /\ d' = d /\ c = fs_con s).
Proof.
  intros Es Hs Hf Hh He Ho Hbn Hroom. pose proof (en_d _ _ _ He) as Ed. pose proof (en_dev _ _ _ He) as Ev.
  unfold bmap. mstep. rewrite Ed, Ev. unfold MAXFILE in Hbn. destruct (Z.ltb_spec bn (Z.of_nat NDIRECT)) as [Hd|Hi].
  - assert (blk (ts_cur ts) d bn = di_addrs d !!! Z.to_nat bn) as Eb.
    { unfold blk, slot_of, slot. unfold NDIRECT in Hd. rewrite (proj2 (Z.ltb_lt bn 12)) by lia.
      by rewrite (proj2 (Nat.ltb_lt _ _)) by lia. }
    assert (forall cur d', blk cur d' bn = di_addrs d' !!! Z.to_nat bn) as Eb'.
    { intros cur d'. unfold blk, slot_of, slot. unfold NDIRECT in Hd. rewrite (proj2 (Z.ltb_lt bn 12)) by lia.
      by rewrite (proj2 (Nat.ltb_lt _ _)) by lia. }
    rewrite Eb in *. destruct (Z.eqb_spec (di_addrs d !!! Z.to_nat bn) 0) as [E0|E0].
    + destruct Hroom as [|Hroom]; [done|]. unfold NDIRECT in Hd.
      destruct (alloc_addr_run s ts ip d (Z.to_nat bn) Es Hs Hf (held_none ts Hh) (room_le 5 2 _ Hroom ltac:(lia)) He Ho ltac:(lia) E0)
        as (r & d' & x & c & ts' & E & Hx & Hst & Hr).
      exists r, d', x, c, ts'. split; [exact E|]. split; [done|]. split; [by apply (stepped_le _ _ 2); [|lia]|].
      split; [by rewrite Eb'|done].
    + exists (di_addrs d !!! Z.to_nat bn), d, (fs_st s), (fs_con s), ts. rewrite (chg_self ip d) by done.
      split; [by destruct s|]. split; [done|]. split; [|done]. split; [by apply grows_refl|done|]. intros k ?. by apply (room_le (5 + k)); [|lia].
  - unfold NDIRECT, NINDIRECT in *. rewrite (proj2 (Z.ltb_lt (bn - Z.of_nat 12) (Z.of_nat 256))) by lia.
    set (j := Z.to_nat (bn - Z.of_nat 12)). assert ((j < 256)%nat) as Hj by lia.
    assert (forall cur d', blk cur d' bn = slot cur d' (13 + j)) as Eb.
    { intros cur d'. unfold blk, slot_of. rewrite (proj2 (Z.ltb_ge bn 12)) by lia. f_equal. lia. }
    rewrite Eb in *. destruct (Z.eqb_spec (di_addrs d !!! 12%nat) 0) as [E0|E0].
    + assert (slot (ts_cur ts) d (13 + j) = 0) as Ez.
      { unfold slot. rewrite (proj2 (Nat.ltb_ge _ _)) by lia. unfold NDIRECT. by rewrite E0. }
      destruct Hroom as [|Hroom]; [done|].
      destruct (alloc_addr_run s ts ip d 12 Es Hs Hf (held_none ts Hh) (room_le 5 2 _ Hroom ltac:(lia)) He Ho ltac:(lia) E0)
        as (r & d1 & x1 & c1 & ts1 & E & Hx & Hst & Hr). mrun E.
      destruct (Z.eqb_spec r 0) as [->|Hr0].
      * exists 0, d1, x1, c1, ts1. split; [done|]. split; [done|]. split; [by apply (stepped_le _ _ 2); [|lia]|done].
      * specialize (Hr Hr0). pose proof (sp_grows _ _ _ _ _ _ Hst) as G.
        destruct (entry_run (chg ip d1 x1 c1 s) ts1 ip d1 j Es Hx (gr_fmap _ _ _ _ _ G)) as (r2 & x2 & c2 & ts2 & E2 & Hx2 & Hst2 & Hr2 & _).
        -- by rewrite (stepped_held _ _ _ _ _ _ Hst).
        -- by apply (entry_chg ip d).
        -- apply G.
        -- unfold NDIRECT. by rewrite Hr.
        -- done.
        -- right. by apply (sp_room _ _ _ _ _ _ Hst 3).
        -- unfold NDIRECT in E2. rewrite Hr in E2. exists r2, d1, x2, c2, ts2. rewrite chg_chg in E2. split; [exact E2|].
           split; [done|]. split; [exact (stepped_trans _ _ 2 _ _ _ 3 _ _ _ Hst Hst2)|]. split; [by rewrite Eb|done].
    + mstep. destruct (Z.eqb_spec (di_addrs d !!! 12%nat) 0); [done|].
      assert (slot (ts_cur ts) d (13 + j) = getu32 (4 * j) (ts_cur ts (di_addrs d !!! 12%nat))) as Eg.
      { unfold slot. rewrite (proj2 (Nat.ltb_ge _ _)) by lia. unfold NDIRECT. rewrite (proj2 (Z.eqb_neq _ _)) by done.
        by replace (13 + j - 13)%nat with j by lia. }
      rewrite Eg in *.
      destruct (entry_run s ts ip d j Es Hs Hf Hh He Ho E0 Hj) as (r2 & x2 & c2 & ts2 & E2 & Hx2 & Hst2 & Hr2 & Hold).
      { destruct Hroom as [?|Hroom]; [by left|right]. by apply (room_le 5); [|lia]. }
      exists r2, d, x2, c2, ts2. split; [exact E2|]. split; [done|]. split; [by apply (stepped_le _ _ 3); [|lia]|].
      split; [by rewrite Eb|]. intros Hne. destruct (Hold Hne) as (? & ? & ?). done.
Qed.
End Bmap.
