(* ===== verification/XRead.v ===== *)
(** reference/xv6-riscv/kernel/fs.c: readi, the bytes of a file to memory. *)

From Stdlib Require Import ZArith Lia.
From stdpp Require Import base strings numbers gmap list.
From S2P Require Import Prelude Mem Vm XBytes XStore XBio XLog XTxn XTx XFs XBlocks XInode.

(** The bytes [off, off + n) of a file. *)
Definition fbytes (cur : Z -> block) (d : dinode) (off : Z) (n : nat) : list Z := fbyte cur d <$> zseq off n.

Lemma fbytes_app cur d off n m : fbytes cur d off (n + m) = fbytes cur d off n ++ fbytes cur d (off + Z.of_nat n) m.
Proof. unfold fbytes. by rewrite zseq_app, fmap_app. Qed.

Lemma chunk_div off i : 0 <= off -> 0 <= i -> off mod BSZ + i < BSZ -> (off + i) / BSZ = off / BSZ /\ (off + i) mod BSZ = off mod BSZ + i.
Proof.
  intros Ho Hi Hlt. pose proof (Z.div_mod off BSZ ltac:(done)). pose proof (Z.mod_pos_bound off BSZ ltac:(done)).
  split; symmetry; [apply (Z.div_unique _ _ _ (off mod BSZ + i))|apply (Z.mod_unique _ _ (off / BSZ))]; lia.
Qed.

(** A run of bytes inside one block. *)
Lemma chunk_bytes cur d off m : length (cur (blk cur d (off / BSZ))) = BSIZE -> 0 <= off -> 0 <= m -> off mod BSZ + m <= BSZ ->
  slice (Z.to_nat (off mod BSZ)) (Z.to_nat m) (cur (blk cur d (off / BSZ))) = fbytes cur d off (Z.to_nat m).
Proof.
  intros Hl Ho Hm Hlt. pose proof (Z.mod_pos_bound off BSZ ltac:(done)) as Hr. apply list_eq. intros i.
  change BSIZE with (Z.to_nat 1024) in Hl. unfold BSZ in *.
  destruct (decide (i < Z.to_nat m)%nat) as [Hi|Hi].
  - rewrite lookup_slice by done. unfold fbytes. rewrite list_lookup_fmap, zseq_lookup by done. cbn. unfold fbyte.
    destruct (chunk_div off (Z.of_nat i) Ho ltac:(lia)) as [-> ->]; [unfold BSZ; lia|].
    replace (Z.to_nat (off mod BSZ + Z.of_nat i)) with (Z.to_nat (off mod BSZ) + i)%nat by (unfold BSZ; lia). unfold BSZ.
    apply list_lookup_lookup_total_lt. rewrite Hl. lia.
  - rewrite !lookup_ge_None_2; [done| |].
    + unfold fbytes. rewrite length_fmap, zseq_length. lia.
    + unfold slice. rewrite length_take. lia.
Qed.

Section Read.
Context {St : Type} `{TxStore St} {U : Type} `{CopyMem U}.
Implicit Types s : fsys St U.
Context (sb : superblock).

(** The memory that [user] selects: the process's or the kernel's. *)
Definition mbyte (user : bool) (s : fsys St U) (a : Z) : Z :=
  if user then cm_byte (fs_um s) a else load8 (fs_km s) a.
Definition mok (user : bool) (s : fsys St U) (a : Z) : bool := if user then cm_ok (fs_um s) a else true.
(** The state with other memories and another disk. *)
Definition out (u : U) (m : mem) (x : St) (s : fsys St U) : fsys St U := with_st x (with_km m (with_um u s)).

Definition mem_ok (user : bool) (s : fsys St U) (a : Z) (n : Z) : Prop := forall i, 0 <= i < n -> mok user s (a + i) = true.

Lemma mem_ok_forall user s a n : mem_ok user s a n <-> Forall (fun i => mok user s (a + i) = true) (zseq 0 (Z.to_nat n)).
Proof.
  rewrite Forall_forall. split; intros Hm i Hi; apply Hm; [apply elem_of_zseq in Hi; lia|apply elem_of_zseq; lia].
Qed.
#[export] Instance mem_ok_dec user s a n : Decision (mem_ok user s a n).
Proof. refine (cast_if (decide (Forall (fun i => mok user s (a + i) = true) (zseq 0 (Z.to_nat n))))); by rewrite mem_ok_forall. Defined.

Lemma mem_ok_split user s a n m : 0 <= n -> 0 <= m -> mem_ok user s a (n + m) <-> mem_ok user s a n /\ mem_ok user s (a + n) m.
Proof.
  intros Hn Hm. split.
  - intros Hok. split; intros i Hi; [apply Hok; lia|]. rewrite <- Z.add_assoc. apply Hok. lia.
  - intros [H1 H2] i Hi. destruct (Z.lt_ge_cases i n); [apply H1; lia|].
    replace (a + i) with (a + n + (i - n)) by lia. apply H2. lia.
Qed.

(** A range that is not mapped has a byte that is not. *)
Lemma mem_ok_false user s a n : ~ mem_ok user s a n -> exists i, 0 <= i < n /\ mok user s (a + i) = false.
Proof.
  rewrite mem_ok_forall. intros Hno. apply not_Forall_Exists in Hno; [|intros i; apply _].
  apply Exists_exists in Hno as (i & Hi & Hf). apply elem_of_zseq in Hi. exists i. split; [lia|].
  cbv beta delta [compose] in Hf. destruct (mok user s (a + i)); [by destruct Hf|done].
Qed.

(** [l] has been copied to [dst] of the memory that [user] selects, and nothing
    else of the memories has changed. *)
Definition copied (user : bool) (dst : Z) (l : list Z) (s s' : fsys St U) : Prop :=
  (forall a, mok user s' a = mok user s a) /\
  (forall a, mbyte user s' a = if decide (dst <= a < dst + Z.of_nat (length l)) then l !!! Z.to_nat (a - dst) else mbyte user s a) /\
  if user then fs_km s' = fs_km s else fs_um s' = fs_um s.

Lemma copied_nil user dst s x : copied user dst [] s (with_st x s).
Proof. split; [done|]. split; [intros a; by rewrite decide_False by (cbn; lia)|]. by destruct user. Qed.

Lemma copied_app user dst l1 l2 s s1 s2 : copied user dst l1 s s1 ->
  copied user (dst + Z.of_nat (length l1)) l2 s1 s2 -> copied user dst (l1 ++ l2) s s2.
Proof.
  intros (H1 & H1' & H1m) (H2 & H2' & H2m). split; [intros a; by rewrite H2|]. split; [|destruct user; congruence]. intros a. rewrite H2', H1', length_app.
  destruct (decide (dst <= a < dst + Z.of_nat (length l1))) as [Ha|Ha].
  - rewrite decide_False, decide_True by lia. symmetry. apply lookup_total_app_l. lia.
  - destruct (decide (dst + Z.of_nat (length l1) <= a < dst + Z.of_nat (length l1) + Z.of_nat (length l2))) as [Hb|Hb].
    + rewrite decide_True by lia. rewrite lookup_total_app_r by lia. f_equal. lia.
    + by rewrite decide_False by lia.
Qed.

Lemma either_copyout_ok s user dst l : byte_list l -> mem_ok user s dst (Z.of_nat (length l)) ->
  exists u m, either_copyout user dst l s = Ok 0 (out u m (fs_st s) s) /\ copied user dst l s (out u m (fs_st s) s).
Proof.
  intros Hl Hok. unfold either_copyout. destruct user.
  - mstep. destruct (u_copyout_ok (fs_um s) dst l Hl Hok) as (u & E & Hm & Hb). rewrite E. mstep.
    exists u, (fs_km s). split; [by destruct s|]. done.
  - mstep. exists (fs_um s), (store_bytes (fs_km s) dst l). split; [by destruct s|]. split; [done|].
    split; [|done]. intros a. cbn. rewrite load8_store_bytes. case_decide; [|done]. apply u8_small. by apply byte_total.
Qed.

Lemma either_copyout_fail s user dst l i : 0 <= i < Z.of_nat (length l) -> mok user s (dst + i) = false ->
  exists u m, either_copyout user dst l s = Ok (-1) (out u m (fs_st s) s).
Proof.
  intros Hi Hno. unfold either_copyout. destruct user; [|done]. mstep.
  destruct (u_copyout_fail (fs_um s) dst l i Hi Hno) as (u & E & _). rewrite E. mstep.
  exists u, (fs_km s). by destruct s.
Qed.

(** A file that can be read: an entry of the table for a well-formed inode,
    with no block locked. *)
Record file_at (ip : nat) (d : dinode) (ts : tstore) (s : fsys St U) : Prop := {
  fa_sb : fs_sb s = sb;
  fa_st : t_st (fs_st s) ts;
  fa_fmap : fmap_ok sb ts;
  fa_held : ts_held ts = ∅;
  fa_entry : entry_is ip d s;
  fa_ok : inode_ok sb (ts_cur ts) d
}.

Lemma file_out ip d ts s u m x : file_at ip d ts s -> t_st x ts -> file_at ip d ts (out u m x s).
Proof. intros [] Hx. split; try done. by destruct fa_entry0. Qed.

Lemma file_block ip d ts s bn : file_at ip d ts s -> 0 <= bn < MAXFILE -> blk (ts_cur ts) d bn <> 0 ->
  can_lock (blk (ts_cur ts) d bn) ts /\ length (ts_cur ts (blk (ts_cur ts) d bn)) = BSIZE /\
  byte_list (ts_cur ts (blk (ts_cur ts) d bn)).
Proof.
  intros [E1 E2 Hf Hh He Ho] Hbn Hb. destruct (io_data _ _ _ Ho _ (slot_of_lt bn Hbn) Hb) as [Hr Hu].
  pose proof (size_pos sb (fm_sb _ _ Hf)) as Hsz. split.
  - split_and!; [by rewrite Hh, lookup_empty|rewrite (fm_start _ _ Hf); by apply data_fs; [apply Hf|]|].
    rewrite Hh, map_size_empty. lia.
  - unfold blk in *. apply Hf. lia.
Qed.

(** The block of the file at [off], looked up and locked. *)
Lemma block_run ip d ts s off : file_at ip d ts s -> 0 <= off < di_size d ->
  exists x h x', bmap ip (off / BSZ) s = Ok (blk (ts_cur ts) d (off / BSZ)) (with_st x s) /\
    blk (ts_cur ts) d (off / BSZ) <> 0 /\
    bread ROOTDEV (blk (ts_cur ts) d (off / BSZ)) (with_st x s) = Ok h (with_st x' s) /\
    t_st x' (ts_take (blk (ts_cur ts) d (off / BSZ)) h ts) /\ ts_held ts !! (blk (ts_cur ts) d (off / BSZ)) = None /\
    length (ts_cur ts (blk (ts_cur ts) d (off / BSZ))) = BSIZE /\ byte_list (ts_cur ts (blk (ts_cur ts) d (off / BSZ))).
Proof.
  intros F Hoff. pose proof F as [Es Hs Hf Hh He Ho]. pose proof (io_size _ _ _ Ho) as Hsz.
  assert (0 <= off / BSZ) as Hd by (apply Z.div_pos; unfold BSZ; lia).
  assert (off / BSZ * BSZ < di_size d) as Hlt.
  { pose proof (Z.div_mod off BSZ ltac:(done)). pose proof (Z.mod_pos_bound off BSZ ltac:(done)). lia. }
  assert (off / BSZ < MAXFILE) as Hmx by (unfold BSZ in *; lia).
  pose proof (io_full _ _ _ Ho _ Hd Hlt) as Hb. set (b := blk (ts_cur ts) d (off / BSZ)) in *.
  destruct (bmap_ok sb s ts ip d (off / BSZ) Es Hs Hf Hh He Ho ltac:(lia) (or_introl Hb))
    as (r & d' & x & c & ts' & E & Hx & _ & _ & Hold). destruct (Hold Hb) as (-> & -> & -> & ->).
  rewrite (chg_self ip d) in E by done. fold b in E.
  destruct (file_block ip d ts s (off / BSZ) F ltac:(lia) Hb) as (Hl & Hlen & Hbl).
  destruct (bread_run (with_st x s) ts b Hx Hl) as (h & x' & E' & Hx'). exists x, h, x'.
  split_and!; try done. apply Hl.
Qed.

Lemma readi_loop_ok ip d ts user fuel : forall s dst off n tot, file_at ip d ts s ->
  0 <= tot <= n -> 0 <= off -> off + (n - tot) <= di_size d -> 0 <= dst -> dst + (n - tot) < 2 ^ 64 ->
  n - tot < Z.of_nat fuel ->
  exists u m x, t_st x ts /\
    if decide (mem_ok user s dst (n - tot)) then
      readi_loop fuel ip user dst off n tot s = Ok n (out u m x s) /\
      copied user dst (fbytes (ts_cur ts) d off (Z.to_nat (n - tot))) s (out u m x s)
    else readi_loop fuel ip user dst off n tot s = Ok (u32 (-1)) (out u m x s).
Proof.
  induction fuel as [|fuel IH]; intros s dst off n tot F Ht Ho Hs Hd Hd' Hfu; [lia|]. cbn [readi_loop].
  destruct (Z.ltb_spec tot n) as [Hlt|Hge]; cbn [negb].
  2: { assert (n = tot) as -> by lia. rewrite Z.sub_diag. exists (fs_um s), (fs_km s), (fs_st s). split; [apply F|].
       rewrite decide_True by (intros i Hi; lia). split; [by destruct s|]. exact (copied_nil user dst s (fs_st s)). }
  pose proof (io_size _ _ _ (fa_ok _ _ _ _ F)) as Hsz.
  destruct (block_run ip d ts s off F ltac:(lia)) as (x & h & x' & E & Hb & E' & Hx' & Hn & Hlen & Hbl).
  set (b := blk (ts_cur ts) d (off / BSZ)) in *. mrun E. rewrite (proj2 (Z.eqb_neq b 0) Hb). mstep.
  change (the_inode ip (with_st x s)) with (the_inode ip s). rewrite (en_dev _ _ _ (fa_entry _ _ _ _ F)). mrun E'.
  mrun (bdata_run (with_st x' s) _ b h Hx' (lookup_insert_eq _ _ _)). cbn [ts_take ts_cur].
  pose proof (Z.mod_pos_bound off BSZ ltac:(done)) as Hm.
  set (m := Z.min (n - tot) (BSZ - off mod BSZ)). assert (0 < m /\ m <= n - tot /\ off mod BSZ + m <= BSZ) as (Hm0 & Hm1 & Hm2) by lia.
  pose proof (chunk_bytes (ts_cur ts) d off m Hlen Ho ltac:(lia) Hm2) as Hch. fold b in Hch. rewrite Hch.
  set (l := fbytes (ts_cur ts) d off (Z.to_nat m)) in *.
  assert (byte_list l) as Hlb.
  { rewrite <- Hch. by apply byte_slice. }
  assert (Z.of_nat (length l) = m) as Hll by (unfold l, fbytes; rewrite length_fmap, zseq_length; lia).
  assert (forall u mm y, t_st y (ts_take b h ts) -> exists x2, brelse h (out u mm y s) = Ok tt (out u mm x2 s) /\ t_st x2 ts) as Hrel.
  { intros u mm y Hy. destruct (brelse_tx (out u mm y s) _ b h Hy (lookup_insert_eq _ _ _)) as (x2 & E2 & Hx2).
    rewrite ts_take_drop in Hx2 by done. by exists x2. }
  replace (n - tot) with (m + (n - (tot + m))) by lia.
  destruct (decide (mem_ok user s dst m)) as [Hok|Hno].
  - destruct (either_copyout_ok (with_st x' s) user dst l Hlb) as (u & mm & Ec & Hc); [by rewrite Hll|].
    mrun Ec. change (0 =? -1) with false. cbv iota. destruct (Hrel u mm x' Hx') as (x2 & E2 & Hx2). mrunc E2.
    rewrite (u64_small (dst + m)) by lia. rewrite (u32_small (off + m)) by (unfold MAXFILE, BSZ in Hsz; lia).
    destruct (IH (out u mm x2 s) (dst + m) (off + m) n (tot + m) (file_out ip d ts s u mm x2 F Hx2))
      as (u3 & m3 & x3 & Hx3 & Hr); [lia|lia|lia|lia|lia|lia|].
    assert (mem_ok user (out u mm x2 s) (dst + m) (n - (tot + m)) <-> mem_ok user s (dst + m) (n - (tot + m))) as Hiff.
    { split; intros Hm3 i Hi; specialize (Hm3 i Hi); rewrite <- Hm3; [symmetry|]; apply Hc. }
    exists u3, m3, x3. split; [done|]. destruct (decide (mem_ok user s dst (m + (n - (tot + m))))) as [Hall|Hall].
    + apply mem_ok_split in Hall as [_ Hall]; [|lia|lia]. rewrite decide_True in Hr by (by apply Hiff).
      destruct Hr as [Er Hcr]. split; [exact Er|]. rewrite Z2Nat.inj_add, fbytes_app by lia.
      eapply copied_app; [exact Hc|]. fold l. rewrite Hll, Z2Nat.id by lia. exact Hcr.
    + rewrite decide_False in Hr; [exact Hr|]. rewrite Hiff. intros Hm3. apply Hall, mem_ok_split; [lia|lia|done].
  - destruct (mem_ok_false _ _ _ _ Hno) as (i & Hi & Hf).
    destruct (either_copyout_fail (with_st x' s) user dst l i) as (u & mm & Ec); [lia|done|]. mrun Ec.
    change (-1 =? -1) with true. cbv iota. destruct (Hrel u mm x' Hx') as (x2 & E2 & Hx2). mrunc E2.
    exists u, mm, x2. split; [done|]. rewrite decide_False; [done|]. rewrite mem_ok_split by lia. tauto.
Qed.

(** Where [readi] stops: at the end of the file. *)
Definition readable (d : dinode) (off n : Z) : Z := if off + n <=? di_size d then n else di_size d - off.

Lemma readi_ok ip d ts user s dst off n : file_at ip d ts s -> 0 <= off <= di_size d -> 0 <= n -> off + n < 2 ^ 32 ->
  0 <= dst -> dst + n < 2 ^ 64 ->
  exists u m x, t_st x ts /\
    if decide (mem_ok user s dst (readable d off n)) then
      readi ip user dst off n s = Ok (readable d off n) (out u m x s) /\
      copied user dst (fbytes (ts_cur ts) d off (Z.to_nat (readable d off n))) s (out u m x s)
    else readi ip user dst off n s = Ok (-1) (out u m x s).
Proof.
  intros F Hoff Hn Hmax Hd Hd'. pose proof (io_size _ _ _ (fa_ok _ _ _ _ F)) as Hsz. unfold MAXFILE, BSZ in Hsz.
  unfold readi. mstep. rewrite (en_d _ _ _ (fa_entry _ _ _ _ F)). rewrite (u32_small (off + n)) by lia.
  rewrite (proj2 (Z.ltb_ge (di_size d) off)), (proj2 (Z.ltb_ge (off + n) off)) by lia. cbn [orb].
  assert ((if di_size d <? off + n then u32 (di_size d - off) else n) = readable d off n) as ->.
  { unfold readable. destruct (Z.ltb_spec (di_size d) (off + n)); destruct (Z.leb_spec (off + n) (di_size d)); try lia.
    apply u32_small. lia. }
  assert (0 <= readable d off n /\ off + readable d off n <= di_size d /\ readable d off n <= n) as (H1 & H2 & H3).
  { unfold readable. destruct (Z.leb_spec (off + n) (di_size d)); lia. }
  set (n' := readable d off n) in *.
  destruct (readi_loop_ok ip d ts user (S (Z.to_nat n')) s dst off n' 0 F) as (u & m & x & Hx & Hr); try lia.
  rewrite Z.sub_0_r in Hr. exists u, m, x. split; [done|]. destruct (decide (mem_ok user s dst n')).
  - destruct Hr as [Er Hc]. mrun Er. split; [|done]. rewrite s32_small by lia. done.
  - mrun Hr. done.
Qed.
End Read.
