(* ===== verification/XWrite.v ===== *)
(** reference/xv6-riscv/kernel/fs.c: writei and iupdate, bytes of memory to a
    file.

    [extends] is what a write may do to an inode: allocate blocks, change the
    blocks it owns, nothing else.  [writei] is proved to extend the file, to
    store the bytes of memory at their offsets and to keep all others. *)

From Stdlib Require Import ZArith Lia.
From stdpp Require Import base strings numbers gmap list.
From S2P Require Import Prelude Mem Vm XBytes XStore XBio XLog XTxn XTx XFs XBlocks XInode XRead.

Section Extends.
Context (sb : superblock).

Record extends (ts : tstore) (d : dinode) (ts' : tstore) (d' : dinode) : Prop := {
  ex_fmap : fmap_ok sb ts';
  ex_ok : inode_ok sb (ts_cur ts') d';
  ex_same : ts_held ts' = ts_held ts /\ ts_base ts' = ts_base ts /\ ts_tx ts' = ts_tx ts;
  ex_meta : same_meta d d';
  ex_slot k : (k < NSLOTS)%nat -> slot (ts_cur ts) d k <> 0 -> slot (ts_cur ts') d' k = slot (ts_cur ts) d k;
  ex_new b : 0 <= b < sb_size sb -> owned (ts_cur ts') d' b -> owned (ts_cur ts) d b \/ used sb (ts_cur ts) b = false;
  ex_cur b : 0 <= b < sb_size sb -> used sb (ts_cur ts) b = true -> ~ map_block sb b ->
    ~ owned (ts_cur ts) d b -> ts_cur ts' b = ts_cur ts b;
  ex_used b : 0 <= b < sb_size sb ->
    used sb (ts_cur ts') b = true <-> used sb (ts_cur ts) b = true \/ owned (ts_cur ts') d' b
}.

Lemma extends_refl ts d : fmap_ok sb ts -> inode_ok sb (ts_cur ts) d -> extends ts d ts d.
Proof.
  intros Hf Ho. split; try done; [by left|]. intros b Hb. split; [by left|]. intros [?|Hw]; [done|].
  by apply (io_owned sb _ _ _ Ho Hw).
Qed.

Lemma extends_owned ts d ts' d' b : extends ts d ts' d' -> owned (ts_cur ts) d b -> owned (ts_cur ts') d' b.
Proof. intros G [Hb (k & Hk & <-)]. split; [done|]. exists k. split; [done|]. by apply (ex_slot _ _ _ _ G). Qed.

Lemma grows_extends ts d ts' d' : grows sb ts d ts' d' -> extends ts d ts' d'.
Proof.
  intros G. split; try apply G.
  - intros b Hb [Hb0 (k & Hk & Es)]. destruct (decide (slot (ts_cur ts) d k = 0)) as [E|E].
    + right. rewrite <- Es. apply (gr_new _ _ _ _ _ G k Hk E). congruence.
    + left. split; [done|]. exists k. split; [done|]. by rewrite <- (gr_slot _ _ _ _ _ G k Hk E).
  - intros b Hb Hu Hm Hno. apply (gr_cur _ _ _ _ _ G b Hb Hu Hm). destruct (decide (b = 0)) as [|Hb0]; [by left|right].
    intros ->. apply Hno. split; [done|]. exists NDIRECT. split; [unfold NDIRECT, NSLOTS; lia|done].
Qed.

Lemma extends_trans ts d ts1 d1 ts2 d2 : extends ts d ts1 d1 -> extends ts1 d1 ts2 d2 -> extends ts d ts2 d2.
Proof.
  intros G1 G2. split; try apply G2.
  - destruct (ex_same _ _ _ _ G1) as (? & ? & ?), (ex_same _ _ _ _ G2) as (? & ? & ?). split_and!; congruence.
  - destruct (ex_meta _ _ _ _ G1) as (? & ? & ? & ? & ?), (ex_meta _ _ _ _ G2) as (? & ? & ? & ? & ?). split_and!; congruence.
  - intros k Hk Hs. rewrite <- (ex_slot _ _ _ _ G1 k Hk Hs). apply (ex_slot _ _ _ _ G2); [done|].
    by rewrite (ex_slot _ _ _ _ G1 k Hk Hs).
  - intros b Hb Hw. destruct (ex_new _ _ _ _ G2 b Hb Hw) as [Hw1|Hu]; [by apply (ex_new _ _ _ _ G1)|right].
    destruct (used sb (ts_cur ts) b) eqn:E; [|done]. by rewrite (proj2 (ex_used _ _ _ _ G1 b Hb) (or_introl E)) in Hu.
  - intros b Hb Hu Hm Hno. rewrite (ex_cur _ _ _ _ G2 b Hb), (ex_cur _ _ _ _ G1 b Hb); try done.
    + apply (ex_used _ _ _ _ G1 b Hb). by left.
    + intros Hw. destruct (ex_new _ _ _ _ G1 b Hb Hw); [done|congruence].
  - intros b Hb. rewrite (ex_used _ _ _ _ G2 b Hb), (ex_used _ _ _ _ G1 b Hb). split; [|tauto].
    intros [[?|Hw]|?]; [by left| |by right]. right. by apply (extends_owned _ _ _ _ _ G2).
Qed.

Lemma grows_fbyte ts d ts' d' i : fmap_ok sb ts -> inode_ok sb (ts_cur ts) d -> grows sb ts d ts' d' ->
  0 <= i < MAXFILE * BSZ -> blk (ts_cur ts) d (i / BSZ) <> 0 -> fbyte (ts_cur ts') d' i = fbyte (ts_cur ts) d i.
Proof.
  intros Hf Ho G Hi Hb. assert (0 <= i / BSZ < MAXFILE) as Hbn.
  { split; [apply Z.div_pos; unfold BSZ; lia|apply Z.div_lt_upper_bound; unfold BSZ in *; lia]. }
  pose proof (slot_of_lt _ Hbn) as Hk. unfold fbyte, blk in *. rewrite (gr_slot _ _ _ _ _ G _ Hk Hb).
  destruct (io_data _ _ _ Ho _ Hk Hb) as [Hr Hu]. pose proof (size_pos sb (fm_sb _ _ Hf)).
  rewrite (gr_cur _ _ _ _ _ G); [done|lia|done|unfold map_block; lia|]. right. intros E.
  rewrite <- (slot_ind (ts_cur ts)) in E. apply (io_inj _ _ _ Ho) in E; [|done|unfold NDIRECT, NSLOTS; lia|done].
  unfold slot_of, NDIRECT in E. destruct (Z.ltb_spec (i / BSZ) 12); lia.
Qed.

(** A block of the file is overwritten from offset [o] on. *)
Definition overwrite (b : Z) (o : nat) (l : list Z) (ts : tstore) : tstore := ts_update b (splice o l (ts_cur ts b)) ts.

Lemma overwrite_slot ts d b o l k : inode_ok sb (ts_cur ts) d -> (forall bn, 0 <= bn < MAXFILE -> blk (ts_cur ts) d bn = b -> b <> 0 ->
    slot (ts_cur (overwrite b o l ts)) d k = slot (ts_cur ts) d k).
Proof.
  intros Ho bn Hbn Eb Hb. unfold slot. destruct (k <? 13)%nat; [done|].
  destruct (Z.eqb_spec (di_addrs d !!! NDIRECT) 0) as [|Hi]; [done|]. cbn. rewrite decide_False; [done|].
  rewrite <- Eb, <- (slot_ind (ts_cur ts)) in *. intros E. unfold blk in *. symmetry in E.
  apply (io_inj _ _ _ Ho) in E; [|by apply slot_of_lt|unfold NDIRECT, NSLOTS; lia|done].
  unfold slot_of, NDIRECT in E. destruct (Z.ltb_spec bn 12); lia.
Qed.

Lemma extends_overwrite ts d bn o l : let b := blk (ts_cur ts) d bn in
  fmap_ok sb ts -> inode_ok sb (ts_cur ts) d -> 0 <= bn < MAXFILE -> b <> 0 ->
  (o + length l <= BSIZE)%nat -> byte_list l -> extends ts d (overwrite b o l ts) d.
Proof.
  intros b Hf Ho Hbn Hb Hol Hl. pose proof (fm_sb _ _ Hf) as Hsb. pose proof (size_pos sb Hsb) as Hsz.
  destruct (io_data _ _ _ Ho _ (slot_of_lt bn Hbn) Hb) as [Hr Hu]. fold (blk (ts_cur ts) d bn) in Hr, Hu. fold b in Hr, Hu.
  destruct (fm_blocks _ _ Hf b ltac:(lia)) as [Hlen Hbl].
  assert (forall k, slot (ts_cur (overwrite b o l ts)) d k = slot (ts_cur ts) d k) as Hs.
  { intros k. by apply (overwrite_slot ts d b o l k Ho bn). }
  assert (forall c, 0 <= c < sb_size sb -> used sb (ts_cur (overwrite b o l ts)) c = used sb (ts_cur ts) c) as Hus.
  { intros c Hc. apply used_other; [done|]. pose proof (bblock_range sb Hsb c Hc). lia. }
  assert (forall c, owned (ts_cur (overwrite b o l ts)) d c <-> owned (ts_cur ts) d c) as Hw.
  { intros c. unfold owned. by setoid_rewrite Hs. }
  split; try done.
  - split; [done|apply Hf| |].
    + apply blocks_update; [apply Hf|rewrite length_splice; [done|lia]|by apply byte_splice].
    + intros c Hc. rewrite Hus by lia. by apply Hf.
  - split; try apply Ho.
    + intros k Hk. rewrite Hs. intros Hk0. destruct (io_data _ _ _ Ho k Hk Hk0). split; [done|]. rewrite Hus; [done|lia].
    + intros k k' Hk Hk'. rewrite !Hs. by apply Ho.
    + intros bn' H1 H2. unfold blk. rewrite Hs. by apply Ho.
  - intros c Hc Hw'. left. by apply Hw.
  - intros c Hc Hcu Hm Hno. cbn. rewrite decide_False; [done|]. intros ->. apply Hno. split; [done|].
    exists (slot_of bn). split; [by apply slot_of_lt|done].
  - intros c Hc. rewrite Hus by done. rewrite Hw. split; [by left|]. intros [?|Hwc]; [done|]. by apply (io_owned sb _ _ _ Ho Hwc).
Qed.

Lemma overwrite_fbyte ts d bn o l i : let b := blk (ts_cur ts) d bn in
  fmap_ok sb ts -> inode_ok sb (ts_cur ts) d -> 0 <= bn < MAXFILE -> b <> 0 ->
  (o + length l <= BSIZE)%nat -> 0 <= i < MAXFILE * BSZ ->
  fbyte (ts_cur (overwrite b o l ts)) d i =
  if decide (bn * BSZ + Z.of_nat o <= i < bn * BSZ + Z.of_nat o + Z.of_nat (length l))
  then l !!! Z.to_nat (i - (bn * BSZ + Z.of_nat o)) else fbyte (ts_cur ts) d i.
Proof.
  intros b Hf Ho Hbn Hb Hol Hi. pose proof (size_pos sb (fm_sb _ _ Hf)) as Hsz.
  destruct (io_data _ _ _ Ho _ (slot_of_lt bn Hbn) Hb) as [Hr Hu]. fold (blk (ts_cur ts) d bn) in Hr, Hu. fold b in Hr, Hu.
  destruct (fm_blocks _ _ Hf b ltac:(lia)) as [Hlen _]. pose proof (Z.mod_pos_bound i BSZ ltac:(done)) as Hm.
  pose proof (Z.div_mod i BSZ ltac:(done)) as Edm. change BSIZE with (Z.to_nat 1024) in *.
  assert (0 <= i / BSZ < MAXFILE) as Hin.
  { split; [apply Z.div_pos; unfold BSZ; lia|apply Z.div_lt_upper_bound; unfold BSZ in *; lia]. }
  unfold fbyte. assert (blk (ts_cur (overwrite b o l ts)) d (i / BSZ) = blk (ts_cur ts) d (i / BSZ)) as ->.
  { unfold blk at 1. by rewrite (overwrite_slot ts d b o l _ Ho bn). }
  cbn [overwrite ts_update ts_cur]. destruct (decide (blk (ts_cur ts) d (i / BSZ) = b)) as [E|E].
  - assert (i / BSZ = bn) as Ebn.
    { apply slot_of_inj; [lia|lia|]. apply (io_inj _ _ _ Ho); [by apply slot_of_lt|by apply slot_of_lt| |exact E].
      fold (blk (ts_cur ts) d (i / BSZ)). congruence. }
    rewrite E. rewrite !list_lookup_total_alt, lookup_splice by lia. unfold BSZ in *.
    destruct (decide (o <= Z.to_nat (i mod 1024) < o + length l)%nat).
    + rewrite decide_True by lia. do 2 f_equal. lia.
    + by rewrite decide_False by lia.
  - rewrite decide_False; [done|]. intros Hx. apply E. unfold b. f_equal. unfold BSZ in *.
    symmetry. apply (Z.div_unique _ _ _ (i - bn * 1024)); lia.
Qed.
End Extends.

(** * The loop of writei *)

(** The number of blocks that [k] bytes from [off] on touch, at most. *)
Definition nblk (off k : Z) : nat := if k <=? 0 then 0%nat else Z.to_nat ((off mod BSZ + k + BSZ - 1) / BSZ).

Lemma nblk_step off k m : 0 <= off -> 0 < k -> m = Z.min k (BSZ - off mod BSZ) -> m < k ->
  nblk off k = S (nblk (off + m) (k - m)).
Proof.
  intros Ho Hk -> Hm. pose proof (Z.mod_pos_bound off BSZ ltac:(done)) as Hr. unfold nblk.
  replace (Z.min k (BSZ - off mod BSZ)) with (BSZ - off mod BSZ) in * by lia.
  rewrite (proj2 (Z.leb_gt k 0)), (proj2 (Z.leb_gt (k - (BSZ - off mod BSZ)) 0)) by lia.
  assert ((off + (BSZ - off mod BSZ)) mod BSZ = 0) as ->.
  { pose proof (Z.div_mod off BSZ ltac:(done)). symmetry. apply (Z.mod_unique _ _ (off / BSZ + 1)); [unfold BSZ; lia|lia]. }
  replace (off mod BSZ + k + BSZ - 1) with ((0 + (k - (BSZ - off mod BSZ)) + BSZ - 1) + 1 * BSZ) by lia.
  rewrite Z.div_add by done. rewrite Z2Nat.inj_add; [cbn; lia| |lia]. apply Z.div_pos; unfold BSZ in *; lia.
Qed.

Lemma nblk_pos off k : 0 <= off -> 0 < k -> (1 <= nblk off k)%nat.
Proof.
  intros Ho Hk. pose proof (Z.mod_pos_bound off BSZ ltac:(done)) as Hr. unfold nblk. rewrite (proj2 (Z.leb_gt k 0)) by lia.
  assert (1 <= (off mod BSZ + k + BSZ - 1) / BSZ); [|lia]. apply Z.div_le_lower_bound; unfold BSZ in *; lia.
Qed.

Section Write.
Context {St : Type} `{TxStore St} {U : Type} `{CopyMem U}.
Implicit Types s : fsys St U.
Context (sb : superblock).

Lemma either_copyin_ok s user src n : mem_ok user s src (Z.of_nat n) ->
  either_copyin user src n s = Ok (0, (fun i => mbyte user s (src + i)) <$> zseq 0 n) s.
Proof.
  intros Hok. unfold either_copyin. destruct user; mstep.
  - by rewrite (u_copyin_ok (fs_um s) src n Hok).
  - unfold mret, M_ret. do 2 f_equal. unfold load_bytes, zseq. rewrite <- !list_fmap_compose.
    apply list_fmap_ext. intros i x _. unfold compose. by cbn.
Qed.

Lemma either_copyin_fail s user src n i : 0 <= i < Z.of_nat n -> mok user s (src + i) = false ->
  exists l, either_copyin user src n s = Ok (-1, l) s /\ (length l <= n)%nat /\ byte_list l.
Proof.
  intros Hi Hno. unfold either_copyin. destruct user; [|done]. mstep.
  destruct (u_copyin_fail (fs_um s) src n i Hi Hno) as (l & E & Hl). exists l. by rewrite E.
Qed.

Lemma mbyte_range user s a : 0 <= mbyte user s a < 256.
Proof. destruct user; [apply cm_byte_range|apply load8_range]. Qed.

(** One block: the bytes from memory, the store and the log. *)
Lemma write_chunk_ok ip d ts s user src off m bn : file_at sb ip d ts s -> 0 <= bn < MAXFILE ->
  let b := blk (ts_cur ts) d bn in b <> 0 -> room 1 ts -> 0 <= off mod BSZ -> 0 <= m -> off mod BSZ + m <= BSZ ->
  exists r l h x x1 x2 x3,
    bread ROOTDEV b s = Ok h (with_st x s) /\ either_copyin user src (Z.to_nat m) (with_st x s) = Ok (r, l) (with_st x s) /\
    bdata h (with_st x s) = Ok (ts_cur ts b) (with_st x s) /\
    bstore h (splice (Z.to_nat (off mod BSZ)) l (ts_cur ts b)) (with_st x s) = Ok tt (with_st x1 s) /\
    log_write h (with_st x1 s) = Ok tt (with_st x2 s) /\ brelse h (with_st x2 s) = Ok tt (with_st x3 s) /\
    t_st x3 (overwrite b (Z.to_nat (off mod BSZ)) l ts) /\
    byte_list l /\ (length l <= Z.to_nat m)%nat /\
    (if decide (mem_ok user s src m) then r = 0 /\ l = (fun i => mbyte user s (src + i)) <$> zseq 0 (Z.to_nat m) else r = -1).
Proof.
  intros F Hbn b Hb Hr Ho Hm Hom. destruct (file_block sb ip d ts s bn F Hbn Hb) as (Hl & Hlen & Hbl). fold b in Hl, Hlen, Hbl.
  destruct (bread_run s ts b (fa_st _ _ _ _ _ F) Hl) as (h & x & E & Hx).
  assert (exists r l, either_copyin user src (Z.to_nat m) (with_st x s) = Ok (r, l) (with_st x s) /\ byte_list l /\ (length l <= Z.to_nat m)%nat /\
    (if decide (mem_ok user s src m) then r = 0 /\ l = (fun i => mbyte user s (src + i)) <$> zseq 0 (Z.to_nat m) else r = -1))
    as (r & l & Ec & Hlb & Hll & Hrl).
  { destruct (decide (mem_ok user s src m)) as [Hok|Hno].
    - eexists 0, _. split; [apply (either_copyin_ok (with_st x s) user src (Z.to_nat m)); by rewrite Z2Nat.id|]. split_and!; try done.
      + apply Forall_fmap, Forall_forall. intros i _. apply mbyte_range.
      + rewrite length_fmap, zseq_length. lia.
    - destruct (mem_ok_false _ _ _ _ Hno) as (i & Hi & Hf).
      destruct (either_copyin_fail (with_st x s) user src (Z.to_nat m) i) as (l & E' & H1 & H2); [lia|done|].
      by exists (-1), l. }
  set (dat := splice (Z.to_nat (off mod BSZ)) l (ts_cur ts b)).
  destruct (bupdate_run (with_st x s) _ b h dat 0 Hx (lookup_insert_eq _ _ _) Hr) as (x1 & x2 & E1 & E2 & Hx2).
  destruct (brelse_tx (with_st x2 s) _ b h Hx2 (lookup_insert_eq _ _ _)) as (x3 & E3 & Hx3). rewrite ts_put in Hx3 by apply Hl.
  exists r, l, h, x, x1, x2, x3. split_and!; try done. exact (bdata_run (with_st x s) _ b h Hx (lookup_insert_eq _ _ _)).
Qed.

Lemma file_chg ip d ts s d' ts' x c : file_at sb ip d ts s -> t_st x ts' -> fmap_ok sb ts' -> ts_held ts' = ts_held ts ->
  inode_ok sb (ts_cur ts') d' -> file_at sb ip d' ts' (chg ip d' x c s).
Proof.
  intros [E1 E2 E3 E4 E5 E6] Hx Hf Hh Ho. split; [done|done|done|congruence| |done]. by apply (entry_chg ip d).
Qed.

(** The end of the block in which a write of [k] bytes at [off] has stopped
    after [t] of them. *)
Definition stop_end (off k t : Z) : Z := Z.min (off + k) (((off + t) / BSZ + 1) * BSZ).

(** [t] of [k] bytes from memory at [src] have been stored at [off]; the bytes
    outside [off, lim) are as before. *)
Record written (user : bool) (s : fsys St U) (ts : tstore) (d : dinode) (src off k lim t : Z) (ts' : tstore) (d' : dinode) : Prop := {
  wr_ext : extends sb ts d ts' d';
  wr_range : 0 <= t <= k;
  wr_lim : off + t <= lim;
  wr_mapped i : off <= i < off + t -> blk (ts_cur ts') d' (i / BSZ) <> 0;
  wr_same i : 0 <= i < MAXFILE * BSZ -> blk (ts_cur ts) d (i / BSZ) <> 0 -> ~ (off <= i < lim) ->
    fbyte (ts_cur ts') d' i = fbyte (ts_cur ts) d i;
  wr_bytes i : 0 <= i < t -> fbyte (ts_cur ts') d' (off + i) = mbyte user s (src + i);
  wr_end : if decide (mem_ok user s src k) then lim = off + t /\ (t = k \/ free_blocks sb (ts_cur ts') = [])
           else lim = stop_end off k t /\ t < k;
  wr_block : t = 0 \/ t = k \/ (off + t) mod BSZ = 0;
  wr_room j : room (6 * nblk off k + j) ts -> room j ts'
}.

Lemma off_div off i m : 0 <= off -> off mod BSZ + m <= BSZ -> off <= i < off + m -> i / BSZ = off / BSZ.
Proof.
  intros Ho Hm Hi. replace i with (off + (i - off)) by lia. apply chunk_div; lia.
Qed.

Lemma off_eq off : off = off / BSZ * BSZ + off mod BSZ.
Proof. rewrite Z.mul_comm. by apply Z.div_mod. Qed.

Lemma stop_end_0 off k : stop_end off k 0 = off + Z.min k (BSZ - off mod BSZ).
Proof. unfold stop_end. rewrite Z.add_0_r. pose proof (off_eq off). lia. Qed.

Lemma stop_end_shift off k m t : stop_end (off + m) (k - m) t = stop_end off k (m + t).
Proof. unfold stop_end. f_equal; [lia|]. do 3 f_equal. lia. Qed.

(** Nothing is stored: the end is reached, or the disk is full. *)
Lemma written_stop user s ts d src off k ts' d' : 0 <= k -> fmap_ok sb ts -> inode_ok sb (ts_cur ts) d -> grows sb ts d ts' d' ->
  (k = 0 \/ free_blocks sb (ts_cur ts') = []) -> (forall j, room (6 * nblk off k + j) ts -> room j ts') ->
  written user s ts d src off k (if decide (mem_ok user s src k) then off else stop_end off k 0) 0 ts' d'.
Proof.
  intros Hk Hf Ho G Hfull Hroom. split; try done.
  - by apply grows_extends.
  - case_decide; [lia|]. rewrite stop_end_0. pose proof (Z.mod_pos_bound off BSZ ltac:(done)). lia.
  - intros i Hi. lia.
  - intros i Hi Hb _. by apply (grows_fbyte sb).
  - intros i Hi. lia.
  - case_decide as Hm; [split; [lia|naive_solver]|]. split; [done|]. destruct (decide (k = 0)) as [->|]; [|lia].
    destruct Hm. intros i Hi. lia.
  - by left.
Qed.

(** The bytes after [bmap] and the store into the block it gives. *)
Lemma chunk_fbyte ts d ts1 d1 off l i : fmap_ok sb ts -> inode_ok sb (ts_cur ts) d -> grows sb ts d ts1 d1 ->
  0 <= off < MAXFILE * BSZ -> off mod BSZ + Z.of_nat (length l) <= BSZ -> blk (ts_cur ts1) d1 (off / BSZ) <> 0 ->
  0 <= i < MAXFILE * BSZ -> (blk (ts_cur ts) d (i / BSZ) <> 0 \/ off <= i < off + Z.of_nat (length l)) ->
  fbyte (ts_cur (overwrite (blk (ts_cur ts1) d1 (off / BSZ)) (Z.to_nat (off mod BSZ)) l ts1)) d1 i =
  if decide (off <= i < off + Z.of_nat (length l)) then l !!! Z.to_nat (i - off) else fbyte (ts_cur ts) d i.
Proof.
  intros Hf Ho G Hoff Hl Hb Hi Hor. pose proof (Z.mod_pos_bound off BSZ ltac:(done)) as Hm.
  assert (0 <= off / BSZ < MAXFILE) as Hbn.
  { split; [apply Z.div_pos; unfold BSZ; lia|apply Z.div_lt_upper_bound; unfold BSZ in *; lia]. }
  rewrite (overwrite_fbyte sb ts1 d1 (off / BSZ)); [|apply G|apply G|done|done|unfold BSIZE, BSZ in *; lia|done].
  rewrite Z2Nat.id by lia. rewrite <- off_eq. case_decide; [done|].
  apply (grows_fbyte sb); [done|done|done|done|naive_solver].
Qed.

(** A whole chunk is stored, then [t] of the [k - m] bytes behind it. *)
Lemma written_chunk user s ts d src off k m ts1 d1 l lim t ts' d' : 0 <= off -> off + k <= MAXFILE * BSZ ->
  fmap_ok sb ts -> inode_ok sb (ts_cur ts) d -> stepped sb ts d 5 (blk (ts_cur ts1) d1 (off / BSZ)) d1 ts1 ->
  blk (ts_cur ts1) d1 (off / BSZ) <> 0 -> 0 < k -> m = Z.min k (BSZ - off mod BSZ) -> mem_ok user s src m ->
  l = ((fun i => mbyte user s (src + i)) <$> zseq 0 (Z.to_nat m)) ->
  written user s (overwrite (blk (ts_cur ts1) d1 (off / BSZ)) (Z.to_nat (off mod BSZ)) l ts1) d1 (src + m) (off + m) (k - m) lim t ts' d' ->
  written user s ts d src off k lim (m + t) ts' d'.
Proof.
  intros Ho Hmax Hf Hio [G _ Hroom] Hb Hk Em Hok El W. pose proof (Z.mod_pos_bound off BSZ ltac:(done)) as Hm.
  set (b := blk (ts_cur ts1) d1 (off / BSZ)) in *. set (ts2 := overwrite b (Z.to_nat (off mod BSZ)) l ts1) in *.
  assert (0 < m /\ m <= k /\ off mod BSZ + m <= BSZ) as (Hm0 & Hm1 & Hm2) by lia.
  assert (Z.of_nat (length l) = m) as Hll by (rewrite El, length_fmap, zseq_length; lia).
  assert (0 <= off / BSZ < MAXFILE) as Hbn.
  { split; [apply Z.div_pos; unfold BSZ; lia|apply Z.div_lt_upper_bound; unfold BSZ in *; lia]. }
  assert (byte_list l) as Hlb by (rewrite El; apply Forall_fmap, Forall_forall; intros i _; apply mbyte_range).
  assert (extends sb ts1 d1 ts2 d1) as Ex by (apply extends_overwrite; [apply G|apply G|done|done|unfold BSIZE, BSZ in *; lia|done]).
  assert (forall i, 0 <= i < MAXFILE * BSZ -> (blk (ts_cur ts) d (i / BSZ) <> 0 \/ off <= i < off + m) ->
    fbyte (ts_cur ts2) d1 i = if decide (off <= i < off + m) then l !!! Z.to_nat (i - off) else fbyte (ts_cur ts) d i) as Hfb.
  { intros i Hi Hor. rewrite <- Hll in *. by apply chunk_fbyte; [..|lia| | | |]. }
  assert (forall bn, 0 <= bn < MAXFILE -> blk (ts_cur ts1) d1 bn <> 0 -> blk (ts_cur ts2) d1 bn <> 0) as Hmap.
  { intros bn Hn Hx. unfold blk in *. rewrite (ex_slot _ _ _ _ _ Ex _ (slot_of_lt bn Hn) Hx). exact Hx. }
  assert (forall i, off <= i < off + m -> blk (ts_cur ts2) d1 (i / BSZ) <> 0) as Hmap2.
  { intros i Hi. rewrite (off_div off i m Ho Hm2 Hi). by apply Hmap. }
  pose proof (wr_range _ _ _ _ _ _ _ _ _ _ _ W) as Ht. pose proof (wr_lim _ _ _ _ _ _ _ _ _ _ _ W) as Hlm.
  assert (forall i, 0 <= i < MAXFILE * BSZ -> 0 <= i / BSZ < MAXFILE) as Hdv.
  { intros i Hi. split; [apply Z.div_pos; unfold BSZ; lia|apply Z.div_lt_upper_bound; unfold BSZ in *; lia]. }
  split.
  - eapply extends_trans; [apply grows_extends, G|]. eapply extends_trans; [exact Ex|apply W].
  - lia.
  - lia.
  - intros i Hi. destruct (Z.lt_ge_cases i (off + m)).
    + unfold blk. rewrite (ex_slot _ _ _ _ _ (wr_ext _ _ _ _ _ _ _ _ _ _ _ W)); [apply Hmap2; lia| |apply Hmap2; lia].
      apply slot_of_lt, Hdv. lia.
    + apply (wr_mapped _ _ _ _ _ _ _ _ _ _ _ W). lia.
  - intros i Hi Hbi Hout. rewrite (wr_same _ _ _ _ _ _ _ _ _ _ _ W i Hi); [|apply Hmap; [by apply Hdv|]|lia].
    + rewrite Hfb by auto. rewrite decide_False; [done|]. lia.
    + unfold blk in *. by rewrite (gr_slot _ _ _ _ _ G _ (slot_of_lt _ (Hdv i Hi)) Hbi).
  - intros i Hi. destruct (Z.lt_ge_cases i m).
    + rewrite (wr_same _ _ _ _ _ _ _ _ _ _ _ W (off + i)); [|lia|apply Hmap2; lia|lia].
      rewrite Hfb by lia. rewrite decide_True by lia. rewrite El. apply list_lookup_total_correct.
      rewrite list_lookup_fmap, zseq_lookup by lia. cbn. do 2 f_equal. lia.
    + replace (off + i) with (off + m + (i - m)) by lia. rewrite (wr_bytes _ _ _ _ _ _ _ _ _ _ _ W) by lia. f_equal. lia.
  - pose proof (wr_end _ _ _ _ _ _ _ _ _ _ _ W) as He. destruct (decide (mem_ok user s src k)) as [Hall|Hall].
    + rewrite decide_True in He. 2: { replace k with (m + (k - m)) in Hall by lia. by apply mem_ok_split in Hall as [_ ?]; [|lia|lia]. }
      destruct He as [-> [He|He]]; (split; [lia|]); [left; lia|by right].
    + rewrite decide_False in He; [rewrite stop_end_shift in He; lia|]. intros Hx. apply Hall. replace k with (m + (k - m)) by lia. apply mem_ok_split; [lia|lia|done].
  - right. destruct (wr_block _ _ _ _ _ _ _ _ _ _ _ W) as [->|[->|Ew]]; [|left; lia|right; by rewrite Z.add_assoc].
    rewrite Z.add_0_r. destruct (Z.eq_dec m k) as [|Hne]; [by left|right]. rewrite (off_eq off).
    replace (off / BSZ * BSZ + off mod BSZ + m) with (0 + (off / BSZ + 1) * BSZ) by lia. by apply Z_mod_plus_full.
  - intros j Hj. apply (wr_room _ _ _ _ _ _ _ _ _ _ _ W). apply room_update, Hroom.
    destruct (Z.eq_dec m k) as [E|].
    + apply (room_le _ _ _ Hj). pose proof (nblk_pos off k Ho Hk). unfold nblk at 1. rewrite (proj2 (Z.leb_le (k - m) 0)) by lia. lia.
    + rewrite (nblk_step off k m) in Hj by (done || lia). apply (room_le _ _ _ Hj). lia.
Qed.

(** A chunk whose bytes cannot all be read: some of it may be stored. *)
Lemma written_fail user s ts d src off k m ts1 d1 l : 0 <= off -> off + k <= MAXFILE * BSZ ->
  fmap_ok sb ts -> inode_ok sb (ts_cur ts) d -> stepped sb ts d 5 (blk (ts_cur ts1) d1 (off / BSZ)) d1 ts1 ->
  blk (ts_cur ts1) d1 (off / BSZ) <> 0 -> 0 < k -> m = Z.min k (BSZ - off mod BSZ) -> ~ mem_ok user s src m ->
  (length l <= Z.to_nat m)%nat -> byte_list l ->
  written user s ts d src off k (stop_end off k 0) 0 (overwrite (blk (ts_cur ts1) d1 (off / BSZ)) (Z.to_nat (off mod BSZ)) l ts1) d1.
Proof.
  intros Ho Hmax Hf Hio [G _ Hroom] Hb Hk Em Hno Hll Hlb. pose proof (Z.mod_pos_bound off BSZ ltac:(done)) as Hm.
  assert (0 <= off / BSZ < MAXFILE) as Hbn.
  { split; [apply Z.div_pos; unfold BSZ; lia|apply Z.div_lt_upper_bound; unfold BSZ in *; lia]. }
  pose proof (stop_end_0 off k) as Hse. split; try lia.
  - eapply extends_trans; [apply grows_extends, G|]. apply extends_overwrite; [apply G|apply G|done|done|unfold BSIZE, BSZ in *; lia|done].
  - intros i Hi Hbi Hout. rewrite (chunk_fbyte ts d); try done; try lia. by rewrite decide_False by lia.
  - rewrite decide_False; [lia|]. intros Hall. apply Hno. replace k with (m + (k - m)) in Hall by lia.
    by apply mem_ok_split in Hall as [? _]; [|lia|lia].
  - intros j Hj. apply room_update, Hroom. apply (room_le _ _ _ Hj). pose proof (nblk_pos off k Ho Hk). lia.
Qed.

Lemma written_state user s s' ts d src off k lim t ts' d' : (forall a, mbyte user s' a = mbyte user s a) ->
  (forall a, mok user s' a = mok user s a) ->
  written user s' ts d src off k lim t ts' d' -> written user s ts d src off k lim t ts' d'.
Proof.
  intros Hb Hm [W1 W2 W3 W4 W5 W6 W7 W8 W9]. split; try done.
  - intros i Hi. rewrite W6 by done. apply Hb.
  - assert (mem_ok user s' src k <-> mem_ok user s src k) as Hiff.
    { split; intros Ha i Hi; specialize (Ha i Hi); congruence. }
    destruct (decide (mem_ok user s src k)); [rewrite decide_True in W7 by tauto|rewrite decide_False in W7 by tauto]; done.
Qed.

Lemma writei_loop_ok ip user fuel : forall s ts d src off n tot, file_at sb ip d ts s -> 0 <= tot <= n -> 0 <= off ->
  off + (n - tot) <= MAXFILE * BSZ -> 0 <= src -> src + (n - tot) < 2 ^ 64 -> n - tot < Z.of_nat fuel ->
  room (6 * nblk off (n - tot)) ts ->
  exists t lim d' x c ts', writei_loop fuel ip user src off n tot s = Ok (tot + t, off + t) (chg ip d' x c s) /\
    t_st x ts' /\ written user s ts d src off (n - tot) lim t ts' d'.
Proof.
  induction fuel as [|fuel IH]; intros s ts d src off n tot F Ht Ho Hmax Hs Hs' Hfu Hroom; [lia|]. cbn [writei_loop].
  pose proof F as [Es Hst Hf Hh He Hio].
  destruct (Z.ltb_spec tot n) as [Hlt|Hge]; cbn [negb].
  2: { assert (n = tot) as -> by lia. rewrite Z.sub_diag in *. eexists 0, _, d, (fs_st s), (fs_con s), ts.
       rewrite !Z.add_0_r, (chg_self ip d) by done. split; [by destruct s|]. split; [done|].
       apply written_stop; [lia|done|done|by apply grows_refl|by left|]. intros j Hj. apply (room_le _ _ _ Hj). lia. }
  assert (0 <= off / BSZ < MAXFILE) as Hbn.
  { split; [apply Z.div_pos; unfold BSZ; lia|apply Z.div_lt_upper_bound; unfold BSZ in *; lia]. }
  pose proof (nblk_pos off (n - tot) Ho ltac:(lia)) as Hnb.
  destruct (bmap_ok sb s ts ip d (off / BSZ) Es Hst Hf Hh He Hio Hbn) as (r & d1 & x1 & c1 & ts1 & E1 & Hx1 & Hsp & Hr & _).
  { right. apply (room_le _ _ _ Hroom). lia. }
  mrun E1. pose proof (sp_grows _ _ _ _ _ _ _ Hsp) as G. destruct (Z.eqb_spec r 0) as [->|Hr0].
  { eexists 0, _, d1, x1, c1, ts1. rewrite !Z.add_0_r. split; [done|]. split; [done|].
    apply written_stop; [lia|done|done|done|right; by apply Hsp|]. intros j Hj. apply Hsp. apply (room_le _ _ _ Hj). lia. }
  specialize (Hr Hr0). subst r. set (s1 := chg ip d1 x1 c1 s) in *. mstep.
  assert (file_at sb ip d1 ts1 s1) as F1.
  { apply (file_chg ip d ts s); [done|done|apply G|apply G|apply G]. }
  rewrite (en_dev _ _ _ (fa_entry _ _ _ _ _ F1)). pose proof (Z.mod_pos_bound off BSZ ltac:(done)) as Hm.
  set (m := Z.min (n - tot) (BSZ - off mod BSZ)).
  assert (forall a, mbyte user s1 a = mbyte user s a) as Hmb by done. assert (forall a, mok user s1 a = mok user s a) as Hmo by done.
  destruct (write_chunk_ok ip d1 ts1 s1 user src off m (off / BSZ) F1 Hbn Hr0) as
    (r & l & h & x & y1 & y2 & y3 & E2 & E3 & E4 & E5 & E6 & E7 & Hy & Hlb & Hll & Hrl); [|lia|lia|lia|].
  { apply Hsp. apply (room_le _ _ _ Hroom). lia. }
  mrun E2. mrun E3. mrun E4. cbn [fst snd]. mrun E5. destruct (decide (mem_ok user s1 src m)) as [Hok|Hno].
  - destruct Hrl as [-> El]. change (0 =? -1) with false. cbv iota. mrun E6. mrun E7.
    rewrite (u64_small (src + m)) by lia. rewrite (u32_small (off + m)) by (unfold MAXFILE, BSZ in *; lia).
    assert (file_at sb ip d1 (overwrite (blk (ts_cur ts1) d1 (off / BSZ)) (Z.to_nat (off mod BSZ)) l ts1) (with_st y3 s1)) as F3.
    { assert (extends sb ts1 d1 (overwrite (blk (ts_cur ts1) d1 (off / BSZ)) (Z.to_nat (off mod BSZ)) l ts1) d1) as Ex.
      { apply extends_overwrite; [apply G|apply G|done|done|unfold BSIZE, BSZ in *; lia|done]. }
      pose proof (file_chg ip d1 ts1 s1 d1 _ y3 (fs_con s1) F1 Hy (ex_fmap _ _ _ _ _ Ex) eq_refl (ex_ok _ _ _ _ _ Ex)) as F3.
      by rewrite (chg_self ip d1 y3 (fs_con s1) s1 (fa_entry _ _ _ _ _ F1)) in F3. }
    destruct (IH (with_st y3 s1) _ d1 (src + m) (off + m) n (tot + m) F3) as (t & lim & d' & z & c & ts' & E & Hz & W); try lia.
    { apply room_update, Hsp. apply (room_le _ _ _ Hroom). destruct (Z.eq_dec m (n - tot)) as [Em|].
      - unfold nblk at 1. rewrite (proj2 (Z.leb_le _ 0)) by lia. lia.
      - rewrite (nblk_step off (n - tot) m) by (done || lia). replace (n - (tot + m)) with (n - tot - m) by lia. lia. }
    exists (m + t), lim, d', z, c, ts'. split; [|split; [done|]].
    + rewrite !Z.add_assoc. etransitivity; [exact E|]. f_equal. unfold s1. exact (chg_chg ip d1 x1 c1 d' z c s).
    + apply (written_chunk user s ts d src off (n - tot) m ts1 d1 l lim t); try done; try lia.
      apply (written_state user s (with_st y3 s1)); [done|done|]. by replace (n - tot - m) with (n - (tot + m)) by lia.
  - subst r. change (-1 =? -1) with true. cbv iota. mrun E6. mrun E7. eexists 0, _, d1, y3, c1, _. rewrite !Z.add_0_r.
    split; [done|]. split; [exact Hy|]. by apply (written_fail user s ts d src off (n - tot) m ts1 d1 l); try done; lia.
Qed.
End Write.
