(* ===== verification/XIupd.v ===== *)
(** reference/xv6-riscv/kernel/fs.c: inodes on disk.

    [struct dinode] as 64 bytes, what an inode block holds after [iupdate] and
    [ialloc], and what an update of an inode block leaves alone. *)

From Stdlib Require Import ZArith Lia.
From stdpp Require Import base strings numbers gmap list.
From S2P Require Import Prelude Mem Vm XBytes XStore XBio XLog XTxn XTx XFs XBlocks XInode XRead XWrite.

(** * The bytes of an inode *)

(** The fields fit their types. *)
Record dinode_ok (d : dinode) : Prop := {
  dk_type : - 2 ^ 15 <= di_type d < 2 ^ 15;
  dk_major : - 2 ^ 15 <= di_major d < 2 ^ 15;
  dk_minor : - 2 ^ 15 <= di_minor d < 2 ^ 15;
  dk_nlink : - 2 ^ 15 <= di_nlink d < 2 ^ 15;
  dk_size : 0 <= di_size d < 2 ^ 32;
  dk_len : length (di_addrs d) = 13%nat;
  dk_addrs : Forall (fun a => 0 <= a < 2 ^ 32) (di_addrs d)
}.

Lemma s16_le v : - 2 ^ 15 <= v < 2 ^ 15 -> s16 (of_le (le_bytes 2 v)) = v.
Proof.
  intros Hv. rewrite of_le_le_bytes. change (256 ^ Z.of_nat 2) with (2 ^ 16). unfold s16. rewrite Z.mod_mod by done.
  cbv zeta. destruct (Z.lt_ge_cases v 0).
  - rewrite <- (Z_mod_plus_full v 1), Z.mod_small by lia. destruct (Z.ltb_spec (v + 1 * 2 ^ 16) (2 ^ 15)); lia.
  - rewrite Z.mod_small by lia. destruct (Z.ltb_spec v (2 ^ 15)); lia.
Qed.

Lemma u32_le v : 0 <= v < 2 ^ 32 -> of_le (le_bytes 4 v) = v.
Proof. intros Hv. rewrite of_le_le_bytes. by apply Z.mod_small. Qed.

Lemma dinode_bytes_length d : length (di_addrs d) = 13%nat -> length (dinode_bytes d) = 64%nat.
Proof.
  intros Hl. unfold dinode_bytes. rewrite !length_app, !le_bytes_length.
  assert (forall l, length (concat (le_bytes 4 <$> l)) = 4 * length l)%nat as ->; [|lia].
  induction l as [|x l IH]; [done|]. cbn [fmap list_fmap concat]. rewrite length_app, le_bytes_length.
  cbn [length]. change (list_fmap Z (list Z) (le_bytes 4) l) with (le_bytes 4 <$> l). lia.
Qed.

Lemma byte_dinode d : byte_list (dinode_bytes d).
Proof.
  unfold dinode_bytes. repeat (apply Forall_app; split; [apply byte_le_bytes|]).
  apply Forall_concat, Forall_fmap, Forall_forall. intros a _. apply byte_le_bytes.
Qed.

Lemma slice_splice_in off o n l b : (off + length l <= length b)%nat -> (o + n <= length l)%nat ->
  slice (off + o) n (splice off l b) = slice o n l.
Proof.
  intros Hl Hn. apply list_eq. intros i. destruct (decide (i < n)%nat).
  - rewrite !lookup_slice, lookup_splice by done. rewrite decide_True by lia. f_equal. lia.
  - rewrite !lookup_ge_None_2; [done| |]; unfold slice; rewrite length_take; lia.
Qed.

(** The fields of the 64 bytes. *)
Lemma dinode_fields d : length (di_addrs d) = 13%nat ->
  slice 0 2 (dinode_bytes d) = le_bytes 2 (di_type d) /\ slice 2 2 (dinode_bytes d) = le_bytes 2 (di_major d) /\
  slice 4 2 (dinode_bytes d) = le_bytes 2 (di_minor d) /\ slice 6 2 (dinode_bytes d) = le_bytes 2 (di_nlink d) /\
  slice 8 4 (dinode_bytes d) = le_bytes 4 (di_size d) /\
  (fun i => slice (12 + 4 * i) 4 (dinode_bytes d)) <$> seq 0 13 = le_bytes 4 <$> di_addrs d.
Proof.
  intros Hl. destruct d as [t ma mi nl sz addrs]. cbn in Hl. unfold dinode_bytes. cbn [di_type di_major di_minor di_nlink di_size di_addrs].
  do 13 (destruct addrs as [|? addrs]; [done|]). destruct addrs; [|done]. split_and!; reflexivity.
Qed.

Lemma get_put_dinode k d b : dinode_ok d -> (64 * k + 64 <= length b)%nat -> get_dinode k (put_dinode k d b) = d.
Proof.
  intros [H1 H2 H3 H4 H5 H6 H7] Hk. pose proof (dinode_bytes_length d H6) as Hlen.
  destruct (dinode_fields d H6) as (F1 & F2 & F3 & F4 & F5 & F6).
  assert (forall o n, (o + n <= 64)%nat -> slice (64 * k + o) n (put_dinode k d b) = slice o n (dinode_bytes d)) as Hs.
  { intros o n Ho. apply slice_splice_in; rewrite Hlen; lia. }
  unfold get_dinode, gets16, getu32. replace (64 * k)%nat with (64 * k + 0)%nat at 1 by lia.
  rewrite !Hs by lia. rewrite F1, F2, F3, F4, F5, !s16_le, u32_le by done.
  assert ((fun i => of_le (slice (64 * k + 12 + 4 * i) 4 (put_dinode k d b))) <$> seq 0 (S NDIRECT) = di_addrs d) as ->.
  { transitivity (of_le <$> (le_bytes 4 <$> di_addrs d)).
    - rewrite <- F6, <- list_fmap_compose. apply list_fmap_ext. intros i x Hx. apply lookup_seq in Hx as [-> Hi].
      unfold compose. f_equal. rewrite <- Nat.add_assoc. apply Hs. unfold NDIRECT in Hi. lia.
    - rewrite <- list_fmap_compose. rewrite <- (list_fmap_id (di_addrs d)) at 2. apply list_fmap_ext.
      intros i a Ha. apply u32_le. by apply (Forall_lookup_1 _ _ _ _ H7 Ha). }
  by destruct d.
Qed.

Lemma get_put_dinode_ne k k' d b : length (di_addrs d) = 13%nat -> k <> k' -> (64 * k + 64 <= length b)%nat ->
  get_dinode k' (put_dinode k d b) = get_dinode k' b.
Proof.
  intros Hl Hne Hk. pose proof (dinode_bytes_length d Hl) as Hlen.
  assert (forall o n, (o + n <= 64)%nat -> slice (64 * k' + o) n (put_dinode k d b) = slice (64 * k' + o) n b) as Hs.
  { intros o n Ho. apply slice_splice_ne; rewrite Hlen; lia. }
  unfold get_dinode, gets16, getu32. replace (64 * k')%nat with (64 * k' + 0)%nat at 1 7 by lia. rewrite !Hs by lia.
  rewrite Nat.add_0_r. f_equal. apply list_fmap_ext. intros i x Hx. apply lookup_seq in Hx as [-> Hi]. cbn [Nat.add].
  f_equal. rewrite <- Nat.add_assoc. apply Hs. unfold NDIRECT in Hi. lia.
Qed.

Lemma put_dinode_length k d b : length (di_addrs d) = 13%nat -> (64 * k + 64 <= length b)%nat -> length (put_dinode k d b) = length b.
Proof. intros Hl Hk. apply length_splice. rewrite dinode_bytes_length by done. lia. Qed.

(** * Inode blocks *)

Definition idx (inum : Z) : nat := Z.to_nat (inum mod IPB).
(** Inode [inum] on disk. *)
Definition dinode_at (sb : superblock) (cur : Z -> block) (inum : Z) : dinode := get_dinode (idx inum) (cur (IBLOCK inum sb)).
Definition put_inode (sb : superblock) (inum : Z) (d : dinode) (ts : tstore) : tstore :=
  ts_update (IBLOCK inum sb) (put_dinode (idx inum) d (ts_cur ts (IBLOCK inum sb))) ts.

Lemma idx_lt inum : (idx inum < 16)%nat.
Proof. unfold idx. pose proof (Z.mod_pos_bound inum IPB ltac:(done)). unfold IPB in *. lia. Qed.

Lemma idx_block (k : nat) (b : list Z) : (k < 16)%nat -> length b = BSIZE -> (64 * k + 64 <= length b)%nat.
Proof. intros Hk ->. unfold BSIZE. lia. Qed.

Section Meta.
Context (sb : superblock).

Definition inum_ok (inum : Z) : Prop := 0 <= inum < sb_ninodes sb.

Lemma iblock_bounds inum : sb_ok sb -> inum_ok inum -> 0 <= IBLOCK inum sb < sb_bmapstart sb /\ IBLOCK inum sb < sb_size sb.
Proof.
  intros Hsb Hi. destruct (iblock_range sb Hsb inum) as [_ Hr]; [unfold inum_ok in Hi; lia|]. pose proof (size_pos sb Hsb).
  destruct Hsb. unfold LOGBLOCKS in *. lia.
Qed.

(** An update of a block before the free map changes no bit and no file. *)
Lemma used_meta n d ts b : sb_ok sb -> n < sb_bmapstart sb -> 0 <= b < sb_size sb ->
  used sb (ts_cur (ts_update n d ts)) b = used sb (ts_cur ts) b.
Proof. intros Hsb Hn Hb. apply used_other; [done|]. pose proof (bblock_range sb Hsb b Hb). lia. Qed.

Lemma slot_meta n d ts i k : sb_ok sb -> n < sb_bmapstart sb -> inode_ok sb (ts_cur ts) i ->
  slot (ts_cur (ts_update n d ts)) i k = slot (ts_cur ts) i k.
Proof.
  intros Hsb Hn Ho. unfold slot. destruct (k <? 13)%nat; [done|]. destruct (Z.eqb_spec (di_addrs i !!! NDIRECT) 0) as [|Hi]; [done|].
  destruct (io_data _ _ _ Ho NDIRECT ltac:(unfold NDIRECT, NSLOTS; lia) Hi) as [Hr _]. rewrite slot_ind in Hr.
  pose proof (size_pos sb Hsb). cbn. by rewrite decide_False by lia.
Qed.

Lemma inode_ok_meta n d ts i : sb_ok sb -> n < sb_bmapstart sb -> inode_ok sb (ts_cur ts) i -> inode_ok sb (ts_cur (ts_update n d ts)) i.
Proof.
  intros Hsb Hn Ho. pose proof (size_pos sb Hsb). split; try apply Ho.
  - intros k Hk. rewrite slot_meta by done. intros Hs. destruct (io_data _ _ _ Ho k Hk Hs) as [Hr Hu]. split; [done|].
    rewrite used_meta; [done|done|done|lia].
  - intros k k' Hk Hk'. rewrite !slot_meta by done. by apply Ho.
  - intros bn H1 H2. unfold blk. rewrite slot_meta by done. by apply Ho.
Qed.

Lemma owned_meta n d ts i b : sb_ok sb -> n < sb_bmapstart sb -> inode_ok sb (ts_cur ts) i ->
  owned (ts_cur (ts_update n d ts)) i b <-> owned (ts_cur ts) i b.
Proof. intros Hsb Hn Ho. unfold owned. by setoid_rewrite (fun k => slot_meta n d ts i k Hsb Hn Ho). Qed.

Lemma fbyte_meta n d ts i j : sb_ok sb -> n < sb_bmapstart sb -> inode_ok sb (ts_cur ts) i -> 0 <= j < MAXFILE * BSZ ->
  blk (ts_cur ts) i (j / BSZ) <> 0 -> fbyte (ts_cur (ts_update n d ts)) i j = fbyte (ts_cur ts) i j.
Proof.
  intros Hsb Hn Ho Hj Hb. unfold fbyte. assert (0 <= j / BSZ < MAXFILE) as Hbn.
  { split; [apply Z.div_pos; unfold BSZ; lia|apply Z.div_lt_upper_bound; unfold BSZ in *; lia]. }
  unfold blk in *. rewrite slot_meta by done. destruct (io_data _ _ _ Ho _ (slot_of_lt _ Hbn) Hb) as [Hr _].
  pose proof (size_pos sb Hsb). cbn. by rewrite decide_False by lia.
Qed.

Lemma fmap_meta n d ts : fmap_ok sb ts -> 0 <= n < sb_bmapstart sb -> length d = BSIZE -> byte_list d -> fmap_ok sb (ts_update n d ts).
Proof.
  intros [H1 H2 H3 H4] Hn Hl Hd. pose proof (size_pos sb H1). split; [done|done|by apply blocks_update|].
  intros b Hb. rewrite used_meta; [by apply H4|done|lia|lia].
Qed.

Lemma put_block inum d ts : fmap_ok sb ts -> inum_ok inum -> length (di_addrs d) = 13%nat ->
  length (put_dinode (idx inum) d (ts_cur ts (IBLOCK inum sb))) = BSIZE /\
  byte_list (put_dinode (idx inum) d (ts_cur ts (IBLOCK inum sb))).
Proof.
  intros Hf Hi Hd. pose proof (iblock_bounds inum (fm_sb _ _ Hf) Hi). destruct (fm_blocks _ _ Hf (IBLOCK inum sb) ltac:(lia)) as [Hl Hb].
  pose proof (idx_block _ _ (idx_lt inum) Hl). split; [by rewrite put_dinode_length|]. apply byte_splice; [done|apply byte_dinode].
Qed.

Lemma fmap_put inum d ts : fmap_ok sb ts -> inum_ok inum -> length (di_addrs d) = 13%nat -> fmap_ok sb (put_inode sb inum d ts).
Proof.
  intros Hf Hi Hd. pose proof (iblock_bounds inum (fm_sb _ _ Hf) Hi). destruct (put_block inum d ts Hf Hi Hd).
  apply fmap_meta; [done|lia|done|done].
Qed.

Lemma iblock_inj i j : sb_ok sb -> inum_ok i -> inum_ok j -> IBLOCK i sb = IBLOCK j sb -> idx i = idx j -> i = j.
Proof.
  intros Hsb Hi Hj. unfold inum_ok in *. destruct (iblock_range sb Hsb i ltac:(lia)) as [-> _]. destruct (iblock_range sb Hsb j ltac:(lia)) as [-> _].
  unfold idx. intros E1 E2. pose proof (Z.mod_pos_bound i IPB ltac:(done)). pose proof (Z.mod_pos_bound j IPB ltac:(done)).
  rewrite (Z.div_mod i IPB), (Z.div_mod j IPB) by done. lia.
Qed.

(** The inodes of the disk after one is written. *)
Lemma dinode_at_put inum d ts j : fmap_ok sb ts -> inum_ok inum -> inum_ok j -> dinode_ok d ->
  dinode_at sb (ts_cur (put_inode sb inum d ts)) j = if decide (j = inum) then d else dinode_at sb (ts_cur ts) j.
Proof.
  intros Hf Hi Hj Hd. pose proof (iblock_bounds inum (fm_sb _ _ Hf) Hi). destruct (fm_blocks _ _ Hf (IBLOCK inum sb) ltac:(lia)) as [Hl Hb].
  pose proof (idx_block _ _ (idx_lt inum) Hl) as Hk. unfold dinode_at, put_inode. cbn [ts_update ts_cur].
  destruct (decide (j = inum)) as [->|Hne].
  - rewrite decide_True by done. by apply get_put_dinode.
  - case_decide as E; [|done]. rewrite get_put_dinode_ne; [by rewrite E|apply Hd| |done].
    intros Ei. apply Hne. apply iblock_inj; [apply Hf|done|done|done|done].
Qed.
End Meta.

Section Iupdate.
Context {St : Type} `{TxStore St} {U : Type} `{CopyMem U}.
Implicit Types s : fsys St U.
Context (sb : superblock).

Lemma iblock_lock inum ts : fmap_ok sb ts -> ts_held ts = ∅ -> inum_ok sb inum -> can_lock (IBLOCK inum sb) ts.
Proof.
  intros Hf Hh Hi. split_and!.
  - by rewrite Hh, lookup_empty.
  - rewrite (fm_start _ _ Hf). apply iblock_fs; [apply Hf|]. unfold inum_ok in Hi. lia.
  - rewrite Hh, map_size_empty. lia.
Qed.

Lemma iupdate_run s ts ip d inum k : fs_sb s = sb -> t_st (fs_st s) ts -> fmap_ok sb ts -> ts_held ts = ∅ ->
  entry_is ip d s -> i_inum (the_inode ip s) = inum -> inum_ok sb inum -> room (S k) ts ->
  exists x, iupdate ip s = Ok tt (with_st x s) /\ t_st x (put_inode sb inum d ts).
Proof.
  intros Es Hs Hf Hh He Ei Hi Hr. pose proof (iblock_lock inum ts Hf Hh Hi) as Hl. unfold iupdate. mstep.
  rewrite (en_dev _ _ _ He), (en_d _ _ _ He), Ei, Es. destruct (bread_run s ts _ Hs Hl) as (h & x & E & Hx). mrun E.
  mrun (bdata_run (with_st x s) _ _ h Hx (lookup_insert_eq _ _ _)).
  destruct (bput_run (with_st x s) _ (IBLOCK inum sb) h (put_dinode (idx inum) d (ts_cur ts (IBLOCK inum sb))) k Hx) as (x' & E' & Hx');
    [apply lookup_insert_eq|done|].
  exists x'. split; [exact E'|]. by rewrite ts_put in Hx' by apply Hl.
Qed.
End Iupdate.
