(* ===== verification/XFile.v ===== *)
(** reference/xv6-riscv/kernel/fs.c: files as byte sequences.

    [readi] and [writei] against the content of the file, the effect on the
    inode of the disk and on other files. *)

From Stdlib Require Import ZArith Lia.
From stdpp Require Import base strings numbers gmap list.
From S2P Require Import Prelude Mem Vm XBytes XStore XBio XLog XTxn XTx XFs XBlocks XInode XRead XWrite XIupd.

(** The fields that allocation does not change fit their types. *)
Definition meta_fits (d : dinode) : Prop :=
  - 2 ^ 15 <= di_type d < 2 ^ 15 /\ - 2 ^ 15 <= di_major d < 2 ^ 15 /\
  - 2 ^ 15 <= di_minor d < 2 ^ 15 /\ - 2 ^ 15 <= di_nlink d < 2 ^ 15.

Lemma inode_fits sb cur d : sb_ok sb -> inode_ok sb cur d -> meta_fits d -> dinode_ok d.
Proof.
  intros Hsb Ho (H1 & H2 & H3 & H4). pose proof (io_size _ _ _ Ho) as Hsz. pose proof (io_len _ _ _ Ho) as Hl.
  split; try done; [unfold MAXFILE, BSZ in Hsz; lia|]. apply Forall_lookup_2. intros k a Ha.
  assert (k < 13)%nat as Hk by (rewrite <- Hl; by eapply lookup_lt_Some).
  assert (slot cur d k = a) as Es.
  { unfold slot. rewrite (proj2 (Nat.ltb_lt k 13)) by done. by apply list_lookup_total_correct. }
  destruct (decide (a = 0)); [lia|]. destruct (io_data _ _ _ Ho k) as [Hr _]; [unfold NSLOTS; lia|congruence|].
  rewrite Es in Hr. pose proof (size_pos sb Hsb). pose proof (sb_max _ Hsb). lia.
Qed.

Section Other.
Context (sb : superblock).

(** Two inodes that share no block. *)
Definition apart (cur : Z -> block) (d d0 : dinode) : Prop := forall b, owned cur d0 b -> ~ owned cur d b.

(** What a write to one file leaves of another one. *)
Lemma extends_other ts d ts' d' d0 : extends sb ts d ts' d' -> fmap_ok sb ts -> inode_ok sb (ts_cur ts) d0 -> apart (ts_cur ts) d d0 ->
  inode_ok sb (ts_cur ts') d0 /\ (forall k, slot (ts_cur ts') d0 k = slot (ts_cur ts) d0 k) /\
  fcontent (ts_cur ts') d0 = fcontent (ts_cur ts) d0.
Proof.
  intros Ex Hf Ho Hap. pose proof (size_pos sb (fm_sb _ _ Hf)) as Hsz.
  assert (forall k, (k < NSLOTS)%nat -> slot (ts_cur ts) d0 k <> 0 -> ts_cur ts' (slot (ts_cur ts) d0 k) = ts_cur ts (slot (ts_cur ts) d0 k)) as Hc.
  { intros k Hk Hs. destruct (io_data _ _ _ Ho k Hk Hs) as [Hr Hu]. apply (ex_cur _ _ _ _ _ Ex); [lia|done|unfold map_block; lia|].
    apply Hap. split; [done|]. by exists k. }
  assert (forall k, slot (ts_cur ts') d0 k = slot (ts_cur ts) d0 k) as Hs.
  { intros k. unfold slot. destruct (k <? 13)%nat; [done|]. destruct (Z.eqb_spec (di_addrs d0 !!! NDIRECT) 0) as [|Hi]; [done|].
    pose proof (Hc NDIRECT ltac:(unfold NDIRECT, NSLOTS; lia)) as Hc'. rewrite slot_ind in Hc'. by rewrite Hc'. }
  split; [|split; [done|]].
  - split; try apply Ho.
    + intros k Hk. rewrite Hs. intros Hk0. destruct (io_data _ _ _ Ho k Hk Hk0) as [Hr Hu]. split; [done|].
      apply (ex_used _ _ _ _ _ Ex); [lia|by left].
    + intros k k' Hk Hk'. rewrite !Hs. by apply Ho.
    + intros bn H1 H2. unfold blk. rewrite Hs. by apply Ho.
  - apply list_fmap_ext. intros i j Hj. apply list_elem_of_lookup_2, elem_of_zseq in Hj. pose proof (io_size _ _ _ Ho) as Hmx.
    rewrite Z2Nat.id in Hj by lia. unfold fbyte, blk. rewrite Hs. f_equal. apply Hc.
    + apply slot_of_lt. split; [apply Z.div_pos; unfold BSZ; lia|apply Z.div_lt_upper_bound; unfold BSZ in *; lia].
    + apply (io_full _ _ _ Ho); [apply Z.div_pos; unfold BSZ; lia|].
      pose proof (Z.div_mod j BSZ ltac:(done)). pose proof (Z.mod_pos_bound j BSZ ltac:(done)). lia.
Qed.

(** A file below its size is mapped. *)
Lemma full_at cur d i : inode_ok sb cur d -> 0 <= i < di_size d -> 0 <= i < MAXFILE * BSZ /\ blk cur d (i / BSZ) <> 0.
Proof.
  intros Ho Hi. pose proof (io_size _ _ _ Ho) as Hmx. split; [lia|]. apply (io_full _ _ _ Ho); [apply Z.div_pos; unfold BSZ; lia|].
  pose proof (Z.div_mod i BSZ ltac:(done)). pose proof (Z.mod_pos_bound i BSZ ltac:(done)). lia.
Qed.

(** The file may be as large as the blocks it has. *)
Lemma inode_ok_size cur d n : inode_ok sb cur d -> 0 <= n <= MAXFILE * BSZ ->
  (forall bn, 0 <= bn -> bn * BSZ < n -> blk cur d bn <> 0) -> inode_ok sb cur (di_set_size n d).
Proof. intros Ho Hn Hb. by split; try apply Ho. Qed.

Lemma fcontent_length cur d : length (fcontent cur d) = Z.to_nat (di_size d).
Proof. unfold fcontent. by rewrite length_fmap, zseq_length. Qed.

Lemma fcontent_lookup cur d i : (i < Z.to_nat (di_size d))%nat -> fcontent cur d !! i = Some (fbyte cur d (Z.of_nat i)).
Proof. intros Hi. unfold fcontent. by rewrite list_lookup_fmap, zseq_lookup. Qed.

(** A list of bytes over part of the content, or past its end. *)
Lemma fcontent_write cur d cur' d' off l : 0 <= off <= di_size d ->
  di_size d' = Z.max (di_size d) (off + Z.of_nat (length l)) ->
  (forall i, 0 <= i < Z.of_nat (length l) -> fbyte cur' d' (off + i) = l !!! Z.to_nat i) ->
  (forall i, 0 <= i < di_size d -> ~ (off <= i < off + Z.of_nat (length l)) -> fbyte cur' d' i = fbyte cur d i) ->
  fcontent cur' d' = take (Z.to_nat off) (fcontent cur d) ++ l ++ drop (Z.to_nat off + length l) (fcontent cur d).
Proof.
  intros Hoff Hsz Hin Hout. apply list_eq. intros i. pose proof (fcontent_length cur d) as Hl.
  destruct (decide (i < Z.to_nat (di_size d'))%nat) as [Hi|Hi].
  - rewrite fcontent_lookup by done. destruct (decide (i < Z.to_nat off)%nat).
    + rewrite lookup_app_l by (rewrite length_take; lia). rewrite lookup_take_lt, fcontent_lookup by lia. f_equal. apply Hout; lia.
    + rewrite lookup_app_r by (rewrite length_take; lia). rewrite length_take, Hl. replace (Z.to_nat off `min` Z.to_nat (di_size d))%nat with (Z.to_nat off) by lia.
      destruct (decide (i - Z.to_nat off < length l)%nat).
      * rewrite lookup_app_l by done. replace (Z.of_nat i) with (off + (Z.of_nat i - off)) by lia. rewrite Hin by lia.
        rewrite (list_lookup_lookup_total_lt l) by done. do 2 f_equal. lia.
      * rewrite lookup_app_r by lia. rewrite lookup_drop, fcontent_lookup by lia.
        replace (Z.of_nat (Z.to_nat off + length l + (i - Z.to_nat off - length l))) with (Z.of_nat i) by lia. f_equal. apply Hout; lia.
  - rewrite !lookup_ge_None_2; [done| |].
    + rewrite !length_app, length_take, length_drop, Hl. lia.
    + rewrite fcontent_length. lia.
Qed.

(** The same when the bytes behind the list, up to [e], are not known. *)
Lemma fcontent_write_part cur d cur' d' off l e : 0 <= off <= di_size d -> off + Z.of_nat (length l) <= e ->
  di_size d' = Z.max (di_size d) (off + Z.of_nat (length l)) ->
  (forall i, 0 <= i < Z.of_nat (length l) -> fbyte cur' d' (off + i) = l !!! Z.to_nat i) ->
  (forall i, 0 <= i < di_size d -> ~ (off <= i < e) -> fbyte cur' d' i = fbyte cur d i) ->
  take (Z.to_nat off + length l) (fcontent cur' d') = take (Z.to_nat off) (fcontent cur d) ++ l /\
  drop (Z.to_nat e) (fcontent cur' d') = drop (Z.to_nat e) (fcontent cur d).
Proof.
  intros Hoff He Hsz Hin Hout. pose proof (fcontent_length cur d) as Hl. pose proof (fcontent_length cur' d') as Hl'.
  split; apply list_eq; intros i.
  - destruct (decide (i < Z.to_nat off + length l)%nat) as [Hi|Hi].
    + rewrite lookup_take_lt, fcontent_lookup by lia. destruct (decide (i < Z.to_nat off)%nat).
      * rewrite lookup_app_l by (rewrite length_take; lia). rewrite lookup_take_lt, fcontent_lookup by lia. f_equal. apply Hout; lia.
      * rewrite lookup_app_r by (rewrite length_take; lia). rewrite length_take, Hl.
        replace (Z.of_nat i) with (off + (Z.of_nat i - off)) by lia. rewrite Hin by lia.
        rewrite (list_lookup_lookup_total_lt l) by lia. do 2 f_equal. lia.
    + rewrite !lookup_ge_None_2; [done| |]; [rewrite length_app|]; rewrite length_take; lia.
  - rewrite !lookup_drop. destruct (decide (Z.to_nat e + i < Z.to_nat (di_size d))%nat).
    + rewrite !fcontent_lookup by lia. f_equal. apply Hout; lia.
    + rewrite !lookup_ge_None_2; [done|lia|lia].
Qed.
End Other.

Section File.
Context {St : Type} `{TxStore St} {U : Type} `{CopyMem U}.
Implicit Types s : fsys St U.
Context (sb : superblock).

(** A file of the table with its place on disk. *)
Record ifile (ip : nat) (inum : Z) (d : dinode) (ts : tstore) (s : fsys St U) : Prop := {
  if_file : file_at sb ip d ts s;
  if_inum : i_inum (the_inode ip s) = inum;
  if_ok : inum_ok sb inum;
  if_fits : meta_fits d
}.

(** The bytes of memory that a write takes. *)
Definition mbytes (user : bool) (s : fsys St U) (a n : Z) : list Z := (fun i => mbyte user s (a + i)) <$> zseq 0 (Z.to_nat n).

(** The size after [t] bytes were stored at [off]. *)
Definition resize (off t : Z) (d : dinode) : dinode := if di_size d <? off + t then di_set_size (off + t) d else d.

Lemma resize_size off t d : di_size (resize off t d) = Z.max (di_size d) (off + t).
Proof. unfold resize. destruct (Z.ltb_spec (di_size d) (off + t)); cbn; lia. Qed.

Lemma resize_slot cur off t d k : slot cur (resize off t d) k = slot cur d k.
Proof. unfold resize. by destruct (_ <? _). Qed.

Lemma resize_fbyte cur off t d i : fbyte cur (resize off t d) i = fbyte cur d i.
Proof. unfold resize. by destruct (_ <? _). Qed.

Lemma resize_fits off t d : meta_fits d -> meta_fits (resize off t d).
Proof. unfold resize. by destruct (_ <? _). Qed.

Lemma resize_owned cur off t d b : owned cur (resize off t d) b <-> owned cur d b.
Proof. unfold resize. by destruct (_ <? _). Qed.

Lemma resize_ok user s ts d src off n lim t ts1 d1 : 0 <= off <= di_size d -> off + n <= MAXFILE * BSZ ->
  written sb user s ts d src off n lim t ts1 d1 -> inode_ok sb (ts_cur ts1) (resize off t d1).
Proof.
  intros Hoff Hmax W. pose proof (ex_ok _ _ _ _ _ (wr_ext _ _ _ _ _ _ _ _ _ _ _ _ W)) as Ho.
  destruct (ex_meta _ _ _ _ _ (wr_ext _ _ _ _ _ _ _ _ _ _ _ _ W)) as (_ & _ & _ & _ & Esz).
  pose proof (wr_range _ _ _ _ _ _ _ _ _ _ _ _ W) as Ht. unfold resize. destruct (Z.ltb_spec (di_size d1) (off + t)); [|done].
  apply inode_ok_size; [done|lia|]. intros bn Hbn Hlt. destruct (Z.lt_ge_cases (bn * BSZ) (di_size d1)); [by apply Ho|].
  replace bn with (bn * BSZ / BSZ) by (by rewrite Z.div_mul). apply (wr_mapped _ _ _ _ _ _ _ _ _ _ _ _ W). lia.
Qed.

Lemma writei_ok user s ts ip inum d src off n : ifile ip inum d ts s -> 0 <= off <= di_size d -> 0 <= n ->
  off + n <= MAXFILE * BSZ -> 0 <= src -> src + n < 2 ^ 64 -> room (6 * nblk off n + 1) ts ->
  exists t lim d1 x c ts1, let d' := resize off t d1 in
    writei ip user src off n s = Ok t (chg ip d' x c s) /\ t_st x (put_inode sb inum d' ts1) /\
    written sb user s ts d src off n lim t ts1 d1.
Proof.
  intros [F Ei Hi Hm] Hoff Hn Hmax Hs Hs' Hroom. pose proof (io_size _ _ _ (fa_ok _ _ _ _ _ F)) as Hsz.
  unfold writei. mstep. rewrite (en_d _ _ _ (fa_entry _ _ _ _ _ F)). unfold MAXFILE, BSZ in Hmax, Hsz.
  rewrite (u32_small (off + n)) by lia.
  rewrite (proj2 (Z.ltb_ge (di_size d) off)), (proj2 (Z.ltb_ge (off + n) off)) by lia. cbn [orb].
  rewrite (proj2 (Z.ltb_ge (MAXFILE * BSZ) (off + n))) by (unfold MAXFILE, BSZ; lia).
  destruct (writei_loop_ok sb ip user (S (Z.to_nat n)) s ts d src off n 0 F) as (t & lim & d1 & x & c & ts1 & E & Hx & W);
    rewrite ?Z.sub_0_r; try lia; [unfold MAXFILE, BSZ; lia|by apply (room_le _ _ _ Hroom); lia|].
  rewrite Z.sub_0_r in W. mrun E. cbn [fst snd]. mstep. set (s1 := chg ip d1 x c s) in *.
  assert (entry_is ip d1 s1) as He1 by (apply (entry_chg ip d); apply F). rewrite (en_d _ _ _ He1).
  pose proof (wr_ext _ _ _ _ _ _ _ _ _ _ _ _ W) as Ex. pose proof (wr_range _ _ _ _ _ _ _ _ _ _ _ _ W) as Ht.
  assert ((if di_size d1 <? off + t then dupd ip (di_set_size (off + t)) else mret tt) s1 = Ok tt (chg ip (resize off t d1) x c s)) as Ed.
  { unfold resize. destruct (di_size d1 <? off + t); [|done]. rewrite (dupd_chg ip d1) by done. unfold s1. by rewrite chg_chg. }
  mrun Ed. set (d' := resize off t d1) in *. set (s2 := chg ip d' x c s) in *.
  destruct (iupdate_run sb s2 ts1 ip d' inum 0) as (x' & E' & Hx').
  - apply F.
  - done.
  - apply Ex.
  - destruct (ex_same _ _ _ _ _ Ex) as [-> _]. apply F.
  - apply (entry_chg ip d). apply F.
  - unfold s2. rewrite chg_inode by apply F. done.
  - done.
  - by apply W.
  - mrun E'. exists t, lim, d1, x', c, ts1. cbv zeta. rewrite (s32_small (0 + t)) by lia. split; [done|]. split; [done|done].
Qed.

Lemma extends_iblock ts d ts1 d1 j : extends sb ts d ts1 d1 -> fmap_ok sb ts -> inode_ok sb (ts_cur ts) d -> inum_ok sb j ->
  ts_cur ts1 (IBLOCK j sb) = ts_cur ts (IBLOCK j sb).
Proof.
  intros Ex Hf Ho Hj. pose proof (iblock_bounds sb j (fm_sb _ _ Hf) Hj). pose proof (size_pos sb (fm_sb _ _ Hf)).
  apply (ex_cur _ _ _ _ _ Ex); [lia|apply Hf; lia|unfold map_block; lia|]. intros Hw. apply (io_owned sb _ _ _ Ho) in Hw. lia.
Qed.

Lemma same_meta_fits d d' : same_meta d d' -> meta_fits d -> meta_fits d'.
Proof. unfold meta_fits. intros (-> & -> & -> & -> & _). done. Qed.

(** The file after [writei]. *)
Lemma ifile_written user s ts ip inum d src off n lim t ts1 d1 x c : ifile ip inum d ts s -> 0 <= off <= di_size d ->
  off + n <= MAXFILE * BSZ -> written sb user s ts d src off n lim t ts1 d1 ->
  t_st x (put_inode sb inum (resize off t d1) ts1) ->
  ifile ip inum (resize off t d1) (put_inode sb inum (resize off t d1) ts1) (chg ip (resize off t d1) x c s).
Proof.
  intros [F Ei Hi Hm] Hoff Hmax W Hx. pose proof (wr_ext _ _ _ _ _ _ _ _ _ _ _ _ W) as Ex.
  pose proof (resize_ok _ _ _ _ _ _ _ _ _ _ _ Hoff Hmax W) as Ho. pose proof (ex_fmap _ _ _ _ _ Ex) as Hf.
  pose proof (iblock_bounds sb inum (fm_sb _ _ Hf) Hi) as Hib. split.
  - apply (file_chg sb ip d ts); [done|done| | |].
    + apply fmap_put; [done|done|apply Ho].
    + apply Ex.
    + apply inode_ok_meta; [apply Hf|lia|done].
  - rewrite chg_inode by apply F. done.
  - done.
  - apply resize_fits. eapply same_meta_fits; [apply Ex|done].
Qed.

Lemma mbytes_length user s a n : length (mbytes user s a n) = Z.to_nat n.
Proof. unfold mbytes. by rewrite length_fmap, zseq_length. Qed.

Lemma mbytes_lookup user s a n i : 0 <= i < n -> mbytes user s a n !!! Z.to_nat i = mbyte user s (a + i).
Proof.
  intros Hi. apply list_lookup_total_correct. unfold mbytes. rewrite list_lookup_fmap, zseq_lookup by lia. cbn. do 2 f_equal. lia.
Qed.

(** The new size does not change the bytes. *)
Lemma resized_fbyte user s ts ip inum d src off n lim t ts1 d1 i : ifile ip inum d ts s -> 0 <= off <= di_size d ->
  off + n <= MAXFILE * BSZ -> written sb user s ts d src off n lim t ts1 d1 -> 0 <= i < Z.max (di_size d) (off + t) ->
  fbyte (ts_cur (put_inode sb inum (resize off t d1) ts1)) (resize off t d1) i = fbyte (ts_cur ts1) d1 i.
Proof.
  intros [F Ei Hi Hm] Hoff Hmax W Hr. pose proof (wr_ext _ _ _ _ _ _ _ _ _ _ _ _ W) as Ex.
  pose proof (resize_ok _ _ _ _ _ _ _ _ _ _ _ Hoff Hmax W) as Ho. pose proof (ex_fmap _ _ _ _ _ Ex) as Hf.
  pose proof (iblock_bounds sb inum (fm_sb _ _ Hf) Hi) as Hib. destruct (ex_meta _ _ _ _ _ Ex) as (_ & _ & _ & _ & Esz).
  destruct (full_at sb (ts_cur ts1) (resize off t d1) i Ho) as [H1 H2]; [rewrite resize_size; lia|].
  unfold put_inode. rewrite (fbyte_meta sb); [apply resize_fbyte|apply Hf|lia|done|done|done].
Qed.

(** The content of the file after [writei] of bytes that can be read. *)
Lemma content_written user s ts ip inum d src off n lim t ts1 d1 : ifile ip inum d ts s -> 0 <= off <= di_size d ->
  off + n <= MAXFILE * BSZ -> written sb user s ts d src off n lim t ts1 d1 -> mem_ok user s src n ->
  fcontent (ts_cur (put_inode sb inum (resize off t d1) ts1)) (resize off t d1) =
  take (Z.to_nat off) (fcontent (ts_cur ts) d) ++ mbytes user s src t ++ drop (Z.to_nat (off + t)) (fcontent (ts_cur ts) d).
Proof.
  intros Hif Hoff Hmax W Hok. pose proof (fa_ok _ _ _ _ _ (if_file _ _ _ _ _ Hif)) as Ho0.
  pose proof (wr_range _ _ _ _ _ _ _ _ _ _ _ _ W) as Ht.
  destruct (ex_meta _ _ _ _ _ (wr_ext _ _ _ _ _ _ _ _ _ _ _ _ W)) as (_ & _ & _ & _ & Esz).
  pose proof (wr_end _ _ _ _ _ _ _ _ _ _ _ _ W) as He. rewrite decide_True in He by done. destruct He as [-> _].
  replace (Z.to_nat (off + t)) with (Z.to_nat off + length (mbytes user s src t))%nat by (rewrite mbytes_length; lia).
  apply fcontent_write.
  - done.
  - rewrite resize_size, mbytes_length. lia.
  - intros i Hr. rewrite mbytes_length in Hr. rewrite (resized_fbyte _ _ _ _ _ _ _ _ _ _ _ _ _ _ Hif Hoff Hmax W) by lia.
    rewrite mbytes_lookup by lia. apply W. lia.
  - intros i Hr Hout. rewrite mbytes_length in Hout. rewrite (resized_fbyte _ _ _ _ _ _ _ _ _ _ _ _ _ _ Hif Hoff Hmax W) by lia.
    destruct (full_at sb (ts_cur ts) d i Ho0 Hr) as [H1 H2]. apply W; [done|done|lia].
Qed.

(** Its content in any case: what lies behind the bytes stored, up to the end
    of the block in which the write stopped, is not determined. *)
Lemma content_part user s ts ip inum d src off n lim t ts1 d1 : ifile ip inum d ts s -> 0 <= off <= di_size d ->
  off + n <= MAXFILE * BSZ -> written sb user s ts d src off n lim t ts1 d1 ->
  let c' := fcontent (ts_cur (put_inode sb inum (resize off t d1) ts1)) (resize off t d1) in
  take (Z.to_nat (off + t)) c' = take (Z.to_nat off) (fcontent (ts_cur ts) d) ++ mbytes user s src t /\
  drop (Z.to_nat lim) c' = drop (Z.to_nat lim) (fcontent (ts_cur ts) d).
Proof.
  intros Hif Hoff Hmax W. pose proof (fa_ok _ _ _ _ _ (if_file _ _ _ _ _ Hif)) as Ho0.
  pose proof (wr_range _ _ _ _ _ _ _ _ _ _ _ _ W) as Ht. pose proof (wr_lim _ _ _ _ _ _ _ _ _ _ _ _ W) as Hlm.
  destruct (ex_meta _ _ _ _ _ (wr_ext _ _ _ _ _ _ _ _ _ _ _ _ W)) as (_ & _ & _ & _ & Esz).
  replace (Z.to_nat (off + t)) with (Z.to_nat off + length (mbytes user s src t))%nat by (rewrite mbytes_length; lia).
  apply fcontent_write_part.
  - done.
  - rewrite mbytes_length. lia.
  - rewrite resize_size, mbytes_length. lia.
  - intros i Hr. rewrite mbytes_length in Hr. rewrite (resized_fbyte _ _ _ _ _ _ _ _ _ _ _ _ _ _ Hif Hoff Hmax W) by lia.
    rewrite mbytes_lookup by lia. apply W. lia.
  - intros i Hr Hout. rewrite (resized_fbyte _ _ _ _ _ _ _ _ _ _ _ _ _ _ Hif Hoff Hmax W) by lia.
    destruct (full_at sb (ts_cur ts) d i Ho0 Hr) as [H1 H2]. apply W; [done|done|lia].
Qed.

Lemma other_written user s ts ip inum d src off n lim t ts1 d1 d0 : ifile ip inum d ts s -> 0 <= off <= di_size d ->
  off + n <= MAXFILE * BSZ -> written sb user s ts d src off n lim t ts1 d1 -> inode_ok sb (ts_cur ts) d0 -> apart (ts_cur ts) d d0 ->
  let d' := resize off t d1 in let ts' := put_inode sb inum d' ts1 in
  inode_ok sb (ts_cur ts') d0 /\ apart (ts_cur ts') d' d0 /\ fcontent (ts_cur ts') d0 = fcontent (ts_cur ts) d0.
Proof.
  intros [F Ei Hi Hm] Hoff Hmax W Ho0 Hap d' ts'. pose proof (wr_ext _ _ _ _ _ _ _ _ _ _ _ _ W) as Ex. pose proof (ex_fmap _ _ _ _ _ Ex) as Hf.
  destruct (extends_other sb ts d ts1 d1 d0 Ex (fa_fmap _ _ _ _ _ F) Ho0 Hap) as (Ho1 & Hs & Hc).
  pose proof (iblock_bounds sb inum (fm_sb _ _ Hf) Hi) as Hib. pose proof (size_pos sb (fm_sb _ _ Hf)).
  split; [apply inode_ok_meta; [apply Hf|lia|done]|]. split.
  - intros b Hb0 Hb. assert (owned (ts_cur ts) d0 b) as Hb1.
    { apply (owned_meta sb) in Hb0; [|apply Hf|lia|done]. unfold owned in *. by setoid_rewrite Hs in Hb0. }
    apply (owned_meta sb) in Hb; [|apply Hf|lia|by eapply resize_ok].
    unfold d' in Hb. rewrite resize_owned in Hb.
    destruct (io_owned sb _ _ _ Ho0 Hb1) as [Hr Hu]. destruct (ex_new _ _ _ _ _ Ex b ltac:(lia) Hb) as [Hw|Hw]; [by apply (Hap b)|congruence].
  - rewrite <- Hc. apply list_fmap_ext. intros i j Hj. apply list_elem_of_lookup_2, elem_of_zseq in Hj.
    pose proof (io_size _ _ _ Ho1). destruct (full_at sb (ts_cur ts1) d0 j Ho1); [lia|]. apply (fbyte_meta sb); [apply Hf|lia|done|done|done].
Qed.

(** What [writei] has done when it has stored [t] of [n] bytes. *)
Record wrote (user : bool) (s : fsys St U) (ts : tstore) (inum : Z) (d : dinode) (src off n t : Z) (d' : dinode) (ts' : tstore) : Prop := {
  wt_range : 0 <= t <= n;
  wt_block : t = 0 \/ t = n \/ (off + t) mod BSZ = 0;
  wt_size : di_size d' = Z.max (di_size d) (off + t);
  wt_meta : di_type d' = di_type d /\ di_major d' = di_major d /\ di_minor d' = di_minor d /\ di_nlink d' = di_nlink d;
  wt_disk : dinode_at sb (ts_cur ts') inum = d';
  wt_content : if decide (mem_ok user s src n) then
       fcontent (ts_cur ts') d' =
         take (Z.to_nat off) (fcontent (ts_cur ts) d) ++ mbytes user s src t ++ drop (Z.to_nat (off + t)) (fcontent (ts_cur ts) d) /\
       (t = n \/ free_blocks sb (ts_cur ts') = [])
     else t < n;
  wt_part : ~ mem_ok user s src n ->
       take (Z.to_nat (off + t)) (fcontent (ts_cur ts') d') = take (Z.to_nat off) (fcontent (ts_cur ts) d) ++ mbytes user s src t /\
       drop (Z.to_nat (stop_end off n t)) (fcontent (ts_cur ts') d') = drop (Z.to_nat (stop_end off n t)) (fcontent (ts_cur ts) d);
  wt_inodes j : inum_ok sb j -> j <> inum -> dinode_at sb (ts_cur ts') j = dinode_at sb (ts_cur ts) j;
  wt_files d0 : inode_ok sb (ts_cur ts) d0 -> apart (ts_cur ts) d d0 ->
       inode_ok sb (ts_cur ts') d0 /\ apart (ts_cur ts') d' d0 /\ fcontent (ts_cur ts') d0 = fcontent (ts_cur ts) d0 /\
       forall b, owned (ts_cur ts') d0 b <-> owned (ts_cur ts) d0 b;
  wt_tx : ts_tx ts' = ts_tx ts /\ ts_base ts' = ts_base ts /\ ts_start ts' = ts_start ts;
  wt_room j : room (6 * nblk off n + S j) ts -> room j ts'
}.

Lemma writei_run user s ts ip inum d src off n :
  ifile ip inum d ts s -> 0 <= off <= di_size d -> 0 <= n -> off + n <= MAXFILE * BSZ -> 0 <= src -> src + n < 2 ^ 64 ->
  room (6 * nblk off n + 1) ts ->
  exists t d' x c ts', writei ip user src off n s = Ok t (chg ip d' x c s) /\ ifile ip inum d' ts' (chg ip d' x c s) /\
    wrote user s ts inum d src off n t d' ts'.
Proof.
  intros Hif Hoff Hn Hmax Hs Hs' Hroom. destruct (writei_ok user s ts ip inum d src off n Hif Hoff Hn Hmax Hs Hs' Hroom)
    as (t & lim & d1 & x & c & ts1 & E & Hx & W). pose proof Hif as [F Ei Hi Hm].
  pose proof (ifile_written _ _ _ _ _ _ _ _ _ _ _ _ _ x c Hif Hoff Hmax W Hx) as Hif'.
  pose proof (wr_ext _ _ _ _ _ _ _ _ _ _ _ _ W) as Ex. pose proof (ex_fmap _ _ _ _ _ Ex) as Hf. pose proof (fm_sb _ _ Hf) as Hsb.
  destruct (ex_meta _ _ _ _ _ Ex) as (M1 & M2 & M3 & M4 & Esz).
  assert (dinode_ok (resize off t d1)) as Hd.
  { eapply inode_fits; [exact Hsb|apply (fa_ok _ _ _ _ _ (if_file _ _ _ _ _ Hif'))|apply Hif']. }
  exists t, (resize off t d1), x, c, (put_inode sb inum (resize off t d1) ts1). split; [exact E|]. split; [exact Hif'|]. split.
  - apply W.
  - apply W.
  - rewrite resize_size. lia.
  - unfold resize. by destruct (_ <? _).
  - rewrite (dinode_at_put sb) by done. by rewrite decide_True.
  - pose proof (wr_end _ _ _ _ _ _ _ _ _ _ _ _ W) as He. case_decide as Hok; [|lia]. split; [by eapply content_written|].
    destruct He as [_ [He|He]]; [by left|right]. rewrite <- He. pose proof (size_pos sb Hsb). apply filter_ext_in. intros b Hb%elem_of_zseq.
    unfold put_inode. rewrite (used_meta sb); [done|done|pose proof (iblock_bounds sb inum Hsb Hi); lia|lia].
  - intros Hno. pose proof (wr_end _ _ _ _ _ _ _ _ _ _ _ _ W) as He. rewrite decide_False in He by done. destruct He as [<- _].
    exact (content_part _ _ _ _ _ _ _ _ _ _ _ _ _ Hif Hoff Hmax W).
  - intros j Hj Hne. rewrite (dinode_at_put sb) by done. rewrite decide_False by done. unfold dinode_at.
    by rewrite (extends_iblock ts d ts1 d1 j Ex (fa_fmap _ _ _ _ _ F) (fa_ok _ _ _ _ _ F) Hj).
  - intros d0 H1 H2. destruct (other_written _ _ _ _ _ _ _ _ _ _ _ _ _ d0 Hif Hoff Hmax W H1 H2) as (G1 & G2 & G3). split_and!; [done|done|done|].
    destruct (extends_other sb ts d ts1 d1 d0 Ex (fa_fmap _ _ _ _ _ F) H1 H2) as (Ho1 & Hsl & _). intros b. unfold put_inode.
    rewrite (owned_meta sb); [|done|pose proof (iblock_bounds sb inum Hsb Hi); lia|done]. unfold owned. by setoid_rewrite Hsl.
  - destruct (ex_same _ _ _ _ _ Ex) as (_ & H1 & H2). cbn [put_inode ts_update ts_tx ts_base ts_start]. split_and!; [done|done|]. by rewrite (fm_start _ _ Hf), (fm_start _ _ (fa_fmap _ _ _ _ _ F)).
  - intros j Hj. apply room_update. apply (wr_room _ _ _ _ _ _ _ _ _ _ _ _ W). done.
Qed.

(** C6: [writei] stores bytes of memory in a file.  The bytes it reports are
    those of memory, at their offset; the file grows when they reach past its
    end; all other inodes on disk and the content of every file that shares no
    block with it stay as they are; the inode on disk is the one in memory.
    When all the memory can be read, every other byte of the file stays as it
    is, and fewer than [n] bytes are stored only on a full disk.  When part of
    it cannot be read, fewer are stored, and only the rest of the block in
    which it stopped, up to [stop_end], may have changed as well: the copy that
    failed may have overwritten some of it, and the block is logged. *)
Theorem writei_correct user s ts ip inum d src off n :
  ifile ip inum d ts s -> 0 <= off <= di_size d -> 0 <= n -> off + n <= MAXFILE * BSZ -> 0 <= src -> src + n < 2 ^ 64 ->
  room (6 * nblk off n + 1) ts ->
  exists t d' x c ts', writei ip user src off n s = Ok t (chg ip d' x c s) /\ ifile ip inum d' ts' (chg ip d' x c s) /\
    0 <= t <= n /\ di_size d' = Z.max (di_size d) (off + t) /\ dinode_at sb (ts_cur ts') inum = d' /\
    (if decide (mem_ok user s src n) then
       fcontent (ts_cur ts') d' =
         take (Z.to_nat off) (fcontent (ts_cur ts) d) ++ mbytes user s src t ++ drop (Z.to_nat (off + t)) (fcontent (ts_cur ts) d) /\
       (t = n \/ free_blocks sb (ts_cur ts') = [])
     else t < n /\
       take (Z.to_nat (off + t)) (fcontent (ts_cur ts') d') = take (Z.to_nat off) (fcontent (ts_cur ts) d) ++ mbytes user s src t /\
       drop (Z.to_nat (stop_end off n t)) (fcontent (ts_cur ts') d') = drop (Z.to_nat (stop_end off n t)) (fcontent (ts_cur ts) d)) /\
    (forall j, inum_ok sb j -> j <> inum -> dinode_at sb (ts_cur ts') j = dinode_at sb (ts_cur ts) j) /\
    (forall d0, inode_ok sb (ts_cur ts) d0 -> apart (ts_cur ts) d d0 ->
       inode_ok sb (ts_cur ts') d0 /\ apart (ts_cur ts') d' d0 /\ fcontent (ts_cur ts') d0 = fcontent (ts_cur ts) d0).
Proof.
  intros Hif Hoff Hn Hmax Hs Hs' Hroom. destruct (writei_run user s ts ip inum d src off n Hif Hoff Hn Hmax Hs Hs' Hroom)
    as (t & d' & x & c & ts' & E & Hif' & []). exists t, d', x, c, ts'. split_and!; try done; try lia.
  { case_decide as Hok; [done|]. split; [done|]. by apply wt_part0. }
  intros d0 H1 H2. by destruct (wt_files0 d0 H1 H2) as (? & ? & ? & _).
Qed.

Lemma fbytes_slice cur d off n : 0 <= off -> 0 <= n -> off + n <= di_size d ->
  fbytes cur d off (Z.to_nat n) = slice (Z.to_nat off) (Z.to_nat n) (fcontent cur d).
Proof.
  intros Ho Hn Hsz. apply list_eq. intros i. destruct (decide (i < Z.to_nat n)%nat).
  - rewrite lookup_slice, fcontent_lookup by lia. unfold fbytes. rewrite list_lookup_fmap, zseq_lookup by done. cbn. do 2 f_equal. lia.
  - rewrite !lookup_ge_None_2; [done| |].
    + unfold slice. rewrite length_take. lia.
    + unfold fbytes. rewrite length_fmap, zseq_length. lia.
Qed.

(** [readi] copies bytes of a file to memory: those from the offset on, as
    many as asked for and as the file has, to the destination and nowhere
    else; 0 bytes from behind the end of the file; -1 when part of the
    destination cannot be written.  No block of the disk changes. *)
Theorem readi_correct user s ts ip d dst off n :
  file_at sb ip d ts s -> 0 <= off -> 0 <= n -> off + n < 2 ^ 32 -> 0 <= dst -> dst + n < 2 ^ 64 ->
  let n' := Z.min n (di_size d - off) in
  if decide (di_size d < off) then readi ip user dst off n s = Ok 0 s else
  exists u m x, file_at sb ip d ts (out u m x s) /\
    if decide (mem_ok user s dst n') then
      readi ip user dst off n s = Ok n' (out u m x s) /\
      copied user dst (slice (Z.to_nat off) (Z.to_nat n') (fcontent (ts_cur ts) d)) s (out u m x s)
    else readi ip user dst off n s = Ok (-1) (out u m x s).
Proof.
  intros F Hoff Hn Hmax Hd Hd' n'. case_decide as Hsz.
  - unfold readi. mstep. rewrite (en_d _ _ _ (fa_entry _ _ _ _ _ F)). by rewrite (proj2 (Z.ltb_lt (di_size d) off)) by lia.
  - destruct (readi_ok sb ip d ts user s dst off n F ltac:(lia) Hn Hmax Hd Hd') as (u & m & x & Hx & Hr).
    assert (readable d off n = n') as En.
    { unfold readable, n'. destruct (Z.leb_spec (off + n) (di_size d)); lia. }
    rewrite En in Hr. exists u, m, x. split; [by apply file_out|].
    rewrite <- fbytes_slice by (unfold n'; lia). exact Hr.
Qed.

Lemma slice_written (c l : list Z) off t n : length l = t -> (off <= length c)%nat -> n = t ->
  slice off n (take off c ++ l ++ drop (off + t) c) = l.
Proof.
  intros Hl Ho ->. unfold slice. rewrite drop_app_length' by (rewrite length_take; lia). by rewrite take_app_length'.
Qed.

(** C9: what [writei] has stored, [readi] gives back: after a write of [n]
    readable bytes that stored [t] of them, a read of [t] bytes at the same
    offset returns [t] and leaves the same bytes at its destination. *)
Theorem write_read_roundtrip user user' s ts ip inum d src dst off n :
  ifile ip inum d ts s -> 0 <= off <= di_size d -> 0 <= n -> off + n <= MAXFILE * BSZ -> 0 <= src -> src + n < 2 ^ 64 ->
  room (6 * nblk off n + 1) ts -> mem_ok user s src n -> 0 <= dst -> dst + n < 2 ^ 64 -> mem_ok user' s dst n ->
  exists t s1 s2, writei ip user src off n s = Ok t s1 /\ 0 <= t <= n /\ readi ip user' dst off t s1 = Ok t s2 /\
    (forall i, 0 <= i < t -> mbyte user' s2 (dst + i) = mbyte user s (src + i)) /\
    forall a, ~ (dst <= a < dst + t) -> mbyte user' s2 a = mbyte user' s a.
Proof.
  intros Hif Hoff Hn Hmax Hs Hs' Hroom Hok Hd Hd' Hok'.
  destruct (writei_ok user s ts ip inum d src off n Hif Hoff Hn Hmax Hs Hs' Hroom) as (t & lim & d1 & x & c & ts1 & E & Hx & W).
  pose proof (ifile_written _ _ _ _ _ _ _ _ _ _ _ _ _ x c Hif Hoff Hmax W Hx) as Hif'.
  pose proof (content_written _ _ _ _ _ _ _ _ _ _ _ _ _ Hif Hoff Hmax W Hok) as Hc.
  pose proof (wr_range _ _ _ _ _ _ _ _ _ _ _ _ W) as Ht. destruct (ex_meta _ _ _ _ _ (wr_ext _ _ _ _ _ _ _ _ _ _ _ _ W)) as (_ & _ & _ & _ & Esz).
  set (d' := resize off t d1) in *. assert (di_size d' = Z.max (di_size d) (off + t)) as Hsz by (unfold d'; rewrite resize_size; lia).
  set (s1 := chg ip d' x c s) in *. unfold MAXFILE, BSZ in Hmax.
  destruct (readi_ok sb ip d' _ user' s1 dst off t (if_file _ _ _ _ _ Hif') ltac:(lia) ltac:(lia) ltac:(lia) Hd ltac:(lia)) as (u & m & y & Hy & Hr).
  assert (readable d' off t = t) as En by (unfold readable; by rewrite (proj2 (Z.leb_le (off + t) (di_size d'))) by lia).
  rewrite En, decide_True in Hr by (intros i Hi; apply Hok'; lia). destruct Hr as [Er Hcp].
  rewrite fbytes_slice, Hc, Z2Nat.inj_add in Hcp by lia.
  rewrite slice_written in Hcp; [|by rewrite mbytes_length|rewrite fcontent_length; lia|done].
  exists t, s1, (out u m y s1). split; [exact E|]. split; [done|]. split; [exact Er|]. split.
  - intros i Hi. destruct Hcp as (_ & Hcp & _). rewrite Hcp, mbytes_length, decide_True by lia.
    replace (dst + i - dst) with i by lia. by apply mbytes_lookup.
  - intros a Ha. destruct Hcp as (_ & Hcp & _). rewrite Hcp, mbytes_length, decide_False by lia. by destruct user'.
Qed.
End File.

(** * Instances *)

(** An empty file, inode 2 of the small file system, in entry 0 of the table;
    user memory has three bytes at 100 and room for three at 200. *)
Definition empty_file : dinode := mkDi T_FILE 0 0 1 0 (replicate 13 0).
Definition small_mem : gmap Z Z := flat_put 100 [7; 8; 9] (flat_put 200 [0; 0; 0] ∅).
Definition small_file (st : logst bst) : fsys (logst bst) (gmap Z Z) :=
  mkFs small_sb (mkInode ROOTDEV 2 1 (mkSleep 1 1) 1 empty_file :: replicate 49 inhabitant) 1 0 small_mem ∅ [] st.

Lemma empty_slot cur k : slot cur empty_file k = 0.
Proof.
  unfold slot. destruct (Nat.ltb_spec k 13) as [Hk|]; [|done]. cbn [empty_file di_addrs].
  by apply list_lookup_total_correct, lookup_replicate_2.
Qed.

Lemma empty_ok sb cur : inode_ok sb cur empty_file.
Proof.
  split; [done| | |unfold MAXFILE, BSZ; cbn; lia|].
  - intros k _. by rewrite empty_slot.
  - intros k k' _ _. by rewrite empty_slot.
  - intros bn H1 H2. unfold BSZ in H2. cbn [empty_file di_size] in H2. lia.
Qed.

Lemma small_ifile st : t_st st (small_ts true) -> ifile small_sb 0 2 empty_file (small_ts true) (small_file st).
Proof.
  intros Hst. split; [|done|vm_compute; by split|vm_compute; by split_and!].
  split; [done|exact Hst|apply small_fmap|done| |apply empty_ok]. split; [cbn [small_file fs_itable length]; lia|done|done].
Qed.

Lemma small_mem_ok st a n : flat_range small_mem a (Z.to_nat n) = true -> mem_ok true (small_file st) a n.
Proof. intros Hr i Hi. apply (proj1 (flat_range_true _ _ _) Hr). lia. Qed.

Lemma writei_correct_witness : exists st t s', writei 0 true 100 0 3 (small_file st) = Ok t s' /\ t <= 3.
Proof.
  destruct small_start as [st Hst].
  destruct (writei_correct small_sb true (small_file st) (small_ts true) 0 2 empty_file 100 0 3 (small_ifile st Hst))
    as (t & d' & x & c & ts' & E & _ & Ht & _); try (unfold MAXFILE, BSZ; cbn; lia).
  - apply (room_le 20); [exact small_room|apply Nat.leb_le; reflexivity].
  - exists st, t, (chg 0 d' x c (small_file st)). split; [exact E|apply Ht].
Defined.

Lemma readi_correct_witness : exists st s', readi 0 true 200 0 3 (small_file st) = Ok 0 s'.
Proof.
  destruct small_start as [st Hst].
  pose proof (readi_correct small_sb true (small_file st) (small_ts true) 0 empty_file 200 0 3 (if_file _ _ _ _ _ _ (small_ifile st Hst))
    ltac:(lia) ltac:(lia) ltac:(lia) ltac:(lia) ltac:(lia)) as Hr. cbv zeta in Hr.
  rewrite decide_False in Hr by (cbn; lia). destruct Hr as (u & m & x & _ & Hr).
  rewrite decide_True in Hr by (intros i Hi; cbn in Hi; lia). destruct Hr as [Hr _]. by eexists st, _.
Defined.

Lemma write_read_roundtrip_witness : exists st t s1 s2,
  writei 0 true 100 0 3 (small_file st) = Ok t s1 /\ readi 0 true 200 0 t s1 = Ok t s2.
Proof.
  destruct small_start as [st Hst].
  destruct (write_read_roundtrip small_sb true true (small_file st) (small_ts true) 0 2 empty_file 100 200 0 3 (small_ifile st Hst))
    as (t & s1 & s2 & E1 & _ & E2 & _); try (unfold MAXFILE, BSZ; cbn; lia).
  - apply (room_le 20); [exact small_room|apply Nat.leb_le; reflexivity].
  - apply small_mem_ok. reflexivity.
  - apply small_mem_ok. reflexivity.
  - by exists st, t, s1, s2.
Defined.
