(* ===== verification/XTrunc.v ===== *)
(** reference/xv6-riscv/kernel/fs.c: itrunc and iput, a file is given up.

    [unmark_all] frees a list of blocks; the two loops of [itrunc] free the
    blocks of the direct and of the indirect pointers, so that exactly the
    blocks the inode owned become free.  All of them are logged in the blocks of
    the free map, which the transaction records once each. *)

From Stdlib Require Import ZArith Lia.
From stdpp Require Import base strings numbers gmap list.
From S2P Require Import Prelude Mem Vm XBytes XStore XBio XLog XTxn XTx XFs XBlocks XInode XRead XWrite XIupd XFile.

Section Free.
Context (sb : superblock).

Definition unmark_all (L : list Z) (ts : tstore) : tstore := foldl (fun ts c => unmark sb c ts) ts L.

(** Distinct data blocks in use. *)
Definition freeable (cur : Z -> block) (L : list Z) : Prop :=
  NoDup L /\ Forall (fun c => datastart sb <= c < sb_size sb /\ used sb cur c = true) L.

Lemma freeable_cons c L ts : fmap_ok sb ts -> freeable (ts_cur ts) (c :: L) ->
  (datastart sb <= c < sb_size sb /\ used sb (ts_cur ts) c = true) /\ fmap_ok sb (unmark sb c ts) /\
  freeable (ts_cur (unmark sb c ts)) L.
Proof.
  intros Hf [Hnd Hl]. apply NoDup_cons in Hnd as [Hni Hnd]. apply Forall_cons_1 in Hl as [Hc Hl].
  pose proof (size_pos sb (fm_sb _ _ Hf)). split; [done|]. split; [apply fmap_unmark; [apply Hf|done|apply Hc]|].
  split; [done|]. rewrite Forall_forall in Hl |- *. intros b Hb. destruct (Hl b Hb) as [Hr Hu]. split; [done|].
  rewrite used_unmark; [|apply Hf|apply Hf|lia|lia]. rewrite decide_False; [done|]. intros ->. done.
Qed.

Lemma unmark_all_ok L : forall ts, fmap_ok sb ts -> freeable (ts_cur ts) L ->
  fmap_ok sb (unmark_all L ts) /\
  (forall b, 0 <= b < sb_size sb -> used sb (ts_cur (unmark_all L ts)) b = if decide (b ∈ L) then false else used sb (ts_cur ts) b) /\
  (forall b, ~ map_block sb b -> ts_cur (unmark_all L ts) b = ts_cur ts b).
Proof.
  induction L as [|c L IH]; intros ts Hf Hl.
  - split; [done|]. split; [intros b _; by rewrite decide_False by apply not_elem_of_nil|done].
  - destruct (freeable_cons c L ts Hf Hl) as ([Hc Hu] & Hf1 & Hl1). destruct (IH _ Hf1 Hl1) as (H1 & H2 & H3).
    pose proof (size_pos sb (fm_sb _ _ Hf)). split; [exact H1|]. split; intros b Hb.
    + change (unmark_all (c :: L) ts) with (unmark_all L (unmark sb c ts)). rewrite H2 by done.
      rewrite used_unmark; [|apply Hf|apply Hf|lia|lia].
      destruct (decide (b ∈ L)); [by rewrite decide_True by set_solver|]. destruct (decide (b = c)); [by rewrite decide_True by set_solver|].
      by rewrite decide_False by set_solver.
    + change (unmark_all (c :: L) ts) with (unmark_all L (unmark sb c ts)). rewrite H3 by done. cbn. rewrite decide_False; [done|].
      intros ->. apply Hb. apply bblock_range; [apply Hf|lia].
Qed.

Lemma unmark_all_same L ts : ts_held (unmark_all L ts) = ts_held ts /\ ts_base (unmark_all L ts) = ts_base ts /\
  ts_tx (unmark_all L ts) = ts_tx ts /\ ts_start (unmark_all L ts) = ts_start ts.
Proof. revert ts. induction L as [|c L IH]; intros ts; [done|]. exact (IH (unmark sb c ts)). Qed.

Lemma unmark_all_app L L' ts : unmark_all (L ++ L') ts = unmark_all L' (unmark_all L ts).
Proof. unfold unmark_all. apply foldl_app. Qed.

(** The blocks of the free map. *)
Definition mapset : gset Z := list_to_set (zseq (sb_bmapstart sb) (Z.to_nat (sb_size sb / BPB + 1))).
(** Room for all of them and [k] more blocks in the transaction. *)
Definition map_room (k : nat) (ts : tstore) : Prop := ts_tx ts = true /\ (size (mapset ∪ ts_rec ts) + k <= TXMAX)%nat.

Lemma bblock_mapset c : sb_ok sb -> 0 <= c < sb_size sb -> BBLOCK c sb ∈ mapset.
Proof.
  intros Hsb Hc. unfold mapset. rewrite elem_of_list_to_set. unfold zseq. apply list_elem_of_fmap. exists (Z.to_nat (c / BPB)).
  rewrite (bblock_eq sb Hsb c Hc). pose proof (bpb_div sb c Hc). split; [lia|]. apply elem_of_seq. lia.
Qed.

Lemma map_room_log k c ts : sb_ok sb -> map_room k ts -> 0 <= c < sb_size sb -> can_log (BBLOCK c sb) ts.
Proof.
  intros Hsb [Ht Hs] Hc. split; [done|]. pose proof (bblock_mapset c Hsb Hc).
  pose proof (subseteq_size ({[BBLOCK c sb]} ∪ ts_rec ts) (mapset ∪ ts_rec ts) ltac:(set_solver)). lia.
Qed.

Lemma map_room_unmark k c ts : sb_ok sb -> map_room k ts -> 0 <= c < sb_size sb -> map_room k (unmark sb c ts).
Proof.
  intros Hsb [Ht Hs] Hc. split; [done|]. pose proof (bblock_mapset c Hsb Hc). unfold unmark. cbn [ts_update ts_rec].
  by replace (mapset ∪ ({[BBLOCK c sb]} ∪ ts_rec ts)) with (mapset ∪ ts_rec ts) by set_solver.
Qed.

Lemma map_room_all k L : forall ts, fmap_ok sb ts -> freeable (ts_cur ts) L -> map_room k ts -> map_room k (unmark_all L ts).
Proof.
  induction L as [|c L IH]; intros ts Hf Hl Hr; [done|]. destruct (freeable_cons c L ts Hf Hl) as ([Hc Hu] & Hf1 & Hl1).
  apply IH; [done|done|]. pose proof (size_pos sb (fm_sb _ _ Hf)). apply map_room_unmark; [apply Hf|done|lia].
Qed.

Lemma map_room_room k ts : map_room k ts -> room k ts.
Proof. intros [Ht Hs]. split; [done|]. pose proof (subseteq_size (ts_rec ts) (mapset ∪ ts_rec ts) ltac:(set_solver)). lia. Qed.
End Free.

Section Trunc.
Context {St : Type} `{TxStore St} {U : Type} `{CopyMem U}.
Implicit Types s : fsys St U.
Context (sb : superblock).

Definition nonzero (l : list Z) : list Z := filter (fun a => a <> 0) l.

Lemma nonzero_cons a l : nonzero (a :: l) = if decide (a = 0) then nonzero l else a :: nonzero l.
Proof. unfold nonzero. rewrite filter_cons. repeat case_decide; tauto. Qed.

(** [d'] is [d] with the pointers [l] cleared. *)
Definition zeroed (l : list nat) (d d' : dinode) : Prop :=
  same_meta d d' /\ length (di_addrs d') = length (di_addrs d) /\
  forall i, (i < length (di_addrs d))%nat -> di_addrs d' !!! i = if decide (i ∈ l) then 0 else di_addrs d !!! i.

Lemma direct_loop_ok ip k l : forall s ts d, fs_sb s = sb -> t_st (fs_st s) ts -> fmap_ok sb ts -> ts_held ts = ∅ -> map_room sb k ts ->
  entry_is ip d s -> NoDup l -> (forall i, i ∈ l -> (i < length (di_addrs d))%nat) ->
  let L := nonzero ((fun i => di_addrs d !!! i) <$> l) in freeable sb (ts_cur ts) L ->
  exists x d', for_each l (itrunc_direct ip) s = Ok tt (chg ip d' x (fs_con s) s) /\ t_st x (unmark_all sb L ts) /\ zeroed l d d'.
Proof.
  induction l as [|i l IH]; intros s ts d Es Hs Hf Hh Hr He Hnd Hlt L HL; cbn [for_each].
  - exists (fs_st s), d. rewrite (chg_self ip d) by done. split; [by destruct s|]. split; [done|]. split; [done|]. split; [done|].
    intros i _. by rewrite decide_False by apply not_elem_of_nil.
  - apply NoDup_cons in Hnd as [Hni Hnd]. unfold L in *. rewrite fmap_cons, nonzero_cons in *.
    assert (itrunc_direct ip i s = (if negb (di_addrs d !!! i =? 0) then bfree ROOTDEV (di_addrs d !!! i);; dupd ip (di_set_addr i 0)
      else mret tt) s) as Ei by (unfold itrunc_direct; mstep; by rewrite (en_d _ _ _ He), (en_dev _ _ _ He)).
    destruct (Z.eqb_spec (di_addrs d !!! i) 0) as [E0|E0]; cbn [negb] in Ei.
    + rewrite decide_True in HL |- * by done. assert (itrunc_direct ip i s = Ok tt s) as Ei' by done. mrun Ei'. destruct (IH s ts d Es Hs Hf Hh Hr He Hnd) as (x & d' & E & Hx & Hm & Hl & Hz); [set_solver|done|].
      exists x, d'. split; [exact E|]. split; [done|]. split; [done|]. split; [done|]. intros j Hj. rewrite Hz by done.
      destruct (decide (j ∈ l)); [by rewrite decide_True by set_solver|]. destruct (decide (j = i)) as [->|]; [by rewrite decide_True by set_solver|].
      by rewrite decide_False by set_solver.
    + rewrite decide_False in HL |- * by done. destruct (freeable_cons sb _ _ ts Hf HL) as ([Hc Hu] & Hf1 & HL1).
      pose proof (size_pos sb (fm_sb _ _ Hf)).
      assert (0 <= di_addrs d !!! i < sb_size sb) as Hc' by (clear -H1 Hc; lia).
      pose proof (bfree_run sb s ts (di_addrs d !!! i) Es Hs Hf (held_none sb ts Hh) (map_room_log sb k (di_addrs d !!! i) ts (fm_sb _ _ Hf) Hr Hc') Hc) as Hb.
      rewrite Hu in Hb. destruct Hb as (x1 & E1 & Hx1).
      assert (entry_is ip d (with_st x1 s)) as He1 by by destruct He. rewrite (bind_ok _ _ _ _ _ E1), (dupd_chg ip d _ _ He1) in Ei. mrun Ei.
      set (s1 := chg ip _ _ _ _). set (d1 := di_set_addr i 0 d).
      assert (forall j, (j < length (di_addrs d))%nat -> di_addrs d1 !!! j = if decide (j = i) then 0 else di_addrs d !!! j) as Hd1.
      { intros j Hj. cbn. case_decide as E; [subst; by apply list_lookup_total_insert_eq|by apply list_lookup_total_insert_ne]. }
      assert (length (di_addrs d1) = length (di_addrs d)) as Hl1 by apply length_insert.
      assert ((fun i => di_addrs d1 !!! i) <$> l = (fun i => di_addrs d !!! i) <$> l) as Hfm.
      { apply list_fmap_ext. intros j y Hy. apply list_elem_of_lookup_2 in Hy. rewrite Hd1 by (apply Hlt; set_solver). rewrite decide_False; [done|]. by intros ->. }
      destruct (IH s1 (unmark sb (di_addrs d !!! i) ts) d1) as (x & d' & E & Hx & Hm & Hl & Hz); try done.
      * apply map_room_unmark; [apply Hf|done|lia].
      * by apply (entry_chg ip d).
      * intros j Hj. rewrite Hl1. apply Hlt. set_solver.
      * by rewrite Hfm.
      * exists x, d'. split; [etransitivity; [exact E|]; f_equal; unfold s1; exact (chg_chg ip d1 x1 (fs_con s) d' x (fs_con s) s)|].
        rewrite Hfm in Hx. split; [exact Hx|]. split; [done|]. split; [congruence|]. intros j Hj. rewrite Hz by lia. rewrite Hd1 by done.
        destruct (decide (j ∈ l)); [by rewrite decide_True by set_solver|]. destruct (decide (j = i)) as [->|]; [by rewrite decide_True by set_solver|].
        by rewrite decide_False by set_solver.
Qed.

Definition free_entry (bp : nat) (j : nat) : M (fsys St U) unit :=
  d ← bdata bp;
  let a := getu32 (4 * j) d in
  if negb (a =? 0) then bfree ROOTDEV a else mret tt.

Lemma entries_loop_ok ind h k l : forall s ts, fs_sb s = sb -> t_st (fs_st s) (ts_take ind h ts) -> fmap_ok sb ts -> ts_held ts = ∅ ->
  map_room sb k ts -> datastart sb <= ind < sb_size sb -> used sb (ts_cur ts) ind = true ->
  let L := nonzero ((fun j => getu32 (4 * j) (ts_cur ts ind)) <$> l) in freeable sb (ts_cur ts) L -> ind ∉ L ->
  exists x, for_each l (free_entry h) s = Ok tt (with_st x s) /\ t_st x (ts_take ind h (unmark_all sb L ts)).
Proof.
  induction l as [|j l IH]; intros s ts Es Hs Hf Hh Hr Hi Hu L HL Hni; cbn [for_each].
  - exists (fs_st s). split; [by destruct s|done].
  - pose proof (size_pos sb (fm_sb _ _ Hf)) as Hsz. unfold L in *. rewrite fmap_cons, nonzero_cons in *.
    assert (free_entry h j s = (if negb (getu32 (4 * j) (ts_cur ts ind) =? 0) then bfree ROOTDEV (getu32 (4 * j) (ts_cur ts ind)) else mret tt) s) as Ei.
    { unfold free_entry. mrun (bdata_run s _ ind h Hs (lookup_insert_eq _ _ _)). done. }
    set (a := getu32 (4 * j) (ts_cur ts ind)) in *. destruct (Z.eqb_spec a 0) as [E0|E0]; cbn [negb] in Ei.
    + rewrite decide_True in HL, Hni |- * by done. assert (free_entry h j s = Ok tt s) as Ei' by done. mrun Ei'.
      by destruct (IH s ts Es Hs Hf Hh Hr Hi Hu HL Hni) as (x & E & Hx); exists x.
    + rewrite decide_False in HL, Hni |- * by done. destruct (freeable_cons sb _ _ ts Hf HL) as ([Hc Hcu] & Hf1 & HL1).
      assert (0 <= a < sb_size sb) as Hc' by lia.
      pose proof (bfree_run sb s (ts_take ind h ts) a Es Hs (fmap_take sb ind h ts Hf) (held_one sb ind h ts Hh Hi Hu)
        (map_room_log sb k a ts (fm_sb _ _ Hf) Hr Hc') Hc) as Hb. cbn [ts_take ts_cur] in Hb.
      rewrite Hcu in Hb. destruct Hb as (x1 & E1 & Hx1). rewrite E1 in Ei. mrun Ei.
      assert (ts_cur (unmark sb a ts) ind = ts_cur ts ind) as Ec.
      { unfold unmark. cbn [ts_update ts_cur]. rewrite decide_False; [done|]. intros Ex.
        pose proof (bblock_range sb (fm_sb _ _ Hf) a Hc') as Hbr. rewrite <- Ex in Hbr. clear -Hbr Hi. lia. }
      destruct (IH (with_st x1 s) (unmark sb a ts) Es Hx1 Hf1 Hh) as (x & E & Hx).
      * apply map_room_unmark; [apply Hf|done|done].
      * done.
      * rewrite used_unmark; [|apply Hf|apply Hf|lia|lia]. rewrite decide_False; [done|]. set_solver.
      * by rewrite Ec.
      * rewrite Ec. set_solver.
      * exists x. split; [exact E|]. rewrite Ec in Hx. exact Hx.
Qed.

(** The blocks of an inode, in the order they are freed. *)
Definition direct_blocks (d : dinode) : list Z := nonzero ((fun i => di_addrs d !!! i) <$> seq 0 NDIRECT).
Definition entry_blocks (cur : Z -> block) (ind : Z) : list Z := nonzero ((fun j => getu32 (4 * j) (cur ind)) <$> seq 0 NINDIRECT).
Definition inode_blocks (cur : Z -> block) (d : dinode) : list Z :=
  let ind := di_addrs d !!! NDIRECT in
  direct_blocks d ++ (if ind =? 0 then [] else entry_blocks cur ind ++ [ind]).

Lemma nonzero_slots (f : nat -> Z) (l : list nat) b : b ∈ nonzero (f <$> l) <-> b <> 0 /\ exists i, i ∈ l /\ f i = b.
Proof. unfold nonzero. rewrite list_elem_of_filter, list_elem_of_fmap. naive_solver. Qed.

Lemma nodup_slots (f : nat -> Z) (l : list nat) : NoDup l -> (forall i j, i ∈ l -> j ∈ l -> f i <> 0 -> f i = f j -> i = j) -> NoDup (nonzero (f <$> l)).
Proof.
  induction l as [|i l IH]; intros Hnd Hinj; [constructor|]. apply NoDup_cons in Hnd as [Hni Hnd]. rewrite fmap_cons, nonzero_cons.
  assert (NoDup (nonzero (f <$> l))) as Hn by (apply IH; [done|]; intros a b Ha Hb; apply Hinj; set_solver).
  case_decide as E; [done|]. constructor; [|done]. rewrite nonzero_slots. intros [_ (j & Hj & Ej)]. apply Hni.
  rewrite (Hinj i j); [done|set_solver|set_solver|done|done].
Qed.

Lemma inode_blocks_owned cur d b : b ∈ inode_blocks cur d <-> owned cur d b.
Proof.
  unfold inode_blocks, direct_blocks, entry_blocks, owned. rewrite elem_of_app, nonzero_slots.
  set (ind := di_addrs d !!! NDIRECT). split.
  - intros [[Hb (i & Hi & <-)]|Hb].
    + split; [done|]. apply elem_of_seq in Hi. unfold NDIRECT, NSLOTS in *. exists i. split; [lia|]. unfold slot.
      by rewrite (proj2 (Nat.ltb_lt i 13)) by lia.
    + destruct (Z.eqb_spec ind 0) as [|Hi]; [by apply not_elem_of_nil in Hb|]. rewrite elem_of_app, nonzero_slots in Hb.
      destruct Hb as [[Hb (j & Hj & <-)]|Hb].
      * split; [done|]. apply elem_of_seq in Hj. unfold NINDIRECT, NSLOTS in *. exists (13 + j)%nat. split; [lia|]. unfold slot.
        rewrite (proj2 (Nat.ltb_ge (13 + j) 13)) by lia. fold ind. rewrite (proj2 (Z.eqb_neq _ _) Hi). do 2 f_equal. lia.
      * apply list_elem_of_singleton in Hb as ->. split; [done|]. exists NDIRECT. split; [unfold NDIRECT, NSLOTS; lia|done].
  - intros [Hb (k & Hk & Ek)]. unfold slot in Ek. unfold NSLOTS in Hk. destruct (Nat.ltb_spec k 13) as [Hlt|Hge].
    + destruct (decide (k = NDIRECT)) as [->|Hne].
      * right. fold ind in Ek. rewrite (proj2 (Z.eqb_neq ind 0)) by congruence. apply elem_of_app. right. by apply list_elem_of_singleton.
      * left. split; [done|]. exists k. split; [|done]. apply elem_of_seq. unfold NDIRECT in *. lia.
    + right. fold ind in Ek. destruct (Z.eqb_spec ind 0) as [|Hi]; [congruence|]. rewrite elem_of_app, nonzero_slots. left.
      split; [done|]. exists (k - 13)%nat. split; [|done]. apply elem_of_seq. unfold NINDIRECT. lia.
Qed.

Lemma inode_blocks_freeable cur d : inode_ok sb cur d -> freeable sb cur (inode_blocks cur d).
Proof.
  intros Ho. split.
  - unfold inode_blocks, direct_blocks, entry_blocks. set (ind := di_addrs d !!! NDIRECT).
    assert (forall i, (i < 13)%nat -> slot cur d i = di_addrs d !!! i) as Hs by (intros i Hi; unfold slot; by rewrite (proj2 (Nat.ltb_lt i 13)) by lia).
    assert (forall j, ind <> 0 -> slot cur d (13 + j) = getu32 (4 * j) (cur ind)) as Hs2.
    { intros j Hi. unfold slot. rewrite (proj2 (Nat.ltb_ge (13 + j) 13)) by lia. fold ind. rewrite (proj2 (Z.eqb_neq _ _) Hi). do 2 f_equal. lia. }
    apply NoDup_app. split_and!.
    + apply nodup_slots; [apply NoDup_seq|]. intros i j Hi%elem_of_seq Hj%elem_of_seq. unfold NDIRECT in *. rewrite <- !Hs by lia.
      apply Ho; unfold NSLOTS; lia.
    + intros b. rewrite nonzero_slots. intros [Hb (i & Hi%elem_of_seq & Ei)]. unfold NDIRECT in Hi. rewrite <- Hs in Ei by lia.
      destruct (Z.eqb_spec ind 0) as [|Hn]; [apply not_elem_of_nil|]. rewrite elem_of_app, nonzero_slots, list_elem_of_singleton.
      intros [[_ (j & Hj%elem_of_seq & Ej)]|Ej].
      * rewrite <- Hs2 in Ej by done. assert (i = 13 + j)%nat; [|lia]. unfold NINDIRECT in Hj. apply (io_inj _ _ _ Ho); unfold NSLOTS; try lia; congruence.
      * assert (i = 12)%nat; [|lia]. apply (io_inj _ _ _ Ho); unfold NSLOTS; try lia. by rewrite Ei, Ej.
    + destruct (Z.eqb_spec ind 0) as [|Hn]; [constructor|]. apply NoDup_app. split_and!; [| |apply NoDup_singleton].
      * apply nodup_slots; [apply NoDup_seq|]. intros i j Hi%elem_of_seq Hj%elem_of_seq. unfold NINDIRECT in *. rewrite <- !Hs2 by done.
        intros H1 H2. apply (io_inj _ _ _ Ho) in H2; [lia|unfold NSLOTS; lia|unfold NSLOTS; lia|done].
      * intros b. rewrite nonzero_slots, list_elem_of_singleton. intros [Hb (j & Hj%elem_of_seq & Ej)] ->. unfold NINDIRECT in Hj.
        rewrite <- Hs2 in Ej by done. assert (13 + j = 12)%nat; [|lia]. apply (io_inj _ _ _ Ho); unfold NSLOTS; try lia. by rewrite Ej.
  - apply Forall_forall. intros b Hb%inode_blocks_owned. by apply (io_owned sb cur d).
Qed.

Definition truncated (d : dinode) : dinode :=
  mkDi (di_type d) (di_major d) (di_minor d) (di_nlink d) 0 (replicate 13 0).

Lemma zeroed_all d d1 d2 : length (di_addrs d) = 13%nat -> zeroed (seq 0 NDIRECT) d d1 ->
  (di_addrs d1 !!! NDIRECT = 0 /\ d2 = d1 \/ d2 = di_set_addr NDIRECT 0 d1) -> di_set_size 0 d2 = truncated d.
Proof.
  intros Hl ((E1 & E2 & E3 & E4 & _) & Hl1 & Hz) Hd2. unfold truncated.
  assert (di_addrs d2 = replicate 13 0) as Ha.
  2: { unfold di_set_size. rewrite Ha. clear Ha. destruct Hd2 as [[_ ->]| ->]; cbn; by rewrite E1, E2, E3, E4. }
  assert (length (di_addrs d2) = 13%nat) as Hl2.
  { destruct Hd2 as [[_ ->]| ->]; [congruence|]. cbn. rewrite length_insert. congruence. }
  apply list_eq. intros i. destruct (decide (i < 13)%nat) as [Hi|Hi]; [|by rewrite !lookup_ge_None_2 by (rewrite ?length_replicate; lia)].
  rewrite lookup_replicate_2 by done. rewrite (list_lookup_lookup_total_lt (di_addrs d2)) by lia. f_equal.
  destruct (decide (i = NDIRECT)) as [->|Hne].
  - destruct Hd2 as [[? ->]| ->]; [done|]. cbn. apply list_lookup_total_insert_eq. unfold NDIRECT. lia.
  - assert (di_addrs d1 !!! i = 0) as E.
    { rewrite Hz by lia. rewrite decide_True; [done|]. apply elem_of_seq. unfold NDIRECT in *. lia. }
    destruct Hd2 as [[? ->]| ->]; [done|]. cbn. by rewrite list_lookup_total_insert_ne.
Qed.

(** The indirect part of [itrunc]. *)
Lemma indirect_run ip d k s ts : let ind := di_addrs d !!! NDIRECT in fs_sb s = sb -> t_st (fs_st s) ts -> fmap_ok sb ts -> ts_held ts = ∅ ->
  map_room sb k ts -> entry_is ip d s -> ind <> 0 -> freeable sb (ts_cur ts) (entry_blocks (ts_cur ts) ind ++ [ind]) ->
  exists x, (bp ← bread ROOTDEV ind; for_each (seq 0 NINDIRECT) (free_entry bp);; brelse bp;; bfree ROOTDEV ind;;
      dupd ip (di_set_addr NDIRECT 0)) s = Ok tt (chg ip (di_set_addr NDIRECT 0 d) x (fs_con s) s) /\
    t_st x (unmark_all sb (entry_blocks (ts_cur ts) ind ++ [ind]) ts).
Proof.
  intros ind Es Hs Hf Hh Hr He Hi [Hnd HL]. pose proof (fm_sb _ _ Hf) as Hsb. pose proof (size_pos sb Hsb) as Hsz.
  apply NoDup_app in Hnd as (Hnd1 & Hdis & _). apply Forall_app in HL as [HL1 HL2]. apply Forall_cons_1 in HL2 as [[Hir Hiu] _].
  assert (ts_held ts !! ind = None) as Hn by (rewrite Hh; apply lookup_empty).
  destruct (bread_run s ts ind Hs) as (h & x1 & E1 & Hx1).
  { split_and!; [done|rewrite (fm_start _ _ Hf); by apply data_fs|rewrite Hh, map_size_empty; lia]. }
  mrun E1. set (L := entry_blocks (ts_cur ts) ind) in *.
  assert (ind ∉ L) as Hni by (intros Hin; apply (Hdis ind Hin); by apply list_elem_of_singleton).
  destruct (entries_loop_ok ind h k (seq 0 NINDIRECT) (with_st x1 s) ts Es Hx1 Hf Hh Hr Hir Hiu) as (x2 & E2 & Hx2); [done|done|].
  mrun E2. fold (entry_blocks (ts_cur ts) ind) in Hx2. fold L in Hx2.
  destruct (unmark_all_ok sb L ts Hf) as (Hf2 & Hu2 & Hc2); [done|]. destruct (unmark_all_same sb L ts) as (Hh2 & _ & _ & _).
  destruct (brelse_tx (with_st x2 (with_st x1 s)) _ ind h Hx2 (lookup_insert_eq _ _ _)) as (x3 & E3 & Hx3). mrun E3.
  rewrite ts_take_drop in Hx3 by (rewrite Hh2; exact Hn).
  assert (map_room sb k (unmark_all sb L ts)) as Hr2 by (by apply map_room_all).
  pose proof (bfree_run sb (with_st x3 (with_st x2 (with_st x1 s))) _ ind Es Hx3 Hf2 (held_none sb _ (eq_trans Hh2 Hh))
    (map_room_log sb k ind _ Hsb Hr2 ltac:(lia)) Hir) as Hb.
  rewrite Hu2 in Hb by lia. rewrite decide_False in Hb by done. rewrite Hiu in Hb.
  destruct Hb as (x4 & E4 & Hx4). mrun E4.
  assert (entry_is ip d (with_st x4 (with_st x3 (with_st x2 (with_st x1 s))))) as He4 by by destruct He.
  exists x4. split; [exact (dupd_chg ip d (di_set_addr NDIRECT 0) _ He4)|]. rewrite unmark_all_app. exact Hx4.
Qed.

Lemma itrunc_run s ts ip inum d : file_at sb ip d ts s -> i_inum (the_inode ip s) = inum -> inum_ok sb inum -> map_room sb 1 ts ->
  exists x, itrunc ip s = Ok tt (chg ip (truncated d) x (fs_con s) s) /\
    t_st x (put_inode sb inum (truncated d) (unmark_all sb (inode_blocks (ts_cur ts) d) ts)).
Proof.
  intros [Es Hs Hf Hh He Ho] Ei Hi Hr. pose proof (inode_blocks_freeable (ts_cur ts) d Ho) as HL. pose proof (io_len _ _ _ Ho) as Hl.
  unfold itrunc. set (L1 := direct_blocks d).
  assert (freeable sb (ts_cur ts) L1) as HL1.
  { destruct HL as [Hnd HF]. unfold inode_blocks in Hnd, HF. apply NoDup_app in Hnd as [? _]. apply Forall_app in HF as [? _]. done. }
  destruct (direct_loop_ok ip 1 (seq 0 NDIRECT) s ts d Es Hs Hf Hh Hr He (NoDup_seq _ _)) as (x1 & d1 & E1 & Hx1 & Hz).
  { intros i Hi'%elem_of_seq. unfold NDIRECT in Hi'. lia. }
  { done. }
  mrun E1. fold (direct_blocks d) in Hx1. fold L1 in Hx1. mstep. set (s1 := chg ip d1 x1 (fs_con s) s).
  assert (entry_is ip d1 s1) as He1 by by apply (entry_chg ip d). rewrite (en_d _ _ _ He1), (en_dev _ _ _ He1).
  pose proof Hz as (Hm & Hl1 & Hz'). assert (di_addrs d1 !!! NDIRECT = di_addrs d !!! NDIRECT) as Eind.
  { rewrite Hz' by (unfold NDIRECT; lia). rewrite decide_False; [done|]. rewrite elem_of_seq. unfold NDIRECT. lia. }
  destruct (unmark_all_ok sb L1 ts Hf HL1) as (Hf1 & Hu1 & Hc1). destruct (unmark_all_same sb L1 ts) as (Hh1 & _ & _ & _).
  pose proof (map_room_all sb 1 L1 ts Hf HL1 Hr) as Hr1. pose proof (size_pos sb (fm_sb _ _ Hf)) as Hsz.
  assert (exists x2 d2, (if negb (di_addrs d1 !!! NDIRECT =? 0) then
      bp ← bread ROOTDEV (di_addrs d1 !!! NDIRECT); for_each (seq 0 NINDIRECT) (free_entry bp);; brelse bp;;
      bfree ROOTDEV (di_addrs d1 !!! NDIRECT);; dupd ip (di_set_addr NDIRECT 0) else mret tt) s1 = Ok tt (chg ip d2 x2 (fs_con s) s) /\
      t_st x2 (unmark_all sb (inode_blocks (ts_cur ts) d) ts) /\ di_set_size 0 d2 = truncated d) as (x2 & d2 & E2 & Hx2 & Hd2).
  { destruct (Z.eqb_spec (di_addrs d1 !!! NDIRECT) 0) as [E0|E0]; cbn [negb].
    - exists x1, d1. split; [done|]. split; [|apply (zeroed_all d d1); [done|done|by left]].
      unfold inode_blocks. rewrite <- Eind, E0. cbn [Z.eqb]. rewrite app_nil_r. exact Hx1.
    - assert (ts_cur (unmark_all sb L1 ts) (di_addrs d1 !!! NDIRECT) = ts_cur ts (di_addrs d1 !!! NDIRECT)) as Ec.
      { apply Hc1. rewrite Eind in *. destruct (io_data _ _ _ Ho NDIRECT ltac:(unfold NDIRECT, NSLOTS; lia) E0) as [Hb _].
        rewrite slot_ind in Hb. unfold map_block. lia. }
      assert (inode_blocks (ts_cur ts) d = L1 ++ entry_blocks (ts_cur ts) (di_addrs d1 !!! NDIRECT) ++ [di_addrs d1 !!! NDIRECT]) as Eb.
      { unfold inode_blocks. rewrite <- Eind. by rewrite (proj2 (Z.eqb_neq _ _) E0). }
      destruct (indirect_run ip d1 1 s1 (unmark_all sb L1 ts) Es Hx1 Hf1 (eq_trans Hh1 Hh) Hr1 He1 E0) as (x2 & E2 & Hx2).
      + unfold entry_blocks. rewrite Ec. destruct HL as [Hnd HF]. rewrite Eb in Hnd, HF. apply NoDup_app in Hnd as (_ & Hdis & Hnd). apply Forall_app in HF as [_ HF].
        split; [exact Hnd|]. rewrite Forall_forall in HF |- *. intros b Hb. destruct (HF b Hb) as [Hb1 Hb2]. split; [done|].
        rewrite Hu1 by lia. rewrite decide_False; [done|]. intros Hin. by apply (Hdis b Hin).
      + exists x2, (di_set_addr NDIRECT 0 d1). split; [etransitivity; [exact E2|]; f_equal; unfold s1; exact (chg_chg ip d1 x1 (fs_con s) _ x2 (fs_con s) s)|].
        split; [|apply (zeroed_all d d1); [done|done|by right]]. rewrite Eb, unmark_all_app. unfold entry_blocks in Hx2 |- *. rewrite Ec in Hx2. exact Hx2. }
  match goal with |- context [(?m ≫= ?f) s1] => rewrite (bind_ok m f s1 tt _ E2) end. set (s2 := chg ip d2 x2 (fs_con s) s).
  assert (entry_is ip d2 s2) as He2 by by apply (entry_chg ip d). mrun (dupd_chg ip d2 (di_set_size 0) s2 He2). rewrite Hd2.
  destruct (unmark_all_ok sb _ ts Hf HL) as (Hf3 & _). destruct (unmark_all_same sb (inode_blocks (ts_cur ts) d) ts) as (Hh3 & _ & _ & _).
  set (s3 := chg ip (truncated d) (fs_st s2) (fs_con s2) s2).
  assert (s3 = chg ip (truncated d) x2 (fs_con s) s) as Es3 by exact (chg_chg ip d2 x2 (fs_con s) _ x2 (fs_con s) s).
  destruct (iupdate_run sb s3 _ ip (truncated d) inum 0 Es Hx2 Hf3 (eq_trans Hh3 Hh)) as (x4 & E4 & Hx4).
  - rewrite Es3. by apply (entry_chg ip d).
  - rewrite Es3, chg_inode by apply He. exact Ei.
  - done.
  - apply (map_room_room sb). by apply map_room_all.
  - exists x4. split; [rewrite E4, Es3; done|exact Hx4].
Qed.
End Trunc.

(** * iput *)

Section Iput.
Context {St : Type} `{TxStore St} {U : Type} `{CopyMem U}.
Implicit Types s : fsys St U.
Context (sb : superblock).

(** The state with entry [y] at [ip] and disk [x]. *)
Definition set_entry (ip : nat) (y : inode) (x : St) (s : fsys St U) : fsys St U :=
  with_st x (with_itable (<[ip := y]> (fs_itable s)) s).

Lemma iupdf_entry ip f s : (ip < length (fs_itable s))%nat -> iupdf ip f s = set_entry ip (f (the_inode ip s)) (fs_st s) s.
Proof.
  intros Hl. unfold iupdf, set_entry, with_itable, with_st. cbn. f_equal. unfold the_inode.
  destruct (lookup_lt_is_Some_2 _ _ Hl) as [y Hy]. rewrite (list_lookup_total_correct _ _ _ Hy).
  rewrite list_insert_alter. apply list_alter_ext; [|done]. intros z Hz. congruence.
Qed.

Lemma set_entry_inode ip y x s : (ip < length (fs_itable s))%nat -> the_inode ip (set_entry ip y x s) = y.
Proof. intros Hl. unfold the_inode. cbn. by apply list_lookup_total_insert_eq. Qed.

Lemma set_entry_twice ip y x y' x' s : set_entry ip y' x' (set_entry ip y x s) = set_entry ip y' x' s.
Proof. unfold set_entry, with_st, with_itable. cbn. by rewrite list_insert_insert_eq. Qed.

Lemma set_entry_len ip y x s : length (fs_itable (set_entry ip y x s)) = length (fs_itable s).
Proof. cbn. apply length_insert. Qed.

Lemma iupdf_set ip f y x s : (ip < length (fs_itable s))%nat -> iupdf ip f (set_entry ip y x s) = set_entry ip (f y) x s.
Proof. intros Hl. rewrite iupdf_entry by (by rewrite set_entry_len). rewrite set_entry_inode by done. apply set_entry_twice. Qed.

Lemma chg_entry ip d x s : (ip < length (fs_itable s))%nat -> chg ip d x (fs_con s) s = set_entry ip (set_d d (the_inode ip s)) x s.
Proof. intros Hl. exact (f_equal (with_st x) (iupdf_entry ip (set_d d) s Hl)). Qed.

(** The freed entry and the freed inode. *)
Definition freed_inode (d : dinode) : dinode := di_set_type 0 (truncated d).
Definition freed_store (inum : Z) (d : dinode) (ts : tstore) : tstore :=
  put_inode sb inum (freed_inode d) (put_inode sb inum (truncated d) (unmark_all sb (inode_blocks (ts_cur ts) d) ts)).

Lemma put_room inum d ts k : sb_ok sb -> map_room sb (S k) ts -> map_room sb k (put_inode sb inum d ts).
Proof.
  intros Hsb [Ht Hs]. split; [done|]. cbn [put_inode ts_update ts_rec].
  replace (mapset sb ∪ ({[IBLOCK inum sb]} ∪ ts_rec ts)) with ({[IBLOCK inum sb]} ∪ (mapset sb ∪ ts_rec ts)) by set_solver.
  rewrite size_union_alt, size_singleton.
  pose proof (subseteq_size ((mapset sb ∪ ts_rec ts) ∖ {[IBLOCK inum sb]}) (mapset sb ∪ ts_rec ts) ltac:(set_solver)). lia.
Qed.

Lemma released_entry (y : inode) l l' inum d : i_dev y = ROOTDEV -> i_inum y = inum -> i_ref y = 1 ->
  let z := set_ilock l' (set_ivalid 0 (set_d d (set_ilock l y))) in
  set_ref (s32 (i_ref z - 1)) z = mkInode ROOTDEV inum 0 l' 0 d.
Proof. destruct y. cbn. by intros -> -> ->. Qed.

Lemma iput_free s ts ip inum d : file_at sb ip d ts s -> i_inum (the_inode ip s) = inum -> inum_ok sb inum -> map_room sb 2 ts ->
  i_ref (the_inode ip s) = 1 -> i_valid (the_inode ip s) <> 0 -> di_nlink d = 0 -> i_lock (the_inode ip s) = mkSleep 0 0 ->
  exists x, iput ip s = Ok tt (set_entry ip (mkInode ROOTDEV inum 0 (mkSleep 0 0) 0 (freed_inode d)) x s) /\
    t_st x (freed_store inum d ts).
Proof.
  intros F Ei Hi Hr Href Hv Hnl Hlk. pose proof F as [Es Hs Hf Hh [Hl Ed Ev] Ho]. pose proof (fm_sb _ _ Hf) as Hsb.
  unfold iput. mstep. rewrite Href, Ed, Hnl, (proj2 (Z.eqb_neq _ _) Hv), !Z.eqb_refl. cbn [andb negb].
  set (y := the_inode ip s) in *. set (s1 := set_entry ip (set_ilock (mkSleep 1 (fs_pid s)) y) (fs_st s) s).
  assert (iacquire ip s = Ok tt s1) as E1.
  { unfold iacquire. mstep. fold y. rewrite Hlk. cbn [sl_locked Z.eqb negb]. mstep. unfold iupd, modify. by rewrite iupdf_entry. }
  assert (the_inode ip s1 = set_ilock (mkSleep 1 (fs_pid s)) y) as Ey1 by by apply set_entry_inode.
  assert (file_at sb ip d ts s1) as F1.
  { split; [done|done|done|done| |done]. split; [unfold s1; by rewrite set_entry_len|by rewrite Ey1|by rewrite Ey1]. }
  destruct (itrunc_run sb s1 ts ip inum d F1) as (x2 & E2 & Hx2); [by rewrite Ey1|done|destruct Hr as [? ?]; split; [done|lia]|].
  assert (chg ip (truncated d) x2 (fs_con s1) s1 = set_entry ip (set_d (truncated d) (set_ilock (mkSleep 1 (fs_pid s)) y)) x2 s) as Es2.
  { rewrite chg_entry by (unfold s1; by rewrite set_entry_len). rewrite Ey1. apply set_entry_twice. }
  rewrite Es2 in E2. set (s2 := set_entry ip _ x2 s) in *.
  assert (entry_is ip (truncated d) s2) as He2.
  { split; [unfold s2; by rewrite set_entry_len|by unfold s2; rewrite set_entry_inode|by unfold s2; rewrite set_entry_inode]. }
  set (s3 := chg ip (freed_inode d) x2 (fs_con s) s2).
  assert (dupd ip (di_set_type 0) s2 = Ok tt s3) as E3 by exact (dupd_chg ip (truncated d) (di_set_type 0) s2 He2).
  set (L := inode_blocks (ts_cur ts) d) in *. pose proof (inode_blocks_freeable sb (ts_cur ts) d Ho) as HL.
  destruct (unmark_all_ok sb L ts Hf HL) as (Hf3 & _). destruct (unmark_all_same sb L ts) as (Hh3 & _).
  assert (length (di_addrs (truncated d)) = 13%nat) as Ht by apply length_replicate.
  destruct (iupdate_run sb s3 _ ip (freed_inode d) inum 0 Es Hx2) as (x4 & E4 & Hx4).
  - by apply fmap_put.
  - exact (eq_trans Hh3 Hh).
  - by apply (entry_chg ip (truncated d)).
  - unfold s3. rewrite chg_inode by (unfold s2; by rewrite set_entry_len). unfold s2. rewrite set_entry_inode by done. exact Ei.
  - done.
  - apply (map_room_room sb), put_room; [done|]. by apply map_room_all.
  - exists x4. split; [|exact Hx4]. mnorm. mrun E1. mnorm. mrun E2. mnorm. mrun E3. mnorm. mrun E4.
    assert (with_st x4 s3 = set_entry ip (set_d (freed_inode d) (set_ilock (mkSleep 1 (fs_pid s)) y)) x4 s) as Es4.
    { unfold s3. change (with_st x4 (chg ip (freed_inode d) x2 (fs_con s) s2)) with (chg ip (freed_inode d) x4 (fs_con s2) s2).
      rewrite chg_entry by (unfold s2; by rewrite set_entry_len). unfold s2. rewrite set_entry_inode by done. apply set_entry_twice. }
    rewrite Es4. unfold iupd, irelease, iupd. mnorm. unfold modify.
    rewrite !iupdf_set by done.
    do 2 f_equal. by apply released_entry.
Qed.

(** Files that share no block with the freed ones keep their content. *)
Lemma unmark_other L ts d0 : fmap_ok sb ts -> freeable sb (ts_cur ts) L -> inode_ok sb (ts_cur ts) d0 -> (forall b, owned (ts_cur ts) d0 b -> b ∉ L) ->
  inode_ok sb (ts_cur (unmark_all sb L ts)) d0 /\ fcontent (ts_cur (unmark_all sb L ts)) d0 = fcontent (ts_cur ts) d0.
Proof.
  intros Hf HL Ho Hap. destruct (unmark_all_ok sb L ts Hf HL) as (Hf1 & Hu & Hc). pose proof (size_pos sb (fm_sb _ _ Hf)) as Hsz.
  assert (forall k, (k < NSLOTS)%nat -> slot (ts_cur ts) d0 k <> 0 -> ts_cur (unmark_all sb L ts) (slot (ts_cur ts) d0 k) = ts_cur ts (slot (ts_cur ts) d0 k)) as Hck.
  { intros k Hk Hk0. destruct (io_data _ _ _ Ho k Hk Hk0) as [Hr _]. apply Hc. unfold map_block. lia. }
  assert (forall k, slot (ts_cur (unmark_all sb L ts)) d0 k = slot (ts_cur ts) d0 k) as Hs.
  { intros k. unfold slot. destruct (k <? 13)%nat; [done|]. destruct (Z.eqb_spec (di_addrs d0 !!! NDIRECT) 0) as [|Hi]; [done|].
    pose proof (Hck NDIRECT ltac:(unfold NDIRECT, NSLOTS; lia)) as Hc'. rewrite slot_ind in Hc'. by rewrite Hc'. }
  split.
  - split; try apply Ho.
    + intros k Hk. rewrite Hs. intros Hk0. destruct (io_data _ _ _ Ho k Hk Hk0) as [Hr Hku]. split; [done|].
      rewrite Hu by lia. rewrite decide_False; [done|]. apply Hap. split; [done|]. by exists k.
    + intros k k' Hk Hk'. rewrite !Hs. by apply Ho.
    + intros bn H1 H2. unfold blk. rewrite Hs. by apply Ho.
  - apply list_fmap_ext. intros i j Hj. apply list_elem_of_lookup_2, elem_of_zseq in Hj. pose proof (io_size _ _ _ Ho) as Hmx.
    destruct (full_at sb (ts_cur ts) d0 j Ho ltac:(lia)) as [Hjr Hb]. unfold fbyte, blk in *. rewrite Hs. f_equal. apply Hck; [|done].
    apply slot_of_lt. split; [apply Z.div_pos; unfold BSZ; lia|apply Z.div_lt_upper_bound; unfold BSZ in *; lia].
Qed.

(** The same for an update of an inode block. *)
Lemma put_other inum d ts d0 : fmap_ok sb ts -> inum_ok sb inum -> inode_ok sb (ts_cur ts) d0 ->
  inode_ok sb (ts_cur (put_inode sb inum d ts)) d0 /\ fcontent (ts_cur (put_inode sb inum d ts)) d0 = fcontent (ts_cur ts) d0.
Proof.
  intros Hf Hi Ho. pose proof (iblock_bounds sb inum (fm_sb _ _ Hf) Hi). split; [apply inode_ok_meta; [apply Hf|lia|done]|].
  apply list_fmap_ext. intros i j Hj. apply list_elem_of_lookup_2, elem_of_zseq in Hj. pose proof (io_size _ _ _ Ho) as Hmx.
  destruct (full_at sb (ts_cur ts) d0 j Ho ltac:(lia)) as [Hjr Hb]. apply (fbyte_meta sb); [apply Hf|lia|done|done|done].
Qed.

Lemma used_put inum d ts b : fmap_ok sb ts -> inum_ok sb inum -> 0 <= b < sb_size sb ->
  used sb (ts_cur (put_inode sb inum d ts)) b = used sb (ts_cur ts) b.
Proof. intros Hf Hi Hb. pose proof (iblock_bounds sb inum (fm_sb _ _ Hf) Hi). apply used_meta; [apply Hf|lia|done]. Qed.

Lemma truncated_ok d : meta_fits d -> dinode_ok (truncated d) /\ dinode_ok (freed_inode d).
Proof.
  intros (H1 & H2 & H3 & H4). assert (Forall (fun a => 0 <= a < 2 ^ 32) (replicate 13 0)) as Hz by (apply Forall_replicate; lia).
  split; (split; cbn [truncated freed_inode di_set_type di_type di_major di_minor di_nlink di_size di_addrs]; try done; lia).
Qed.

(** C8: [iput] drops a reference.  When it is the last one and no directory
    links to the inode, the inode is freed on disk and exactly the blocks it
    owned, direct, indirect and the indirect block, become free; other inodes
    and the content of files that share no block with it stay as they are, and
    the entry of the table can be used again.  Otherwise only the count
    changes.  It ends normally, with the blocks of the free map and one inode
    block logged. *)
Theorem iput_correct s ts ip inum d :
  file_at sb ip d ts s -> i_inum (the_inode ip s) = inum -> inum_ok sb inum -> meta_fits d -> map_room sb 2 ts ->
  i_lock (the_inode ip s) = mkSleep 0 0 ->
  if decide (i_ref (the_inode ip s) = 1 /\ i_valid (the_inode ip s) <> 0 /\ di_nlink d = 0) then
    exists x ts', iput ip s = Ok tt (set_entry ip (mkInode ROOTDEV inum 0 (mkSleep 0 0) 0 (freed_inode d)) x s) /\
      t_st x ts' /\ fmap_ok sb ts' /\ ts_held ts' = ∅ /\ dinode_at sb (ts_cur ts') inum = freed_inode d /\
      (forall j, inum_ok sb j -> j <> inum -> dinode_at sb (ts_cur ts') j = dinode_at sb (ts_cur ts) j) /\
      (forall b, 0 <= b < sb_size sb -> used sb (ts_cur ts') b = true <-> used sb (ts_cur ts) b = true /\ ~ owned (ts_cur ts) d b) /\
      (forall d0, inode_ok sb (ts_cur ts) d0 -> apart (ts_cur ts) d d0 ->
         inode_ok sb (ts_cur ts') d0 /\ fcontent (ts_cur ts') d0 = fcontent (ts_cur ts) d0)
  else iput ip s = Ok tt (iupdf ip (fun x => set_ref (s32 (i_ref x - 1)) x) s).
Proof.
  intros F Ei Hi Hm Hr Hlk. pose proof F as [Es Hs Hf Hh He Ho]. case_decide as Hc.
  - destruct Hc as (H1 & H2 & H3). destruct (iput_free s ts ip inum d F Ei Hi Hr H1 H2 H3 Hlk) as (x & E & Hx).
    set (L := inode_blocks (ts_cur ts) d) in *. pose proof (inode_blocks_freeable sb (ts_cur ts) d Ho) as HL. fold L in HL.
    destruct (unmark_all_ok sb L ts Hf HL) as (Hf1 & Hu & Hcur). destruct (unmark_all_same sb L ts) as (Hh1 & _).
    destruct (truncated_ok d Hm) as [Ht1 Ht2]. pose proof (size_pos sb (fm_sb _ _ Hf)) as Hsz.
    pose proof (fmap_put sb inum (truncated d) _ Hf1 Hi (dk_len _ Ht1)) as Hf2.
    pose proof (fmap_put sb inum (freed_inode d) _ Hf2 Hi (dk_len _ Ht2)) as Hf3.
    exists x, (freed_store inum d ts). split; [exact E|]. split; [exact Hx|]. split; [exact Hf3|]. split; [exact (eq_trans Hh1 Hh)|].
    unfold freed_store. fold L. split; [rewrite (dinode_at_put sb) by done; by rewrite decide_True|]. split; [|split].
    + intros j Hj Hne. rewrite !(dinode_at_put sb) by done. rewrite !decide_False by done. unfold dinode_at. f_equal. apply Hcur.
      pose proof (iblock_bounds sb j (fm_sb _ _ Hf) Hj). unfold map_block. lia.
    + intros b Hb. rewrite !used_put by done. rewrite Hu by done. rewrite <- inode_blocks_owned. fold L. case_decide; naive_solver.
    + intros d0 Ho0 Hap. destruct (unmark_other L ts d0 Hf HL Ho0) as [Ho1 Hc1].
      { intros b Hb Hin. apply inode_blocks_owned in Hin. by apply (Hap b). }
      destruct (put_other inum (truncated d) _ d0 Hf1 Hi Ho1) as [Ho2 Hc2]. destruct (put_other inum (freed_inode d) _ d0 Hf2 Hi Ho2) as [Ho3 Hc3].
      split; [done|]. congruence.
  - unfold iput. mstep. rewrite (en_d _ _ _ He). destruct (Z.eqb_spec (i_ref (the_inode ip s)) 1); [|done].
    destruct (Z.eqb_spec (i_valid (the_inode ip s)) 0); [done|]. destruct (Z.eqb_spec (di_nlink d) 0); [|done].
    destruct Hc. done.
Qed.
End Iput.

(** * Instances *)

(** An empty file without links, referenced once, in entry 0. *)
Definition dead_file : dinode := di_set_nlink 0 empty_file.
Definition small_dead (st : logst bst) : fsys (logst bst) (gmap Z Z) :=
  mkFs small_sb (mkInode ROOTDEV 2 1 (mkSleep 0 0) 1 dead_file :: replicate 49 inhabitant) 1 0 small_mem ∅ [] st.

Lemma small_dead_file st : t_st st (small_ts true) -> file_at small_sb 0 dead_file (small_ts true) (small_dead st).
Proof.
  intros Hst. split; [done|exact Hst|apply small_fmap|done| |].
  - split; [cbn [small_dead fs_itable length]; lia|done|done].
  - pose proof (empty_ok small_sb (ts_cur (small_ts true))) as Ho. by split; try apply Ho.
Qed.

Lemma small_map_room : map_room small_sb 2 (small_ts true).
Proof. split; [done|]. apply Nat.leb_le. vm_compute. reflexivity. Qed.

Lemma iput_correct_witness : exists st s', iput 0 (small_dead st) = Ok tt s'.
Proof.
  destruct small_start as [st Hst].
  pose proof (iput_correct small_sb (small_dead st) (small_ts true) 0 2 dead_file (small_dead_file st Hst) eq_refl) as Hp.
  rewrite decide_True in Hp by done.
  destruct Hp as (x & ts' & E & _); [vm_compute; by split|vm_compute; by split_and!|exact small_map_room|done|].
  exists st. eexists. exact E.
Defined.
