(* ===== verification/XItable.v ===== *)
(** reference/xv6-riscv/kernel/fs.c: the table of inodes in memory.

    [refs t inum] counts the references to an inode; [tab_ok] is the invariant
    of the table: one entry for each referenced inode, and an entry that has
    been read agrees with the inode on disk.  [iget], [idup], [ilock],
    [iunlock] and the [iput] of an inode that is not freed are proved against
    it. *)

From Stdlib Require Import ZArith Lia.
From stdpp Require Import base strings numbers gmap list.
From S2P Require Import Prelude Mem Vm XBytes XStore XBio XLog XTxn XTx XFs XBlocks XInode XRead XWrite XIupd XFile XTrunc.

(** * References *)

Definition ref_of (inum : Z) (x : inode) : Z := if i_inum x =? inum then i_ref x else 0.
Definition refs (t : list inode) (inum : Z) : Z := foldr (fun x n => ref_of inum x + n) 0 t.

(** The entries that [iget] may recycle. *)
Definition nfree (t : list inode) : nat := length (filter (fun x => i_ref x = 0) t).

Record tab_ok (sb : superblock) (cur : Z -> block) (t : list inode) : Prop := {
  tb_len : length t = NINODE;
  tb_ref i x : t !! i = Some x -> 0 <= i_ref x;
  tb_dev i x : t !! i = Some x -> 0 < i_ref x -> i_dev x = ROOTDEV /\ inum_ok sb (i_inum x);
  tb_uniq i j x y : t !! i = Some x -> t !! j = Some y -> 0 < i_ref x -> 0 < i_ref y -> i_inum x = i_inum y -> i = j;
  tb_sync i x : t !! i = Some x -> 0 < i_ref x -> i_valid x <> 0 ->
    i_d x = dinode_at sb cur (i_inum x) /\ di_type (i_d x) <> 0
}.

(** Entry [i] of the table is a referenced entry of inode [inum]. *)
Definition entry_for (t : list inode) (i : nat) (inum : Z) : Prop :=
  exists x, t !! i = Some x /\ 0 < i_ref x /\ i_inum x = inum.

Lemma refs_insert t i x y inum : t !! i = Some x -> refs (<[i := y]> t) inum = refs t inum - ref_of inum x + ref_of inum y.
Proof.
  revert i. induction t as [|z t IH]; intros [|i] Hi; [done|done| |].
  - injection Hi as ->. cbn. lia.
  - change (ref_of inum z + refs (<[i := y]> t) inum = ref_of inum z + refs t inum - ref_of inum x + ref_of inum y).
    rewrite (IH i Hi). lia.
Qed.

Section Refs.
Context (sb : superblock) (cur : Z -> block).

Lemma refs_nonneg t inum : (forall i x, t !! i = Some x -> 0 <= i_ref x) -> 0 <= refs t inum.
Proof.
  induction t as [|z t IH]; intros Hr; [done|]. cbn. fold (refs t inum).
  pose proof (Hr 0%nat z eq_refl). pose proof (IH (fun i x Hi => Hr (S i) x Hi)). unfold ref_of. destruct (_ =? _); lia.
Qed.

Lemma refs_ge t i x inum : (forall i x, t !! i = Some x -> 0 <= i_ref x) -> t !! i = Some x -> ref_of inum x <= refs t inum.
Proof.
  revert i. induction t as [|z t IH]; intros [|i] Hr Hi; [done|done| |]; cbn; fold (refs t inum).
  - injection Hi as ->. pose proof (refs_nonneg t inum (fun i x Hi => Hr (S i) x Hi)). lia.
  - pose proof (IH i (fun i x Hi => Hr (S i) x Hi) Hi). pose proof (Hr 0%nat z eq_refl). unfold ref_of in *. destruct (i_inum z =? inum); lia.
Qed.

(** An inode without an entry has no references. *)
Lemma refs_none t inum : (forall i x, t !! i = Some x -> 0 <= i_ref x) -> (forall i, ~ entry_for t i inum) -> refs t inum = 0.
Proof.
  induction t as [|z t IH]; intros Hr Hno; [done|]. cbn. fold (refs t inum).
  rewrite (IH (fun i x Hi => Hr (S i) x Hi)); [|intros i Hi; by apply (Hno (S i))].
  pose proof (Hr 0%nat z eq_refl). unfold ref_of. destruct (Z.eqb_spec (i_inum z) inum); [|done].
  assert (~ 0 < i_ref z); [|lia]. intros Hz. apply (Hno 0%nat). by exists z.
Qed.

(** With one entry for each inode, its count is the number of references. *)
Lemma refs_entry t i x : tab_ok sb cur t -> t !! i = Some x -> 0 < i_ref x -> refs t (i_inum x) = i_ref x.
Proof.
  intros Ht Hi Hx. pose proof (refs_insert t i x (set_ref 0 x) (i_inum x) Hi) as E.
  assert (refs (<[i := set_ref 0 x]> t) (i_inum x) = 0) as E0.
  { apply refs_none.
    - intros k y Hk. destruct (decide (k = i)) as [->|Hne].
      + rewrite list_lookup_insert_eq in Hk by (by eapply lookup_lt_Some). by injection Hk as <-.
      + rewrite list_lookup_insert_ne in Hk by done. by eapply tb_ref.
    - intros k (y & Hk & Hy & En). destruct (decide (k = i)) as [->|Hne].
      + rewrite list_lookup_insert_eq in Hk by (by eapply lookup_lt_Some). by injection Hk as <-.
      + rewrite list_lookup_insert_ne in Hk by done. apply Hne. by eapply tb_uniq. }
  unfold ref_of in E. cbn [set_ref i_inum i_ref] in E. rewrite Z.eqb_refl in E. lia.
Qed.

Lemma entry_refs t i inum : tab_ok sb cur t -> entry_for t i inum -> 0 < refs t inum.
Proof. intros Ht (x & Hi & Hx & <-). by rewrite (refs_entry t i x). Qed.

Lemma refs_pos_entry t inum : tab_ok sb cur t -> 0 < refs t inum -> exists i, entry_for t i inum.
Proof.
  intros Ht Hr. destruct (decide (Exists (fun x => 0 < i_ref x /\ i_inum x = inum) t)) as [He|He].
  - apply Exists_exists in He as (x & Hx & H1 & H2). apply list_elem_of_lookup_1 in Hx as [i Hi]. exists i, x. done.
  - rewrite refs_none in Hr; [lia|by apply Ht|]. intros i (x & Hi & H1 & H2). apply He, Exists_exists. exists x.
    split; [by eapply list_elem_of_lookup_2|done].
Qed.

(** The referenced inodes. *)
Definition named (t : list inode) : list Z := i_inum <$> filter (fun x => 0 < i_ref x) t.

Lemma elem_named t inum : inum ∈ named t <-> exists i, entry_for t i inum.
Proof.
  unfold named, entry_for. rewrite list_elem_of_fmap. split.
  - intros (x & -> & Hx). apply list_elem_of_filter in Hx as [Hr Hx]. apply list_elem_of_lookup_1 in Hx as [i Hi]. by exists i, x.
  - intros (i & x & Hi & Hr & <-). exists x. split; [done|]. apply list_elem_of_filter. split; [done|]. by eapply list_elem_of_lookup_2.
Qed.

Lemma named_nodup t : (forall i j x y, t !! i = Some x -> t !! j = Some y -> 0 < i_ref x -> 0 < i_ref y -> i_inum x = i_inum y -> i = j) ->
  NoDup (named t).
Proof.
  induction t as [|z t IH]; intros Hu; [constructor|]. unfold named. rewrite filter_cons.
  assert (NoDup (named t)) as Hn.
  { apply IH. intros i j x y Hi Hj Hx Hy E. pose proof (Hu (S i) (S j) x y Hi Hj Hx Hy E). lia. }
  case_decide as Hz; [|done]. cbn [fmap list_fmap]. constructor; [|done]. change (i_inum z ∉ named t). rewrite elem_named.
  intros (j & y & Hj & Hy & En). pose proof (Hu 0%nat (S j) z y eq_refl Hj Hz Hy (eq_sym En)). done.
Qed.

Lemma nfree_named t : (forall i x, t !! i = Some x -> 0 <= i_ref x) -> (nfree t + length (named t))%nat = length t.
Proof.
  induction t as [|z t IH]; intros Hr; [done|]. specialize (IH (fun i x Hi => Hr (S i) x Hi)). pose proof (Hr 0%nat z eq_refl) as Hz.
  unfold nfree, named in *. rewrite length_fmap in *. rewrite !filter_cons.
  destruct (decide (i_ref z = 0)), (decide (0 < i_ref z)); cbn [length]; lia.
Qed.

(** One more reference takes at most one entry. *)
Lemma nfree_step t t' a : tab_ok sb cur t -> tab_ok sb cur t' -> (forall j, j <> a -> refs t' j <= refs t j) -> (nfree t <= nfree t' + 1)%nat.
Proof.
  intros Ht Ht' Hle. pose proof (nfree_named t (tb_ref _ _ _ Ht)) as E. pose proof (nfree_named t' (tb_ref _ _ _ Ht')) as E'.
  rewrite (tb_len _ _ _ Ht) in E. rewrite (tb_len _ _ _ Ht') in E'.
  assert (length (named t') <= length (a :: named t))%nat as Hl; [|cbn [length] in Hl; lia].
  apply submseteq_length, NoDup_submseteq; [by apply named_nodup, Ht'|]. intros j Hj. rewrite elem_of_cons.
  destruct (decide (j = a)) as [|Hne]; [by left|right]. rewrite elem_named in Hj |- *. destruct Hj as [i Hi].
  apply refs_pos_entry; [done|]. pose proof (entry_refs t' i j Ht' Hi). specialize (Hle j Hne). lia.
Qed.
End Refs.

(** * Updates of one entry *)

Section Update.
Context (sb : superblock) (cur : Z -> block).

(** A good entry for an inode that no other entry stands for. *)
Record ent_ok (t : list inode) (i : nat) (y : inode) : Prop := {
  eo_ref : 0 <= i_ref y;
  eo_dev : 0 < i_ref y -> i_dev y = ROOTDEV /\ inum_ok sb (i_inum y);
  eo_uniq j x : 0 < i_ref y -> t !! j = Some x -> 0 < i_ref x -> i_inum x = i_inum y -> j = i;
  eo_sync : 0 < i_ref y -> i_valid y <> 0 -> i_d y = dinode_at sb cur (i_inum y) /\ di_type (i_d y) <> 0
}.

Lemma tab_insert t i y : tab_ok sb cur t -> ent_ok t i y -> tab_ok sb cur (<[i := y]> t).
Proof.
  intros Ht Hy. assert (forall k x, <[i := y]> t !! k = Some x -> (k = i /\ x = y) \/ (k <> i /\ t !! k = Some x)) as Hc.
  { intros k x Hk. apply list_lookup_insert_Some in Hk as [(-> & -> & _)|[? ?]]; [by left|by right]. }
  split.
  - rewrite length_insert. apply Ht.
  - intros k x Hk. destruct (Hc k x Hk) as [[_ ->]|[_ Hk']]; [apply Hy|by eapply tb_ref].
  - intros k x Hk. destruct (Hc k x Hk) as [[_ ->]|[_ Hk']]; [apply Hy|by eapply tb_dev].
  - intros k l x z Hk Hl Hx Hz E. destruct (Hc k x Hk) as [[-> ->]|[Hk0 Hk']], (Hc l z Hl) as [[-> ->]|[Hl0 Hl']].
    + done.
    + symmetry. by eapply eo_uniq.
    + by eapply eo_uniq.
    + by eapply (tb_uniq _ _ _ Ht).
  - intros k x Hk. destruct (Hc k x Hk) as [[_ ->]|[_ Hk']]; [apply Hy|by eapply tb_sync].
Qed.

(** A referenced entry that stays the entry of its inode. *)
Lemma tab_change t i x y : tab_ok sb cur t -> t !! i = Some x -> 0 < i_ref x -> 0 <= i_ref y -> i_dev y = i_dev x -> i_inum y = i_inum x ->
  (0 < i_ref y -> i_valid y <> 0 -> i_d y = dinode_at sb cur (i_inum y) /\ di_type (i_d y) <> 0) -> tab_ok sb cur (<[i := y]> t).
Proof.
  intros Ht Hi Hx Hy Ed En Hs. apply tab_insert; [done|]. split; [done| |intros j z _ Hj Hz E; eapply (tb_uniq _ _ _ Ht); [done|done|done|done|congruence]|done].
  intros _. rewrite Ed, En. by apply (tb_dev _ _ _ Ht i).
Qed.

(** The table [t'] is [t] with one more reference to [inum], at entry [i]. *)
Record got (inum : Z) (i : nat) (t t' : list inode) : Prop := {
  go_tab : tab_ok sb cur t';
  go_entry : entry_for t' i inum;
  go_refs j : refs t' j = refs t j + (if decide (j = inum) then 1 else 0);
  go_other k : k <> i -> t' !! k = t !! k;
  go_same x : t !! i = Some x -> 0 < i_ref x -> i_inum x = inum /\ t' !! i = Some (set_ref (i_ref x + 1) x);
  go_new x : t' !! i = Some x -> i_ref x = 1 -> i_valid x = 0;
  go_lock : i_lock <$> t' = i_lock <$> t
}.

Lemma locks_insert (t : list inode) i x y : t !! i = Some x -> i_lock y = i_lock x -> i_lock <$> <[i := y]> t = i_lock <$> t.
Proof. intros Hi E. rewrite list_fmap_insert, E. apply list_insert_id. by rewrite list_lookup_fmap, Hi. Qed.

Lemma got_again t i x : tab_ok sb cur t -> t !! i = Some x -> 0 < i_ref x -> got (i_inum x) i t (<[i := set_ref (i_ref x + 1) x]> t).
Proof.
  intros Ht Hi Hx. pose proof (lookup_lt_Some _ _ _ Hi) as Hl. split.
  - eapply tab_change; cbn; try done; [lia|]. intros _. by eapply (tb_sync _ _ _ Ht).
  - eexists. rewrite list_lookup_insert_eq by done. split; [done|]. cbn. split; [lia|done].
  - intros j. rewrite (refs_insert t i x) by done. unfold ref_of. cbn. destruct (Z.eqb_spec (i_inum x) j); case_decide; lia.
  - intros k Hk. by apply list_lookup_insert_ne.
  - intros z Hz _. assert (z = x) as -> by congruence. split; [done|]. by apply list_lookup_insert_eq.
  - intros z Hz. rewrite list_lookup_insert_eq in Hz by done. injection Hz as <-. cbn. lia.
  - by apply (locks_insert t i x).
Qed.

Lemma got_new t i x inum : tab_ok sb cur t -> t !! i = Some x -> i_ref x = 0 -> inum_ok sb inum -> refs t inum = 0 ->
  got inum i t (<[i := set_ivalid 0 (set_ref 1 (set_iid ROOTDEV inum x))]> t).
Proof.
  intros Ht Hi Hx Hn Hr. pose proof (lookup_lt_Some _ _ _ Hi) as Hl. split.
  - apply tab_insert; [done|]. split; cbn; [lia|done| |done]. intros j y _ Hj Hy E. exfalso.
    assert (entry_for t j inum) as He by (by exists y). pose proof (entry_refs sb cur t j inum Ht He). lia.
  - eexists. rewrite list_lookup_insert_eq by done. split; [done|]. cbn. split; [lia|done].
  - intros j. rewrite (refs_insert t i x) by done. unfold ref_of. cbn. rewrite Hx.
    destruct (Z.eqb_spec (i_inum x) j), (Z.eqb_spec inum j), (decide (j = inum)); lia.
  - intros k Hk. by apply list_lookup_insert_ne.
  - intros z Hz Hz0. assert (z = x) by congruence. subst. lia.
  - intros z Hz. rewrite list_lookup_insert_eq in Hz by done. by injection Hz as <-.
  - by apply (locks_insert t i x).
Qed.
End Update.

(** The table after the inode of a referenced entry has been written to disk. *)
Lemma tab_written sb cur cur' t ip inum d' : tab_ok sb cur t -> entry_for t ip inum -> dinode_at sb cur' inum = d' -> di_type d' <> 0 ->
  (forall j, inum_ok sb j -> j <> inum -> dinode_at sb cur' j = dinode_at sb cur j) -> tab_ok sb cur' (alter (set_d d') ip t).
Proof.
  intros Ht (x & Hx & Hr & En) Ed Hty Hoth.
  assert (forall k z, alter (set_d d') ip t !! k = Some z -> exists y, t !! k = Some y /\ z = if decide (k = ip) then set_d d' y else y) as Hc.
  { intros k z. destruct (decide (k = ip)) as [->|Hne].
    - rewrite list_lookup_alter_eq, Hx. intros [= <-]. by exists x.
    - rewrite list_lookup_alter_ne by done. intros Hz. by exists z. }
  assert (forall k y, i_ref (if decide (k = ip) then set_d d' y else y) = i_ref y /\ i_inum (if decide (k = ip) then set_d d' y else y) = i_inum y /\
    i_dev (if decide (k = ip) then set_d d' y else y) = i_dev y /\ i_valid (if decide (k = ip) then set_d d' y else y) = i_valid y) as Hs by (intros; by case_decide).
  split.
  - rewrite length_alter. apply Ht.
  - intros k z Hk. destruct (Hc k z Hk) as (y & Hy & ->). destruct (Hs k y) as (-> & _). by eapply tb_ref.
  - intros k z Hk. destruct (Hc k z Hk) as (y & Hy & ->). destruct (Hs k y) as (-> & -> & -> & _). by eapply tb_dev.
  - intros k l z w Hk Hl. destruct (Hc k z Hk) as (y & Hy & ->), (Hc l w Hl) as (v & Hv & ->).
    destruct (Hs k y) as (-> & -> & _), (Hs l v) as (-> & -> & _). by eapply (tb_uniq _ _ _ Ht).
  - intros k z Hk. destruct (Hc k z Hk) as (y & Hy & ->). destruct (Hs k y) as (-> & -> & _ & ->). intros Hyr Hyv.
    destruct (decide (k = ip)) as [->|Hne]; [rewrite Hx in Hy; injection Hy as <-; cbn [set_d i_d]; by rewrite En, Ed|].
    destruct (tb_dev _ _ _ Ht k y Hy Hyr) as [_ Hi]. rewrite Hoth; [by eapply tb_sync|done|].
    intros E. apply Hne. eapply (tb_uniq _ _ _ Ht); [exact Hy|exact Hx|done|done|congruence].
Qed.

(** * iget *)

Definition matches (dev inum : Z) (x : inode) : bool := (0 <? i_ref x) && (i_dev x =? dev) && (i_inum x =? inum).

(** The scan stops at the first match; without one it has seen the first free
    entry, if there is any. *)
Lemma iget_scan_ok l : forall k dev inum e, match iget_scan l k dev inum e with
  | (Some i, _) => exists j x, i = (k + j)%nat /\ l !! j = Some x /\ matches dev inum x = true
  | (None, o) => (forall x, x ∈ l -> matches dev inum x = false) /\
      match e with
      | Some _ => o = e
      | None => match o with
        | Some i => exists j x, i = (k + j)%nat /\ l !! j = Some x /\ i_ref x = 0
        | None => filter (fun x => i_ref x = 0) l = []
        end
      end
  end.
Proof.
  induction l as [|x l IH]; intros k dev inum e; cbn [iget_scan].
  - split; [|by destruct e]. intros x Hx. by apply elem_of_nil in Hx.
  - fold (matches dev inum x). destruct (matches dev inum x) eqn:Em; [exists 0%nat, x; split_and!; [lia|done|done]|].
    specialize (IH (S k) dev inum (match e with None => if i_ref x =? 0 then Some k else None | Some _ => e end)).
    destruct (iget_scan l (S k) dev inum _) as [[i|] o].
    + destruct IH as (j & y & -> & Hj & Hy). exists (S j), y. split_and!; [lia|done|done].
    + destruct IH as [Hno Ho]. split; [intros y [->|Hy]%elem_of_cons; auto|]. destruct e as [i|]; [done|].
      rewrite filter_cons. destruct (Z.eqb_spec (i_ref x) 0) as [E0|E0].
      * subst o. exists 0%nat, x. split_and!; [lia|done|done].
      * rewrite decide_False by done. destruct o as [i|]; [|done]. destruct Ho as (j & y & -> & Hj & Hy).
        exists (S j), y. split_and!; [lia|done|done].
Qed.

Section Iget.
Context {St : Type} `{TxStore St} {U : Type} `{CopyMem U}.
Implicit Types s : fsys St U.
Context (sb : superblock) (cur : Z -> block).

Lemma iupdf_tab i f x s : fs_itable s !! i = Some x -> iupdf i f s = with_itable (<[i := f x]> (fs_itable s)) s.
Proof. intros Hi. unfold iupdf. f_equal. rewrite list_insert_alter. apply list_alter_ext; [|done]. intros z Hz. congruence. Qed.

(** The table with a few updates of entry [i]. *)
Lemma iupd_tab i f x t s : t !! i = Some x -> iupd i f (with_itable t s) = Ok tt (with_itable (<[i := f x]> t) s).
Proof. intros Hi. unfold iupd, modify. by rewrite (iupdf_tab i f x (with_itable t s) Hi). Qed.

Lemma with_itable_self s : with_itable (fs_itable s) s = s.
Proof. by destruct s. Qed.

Lemma iget_run s inum : tab_ok sb cur (fs_itable s) -> inum_ok sb inum -> refs (fs_itable s) inum < 2 ^ 31 - 1 ->
  if decide (0 < refs (fs_itable s) inum \/ nfree (fs_itable s) <> 0%nat) then
    exists i t', iget ROOTDEV inum s = Ok i (with_itable t' s) /\ got sb cur inum i (fs_itable s) t'
  else iget ROOTDEV inum s = Panic "iget: no inodes" s.
Proof.
  intros Ht Hn Hr. set (t := fs_itable s) in *. unfold iget. mstep. fold t. pose proof (iget_scan_ok t 0 ROOTDEV inum None) as Hs.
  destruct (iget_scan t 0 ROOTDEV inum None) as [[i|] o].
  - destruct Hs as (j & x & -> & Hj & Hm). cbn [Nat.add]. apply andb_prop in Hm as [[Hx%Z.ltb_lt Hd]%andb_prop E%Z.eqb_eq].
    subst inum. rewrite (refs_entry sb cur t j x Ht Hj Hx) in *. rewrite decide_True by (by left).
    exists j, (<[j := set_ref (i_ref x + 1) x]> t). split; [|by apply got_again].
    rewrite <- (with_itable_self s) at 1. mrun (iupd_tab j (fun x => set_ref (s32 (i_ref x + 1)) x) x t s Hj).
    rewrite s32_small by lia. done.
  - destruct Hs as [Hno Ho]. assert (refs t inum = 0) as Hr0.
    { apply refs_none; [apply Ht|]. intros i (x & Hi & Hx & E). destruct (tb_dev _ _ _ Ht i x Hi Hx) as [Ed _].
      pose proof (Hno x (list_elem_of_lookup_2 _ _ _ Hi)) as Hm. unfold matches in Hm.
      rewrite (proj2 (Z.ltb_lt _ _) Hx), Ed, E, !Z.eqb_refl in Hm. done. }
    destruct o as [i|].
    + destruct Ho as (j & x & -> & Hj & Hx). rewrite decide_True.
      2: { right. intros Hz. apply nil_length_inv in Hz.
           assert (x ∈ filter (fun x => i_ref x = 0) t) as Hin by (apply list_elem_of_filter; split; [done|by eapply list_elem_of_lookup_2]).
           rewrite Hz in Hin. by apply elem_of_nil in Hin. }
      cbn [Nat.add]. exists j. eexists. split; [|by apply (got_new sb cur t j x)]. pose proof (lookup_lt_Some _ _ _ Hj) as Hl.
      rewrite <- (with_itable_self s) at 1. fold t. mrun (iupd_tab j (set_iid ROOTDEV inum) x t s Hj).
      mrun (iupd_tab j (set_ref 1) _ _ s (list_lookup_insert_eq t j (set_iid ROOTDEV inum x) Hl)). rewrite list_insert_insert_eq.
      mrun (iupd_tab j (set_ivalid 0) _ _ s (list_lookup_insert_eq t j (set_ref 1 (set_iid ROOTDEV inum x)) Hl)).
      by rewrite list_insert_insert_eq.
    + rewrite decide_False; [done|]. rewrite Hr0. unfold nfree. rewrite Ho. cbn. intros [?|?]; [lia|done].
Qed.
(** C20: [iget] gives a reference to an inode: the entry the table has for it,
    untouched but for the count, or else a free entry that becomes the only one
    for this inode and is to be read from disk.  Exactly its count grows, and
    no lock and no other entry changes.  It panics only when every entry is
    taken by other inodes. *)
Theorem iget_correct s inum : tab_ok sb cur (fs_itable s) -> inum_ok sb inum -> refs (fs_itable s) inum < 2 ^ 31 - 1 ->
  if decide (0 < refs (fs_itable s) inum \/ nfree (fs_itable s) <> 0%nat) then
    exists i t', iget ROOTDEV inum s = Ok i (with_itable t' s) /\ got sb cur inum i (fs_itable s) t'
  else iget ROOTDEV inum s = Panic "iget: no inodes" s.
Proof. apply iget_run. Qed.
End Iget.

(** * ilock, iunlock, idup and iput of an inode that stays *)

Section Ilock.
Context {St : Type} `{TxStore St} {U : Type} `{CopyMem U}.
Implicit Types s : fsys St U.
Context (sb : superblock).

(** No block is locked, and the table agrees with the disk. *)
Record ready (ts : tstore) (s : fsys St U) : Prop := {
  rd_sb : fs_sb s = sb;
  rd_st : t_st (fs_st s) ts;
  rd_fmap : fmap_ok sb ts;
  rd_held : ts_held ts = ∅;
  rd_tab : tab_ok sb (ts_cur ts) (fs_itable s)
}.

(** The state with another table, kernel memory and disk. *)
Definition moved (t : list inode) (m : mem) (x : St) (s : fsys St U) : fsys St U := with_st x (with_km m (with_itable t s)).

Lemma ready_moved ts s t m x : ready ts s -> tab_ok sb (ts_cur ts) t -> t_st x ts -> ready ts (moved t m x s).
Proof. intros [] Ht Hx. by split. Qed.

Lemma the_inode_tab i x s : fs_itable s !! i = Some x -> the_inode i s = x.
Proof. intros Hi. by apply list_lookup_total_correct. Qed.

(** The locked entry, with the inode of the disk. *)
Definition lock_entry (cur : Z -> block) (pid : Z) (x : inode) : inode :=
  mkInode (i_dev x) (i_inum x) (i_ref x) (mkSleep 1 pid) (if i_valid x =? 0 then 1 else i_valid x) (dinode_at sb cur (i_inum x)).

Lemma tab_lock cur t i x pid : tab_ok sb cur t -> t !! i = Some x -> 0 < i_ref x -> di_type (dinode_at sb cur (i_inum x)) <> 0 ->
  tab_ok sb cur (<[i := lock_entry cur pid x]> t).
Proof. intros Ht Hi Hx Hty. apply (tab_change sb cur t i x); try done. cbn. lia. Qed.

Lemma ilock_run ts s i x : ready ts s -> fs_itable s !! i = Some x -> 0 < i_ref x -> sl_locked (i_lock x) = 0 ->
  let d := dinode_at sb (ts_cur ts) (i_inum x) in
  if decide (i_valid x = 0 /\ di_type d = 0) then exists s', ilock (Some i) s = Panic "ilock: no type" s' else
  exists y, ilock (Some i) s = Ok tt (moved (<[i := lock_entry (ts_cur ts) (fs_pid s) x]> (fs_itable s)) (fs_km s) y s) /\
    t_st y ts /\ di_type d <> 0.
Proof.
  intros [Es Hs Hf Hh Ht] Hi Hx Hlk d. destruct (tb_dev _ _ _ Ht i x Hi Hx) as [Ed Hn].
  pose proof (lookup_lt_Some _ _ _ Hi) as Hl. unfold ilock. mstep. rewrite (the_inode_tab i x s Hi), (proj2 (Z.ltb_ge _ _)) by lia.
  assert (iacquire i s = Ok tt (with_itable (<[i := set_ilock (mkSleep 1 (fs_pid s)) x]> (fs_itable s)) s)) as E1.
  { unfold iacquire. mstep. rewrite (the_inode_tab i x s Hi), Hlk. cbn [Z.eqb negb]. mstep. unfold iupd, modify.
    by rewrite (iupdf_tab i _ x s Hi). }
  mrun E1. destruct (Z.eqb_spec (i_valid x) 0) as [Ev|Ev].
  2: { destruct (tb_sync _ _ _ Ht i x Hi Hx Ev) as [Esy Hty]. rewrite decide_False by tauto. exists (fs_st s).
       split; [|split; [done|unfold d; by rewrite <- Esy]]. unfold lock_entry. rewrite (proj2 (Z.eqb_neq _ _) Ev), <- Esy. done. }
  set (s1 := with_itable _ s). mstep. change (fs_sb s1) with (fs_sb s). rewrite Ed, Es.
  pose proof (iblock_lock sb (i_inum x) ts Hf Hh Hn) as Hcl. destruct (bread_run s1 ts _ Hs Hcl) as (h & y & E2 & Hy). mrun E2.
  mrun (bdata_run (with_st y s1) _ _ h Hy (lookup_insert_eq _ _ _)). cbn [ts_take ts_cur]. fold (idx (i_inum x)).
  change (get_dinode (idx (i_inum x)) (ts_cur ts (IBLOCK (i_inum x) sb))) with d. cbv zeta.
  set (x1 := set_ilock (mkSleep 1 (fs_pid s)) x) in *.
  assert (fs_itable (with_st y s1) !! i = Some x1) as Hi1 by (by apply list_lookup_insert_eq).
  unfold dupd. rewrite (bind_ok _ _ _ tt (with_st y (with_itable (<[i := set_d d x1]> (fs_itable s)) s))).
  2: { unfold iupd, modify. rewrite (iupdf_tab i _ x1 _ Hi1). cbn [with_st s1 with_itable fs_itable]. rewrite list_insert_insert_eq. done. }
  set (s2 := with_st y _). destruct (brelse_tx s2 (ts_take (IBLOCK (i_inum x) sb) h ts) (IBLOCK (i_inum x) sb) h Hy (lookup_insert_eq _ _ _))
    as (y' & E3 & Hy'). rewrite ts_take_drop in Hy' by apply Hcl. mrun E3.
  rewrite (bind_ok _ _ _ tt (moved (<[i := set_ivalid 1 (set_d d x1)]> (fs_itable s)) (fs_km s) y' s)).
  2: { unfold iupd, modify. rewrite (iupdf_tab i _ (set_d d x1) (with_st y' s2)) by (by apply list_lookup_insert_eq).
       cbn [with_st s2 with_itable fs_itable]. rewrite list_insert_insert_eq. done. }
  destruct (Z.eqb_spec (di_type d) 0) as [Et|Et]; [rewrite decide_True by done; by eexists|]. rewrite decide_False by tauto.
  exists y'. split; [|done]. unfold lock_entry. by rewrite Ev.
Qed.

Lemma iunlock_run s i x : fs_itable s !! i = Some x -> 0 < i_ref x -> i_lock x = mkSleep 1 (fs_pid s) ->
  iunlock (Some i) s = Ok tt (with_itable (<[i := set_ilock (mkSleep 0 0) x]> (fs_itable s)) s).
Proof.
  intros Hi Hx Hlk. unfold iunlock. mstep. unfold iholding. rewrite (the_inode_tab i x s Hi), Hlk. cbn [sl_locked sl_pid].
  rewrite Z.eqb_refl. cbn [negb andb orb Z.eqb]. rewrite (proj2 (Z.ltb_ge _ _)) by lia. unfold irelease, iupd, modify.
  by rewrite (iupdf_tab i _ x s Hi).
Qed.

Lemma idup_run s cur i x : tab_ok sb cur (fs_itable s) -> fs_itable s !! i = Some x -> 0 < i_ref x < 2 ^ 31 - 1 ->
  exists t', idup i s = Ok i (with_itable t' s) /\ got sb cur (i_inum x) i (fs_itable s) t'.
Proof.
  intros Ht Hi Hx. eexists. split; [|by apply (got_again sb cur _ i x); [| |lia]]. unfold idup.
  rewrite (bind_ok _ _ _ tt (with_itable (<[i := set_ref (i_ref x + 1) x]> (fs_itable s)) s)); [done|].
  unfold iupd, modify. rewrite (iupdf_tab i _ x s Hi). by rewrite s32_small by lia.
Qed.

(** One reference less. *)
Record dropped (cur : Z -> block) (inum : Z) (i : nat) (t t' : list inode) : Prop := {
  dr_tab : tab_ok sb cur t';
  dr_refs j : refs t' j = refs t j - (if decide (j = inum) then 1 else 0);
  dr_other k : k <> i -> t' !! k = t !! k;
  dr_lock : i_lock <$> t' = i_lock <$> t
}.

Lemma drop_tab cur t i x : tab_ok sb cur t -> t !! i = Some x -> 0 < i_ref x -> dropped cur (i_inum x) i t (<[i := set_ref (i_ref x - 1) x]> t).
Proof.
  intros Ht Hi Hx. split.
  - eapply tab_change; cbn; try done; [lia|]. intros _. by eapply (tb_sync _ _ _ Ht).
  - intros j. rewrite (refs_insert t i x) by done. unfold ref_of. cbn. destruct (Z.eqb_spec (i_inum x) j); case_decide; lia.
  - intros k Hk. by apply list_lookup_insert_ne.
  - by apply (locks_insert t i x).
Qed.

(** [iput] of an inode that has a link, or another reference. *)
Lemma iput_stays s i x : fs_itable s !! i = Some x -> 0 < i_ref x < 2 ^ 31 ->
  (i_valid x = 0 \/ i_ref x <> 1 \/ di_nlink (i_d x) <> 0) ->
  iput i s = Ok tt (with_itable (<[i := set_ref (i_ref x - 1) x]> (fs_itable s)) s).
Proof.
  intros Hi Hx Hc. unfold iput. mstep. rewrite (the_inode_tab i x s Hi).
  assert ((i_ref x =? 1) && negb (i_valid x =? 0) && (di_nlink (i_d x) =? 0) = false) as ->.
  { destruct (Z.eqb_spec (i_ref x) 1), (Z.eqb_spec (i_valid x) 0), (Z.eqb_spec (di_nlink (i_d x)) 0); try done. exfalso. tauto. }
  mstep. unfold iupd, modify. rewrite (iupdf_tab i _ x s Hi). by rewrite s32_small by lia.
Qed.
End Ilock.

(** * Instances *)

(** A table with one referenced entry. *)
Definition one_entry (y : inode) : list inode := y :: replicate 49 inhabitant.

Lemma one_entry_free y i x : one_entry y !! i = Some x -> 0 < i_ref x -> i = 0%nat /\ x = y.
Proof.
  destruct i as [|i]; [intros [= <-]; done|]. intros Hx Hr. cbn [one_entry lookup list_lookup] in Hx. apply lookup_replicate in Hx as [-> _].
  cbn in Hr. lia.
Qed.

Lemma tab_one sb cur y : 0 < i_ref y -> i_dev y = ROOTDEV -> inum_ok sb (i_inum y) ->
  (i_valid y <> 0 -> i_d y = dinode_at sb cur (i_inum y) /\ di_type (i_d y) <> 0) -> tab_ok sb cur (one_entry y).
Proof.
  intros Hr Hd Hi Hs. split.
  - done.
  - intros [|i] x Hx; [injection Hx as <-; lia|]. cbn [one_entry lookup list_lookup] in Hx. apply lookup_replicate in Hx as [-> _]. done.
  - intros i x Hx Hx0. by destruct (one_entry_free y i x Hx Hx0) as [_ ->].
  - intros i j x z Hx Hz Hx0 Hz0 _. destruct (one_entry_free y i x Hx Hx0) as [-> _], (one_entry_free y j z Hz Hz0) as [-> _]. done.
  - intros i x Hx Hx0. by destruct (one_entry_free y i x Hx Hx0) as [_ ->].
Qed.

Lemma one_entry_refs y j : refs (one_entry y) j = ref_of j y.
Proof.
  change (ref_of j y + refs (replicate 49 inhabitant) j = ref_of j y). rewrite refs_none; [lia| |].
  - intros i x Hx. by apply lookup_replicate in Hx as [-> _].
  - intros i (x & Hx & Hr & _). apply lookup_replicate in Hx as [-> _]. cbn in Hr. lia.
Qed.

(** Inode 2, referenced once and not read yet. *)
Definition fresh_entry : inode := mkInode ROOTDEV 2 1 (mkSleep 0 0) 0 zero_dinode.
Definition fresh_fs (st : logst bst) : fsys (logst bst) (gmap Z Z) := mkFs small_sb (one_entry fresh_entry) 1 0 ∅ ∅ [] st.

Lemma iget_correct_witness : exists st i t', iget ROOTDEV 3 (fresh_fs st) = Ok i (with_itable t' (fresh_fs st)) /\ refs t' 3 = 1.
Proof.
  destruct small_start as [st _].
  pose proof (iget_correct small_sb small_cur (fresh_fs st) 3) as Hg.
  destruct (decide (0 < refs (fs_itable (fresh_fs st)) 3 \/ nfree (fs_itable (fresh_fs st)) <> 0%nat)) as [_|Hno].
  - destruct Hg as (i & t' & E & G); [|vm_compute; by split|vm_compute; reflexivity|].
    + apply tab_one; [cbn; lia|done|vm_compute; by split|done].
    + exists st, i, t'. split; [exact E|]. rewrite (go_refs _ _ _ _ _ _ G). vm_compute. reflexivity.
  - destruct Hno. right. vm_compute. discriminate.
Defined.
