(* ===== verification/XDir.v ===== *)
(** reference/xv6-riscv/kernel/fs.c: directories.

    The content of a directory is a list of entries, an inode number and 14
    bytes of name each; [dfind] is the first entry in use with a name.
    [dirlookup] and [dirlink] are proved against it. *)

From Stdlib Require Import ZArith Lia.
From stdpp Require Import base strings numbers gmap list.
From S2P Require Import Prelude Mem Vm XBytes XStore XBio XLog XTxn XTx XFs XBlocks XInode XRead XWrite XIupd XFile XTrunc XItable.

(** * Names *)

(** The name in a buffer: at most [n] bytes, up to the first NUL. *)
Fixpoint cstr (n : nat) (l : list Z) : list Z :=
  match n, l with
  | S n', c :: l' => if c =? 0 then [] else c :: cstr n' l'
  | _, _ => []
  end.

Lemma strncmp_eq n : forall p q, byte_list p -> byte_list q -> strncmp n p q = 0 <-> cstr n p = cstr n q.
Proof.
  induction n as [|n IH]; intros p q Hp Hq; [done|].
  assert (forall l, byte_list l -> 0 <= hd 0 l < 256) as Hhd by (intros [|c l] Hl; [cbn; lia|by apply Forall_cons_1 in Hl as [? _]]).
  pose proof (Hhd p Hp) as Hp0. pose proof (Hhd q Hq) as Hq0. cbn [strncmp]. rewrite !u8_small by done.
  destruct p as [|a p], q as [|b q]; cbn [hd tl cstr] in *.
  - done.
  - rewrite Z.eqb_refl. cbn [negb andb]. destruct (Z.eqb_spec b 0); split; try done; lia.
  - destruct (Z.eqb_spec a 0) as [->|Ha]; [done|]. cbn [negb andb]. split; [lia|done].
  - apply Forall_cons_1 in Hp as [_ Hp]. apply Forall_cons_1 in Hq as [_ Hq].
    destruct (Z.eqb_spec a 0) as [->|Ha]; cbn [negb andb].
    + destruct (Z.eqb_spec b 0); split; try done; lia.
    + destruct (Z.eqb_spec a b) as [->|Hab].
      * destruct (Z.eqb_spec b 0); [done|]. rewrite (IH p q) by done. split; [congruence|by intros [= ?]].
      * destruct (Z.eqb_spec b 0); split; try done; try lia. by intros [= ? _].
Qed.

Lemma namecmp_eq p q : byte_list p -> byte_list q -> namecmp p q = 0 <-> cstr DIRSIZ p = cstr DIRSIZ q.
Proof. apply strncmp_eq. Qed.

Lemma strncpy_length n : forall t, length (strncpy n t) = n.
Proof. induction n as [|n IH]; intros t; [done|]. cbn [strncpy]. destruct (_ =? _); [by rewrite length_replicate|cbn; by rewrite IH]. Qed.

Lemma strncpy_bytes n : forall t, byte_list t -> byte_list (strncpy n t).
Proof.
  induction n as [|n IH]; intros t Ht; [constructor|]. cbn [strncpy]. destruct (_ =? _) eqn:E.
  - apply Forall_replicate. lia.
  - destruct t as [|c t]; [done|]. apply Forall_cons_1 in Ht as [Hc Ht]. constructor; [done|by apply IH].
Qed.

(** The name survives the copy into the entry. *)
Lemma cstr_strncpy n : forall t, cstr n (strncpy n t) = cstr n t.
Proof.
  induction n as [|n IH]; intros t; [done|]. destruct t as [|c t]; [done|]. cbn [strncpy hd tl cstr].
  destruct (Z.eqb_spec c 0) as [->|Hc]; [done|]. cbn [cstr]. by rewrite IH, (proj2 (Z.eqb_neq c 0)).
Qed.

(** * Entries *)

Notation dirent := (Z * list Z)%type.
Definition dirent_at (c : list Z) (k : nat) : dirent := (of_le (slice (16 * k) 2 c), slice (16 * k + 2) DIRSIZ c).
Definition dir_entries (c : list Z) : list dirent := dirent_at c <$> seq 0 (length c / 16).

(** An entry in use for [name]. *)
Definition entry_named (name : list Z) (e : dirent) : Prop := e.1 <> 0 /\ cstr DIRSIZ e.2 = cstr DIRSIZ name.
#[export] Instance entry_named_dec name e : Decision (entry_named name e).
Proof. unfold entry_named. apply _. Defined.

(** The first one, and the inode a directory has for a name. *)
Definition dfind (c name : list Z) : option (nat * dirent) := list_find (entry_named name) (dir_entries c).
Definition dget (c name : list Z) : option Z := (fun p => p.2.1) <$> dfind c name.

(** The bytes of an entry. *)
Definition dirent_bytes (inum : Z) (name : list Z) : list Z := le_bytes 2 inum ++ strncpy DIRSIZ name.

Lemma dirent_bytes_length inum name : length (dirent_bytes inum name) = 16%nat.
Proof. unfold dirent_bytes. by rewrite length_app, le_bytes_length, strncpy_length. Qed.

(** Entry [k] after 16 bytes were stored at entry [j]. *)
Lemma slice_write_in (c l : list Z) o n : (o + n <= length l)%nat -> forall off, (off <= length c)%nat ->
  slice (off + o) n (splice off l c) = slice o n l.
Proof.
  intros Hn off Ho. unfold slice, splice. rewrite drop_app_ge by (rewrite length_take; lia). rewrite length_take.
  replace (off + o - off `min` length c)%nat with o by lia. rewrite drop_app_le by lia. rewrite take_app_le; [done|]. rewrite length_drop. lia.
Qed.

Lemma slice_write_out (c l : list Z) off o n : (off <= length c)%nat -> (o + n <= off \/ off + length l <= o)%nat ->
  slice o n (splice off l c) = slice o n c.
Proof.
  intros Ho Hc. apply list_eq. intros i. destruct (decide (i < n)%nat).
  2: { rewrite !lookup_ge_None_2; [done| |]; unfold slice; rewrite length_take; lia. }
  rewrite !lookup_slice by done. unfold splice. destruct Hc as [Hc|Hc].
  - rewrite lookup_app_l by (rewrite length_take; lia). by rewrite lookup_take_lt by lia.
  - rewrite lookup_app_r by (rewrite length_take; lia). rewrite length_take. replace (off `min` length c)%nat with off by lia.
    rewrite lookup_app_r by lia. rewrite lookup_drop. f_equal. lia.
Qed.

(** An element stored at a place of a list, or behind its end. *)
Definition put_at {A} (j : nat) (e : A) (l : list A) : list A := take j l ++ e :: drop (S j) l.

Lemma find_put_new {A} (P : A -> Prop) `{!forall x, Decision (P x)} (l : list A) : forall j e, P e -> list_find P l = None ->
  snd <$> list_find P (put_at j e l) = Some e.
Proof.
  induction l as [|x l IH]; intros j e He Hn; unfold put_at.
  - rewrite take_nil, drop_nil. cbn. by rewrite decide_True.
  - cbn in Hn. destruct (decide (P x)) as [|Hx]; [done|]. destruct (list_find P l) eqn:El; [done|].
    destruct j as [|j]; cbn; [by rewrite decide_True|]. rewrite decide_False by done. specialize (IH j e He eq_refl). unfold put_at in IH.
    destruct (list_find P (take j l ++ e :: drop (S j) l)) as [[k y]|]; cbn in *; congruence.
Qed.

Lemma find_put_other {A} (P : A -> Prop) `{!forall x, Decision (P x)} (l : list A) : forall j e, ~ P e -> (forall x, l !! j = Some x -> ~ P x) ->
  snd <$> list_find P (put_at j e l) = snd <$> list_find P l.
Proof.
  induction l as [|x l IH]; intros j e He Hn; unfold put_at.
  - rewrite take_nil, drop_nil. cbn. by rewrite decide_False.
  - destruct j as [|j].
    + cbn. rewrite decide_False by done. rewrite drop_0, (decide_False (P := P x)) by (by apply Hn). done.
    + cbn. destruct (decide (P x)); [done|]. specialize (IH j e He Hn). unfold put_at in IH.
      destruct (list_find P (take j l ++ e :: drop (S j) l)) as [[k y]|], (list_find P l) as [[k' y']|]; cbn in *; congruence.
Qed.

Lemma dir_entries_lookup c n k : length c = (16 * n)%nat -> (k < n)%nat -> dir_entries c !! k = Some (dirent_at c k).
Proof.
  intros Hc Hk. unfold dir_entries. rewrite Hc. replace (16 * n / 16)%nat with n by (rewrite Nat.mul_comm, Nat.div_mul; done).
  rewrite list_lookup_fmap, lookup_seq_lt by done. done.
Qed.

Lemma dir_entries_length c n : length c = (16 * n)%nat -> length (dir_entries c) = n.
Proof. intros Hc. unfold dir_entries. rewrite length_fmap, length_seq, Hc. by rewrite Nat.mul_comm, Nat.div_mul. Qed.

(** The entries after one is written. *)
Lemma dir_entries_write c n j inum name : length c = (16 * n)%nat -> (j <= n)%nat -> 0 <= inum < 2 ^ 16 ->
  dir_entries (splice (16 * j) (dirent_bytes inum name) c) = put_at j (inum, strncpy DIRSIZ name) (dir_entries c).
Proof.
  intros Hc Hj Hi. pose proof (dirent_bytes_length inum name) as Hl. set (l := dirent_bytes inum name) in *.
  assert (length (splice (16 * j) l c) = 16 * (n `max` (j + 1)))%nat as Hc'.
  { unfold splice. rewrite !length_app, length_take, length_drop, Hl, Hc. lia. }
  pose proof (dir_entries_length _ _ Hc) as Hn. apply list_eq. intros k. unfold put_at.
  destruct (decide (k < n `max` (j + 1))%nat) as [Hk|Hk].
  2: { rewrite !lookup_ge_None_2; [done| |rewrite (dir_entries_length _ _ Hc'); lia].
       rewrite length_app. cbn [length]. rewrite length_take, length_drop, Hn. lia. }
  rewrite (dir_entries_lookup _ _ k Hc') by done. unfold dirent_at. destruct (lt_eq_lt_dec k j) as [[Hlt| ->]|Hgt].
  - rewrite lookup_app_l by (rewrite length_take; lia). rewrite lookup_take_lt by done. rewrite (dir_entries_lookup c n) by lia.
    unfold dirent_at. rewrite !slice_write_out by (unfold DIRSIZ; lia). done.
  - rewrite lookup_app_r by (rewrite length_take; lia). rewrite length_take, Hn. replace (j - j `min` n)%nat with 0%nat by lia. rewrite lookup_cons.
    replace (16 * j)%nat with (16 * j + 0)%nat at 1 by lia. rewrite !slice_write_in by (rewrite ?Hl; unfold DIRSIZ; lia).
    unfold l, dirent_bytes, slice. rewrite drop_0, take_app_length' by (by rewrite le_bytes_length).
    rewrite drop_app_length' by (by rewrite le_bytes_length). rewrite take_ge by (by rewrite strncpy_length). rewrite of_le_le_bytes.
    change (256 ^ Z.of_nat 2) with (2 ^ 16). by rewrite Z.mod_small by done.
  - rewrite lookup_app_r by (rewrite length_take; lia). rewrite length_take, Hn. replace (k - j `min` n)%nat with (S (k - S j)) by lia.
    rewrite lookup_cons, lookup_drop. replace (S j + (k - S j))%nat with k by lia. rewrite (dir_entries_lookup c n) by lia.
    unfold dirent_at. rewrite !slice_write_out by (unfold DIRSIZ; lia). done.
Qed.

(** A directory with a new entry: its name has the new inode, the others are as
    before. *)
Lemma dget_write c n j inum name name' : length c = (16 * n)%nat -> (j <= n)%nat -> 0 < inum < 2 ^ 16 ->
  (forall e, dir_entries c !! j = Some e -> e.1 = 0) -> dfind c name = None ->
  dget (splice (16 * j) (dirent_bytes inum name) c) name' = if decide (cstr DIRSIZ name' = cstr DIRSIZ name) then Some inum else dget c name'.
Proof.
  intros Hc Hj Hi Hfree Hno. unfold dget, dfind. rewrite (dir_entries_write c n) by (done || lia).
  assert (forall o : option (nat * dirent), (fun p => p.2.1) <$> o = fst <$> (snd <$> o)) as Hc2 by (by intros [[]|]).
  rewrite !Hc2. case_decide as E.
  - rewrite find_put_new; [done| |].
    + split; [cbn; lia|]. cbn [snd]. rewrite cstr_strncpy. done.
    + unfold dfind in Hno. apply list_find_None. apply list_find_None in Hno. eapply Forall_impl; [exact Hno|]. intros e He Hn. apply He.
      destruct Hn as [? ?]. split; [done|congruence].
  - rewrite find_put_other; [done| |].
    + intros [_ Hn]. cbn [snd] in Hn. rewrite cstr_strncpy in Hn. congruence.
    + intros e He [Hn _]. by apply Hn, Hfree.
Qed.

(** * dirlookup *)

Section Dir.
Context {St : Type} `{TxStore St} {U : Type} `{CopyMem U}.
Implicit Types s : fsys St U.
Context (sb : superblock) (de : Z) (Hde : 0 <= de /\ de + 16 < 2 ^ 64).

(** A directory that can be read. *)
Record dir_at (ip : nat) (d : dinode) (n : nat) (ts : tstore) (s : fsys St U) : Prop := {
  da_file : file_at sb ip d ts s;
  da_type : di_type d = T_DIR;
  da_size : di_size d = 16 * Z.of_nat n
}.

(** Kernel memory changes in the local variable only. *)
Definition local (m m' : mem) : Prop := forall a, ~ (de <= a < de + 16) -> load8 m' a = load8 m a.

Lemma dir_length cur d n : di_size d = 16 * Z.of_nat n -> length (fcontent cur d) = (16 * n)%nat.
Proof. intros Hn. rewrite fcontent_length. lia. Qed.

Lemma load_copied m o k (l : list Z) : (o + k <= length l)%nat ->
  (forall a, de <= a < de + Z.of_nat (length l) -> load8 m a = l !!! Z.to_nat (a - de)) -> load_bytes m (de + Z.of_nat o) k = slice o k l.
Proof.
  intros Hk Hm. apply list_eq. intros i. destruct (decide (i < k)%nat).
  - rewrite load_bytes_lookup, lookup_slice by done. rewrite Hm by lia. rewrite list_lookup_lookup_total_lt by lia. do 2 f_equal. lia.
  - rewrite !lookup_ge_None_2; [done| |].
    + unfold slice. rewrite length_take. lia.
    + rewrite load_bytes_length. lia.
Qed.

Lemma fcontent_bytes ts d : fmap_ok sb ts -> inode_ok sb (ts_cur ts) d -> byte_list (fcontent (ts_cur ts) d).
Proof.
  intros Hf Ho. apply Forall_fmap, Forall_forall. intros i Hi%elem_of_zseq. pose proof (io_size _ _ _ Ho). pose proof (size_pos sb (fm_sb _ _ Hf)).
  destruct (full_at sb (ts_cur ts) d i Ho) as [Hr Hk]; [lia|]. unfold compose, fbyte. apply byte_total.
  destruct (io_data _ _ _ Ho (slot_of (i / BSZ))) as [Hs _]; [|exact Hk|apply (fm_blocks _ _ Hf); unfold blk; lia].
  apply slot_of_lt. split; [apply Z.div_pos; unfold BSZ; lia|apply Z.div_lt_upper_bound; unfold BSZ in *; lia].
Qed.

(** One entry is read into the local variable. *)
Lemma dirent_read ip d n ts s k : dir_at ip d n ts s -> (k < n)%nat ->
  exists m x, readi ip false de (16 * Z.of_nat k) SIZEOF_DIRENT s = Ok SIZEOF_DIRENT (moved (fs_itable s) m x s) /\
    t_st x ts /\ dirent_at (fcontent (ts_cur ts) d) k = (de_inum de m, de_name de m) /\ local (fs_km s) m.
Proof.
  intros [F Hty Hsz] Hk. pose proof (io_size _ _ _ (fa_ok _ _ _ _ _ F)) as Hmx. unfold MAXFILE, BSZ in Hmx. unfold SIZEOF_DIRENT.
  destruct (readi_ok sb ip d ts false s de (16 * Z.of_nat k) 16 F ltac:(lia) ltac:(lia) ltac:(lia) ltac:(lia) ltac:(lia)) as (u & m & x & Hx & Hr).
  assert (readable d (16 * Z.of_nat k) 16 = 16) as En by (unfold readable; by rewrite (proj2 (Z.leb_le _ _)) by lia).
  rewrite En, decide_True in Hr by done. destruct Hr as (Er & _ & Hb & Hu). cbn in Hu. subst u.
  exists m, x. split; [exact Er|]. split; [done|]. rewrite fbytes_slice in Hb by lia.
  replace (Z.to_nat (16 * Z.of_nat k)) with (16 * k)%nat in Hb by lia. change (Z.to_nat 16) with 16%nat in Hb.
  set (c := fcontent (ts_cur ts) d) in *. pose proof (dir_length (ts_cur ts) d n Hsz) as Hc. fold c in Hc.
  assert (length (slice (16 * k) 16 c) = 16%nat) as Hl by (rewrite length_slice; lia). rewrite Hl in Hb. cbn [mbyte] in Hb.
  assert (forall a, de <= a < de + Z.of_nat (length (slice (16 * k) 16 c)) -> load8 m a = slice (16 * k) 16 c !!! Z.to_nat (a - de)) as Hin.
  { intros a Ha. rewrite Hl in Ha. specialize (Hb a). rewrite decide_True in Hb by lia. exact Hb. }
  split.
  - unfold dirent_at, de_inum, de_name. replace de with (de + Z.of_nat 0) at 1 by lia. change (de + 2) with (de + Z.of_nat 2).
    rewrite !(load_copied m _ _ (slice (16 * k) 16 c)) by (done || rewrite Hl; unfold DIRSIZ; lia).
    rewrite !slice_slice by (unfold DIRSIZ; lia). by rewrite Nat.add_0_r.
  - intros a Ha. specialize (Hb a). rewrite decide_False in Hb by lia. exact Hb.
Qed.

Lemma dir_moved ip d n ts s m x : dir_at ip d n ts s -> t_st x ts -> dir_at ip d n ts (moved (fs_itable s) m x s).
Proof. intros [F ? ?] Hx. split; [|done|done]. exact (file_out sb ip d ts s (fs_um s) m x F Hx). Qed.

Lemma local_trans m m1 m2 : local m m1 -> local m1 m2 -> local m m2.
Proof. intros H1 H2 a Ha. rewrite H2, H1; done. Qed.

Lemma dirent_named ip d n ts s k name : dir_at ip d n ts s -> (k < n)%nat -> byte_list name ->
  let e := dirent_at (fcontent (ts_cur ts) d) k in
  entry_named name e <-> (e.1 =? 0) = false /\ (namecmp name e.2 =? 0) = true.
Proof.
  intros [F _ Hsz] Hk Hname e. unfold entry_named. rewrite Z.eqb_neq, Z.eqb_eq, namecmp_eq; [split; naive_solver|done|].
  apply byte_slice, fcontent_bytes; apply F.
Qed.

Lemma dirlookup_loop_ok ip d n ts name fuel : byte_list name -> forall s k, dir_at ip d n ts s -> (k <= n)%nat -> (n - k < fuel)%nat ->
  exists m x, t_st x ts /\ local (fs_km s) m /\
    dirlookup_loop de fuel ip name (16 * Z.of_nat k) s =
      match list_find (entry_named name) (drop k (dir_entries (fcontent (ts_cur ts) d))) with
      | Some (j, e) => (i ← iget ROOTDEV e.1; mret (Some (i, 16 * Z.of_nat (k + j)))) (moved (fs_itable s) m x s)
      | None => Ok None (moved (fs_itable s) m x s)
      end.
Proof.
  intros Hname. induction fuel as [|fuel IH]; intros s k D Hk Hf; [lia|]. pose proof D as [F Hty Hsz]. cbn [dirlookup_loop]. mstep.
  rewrite (en_d _ _ _ (fa_entry _ _ _ _ _ F)), Hsz. set (c := fcontent (ts_cur ts) d) in *.
  pose proof (dir_length (ts_cur ts) d n Hsz) as Hc. fold c in Hc. pose proof (io_size _ _ _ (fa_ok _ _ _ _ _ F)) as Hmx. unfold MAXFILE, BSZ in Hmx.
  destruct (decide (k = n)) as [->|Hne].
  { rewrite (proj2 (Z.ltb_ge _ _)) by lia. cbn [negb]. rewrite drop_ge by (rewrite (dir_entries_length c n); done). cbn [list_find].
    exists (fs_km s), (fs_st s). split; [apply F|]. split; [done|]. by destruct s. }
  rewrite (proj2 (Z.ltb_lt _ _)) by lia. cbn [negb]. destruct (dirent_read ip d n ts s k D ltac:(lia)) as (m & x & E & Hx & Ee & Hm). mrun E.
  rewrite Z.eqb_refl. cbn [negb]. mstep. change (fs_km (moved (fs_itable s) m x s)) with m. fold c in Ee.
  pose proof (dirent_named ip d n ts s k name D ltac:(lia) Hname) as Hnm. cbv zeta in Hnm. fold c in Hnm. rewrite Ee in Hnm. cbn [fst snd] in Hnm.
  assert (drop k (dir_entries c) = dirent_at c k :: drop (S k) (dir_entries c)) as Hdr.
  { apply drop_S. apply (dir_entries_lookup c n); [done|lia]. }
  rewrite Hdr. cbn [list_find]. rewrite Ee. destruct (IH (moved (fs_itable s) m x s) (S k) (dir_moved _ _ _ _ _ m x D Hx) ltac:(lia) ltac:(lia))
    as (m' & x' & Hx' & Hm' & E'). fold c in E'.
  assert (u32 (16 * Z.of_nat k + SIZEOF_DIRENT) = 16 * Z.of_nat (S k)) as Eoff by (unfold SIZEOF_DIRENT; rewrite u32_small by lia; lia).
  rewrite Eoff.
  destruct (decide (entry_named name (de_inum de m, de_name de m))) as [Hy|Hn].
  - apply Hnm in Hy as [-> ->]. exists m, x. split; [done|]. split; [done|]. mstep.
    change (the_inode ip (moved (fs_itable s) m x s)) with (the_inode ip s). rewrite (en_dev _ _ _ (fa_entry _ _ _ _ _ F)).
    by rewrite Nat.add_0_r.
  - exists m', x'. split; [done|]. split; [by eapply local_trans|].
    assert (forall A (a b : A), (if de_inum de m =? 0 then a else if namecmp name (de_name de m) =? 0 then b else a) = a) as Hif.
    { intros A a b. destruct (de_inum de m =? 0); [done|]. destruct (namecmp name (de_name de m) =? 0); [|done]. by destruct Hn; apply Hnm. }
    rewrite Hif, E'. destruct (list_find (entry_named name) (drop (S k) (dir_entries c))) as [[j e]|]; [|done]. cbn [fmap option_fmap option_map].
    cbn [prod_map id fst snd]. by replace (k + S j)%nat with (S k + j)%nat by lia.
Qed.

(** The entries in use name inodes of the disk. *)
Definition names_ok (c : list Z) : Prop := Forall (fun e => e.1 <> 0 -> inum_ok sb e.1) (dir_entries c).

(** What [dirlookup] gives for an entry: the inode of the table and the
    offset, or a panic when the table is full. *)
Definition looked_up (ts : tstore) (s : fsys St U) (o : option (nat * dirent)) (r : outcome (fsys St U) (option (nat * Z))) : Prop :=
  exists m x, t_st x ts /\ local (fs_km s) m /\
  match o with
  | None => r = Ok None (moved (fs_itable s) m x s)
  | Some (k, e) =>
      if decide (0 < refs (fs_itable s) e.1 \/ nfree (fs_itable s) <> 0%nat) then
        exists i t', r = Ok (Some (i, 16 * Z.of_nat k)) (moved t' m x s) /\ got sb (ts_cur ts) e.1 i (fs_itable s) t'
      else r = Panic "iget: no inodes" (moved (fs_itable s) m x s)
  end.

Lemma dirlookup_run ip d n ts s name : dir_at ip d n ts s -> tab_ok sb (ts_cur ts) (fs_itable s) -> names_ok (fcontent (ts_cur ts) d) ->
  byte_list name -> (forall j, refs (fs_itable s) j < 2 ^ 31 - 1) ->
  looked_up ts s (dfind (fcontent (ts_cur ts) d) name) (dirlookup de ip name s).
Proof.
  intros D Ht Hok Hname Hr. pose proof D as [F Hty Hsz]. unfold dirlookup. mstep. rewrite (en_d _ _ _ (fa_entry _ _ _ _ _ F)), Hty.
  cbn [T_DIR Z.eqb Pos.eqb negb].
  destruct (dirlookup_loop_ok ip d n ts name (S (Z.to_nat (di_size d))) Hname s 0 D ltac:(lia) ltac:(lia)) as (m & x & Hx & Hm & E).
  change (16 * Z.of_nat 0) with 0 in E. rewrite drop_0 in E. fold (dfind (fcontent (ts_cur ts) d) name) in E. exists m, x. split; [done|]. split; [done|].
  destruct (dfind (fcontent (ts_cur ts) d) name) as [[k e]|] eqn:Ef; [|exact E].
  assert (inum_ok sb e.1) as Hi.
  { apply list_find_Some in Ef as (Hk & [Hu _] & _). exact (Forall_lookup_1 _ _ _ _ Hok Hk Hu). }
  pose proof (iget_run sb (ts_cur ts) (moved (fs_itable s) m x s) e.1 Ht Hi (Hr e.1)) as Hg. cbn [moved with_st with_km with_itable fs_itable] in Hg.
  case_decide.
  - destruct Hg as (i & t' & Eg & Hg). exists i, t'. split; [|done]. rewrite E. mrunc Eg. done.
  - rewrite E. match goal with |- (?a ≫= ?f) ?t = _ => exact (bind_panic a f t _ _ Hg) end.
Qed.

(** C17: [dirlookup] refines the lookup of a name in the list of entries: it
    finds the first entry in use with that name (14 bytes at most, up to a
    NUL), takes a reference to its inode and reports the offset of the entry,
    or returns NULL when there is none.  It reads the directory only: disk,
    other inodes and other memory stay as they are.  On a file that is no
    directory, and when the table of inodes is full, it panics. *)
Theorem dirlookup_refines_find ip d n ts s name : file_at sb ip d ts s -> di_size d = 16 * Z.of_nat n ->
  tab_ok sb (ts_cur ts) (fs_itable s) -> names_ok (fcontent (ts_cur ts) d) ->
  byte_list name -> (forall j, refs (fs_itable s) j < 2 ^ 31 - 1) ->
  if decide (di_type d = T_DIR) then looked_up ts s (dfind (fcontent (ts_cur ts) d) name) (dirlookup de ip name s)
  else dirlookup de ip name s = Panic "dirlookup not DIR" s.
Proof.
  intros F Hsz Ht Hok Hname Hr. case_decide as Hty; [by apply (dirlookup_run ip d n)|].
  unfold dirlookup. mstep. rewrite (en_d _ _ _ (fa_entry _ _ _ _ _ F)). by rewrite (proj2 (Z.eqb_neq _ _) Hty).
Qed.

(** * dirlink *)

Lemma dirlink_loop_ok ip d n ts fuel : forall s k, dir_at ip d n ts s -> (k <= n)%nat -> (n - k < fuel)%nat ->
  exists m x j, t_st x ts /\ local (fs_km s) m /\ (j <= n)%nat /\ (forall e, dir_entries (fcontent (ts_cur ts) d) !! j = Some e -> e.1 = 0) /\
    dirlink_loop de fuel ip (16 * Z.of_nat k) s = Ok (16 * Z.of_nat j) (moved (fs_itable s) m x s).
Proof.
  induction fuel as [|fuel IH]; intros s k D Hk Hf; [lia|]. pose proof D as [F Hty Hsz]. cbn [dirlink_loop]. mstep.
  rewrite (en_d _ _ _ (fa_entry _ _ _ _ _ F)), Hsz. set (c := fcontent (ts_cur ts) d) in *.
  pose proof (dir_length (ts_cur ts) d n Hsz) as Hc. fold c in Hc.
  destruct (decide (k = n)) as [->|Hne].
  { rewrite (proj2 (Z.ltb_ge _ _)) by lia. cbn [negb]. exists (fs_km s), (fs_st s), n. split; [apply F|]. split; [done|]. split; [done|].
    split; [|by destruct s]. intros e He. apply lookup_lt_Some in He. rewrite (dir_entries_length c n) in He by done. lia. }
  rewrite (proj2 (Z.ltb_lt _ _)) by lia. cbn [negb]. destruct (dirent_read ip d n ts s k D ltac:(lia)) as (m & x & E & Hx & Ee & Hm). mrun E.
  rewrite Z.eqb_refl. cbn [negb]. mstep. change (fs_km (moved (fs_itable s) m x s)) with m. fold c in Ee.
  destruct (Z.eqb_spec (de_inum de m) 0) as [E0|E0].
  - exists m, x, k. split; [done|]. split; [done|]. split; [done|]. split; [|done]. intros e He.
    rewrite (dir_entries_lookup c n) in He by (done || lia). injection He as <-. by rewrite Ee.
  - destruct (IH (moved (fs_itable s) m x s) (S k) (dir_moved _ _ _ _ _ m x D Hx) ltac:(lia) ltac:(lia))
      as (m' & x' & j & Hx' & Hm' & Hj & Hfree & E'). exists m', x', j. split; [done|]. split; [by eapply local_trans|]. split; [done|].
    split; [done|]. unfold SIZEOF_DIRENT. replace (16 * Z.of_nat k + 16) with (16 * Z.of_nat (S k)) by lia. exact E'.
Qed.

(** The local variable holds the new entry. *)
Definition with_de (inum : Z) (name : list Z) (m : mem) : mem :=
  store_bytes (store_bytes m (de + 2) (strncpy DIRSIZ name)) de (le_bytes 2 inum).

Lemma with_de_bytes s inum name m : byte_list name -> mbytes false (with_km (with_de inum name m) s) de 16 = dirent_bytes inum name.
Proof.
  intros Hn. pose proof (dirent_bytes_length inum name) as Hl. apply list_eq. intros i. destruct (decide (i < 16)%nat).
  2: { rewrite !lookup_ge_None_2; [done|lia|]. rewrite mbytes_length. lia. }
  rewrite !list_lookup_lookup_total_lt by (rewrite ?mbytes_length; lia). f_equal. replace i with (Z.to_nat (Z.of_nat i)) at 1 by lia.
  rewrite mbytes_lookup by lia. cbn [mbyte fs_km with_km]. unfold with_de, dirent_bytes. rewrite load8_store_bytes, le_bytes_length.
  case_decide as Hd.
  - rewrite lookup_total_app_l by (rewrite le_bytes_length; lia). rewrite u8_small by (by apply byte_total, byte_le_bytes). f_equal. lia.
  - rewrite lookup_total_app_r by (rewrite le_bytes_length; lia). rewrite le_bytes_length, load8_store_bytes, strncpy_length.
    rewrite decide_True by (unfold DIRSIZ; lia). rewrite u8_small by (by apply byte_total, strncpy_bytes). f_equal. lia.
Qed.

Lemma with_de_local inum name m : local m (with_de inum name m).
Proof.
  intros a Ha. unfold with_de. rewrite load8_store_bytes, le_bytes_length, decide_False by lia.
  by rewrite load8_store_bytes, strncpy_length, decide_False by (unfold DIRSIZ; lia).
Qed.

Lemma nblk_dirent j : (nblk (16 * Z.of_nat j) 16 = 1)%nat.
Proof.
  unfold nblk, BSZ. cbn [Z.leb]. pose proof (Z.mod_pos_bound (16 * Z.of_nat j) 1024 ltac:(done)).
  assert (16 * Z.of_nat j mod 1024 = 16 * (Z.of_nat j mod 64)) as -> by (rewrite <- Z.mul_mod_distr_l; done).
  pose proof (Z.mod_pos_bound (Z.of_nat j) 64 ltac:(done)).
  assert ((16 * (Z.of_nat j mod 64) + 16 + 1024 - 1) / 1024 = 1) as ->; [|done]. symmetry. apply (Z.div_unique _ _ _ (16 * (Z.of_nat j mod 64) + 15)); lia.
Qed.

(** An entry is stored whole or not at all. *)
Lemma dirent_whole j t : 0 <= t <= 16 -> t = 0 \/ t = 16 \/ (16 * Z.of_nat j + t) mod BSZ = 0 -> t = 0 \/ t = 16.
Proof.
  intros Ht [?|[?|Hm]]; [by left|by right|]. unfold BSZ in Hm. apply Z.mod_divide in Hm as [q Hq]; [|done].
  assert (t = 16 * (64 * q - Z.of_nat j)) as Et by lia. lia.
Qed.

Lemma ifile_moved ip inum d ts s m x : ifile sb ip inum d ts s -> t_st x ts -> ifile sb ip inum d ts (moved (fs_itable s) m x s).
Proof. intros [F ? ? ?] Hx. split; [|done|done|done]. exact (file_out sb ip d ts s (fs_um s) m x F Hx). Qed.

(** A directory, ready for a new entry. *)
Record dir_ready (ip : nat) (dinum : Z) (d : dinode) (n : nat) (ts : tstore) (s : fsys St U) : Prop := {
  de_file : ifile sb ip dinum d ts s;
  de_type : di_type d = T_DIR;
  de_size : di_size d = 16 * Z.of_nat n;
  de_tab : tab_ok sb (ts_cur ts) (fs_itable s);
  de_entry : entry_for (fs_itable s) ip dinum;
  de_names : names_ok (fcontent (ts_cur ts) d)
}.

Lemma dir_ready_at ip dinum d n ts s : dir_ready ip dinum d n ts s -> dir_at ip d n ts s.
Proof. intros []. split; [apply de_file0|done|done]. Qed.

Lemma dir_ready_moved ip dinum d n ts s m x : dir_ready ip dinum d n ts s -> t_st x ts -> dir_ready ip dinum d n ts (moved (fs_itable s) m x s).
Proof. intros [] Hx. split; try done. by apply ifile_moved. Qed.

(** The new directory: [r] is 0 and the entry is there, or the disk is full and
    nothing has changed. *)
Record linked (ip : nat) (dinum : Z) (d : dinode) (ts : tstore) (name : list Z) (inum r : Z) (d' : dinode) (n' : nat) (ts' : tstore) (s' : fsys St U) : Prop := {
  li_dir : dir_ready ip dinum d' n' ts' s';
  li_result : r = 0 \/ r = -1 /\ free_blocks sb (ts_cur ts') = [];
  li_get name' : dget (fcontent (ts_cur ts') d') name' =
    if decide (r = 0 /\ cstr DIRSIZ name' = cstr DIRSIZ name) then Some inum else dget (fcontent (ts_cur ts) d) name';
  li_disk : dinode_at sb (ts_cur ts') dinum = d';
  li_inodes j : inum_ok sb j -> j <> dinum -> dinode_at sb (ts_cur ts') j = dinode_at sb (ts_cur ts) j;
  li_files d0 : inode_ok sb (ts_cur ts) d0 -> apart (ts_cur ts) d d0 ->
    inode_ok sb (ts_cur ts') d0 /\ apart (ts_cur ts') d' d0 /\ fcontent (ts_cur ts') d0 = fcontent (ts_cur ts) d0
}.

Lemma names_ok_write c n j inum name : length c = (16 * n)%nat -> (j <= n)%nat -> 0 < inum < 2 ^ 16 -> inum_ok sb inum -> names_ok c ->
  names_ok (splice (16 * j) (dirent_bytes inum name) c).
Proof.
  intros Hc Hj Hi Hin Hok. unfold names_ok. rewrite (dir_entries_write c n) by (done || lia). apply Forall_app. split; [by apply Forall_take|].
  constructor; [done|by apply Forall_drop].
Qed.

(** The write of the new entry. *)
Lemma link_write ip dinum d n ts s name inum j : dir_ready ip dinum d n ts s -> (j <= n)%nat -> 16 * (Z.of_nat n + 1) <= MAXFILE * BSZ ->
  (forall e, dir_entries (fcontent (ts_cur ts) d) !! j = Some e -> e.1 = 0) -> dfind (fcontent (ts_cur ts) d) name = None ->
  byte_list name -> 0 < inum < 2 ^ 16 -> inum_ok sb inum -> room 7 ts -> mbytes false s de 16 = dirent_bytes inum name ->
  exists r d' n' ts' s', (r0 ← writei ip false de (u32 (16 * Z.of_nat j)) SIZEOF_DIRENT; if negb (r0 =? SIZEOF_DIRENT) then mret (-1) else mret 0) s = Ok r s' /\
    linked ip dinum d ts name inum r d' n' ts' s' /\ fs_km s' = fs_km s.
Proof.
  intros [Hif Hty Hsz Ht He Hnok] Hj Hmax Hfree Hno Hname Hi Hin Hroom Hmb. unfold MAXFILE, BSZ in Hmax. rewrite u32_small by lia.
  destruct (writei_run sb false s ts ip dinum d de (16 * Z.of_nat j) 16 Hif) as (t & d' & x & c & ts' & E & Hif' & [W1 W2 W3 W4 W5 W6 _ W7 W8 W9 W10]);
    [lia|lia|unfold MAXFILE, BSZ; lia|lia|lia|rewrite nblk_dirent; done|].
  change SIZEOF_DIRENT with 16. mrun E. rewrite decide_True in W6 by done. destruct W6 as [Hc Hfull].
  set (c0 := fcontent (ts_cur ts) d) in *. pose proof (dir_length (ts_cur ts) d n Hsz) as Hl. fold c0 in Hl. destruct W4 as (Ety & _ & _ & _).
  assert (tab_ok sb (ts_cur ts') (fs_itable (chg ip d' x c s))) as Ht'.
  { apply (tab_written sb (ts_cur ts) _ _ ip dinum); [done|done|done|rewrite Ety, Hty; done|done]. }
  assert (entry_for (fs_itable (chg ip d' x c s)) ip dinum) as He'.
  { destruct He as (y & Hy & Hr & En). exists (set_d d' y). cbn. by rewrite list_lookup_alter_eq, Hy. }
  assert (forall d0, inode_ok sb (ts_cur ts) d0 -> apart (ts_cur ts) d d0 ->
    inode_ok sb (ts_cur ts') d0 /\ apart (ts_cur ts') d' d0 /\ fcontent (ts_cur ts') d0 = fcontent (ts_cur ts) d0) as W8'.
  { intros d0 H1 H2. by destruct (W8 d0 H1 H2) as (? & ? & ? & _). }
  destruct (dirent_whole j t W1 W2) as [->| ->].
  - cbn [Z.eqb negb]. assert (fcontent (ts_cur ts') d' = c0) as Hc0.
    { rewrite Hc. change (mbytes false s de 0) with (@nil Z). rewrite Z.add_0_r, app_nil_l. apply take_drop. }
    exists (-1), d', n, ts', (chg ip d' x c s). split; [done|]. split; [|done]. split; try done.
    + split; [done|congruence|lia|done|done|by rewrite Hc0].
    + right. split; [done|]. destruct Hfull; [lia|done].
    + intros name'. rewrite Hc0, decide_False by lia. done.
  - cbn [Z.eqb negb Pos.eqb]. assert (fcontent (ts_cur ts') d' = splice (16 * j) (dirent_bytes inum name) c0) as Hc0.
    { rewrite Hc, Hmb. unfold splice. rewrite dirent_bytes_length. repeat f_equal; lia. }
    exists 0, d', (n `max` (j + 1))%nat, ts', (chg ip d' x c s). split; [done|]. split; [|done]. split; try done.
    + split; [done|congruence|lia|done|done|rewrite Hc0; by apply (names_ok_write c0 n)].
    + by left.
    + intros name'. rewrite Hc0, (dget_write c0 n) by done. destruct (decide (cstr DIRSIZ name' = cstr DIRSIZ name)).
      * by rewrite decide_True.
      * by rewrite decide_False by tauto.
Qed.

(** The reference that [dirlookup] took is given back. *)
Lemma put_back ts s i inum t' : tab_ok sb (ts_cur ts) (fs_itable s) -> got sb (ts_cur ts) inum i (fs_itable s) t' -> refs (fs_itable s) inum < 2 ^ 31 - 1 ->
  forall m x, exists t2, iput i (moved t' m x s) = Ok tt (moved t2 m x s) /\ tab_ok sb (ts_cur ts) t2 /\ forall j, refs t2 j = refs (fs_itable s) j.
Proof.
  intros Ht G Hr m x. destruct (go_entry _ _ _ _ _ _ G) as (y & Hy & Hyr & En).
  pose proof (refs_entry sb (ts_cur ts) t' i y (go_tab _ _ _ _ _ _ G) Hy Hyr) as Ey. rewrite En, (go_refs _ _ _ _ _ _ G), decide_True in Ey by done.
  pose proof (drop_tab sb (ts_cur ts) t' i y (go_tab _ _ _ _ _ _ G) Hy Hyr) as D2. eexists. split; [|split; [apply D2|]].
  - apply (iput_stays (moved t' m x s) i y Hy); [lia|].
    destruct (decide (i_ref y = 1)); [left; by apply (go_new _ _ _ _ _ _ G)|right; by left].
  - intros j. rewrite (dr_refs _ _ _ _ _ _ D2 j), En. rewrite (go_refs _ _ _ _ _ _ G). lia.
Qed.

(** C16: [dirlink] adds a name to a directory.  When the name is there already
    it returns -1, with the references as before.  Otherwise it returns 0 and
    the directory has the new inode for this name and what it had for every
    other one, or it returns -1 because no block is free and nothing has
    changed.  The directory stays well formed, its inode on disk is the one in
    memory, and other inodes and files stay as they are. *)
Theorem dirlink_correct ip dinum d n ts s name inum :
  dir_ready ip dinum d n ts s -> 16 * (Z.of_nat n + 1) <= MAXFILE * BSZ -> nfree (fs_itable s) <> 0%nat ->
  (forall j, refs (fs_itable s) j < 2 ^ 31 - 1) -> byte_list name -> 0 < inum < 2 ^ 16 -> inum_ok sb inum -> room 7 ts ->
  match dget (fcontent (ts_cur ts) d) name with
  | Some _ => exists t m x, dirlink de ip name inum s = Ok (-1) (moved t m x s) /\ t_st x ts /\ local (fs_km s) m /\
      tab_ok sb (ts_cur ts) t /\ forall j, refs t j = refs (fs_itable s) j
  | None => exists r d' n' ts' s', dirlink de ip name inum s = Ok r s' /\ linked ip dinum d ts name inum r d' n' ts' s' /\
      local (fs_km s) (fs_km s')
  end.
Proof.
  intros D Hmax Hfree Hr Hname Hi Hin Hroom. pose proof (dir_ready_at _ _ _ _ _ _ D) as Da. set (c := fcontent (ts_cur ts) d) in *.
  destruct (dirlookup_run ip d n ts s name Da (de_tab _ _ _ _ _ _ D) (de_names _ _ _ _ _ _ D) Hname Hr) as (m & x & Hx & Hm & Hl). fold c in Hl.
  unfold dget. unfold dirlink. destruct (dfind c name) as [[k e]|] eqn:Ef; cbn [fmap option_fmap option_map].
  - rewrite decide_True in Hl by (by right). destruct Hl as (i & t' & E & G). mrun E.
    destruct (put_back ts s i e.1 t' (de_tab _ _ _ _ _ _ D) G (Hr _) m x) as (t2 & E2 & Ht2 & Hr2). mrun E2. exists t2, m, x. done.
  - mrun Hl. set (s1 := moved (fs_itable s) m x s) in *. pose proof (dir_ready_moved _ _ _ _ _ _ m x D Hx) as D1. fold s1 in D1. mstep.
    pose proof (de_file _ _ _ _ _ _ D1) as [F1 _ _ _]. rewrite (en_d _ _ _ (fa_entry _ _ _ _ _ F1)), (de_size _ _ _ _ _ _ D).
    destruct (dirlink_loop_ok ip d n ts (S (Z.to_nat (16 * Z.of_nat n))) s1 0 (dir_ready_at _ _ _ _ _ _ D1) ltac:(lia) ltac:(lia))
      as (m2 & x2 & j & Hx2 & Hm2 & Hj & Hj0 & E2). mrun E2. mstep.
    set (m3 := with_de inum name m2). set (s3 := moved (fs_itable s) m3 x2 s).
    pose proof (dir_ready_moved _ _ _ _ _ _ m3 x2 D Hx2) as D3. fold s3 in D3.
    destruct (link_write ip dinum d n ts s3 name inum j D3 Hj Hmax Hj0 Ef Hname Hi Hin Hroom) as (r & d' & n' & ts' & s' & E3 & L & Ek).
    { exact (with_de_bytes s3 inum name m2 Hname). }
    exists r, d', n', ts', s'. split; [exact E3|]. split; [exact L|]. rewrite Ek. eapply local_trans; [exact Hm|]. eapply local_trans; [exact Hm2|].
    apply with_de_local.
Qed.
End Dir.

(** * Instances *)

(** An inode without blocks is well formed. *)
Lemma blank_ok sb cur d : di_addrs d = replicate 13 0 -> di_size d = 0 -> inode_ok sb cur d.
Proof.
  intros Ha Hz. assert (forall k, slot cur d k = 0) as Hs.
  { intros k. unfold slot. rewrite Ha. destruct (Nat.ltb_spec k 13) as [Hk|]; [|done]. by apply list_lookup_total_correct, lookup_replicate_2. }
  split; [by rewrite Ha| | |unfold MAXFILE, BSZ; lia|].
  - intros k _. by rewrite Hs.
  - intros k k' _ _. by rewrite Hs.
  - intros bn H1 H2. unfold BSZ in H2. lia.
Qed.

(** The root directory of the small disk, empty, locked in entry 0 of the table. *)
Definition root_dir : dinode := mkDi T_DIR 0 0 1 0 (replicate 13 0).
Definition root_ts : tstore := put_inode small_sb 1 root_dir (small_ts true).
Definition root_entry : inode := mkInode ROOTDEV 1 1 (mkSleep 1 1) 1 root_dir.
Definition root_fs (st : logst bst) : fsys (logst bst) (gmap Z Z) := mkFs small_sb (one_entry root_entry) 1 0 ∅ ∅ [] st.

Lemma root_inum : inum_ok small_sb 1.
Proof. vm_compute. by split. Qed.

Lemma root_entry_is st : entry_is 0 root_dir (root_fs st).
Proof. split; [cbn [root_fs fs_itable one_entry length]; lia|done|done]. Qed.

Lemma root_start : exists st : logst bst, t_st st root_ts.
Proof.
  destruct small_start as [st Hst].
  destruct (iupdate_run small_sb (root_fs st) (small_ts true) 0 root_dir 1 19 eq_refl Hst (small_fmap true) eq_refl (root_entry_is st) eq_refl root_inum small_room)
    as (x & _ & Hx). by exists x.
Qed.

Lemma root_dinode : dinode_at small_sb (ts_cur root_ts) 1 = root_dir.
Proof.
  unfold root_ts. rewrite (dinode_at_put small_sb); [by rewrite decide_True|exact (small_fmap true)|exact root_inum|exact root_inum|].
  split; [vm_compute; by split..| |done|apply Forall_replicate; lia]. cbn. lia.
Qed.

Lemma root_ready st : t_st st root_ts -> dir_ready small_sb 0 1 root_dir 0 root_ts (root_fs st).
Proof.
  intros Hst. split.
  - split; [|done|exact root_inum|vm_compute; by split_and!]. split; [done|exact Hst| |done|apply root_entry_is|by apply blank_ok].
    apply fmap_put; [exact (small_fmap true)|exact root_inum|done].
  - done.
  - done.
  - apply tab_one; [cbn; lia|done|exact root_inum|]. intros _. split; [symmetry; exact root_dinode|done].
  - exists root_entry. split_and!; [done|cbn; lia|done].
  - constructor.
Qed.

Lemma root_refs st j : refs (fs_itable (root_fs st)) j < 2 ^ 31 - 1.
Proof. cbn [root_fs fs_itable]. rewrite one_entry_refs. unfold ref_of. cbn [root_entry i_inum i_ref]. destruct (1 =? j); lia. Qed.

Lemma dirlookup_refines_find_witness : exists st m x, dirlookup 4096 0 [46] (root_fs st) = Ok None (moved (fs_itable (root_fs st)) m x (root_fs st)).
Proof.
  destruct root_start as [st Hst]. pose proof (root_ready st Hst) as [Hif Hty Hsz Ht He Hn].
  pose proof (dirlookup_refines_find small_sb 4096 ltac:(lia) 0 root_dir 0 root_ts (root_fs st) [46] (if_file _ _ _ _ _ _ Hif) Hsz Ht Hn) as Hl.
  rewrite decide_True in Hl by done. destruct Hl as (m & x & _ & _ & E); [repeat constructor; lia|apply root_refs|].
  exists st, m, x. exact E.
Defined.

Lemma dirlink_correct_witness : exists st r s', dirlink 4096 0 [97] 2 (root_fs st) = Ok r s'.
Proof.
  destruct root_start as [st Hst].
  pose proof (dirlink_correct small_sb 4096 ltac:(lia) 0 1 root_dir 0 root_ts (root_fs st) [97] 2 (root_ready st Hst)) as Hl.
  change (dget (fcontent (ts_cur root_ts) root_dir) [97]) with (@None Z) in Hl. cbv iota in Hl.
  destruct Hl as (r & d' & n' & ts' & s' & E & _).
  - unfold MAXFILE, BSZ. lia.
  - vm_compute. discriminate.
  - apply root_refs.
  - repeat constructor; lia.
  - lia.
  - vm_compute. by split.
  - apply room_update. apply (room_le 20); [exact small_room|lia].
  - exists st, r, s'. exact E.
Defined.
