(* ===== verification/XPath.v ===== *)
(** reference/xv6-riscv/kernel/fs.c: path names.

    [elems] splits a path at its slashes; [walk] follows the elements through
    the directories of the disk.  [skipelem] and [namex] are proved against
    them. *)

From Stdlib Require Import ZArith Lia.
From stdpp Require Import base strings numbers gmap list.
From S2P Require Import Prelude Mem Vm XBytes XStore XBio XLog XTxn XTx XFs XBlocks XInode XRead XWrite XIupd XFile XTrunc XItable XDir.

(** * Splitting a path *)

Fixpoint split_at_slash (path : list Z) : list (list Z) :=
  match path with
  | [] => [[]]
  | c :: path' =>
      if c =? SLASH then [] :: split_at_slash path' else
      match split_at_slash path' with
      | e :: es => (c :: e) :: es
      | [] => [[c]]
      end
  end.

(** The elements of a path. *)
Definition elems (path : list Z) : list (list Z) := filter (fun e => e <> []) (split_at_slash path).

Lemma elems_slash path : elems (SLASH :: path) = elems path.
Proof. unfold elems. cbn [split_at_slash]. rewrite Z.eqb_refl, filter_cons. by rewrite decide_False by tauto. Qed.

Lemma elems_skip path : elems (skip_slashes path) = elems path.
Proof.
  induction path as [|c path IH]; [done|]. cbn [skip_slashes]. destruct (Z.eqb_spec c SLASH) as [->|]; [|done]. by rewrite elems_slash.
Qed.

Lemma split_nonempty path : split_at_slash path <> [].
Proof. destruct path as [|c path]; [done|]. cbn [split_at_slash]. destruct (c =? SLASH); [done|]. by destruct (split_at_slash path). Qed.

Lemma split_elem path : split_at_slash path =
  path_elem path :: match drop (length (path_elem path)) path with [] => [] | _ :: r => split_at_slash r end.
Proof.
  induction path as [|c path IH]; [done|]. cbn [split_at_slash path_elem]. destruct (c =? SLASH); [done|]. rewrite IH. done.
Qed.

Lemma elem_stop path : match drop (length (path_elem path)) path with [] => True | c :: _ => c = SLASH end.
Proof.
  induction path as [|c path IH]; [done|]. cbn [path_elem]. destruct (Z.eqb_spec c SLASH); [done|]. exact IH.
Qed.

Lemma skip_head path : match skip_slashes path with [] => True | c :: _ => c <> SLASH end.
Proof. induction path as [|c path IH]; [done|]. cbn [skip_slashes]. by destruct (Z.eqb_spec c SLASH). Qed.

Lemma skip_le path : (length (skip_slashes path) <= length path)%nat.
Proof. induction path as [|c path IH]; [done|]. cbn [skip_slashes length]. destruct (c =? SLASH); cbn [length]; lia. Qed.

(** A path that starts with an element. *)
Lemma elems_first c path : c <> SLASH -> elems (c :: path) = path_elem (c :: path) :: elems (drop (length (path_elem (c :: path))) (c :: path)).
Proof.
  intros Hc. unfold elems at 1. rewrite split_elem, filter_cons.
  rewrite decide_True by (cbn [path_elem]; by rewrite (proj2 (Z.eqb_neq _ _) Hc)). f_equal. pose proof (elem_stop (c :: path)) as Hs.
  destruct (drop (length (path_elem (c :: path))) (c :: path)) as [|c' r]; [done|]. subst c'. by rewrite elems_slash.
Qed.

Lemma cstr_nonzero n l : Forall (fun c => c <> 0) l -> cstr n l = take n l.
Proof.
  revert n. induction l as [|c l IH]; intros [|n] Hl; [done..|]. apply Forall_cons_1 in Hl as [Hc Hl]. cbn [cstr take].
  rewrite (proj2 (Z.eqb_neq c 0)) by done. by rewrite IH.
Qed.

Lemma cstr_nul n l r : (length l < n)%nat -> Forall (fun c => c <> 0) l -> cstr n (l ++ 0 :: r) = l.
Proof.
  revert n. induction l as [|c l IH]; intros [|n] Hn Hl; cbn [length] in Hn; try lia; [done|]. apply Forall_cons_1 in Hl as [Hc Hl].
  cbn [cstr app]. rewrite (proj2 (Z.eqb_neq c 0)) by done. by rewrite IH by (done || lia).
Qed.

(** A path in memory: bytes other than NUL. *)
Definition path_ok (path : list Z) : Prop := Forall (fun c => 0 < c < 256) path.

Lemma path_elem_prefix path : exists r, path = path_elem path ++ r.
Proof. exists (drop (length (path_elem path)) path). induction path as [|c path IH]; [done|]. cbn [path_elem]. destruct (c =? SLASH); [done|]. cbn. by rewrite <- IH. Qed.

Lemma path_elem_ok path : path_ok path -> path_ok (path_elem path).
Proof. intros Hp. destruct (path_elem_prefix path) as [r E]. rewrite E in Hp. by apply Forall_app in Hp as [? _]. Qed.

Lemma skip_ok path : path_ok path -> path_ok (skip_slashes path).
Proof. induction path as [|c path IH]; [done|]. intros Hp. cbn [skip_slashes]. destruct (c =? SLASH); [|done]. apply IH. by apply Forall_cons_1 in Hp as [_ ?]. Qed.

Lemma path_nonzero path : path_ok path -> Forall (fun c => c <> 0) path /\ byte_list path.
Proof. intros Hp. split; (eapply Forall_impl; [exact Hp|]); cbn; lia. Qed.

(** The [name] buffer after [skipelem]. *)
Lemma skipelem_name s name : length name = DIRSIZ -> path_ok s -> byte_list name ->
  let name' := if (DIRSIZ <=? length s)%nat then splice 0 (take DIRSIZ s) name else splice (length s) [0] (splice 0 s name) in
  length name' = DIRSIZ /\ byte_list name' /\ cstr DIRSIZ name' = take DIRSIZ s.
Proof.
  intros Hn Hs Hb. destruct (path_nonzero s Hs) as [Hz Hsb]. destruct (Nat.leb_spec DIRSIZ (length s)) as [Hle|Hlt]; cbv zeta.
  - assert (length (take DIRSIZ s) = DIRSIZ) as Hl by (rewrite length_take; lia).
    assert (splice 0 (take DIRSIZ s) name = take DIRSIZ s) as ->.
    { unfold splice. rewrite Hl, drop_ge by lia. by rewrite app_nil_r. }
    split; [done|]. split; [by apply Forall_take|]. rewrite cstr_nonzero by (by apply Forall_take). rewrite take_ge by lia. done.
  - assert (splice 0 s name = s ++ drop (length s) name) as -> by done.
    assert (splice (length s) [0] (s ++ drop (length s) name) = s ++ 0 :: drop (length s + 1) name) as ->.
    { unfold splice. rewrite take_app_length, drop_app_ge by (cbn; lia). rewrite drop_drop. cbn [length app]. do 3 f_equal. lia. }
    split; [rewrite length_app; cbn [length]; rewrite length_drop; lia|]. split.
    + apply Forall_app. split; [done|]. constructor; [lia|]. by apply Forall_drop.
    + rewrite cstr_nul by done. rewrite take_ge by lia. done.
Qed.

(** [skipelem] takes one element off the path. *)
Lemma skipelem_ok path name : path_ok path -> length name = DIRSIZ -> byte_list name ->
  match elems path with
  | [] => skipelem path name = None
  | e :: es => exists rest name', skipelem path name = Some (rest, name') /\ elems rest = es /\ (rest = [] <-> es = []) /\
      (length rest < length path)%nat /\ path_ok rest /\ length name' = DIRSIZ /\ byte_list name' /\ cstr DIRSIZ name' = take DIRSIZ e
  end.
Proof.
  intros Hp Hn Hb. rewrite <- elems_skip. pose proof (skip_head path) as Hh. pose proof (skip_le path) as Hle. pose proof (skip_ok path Hp) as Hq.
  unfold skipelem. destruct (skip_slashes path) as [|c q]; [done|]. rewrite (elems_first c q Hh). set (p := c :: q) in *.
  set (e := path_elem p) in *. set (r := drop (length e) p). cbv zeta.
  destruct (skipelem_name e name Hn (path_elem_ok p Hq) Hb) as (N1 & N2 & N3).
  assert (0 < length e)%nat as He by (unfold e, p; cbn [path_elem]; rewrite (proj2 (Z.eqb_neq _ _) Hh); cbn; lia).
  eexists (skip_slashes r), _. split; [reflexivity|]. split; [apply elems_skip|]. split; [|split].
  - rewrite <- (elems_skip r). pose proof (skip_head r) as Hr. destruct (skip_slashes r) as [|c' r']; [done|].
    split; [done|]. by rewrite (elems_first c' r' Hr).
  - pose proof (skip_le r). unfold r in *. rewrite length_drop in *. assert (0 < length p)%nat by (cbn; lia). lia.
  - split; [|by split_and!]. apply skip_ok. unfold r. by apply Forall_drop.
Qed.

Lemma elems_ok path : path_ok path -> Forall path_ok (elems path).
Proof.
  intros Hp. cut (Forall path_ok (split_at_slash path)).
  { rewrite !Forall_forall. intros Hs e [_ He]%list_elem_of_filter. by apply Hs. }
  induction path as [|c path IH]; [repeat constructor|]. apply Forall_cons_1 in Hp as [Hc Hp]. cbn [split_at_slash].
  specialize (IH Hp). destruct (c =? SLASH); [constructor; [constructor|done]|]. destruct (split_at_slash path) as [|e es]; [repeat constructor; lia|].
  apply Forall_cons_1 in IH as [He Hes]. constructor; [by constructor|done].
Qed.

Lemma dfind_name c name name' : cstr DIRSIZ name = cstr DIRSIZ name' -> dfind c name = dfind c name'.
Proof.
  intros E. unfold dfind. induction (dir_entries c) as [|e l IH]; [done|]. cbn [list_find]. rewrite IH.
  destruct (decide (entry_named name e)) as [H1|H1], (decide (entry_named name' e)) as [H2|H2]; try done; unfold entry_named in *; by rewrite E in *.
Qed.

(** * Following a path *)

(** The inode that [elems] lead to, from [inum]; with [parent], the directory
    that holds (or may hold) the last one. *)
Fixpoint walk (dir : Z -> option (list Z -> option Z)) (parent : bool) (inum : Z) (es : list (list Z)) : option Z :=
  match es with
  | [] => if parent then None else Some inum
  | e :: es' =>
      get ← dir inum;
      if parent && match es' with [] => true | _ => false end then Some inum else
      j ← get e;
      walk dir parent j es'
  end.

Section Namex.
Context {St : Type} `{TxStore St} {U : Type} `{CopyMem U}.
Implicit Types s : fsys St U.
Context (sb : superblock) (de : Z) (Hde : 0 <= de /\ de + 16 < 2 ^ 64).

(** The directories of the disk that are still linked. *)
Definition is_dir (d : dinode) : bool := (di_type d =? T_DIR) && negb (di_nlink d =? 0).
Definition disk_dir (cur : Z -> block) (inum : Z) : option (list Z -> option Z) :=
  let d := dinode_at sb cur inum in if is_dir d then Some (dget (fcontent cur d)) else None.

(** The directories are well formed, and their entries name inodes that are
    allocated and linked. *)
Definition tree_ok (cur : Z -> block) : Prop := forall inum, inum_ok sb inum -> let d := dinode_at sb cur inum in is_dir d = true ->
  inode_ok sb cur d /\ (exists n, di_size d = 16 * Z.of_nat n) /\
  Forall (fun e => e.1 <> 0 -> inum_ok sb e.1 /\ di_type (dinode_at sb cur e.1) <> 0 /\ di_nlink (dinode_at sb cur e.1) <> 0) (dir_entries (fcontent cur d)).

Definition unlocked (t : list inode) : Prop := forall i x, t !! i = Some x -> sl_locked (i_lock x) = 0.
(** Only entry [ip] is locked, by this process. *)
Definition locked_at (ip : nat) (pid : Z) (t : list inode) : Prop :=
  (forall i x, t !! i = Some x -> i <> ip -> sl_locked (i_lock x) = 0) /\
  exists x, t !! ip = Some x /\ i_lock x = mkSleep 1 pid.

Lemma same_locks (t t' : list inode) i x : i_lock <$> t' = i_lock <$> t -> t' !! i = Some x -> exists y, t !! i = Some y /\ i_lock y = i_lock x.
Proof.
  intros E Hx. pose proof (list_lookup_fmap i_lock t' i) as H1. rewrite E, list_lookup_fmap, Hx in H1. destruct (t !! i) as [y|]; [|done].
  injection H1 as H1. by exists y.
Qed.

Lemma locked_at_same ip pid t t' : i_lock <$> t' = i_lock <$> t -> locked_at ip pid t -> locked_at ip pid t'.
Proof.
  intros E [Hu (x & Hx & Hl)]. split.
  - intros i y Hy Hne. destruct (same_locks t t' i y E Hy) as (z & Hz & <-). by apply (Hu i z).
  - destruct (same_locks t' t ip x (eq_sym E) Hx) as (y & Hy & Hly). exists y. split; [done|congruence].
Qed.

(** [iunlockput] of an inode that stays. *)
Lemma iunlockput_run s cur ip x : tab_ok sb cur (fs_itable s) -> locked_at ip (fs_pid s) (fs_itable s) -> fs_itable s !! ip = Some x -> 0 < i_ref x < 2 ^ 31 ->
  (i_valid x = 0 \/ i_ref x <> 1 \/ di_nlink (i_d x) <> 0) ->
  exists t', iunlockput ip s = Ok tt (with_itable t' s) /\ tab_ok sb cur t' /\ unlocked t' /\
    (forall j, refs t' j = refs (fs_itable s) j - (if decide (j = i_inum x) then 1 else 0)) /\
    (forall k, k <> ip -> t' !! k = fs_itable s !! k) /\ t' !! ip = Some (set_ref (i_ref x - 1) (set_ilock (mkSleep 0 0) x)).
Proof.
  intros Ht [Hu (x' & Hx' & Hl)] Hx Hr Hc. rewrite Hx in Hx'. injection Hx' as <-. set (t := fs_itable s) in *. set (x1 := set_ilock (mkSleep 0 0) x).
  pose proof (lookup_lt_Some _ _ _ Hx) as Hlt. set (t1 := <[ip := x1]> t). set (s1 := with_itable t1 s).
  assert (tab_ok sb cur t1) as Ht1.
  { apply (tab_change sb cur t ip x); try done; cbn; [lia|lia|]. intros _. apply (tb_sync _ _ _ Ht ip x Hx). lia. }
  assert (fs_itable s1 !! ip = Some x1) as Hx1 by (by apply list_lookup_insert_eq).
  exists (<[ip := set_ref (i_ref x1 - 1) x1]> t1). pose proof (drop_tab sb cur t1 ip x1 Ht1 Hx1 ltac:(cbn; lia)) as D. split; [|split; [apply D|]].
  - unfold iunlockput. mrun (iunlock_run s ip x Hx ltac:(lia) Hl). exact (iput_stays s1 ip x1 Hx1 Hr Hc).
  - split; [|split; [|split]].
    + intros k y Hk. destruct (decide (k = ip)) as [->|Hne].
      * rewrite list_lookup_insert_eq in Hk by (unfold t1; by rewrite length_insert). by injection Hk as <-.
      * unfold t1 in Hk. rewrite !list_lookup_insert_ne in Hk by done. by apply (Hu k y).
    + intros j. rewrite (dr_refs _ _ _ _ _ _ D j). cbn [x1 set_ilock i_inum]. unfold t1. rewrite (refs_insert t ip x) by done. unfold ref_of.
      cbn [x1 set_ilock i_inum i_ref]. lia.
    + intros k Hk. unfold t1. by rewrite !list_lookup_insert_ne by done.
    + apply list_lookup_insert_eq. unfold t1. by rewrite length_insert.
Qed.

(** The loop of [namex] holds one reference, to [inum] at entry [ip], on top of
    those of the table [t0] it started with. *)
Record walking (t0 : list inode) (ts : tstore) (ip : nat) (inum : Z) (s : fsys St U) : Prop := {
  wk_ready : ready sb ts s;
  wk_unlocked : unlocked (fs_itable s);
  wk_entry : entry_for (fs_itable s) ip inum;
  wk_refs j : refs (fs_itable s) j = refs t0 j + (if decide (j = inum) then 1 else 0);
  wk_alloc : di_type (dinode_at sb (ts_cur ts) inum) <> 0;
  wk_keep : di_nlink (dinode_at sb (ts_cur ts) inum) <> 0 \/ 0 < refs t0 inum
}.

(** The references of [t0] again, and no lock. *)
Definition back_to (t0 : list inode) (ts : tstore) (s s' : fsys St U) : Prop :=
  exists t m x, s' = moved t m x s /\ ready sb ts s' /\ unlocked t /\ (forall j, refs t j = refs t0 j) /\ local de (fs_km s) m.

(** [ilock] in the loop. *)
Lemma walk_lock t0 ts ip inum s : tab_ok sb (ts_cur ts) t0 -> walking t0 ts ip inum s ->
  exists s1 x, ilock (Some ip) s = Ok tt s1 /\ ready sb ts s1 /\ locked_at ip (fs_pid s1) (fs_itable s1) /\ fs_itable s1 !! ip = Some x /\
    0 < i_ref x /\ i_inum x = inum /\ i_d x = dinode_at sb (ts_cur ts) inum /\ (forall j, refs (fs_itable s1) j = refs (fs_itable s) j) /\
    exists t y, s1 = moved t (fs_km s) y s.
Proof.
  intros Ht0 [R Hu (x & Hx & Hr & En) Hrefs Hal Hk]. pose proof (ilock_run sb ts s ip x R Hx Hr (Hu ip x Hx)) as Hl. cbv zeta in Hl. rewrite En in Hl.
  rewrite decide_False in Hl by tauto. destruct Hl as (y & E & Hy & Hty). set (x1 := lock_entry sb (ts_cur ts) (fs_pid s) x) in *.
  pose proof (lookup_lt_Some _ _ _ Hx) as Hlt. exists (moved (<[ip := x1]> (fs_itable s)) (fs_km s) y s), x1. split; [exact E|].
  assert (tab_ok sb (ts_cur ts) (<[ip := x1]> (fs_itable s))) as Ht1 by (apply tab_lock; [apply R|done|done|by rewrite En]).
  split; [by apply ready_moved|]. split; [split|].
  - intros k z Hz Hne. cbn [moved with_st with_km with_itable fs_itable] in Hz. rewrite list_lookup_insert_ne in Hz by done. by apply (Hu k z).
  - exists x1. split; [by apply list_lookup_insert_eq|done].
  - split; [by apply list_lookup_insert_eq|]. split; [done|]. split; [done|]. split; [cbn; by rewrite En|]. split; [|by eexists _, _].
    intros j. cbn [moved with_st with_km with_itable fs_itable]. rewrite (refs_insert _ ip x) by done. unfold ref_of. cbn [x1 lock_entry i_inum i_ref]. lia.
Qed.

(** Leaving the loop with [iunlockput]. *)
Lemma walk_leave t0 ts ip inum s s1 x m y t : tab_ok sb (ts_cur ts) t0 -> (forall j, refs t0 j < 2 ^ 31 - 2) ->
  (di_nlink (dinode_at sb (ts_cur ts) inum) <> 0 \/ 0 < refs t0 inum) ->
  s1 = moved t m y s -> local de (fs_km s) m -> ready sb ts s1 -> locked_at ip (fs_pid s1) t -> t !! ip = Some x -> 0 < i_ref x -> i_inum x = inum ->
  i_d x = dinode_at sb (ts_cur ts) inum -> (forall j, refs t j = refs t0 j + (if decide (j = inum) then 1 else 0)) ->
  exists s2, iunlockput ip s1 = Ok tt s2 /\ back_to t0 ts s s2.
Proof.
  intros Ht0 Hb Hk -> Hloc R Hl Hx Hr En Ed Hrefs. pose proof (refs_entry sb (ts_cur ts) t ip x (rd_tab _ _ _ R) Hx Hr) as Er.
  rewrite En, Hrefs, decide_True in Er by done. pose proof (Hb inum).
  destruct (iunlockput_run (moved t m y s) (ts_cur ts) ip x (rd_tab _ _ _ R) Hl Hx ltac:(lia)) as (t' & E & Ht' & Hu & Hr' & _).
  { destruct Hk as [Hk|Hk]; [right; right; by rewrite Ed|right; left; lia]. }
  exists (moved t' m y s). split; [exact E|]. exists t', m, y. split; [done|]. split; [destruct R; by split|].
  split; [done|]. split; [|done]. intros j. rewrite Hr', En. change (fs_itable (moved t m y s)) with t. rewrite Hrefs. lia.
Qed.

(** The next inode of the walk. *)
Lemma walk_next t0 ts ip inum s x m y t i e t2 : tab_ok sb (ts_cur ts) t0 -> (forall j, refs t0 j < 2 ^ 31 - 2) ->
  (di_nlink (dinode_at sb (ts_cur ts) inum) <> 0 \/ 0 < refs t0 inum) -> ready sb ts s ->
  t_st y ts -> locked_at ip (fs_pid s) t -> tab_ok sb (ts_cur ts) t -> t !! ip = Some x -> 0 < i_ref x -> i_inum x = inum ->
  i_d x = dinode_at sb (ts_cur ts) inum -> (forall j, refs t j = refs t0 j + (if decide (j = inum) then 1 else 0)) ->
  got sb (ts_cur ts) e i t t2 -> di_type (dinode_at sb (ts_cur ts) e) <> 0 -> di_nlink (dinode_at sb (ts_cur ts) e) <> 0 ->
  exists t3, iunlockput ip (moved t2 m y s) = Ok tt (moved t3 m y s) /\ walking t0 ts i e (moved t3 m y s).
Proof.
  intros Ht0 Hb Hk R Hy Hl Ht Hx Hr En Ed Hrefs G Hty Hnl. pose proof (go_tab _ _ _ _ _ _ G) as Ht2.
  assert (exists x2, t2 !! ip = Some x2 /\ 0 < i_ref x2 /\ i_inum x2 = inum /\ i_d x2 = i_d x /\ (i = ip -> 1 < i_ref x2)) as (x2 & Hx2 & Hr2 & En2 & Ed2 & Hi2).
  { destruct (decide (i = ip)) as [->|Hne].
    - destruct (go_same _ _ _ _ _ _ G x Hx Hr) as [_ H2]. eexists. split; [exact H2|]. cbn. split_and!; [lia|done|done|lia].
    - exists x. rewrite (go_other _ _ _ _ _ _ G ip) by done. done. }
  pose proof (refs_entry sb (ts_cur ts) t2 ip x2 Ht2 Hx2 Hr2) as Er. rewrite En2, (go_refs _ _ _ _ _ _ G), Hrefs, decide_True in Er by done.
  pose proof (Hb inum). destruct (iunlockput_run (moved t2 m y s) (ts_cur ts) ip x2 Ht2) as (t3 & E & Ht3 & Hu & Hr3 & Ho3 & Hip3).
  { apply (locked_at_same ip _ t); [apply G|exact Hl]. }
  { exact Hx2. }
  { destruct (decide (inum = e)); lia. }
  { destruct Hk as [Hk|Hk]; [right; right; by rewrite Ed2, Ed|right; left; destruct (decide (inum = e)); lia]. }
  change (fs_itable (moved t2 m y s)) with t2 in Hr3, Ho3. exists t3. split; [exact E|]. split.
  - by apply ready_moved.
  - exact Hu.
  - change (entry_for t3 i e). destruct (go_entry _ _ _ _ _ _ G) as (z & Hz & Hzr & Ez). destruct (decide (i = ip)) as [->|Hne].
    + rewrite Hx2 in Hz. injection Hz as <-. eexists. split; [exact Hip3|]. cbn. specialize (Hi2 eq_refl). split; [lia|done].
    + exists z. by rewrite Ho3.
  - intros j. change (fs_itable (moved t3 m y s)) with t3. rewrite Hr3, (go_refs _ _ _ _ _ _ G), Hrefs, En2.
    destruct (decide (j = inum)), (decide (j = e)); lia.
  - done.
  - by left.
Qed.

(** What [namex] leaves: a reference to the inode the path leads to, or none. *)
Definition named_result (t0 : list inode) (ts : tstore) (s : fsys St U) (parent : bool) (es : list (list Z)) (o : option Z)
    (r : outcome (fsys St U) (option nat * list Z)) : Prop :=
  exists nm s', length nm = DIRSIZ /\ byte_list nm /\
  match o with
  | None => r = Ok (None, nm) s' /\ back_to t0 ts s s'
  | Some inum => exists i t m x, r = Ok (Some i, nm) s' /\ s' = moved t m x s /\ local de (fs_km s) m /\ walking t0 ts i inum s' /\
      (parent = true -> exists e, last es = Some e /\ cstr DIRSIZ nm = take DIRSIZ e)
  end.

Lemma back_to_trans t0 ts s t m x s' : back_to t0 ts (moved t m x s) s' -> local de (fs_km s) m -> back_to t0 ts s s'.
Proof. intros (t' & m' & x' & -> & R & Hu & Hr & Hl) Hm. exists t', m', x'. split; [done|]. split; [done|]. split; [done|]. split; [done|]. by eapply local_trans. Qed.

Lemma named_trans t0 ts s t m x parent e es o r : named_result t0 ts (moved t m x s) parent es o r -> local de (fs_km s) m -> es <> [] \/ parent = false ->
  named_result t0 ts s parent (e :: es) o r.
Proof.
  intros (nm & s' & H1 & H2 & Hr) Hm Hes. exists nm, s'. split; [done|]. split; [done|]. destruct o as [inum|].
  - destruct Hr as (i & t' & m' & x' & E & -> & Hl & W & Hp). exists i, t', m', x'. split; [done|]. split; [done|]. split; [by eapply local_trans|]. split; [done|].
    intros Ep. destruct (Hp Ep) as (e' & He & Hc). exists e'. split; [|done]. destruct es; [by destruct Hes; congruence|done].
  - destruct Hr as [E Hb]. split; [done|]. by eapply back_to_trans.
Qed.

Lemma moved_self s : moved (fs_itable s) (fs_km s) (fs_st s) s = s.
Proof. by destruct s. Qed.

(** The end of the path. *)
Lemma namex_end t0 ts ip inum s parent name : tab_ok sb (ts_cur ts) t0 -> (forall j, refs t0 j < 2 ^ 31 - 2) -> walking t0 ts ip inum s ->
  length name = DIRSIZ -> byte_list name ->
  named_result t0 ts s parent [] (if parent then None else Some inum) ((if parent then iput ip;; mret (None, name) else mret (Some ip, name)) s).
Proof.
  intros Ht0 Hb W Hn Hnb. pose proof W as [R Hu (x & Hx & Hr & En) Hrefs Hal Hk]. destruct parent.
  - pose proof (refs_entry sb (ts_cur ts) _ ip x (rd_tab _ _ _ R) Hx Hr) as Er. rewrite En, Hrefs, decide_True in Er by done. pose proof (Hb inum).
    pose proof (drop_tab sb (ts_cur ts) _ ip x (rd_tab _ _ _ R) Hx Hr) as D. set (t' := <[ip := set_ref (i_ref x - 1) x]> (fs_itable s)) in *.
    assert (iput ip s = Ok tt (with_itable t' s)) as E.
    { apply iput_stays; [done|lia|]. destruct (decide (i_valid x = 0)) as [|Hv]; [by left|right].
      destruct (tb_sync _ _ _ (rd_tab _ _ _ R) ip x Hx Hr Hv) as [Es _]. destruct Hk as [Hk|Hk]; [right; by rewrite Es, En|left; lia]. }
    exists name, (with_itable t' s). split; [done|]. split; [done|]. mrun E. split; [done|]. exists t', (fs_km s), (fs_st s).
    split; [by destruct s|]. split; [destruct R; split; [done|done|done|done|apply D]|]. split; [|split; [|done]].
    + intros k z Hz. destruct (same_locks _ _ k z (dr_lock _ _ _ _ _ _ D) Hz) as (w & Hw & <-). by apply (Hu k w).
    + intros j. rewrite (dr_refs _ _ _ _ _ _ D j), Hrefs, En. lia.
  - exists name, s. split; [done|]. split; [done|]. exists ip, (fs_itable s), (fs_km s), (fs_st s). split; [done|]. split; [by rewrite moved_self|]. done.
Qed.

(** [ip] is locked and loaded by the loop. *)
Record stepping (t0 : list inode) (ts : tstore) (ip : nat) (inum : Z) (x : inode) (s s1 : fsys St U) : Prop := {
  sg_walk : walking t0 ts ip inum s;
  sg_moved : exists y, s1 = moved (fs_itable s1) (fs_km s) y s;
  sg_ready : ready sb ts s1;
  sg_lock : locked_at ip (fs_pid s1) (fs_itable s1);
  sg_entry : fs_itable s1 !! ip = Some x;
  sg_ref : 0 < i_ref x;
  sg_inum : i_inum x = inum;
  sg_d : i_d x = dinode_at sb (ts_cur ts) inum;
  sg_refs j : refs (fs_itable s1) j = refs t0 j + (if decide (j = inum) then 1 else 0)
}.

Lemma step_lock t0 ts ip inum s : tab_ok sb (ts_cur ts) t0 -> walking t0 ts ip inum s ->
  exists s1 x, ilock (Some ip) s = Ok tt s1 /\ stepping t0 ts ip inum x s s1.
Proof.
  intros Ht0 W. destruct (walk_lock t0 ts ip inum s Ht0 W) as (s1 & x & E1 & R1 & Hl1 & Hx & Hr & En & Ed & Hrefs & t & y & Es1).
  exists s1, x. split; [done|]. split; try done; [exists y; by rewrite Es1|]. intros j. rewrite Hrefs. apply W.
Qed.

Lemma step_leave t0 ts ip inum x s s1 : tab_ok sb (ts_cur ts) t0 -> (forall j, refs t0 j < 2 ^ 31 - 2) -> stepping t0 ts ip inum x s s1 ->
  forall m y, t_st y ts -> local de (fs_km s) m -> exists s2, iunlockput ip (moved (fs_itable s1) m y s1) = Ok tt s2 /\ back_to t0 ts s s2.
Proof.
  intros Ht0 Hb [W (z & Es) R Hl Hx Hr En Ed Hrefs] m y Hy Hm. set (t := fs_itable s1) in *.
  assert (moved t m y s1 = moved t m y s) as -> by (by rewrite Es).
  apply (walk_leave t0 ts ip inum s _ x m y t); try done; [apply W|apply ready_moved; [apply W|apply R|done]|]. by rewrite Es in Hl.
Qed.

(** [iunlock] alone keeps the reference. *)
Lemma step_unlock t0 ts ip inum x s s1 : stepping t0 ts ip inum x s s1 ->
  exists t' y, iunlock (Some ip) s1 = Ok tt (moved t' (fs_km s) y s) /\ walking t0 ts ip inum (moved t' (fs_km s) y s).
Proof.
  intros [W (y & Es) R [Hu (x' & Hx' & Hl)] Hx Hr En Ed Hrefs]. rewrite Hx in Hx'. injection Hx' as <-.
  set (t := fs_itable s1) in *. set (t' := <[ip := set_ilock (mkSleep 0 0) x]> t). pose proof (lookup_lt_Some _ _ _ Hx) as Hlt.
  exists t', y. assert (with_itable t' s1 = moved t' (fs_km s) y s) as Es' by (by rewrite Es).
  split; [rewrite (iunlock_run s1 ip x Hx Hr Hl); fold t t'; by rewrite Es'|].
  pose proof (rd_tab _ _ _ R) as Ht. fold t in Ht. assert (tab_ok sb (ts_cur ts) t') as Ht'.
  { apply (tab_change sb _ t ip x); try done; cbn; [lia|]. intros _. by apply (tb_sync _ _ _ Ht ip x). }
  split.
  - rewrite <- Es'. destruct R. by split.
  - intros k z Hz. change (t' !! k = Some z) in Hz. unfold t' in Hz. destruct (decide (k = ip)) as [->|Hne].
    + rewrite list_lookup_insert_eq in Hz by done. by injection Hz as <-.
    + rewrite list_lookup_insert_ne in Hz by done. by apply (Hu k z).
  - exists (set_ilock (mkSleep 0 0) x). split; [by apply list_lookup_insert_eq|done].
  - intros j. change (refs t' j = refs t0 j + (if decide (j = inum) then 1 else 0)). unfold t'. rewrite (refs_insert _ ip x) by done. unfold ref_of.
    cbn [set_ilock i_inum i_ref]. rewrite Hrefs. lia.
  - apply W.
  - apply W.
Qed.

(** [nameiparent] stops at the directory of the last element. *)
Lemma step_parent t0 ts ip inum x s s1 nm e : stepping t0 ts ip inum x s s1 -> length nm = DIRSIZ -> byte_list nm -> cstr DIRSIZ nm = take DIRSIZ e ->
  named_result t0 ts s true [e] (Some inum) ((iunlock (Some ip);; mret (Some ip, nm)) s1).
Proof.
  intros G Hn Hnb Hc. destruct (step_unlock t0 ts ip inum x s s1 G) as (t' & y & E & W). mrun E. exists nm, (moved t' (fs_km s) y s).
  split; [done|]. split; [done|]. exists ip, t', (fs_km s), y. split; [done|]. split; [done|]. split; [done|]. split; [done|]. intros _. by exists e.
Qed.

(** The directory in front of the next element. *)
Lemma step_dir t0 ts ip inum x s s1 : stepping t0 ts ip inum x s s1 -> tree_ok (ts_cur ts) -> let d := dinode_at sb (ts_cur ts) inum in is_dir d = true ->
  exists n, dir_at sb ip d n ts s1 /\ names_ok sb (fcontent (ts_cur ts) d) /\
  Forall (fun e => e.1 <> 0 -> inum_ok sb e.1 /\ di_type (dinode_at sb (ts_cur ts) e.1) <> 0 /\ di_nlink (dinode_at sb (ts_cur ts) e.1) <> 0)
    (dir_entries (fcontent (ts_cur ts) d)).
Proof.
  intros [W _ R Hl Hx Hr En Ed Hrefs] Htree d Hdir. destruct (tb_dev _ _ _ (rd_tab _ _ _ R) ip x Hx Hr) as [Edev Hin]. rewrite En in Hin.
  destruct (Htree inum Hin Hdir) as (Hio & (n & Hsz) & Hent). fold d in Hio, Hsz, Hent. exists n. split; [|split; [|done]].
  - apply andb_prop in Hdir as [Hty%Z.eqb_eq _]. split; [|done|done]. split; [apply R|apply R|apply R|apply R| |done].
    split; [by eapply lookup_lt_Some| |]; rewrite (the_inode_tab ip x s1) by done; done.
  - eapply Forall_impl; [exact Hent|]. cbn. intros e0 He0 Hz. by apply He0.
Qed.

Lemma walk_cons dir parent inum e es : walk dir parent inum (e :: es) = match dir inum with
  | None => None
  | Some get => if parent && match es with [] => true | _ => false end then Some inum else
      match get e with Some j => walk dir parent j es | None => None end
  end.
Proof. done. Qed.

(** Room for the next inode. *)
Lemma step_room t0 ts ip inum x s s1 : tab_ok sb (ts_cur ts) t0 -> (2 <= nfree t0)%nat -> stepping t0 ts ip inum x s s1 -> nfree (fs_itable s1) <> 0%nat.
Proof.
  intros Ht0 Hfree [W _ R Hl Hx Hr En Ed Hrefs] E. assert (nfree t0 <= nfree (fs_itable s1) + 1)%nat; [|lia].
  apply (nfree_step sb (ts_cur ts) t0 _ inum Ht0 (rd_tab _ _ _ R)). intros j Hj. rewrite Hrefs, decide_False by done. lia.
Qed.

Lemma namex_loop_ok t0 ts parent fuel : tab_ok sb (ts_cur ts) t0 -> (forall j, refs t0 j < 2 ^ 31 - 2) -> (2 <= nfree t0)%nat -> tree_ok (ts_cur ts) ->
  forall s ip inum path name, walking t0 ts ip inum s -> path_ok path -> length name = DIRSIZ -> byte_list name -> (length path < fuel)%nat ->
  named_result t0 ts s parent (elems path) (walk (disk_dir (ts_cur ts)) parent inum (elems path)) (namex_loop de fuel ip path parent name s).
Proof.
  intros Ht0 Hb Hfree Htree. induction fuel as [|fuel IH]; intros s ip inum path name W Hp Hn Hnb Hfu; [lia|]. cbn [namex_loop].
  pose proof (skipelem_ok path name Hp Hn Hnb) as Hsk. pose proof (elems_ok path Hp) as Hes. destruct (elems path) as [|e es]; [rewrite Hsk; by apply namex_end|].
  destruct Hsk as (rest & nm & -> & Erest & Hrest & Hlt & Hpr & Hnm & Hnmb & Hc). apply Forall_cons_1 in Hes as [He Hes].
  destruct (step_lock t0 ts ip inum s Ht0 W) as (s1 & x & E1 & G1). mrun E1. mstep. pose proof G1 as [_ (y & Es1) R1 Hl1 Hx Hr En Ed Hrefs].
  rewrite (the_inode_tab ip x s1 Hx), Ed, walk_cons. unfold disk_dir at 1. set (d := dinode_at sb (ts_cur ts) inum) in *.
  assert (forall m z, t_st z ts -> local de (fs_km s) m -> named_result t0 ts s parent (e :: es) None ((iunlockput ip;; mret (None, nm)) (moved (fs_itable s1) m z s1))) as Hleave.
  { intros m z Hz Hm. destruct (step_leave t0 ts ip inum x s s1 Ht0 Hb G1 m z Hz Hm) as (s2 & E2 & Hb2). exists nm, s2. split; [done|]. split; [done|]. mrun E2. done. }
  assert (moved (fs_itable s1) (fs_km s) (fs_st s1) s1 = s1) as Eself.
  { replace (fs_km s) with (fs_km s1) by (by rewrite Es1). apply moved_self. }
  pose proof (Hleave (fs_km s) (fs_st s1) (rd_st _ _ _ R1) ltac:(done)) as Hquit. rewrite Eself in Hquit.
  destruct (is_dir d) eqn:Hdir; unfold is_dir in Hdir.
  2: { destruct (Z.eqb_spec (di_type d) T_DIR) as [Hty|Hty]; cbn [negb andb] in *; [|done]. apply negb_false_iff in Hdir. by rewrite Hdir. }
  pose proof (andb_prop _ _ Hdir) as [Hty Hnl%negb_true_iff]. rewrite Hty, Hnl. cbn [negb].
  replace (match rest with [] => true | _ :: _ => false end) with (match es with [] => true | _ :: _ => false end)
    by (destruct rest, es; [done|by pose proof (proj1 Hrest eq_refl)|by pose proof (proj2 Hrest eq_refl)|done]).
  destruct (parent && match es with [] => true | _ :: _ => false end) eqn:Ep.
  { apply andb_prop in Ep as [-> Ees]. destruct es; [|done]. by apply (step_parent t0 ts ip inum x s s1). }
  destruct (step_dir t0 ts ip inum x s s1 G1 Htree Hdir) as (n & Da & Hnames & Hent). fold d in Da, Hnames, Hent.
  destruct (dirlookup_run sb de Hde ip d n ts s1 nm Da (rd_tab _ _ _ R1) Hnames Hnmb) as (m & z & Hz & Hm & Hlk).
  { intros j. rewrite Hrefs. pose proof (Hb j). case_decide; lia. }
  assert (local de (fs_km s) m) as Hm' by (by rewrite Es1 in Hm).
  rewrite (dfind_name _ nm e) in Hlk by (rewrite Hc; symmetry; apply cstr_nonzero, path_nonzero, He). unfold dget.
  destruct (dfind (fcontent (ts_cur ts) d) e) as [[k en]|] eqn:Ef; cbn [fmap option_fmap option_map snd fst]; [|mrun Hlk; by apply Hleave].
  rewrite decide_True in Hlk by (right; by apply (step_room t0 ts ip inum x s s1)). destruct Hlk as (i & t2 & E2 & G). mrun E2.
  apply list_find_Some in Ef as (Hk & [Hen0 _] & _). destruct (Forall_lookup_1 _ _ _ _ Hent Hk Hen0) as (Hin2 & Hty2 & Hnl2).
  assert (moved t2 m z s1 = moved t2 m z s) as Es2 by (by rewrite Es1). rewrite Es2.
  destruct (walk_next t0 ts ip inum s x m z (fs_itable s1) i en.1 t2 Ht0 Hb (wk_keep _ _ _ _ _ W) (wk_ready _ _ _ _ _ W) Hz) as (t3 & E3 & W3); try done;
    [by rewrite Es1 in Hl1 at 1|apply R1|].
  mrun E3. rewrite <- Erest in *. apply (named_trans t0 ts s t3 m z); [apply IH; [done|done|done|done|lia]|done|].
  destruct parent; [left|by right]. cbn [andb] in Ep. by destruct (elems rest).
Qed.

(** The loop starts with one more reference. *)
Lemma walking_got ts s i inum t' : ready sb ts s -> unlocked (fs_itable s) -> got sb (ts_cur ts) inum i (fs_itable s) t' ->
  di_type (dinode_at sb (ts_cur ts) inum) <> 0 -> (di_nlink (dinode_at sb (ts_cur ts) inum) <> 0 \/ 0 < refs (fs_itable s) inum) ->
  walking (fs_itable s) ts i inum (with_itable t' s).
Proof.
  intros R Hu G Hty Hk. split; [destruct R; split; [done|done|done|done|apply G]| |apply G|apply G|done|done].
  intros k x Hx. destruct (same_locks _ _ k x (go_lock _ _ _ _ _ _ G) Hx) as (y & Hy & <-). by apply (Hu k y).
Qed.

(** Where a path starts: at the root, or at the current directory. *)
Definition start_inum (s : fsys St U) (path : list Z) : Z :=
  match path with c :: _ => if c =? SLASH then ROOTINO else i_inum (the_inode (fs_cwd s) s) | [] => i_inum (the_inode (fs_cwd s) s) end.

(** The root is allocated and linked; the current directory is referenced and
    allocated. *)
Record dirs_ok (ts : tstore) (s : fsys St U) : Prop := {
  do_root : inum_ok sb ROOTINO /\ di_type (dinode_at sb (ts_cur ts) ROOTINO) <> 0 /\ di_nlink (dinode_at sb (ts_cur ts) ROOTINO) <> 0;
  do_cwd : exists x, fs_itable s !! fs_cwd s = Some x /\ 0 < i_ref x /\ di_type (dinode_at sb (ts_cur ts) (i_inum x)) <> 0
}.

Lemma namex_start ts s path : ready sb ts s -> unlocked (fs_itable s) -> dirs_ok ts s -> (forall j, refs (fs_itable s) j < 2 ^ 31 - 2) ->
  (2 <= nfree (fs_itable s))%nat ->
  exists i t', (match path with
    | c :: _ => if c =? SLASH then iget ROOTDEV ROOTINO else cwd ← gets fs_cwd; idup cwd
    | [] => cwd ← gets fs_cwd; idup cwd
    end) s = Ok i (with_itable t' s) /\ walking (fs_itable s) ts i (start_inum s path) (with_itable t' s).
Proof.
  intros R Hu [(Hi & Hty & Hnl) (x & Hx & Hxr & Hxt)] Hb Hfree.
  assert (exists i t', (cwd ← gets fs_cwd; idup cwd) s = Ok i (with_itable t' s) /\
    walking (fs_itable s) ts i (i_inum (the_inode (fs_cwd s) s)) (with_itable t' s)) as Hcwd.
  { pose proof (refs_entry sb (ts_cur ts) _ _ x (rd_tab _ _ _ R) Hx Hxr) as Er. pose proof (Hb (i_inum x)).
    destruct (idup_run sb s (ts_cur ts) (fs_cwd s) x (rd_tab _ _ _ R) Hx ltac:(lia)) as (t' & E & G). exists (fs_cwd s), t'. mstep. split; [done|].
    rewrite (the_inode_tab _ x s Hx). apply walking_got; [done|done|done|done|right; lia]. }
  unfold start_inum. destruct path as [|c path]; [done|]. destruct (c =? SLASH); [|done].
  pose proof (iget_run sb (ts_cur ts) s ROOTINO (rd_tab _ _ _ R) Hi) as Hg. pose proof (Hb ROOTINO).
  rewrite decide_True in Hg by (right; lia). destruct Hg as (i & t' & E & G); [lia|]. exists i, t'. split; [done|]. apply walking_got; try done. by left.
Qed.

Lemma namex_run ts s path parent name : ready sb ts s -> unlocked (fs_itable s) -> dirs_ok ts s -> tree_ok (ts_cur ts) ->
  (forall j, refs (fs_itable s) j < 2 ^ 31 - 2) -> (2 <= nfree (fs_itable s))%nat -> path_ok path -> length name = DIRSIZ -> byte_list name ->
  named_result (fs_itable s) ts s parent (elems path) (walk (disk_dir (ts_cur ts)) parent (start_inum s path) (elems path)) (namex de path parent name s).
Proof.
  intros R Hu Hd Htree Hb Hfree Hp Hn Hnb. destruct (namex_start ts s path R Hu Hd Hb Hfree) as (i & t' & E & W). unfold namex. mrun E.
  pose proof (namex_loop_ok (fs_itable s) ts parent (S (length path)) (rd_tab _ _ _ R) Hb Hfree Htree _ _ _ path name W Hp Hn Hnb ltac:(lia))
    as (nm & s' & H1 & H2 & Hr). exists nm, s'. split; [done|]. split; [done|].
  destruct (walk _ parent _ _) as [j|].
  - destruct Hr as (k & t & m & x & Er & -> & Hrest). by exists k, t, m, x.
  - destruct Hr as [Er (t & m & x & -> & Hrest)]. split; [done|]. by exists t, m, x.
Qed.

(** C10: [namex] resolves path names.  From the root, or from the current
    directory, it follows the elements of the path through the directories of
    the disk, as [walk] does: it returns the inode the path leads to (for
    [nameiparent] the directory of the last element, whose name it leaves in
    [name]), or NULL when an element is missing, is no directory or has been
    unlinked.  It keeps one reference to the inode it returns and gives back
    all others, and it leaves no inode locked. *)
Theorem namex_correct ts s path parent name : ready sb ts s -> unlocked (fs_itable s) -> dirs_ok ts s -> tree_ok (ts_cur ts) ->
  (forall j, refs (fs_itable s) j < 2 ^ 31 - 2) -> (2 <= nfree (fs_itable s))%nat -> path_ok path -> length name = DIRSIZ -> byte_list name ->
  named_result (fs_itable s) ts s parent (elems path) (walk (disk_dir (ts_cur ts)) parent (start_inum s path) (elems path)) (namex de path parent name s).
Proof. apply namex_run. Qed.
End Namex.

(** * Instances *)

Definition idle_root : inode := mkInode ROOTDEV 1 1 (mkSleep 0 0) 1 root_dir.
Definition idle_fs (st : logst bst) : fsys (logst bst) (gmap Z Z) := mkFs small_sb (one_entry idle_root) 1 0 ∅ ∅ [] st.

Lemma idle_ready st : t_st st root_ts -> ready small_sb root_ts (idle_fs st).
Proof.
  intros Hst. split; [done|exact Hst| |done|].
  - apply fmap_put; [exact (small_fmap true)|exact root_inum|done].
  - apply tab_one; [cbn; lia|done|exact root_inum|]. intros _. split; [symmetry; exact root_dinode|done].
Qed.

Lemma root_tree : tree_ok small_sb (ts_cur root_ts).
Proof.
  intros inum Hi d Hd. destruct (decide (inum = 1)) as [->|Hne].
  - unfold d. rewrite root_dinode. split; [by apply blank_ok|]. split; [by exists 0%nat|]. constructor.
  - exfalso. unfold d, root_ts in Hd. rewrite (dinode_at_put small_sb) in Hd; [|exact (small_fmap true)|exact root_inum|done|].
    2: { split; [vm_compute; by split..| |done|apply Forall_replicate; lia]. cbn. lia. }
    rewrite decide_False in Hd by done.
    assert (forallb (fun j => negb (is_dir (dinode_at small_sb small_cur j))) (zseq 0 (Z.to_nat (sb_ninodes small_sb))) = true) as Hall by (vm_compute; reflexivity).
    rewrite forallb_forall in Hall. specialize (Hall inum). rewrite <- list_elem_of_In, elem_of_zseq in Hall. unfold inum_ok in Hi.
    rewrite Z2Nat.id in Hall by lia. specialize (Hall ltac:(lia)). change (ts_cur (small_ts true)) with small_cur in Hd. by rewrite Hd in Hall.
Qed.

Lemma namex_correct_witness : exists st i nm s', namex 4096 [47; 97] true (replicate 14 0) (idle_fs st) = Ok (Some i, nm) s' /\ cstr DIRSIZ nm = [97].
Proof.
  destruct root_start as [st Hst].
  destruct (namex_correct small_sb 4096 ltac:(lia) root_ts (idle_fs st) [47; 97] true (replicate 14 0) (idle_ready st Hst)) as (nm & s' & _ & _ & Hr).
  - intros [|i] x Hx; [by injection Hx as <-|]. cbn [idle_fs fs_itable one_entry lookup list_lookup] in Hx. by apply lookup_replicate in Hx as [-> _].
  - split; [split; [exact root_inum|]; change ROOTINO with 1; rewrite root_dinode; by split|]. exists idle_root. split; [done|].
    split; [cbn; lia|]. change (i_inum idle_root) with 1. by rewrite root_dinode.
  - exact root_tree.
  - intros j. cbn [idle_fs fs_itable]. rewrite one_entry_refs. unfold ref_of. cbn [idle_root i_inum i_ref]. destruct (1 =? j); lia.
  - vm_compute. lia.
  - repeat constructor; lia.
  - done.
  - apply Forall_replicate. lia.
  - change (elems [47; 97]) with [[97]] in Hr. cbn [walk] in Hr. unfold disk_dir in Hr. change (start_inum (idle_fs st) [47; 97]) with 1 in Hr.
    rewrite root_dinode in Hr. change (is_dir root_dir) with true in Hr. cbv iota in Hr. cbn [mbind option_bind andb] in Hr. destruct Hr as (i & t & m & x & E & _ & _ & _ & Hp). exists st, i, nm, s'. split; [exact E|].
    destruct (Hp eq_refl) as (e & [= <-] & ->). done.
Defined.
