(* ===== verification/XKalloc.v ===== *)
(** reference/xv6-riscv/kernel/kalloc.c: the allocator of pages.

    The free pages are a linked list through their first eight bytes; the
    file shows that it implements a stack of pages. *)

From Stdlib Require Import ZArith Lia.
From stdpp Require Import base strings numbers gmap list.
From S2P Require Import Prelude Mem KString Riscv Vm.

(** [kmem.freelist] and physical memory. *)
Record kmem : Type := mkKmem { km_free : Z; km_mem : mem }.

Section Kalloc.
(** [end], the first address after the kernel. *)
Variable kend : Z.

Definition kfree (pa : Z) : M kmem unit :=
  if negb (pa mod PGSIZE =? 0) || (pa <? kend) || (PHYSTOP <=? pa) then panic "kfree" else
  modify (fun k => mkKmem (km_free k) (memset pa 1 PGSIZE (km_mem k)).2);;
  modify (fun k => mkKmem (km_free k) (store64 (km_mem k) pa (km_free k)));;
  modify (fun k => mkKmem pa (km_mem k)).

Fixpoint freerange_loop (fuel : nat) (p pa_end : Z) : M kmem unit :=
  match fuel with
  | O => out_of_fuel
  | S f => if p + PGSIZE <=? pa_end then kfree p;; freerange_loop f (p + PGSIZE) pa_end else mret tt
  end.

Definition freerange (pa_start pa_end : Z) : M kmem unit :=
  let p := PGROUNDUP pa_start in
  freerange_loop (S (Z.to_nat ((pa_end - p) / PGSIZE))) p pa_end.

Definition kinit : M kmem unit := freerange kend PHYSTOP.

Definition kalloc : M kmem Z :=
  r ← gets km_free;
  (if negb (r =? 0) then modify (fun k => mkKmem (load64 (km_mem k) r) (km_mem k)) else mret tt);;
  (if negb (r =? 0) then modify (fun k => mkKmem (km_free k) (memset r 5 PGSIZE (km_mem k)).2) else mret tt);;
  mret r.

(** * The list of free pages *)

Definition page_ok (a : Z) : Prop := a mod PGSIZE = 0 /\ kend <= a < PHYSTOP.
#[export] Instance page_ok_dec a : Decision (page_ok a).
Proof. unfold page_ok. apply _. Defined.

(** Pointer [p] leads to the pages [l], linked through memory [m]. *)
Fixpoint linked_pages (m : mem) (p : Z) (l : list Z) : Prop :=
  match l with
  | [] => p = 0
  | a :: l' => p = a /\ page_ok a /\ linked_pages m (load64 m a) l'
  end.

Record kmem_rel (k : kmem) (l : list Z) : Prop := {
  kr_list : linked_pages (km_mem k) (km_free k) l;
  kr_nodup : NoDup l
}.

(** Memory is the same outside the page [a]. *)
Definition outside_page (a : Z) (m m' : mem) : Prop := forall b, ~ (a <= b < a + PGSIZE) -> load8 m' b = load8 m b.

Lemma pages_apart a b : page_ok a -> page_ok b -> a <> b -> b + PGSIZE <= a \/ a + PGSIZE <= b.
Proof.
  unfold page_ok, PGSIZE. intros [Ha _] [Hb _] Hne. apply Z.mod_divide in Ha as [x ->]; [|done]. apply Z.mod_divide in Hb as [y ->]; [|done]. lia.
Qed.

Lemma linked_ok m p l : linked_pages m p l -> Forall page_ok l.
Proof. revert p. induction l as [|a l IH]; intros p Hl; [constructor|]. destruct Hl as (_ & Ha & Hl). constructor; [done|by eapply IH]. Qed.

(** A page that is not in the list may change. *)
Lemma linked_outside m m' a l : page_ok a -> outside_page a m m' -> forall p, a ∉ l -> linked_pages m p l -> linked_pages m' p l.
Proof.
  intros Ha Ho. induction l as [|b l IH]; intros p Hn Hl; [done|]. destruct Hl as (-> & Hb & Hl). apply not_elem_of_cons in Hn as [Hne Hn].
  split; [done|]. split; [done|]. replace (load64 m' b) with (load64 m b); [by apply IH|].
  apply load_le_ext. intros c Hc. symmetry. apply Ho. destruct (pages_apart a b Ha Hb Hne); unfold PGSIZE in *; lia.
Qed.

Lemma outside_trans a m m1 m2 : outside_page a m m1 -> outside_page a m1 m2 -> outside_page a m m2.
Proof. intros H1 H2 b Hb. by rewrite H2, H1. Qed.

Lemma memset_outside a c m : outside_page a m (memset a c PGSIZE m).2.
Proof. intros b Hb. rewrite memset_load8 by done. by rewrite decide_False. Qed.

Context (Hend : 0 < kend).

Lemma kalloc_run k l : kmem_rel k l ->
  match l with
  | [] => kalloc k = Ok 0 k
  | a :: l' => exists k', kalloc k = Ok a k' /\ kmem_rel k' l' /\ outside_page a (km_mem k) (km_mem k') /\
      forall b, a <= b < a + PGSIZE -> load8 (km_mem k') b = 5
  end.
Proof.
  intros [Hl Hn]. unfold kalloc. mstep. destruct l as [|a l].
  - cbn in Hl. rewrite Hl. cbn [Z.eqb negb]. by mstep.
  - destruct Hl as (-> & Ha & Hl). apply NoDup_cons in Hn as [Hn Hd]. destruct (Z.eqb_spec a 0) as [->|_]; [destruct Ha; lia|]. cbn [negb]. mstep.
    eexists. split; [reflexivity|]. cbn [km_free km_mem]. split; [split; [|done]|split].
    + by apply (linked_outside (km_mem k) _ a l Ha (memset_outside a 5 _)).
    + apply memset_outside.
    + intros b Hb. rewrite memset_load8 by done. by rewrite decide_True.
Qed.

Lemma kfree_run k l pa : kmem_rel k l -> page_ok pa -> pa ∉ l ->
  exists k', kfree pa k = Ok tt k' /\ kmem_rel k' (pa :: l) /\ outside_page pa (km_mem k) (km_mem k').
Proof.
  intros [Hl Hn] Hp Hnew. pose proof Hp as [Hm Hr]. unfold kfree. rewrite (proj2 (Z.eqb_eq _ _) Hm), (proj2 (Z.ltb_ge _ _)), (proj2 (Z.leb_gt _ _)) by lia.
  cbn [negb orb]. mstep. eexists. split; [reflexivity|]. cbn [km_free km_mem].
  assert (outside_page pa (km_mem k) (store64 (memset pa 1 PGSIZE (km_mem k)).2 pa (km_free k))) as Ho.
  { eapply outside_trans; [apply memset_outside|]. intros b Hb. apply load8_store64_ne. unfold PGSIZE in *. lia. }
  split; [|exact Ho]. split; [|by apply NoDup_cons]. split; [done|]. split; [done|]. cbn [km_mem km_free]. rewrite load64_store64.
  - by apply (linked_outside (km_mem k) _ pa l Hp Ho).
  - destruct l as [|a l]; [cbn in Hl; lia|]. destruct Hl as (-> & [_ Ha] & _). change PHYSTOP with 0x88000000 in Ha. lia.
Qed.

Lemma kfree_bad k pa : ~ page_ok pa -> kfree pa k = Panic "kfree" k.
Proof.
  intros Hp. unfold kfree. destruct (Z.eqb_spec (pa mod PGSIZE) 0); [|done]. cbn [negb orb].
  destruct (Z.ltb_spec pa kend); [done|]. destruct (Z.leb_spec PHYSTOP pa); [done|]. destruct Hp. split; [done|lia].
Qed.

(** The pages from [p] on, the last one first. *)
Fixpoint pages_from (n : nat) (p : Z) (l : list Z) : list Z :=
  match n with O => l | S n' => pages_from n' (p + PGSIZE) (p :: l) end.

Lemma freerange_run n : forall k l p pa_end fuel, kmem_rel k l -> (n < fuel)%nat -> p mod PGSIZE = 0 -> kend <= p -> pa_end <= PHYSTOP ->
  p + PGSIZE * Z.of_nat n <= pa_end < p + PGSIZE * (Z.of_nat n + 1) -> Forall (fun a => a < p) l ->
  exists k', freerange_loop fuel p pa_end k = Ok tt k' /\ kmem_rel k' (pages_from n p l).
Proof.
  induction n as [|n IH]; intros k l p pa_end fuel R Hf Hp Hs He Hb Hl; (destruct fuel as [|fuel]; [lia|]); cbn [freerange_loop pages_from]; unfold PGSIZE in *.
  - rewrite (proj2 (Z.leb_gt _ _)) by lia. by exists k.
  - rewrite (proj2 (Z.leb_le _ _)) by lia.
    destruct (kfree_run k l p R) as (k1 & E1 & R1 & _); [split; [done|lia]|intros Hin; rewrite Forall_forall in Hl; specialize (Hl _ Hin); lia|]. mrun E1.
    apply (IH k1 (p :: l) (p + 4096) pa_end fuel R1); [lia| |lia|done|lia|].
    + rewrite <- Zplus_mod_idemp_r, Z_mod_same_full, Z.add_0_r. done.
    + constructor; [lia|]. eapply Forall_impl; [exact Hl|]. cbn. lia.
Qed.

(** [kinit] makes a list of all pages between the kernel and [PHYSTOP]. *)
Lemma kinit_run k : km_free k = 0 -> kend + 4095 <= PHYSTOP ->
  let p := 4096 * ((kend + 4095) / 4096) in
  exists k', kinit k = Ok tt k' /\ kmem_rel k' (pages_from (Z.to_nat ((PHYSTOP - p) / PGSIZE)) p []).
Proof.
  intros H0 Hb p. unfold kinit, freerange. rewrite PGROUNDUP_eq by (change PHYSTOP with 0x88000000 in Hb; lia). fold p.
  assert (kend <= p <= kend + 4095) as Hp.
  { unfold p. pose proof (Z.div_mod (kend + 4095) 4096 ltac:(done)). pose proof (Z.mod_pos_bound (kend + 4095) 4096 ltac:(done)). lia. }
  pose proof (Z.div_mod (PHYSTOP - p) PGSIZE ltac:(done)) as E. pose proof (Z.mod_pos_bound (PHYSTOP - p) PGSIZE ltac:(done)) as Hm.
  assert (0 <= (PHYSTOP - p) / PGSIZE) as Hq by (apply Z.div_pos; unfold PGSIZE; lia).
  apply (freerange_run _ k [] p PHYSTOP); [split; [done|constructor]|lia| |lia|lia| |constructor].
  - unfold p, PGSIZE. by rewrite Z.mul_comm, Z.mod_mul.
  - rewrite Z2Nat.id by done. lia.
Qed.

(** C22: the allocator implements a stack of pages: [kalloc] takes the last
    page that was freed, fills it with junk and touches no other page, or
    returns 0 when there is none; [kfree] puts a page back that is not on the
    list, and panics on an address that is not a page between the kernel and
    [PHYSTOP]. *)
Theorem page_allocator_refines_stack k l : kmem_rel k l ->
  match l with
  | [] => kalloc k = Ok 0 k
  | a :: l' => exists k', kalloc k = Ok a k' /\ kmem_rel k' l' /\ outside_page a (km_mem k) (km_mem k') /\
      forall b, a <= b < a + PGSIZE -> load8 (km_mem k') b = 5
  end /\
  forall pa, pa ∉ l -> if decide (page_ok pa) then
      exists k', kfree pa k = Ok tt k' /\ kmem_rel k' (pa :: l) /\ outside_page pa (km_mem k) (km_mem k')
    else kfree pa k = Panic "kfree" k.
Proof.
  intros R. split; [by apply kalloc_run|]. intros pa Hn. case_decide; [by apply kfree_run|by apply kfree_bad].
Qed.
End Kalloc.

Lemma page_allocator_refines_stack_witness : exists k k' : kmem, kfree 0x80010000 0x80011000 k = Ok tt k' /\ kmem_rel 0x80010000 k' [0x80011000].
Proof.
  exists (mkKmem 0 ∅). destruct (page_allocator_refines_stack 0x80010000 ltac:(lia) (mkKmem 0 ∅) []) as [_ Hf]; [split; [done|constructor]|].
  specialize (Hf 0x80011000 ltac:(apply not_elem_of_nil)). rewrite decide_True in Hf by (split; [reflexivity|change PHYSTOP with 0x88000000; lia]).
  destruct Hf as (k' & E & R & _). by exists k'.
Defined.
