(* ===== verification/XPipe.v ===== *)
(** reference/xv6-riscv/kernel/pipe.c: pipes.

    A pipe is shared by any number of processes.  The code between two points
    where the pipe's lock is free runs as one step: [pipewrite] and [piperead]
    are modelled as sections that either return or stop in front of [sleep()]
    with the channel announced, from where the call goes on when the process
    runs again.  [pipe_step] interleaves such sections with [pipeclose] and
    with kills; user memory is an interface ([UserMem]) with what [copyin] and
    [copyout] of one byte promise. *)

From Stdlib Require Import ZArith Lia.
From stdpp Require Import base strings numbers gmap list.
From S2P Require Import Prelude Vm.

Definition PIPESIZE : Z := 512.

Record pipe : Type := mkPipe {
  pi_data : list Z;
  pi_nread : Z;
  pi_nwrite : Z;
  pi_readopen : bool;
  pi_writeopen : bool
}.

(** [&pi->nread], [&pi->nwrite]: the channels of the readers and the writers. *)
Inductive chan : Type := ch_nread | ch_nwrite.
#[export] Instance chan_eq_dec : EqDecision chan.
Proof. solve_decision. Defined.

(** The memory of a process through [copyin] and [copyout] of one byte: what
    can be read at each address, where it can be written, and that a copy
    changes only what it should. *)
Class UserMem (W : Type) : Type := {
  um_byte : Z -> W -> option Z;
  um_ok : Z -> W -> bool;
  um_in : Z -> W -> option Z * W;
  um_out : Z -> Z -> W -> bool * W;
  um_in_spec a w : (um_in a w).1 = um_byte a w /\
    forall x, um_byte x (um_in a w).2 = um_byte x w /\ um_ok x (um_in a w).2 = um_ok x w;
  um_out_spec a c w : (um_out a c w).1 = um_ok a w /\
    forall x, um_byte x (um_out a c w).2 = (if decide (x = a /\ um_ok a w = true) then Some c else um_byte x w) /\
      um_ok x (um_out a c w).2 = um_ok x w
}.

Section Pipe.
Context `{UserMem W}.

(** Where a process is: outside the pipe's calls, or in front of the [sleep()]
    of one of them. *)
Inductive call : Type :=
| Idle
| Writing (addr n i : Z)
| Reading (addr n : Z).

Record thread : Type := mkT { t_mem : W; t_killed : bool; t_chan : option chan; t_call : call }.
Record pst : Type := mkP { p_pipe : pipe; p_freed : bool; p_ths : list thread }.

Definition set_pipe (x : pipe) (s : pst) : pst := mkP x (p_freed s) (p_ths s).
Definition set_ths (x : list thread) (s : pst) : pst := mkP (p_pipe s) (p_freed s) x.
Definition set_mem (x : W) (t : thread) : thread := mkT x (t_killed t) (t_chan t) (t_call t).
Definition set_chan (x : option chan) (t : thread) : thread := mkT (t_mem t) (t_killed t) x (t_call t).
Definition set_call (x : call) (t : thread) : thread := mkT (t_mem t) (t_killed t) (t_chan t) x.
Definition set_killed (t : thread) : thread := mkT (t_mem t) true (t_chan t) (t_call t).

Definition wake (c : chan) (t : thread) : thread := if decide (t_chan t = Some c) then set_chan None t else t.
Definition wakeup (c : chan) : M pst unit := modify (fun s => set_ths (wake c <$> p_ths s) s).
Definition sleep_prepare (me : nat) (c : chan) : M pst unit :=
  modify (fun s => set_ths (alter (set_chan (Some c)) me (p_ths s)) s).

(** [myproc()]; its memory and its kill flag. *)
Definition self {A} (me : nat) (f : thread -> A) (d : A) (s : pst) : A := default d (f <$> p_ths s !! me).
Definition copyin (me : nat) (a : Z) : M pst (option Z) := fun s =>
  match p_ths s !! me with
  | Some t => let r := um_in a (t_mem t) in Ok r.1 (set_ths (alter (set_mem r.2) me (p_ths s)) s)
  | None => Ok None s
  end.
Definition copyout (me : nat) (a c : Z) : M pst bool := fun s =>
  match p_ths s !! me with
  | Some t => let r := um_out a c (t_mem t) in Ok r.1 (set_ths (alter (set_mem r.2) me (p_ths s)) s)
  | None => Ok false s
  end.

(** How a section ends: the call returns, or it is about to sleep, having
    moved [i] bytes. *)
Inductive sect : Type := Done (r : Z) | Sleep (i : Z).

Definition put_char (c : Z) (p : pipe) : pipe :=
  mkPipe (<[Z.to_nat (pi_nwrite p mod PIPESIZE) := c]> (pi_data p)) (pi_nread p) (u32 (pi_nwrite p + 1))
    (pi_readopen p) (pi_writeopen p).
Definition drop_char (p : pipe) : pipe :=
  mkPipe (pi_data p) (u32 (pi_nread p + 1)) (pi_nwrite p) (pi_readopen p) (pi_writeopen p).
Definition next_char (p : pipe) : Z := pi_data p !!! Z.to_nat (pi_nread p mod PIPESIZE).

(** The loop of [pipewrite] from index [i], [k] bytes before its end. *)
Fixpoint pipewrite_loop (k : nat) (me : nat) (addr i : Z) : M pst sect :=
  match k with
  | O => wakeup ch_nread;; mret (Done i)
  | S k' =>
      p ← gets p_pipe;
      kl ← gets (self me t_killed true);
      if negb (pi_readopen p) || kl then mret (Done (-1)) else
      if pi_nwrite p =? u32 (pi_nread p + PIPESIZE) then
        wakeup ch_nread;;
        sleep_prepare me ch_nwrite;;
        mret (Sleep i)
      else
        r ← copyin me (u64 (addr + i));
        match r with
        | None => wakeup ch_nread;; mret (Done (if i =? 0 then -1 else i))
        | Some ch =>
            modify (fun s => set_pipe (put_char ch (p_pipe s)) s);;
            pipewrite_loop k' me addr (i + 1)
        end
  end.

Definition pipewrite (me : nat) (addr n i : Z) : M pst sect := pipewrite_loop (Z.to_nat (n - i)) me addr i.

Fixpoint piperead_loop (k : nat) (me : nat) (addr i : Z) : M pst sect :=
  match k with
  | O => wakeup ch_nwrite;; mret (Done i)
  | S k' =>
      p ← gets p_pipe;
      if pi_nread p =? pi_nwrite p then wakeup ch_nwrite;; mret (Done i) else
      r ← copyout me (u64 (addr + i)) (next_char p);
      if negb r then wakeup ch_nwrite;; mret (Done (if i =? 0 then -1 else i)) else
      modify (fun s => set_pipe (drop_char (p_pipe s)) s);;
      piperead_loop k' me addr (i + 1)
  end.

Definition piperead (me : nat) (addr n : Z) : M pst sect :=
  p ← gets p_pipe;
  if (pi_nread p =? pi_nwrite p) && pi_writeopen p then
    kl ← gets (self me t_killed true);
    if (kl : bool) then mret (Done (-1)) else
    sleep_prepare me ch_nread;;
    mret (Sleep 0)
  else piperead_loop (Z.to_nat n) me addr 0.

Definition pipeclose (writable : bool) : M pst unit :=
  (if writable then
     modify (fun s => let p := p_pipe s in
       set_pipe (mkPipe (pi_data p) (pi_nread p) (pi_nwrite p) (pi_readopen p) false) s);;
     wakeup ch_nread
   else
     modify (fun s => let p := p_pipe s in
       set_pipe (mkPipe (pi_data p) (pi_nread p) (pi_nwrite p) false (pi_writeopen p)) s);;
     wakeup ch_nwrite);;
  p ← gets p_pipe;
  if negb (pi_readopen p) && negb (pi_writeopen p) then
    modify (fun s => mkP (p_pipe s) true (p_ths s))
  else mret tt.

(** * The buffer as a queue *)

Record pipe_rel (p : pipe) (buf : list Z) : Prop := {
  pr_len : length (pi_data p) = Z.to_nat PIPESIZE;
  pr_nread : 0 <= pi_nread p < 2 ^ 32;
  pr_nwrite : pi_nwrite p = u32 (pi_nread p + Z.of_nat (length buf));
  pr_fits : Z.of_nat (length buf) <= PIPESIZE;
  pr_data j c : buf !! j = Some c -> pi_data p !!! Z.to_nat ((pi_nread p + Z.of_nat j) mod PIPESIZE) = c
}.

Lemma u32_mod x : u32 x mod PIPESIZE = x mod PIPESIZE.
Proof. unfold u32, PIPESIZE. apply Z.mod_mod_divide. by exists (2 ^ 23). Qed.

Lemma u32_add_inj x a b : 0 <= a <= PIPESIZE -> 0 <= b <= PIPESIZE -> u32 (x + a) = u32 (x + b) -> a = b.
Proof.
  unfold u32, PIPESIZE. intros Ha Hb E. pose proof (Z.div_mod (x + a) (2 ^ 32) ltac:(lia)).
  pose proof (Z.div_mod (x + b) (2 ^ 32) ltac:(lia)). nia.
Qed.

Lemma slot_inj x a b : 0 <= a < PIPESIZE -> 0 <= b < PIPESIZE ->
  (x + a) mod PIPESIZE = (x + b) mod PIPESIZE -> a = b.
Proof.
  unfold PIPESIZE. intros Ha Hb E. pose proof (Z.div_mod (x + a) 512 ltac:(lia)).
  pose proof (Z.div_mod (x + b) 512 ltac:(lia)). nia.
Qed.

Lemma rel_full p buf : pipe_rel p buf ->
  (pi_nwrite p =? u32 (pi_nread p + PIPESIZE)) = (Z.of_nat (length buf) =? PIPESIZE).
Proof.
  intros [_ _ Ew Hf _]. rewrite Ew. destruct (Z.eqb_spec (Z.of_nat (length buf)) PIPESIZE) as [->|Hne].
  - apply Z.eqb_refl.
  - apply Z.eqb_neq. intros E. apply Hne. eapply u32_add_inj; [..|exact E]; unfold PIPESIZE in *; lia.
Qed.

Lemma rel_empty p buf : pipe_rel p buf -> (pi_nread p =? pi_nwrite p) = (Z.of_nat (length buf) =? 0).
Proof.
  intros [_ Hr Ew Hf _]. rewrite Ew. destruct (Z.eqb_spec (Z.of_nat (length buf)) 0) as [->|Hne].
  - rewrite Z.add_0_r, u32_small by done. apply Z.eqb_refl.
  - apply Z.eqb_neq. intros E. apply Hne. eapply (u32_add_inj (pi_nread p)); [..|symmetry]; unfold PIPESIZE in *; try lia.
    rewrite Z.add_0_r, (u32_small (pi_nread p)) by done. exact E.
Qed.

Lemma put_char_rel p buf c : pipe_rel p buf -> Z.of_nat (length buf) <> PIPESIZE -> pipe_rel (put_char c p) (buf ++ [c]).
Proof.
  intros [Hl Hr Ew Hf Hd] Hne. unfold PIPESIZE in *. split; cbn [pi_data pi_nread pi_nwrite put_char].
  - by rewrite length_insert.
  - done.
  - rewrite length_app. cbn. rewrite Ew. unfold u32. rewrite Zplus_mod_idemp_l. f_equal. lia.
  - rewrite length_app. cbn. unfold PIPESIZE. lia.
  - intros j x Hj. rewrite Ew, u32_mod. unfold PIPESIZE in *.
    pose proof (Z.mod_pos_bound (pi_nread p + Z.of_nat (length buf)) 512 ltac:(lia)).
    pose proof (Z.mod_pos_bound (pi_nread p + Z.of_nat j) 512 ltac:(lia)).
    apply lookup_app_Some in Hj as [Hj|[Hge Hj]].
    + rewrite list_lookup_total_insert_ne; [by apply Hd|]. intros E. apply lookup_lt_Some in Hj as Hlt.
      assert (Z.of_nat (length buf) = Z.of_nat j); [|lia].
      apply (slot_inj (pi_nread p)); unfold PIPESIZE; try lia.
    + apply list_lookup_singleton_Some in Hj as [Ej ->]. replace j with (length buf) by lia.
      apply list_lookup_total_insert_eq. lia.
Qed.

Lemma drop_char_rel p c buf : pipe_rel p (c :: buf) -> next_char p = c /\ pipe_rel (drop_char p) buf.
Proof.
  intros [Hl Hr Ew Hf Hd]. cbn [length] in *. split.
  - specialize (Hd 0%nat c eq_refl). unfold next_char. by rewrite Z.add_0_r in Hd.
  - split; cbn [pi_data pi_nread pi_nwrite drop_char].
    + done.
    + apply u32_range.
    + rewrite Ew. unfold u32. rewrite Zplus_mod_idemp_l. f_equal. lia.
    + lia.
    + intros j x Hj. rewrite Zplus_mod, u32_mod, <- Zplus_mod.
      replace (pi_nread p + 1 + Z.of_nat j) with (pi_nread p + Z.of_nat (S j)) by lia. by apply Hd.
Qed.

(** * What a section does *)

(** The bytes at [addr + i], ..., [addr + i + k - 1]. *)
Definition bytes_at (w : W) (addr i : Z) (k : nat) : list (option Z) :=
  (fun j => um_byte (u64 (addr + j)) w) <$> zseq i k.

Lemma bytes_at_cons w addr i k : bytes_at w addr i (S k) = um_byte (u64 (addr + i)) w :: bytes_at w addr (i + 1) k.
Proof. unfold bytes_at. by rewrite zseq_cons. Qed.

Definition same_view (w w' : W) : Prop := forall a, um_byte a w' = um_byte a w /\ um_ok a w' = um_ok a w.
Lemma bytes_at_view w w' addr i k : same_view w w' -> bytes_at w' addr i k = bytes_at w addr i k.
Proof. intros Hv. apply list_fmap_ext. intros j x _. apply Hv. Qed.

Definition flags (p : pipe) : bool * bool := (pi_readopen p, pi_writeopen p).

(** The processes after a section of [me] that woke channel [c]. *)
Definition woken (c : chan) (me : nat) (w : W) (s : pst) : list thread :=
  wake c <$> alter (set_mem w) me (p_ths s).

Lemma alter_mem_twice w w' me (ths : list thread) :
  alter (set_mem w') me (alter (set_mem w) me ths) = alter (set_mem w') me ths.
Proof. rewrite list_alter_alter_eq. by apply list_alter_ext. Qed.
Lemma alter_mem_self me t (ths : list thread) : ths !! me = Some t -> alter (set_mem (t_mem t)) me ths = ths.
Proof.
  intros Et. rewrite (list_alter_ext _ id _ ths); [by apply list_alter_id| |done].
  intros x Ex. rewrite Et in Ex. injection Ex as <-. by destruct t.
Qed.

Lemma copyin_run me a s t : p_ths s !! me = Some t ->
  copyin me a s = Ok (um_byte a (t_mem t)) (set_ths (alter (set_mem (um_in a (t_mem t)).2) me (p_ths s)) s).
Proof.
  intros Et. unfold copyin. rewrite Et. by destruct (um_in_spec a (t_mem t)) as [-> _].
Qed.

(** What [pipewrite] has moved and how it ended, when it was not refused. *)
Record wrote (me : nat) (addr i : Z) (k : nat) (t : thread) (s : pst) (buf : list Z)
    (res : sect) (s' : pst) (bytes : list Z) : Prop := {
  wr_rel : pipe_rel (p_pipe s') (buf ++ bytes);
  wr_flags : flags (p_pipe s') = flags (p_pipe s) /\ p_freed s' = p_freed s;
  wr_bytes : Some <$> bytes = bytes_at (t_mem t) addr i (length bytes);
  wr_len : (length bytes <= k)%nat;
  wr_res : exists w, same_view (t_mem t) w /\
    match res with
    | Done r => p_ths s' = woken ch_nread me w s /\
        (r = i + Z.of_nat (length bytes) /\ (k = length bytes \/ um_byte (u64 (addr + r)) (t_mem t) = None)
         \/ r = -1 /\ i = 0 /\ bytes = [] /\ um_byte (u64 addr) (t_mem t) = None)
    | Sleep i' => i' = i + Z.of_nat (length bytes) /\ (length bytes < k)%nat /\ pi_readopen (p_pipe s') = true /\
        Z.of_nat (length (buf ++ bytes)) = PIPESIZE /\
        p_ths s' = alter (set_chan (Some ch_nwrite)) me (woken ch_nread me w s)
    end
}.

Lemma pipewrite_loop_ok k me addr : forall i s t buf, 0 <= i -> p_ths s !! me = Some t ->
  pipe_rel (p_pipe s) buf -> (k = 0%nat \/ pi_readopen (p_pipe s) = true /\ t_killed t = false) ->
  exists res s' bytes, pipewrite_loop k me addr i s = Ok res s' /\ wrote me addr i k t s buf res s' bytes.
Proof.
  induction k as [|k IH]; intros i s t buf Hi Et HR Hopen; cbn [pipewrite_loop].
  - eexists _, _, []. split; [reflexivity|]. split; rewrite ?app_nil_r; try done. exists (t_mem t). split; [done|].
    split; [|left; split; [cbn; lia|by left]]. unfold woken. by rewrite (alter_mem_self _ _ _ Et).
  - destruct Hopen as [|[Ho Hk]]; [done|]. mstep. unfold self. rewrite Et. cbn [fmap option_fmap option_map from_option id].
    rewrite Ho, Hk, (rel_full _ _ HR). cbn [negb orb].
    destruct (Z.eqb_spec (Z.of_nat (length buf)) PIPESIZE) as [Hfull|Hroom].
    + eexists _, _, []. split; [reflexivity|]. split; rewrite ?app_nil_r; try done; [cbn; lia|].
      exists (t_mem t). split; [done|]. cbn [length]. unfold woken. rewrite (alter_mem_self _ _ _ Et). split_and!; try lia; done.
    + mrun (copyin_run me (u64 (addr + i)) s t Et). destruct (um_byte (u64 (addr + i)) (t_mem t)) as [c|] eqn:Ec.
      * mstep. set (w := (um_in (u64 (addr + i)) (t_mem t)).2).
        assert (same_view (t_mem t) w) as Hw by exact (proj2 (um_in_spec _ _)).
        set (s1 := set_pipe _ _). destruct (IH (i + 1) s1 (set_mem w t) (buf ++ [c])) as (res & s' & bytes & E & Hwr).
        { lia. }
        { subst s1. cbn. by rewrite list_lookup_alter_eq, Et. }
        { by apply put_char_rel. }
        { by right. }
        exists res, s', (c :: bytes). split; [exact E|]. destruct Hwr as [G1 G2 G3 G4 (w' & Hv & G5)].
        rewrite <- app_assoc in G1, G5. cbn [app length] in *.
        split; try done; [|cbn; lia|].
        -- cbn [fmap list_fmap length]. rewrite bytes_at_cons, Ec. f_equal. rewrite G3. by apply bytes_at_view.
        -- exists w'. split; [intros a; destruct (Hv a) as [-> ->]; apply Hw|].
           assert (woken ch_nread me w' s1 = woken ch_nread me w' s) as Ewk
             by (unfold woken; subst s1; cbn; by rewrite alter_mem_twice).
           rewrite Ewk in G5. cbn [t_mem set_mem] in G5. cbn [length]. destruct res as [r|i'].
           ++ destruct G5 as [Eth Hr]. split; [done|]. left. destruct Hr as [[Er Hend]|(_ & ? & _)]; [|lia].
              split; [lia|]. destruct Hend as [->|He]; [by left|right]. rewrite <- He. symmetry. apply Hw.
           ++ destruct G5 as (-> & ? & ? & ? & ?). split_and!; try lia; done.
      * eexists _, _, []. split; [reflexivity|]. split; rewrite ?app_nil_r; try done; [cbn; lia|].
        eexists. split; [exact (proj2 (um_in_spec (u64 (addr + i)) (t_mem t)))|]. split; [reflexivity|]. cbn [length].
        destruct (Z.eqb_spec i 0) as [->|Hne]; [right|left].
        -- by rewrite Z.add_0_r in Ec.
        -- split; [lia|]. right. by replace (i + Z.of_nat 0) with i by lia.
Qed.

Lemma copyout_run me a c s t : p_ths s !! me = Some t ->
  copyout me a c s = Ok (um_out a c (t_mem t)).1
    (set_ths (alter (set_mem (um_out a c (t_mem t)).2) me (p_ths s)) s).
Proof. intros Et. unfold copyout. by rewrite Et. Qed.

(** What [piperead] has moved, once there is something to read or the last
    writer is gone: the front of the queue, into the memory of [me]. *)
Record took (me : nat) (addr i : Z) (k : nat) (t : thread) (s : pst) (buf : list Z)
    (r : Z) (s' : pst) (bytes rest : list Z) (w : W) : Prop := {
  tk_buf : buf = bytes ++ rest;
  tk_rel : pipe_rel (p_pipe s') rest;
  tk_flags : flags (p_pipe s') = flags (p_pipe s) /\ p_freed s' = p_freed s;
  tk_ths : p_ths s' = woken ch_nwrite me w s;
  tk_bytes : bytes_at w addr i (length bytes) = Some <$> bytes;
  tk_mem a : a ∉ (fun j => u64 (addr + j)) <$> zseq i (length bytes) -> um_byte a w = um_byte a (t_mem t);
  tk_ok a : um_ok a w = um_ok a (t_mem t);
  tk_len : (length bytes <= k)%nat;
  tk_res : r = i + Z.of_nat (length bytes) /\
      (length bytes = k \/ rest = [] \/ um_ok (u64 (addr + r)) (t_mem t) = false)
    \/ r = -1 /\ i = 0 /\ bytes = [] /\ rest <> [] /\ um_ok (u64 addr) (t_mem t) = false
}.

Lemma u64_ne addr i x k : (Z.of_nat k < 2 ^ 32) -> x ∈ zseq (i + 1) k -> u64 (addr + x) <> u64 (addr + i).
Proof.
  intros Hk Hx E. unfold zseq in Hx. apply list_elem_of_fmap in Hx as (j & -> & Hj%elem_of_seq). unfold u64 in E.
  pose proof (Z.div_mod (addr + (i + 1 + Z.of_nat j)) (2 ^ 64) ltac:(lia)).
  pose proof (Z.div_mod (addr + i) (2 ^ 64) ltac:(lia)). nia.
Qed.

Lemma took_nothing me addr i k t s buf r s' w : p_ths s !! me = Some t -> pipe_rel (p_pipe s) buf ->
  p_pipe s' = p_pipe s -> p_freed s' = p_freed s -> p_ths s' = woken ch_nwrite me w s -> same_view (t_mem t) w ->
  (r = i /\ (k = 0%nat \/ buf = [] \/ um_ok (u64 (addr + r)) (t_mem t) = false)
   \/ r = -1 /\ i = 0 /\ buf <> [] /\ um_ok (u64 addr) (t_mem t) = false) ->
  took me addr i k t s buf r s' [] buf w.
Proof.
  intros Et HR Ep Ef Eth Hv Hr. split; rewrite ?Ep; try done.
  - intros a _. apply Hv.
  - intros a. apply Hv.
  - cbn. lia.
  - cbn [length]. destruct Hr as [[-> Hr]|(-> & -> & ? & ?)]; [left|by right].
    split; [lia|]. destruct Hr as [->|Hr]; [by left|by right].
Qed.

Lemma piperead_loop_ok k me addr : Z.of_nat k < 2 ^ 32 -> forall i s t buf, 0 <= i -> p_ths s !! me = Some t ->
  pipe_rel (p_pipe s) buf ->
  exists r s' bytes rest w, piperead_loop k me addr i s = Ok (Done r) s' /\ took me addr i k t s buf r s' bytes rest w.
Proof.
  induction k as [|k IH]; intros Hk i s t buf Hi Et HR; cbn [piperead_loop].
  - eexists _, _, [], buf, (t_mem t). split; [reflexivity|]. apply took_nothing; try done; [|by left; split; [|left]].
    unfold woken. by rewrite (alter_mem_self _ _ _ Et).
  - mstep. rewrite (rel_empty _ _ HR). destruct buf as [|c buf]; cbn [length Z.of_nat Z.eqb]; cbv iota.
    + eexists _, _, [], [], (t_mem t). split; [reflexivity|].
      apply took_nothing; try done; [|by left; split; [|right; left]].
      unfold woken. by rewrite (alter_mem_self _ _ _ Et).
    + destruct (drop_char_rel _ _ _ HR) as [Ec HR']. rewrite Ec.
      change (Z.of_nat (S (length buf)) =? 0) with false. cbv iota.
      mrun (copyout_run me (u64 (addr + i)) c s t Et). destruct (um_out_spec (u64 (addr + i)) c (t_mem t)) as [-> Hout].
      set (w := (um_out (u64 (addr + i)) c (t_mem t)).2) in *.
      destruct (um_ok (u64 (addr + i)) (t_mem t)) eqn:Eok; cbn [negb].
      * mstep. set (s1 := set_pipe _ _). destruct (IH ltac:(lia) (i + 1) s1 (set_mem w t) buf) as (r & s' & bytes & rest & w' & E & Ht).
        { lia. }
        { subst s1. cbn. by rewrite list_lookup_alter_eq, Et. }
        { done. }
        exists r, s', (c :: bytes), rest, w'. split; [exact E|]. destruct Ht as [G1 G2 G3 G4 G5 G6 G7 G8 G9].
        cbn [t_mem set_mem] in *. split; try done.
        -- by rewrite G1.
        -- rewrite G4. unfold woken. subst s1. cbn. by rewrite alter_mem_twice.
        -- cbn [length]. rewrite bytes_at_cons, G5. cbn. f_equal. rewrite G6.
           ++ rewrite (proj1 (Hout _)). by rewrite decide_True.
           ++ intros (x & Ex & Hx)%list_elem_of_fmap. symmetry in Ex. revert Ex. eapply u64_ne; [|exact Hx]. lia.
        -- intros a. cbn [length]. rewrite zseq_cons, fmap_cons, not_elem_of_cons. intros [Hne Ha].
           rewrite G6 by done. rewrite (proj1 (Hout _)). rewrite decide_False; [done|]. by intros [-> _].
        -- intros a. rewrite G7. apply Hout.
        -- cbn. lia.
        -- left. cbn [length]. destruct G9 as [[Er Hend]|(_ & ? & _)]; [|lia]. split; [lia|].
           destruct Hend as [->|[->|He]]; [by left|by right; left|right; right]. rewrite <- He. symmetry. apply Hout.
      * eexists _, _, [], (c :: buf), w. split; [reflexivity|]. apply took_nothing; try done.
        -- intros a. destruct (Hout a) as [-> ->]. rewrite decide_False; [done|]. by intros [_ ?].
        -- destruct (Z.eqb_spec i 0) as [->|Hne]; [right|left].
           ++ rewrite Z.add_0_r in Eok. done.
           ++ split; [done|]. by right; right.
Qed.

(** * Interleavings *)

(** The system, with the bytes that [pipewrite] has taken from its callers and
    the bytes that [piperead] has given to its callers, in order. *)
Record pcfg : Type := mkCfg { c_st : pst; c_sent : list (option Z); c_got : list (option Z) }.

(** A blocked call goes on when its channel has been woken or the process has
    been killed in its sleep. *)
Definition resumable (t : thread) : Prop := t_chan t = None \/ t_killed t = true.

Definition moved (i : Z) (res : sect) : nat := Z.to_nat (match res with Done r => r | Sleep i' => i' end - i).
Definition goes_on (me : nat) (blocked : Z -> call) (res : sect) (s : pst) : pst :=
  set_ths (alter (set_call (match res with Done _ => Idle | Sleep i => blocked i end)) me (p_ths s)) s.

Definition can_write (addr n i : Z) (t : thread) (p : pipe) : Prop :=
  t_call t = Idle /\ i = 0 /\ n < 2 ^ 31 /\ pi_writeopen p = true \/ t_call t = Writing addr n i /\ resumable t.
Definition can_read (addr n : Z) (t : thread) (p : pipe) : Prop :=
  t_call t = Idle /\ n < 2 ^ 31 /\ pi_readopen p = true \/ t_call t = Reading addr n /\ resumable t.

(** The last descriptor of an end is closed by a process outside a call, when
    no other process is in a call on that end. *)
Definition unused (writable : bool) (t : thread) : Prop :=
  match t_call t with Idle => True | Writing _ _ _ => writable = false | Reading _ _ => writable = true end.

Inductive pipe_step : pcfg -> pcfg -> Prop :=
| st_write s sent got me t addr n i res s' :
    p_ths s !! me = Some t -> can_write addr n i t (p_pipe s) -> pipewrite me addr n i s = Ok res s' ->
    pipe_step (mkCfg s sent got)
      (mkCfg (goes_on me (Writing addr n) res s') (sent ++ bytes_at (t_mem t) addr i (moved i res)) got)
| st_read s sent got me t addr n res s' t' :
    p_ths s !! me = Some t -> can_read addr n t (p_pipe s) -> piperead me addr n s = Ok res s' ->
    p_ths s' !! me = Some t' ->
    pipe_step (mkCfg s sent got)
      (mkCfg (goes_on me (fun _ => Reading addr n) res s') sent (got ++ bytes_at (t_mem t') addr 0 (moved 0 res)))
| st_close s sent got (writable : bool) s' :
    (if writable then pi_writeopen else pi_readopen) (p_pipe s) = true -> Forall (unused writable) (p_ths s) ->
    pipeclose writable s = Ok tt s' -> pipe_step (mkCfg s sent got) (mkCfg s' sent got)
| st_kill s sent got me :
    pipe_step (mkCfg s sent got) (mkCfg (set_ths (alter set_killed me (p_ths s)) s) sent got)
| st_user s sent got me t w :
    p_ths s !! me = Some t -> t_call t = Idle ->
    pipe_step (mkCfg s sent got) (mkCfg (set_ths (alter (set_mem w) me (p_ths s)) s) sent got).

(** A blocked process that nobody has woken has a reason to wait. *)
Definition waits (p : pipe) (buf : list Z) (t : thread) : Prop :=
  match t_call t with
  | Idle => True
  | Writing addr n i => 0 <= i < n /\ n < 2 ^ 31 /\ t_chan t <> Some ch_nread /\
      (t_chan t = Some ch_nwrite -> Z.of_nat (length buf) = PIPESIZE /\ pi_readopen p = true)
  | Reading addr n => n < 2 ^ 31 /\ t_chan t <> Some ch_nwrite /\
      (t_chan t = Some ch_nread -> buf = [] /\ pi_writeopen p = true)
  end.

Record pipe_inv (c : pcfg) (buf : list Z) : Prop := {
  iv_rel : pipe_rel (p_pipe (c_st c)) buf;
  iv_stream : c_sent c = c_got c ++ (Some <$> buf);
  iv_waits : Forall (waits (p_pipe (c_st c)) buf) (p_ths (c_st c))
}.

Lemma wake_fields c t : t_call (wake c t) = t_call t /\ t_chan (wake c t) <> Some c /\
  (forall c', t_chan (wake c t) = Some c' -> t_chan t = Some c').
Proof. unfold wake. case_decide as E; cbn; [done|]. done. Qed.

(** The reasons after a section of [me]: the others by [Hmono], [me] by [Hme]. *)
Lemma waits_section c me w f s p' buf' buf :
  Forall (waits (p_pipe s) buf) (p_ths s) ->
  (forall t, t_chan t <> Some c -> waits (p_pipe s) buf t -> waits p' buf' t) ->
  (forall t, p_ths s !! me = Some t -> waits p' buf' (f (wake c (set_mem w t)))) ->
  Forall (waits p' buf') (alter f me (woken c me w s)).
Proof.
  intros Hw Hmono Hme. apply Forall_lookup. intros j t' Hj. destruct (decide (j = me)) as [->|Hne].
  - rewrite list_lookup_alter_eq in Hj. unfold woken in Hj. rewrite list_lookup_fmap, list_lookup_alter_eq in Hj.
    destruct (p_ths s !! me) as [t|] eqn:Et; [|done]. cbn in Hj. injection Hj as <-. by apply Hme.
  - rewrite list_lookup_alter_ne in Hj by done. unfold woken in Hj.
    rewrite list_lookup_fmap, list_lookup_alter_ne in Hj by done.
    destruct (p_ths s !! j) as [t|] eqn:Et; [|done]. cbn in Hj. injection Hj as <-.
    destruct (wake_fields c t) as (Hc & Hn & Hs). apply Hmono; [done|]. apply (Forall_lookup_1 _ _ _ _ Hw) in Et.
    unfold waits in *. rewrite Hc. destruct (t_call t); naive_solver.
Qed.

(** Every section ends. *)
Lemma pipewrite_ok me addr n i s t buf : 0 <= i -> p_ths s !! me = Some t -> pipe_rel (p_pipe s) buf ->
  exists res s', pipewrite me addr n i s = Ok res s' /\
    (res = Done (-1) /\ s' = s /\ i < n /\ (pi_readopen (p_pipe s) = false \/ t_killed t = true)
     \/ exists bytes, wrote me addr i (Z.to_nat (n - i)) t s buf res s' bytes).
Proof.
  intros Hi Et HR. unfold pipewrite.
  destruct (decide (Z.to_nat (n - i) = 0%nat \/ pi_readopen (p_pipe s) = true /\ t_killed t = false)) as [Hopen|Hno].
  - destruct (pipewrite_loop_ok _ me addr i s t buf Hi Et HR Hopen) as (res & s' & bytes & E & Hw). eauto 10.
  - destruct (Z.to_nat (n - i)) as [|k] eqn:Ek; [naive_solver|]. exists (Done (-1)), s. cbn [pipewrite_loop]. mstep.
    unfold self. rewrite Et. cbn [fmap option_fmap option_map from_option id].
    split; [|left; split_and!; [done|done|lia|]].
    + destruct (pi_readopen (p_pipe s)), (t_killed t); try done. naive_solver.
    + destruct (pi_readopen (p_pipe s)), (t_killed t); naive_solver.
Qed.

Lemma piperead_ok me addr n s t buf : n < 2 ^ 31 -> p_ths s !! me = Some t -> pipe_rel (p_pipe s) buf ->
  exists res s', piperead me addr n s = Ok res s' /\
    (buf = [] /\ pi_writeopen (p_pipe s) = true /\
       (if t_killed t then res = Done (-1) /\ s' = s
        else res = Sleep 0 /\ s' = set_ths (alter (set_chan (Some ch_nread)) me (p_ths s)) s)
     \/ (buf <> [] \/ pi_writeopen (p_pipe s) = false) /\ exists r bytes rest w, res = Done r /\
          took me addr 0 (Z.to_nat n) t s buf r s' bytes rest w).
Proof.
  intros Hn Et HR. unfold piperead. mstep. rewrite (rel_empty _ _ HR).
  destruct (decide (buf = [] /\ pi_writeopen (p_pipe s) = true)) as [[-> Ho]|Hno].
  - rewrite Ho. change (Z.of_nat (length (@nil Z)) =? 0) with true. cbn [andb]. cbv iota. mstep. unfold self. rewrite Et.
    cbn [fmap option_fmap option_map from_option id]. destruct (t_killed t); eauto 10.
  - assert ((Z.of_nat (length buf) =? 0) && pi_writeopen (p_pipe s) = false) as ->.
    { destruct buf; [|done]. destruct (pi_writeopen (p_pipe s)); naive_solver. }
    destruct (piperead_loop_ok (Z.to_nat n) me addr ltac:(lia) 0 s t buf ltac:(lia) Et HR)
      as (r & s' & bytes & rest & w & E & Ht).
    exists (Done r), s'. split; [exact E|]. right. split; [|eauto 10].
    destruct buf; [|by left]. right. destruct (pi_writeopen (p_pipe s)); naive_solver.
Qed.

Lemma waits_flags p p' buf t : flags p' = flags p -> waits p buf t -> waits p' buf t.
Proof. unfold flags, waits. intros [= -> ->]. done. Qed.

Lemma moved_done i (m : nat) : moved i (Done (i + Z.of_nat m)) = m.
Proof. unfold moved. lia. Qed.
Lemma moved_sleep i (m : nat) : moved i (Sleep (i + Z.of_nat m)) = m.
Proof. unfold moved. lia. Qed.

Lemma write_step_inv s sent got buf me t addr n i res s' :
  pipe_inv (mkCfg s sent got) buf -> p_ths s !! me = Some t -> can_write addr n i t (p_pipe s) ->
  pipewrite me addr n i s = Ok res s' ->
  exists buf', pipe_inv (mkCfg (goes_on me (Writing addr n) res s')
    (sent ++ bytes_at (t_mem t) addr i (moved i res)) got) buf'.
Proof.
  intros [HR Hs Hw] Et Hc E. cbn [c_st c_sent c_got] in *.
  assert (0 <= i /\ n < 2 ^ 31) as [Hi Hn].
  { destruct Hc as [(_ & -> & ? & _)|[Ec _]]; [lia|]. apply (Forall_lookup_1 _ _ _ _ Hw) in Et.
    unfold waits in Et. rewrite Ec in Et. lia. }
  destruct (pipewrite_ok me addr n i s t buf Hi Et HR) as (res' & s1 & E' & Hres). rewrite E in E'. injection E' as <- <-.
  destruct Hres as [(-> & -> & _ & _)|[bytes [G1 [G2 _] G3 G4 (w & Hv & G5)]]].
  - exists buf. replace (moved i (Done (-1))) with 0%nat by (unfold moved; lia). cbn [bytes_at]. split; cbn; [done|by rewrite app_nil_r|].
    apply Forall_alter; [done|]. by intros.
  - exists (buf ++ bytes). assert (forall t, t_chan t <> Some ch_nread -> waits (p_pipe s) buf t ->
      waits (p_pipe s') (buf ++ bytes) t) as Hmono.
    { intros t1 Hch Ht1. apply (waits_flags _ _ _ _ G2). unfold waits in *. destruct (t_call t1); [done| |].
      - destruct Ht1 as (? & ? & ? & Hf). split_and!; try done; try lia. intros Hf'. destruct (Hf Hf') as [Hfull ?].
        split; [|done]. pose proof (pr_fits _ _ G1). rewrite length_app in *. lia.
      - naive_solver. }
    split; cbn [c_st c_sent c_got goes_on p_pipe set_ths p_ths].
    + done.
    + rewrite fmap_app, Hs, <- app_assoc. do 2 f_equal. rewrite G3. f_equal.
      destruct res as [r|i']; [destruct G5 as (_ & [[-> _]|(-> & -> & -> & _)])|destruct G5 as (-> & _)];
        [apply moved_done|done|apply moved_sleep].
    + destruct res as [r|i'].
      * destruct G5 as [-> _]. eapply waits_section; [exact Hw|exact Hmono|done].
      * destruct G5 as (-> & Hlt & Hopen & Hfull & ->). rewrite list_alter_alter_eq.
        eapply waits_section; [exact Hw|exact Hmono|]. intros t1 _. cbn. split_and!; try lia; try done.
Qed.

Lemma read_step_inv s sent got buf me t addr n res s' t' :
  pipe_inv (mkCfg s sent got) buf -> p_ths s !! me = Some t -> can_read addr n t (p_pipe s) ->
  piperead me addr n s = Ok res s' -> p_ths s' !! me = Some t' ->
  exists buf', pipe_inv (mkCfg (goes_on me (fun _ => Reading addr n) res s') sent
    (got ++ bytes_at (t_mem t') addr 0 (moved 0 res))) buf'.
Proof.
  intros [HR Hs Hw] Et Hc E Et'. cbn [c_st c_sent c_got] in *.
  assert (n < 2 ^ 31) as Hn.
  { destruct Hc as [(_ & ? & _)|[Ec _]]; [done|]. apply (Forall_lookup_1 _ _ _ _ Hw) in Et.
    unfold waits in Et. rewrite Ec in Et. lia. }
  destruct (piperead_ok me addr n s t buf Hn Et HR) as (res' & s1 & E' & Hres). rewrite E in E'. injection E' as <- <-.
  destruct Hres as [(-> & Ho & Hk)|(_ & r & bytes & rest & w & -> & [G1 G2 [G3 _] G4 G5 _ _ _ G9])].
  - exists []. destruct (t_killed t); destruct Hk as [-> ->]; cbn [bytes_at moved Z.sub Z.to_nat Z.add Z.opp Z.pos_sub];
      (split; cbn; [done|by rewrite app_nil_r|]).
    + apply Forall_alter; [done|]. by intros.
    + rewrite list_alter_alter_eq. apply Forall_alter; [done|]. intros t1 _ _. cbn. split_and!; done.
  - exists rest. split; cbn [c_st c_sent c_got goes_on p_pipe set_ths p_ths].
    + done.
    + rewrite Hs, G1, fmap_app, <- app_assoc. do 2 f_equal. rewrite G4 in Et'.
      unfold woken in Et'. rewrite list_lookup_fmap, list_lookup_alter_eq, Et in Et'. cbn in Et'. injection Et' as <-.
      rewrite <- G5. replace (t_mem (wake ch_nwrite (set_mem w t))) with w by (unfold wake; by case_decide).
      f_equal. destruct G9 as [[-> _]|(-> & _ & -> & _)]; [symmetry; apply moved_done|done].
    + rewrite G4. eapply waits_section; [exact Hw| |done]. intros t1 Hch Ht1. apply (waits_flags _ _ _ _ G3).
      unfold waits in *. destruct (t_call t1); [done|naive_solver|]. destruct Ht1 as (? & ? & Hf).
      split_and!; [done|done|]. intros Hf'. destruct (Hf Hf') as [Eb ?]. split; [|done]. rewrite Eb in G1.
      by symmetry in G1; apply app_eq_nil in G1 as [_ ->].
Qed.

Lemma close_step_inv s sent got buf writable s' :
  pipe_inv (mkCfg s sent got) buf -> pipeclose writable s = Ok tt s' -> pipe_inv (mkCfg s' sent got) buf.
Proof.
  intros [[H1 H2 H3 H4 H5] Hs Hw] E. cbn [c_st c_sent c_got] in *.
  assert (p_ths s' = wake (if writable then ch_nread else ch_nwrite) <$> p_ths s /\
    p_pipe s' = mkPipe (pi_data (p_pipe s)) (pi_nread (p_pipe s)) (pi_nwrite (p_pipe s))
      (writable && pi_readopen (p_pipe s)) (negb writable && pi_writeopen (p_pipe s))) as [Et Ep].
  { unfold pipeclose, wakeup, modify, gets, mbind, M_bind in E. destruct writable; cbn in E;
      destruct (pi_readopen (p_pipe s)), (pi_writeopen (p_pipe s)); cbn in E; by injection E as <-. }
  split; cbn [c_st c_sent c_got]; rewrite ?Ep, ?Et; [by split|done|].
  apply Forall_fmap. eapply Forall_impl; [exact Hw|]. intros t Ht. cbn.
  destruct (wake_fields (if writable then ch_nread else ch_nwrite) t) as (Hc & Hn & Hk). unfold waits in *.
  rewrite Hc. destruct (t_call t), writable; cbn in *; naive_solver.
Qed.

Lemma pipe_step_inv c c' buf : pipe_inv c buf -> pipe_step c c' -> exists buf', pipe_inv c' buf'.
Proof.
  intros Hi Hst. destruct Hst.
  - by eapply write_step_inv.
  - by eapply read_step_inv.
  - eexists. by eapply close_step_inv.
  - exists buf. destruct Hi as [G1 G2 G3]. split; cbn in *; [done|done|]. by apply Forall_alter.
  - exists buf. destruct Hi as [G1 G2 G3]. split; cbn in *; [done|done|]. by apply Forall_alter.
Qed.

(** The pipe as [pipealloc] sets it up, in a page of arbitrary content. *)
Definition fresh (c : pcfg) : Prop :=
  exists junk ths, length junk = Z.to_nat PIPESIZE /\ Forall (fun t => t_call t = Idle) ths /\
    c = mkCfg (mkP (mkPipe junk 0 0 true true) false ths) [] [].

Lemma fresh_inv c : fresh c -> pipe_inv c [].
Proof.
  intros (junk & ths & Hl & Hi & ->). split; cbn; [|done|].
  - by split.
  - eapply Forall_impl; [exact Hi|]. intros t Et. unfold waits. by rewrite Et.
Qed.

Lemma pipe_reachable c0 c : fresh c0 -> rtc pipe_step c0 c -> exists buf, pipe_inv c buf.
Proof.
  intros Hf Hst. apply (rtc_ind_r (fun c => exists buf, pipe_inv c buf) c0) in Hst; [done| |].
  - exists []. by apply fresh_inv.
  - intros x y _ Hs [buf Hx]. by eapply pipe_step_inv.
Qed.

(** C5: a pipe is a byte stream.  However the calls of any number of readers
    and writers interleave, with kills and closes, the bytes that [piperead]
    has stored in the memory of its callers followed by the bytes in the
    buffer are exactly the bytes [pipewrite] has taken from the memory of its
    callers, in order: none is lost, doubled or reordered, also when the
    32-bit counters wrap around. *)
Theorem pipe_stream c0 c :
  fresh c0 -> rtc pipe_step c0 c ->
  exists buf, pipe_rel (p_pipe (c_st c)) buf /\ c_sent c = c_got c ++ (Some <$> buf).
Proof. intros Hf Hst. destruct (pipe_reachable c0 c Hf Hst) as [buf [H1 H2 _]]. eauto. Qed.

(** C33: no process is left sleeping on a pipe.  In every reachable state, a
    writer that sleeps without having been woken waits for a full buffer whose
    read end is open, and a reader for an empty buffer whose write end is
    open, so a writer and a reader never wait for each other; and when a
    blocked call goes on, the section up to its next sleep or return ends. *)
Theorem pipe_no_deadlock c0 c j t :
  fresh c0 -> rtc pipe_step c0 c -> p_ths (c_st c) !! j = Some t -> 
  match t_call t with
  | Idle => True
  | Writing addr n i =>
      (~ resumable t -> pi_nwrite (p_pipe (c_st c)) = u32 (pi_nread (p_pipe (c_st c)) + PIPESIZE) /\
         pi_readopen (p_pipe (c_st c)) = true /\
         forall j' t' addr' n', p_ths (c_st c) !! j' = Some t' -> t_call t' = Reading addr' n' -> resumable t') /\
      exists res s', pipewrite j addr n i (c_st c) = Ok res s'
  | Reading addr n =>
      (~ resumable t -> pi_nread (p_pipe (c_st c)) = pi_nwrite (p_pipe (c_st c)) /\
         pi_writeopen (p_pipe (c_st c)) = true /\
         forall j' t' addr' n' i', p_ths (c_st c) !! j' = Some t' -> t_call t' = Writing addr' n' i' -> resumable t') /\
      exists res s', piperead j addr n (c_st c) = Ok res s'
  end.
Proof.
  intros Hf Hst Et. destruct (pipe_reachable c0 c Hf Hst) as [buf [HR _ Hw]].
  assert (forall j t, p_ths (c_st c) !! j = Some t -> waits (p_pipe (c_st c)) buf t) as Hall.
  { intros j1 t1 E1. by apply (Forall_lookup_1 _ _ _ _ Hw E1). }
  assert (forall t, ~ resumable t -> t_chan t <> None) as Hnr by (unfold resumable; tauto).
  pose proof (Hall _ _ Et) as Ht. unfold waits in Ht. destruct (t_call t) as [|addr n i|addr n] eqn:Ec; [done| |].
  - destruct Ht as (Hi & Hn & Hch & Hf1). split.
    2: { destruct (pipewrite_ok j addr n i _ t buf ltac:(lia) Et HR) as (res & s' & E & _). eauto. }
    intros Hr. destruct (t_chan t) as [[]|] eqn:Ech; [done| |by apply Hnr in Hr].
    destruct (Hf1 eq_refl) as [Hfull Ho]. split_and!; [|done|].
    + apply Z.eqb_eq. rewrite (rel_full _ _ HR). by apply Z.eqb_eq.
    + intros j' t' addr' n' E' Ec'. specialize (Hall _ _ E'). unfold waits in Hall. rewrite Ec' in Hall.
      destruct Hall as (_ & Hne & Hemp). left. destruct (t_chan t') as [[]|]; [|done|done].
      destruct (Hemp eq_refl) as [-> _]. done.
  - destruct Ht as (Hn & Hch & Hf1). split.
    2: { destruct (piperead_ok j addr n _ t buf Hn Et HR) as (res & s' & E & _). eauto. }
    intros Hr. destruct (t_chan t) as [[]|] eqn:Ech; [|done|by apply Hnr in Hr].
    destruct (Hf1 eq_refl) as [-> Ho]. split_and!; [|done|].
    + apply Z.eqb_eq. by rewrite (rel_empty _ _ HR).
    + intros j' t' addr' n' i' E' Ec'. specialize (Hall _ _ E'). unfold waits in Hall. rewrite Ec' in Hall.
      destruct Hall as (_ & _ & Hne & Hfull). left. destruct (t_chan t') as [[]|]; [done| |done].
      by destruct (Hfull eq_refl) as [? _].
Qed.
End Pipe.

(** * Instances *)

(** User memory as a finite map of bytes. *)
Definition gout (a c : Z) (w : gmap Z Z) : bool * gmap Z Z :=
  if bool_decide (is_Some (w !! a)) then (true, <[a := c]> w) else (false, w).

#[export] Instance gmap_mem : UserMem (gmap Z Z).
Proof.
  refine {| um_byte := fun a w => w !! a; um_ok := fun a w => bool_decide (is_Some (w !! a));
            um_in := fun a w => (w !! a, w); um_out := gout |}.
  - done.
  - intros a c w. unfold gout. case_bool_decide as Ha; cbn; (split; [done|]); intros x.
    + destruct (decide (x = a)) as [->|Hne].
      * rewrite lookup_insert_eq, decide_True by done. split; [done|].
        apply bool_decide_ext. split; [done|by eexists].
      * rewrite lookup_insert_ne by done. by rewrite decide_False by naive_solver.
    + by rewrite decide_False by naive_solver.
Defined.

(** A writer with two bytes at address 0, and a reader with room at 8. *)
Definition two_threads : list (thread (W := gmap Z Z)) :=
  [mkT (<[0 := 104]> {[1 := 105]}) false None Idle; mkT (<[8 := 0]> {[9 := 0]}) false None Idle].
Definition cfg0 : pcfg (W := gmap Z Z) := mkCfg (mkP (mkPipe (replicate 512 0) 0 0 true true) false two_threads) [] [].

Lemma cfg0_fresh : fresh cfg0.
Proof. exists (replicate 512 0), two_threads. split_and!; [done|repeat constructor|done]. Qed.

Lemma pipe_stream_witness :
  exists c buf, rtc pipe_step cfg0 c /\ c_sent c = [Some 104; Some 105] /\
    c_sent c = c_got c ++ (Some <$> buf) /\ pipe_rel (p_pipe (c_st c)) buf.
Proof.
  assert (exists c, rtc pipe_step cfg0 c /\ c_sent c = [Some 104; Some 105]) as (c & Hst & Es).
  { eexists. split.
    - apply rtc_once. eapply (st_write _ _ _ 0 _ 0 2 0); [reflexivity|left; split_and!; reflexivity|].
      vm_compute. reflexivity.
    - vm_compute. reflexivity. }
  destruct (pipe_stream cfg0 c cfg0_fresh Hst) as (buf & HR & Hb). by exists c, buf.
Defined.

Lemma pipe_no_deadlock_witness :
  exists c t, rtc pipe_step cfg0 c /\ p_ths (c_st c) !! 1%nat = Some t /\ ~ resumable t /\
    pi_nread (p_pipe (c_st c)) = pi_nwrite (p_pipe (c_st c)).
Proof.
  assert (exists c t, rtc pipe_step cfg0 c /\ p_ths (c_st c) !! 1%nat = Some t /\
    t_call t = Reading 8 2 /\ t_chan t = Some ch_nread /\ t_killed t = false) as (c & t & Hst & Et & Ec & Ech & Ek).
  { eexists _, _. split.
    - apply rtc_once. eapply (st_read _ _ _ 1 _ 8 2); [reflexivity|left; split_and!; reflexivity| |].
      + vm_compute. reflexivity.
      + vm_compute. reflexivity.
    - vm_compute. done. }
  assert (~ resumable t) as Hr by (intros [E|E]; congruence).
  pose proof (pipe_no_deadlock cfg0 c 1 t cfg0_fresh Hst Et) as Hd. rewrite Ec in Hd.
  exists c, t. split_and!; [done|done|done|]. by apply Hd.
Defined.
