(* ===== verification/XFtable.v ===== *)
(** reference/xv6-riscv/kernel/file.c and [pipealloc] of pipe.c: open files.

    The table of open files on top of the file system [XFs], the pipes of
    [XPipe] and the pages of [XKalloc].  A file pointer is an index into the
    table, a pipe is named by the page it lives in; the pointers of an entry
    are meaningful only for its type.  A call of this process that has to sleep
    in a pipe does not return ([Diverge]).  [devsw] is a parameter, filled by
    the device drivers. *)

From Stdlib Require Import ZArith Lia.
From stdpp Require Import base strings numbers gmap list.
From S2P Require Import Prelude Mem Riscv Vm XBytes XStore XBio XTx XFs XKalloc XPipe.

Definition NFILE : nat := 100.
Definition NDEV : Z := 10.
Definition MAXOPBLOCKS : Z := 10.

Inductive ftype : Type := FD_NONE | FD_PIPE | FD_INODE | FD_DEVICE.
#[export] Instance ftype_eq_dec : EqDecision ftype.
Proof. solve_decision. Defined.

Record file : Type := mkFile {
  f_type : ftype;
  f_ref : Z;
  f_readable : bool;
  f_writable : bool;
  f_pipe : Z;
  f_ip : nat;
  f_off : Z;
  f_major : Z
}.
#[export] Instance file_inhabited : Inhabited file := populate (mkFile FD_NONE 0 false false 0 0 0 0).

Definition set_ftype (x : ftype) (f : file) : file :=
  mkFile x (f_ref f) (f_readable f) (f_writable f) (f_pipe f) (f_ip f) (f_off f) (f_major f).
Definition set_fref (x : Z) (f : file) : file :=
  mkFile (f_type f) x (f_readable f) (f_writable f) (f_pipe f) (f_ip f) (f_off f) (f_major f).
Definition set_fmode (r w : bool) (f : file) : file :=
  mkFile (f_type f) (f_ref f) r w (f_pipe f) (f_ip f) (f_off f) (f_major f).
Definition set_fpipe (x : Z) (f : file) : file :=
  mkFile (f_type f) (f_ref f) (f_readable f) (f_writable f) x (f_ip f) (f_off f) (f_major f).
Definition set_fip (x : nat) (f : file) : file :=
  mkFile (f_type f) (f_ref f) (f_readable f) (f_writable f) (f_pipe f) x (f_off f) (f_major f).
Definition set_off (x : Z) (f : file) : file :=
  mkFile (f_type f) (f_ref f) (f_readable f) (f_writable f) (f_pipe f) (f_ip f) x (f_major f).
Definition set_major (x : Z) (f : file) : file :=
  mkFile (f_type f) (f_ref f) (f_readable f) (f_writable f) (f_pipe f) (f_ip f) (f_off f) x.

Section File.
Context {St : Type} `{TxStore St} {U : Type} `{CopyMem U} `{UserMem U}.

(** The file system with the running process, the table of open files, the
    descriptors of the process, the pipes, the free pages, and whether the
    process has been killed. *)
Record kst : Type := mkK {
  k_fs : fsys St U;
  k_ftable : list file;
  k_ofile : list (option nat);
  k_pipes : gmap Z pipe;
  k_free : Z;
  k_killed : bool
}.
Definition with_fs (x : fsys St U) (k : kst) : kst := mkK x (k_ftable k) (k_ofile k) (k_pipes k) (k_free k) (k_killed k).
Definition with_ftable (x : list file) (k : kst) : kst := mkK (k_fs k) x (k_ofile k) (k_pipes k) (k_free k) (k_killed k).
Definition with_ofile (x : list (option nat)) (k : kst) : kst := mkK (k_fs k) (k_ftable k) x (k_pipes k) (k_free k) (k_killed k).
Definition with_pipes (x : gmap Z pipe) (k : kst) : kst := mkK (k_fs k) (k_ftable k) (k_ofile k) x (k_free k) (k_killed k).
Definition with_free (x : Z) (k : kst) : kst := mkK (k_fs k) (k_ftable k) (k_ofile k) (k_pipes k) x (k_killed k).

Definition fsm {A} (m : M (fsys St U) A) : M kst A := zoom k_fs with_fs m.

(** The allocator works on the kernel's memory. *)
Definition pages {A} (m : M kmem A) : M kst A :=
  zoom (fun k => mkKmem (k_free k) (fs_km (k_fs k))) (fun x k => with_free (km_free x) (with_fs (with_km (km_mem x) (k_fs k)) k)) m.

(** A section of pipe.c, run by this process on the pipe at [pi]. *)
Definition on_pipe {A} (pi : Z) (m : M (pst (W := U)) A) : M kst A := fun k =>
  match k_pipes k !! pi with
  | None => Diverge k
  | Some p =>
      let back (s : pst) := with_pipes (<[pi := p_pipe s]> (k_pipes k))
        (with_fs (with_um (self 0 t_mem (fs_um (k_fs k)) s) (k_fs k)) k) in
      match m (mkP p false [mkT (fs_um (k_fs k)) (k_killed k) None Idle]) with
      | Ok a s => Ok a (back s)
      | Panic e s => Panic e (back s)
      | Diverge s => Diverge (back s)
      end
  end.
(** A call that may sleep. *)
Definition pipe_call (pi : Z) (m : M (pst (W := U)) sect) : M kst Z :=
  r ← on_pipe pi m;
  match r with Done r => mret r | Sleep _ => out_of_fuel end.

(** The first address after the kernel, the table of devices, and the bytes of
    padding in a [struct stat] on the stack. *)
Variable kend : Z.
Variable devsw_read devsw_write : Z -> option (bool -> Z -> Z -> M (fsys St U) Z).
Variable stat_pad : list Z.

Definition the_file (f : nat) (k : kst) : file := k_ftable k !!! f.
Definition fupd (f : nat) (g : file -> file) : M kst unit := modify (fun k => with_ftable (alter g f (k_ftable k)) k).

(** * file.c *)

Fixpoint filealloc_scan (l : list file) (i : nat) : option nat :=
  match l with
  | [] => None
  | f :: l' => if f_ref f =? 0 then Some i else filealloc_scan l' (S i)
  end.

Definition filealloc : M kst (option nat) :=
  t ← gets k_ftable;
  match filealloc_scan t 0 with
  | Some f => fupd f (set_fref 1);; mret (Some f)
  | None => mret None
  end.

Definition filedup (f : nat) : M kst nat :=
  x ← gets (the_file f);
  if f_ref x <? 1 then panic "filedup" else
  fupd f (fun x => set_fref (s32 (f_ref x + 1)) x);;
  mret f.

(** [pipeclose], with the page of the pipe freed when both ends are closed. *)
Definition fpipeclose (pi : Z) (writable : bool) : M kst unit :=
  freed ← on_pipe pi (pipeclose writable;; gets p_freed);
  if (freed : bool) then modify (fun k => with_pipes (delete pi (k_pipes k)) k);; pages (kfree kend pi) else mret tt.

Definition fileclose (f : nat) : M kst unit :=
  x ← gets (the_file f);
  if f_ref x <? 1 then panic "fileclose" else
  fupd f (fun x => set_fref (s32 (f_ref x - 1)) x);;
  ff ← gets (the_file f);
  if 0 <? f_ref ff then mret tt else
  fupd f (set_fref 0);;
  fupd f (set_ftype FD_NONE);;
  match f_type ff with
  | FD_PIPE => fpipeclose (f_pipe ff) (f_writable ff)
  | FD_INODE | FD_DEVICE => fsm begin_op;; fsm (iput (f_ip ff));; fsm end_op
  | FD_NONE => mret tt
  end.

(** The 24 bytes of a [struct stat]. *)
Definition stat_bytes (st : stat) : list Z :=
  le_bytes 4 (st_dev st) ++ le_bytes 4 (st_ino st) ++ le_bytes 2 (st_type st) ++ le_bytes 2 (st_nlink st) ++ stat_pad ++ le_bytes 8 (st_size st).

(** [copyout] to the process. *)
Definition copyout (dst : Z) (l : list Z) : M kst Z := fsm (either_copyout true dst l).

Definition filestat (f : nat) (addr : Z) : M kst Z :=
  x ← gets (the_file f);
  match f_type x with
  | FD_INODE | FD_DEVICE =>
      fsm (ilock (Some (f_ip x)));;
      st ← fsm (stati (f_ip x));
      fsm (iunlock (Some (f_ip x)));;
      r ← copyout addr (stat_bytes st);
      if r <? 0 then mret (-1) else mret 0
  | _ => mret (-1)
  end.

Definition fileread (f : nat) (addr n : Z) : M kst Z :=
  x ← gets (the_file f);
  if negb (f_readable x) then mret (-1) else
  match f_type x with
  | FD_PIPE => pipe_call (f_pipe x) (piperead 0 addr n)
  | FD_DEVICE =>
      if (f_major x <? 0) || (NDEV <=? f_major x) then mret (-1) else
      match devsw_read (f_major x) with
      | None => mret (-1)
      | Some rd => fsm (rd true addr n)
      end
  | FD_INODE =>
      fsm (ilock (Some (f_ip x)));;
      r ← fsm (readi (f_ip x) true addr (f_off x) (u32 n));
      (if 0 <? r then fupd f (fun x => set_off (u32 (f_off x + r)) x) else mret tt);;
      fsm (iunlock (Some (f_ip x)));;
      mret r
  | FD_NONE => panic "fileread"
  end.

(** [(MAXOPBLOCKS - 1 - 1 - 2) / 2 * BSIZE]. *)
Definition WRITE_MAX : Z := (MAXOPBLOCKS - 1 - 1 - 2) / 2 * BSZ.

(** One transaction of [filewrite]. *)
Definition filewrite_chunk (f : nat) (addr i n1 : Z) : M kst Z :=
  x ← gets (the_file f);
  fsm begin_op;;
  fsm (ilock (Some (f_ip x)));;
  r ← fsm (writei (f_ip x) true (u64 (addr + i)) (f_off x) (u32 n1));
  (if 0 <? r then fupd f (fun x => set_off (u32 (f_off x + r)) x) else mret tt);;
  fsm (iunlock (Some (f_ip x)));;
  fsm end_op;;
  mret r.

(** The loop of [filewrite]: the bytes written. *)
Fixpoint filewrite_loop (fuel : nat) (f : nat) (addr n i : Z) : M kst Z :=
  match fuel with
  | O => out_of_fuel
  | S fuel' =>
      if negb (i <? n) then mret i else
      let n1 := Z.min (n - i) WRITE_MAX in
      r ← filewrite_chunk f addr i n1;
      if negb (r =? n1) then mret i else filewrite_loop fuel' f addr n (i + r)
  end.

Definition filewrite (f : nat) (addr n : Z) : M kst Z :=
  x ← gets (the_file f);
  if negb (f_writable x) then mret (-1) else
  match f_type x with
  | FD_PIPE => pipe_call (f_pipe x) (pipewrite 0 addr n 0)
  | FD_DEVICE =>
      if (f_major x <? 0) || (NDEV <=? f_major x) then mret (-1) else
      match devsw_write (f_major x) with
      | None => mret (-1)
      | Some wr => fsm (wr true addr n)
      end
  | FD_INODE =>
      i ← filewrite_loop (S (Z.to_nat n)) f addr n 0;
      mret (if i =? n then n else -1)
  | FD_NONE => panic "filewrite"
  end.

(** * pipealloc *)

(** The new pipe in its page, its buffer holding the junk of [kalloc]. *)
Definition new_pipe : pipe := mkPipe (replicate (Z.to_nat PIPESIZE) 5) 0 0 true true.

(** [bad]: only the files that were allocated are closed; no page was. *)
Definition pipealloc_bad (f0 f1 : option nat) : M kst (option (nat * nat)) :=
  (match f0 with Some f => fileclose f | None => mret tt end);;
  (match f1 with Some f => fileclose f | None => mret tt end);;
  mret None.

Definition pipealloc : M kst (option (nat * nat)) :=
  f0 ← filealloc;
  match f0 with
  | None => pipealloc_bad None None
  | Some a =>
      f1 ← filealloc;
      match f1 with
      | None => pipealloc_bad f0 None
      | Some b =>
          pi ← pages kalloc;
          if pi =? 0 then pipealloc_bad f0 f1 else
          modify (fun k => with_pipes (<[pi := new_pipe]> (k_pipes k)) k);;
          fupd a (fun x => set_fpipe pi (set_fmode true false (set_ftype FD_PIPE x)));;
          fupd b (fun x => set_fpipe pi (set_fmode false true (set_ftype FD_PIPE x)));;
          mret (Some (a, b))
      end
  end.
End File.

Arguments kst : clear implicits.
