(* ===== verification/XFileSpec.v ===== *)
(** reference/xv6-riscv/kernel/file.c: reading and writing open files.

    [filewrite] splits a write into transactions; [fileread] and [filewrite]
    are proved against the content of the file, and each transaction of
    [filewrite] to be all or nothing across a crash. *)

From Stdlib Require Import ZArith Lia.
From stdpp Require Import base strings numbers gmap list.
From S2P Require Import Prelude Mem Riscv Vm XBytes XKalloc XPipe XStore XBio XLog XTxn XTx XFs XBlocks XInode XRead XWrite XIupd XFile XTrunc XItable XDir XPath XFtable.

Lemma s16_range x : - 2 ^ 15 <= s16 x < 2 ^ 15.
Proof.
  unfold s16. pose proof (Z.mod_pos_bound x (2 ^ 16) ltac:(done)). cbv zeta. destruct (Z.ltb_spec (x mod 2 ^ 16) (2 ^ 15)); lia.
Qed.

(** What is on disk fits its types. *)
Lemma dinode_fits sb cur inum : meta_fits (dinode_at sb cur inum).
Proof. unfold dinode_at, get_dinode, gets16. split_and!; cbn [di_type di_major di_minor di_nlink]; apply s16_range. Qed.

Lemma splice_app off (l1 l2 c : list Z) : (off <= length c)%nat -> splice (off + length l1) l2 (splice off l1 c) = splice off (l1 ++ l2) c.
Proof.
  intros Ho. unfold splice. rewrite (app_assoc (take off c) l1). rewrite take_app_length' by (rewrite length_app, length_take; lia).
  rewrite drop_app_ge by (rewrite length_app, length_take; lia). rewrite drop_drop, length_app, length_app, length_take, <- !app_assoc. do 3 f_equal. f_equal. lia.
Qed.

(** * The file system between two transactions *)

Section Rest.
Context {St : Type} `{TxStore St} {U : Type} `{CopyMem U}.
Implicit Types s : fsys St U.
Context (sb : superblock).

Record at_rest (ts : tstore) (s : fsys St U) : Prop := {
  ar_ready : ready sb ts s;
  ar_unlocked : unlocked (fs_itable s);
  ar_tx : ts_tx ts = false;
  ar_rec : ts_rec ts = ∅
}.

(** Inode [inum] of the disk, well formed and allocated, in entry [ip] of the
    table. *)
Record inode_in (ts : tstore) (s : fsys St U) (ip : nat) (inum : Z) (d : dinode) : Prop := {
  ii_entry : entry_for (fs_itable s) ip inum;
  ii_disk : dinode_at sb (ts_cur ts) inum = d;
  ii_type : di_type d <> 0;
  ii_ok : inode_ok sb (ts_cur ts) d
}.

(** Other inodes and files are as before. *)
Record others_same (ts : tstore) (inum : Z) (d : dinode) (ts' : tstore) (d' : dinode) : Prop := {
  os_inodes j : inum_ok sb j -> j <> inum -> dinode_at sb (ts_cur ts') j = dinode_at sb (ts_cur ts) j;
  os_files d0 : inode_ok sb (ts_cur ts) d0 -> apart (ts_cur ts) d d0 ->
    inode_ok sb (ts_cur ts') d0 /\ apart (ts_cur ts') d' d0 /\ fcontent (ts_cur ts') d0 = fcontent (ts_cur ts) d0
}.

Lemma others_refl ts inum d : others_same ts inum d ts d.
Proof. by split. Qed.

Lemma others_trans ts inum d ts1 d1 ts2 d2 : others_same ts inum d ts1 d1 -> others_same ts1 inum d1 ts2 d2 -> others_same ts inum d ts2 d2.
Proof.
  intros [I1 F1] [I2 F2]. split.
  - intros j Hj Hne. rewrite I2, I1; done.
  - intros d0 Ho Ha. destruct (F1 d0 Ho Ha) as (Ho1 & Ha1 & E1). destruct (F2 d0 Ho1 Ha1) as (Ho2 & Ha2 & E2). split_and!; [done|done|congruence].
Qed.

Definition upd_fs (t : list inode) (x : St) (c : list (string * list Z)) (s : fsys St U) : fsys St U := with_st x (with_con c (with_itable t s)).

(** [ilock] of a file. *)
Lemma lock_inode ts s ip inum d : ready sb ts s -> unlocked (fs_itable s) -> inode_in ts s ip inum d ->
  exists t y, let s1 := moved t (fs_km s) y s in ilock (Some ip) s = Ok tt s1 /\ ifile sb ip inum d ts s1 /\ tab_ok sb (ts_cur ts) t /\
    entry_for t ip inum /\ locked_at ip (fs_pid s) t /\ forall j, refs t j = refs (fs_itable s) j.
Proof.
  intros R Hu [He Ed Hty Hok]. pose proof R as [Es Hs Hf Hh Ht]. destruct He as (z & Hz & Hzr & Ez).
  pose proof (ilock_run sb ts s ip z R Hz Hzr (Hu ip z Hz)) as Hl. cbv zeta in Hl. rewrite Ez, Ed, decide_False in Hl by tauto. destruct Hl as (y & E1 & Hy & _).
  set (z1 := lock_entry sb (ts_cur ts) (fs_pid s) z) in *. set (t := <[ip := z1]> (fs_itable s)).
  pose proof (lookup_lt_Some _ _ _ Hz) as Hlt. assert (t !! ip = Some z1) as Hz1 by (by apply list_lookup_insert_eq).
  exists t, y. cbv zeta. assert (the_inode ip (moved t (fs_km s) y s) = z1) as Eip by (by apply the_inode_tab).
  split; [exact E1|]. split; [|split; [apply tab_lock; [done|done|done|by rewrite Ez, Ed]|split; [by exists z1|split; [split|]]]].
  - split; [|by rewrite Eip|rewrite <- Ez; by apply (tb_dev _ _ _ Ht ip z Hz Hzr)|rewrite <- Ed; apply dinode_fits].
    split; [done|exact Hy|done|done| |done]. split; [exact (lookup_lt_Some _ _ _ Hz1)|rewrite Eip; cbn; by rewrite Ez|rewrite Eip; cbn; apply (tb_dev _ _ _ Ht ip z Hz Hzr)].
  - intros k w Hw Hne. unfold t in Hw. rewrite list_lookup_insert_ne in Hw by done. by apply (Hu k w).
  - by exists z1.
  - intros j. unfold t. rewrite (refs_insert _ ip z) by done. unfold ref_of. cbn [z1 lock_entry i_inum i_ref]. lia.
Qed.

(** [begin_op] and [ilock] open a file for a transaction. *)
Lemma open_for_write ts s ip inum d : at_rest ts s -> inode_in ts s ip inum d ->
  exists x s1 y t, begin_op s = Ok tt (with_st x s) /\ ilock (Some ip) (with_st x s) = Ok tt s1 /\ s1 = moved t (fs_km s) y s /\
    ifile sb ip inum d (ts_open ts) s1 /\ tab_ok sb (ts_cur ts) t /\ entry_for t ip inum /\ locked_at ip (fs_pid s) t /\ room 28 (ts_open ts) /\
    (forall j, refs t j = refs (fs_itable s) j).
Proof.
  intros [R Hu Htx Hrec] Hin. pose proof R as [Es Hs Hf Hh Ht]. destruct (t_begin_spec _ _ Hs Htx) as (x & E0 & Hx).
  assert (ready sb (ts_open ts) (with_st x s)) as R1 by (split; [done|exact Hx|destruct Hf; by split|done|done]).
  destruct (lock_inode (ts_open ts) (with_st x s) ip inum d R1 Hu) as (t & y & E1 & Hif & Ht1 & He1 & Hl1 & Hr1); [destruct Hin; by split|].
  exists x, (moved t (fs_km s) y s), y, t. split; [by apply tx_run|]. split; [exact E1|]. split; [done|]. split; [exact Hif|]. split_and!; try done.
  split; [done|]. cbn [ts_open ts_rec]. rewrite Hrec, size_empty. unfold TXMAX. lia.
Qed.

(** [iunlock] of the only locked inode. *)
Lemma unlock_inode cur s ip inum : tab_ok sb cur (fs_itable s) -> entry_for (fs_itable s) ip inum -> locked_at ip (fs_pid s) (fs_itable s) ->
  exists t, iunlock (Some ip) s = Ok tt (with_itable t s) /\ tab_ok sb cur t /\ unlocked t /\ entry_for t ip inum /\ forall j, refs t j = refs (fs_itable s) j.
Proof.
  intros Ht (z & Hz & Hzr & Ez) [Hu (z' & Hz' & Hl)]. rewrite Hz in Hz'. injection Hz' as <-. pose proof (lookup_lt_Some _ _ _ Hz) as Hlt.
  exists (<[ip := set_ilock (mkSleep 0 0) z]> (fs_itable s)). split; [by apply iunlock_run|]. split; [|split; [|split]].
  - apply (tab_change sb cur _ ip z); try done; cbn; [lia|]. intros _. by apply (tb_sync _ _ _ Ht ip z).
  - intros k w Hw. destruct (decide (k = ip)) as [->|Hne].
    + rewrite list_lookup_insert_eq in Hw by done. by injection Hw as <-.
    + rewrite list_lookup_insert_ne in Hw by done. by apply (Hu k w).
  - exists (set_ilock (mkSleep 0 0) z). split; [by apply list_lookup_insert_eq|done].
  - intros j. rewrite (refs_insert _ ip z) by done. unfold ref_of. cbn [set_ilock i_inum i_ref]. lia.
Qed.

Lemma close_inode ts s ip inum d : ifile sb ip inum d ts s -> ts_tx ts = true -> tab_ok sb (ts_cur ts) (fs_itable s) -> entry_for (fs_itable s) ip inum ->
  locked_at ip (fs_pid s) (fs_itable s) -> di_type d <> 0 -> dinode_at sb (ts_cur ts) inum = d ->
  exists t x, iunlock (Some ip) s = Ok tt (with_itable t s) /\ end_op (with_itable t s) = Ok tt (with_st x (with_itable t s)) /\
    at_rest (ts_close ts) (with_st x (with_itable t s)) /\ inode_in (ts_close ts) (with_st x (with_itable t s)) ip inum d /\
    forall j, refs t j = refs (fs_itable s) j.
Proof.
  intros [F _ Hi Hm] Htx Ht He Hl Hty Ed. pose proof F as [Es Hs Hf Hh _ Hok]. destruct (unlock_inode (ts_cur ts) s ip inum Ht He Hl) as (t & E1 & Ht1 & Hu1 & He1 & Hr1).
  destruct (t_end_spec (fs_st (with_itable t s)) ts Hs Htx Hh) as (x & E2 & Hx). exists t, x. split; [done|]. split; [by apply tx_run|].
  split; [|split; [|done]].
  - split; [|done|done|done]. split; [done|exact Hx|destruct Hf; by split|done|done].
  - by split.
Qed.

(** The table after [writei]. *)
Lemma wrote_table user s ts ip inum d src off n t d' ts' x c : tab_ok sb (ts_cur ts) (fs_itable s) -> entry_for (fs_itable s) ip inum ->
  locked_at ip (fs_pid s) (fs_itable s) -> di_type d <> 0 -> wrote sb user s ts inum d src off n t d' ts' ->
  tab_ok sb (ts_cur ts') (fs_itable (chg ip d' x c s)) /\ entry_for (fs_itable (chg ip d' x c s)) ip inum /\
  locked_at ip (fs_pid s) (fs_itable (chg ip d' x c s)) /\ (forall j, refs (fs_itable (chg ip d' x c s)) j = refs (fs_itable s) j).
Proof.
  intros Ht (z & Hz & Hzr & Ez) [Hu (z' & Hz' & Hl)] Hty W. rewrite Hz in Hz'. injection Hz' as <-. pose proof (wt_meta _ _ _ _ _ _ _ _ _ _ _ _ W) as (Et & _).
  cbn [chg fs_itable]. pose proof (lookup_lt_Some _ _ _ Hz) as Hlt.
  assert (alter (set_d d') ip (fs_itable s) = <[ip := set_d d' z]> (fs_itable s)) as Ea.
  { rewrite list_insert_alter. apply list_alter_ext; [|done]. intros w Hw. congruence. }
  split; [|rewrite Ea; split; [|split; [split|]]].
  - apply (tab_written sb (ts_cur ts) _ _ ip inum); [done|by exists z|apply W|by rewrite Et|apply W].
  - exists (set_d d' z). split; [by apply list_lookup_insert_eq|done].
  - intros k w Hw Hne. rewrite list_lookup_insert_ne in Hw by done. by apply (Hu k w).
  - exists (set_d d' z). split; [by apply list_lookup_insert_eq|done].
  - intros j. rewrite (refs_insert _ ip z) by done. unfold ref_of. cbn [set_d i_inum i_ref]. lia.
Qed.
End Rest.

(** * filewrite *)

Section Filewrite.
Context {St : Type} `{TxStore St} {U : Type} `{CopyMem U} `{UserMem U}.
Implicit Types k : kst St U.
Context (sb : superblock).

Lemma fsm_run {A} (m : M (fsys St U) A) k a s : m (k_fs k) = Ok a s -> fsm m k = Ok a (with_fs s k).
Proof. apply zoom_ok. Qed.

Lemma write_max_blocks off n1 : 0 <= off -> n1 <= WRITE_MAX -> (6 * nblk off n1 + 1 <= 28)%nat.
Proof.
  intros Ho Hn. change WRITE_MAX with 3072 in Hn. unfold nblk, BSZ. pose proof (Z.mod_pos_bound off 1024 ltac:(done)). destruct (Z.leb_spec n1 0); [lia|].
  assert ((off mod 1024 + n1 + 1024 - 1) / 1024 < 5); [|lia]. apply Z.div_lt_upper_bound; lia.
Qed.

(** The state with another file system and offset of file [f]. *)
Definition advanced (f : nat) (off : Z) (s : fsys St U) (k : kst St U) : kst St U :=
  with_ftable (alter (set_off off) f (k_ftable k)) (with_fs s k).

Lemma set_off_self f F (t : list file) : t !! f = Some F -> alter (set_off (f_off F)) f t = t.
Proof. intros Hf. rewrite (list_alter_ext _ id _ t); [by apply list_alter_id| |done]. intros x Hx. rewrite Hf in Hx. injection Hx as <-. by destruct F. Qed.

(** [if(r > 0) f->off += r]. *)
Lemma advance_run f F r k : k_ftable k !! f = Some F -> 0 <= r -> 0 <= f_off F -> f_off F + r < 2 ^ 32 ->
  (if 0 <? r then fupd f (fun x => set_off (u32 (f_off x + r)) x) else mret tt) k = Ok tt (advanced f (f_off F + r) (k_fs k) k).
Proof.
  intros Hf Hr Ho Hb. destruct (Z.ltb_spec 0 r) as [Hlt|Hge].
  - unfold fupd, modify, advanced. do 2 f_equal; [|by destruct k]. apply list_alter_ext; [|done]. intros x Hx. rewrite Hf in Hx. injection Hx as <-.
    by rewrite u32_small by lia.
  - assert (r = 0) as -> by lia. rewrite Z.add_0_r. unfold advanced. rewrite (set_off_self f F) by done. by destruct k.
Qed.

(** What a transaction of [filewrite] does before it ends. *)
Record chunk_done (k : kst St U) (ts : tstore) (ip : nat) (inum : Z) (d : dinode) (src off n1 t : Z) (d' : dinode) (ts1 : tstore) : Prop := {
  cd_range : 0 <= t <= n1;
  cd_size : di_size d' = Z.max (di_size d) (off + t);
  cd_type : di_type d' = di_type d;
  cd_content : fcontent (ts_cur ts1) d' = splice (Z.to_nat off) (mbytes true (k_fs k) src t) (fcontent (ts_cur ts) d);
  cd_end : t = n1 \/ free_blocks sb (ts_cur ts1) = [];
  cd_others : others_same sb ts inum d ts1 d';
  cd_base : ts_base ts1 = ts_base ts /\ ts_start ts1 = ts_start ts /\ ts_tx ts1 = true /\ ts_held ts1 = ∅
}.

Lemma chunk_run k f F ts ip inum d addr i n1 : at_rest sb ts (k_fs k) -> inode_in sb ts (k_fs k) ip inum d -> k_ftable k !! f = Some F -> f_ip F = ip ->
  0 <= f_off F <= di_size d -> 0 <= n1 <= WRITE_MAX -> f_off F + n1 <= MAXFILE * BSZ -> 0 <= addr + i -> addr + i + n1 < 2 ^ 64 ->
  mem_ok true (k_fs k) (addr + i) n1 ->
  exists t d' ts1 tab x0 x c, let s0 := upd_fs tab x0 c (k_fs k) in let s1 := upd_fs tab x c (k_fs k) in
    filewrite_chunk f addr i n1 k = (fsm end_op;; mret t) (advanced f (f_off F + t) s0 k) /\ t_st x0 ts1 /\
    end_op s0 = Ok tt s1 /\ chunk_done k ts ip inum d (addr + i) (f_off F) n1 t d' ts1 /\
    at_rest sb (ts_close ts1) s1 /\ inode_in sb (ts_close ts1) s1 ip inum d' /\ forall j, refs tab j = refs (fs_itable (k_fs k)) j.
Proof.
  intros Ha Hin Hf <- Hoff Hn Hmax Hs Hs' Hmem. set (s := k_fs k) in *. set (ip := f_ip F) in *. change WRITE_MAX with 3072 in Hn. unfold MAXFILE, BSZ in Hmax.
  destruct (open_for_write sb ts s ip inum d Ha Hin) as (x & s1 & y & tab1 & E1 & E2 & Es1 & Hif & Ht1 & He1 & Hl1 & Hroom & Hr1).
  unfold filewrite_chunk. mstep. unfold the_file. rewrite (list_lookup_total_correct _ _ _ Hf). fold ip.
  mrun (fsm_run begin_op k tt _ E1). mrun (fsm_run (ilock (Some ip)) (with_fs (with_st x s) k) tt s1 E2).
  change (with_fs s1 (with_fs (with_st x s) k)) with (with_fs s1 k). rewrite (u64_small (addr + i)), (u32_small n1) by lia.
  destruct (writei_run sb true s1 (ts_open ts) ip inum d (addr + i) (f_off F) n1 Hif) as (t & d' & x3 & c & ts1 & E3 & Hif' & W); try lia; [unfold MAXFILE, BSZ; lia|..].
  { apply (room_le 28); [done|]. apply write_max_blocks; [lia|change WRITE_MAX with 3072; lia]. }
  mrun (fsm_run (writei ip true (addr + i) (f_off F) n1) (with_fs s1 k) t _ E3). set (s3 := chg ip d' x3 c s1) in *.
  pose proof (wt_range _ _ _ _ _ _ _ _ _ _ _ _ W) as Ht.
  mrun (advance_run f F t (with_fs s3 (with_fs s1 k)) Hf ltac:(lia) ltac:(lia) ltac:(lia)).
  assert (locked_at ip (fs_pid s1) (fs_itable s1) /\ tab_ok sb (ts_cur (ts_open ts)) (fs_itable s1) /\ entry_for (fs_itable s1) ip inum) as (Hl & Ht0 & He0) by (by rewrite Es1).
  destruct (wrote_table sb true s1 (ts_open ts) ip inum d _ _ _ _ d' ts1 x3 c Ht0 He0 Hl (ii_type _ _ _ _ _ _ Hin) W) as (Ht3 & He3 & Hl3 & Hr3). fold s3 in Ht3, He3, Hl3, Hr3.
  destruct (wt_tx _ _ _ _ _ _ _ _ _ _ _ _ W) as (Htx & Hbase & Hstart). destruct (wt_meta _ _ _ _ _ _ _ _ _ _ _ _ W) as (Ety & _).
  destruct (close_inode sb ts1 s3 ip inum d' Hif' Htx Ht3 He3 Hl3 ltac:(rewrite Ety; apply Hin) (wt_disk _ _ _ _ _ _ _ _ _ _ _ _ W))
    as (tab & x5 & E4 & E5 & Ha' & Hin' & Hr5).
  assert (forall z, with_st z (with_itable tab s3) = upd_fs tab z c s) as Eu by (intros z; unfold s3; by rewrite Es1).
  rewrite Eu in Ha', Hin', E5. exists t, d', ts1, tab, x3, x5, c. cbv zeta. split; [|split; [|split; [|split; [|split; [done|split; [done|]]]]]].
  - match goal with |- context [(fsm (iunlock (Some ip)) ≫= ?g) ?kk] =>
      rewrite (bind_ok (fsm (iunlock (Some ip))) g kk tt (with_fs (with_itable tab s3) kk) (fsm_run _ kk tt _ E4)) end.
    rewrite <- (Eu x3). done.
  - apply (fa_st _ _ _ _ _ (if_file _ _ _ _ _ _ Hif')).
  - rewrite <- (Eu x3). exact E5.
  - assert (mem_ok true s1 (addr + i) n1) as Hm1 by (by rewrite Es1). assert (mbytes true s1 (addr + i) t = mbytes true s (addr + i) t) as Em by (by rewrite Es1).
    pose proof (wt_content _ _ _ _ _ _ _ _ _ _ _ _ W) as Hc. rewrite decide_True in Hc by done. destruct Hc as [Hc Hend]. split; try done.
    + by apply (wt_size _ _ _ _ _ _ _ _ _ _ _ _ W).
    + rewrite Hc, Em. unfold splice. rewrite mbytes_length. do 2 f_equal. f_equal. lia.
    + split; [apply (wt_inodes _ _ _ _ _ _ _ _ _ _ _ _ W)|]. intros d0 G1 G2. by destruct (wt_files _ _ _ _ _ _ _ _ _ _ _ _ W d0 G1 G2) as (? & ? & ? & _).
    + split_and!; [done|done|done|apply (fa_held _ _ _ _ _ (if_file _ _ _ _ _ _ Hif'))].
  - intros j. rewrite Hr5, Hr3, Es1. apply Hr1.
Qed.

(** [w] of [n] bytes at [src] have been stored at [off] of the file. *)
Record file_written (s : fsys St U) (ts : tstore) (inum : Z) (d : dinode) (src off n w : Z) (d' : dinode) (ts' : tstore) : Prop := {
  fw_range : 0 <= w <= n;
  fw_size : di_size d' = Z.max (di_size d) (off + w);
  fw_type : di_type d' = di_type d;
  fw_content : fcontent (ts_cur ts') d' = splice (Z.to_nat off) (mbytes true s src w) (fcontent (ts_cur ts) d);
  fw_end : w = n \/ free_blocks sb (ts_cur ts') = [];
  fw_others : others_same sb ts inum d ts' d'
}.

Lemma mbytes_app (s : fsys St U) a w w' : 0 <= w -> 0 <= w' -> mbytes true s a w ++ mbytes true s (a + w) w' = mbytes true s a (w + w').
Proof.
  intros Hw Hw'. unfold mbytes. rewrite Z2Nat.inj_add, zseq_app, fmap_app by done. f_equal. rewrite Z2Nat.id by done.
  apply list_eq. intros i. rewrite !list_lookup_fmap. destruct (decide (i < Z.to_nat w')%nat).
  - rewrite !zseq_lookup by done. cbn. do 2 f_equal. lia.
  - rewrite !lookup_ge_None_2 by (rewrite zseq_length; lia). done.
Qed.

(** One transaction more. *)
Lemma written_more k ts ip inum d src off n t d1 ts1 s1 w d' ts' : chunk_done k ts ip inum d src off t t d1 ts1 -> 0 <= off <= di_size d ->
  fs_um s1 = fs_um (k_fs k) -> file_written s1 (ts_close ts1) inum d1 (src + t) (off + t) (n - t) w d' ts' -> file_written (k_fs k) ts inum d src off n (t + w) d' ts'.
Proof.
  intros [C1 C2 C3 C4 C5 C6 C7] Hoff Hum [W1 W2 W3 W4 W5 W6]. split.
  - lia.
  - rewrite W2, C2. lia.
  - congruence.
  - rewrite W4. cbn [ts_close ts_cur]. rewrite C4. replace (Z.to_nat (off + t)) with (Z.to_nat off + length (mbytes true (k_fs k) src t))%nat by (rewrite mbytes_length; lia).
    rewrite splice_app by (rewrite fcontent_length; lia). f_equal. replace (mbytes true s1 (src + t) w) with (mbytes true (k_fs k) (src + t) w).
    + apply mbytes_app; lia.
    + apply list_fmap_ext. intros i j _. cbn. by rewrite Hum.
  - destruct W5; [left; lia|by right].
  - apply (others_trans sb ts inum d (ts_close ts1) d1); [|done]. destruct C6. by split.
Qed.

Lemma filewrite_loop_ok fuel : forall k f F ts ip inum d addr n i, at_rest sb ts (k_fs k) -> inode_in sb ts (k_fs k) ip inum d ->
  k_ftable k !! f = Some F -> f_ip F = ip -> 0 <= f_off F <= di_size d -> 0 <= i <= n -> f_off F + (n - i) <= MAXFILE * BSZ -> 0 <= addr -> addr + n < 2 ^ 64 ->
  mem_ok true (k_fs k) (addr + i) (n - i) -> n - i < Z.of_nat fuel ->
  exists r w d' ts' tab x c, let s1 := upd_fs tab x c (k_fs k) in
    filewrite_loop fuel f addr n i k = Ok r (advanced f (f_off F + w) s1 k) /\ (r =? n) = (w =? n - i) /\
    file_written (k_fs k) ts inum d (addr + i) (f_off F) (n - i) w d' ts' /\
    at_rest sb ts' s1 /\ inode_in sb ts' s1 ip inum d' /\ forall j, refs tab j = refs (fs_itable (k_fs k)) j.
Proof.
  induction fuel as [|fuel IH]; intros k f F ts ip inum d addr n i Ha Hin Hf Hip Hoff Hi Hmax Had Had' Hmem Hfu; [lia|]. cbn [filewrite_loop].
  destruct (Z.ltb_spec i n) as [Hlt|Hge]; cbn [negb].
  2: { assert (i = n) as -> by lia. rewrite Z.sub_diag in *. exists n, 0, d, ts, (fs_itable (k_fs k)), (fs_st (k_fs k)), (fs_con (k_fs k)). cbv zeta.
       assert (upd_fs (fs_itable (k_fs k)) (fs_st (k_fs k)) (fs_con (k_fs k)) (k_fs k) = k_fs k) as -> by (by destruct (k_fs k)).
       split; [|split; [by rewrite !Z.eqb_refl|split; [|done]]].
       - rewrite Z.add_0_r. unfold advanced. rewrite (set_off_self f F) by done. by destruct k.
       - split; [lia|lia|done| |by left|by apply others_refl]. change (mbytes true (k_fs k) (addr + n) 0) with (@nil Z). by rewrite splice_nil. }
  cbv zeta. set (n1 := Z.min (n - i) WRITE_MAX). assert (0 < n1 <= n - i /\ n1 <= WRITE_MAX) as [Hn1 Hn2] by (unfold n1; change WRITE_MAX with 3072; lia).
  destruct (chunk_run k f F ts ip inum d addr i n1 Ha Hin Hf Hip Hoff ltac:(lia) ltac:(lia) ltac:(lia) ltac:(lia)) as (t & d1 & ts1 & tab & x0 & x & c & E & _ & Ee & C & Ha1 & Hin1 & Hr1).
  { intros j Hj. apply Hmem. lia. }
  pose proof (cd_range _ _ _ _ _ _ _ _ _ _ _ C) as Ht. set (s1 := upd_fs tab x c (k_fs k)) in *. set (k1 := advanced f (f_off F + t) s1 k).
  assert (filewrite_chunk f addr i n1 k = Ok t k1) as E1.
  { rewrite E. match goal with |- (fsm end_op ≫= ?g) ?kk = _ => rewrite (bind_ok (fsm end_op) g kk tt _ (fsm_run end_op kk tt s1 Ee)) end. done. }
  mrun E1. destruct (Z.eqb_spec t n1) as [->|Hne]; cbn [negb].
  - assert (k_ftable k1 !! f = Some (set_off (f_off F + n1) F)) as Hf1 by (cbn; by rewrite list_lookup_alter_eq, Hf).
    destruct (IH k1 f _ (ts_close ts1) ip inum d1 addr n (i + n1) Ha1 Hin1 Hf1 Hip) as (r & w & d' & ts' & tab2 & x2 & c2 & E2 & Er & Fw & Ha2 & Hin2 & Hr2).
    + cbn. rewrite (cd_size _ _ _ _ _ _ _ _ _ _ _ C). lia.
    + lia.
    + cbn. lia.
    + lia.
    + lia.
    + intros j Hj. replace (addr + (i + n1) + j) with (addr + i + (n1 + j)) by lia. apply Hmem. lia.
    + lia.
    + cbn [set_off f_off] in E2, Fw. exists r, (n1 + w), d', ts', tab2, x2, c2. cbv zeta.
      split; [|split; [|split; [|split; [done|split; [done|]]]]].
      * rewrite Z.add_assoc. etransitivity; [exact E2|]. f_equal. unfold k1, advanced. cbn [k_ftable with_ftable with_fs k_fs]. rewrite list_alter_alter_eq.
        unfold with_ftable, with_fs. cbn. f_equal.
      * rewrite Er. destruct (Z.eqb_spec w (n - (i + n1))), (Z.eqb_spec (n1 + w) (n - i)); lia.
      * replace (addr + (i + n1)) with (addr + i + n1) in Fw by lia. replace (n - (i + n1)) with (n - i - n1) in Fw by lia.
        by apply (written_more k ts ip inum d (addr + i) (f_off F) (n - i) n1 d1 ts1 s1 w d' ts').
      * intros j. rewrite Hr2. apply Hr1.
  - exists i, t, d1, (ts_close ts1), tab, x, c. cbv zeta. split; [done|]. split; [|split; [|done]].
    + destruct (Z.eqb_spec i n), (Z.eqb_spec t (n - i)); lia.
    + destruct C as [C1 C2 C3 C4 C5 C6 C7]. split; [lia|done|done|done|right; by destruct C5|destruct C6; by split].
Qed.

(** C11: [filewrite] on a file: the bytes of memory are stored from the offset
    on, in transactions of at most 3072 bytes that fit the log, and the offset
    moves behind them; it returns the number of bytes, or -1 when the disk is
    full, in which case the bytes in front of the offset are stored.  The inode
    on disk and in the table agree, no inode stays locked, references, other
    inodes and other files are as before.  On a file that is not open for
    writing it returns -1. *)
Theorem filewrite_correct devsw_write k f F ts inum d addr n : at_rest sb ts (k_fs k) -> inode_in sb ts (k_fs k) (f_ip F) inum d ->
  k_ftable k !! f = Some F -> f_type F = FD_INODE -> 0 <= f_off F <= di_size d -> 0 <= n -> f_off F + n <= MAXFILE * BSZ ->
  0 <= addr -> addr + n < 2 ^ 64 -> mem_ok true (k_fs k) addr n ->
  if f_writable F then
    exists w d' ts' tab x c, let s1 := upd_fs tab x c (k_fs k) in
      filewrite devsw_write f addr n k = Ok (if w =? n then n else -1) (advanced f (f_off F + w) s1 k) /\
      file_written (k_fs k) ts inum d addr (f_off F) n w d' ts' /\
      at_rest sb ts' s1 /\ inode_in sb ts' s1 (f_ip F) inum d' /\ forall j, refs tab j = refs (fs_itable (k_fs k)) j
  else filewrite devsw_write f addr n k = Ok (-1) k.
Proof.
  intros Ha Hin Hf Hty Hoff Hn Hmax Had Had' Hmem. unfold filewrite. mstep. unfold the_file. rewrite (list_lookup_total_correct _ _ _ Hf), Hty.
  destruct (f_writable F); [|done]. cbn [negb].
  destruct (filewrite_loop_ok (S (Z.to_nat n)) k f F ts (f_ip F) inum d addr n 0 Ha Hin Hf eq_refl Hoff) as (r & w & d' & ts' & tab & x & c & E & Er & Fw & Hrest);
    rewrite ?Z.sub_0_r, ?Z.add_0_r; try lia; [done|].
  rewrite Z.sub_0_r in Er. rewrite Z.sub_0_r, Z.add_0_r in Fw. mrun E. rewrite Er. by exists w, d', ts', tab, x, c.
Qed.

(** * fileread *)

(** C21: [fileread] on a file copies the bytes from the offset on to the
    process, as many as asked for and as the file has, moves the offset behind
    them and returns their number; -1 when the memory cannot be written or the
    file is not open for reading.  It changes nothing on disk, leaves no inode
    locked and the references as they were. *)
Theorem fileread_correct devsw_read k f F ts inum d addr n : at_rest sb ts (k_fs k) -> inode_in sb ts (k_fs k) (f_ip F) inum d ->
  k_ftable k !! f = Some F -> f_type F = FD_INODE -> 0 <= f_off F <= di_size d -> 0 <= n < 2 ^ 31 -> 0 <= addr -> addr + n < 2 ^ 64 ->
  let n' := Z.min n (di_size d - f_off F) in
  if f_readable F then
    exists s1 tab, at_rest sb ts s1 /\ inode_in sb ts s1 (f_ip F) inum d /\ fs_itable s1 = tab /\ (forall j, refs tab j = refs (fs_itable (k_fs k)) j) /\
      if decide (mem_ok true (k_fs k) addr n') then
        fileread devsw_read f addr n k = Ok n' (advanced f (f_off F + n') s1 k) /\
        copied true addr (slice (Z.to_nat (f_off F)) (Z.to_nat n') (fcontent (ts_cur ts) d)) (k_fs k) s1
      else fileread devsw_read f addr n k = Ok (-1) (with_fs s1 k)
  else fileread devsw_read f addr n k = Ok (-1) k.
Proof.
  intros Ha Hin Hf Hty Hoff Hn Had Had' n'. unfold fileread. mstep. unfold the_file. rewrite (list_lookup_total_correct _ _ _ Hf), Hty.
  destruct (f_readable F); [|done]. cbn [negb]. set (s := k_fs k) in *. set (ip := f_ip F) in *.
  destruct (lock_inode sb ts s ip inum d (ar_ready _ _ _ Ha) (ar_unlocked _ _ _ Ha) Hin) as (t1 & y & E1 & [F1 _ _ _] & Ht1 & He1 & Hl1 & Hr1).
  remember (moved t1 (fs_km s) y s) as s1 eqn:Es1. mrun (fsm_run (ilock (Some ip)) k tt s1 E1).
  pose proof (io_size _ _ _ (fa_ok _ _ _ _ _ F1)) as Hsz. unfold MAXFILE, BSZ in Hsz. rewrite (u32_small n) by lia.
  destruct (readi_ok sb ip d ts true s1 addr (f_off F) n F1 ltac:(lia) ltac:(lia) ltac:(lia) Had Had') as (u & m & x & Hx & Hrd).
  assert (readable d (f_off F) n = n') as En by (unfold readable, n'; destruct (Z.leb_spec (f_off F + n) (di_size d)); lia). rewrite En in Hrd.
  assert (locked_at ip (fs_pid s1) (fs_itable (out u m x s1)) /\ tab_ok sb (ts_cur ts) (fs_itable (out u m x s1)) /\ entry_for (fs_itable (out u m x s1)) ip inum) as (Hl & Ht & He) by (by rewrite Es1).
  destruct (unlock_inode sb (ts_cur ts) (out u m x s1) ip inum Ht He Hl) as (t2 & E3 & Ht2 & Hu2 & He2 & Hr2).
  set (s2 := with_itable t2 (out u m x s1)) in *. pose proof Ha as [R _ Htx Hrec]. destruct R as [R1 R2 R3 R4 R5].
  exists s2, t2. split; [|split; [|split; [done|split]]].
  - split; [|done|done|done]. split; [by unfold s2; rewrite Es1|exact Hx|done|done|done].
  - destruct Hin. by split.
  - intros j. rewrite Hr2. change (fs_itable (out u m x s1)) with (fs_itable s1). rewrite Es1. apply Hr1.
  - assert (mem_ok true s1 addr n' <-> mem_ok true s addr n') as Hiff by (by rewrite Es1). destruct (decide (mem_ok true s addr n')) as [Hm|Hm].
    + rewrite decide_True in Hrd by tauto. destruct Hrd as [Er Hc]. mrun (fsm_run (readi ip true addr (f_off F) n) (with_fs s1 k) n' _ Er).
      mrun (advance_run f F n' (with_fs (out u m x s1) (with_fs s1 k)) Hf ltac:(unfold n'; lia) ltac:(lia) ltac:(unfold n'; lia)).
      match goal with |- context [(fsm (iunlock (Some ip)) ≫= ?g) ?kk] => rewrite (bind_ok (fsm (iunlock (Some ip))) g kk tt (with_fs s2 kk) (fsm_run _ kk tt _ E3)) end.
      split; [done|]. rewrite fbytes_slice in Hc by (unfold n'; lia). rewrite Es1 in Hc at 1. exact Hc.
    + rewrite decide_False in Hrd by tauto. mrun (fsm_run (readi ip true addr (f_off F) n) (with_fs s1 k) (-1) _ Hrd). cbn [Z.ltb Z.compare]. mstep.
      match goal with |- context [(fsm (iunlock (Some ip)) ≫= ?g) ?kk] => rewrite (bind_ok (fsm (iunlock (Some ip))) g kk tt (with_fs s2 kk) (fsm_run _ kk tt _ E3)) end. done.
Qed.
End Filewrite.

(** * Crashes *)

Section Crash.
Context {BC : Type} `{BlockStore BC} {U : Type} `{CopyMem U} `{UserMem U}.
Context (sb : superblock).

(** C15: a transaction of [filewrite] is all or nothing.  When it comes to
    [end_op], the new content is in the log only; after a crash behind any
    number of the disk writes of [end_op], recovery finds either every block of
    the file system as it was before the write, or all bytes, blocks, bits of
    the free map and the inode of the write in place. *)
Theorem filewrite_crash_atomic (k : kst (logst BC) U) f F ts inum d addr i n1 : at_rest sb ts (k_fs k) -> inode_in sb ts (k_fs k) (f_ip F) inum d ->
  k_ftable k !! f = Some F -> 0 <= f_off F <= di_size d -> 0 <= n1 <= WRITE_MAX -> f_off F + n1 <= MAXFILE * BSZ -> 0 <= addr + i ->
  addr + i + n1 < 2 ^ 64 -> mem_ok true (k_fs k) (addr + i) n1 ->
  exists t d' ts1 (s0 : fsys (logst BC) U),
    filewrite_chunk f addr i n1 k = (fsm end_op;; mret t) (advanced f (f_off F + t) s0 k) /\
    chunk_done sb k ts (f_ip F) inum d (addr + i) (f_off F) n1 t d' ts1 /\ dinode_at sb (ts_cur ts1) inum = d' /\
    ends_atomically (fs_st s0) ts1 /\ forall b, fs_block (ts_start ts1) b -> ts_base ts1 b = ts_cur ts b.
Proof.
  intros Ha Hin Hf Hoff Hn Hmax Hs Hs' Hmem.
  destruct (chunk_run sb k f F ts (f_ip F) inum d addr i n1 Ha Hin Hf eq_refl Hoff Hn Hmax Hs Hs' Hmem) as (t & d' & ts1 & tab & x0 & x & c & E & Hx0 & Ee & C & Ha1 & Hin1 & Hr1).
  destruct (cd_base _ _ _ _ _ _ _ _ _ _ _ _ C) as (Hb & Hst & Htx & Hh). exists t, d', ts1, (upd_fs tab x0 c (k_fs k)). split; [exact E|]. split; [exact C|].
  split; [exact (ii_disk _ _ _ _ _ _ Hin1)|]. split; [by apply log_end_atomic|].
  intros b Hbk. rewrite Hb. destruct (rd_st _ _ _ (ar_ready _ _ _ Ha)) as [st R]. apply (tr_base _ _ _ R); [by rewrite <- Hst|]. rewrite (ar_rec _ _ _ Ha). apply not_elem_of_empty.
Qed.
End Crash.

(** * Instances *)

(** An empty file, inode 2 of the small disk, open as file 0; user memory has
    three bytes at 100 and room for three at 200. *)
Definition rest_ts : tstore := ts_close (put_inode small_sb 2 empty_file (small_ts true)).
Definition rest_entry : inode := mkInode ROOTDEV 2 1 (mkSleep 0 0) 1 empty_file.
Definition rest_fs (st : logst bst) : fsys (logst bst) (gmap Z Z) := mkFs small_sb (one_entry rest_entry) 1 0 small_mem ∅ [] st.
Definition rest_file : file := mkFile FD_INODE 1 true true 0 0 0 0.
Definition rest_k (st : logst bst) : kst (logst bst) (gmap Z Z) :=
  mkK (rest_fs st) (rest_file :: replicate 99 inhabitant) (Some 0%nat :: replicate 15 None) ∅ 0 false.

Lemma rest_start : exists st : logst bst, t_st st rest_ts.
Proof.
  destruct small_start as [st Hst]. pose proof (small_ifile st Hst) as [F Ei Hi _].
  destruct (iupdate_run small_sb (small_file st) (small_ts true) 0 empty_file 2 19 eq_refl Hst (small_fmap true) eq_refl (fa_entry _ _ _ _ _ F) Ei Hi small_room) as (x & _ & Hx).
  destruct (t_end_spec x _ Hx eq_refl eq_refl) as (y & _ & Hy). by exists y.
Qed.

Lemma rest_inum : inum_ok small_sb 2.
Proof. vm_compute. by split. Qed.

Lemma rest_dinode : dinode_at small_sb (ts_cur rest_ts) 2 = empty_file.
Proof.
  change (ts_cur rest_ts) with (ts_cur (put_inode small_sb 2 empty_file (small_ts true))).
  rewrite (dinode_at_put small_sb); [by rewrite decide_True|exact (small_fmap true)|exact rest_inum|exact rest_inum|].
  split; [vm_compute; by split..| |done|apply Forall_replicate; lia]. cbn. lia.
Qed.

Lemma rest_fmap : fmap_ok small_sb rest_ts.
Proof.
  pose proof (fmap_put small_sb 2 empty_file (small_ts true) (small_fmap true) rest_inum eq_refl) as [H1 H2 H3 H4]. by split.
Qed.

Lemma rest_at st : t_st st rest_ts -> at_rest small_sb rest_ts (rest_fs st) /\ inode_in small_sb rest_ts (rest_fs st) 0 2 empty_file.
Proof.
  intros Hst. split; [split|].
  - split; [done|exact Hst|exact rest_fmap|done|]. apply tab_one; [cbn; lia|done|exact rest_inum|]. intros _. split; [symmetry; exact rest_dinode|done].
  - intros [|i] x Hx; [by injection Hx as <-|]. cbn [rest_fs fs_itable one_entry lookup list_lookup] in Hx. by apply lookup_replicate in Hx as [-> _].
  - done.
  - done.
  - split; [|exact rest_dinode|done|apply empty_ok]. exists rest_entry. split_and!; [done|cbn; lia|done].
Qed.

Lemma rest_mem st a n : flat_range small_mem a (Z.to_nat n) = true -> mem_ok true (rest_fs st) a n.
Proof. intros Hr i Hi. apply (proj1 (flat_range_true _ _ _) Hr). lia. Qed.

Lemma filewrite_correct_witness : exists st w k', filewrite (fun _ => None) 0 100 3 (rest_k st) = Ok (if w =? 3 then 3 else -1) k' /\ w <= 3.
Proof.
  destruct rest_start as [st Hst]. destruct (rest_at st Hst) as [Ha Hin].
  destruct (filewrite_correct small_sb (fun _ => None) (rest_k st) 0 rest_file rest_ts 2 empty_file 100 3 Ha Hin eq_refl eq_refl) as (w & d' & ts' & tab & x & c & E & Fw & _);
    try (unfold MAXFILE, BSZ; cbn; lia).
  - apply rest_mem. reflexivity.
  - exists st, w, (advanced 0 (0 + w) (upd_fs tab x c (rest_fs st)) (rest_k st)). split; [exact E|]. apply Fw.
Defined.

Lemma fileread_correct_witness : exists st k', fileread (fun _ => None) 0 200 3 (rest_k st) = Ok 0 k'.
Proof.
  destruct rest_start as [st Hst]. destruct (rest_at st Hst) as [Ha Hin].
  pose proof (fileread_correct small_sb (fun _ => None) (rest_k st) 0 rest_file rest_ts 2 empty_file 200 3 Ha Hin eq_refl eq_refl) as Hr. cbv zeta in Hr.
  cbn [f_readable rest_file] in Hr. destruct Hr as (s1 & tab & _ & _ & _ & _ & Hr); try (cbn; lia).
  rewrite decide_True in Hr by (intros i Hi; cbn in Hi; lia). destruct Hr as [E _]. by eexists st, _.
Defined.

Lemma filewrite_crash_atomic_witness : exists st t ts1 (s0 : fsys (logst bst) (gmap Z Z)),
  filewrite_chunk 0 100 0 3 (rest_k st) = (fsm end_op;; mret t) (advanced 0 (0 + t) s0 (rest_k st)) /\ ends_atomically (fs_st s0) ts1.
Proof.
  destruct rest_start as [st Hst]. destruct (rest_at st Hst) as [Ha Hin].
  destruct (filewrite_crash_atomic small_sb (rest_k st) 0 rest_file rest_ts 2 empty_file 100 0 3 Ha Hin eq_refl) as (t & d' & ts1 & s0 & E & _ & _ & Hat & _);
    try (unfold MAXFILE, BSZ; cbn; lia).
  - change WRITE_MAX with 3072. lia.
  - apply rest_mem. reflexivity.
  - by exists st, t, ts1, s0.
Defined.
