(* ===== verification/XSysfile.v ===== *)
(** reference/xv6-riscv/kernel/sysfile.c: the system calls on files.

    [args] are the argument registers of the trapframe; a result is the value
    before its conversion to [uint64].  Local variables that the calls pass by
    address are at the parameters [de] (the entry of dirlookup and dirlink),
    [de2] (the entry of isdirempty and sys_unlink); [name0] is the uninitialised
    content of a local [name].  sys_exec is left out. *)

From Stdlib Require Import ZArith Lia.
From stdpp Require Import base strings numbers gmap list.
From S2P Require Import Prelude Mem Riscv Vm XBytes XKalloc XPipe XStore XBio XTx XFs XFtable.

Definition NOFILE : nat := 16.
Definition MAXPATH : nat := 128.
Definition O_RDONLY : Z := 0.
Definition O_WRONLY : Z := 1.
Definition O_RDWR : Z := 2.
Definition O_CREATE : Z := 0x200.
Definition O_TRUNC : Z := 0x400.

(** [copyinstr]: the string at [src], when a NUL comes within [max] bytes. *)
Class CopyStr (U : Type) `{CopyMem U} : Type := {
  u_copyinstr : Z -> nat -> U -> option (list Z);
  u_copyinstr_some u src max l : u_copyinstr src max u = Some l ->
    (length l < max)%nat /\ Forall (fun c => 0 < c < 256) l /\
    forall i, 0 <= i <= Z.of_nat (length l) -> cm_ok u (src + i) = true /\ cm_byte u (src + i) = (l ++ [0]) !!! Z.to_nat i;
  u_copyinstr_none u src max l : u_copyinstr src max u = None -> (length l < max)%nat -> Forall (fun c => 0 < c < 256) l ->
    ~ (forall i, 0 <= i <= Z.of_nat (length l) -> cm_ok u (src + i) = true /\ cm_byte u (src + i) = (l ++ [0]) !!! Z.to_nat i)
}.

Section Sysfile.
Context {St : Type} `{TxStore St} {U : Type} `{CopyMem U} `{!CopyStr U} `{UserMem U}.
Variable kend : Z.
Variable devsw_read devsw_write : Z -> option (bool -> Z -> Z -> M (fsys St U) Z).
Variable stat_pad : list Z.
Variable de de2 : Z.
Variable name0 : list Z.
Variable args : list Z.

Abbreviation fs := (fsys St U).
Abbreviation ks := (kst St U).

(** * Arguments (syscall.c) *)

Definition argraw (n : nat) : Z := u64 (args !!! n).
Definition argint (n : nat) : Z := s32 (argraw n).
Definition argaddr (n : nat) : Z := argraw n.
Definition argstr (n : nat) (max : nat) (s : fs) : option (list Z) := u_copyinstr (argaddr n) max (fs_um s).

(** The descriptor and its file. *)
Definition argfd (n : nat) (k : ks) : option (nat * nat) :=
  let fd := argint n in
  if (fd <? 0) || (Z.of_nat NOFILE <=? fd) then None else
  match k_ofile k !!! Z.to_nat fd with
  | None => None
  | Some f => Some (Z.to_nat fd, f)
  end.

Fixpoint fdalloc_scan (l : list (option nat)) (fd : nat) : option nat :=
  match l with
  | [] => None
  | None :: _ => Some fd
  | Some _ :: l' => fdalloc_scan l' (S fd)
  end.

Definition set_ofile (fd : nat) (x : option nat) : M ks unit := modify (fun k => with_ofile (<[fd := x]> (k_ofile k)) k).

(** The descriptor, or None for -1. *)
Definition fdalloc (f : nat) : M ks (option nat) :=
  l ← gets k_ofile;
  match fdalloc_scan l 0 with
  | Some fd => set_ofile fd (Some f);; mret (Some fd)
  | None => mret None
  end.

(** * Descriptors *)

Definition sys_dup : M ks Z :=
  a ← gets (argfd 0);
  match a with
  | None => mret (-1)
  | Some (_, f) =>
      fd ← fdalloc f;
      match fd with
      | None => mret (-1)
      | Some fd => filedup f;; mret (Z.of_nat fd)
      end
  end.

Definition sys_read : M ks Z :=
  a ← gets (argfd 0);
  match a with
  | None => mret (-1)
  | Some (_, f) => fileread devsw_read f (argaddr 1) (argint 2)
  end.

Definition sys_write : M ks Z :=
  a ← gets (argfd 0);
  match a with
  | None => mret (-1)
  | Some (_, f) => filewrite devsw_write f (argaddr 1) (argint 2)
  end.

Definition sys_close : M ks Z :=
  a ← gets (argfd 0);
  match a with
  | None => mret (-1)
  | Some (fd, f) => set_ofile fd None;; fileclose kend f;; mret 0
  end.

Definition sys_fstat : M ks Z :=
  a ← gets (argfd 0);
  match a with
  | None => mret (-1)
  | Some (_, f) => filestat stat_pad f (argaddr 1)
  end.

(** * Links *)

Definition add_nlink (ip : nat) (n : Z) : M fs unit := dupd ip (fun d => di_set_nlink (s16 (di_nlink d + n)) d).

Definition sys_link : M fs Z :=
  old ← gets (argstr 0 MAXPATH);
  match old with
  | None => mret (-1)
  | Some old =>
  new ← gets (argstr 1 MAXPATH);
  match new with
  | None => mret (-1)
  | Some new =>
      begin_op;;
      ip ← namei de old name0;
      match ip with
      | None => end_op;; mret (-1)
      | Some ip =>
          ilock (Some ip);;
          x ← gets (the_inode ip);
          if di_type (i_d x) =? T_DIR then iunlockput ip;; end_op;; mret (-1) else
          add_nlink ip 1;;
          iupdate ip;;
          iunlock (Some ip);;
          let bad : M fs Z := ilock (Some ip);; add_nlink ip (-1);; iupdate ip;; iunlockput ip;; end_op;; mret (-1) in
          r ← nameiparent de new name0;
          match r.1 with
          | None => bad
          | Some dp =>
              ilock (Some dp);;
              x ← gets (the_inode ip);
              y ← gets (the_inode dp);
              l ← (if negb (i_dev y =? i_dev x) then mret (-1) else dirlink de dp r.2 (i_inum x));
              if l <? 0 then iunlockput dp;; bad else
              iunlockput dp;;
              iput ip;;
              end_op;;
              mret 0
          end
      end
  end
  end.

(** The loop of [isdirempty]. *)
Fixpoint isdirempty_loop (fuel : nat) (dp : nat) (off : Z) : M fs bool :=
  match fuel with
  | O => out_of_fuel
  | S f =>
      x ← gets (the_inode dp);
      if negb (off <? di_size (i_d x)) then mret true else
      r ← readi dp false de2 off SIZEOF_DIRENT;
      if negb (r =? SIZEOF_DIRENT) then panic "isdirempty: readi" else
      m ← gets fs_km;
      if negb (de_inum de2 m =? 0) then mret false else isdirempty_loop f dp (off + SIZEOF_DIRENT)
  end.

Definition isdirempty (dp : nat) : M fs bool :=
  x ← gets (the_inode dp);
  isdirempty_loop (S (Z.to_nat (di_size (i_d x)))) dp (2 * SIZEOF_DIRENT).

Definition DOT : list Z := [46].
Definition DOTDOT : list Z := [46; 46].

Definition sys_unlink : M fs Z :=
  path ← gets (argstr 0 MAXPATH);
  match path with
  | None => mret (-1)
  | Some path =>
      begin_op;;
      r ← nameiparent de path name0;
      match r.1 with
      | None => end_op;; mret (-1)
      | Some dp =>
          let name := r.2 in
          let bad : M fs Z := iunlockput dp;; end_op;; mret (-1) in
          ilock (Some dp);;
          if (namecmp name DOT =? 0) || (namecmp name DOTDOT =? 0) then bad else
          e ← dirlookup de dp name;
          match e with
          | None => bad
          | Some (ip, off) =>
              ilock (Some ip);;
              x ← gets (the_inode ip);
              if di_nlink (i_d x) <? 1 then panic "unlink: nlink < 1" else
              empty ← (if di_type (i_d x) =? T_DIR then isdirempty ip else mret true);
              if negb empty then iunlockput ip;; bad else
              modify (fun s => with_km (store_bytes (fs_km s) de2 (replicate 16 0)) s);;
              w ← writei dp false de2 off SIZEOF_DIRENT;
              if negb (w =? SIZEOF_DIRENT) then panic "unlink: writei" else
              (if di_type (i_d x) =? T_DIR then add_nlink dp (-1);; iupdate dp else mret tt);;
              iunlockput dp;;
              add_nlink ip (-1);;
              iupdate ip;;
              iunlockput ip;;
              end_op;;
              mret 0
          end
      end
  end.

(** * Creating and opening *)

Definition create (path : list Z) (type major minor : Z) : M fs (option nat) :=
  r ← nameiparent de path name0;
  match r.1 with
  | None => mret None
  | Some dp =>
      let name := r.2 in
      ilock (Some dp);;
      y ← gets (the_inode dp);
      if di_nlink (i_d y) =? 0 then iunlockput dp;; mret None else
      e ← dirlookup de dp name;
      match e with
      | Some (ip, _) =>
          iunlockput dp;;
          ilock (Some ip);;
          x ← gets (the_inode ip);
          if (type =? T_FILE) && ((di_type (i_d x) =? T_FILE) || (di_type (i_d x) =? T_DEVICE)) then mret (Some ip) else
          iunlockput ip;;
          mret None
      | None =>
          y ← gets (the_inode dp);
          a ← ialloc (i_dev y) type;
          match a with
          | None => iunlockput dp;; mret None
          | Some ip =>
              ilock (Some ip);;
              dupd ip (fun d => mkDi (di_type d) major minor 1 (di_size d) (di_addrs d));;
              iupdate ip;;
              let fail : M fs (option nat) :=
                dupd ip (di_set_nlink 0);; iupdate ip;; iunlockput ip;; iunlockput dp;; mret None in
              x ← gets (the_inode ip);
              y ← gets (the_inode dp);
              dots ← (if type =? T_DIR then
                        l ← dirlink de ip DOT (i_inum x);
                        if l <? 0 then mret l else dirlink de ip DOTDOT (i_inum y)
                      else mret 0);
              if dots <? 0 then fail else
              l ← dirlink de dp name (i_inum x);
              if l <? 0 then fail else
              (if type =? T_DIR then add_nlink dp 1;; iupdate dp else mret tt);;
              iunlockput dp;;
              mret (Some ip)
          end
      end
  end.

(** [omode & flag] as a condition. *)
Definition has (omode flag : Z) : bool := negb (Z.land omode flag =? 0).

(** The inode to open, locked. *)
Definition open_inode (path : list Z) (omode : Z) : M fs (option nat) :=
  if has omode O_CREATE then
    ip ← create path T_FILE 0 0;
    match ip with
    | None => end_op;; mret None
    | Some ip => mret (Some ip)
    end
  else
    ip ← namei de path name0;
    match ip with
    | None => end_op;; mret None
    | Some ip =>
        ilock (Some ip);;
        x ← gets (the_inode ip);
        if (di_type (i_d x) =? T_DIR) && negb (omode =? O_RDONLY) then iunlockput ip;; end_op;; mret None
        else mret (Some ip)
    end.

Definition sys_open : M ks Z :=
  let omode := argint 1 in
  path ← gets (fun k => argstr 0 MAXPATH (k_fs k));
  match path with
  | None => mret (-1)
  | Some path =>
      fsm begin_op;;
      o ← fsm (open_inode path omode);
      match o with
      | None => mret (-1)
      | Some ip =>
          let bad : M ks Z := fsm (iunlockput ip);; fsm end_op;; mret (-1) in
          x ← gets (fun k => the_inode ip (k_fs k));
          let d := i_d x in
          if (di_type d =? T_DEVICE) && ((di_major d <? 0) || (NDEV <=? di_major d)) then bad else
          f ← filealloc;
          match f with
          | None => bad
          | Some f =>
              fd ← fdalloc f;
              match fd with
              | None => fileclose kend f;; bad
              | Some fd =>
                  (if di_type d =? T_DEVICE then
                     fupd f (set_ftype FD_DEVICE);; fupd f (set_major (di_major d))
                   else
                     fupd f (set_ftype FD_INODE);; fupd f (set_off 0));;
                  fupd f (set_fip ip);;
                  fupd f (set_fmode (negb (has omode O_WRONLY)) (has omode O_WRONLY || has omode O_RDWR));;
                  (if has omode O_TRUNC && (di_type d =? T_FILE) then fsm (itrunc ip) else mret tt);;
                  fsm (iunlock (Some ip));;
                  fsm end_op;;
                  mret (Z.of_nat fd)
              end
          end
      end
  end.

Definition sys_mkdir : M fs Z :=
  begin_op;;
  path ← gets (argstr 0 MAXPATH);
  ip ← (match path with None => mret None | Some path => create path T_DIR 0 0 end);
  match ip with
  | None => end_op;; mret (-1)
  | Some ip => iunlockput ip;; end_op;; mret 0
  end.

Definition sys_mknod : M fs Z :=
  begin_op;;
  let major := argint 1 in
  let minor := argint 2 in
  path ← gets (argstr 0 MAXPATH);
  ip ← (match path with None => mret None | Some path => create path T_DEVICE (s16 major) (s16 minor) end);
  match ip with
  | None => end_op;; mret (-1)
  | Some ip => iunlockput ip;; end_op;; mret 0
  end.

Definition with_cwd (x : nat) (s : fs) : fs :=
  mkFs (fs_sb s) (fs_itable s) (fs_pid s) x (fs_um s) (fs_km s) (fs_con s) (fs_st s).

Definition sys_chdir : M fs Z :=
  begin_op;;
  path ← gets (argstr 0 MAXPATH);
  ip ← (match path with None => mret None | Some path => namei de path name0 end);
  match ip with
  | None => end_op;; mret (-1)
  | Some ip =>
      ilock (Some ip);;
      x ← gets (the_inode ip);
      if negb (di_type (i_d x) =? T_DIR) then iunlockput ip;; end_op;; mret (-1) else
      iunlock (Some ip);;
      cwd ← gets fs_cwd;
      iput cwd;;
      end_op;;
      modify (with_cwd ip);;
      mret 0
  end.

Definition sys_pipe : M ks Z :=
  let fdarray := argaddr 0 in
  p ← pipealloc kend;
  match p with
  | None => mret (-1)
  | Some (rf, wf) =>
      fd0 ← fdalloc rf;
      match fd0 with
      | None => fileclose kend rf;; fileclose kend wf;; mret (-1)
      | Some fd0 =>
          fd1 ← fdalloc wf;
          match fd1 with
          | None => set_ofile fd0 None;; fileclose kend rf;; fileclose kend wf;; mret (-1)
          | Some fd1 =>
              r0 ← copyout fdarray (le_bytes 4 (Z.of_nat fd0));
              r ← (if r0 <? 0 then mret r0 else copyout (u64 (fdarray + 4)) (le_bytes 4 (Z.of_nat fd1)));
              if r <? 0 then
                set_ofile fd0 None;; set_ofile fd1 None;; fileclose kend rf;; fileclose kend wf;; mret (-1)
              else mret 0
          end
      end
  end.
End Sysfile.
