(* ===== verification/XFdSpec.v ===== *)
(** reference/xv6-riscv/kernel/file.c and sysfile.c: file descriptors and
    reference counts.

    [fd_inv ext]: the count of every open file is the number of descriptors of
    the process that name it, plus [ext], the references held elsewhere.  The
    primitives move [ext] by one; every system call on descriptors gives it
    back. *)

From Stdlib Require Import ZArith Lia.
From stdpp Require Import base strings numbers gmap list.
From S2P Require Import Prelude Mem Riscv Vm Hoare XBytes XKalloc XPipe XStore XBio XLog XTxn XTx XFs XBlocks XFtable XSysfile.

(** How many descriptors name file [f]. *)
Definition cnt (f : nat) (l : list (option nat)) : Z := foldr (fun o n => (if decide (o = Some f) then 1 else 0) + n) 0 l.

Lemma cnt_insert f l : forall fd x y, l !! fd = Some x ->
  cnt f (<[fd := y]> l) = cnt f l - (if decide (x = Some f) then 1 else 0) + (if decide (y = Some f) then 1 else 0).
Proof.
  induction l as [|z l IH]; intros [|fd] x y Hx; [done|done| |].
  - injection Hx as ->. cbn. lia.
  - change (<[S fd := y]> (z :: l)) with (z :: <[fd := y]> l). cbn [cnt foldr]. fold (cnt f (<[fd := y]> l)) (cnt f l). rewrite (IH fd x y Hx). lia.
Qed.

Lemma cnt_range f l : 0 <= cnt f l <= Z.of_nat (length l).
Proof. induction l as [|z l IH]; [cbn; lia|]. cbn [cnt foldr length]. fold (cnt f l). case_decide; lia. Qed.

Lemma cnt_pos f l fd : l !! fd = Some (Some f) -> 0 < cnt f l.
Proof.
  intros Hl. pose proof (cnt_insert f l fd (Some f) None Hl) as E. rewrite decide_True, decide_False in E by done.
  pose proof (cnt_range f (<[fd := None]> l)). lia.
Qed.

(** One reference more, or less, elsewhere. *)
Definition plus (ext : nat -> Z) (f : nat) (n : Z) : nat -> Z := fun g => ext g + (if decide (g = f) then n else 0).

Section Fd.
Context {St : Type} `{TxStore St} {U : Type} `{CopyMem U} `{!CopyStr U} `{UserMem U}.
Implicit Types k : kst St U.
Implicit Types ext : nat -> Z.

Record fd_inv (ext : nat -> Z) (k : kst St U) : Prop := {
  fi_len : length (k_ofile k) = NOFILE;
  fi_flen : length (k_ftable k) = NFILE;
  fi_valid fd f : k_ofile k !! fd = Some (Some f) -> (f < NFILE)%nat;
  fi_refs f x : k_ftable k !! f = Some x -> f_ref x = cnt f (k_ofile k) + ext f
}.
(** File [f] is an entry of the table. *)
Definition fd_inv_at (f : nat) (ext : nat -> Z) (k : kst St U) : Prop := fd_inv ext k /\ (f < NFILE)%nat.

(** The counts fit an [int]. *)
Definition small (c : Z) (ext : nat -> Z) : Prop := forall f, ext f < 2 ^ 31 - c.

Lemma fd_inv_ext ext ext' k : (forall f, ext' f = ext f) -> fd_inv ext k -> fd_inv ext' k.
Proof. intros E [I1 I4 I2 I3]. split; [done|done|done|]. intros f x Hx. rewrite E. by apply I3. Qed.

(** * The primitives *)

(** What does not touch the tables. *)
Definition off_tables {A} (m : M (kst St U) A) : Prop :=
  forall k a k', m k = Ok a k' -> k_ofile k' = k_ofile k /\ k_ftable k' = k_ftable k.

Lemma off_inv {A} ext (m : M (kst St U) A) : off_tables m -> triple (fd_inv ext) m (fun _ => fd_inv ext).
Proof. intros Hm k a k' [I1 I4 I2 I3] E. destruct (Hm k a k' E) as [E1 E2]. split; rewrite ?E1, ?E2; done. Qed.

Lemma off_inv_at {A} f ext (m : M (kst St U) A) : off_tables m -> triple (fd_inv_at f ext) m (fun _ => fd_inv_at f ext).
Proof. intros Hm k a k' [I Hf] E. split; [by apply (off_inv ext m Hm k a)|done]. Qed.

Lemma fsm_off {A} (m : M (fsys St U) A) : off_tables (fsm m).
Proof. intros k a k' E. unfold fsm, zoom in E. by destruct (m (k_fs k)); simplify_eq. Qed.

Lemma pages_off {A} (m : M kmem A) : off_tables (pages m).
Proof. intros k a k' E. unfold pages, zoom in E. by destruct (m _); simplify_eq. Qed.

Lemma on_pipe_off {A} pi (m : M pst A) : off_tables (on_pipe pi m).
Proof. intros k a k' E. unfold on_pipe in E. destruct (k_pipes k !! pi); [|done]. by destruct (m _); simplify_eq. Qed.

Lemma bind_off {A B} (m : M (kst St U) A) (g : A -> M (kst St U) B) : off_tables m -> (forall a, off_tables (g a)) -> off_tables (m ≫= g).
Proof.
  intros Hm Hg k b k' E. apply bind_ok_inv in E as (a & k1 & E1 & E2). destruct (Hm _ _ _ E1) as [<- <-]. by apply (Hg a k1 b).
Qed.

Lemma gets_off {A} (g : kst St U -> A) : off_tables (gets g).
Proof. intros k a k' E. unfold gets in E. by simplify_eq. Qed.
Lemma ret_off {A} (a : A) : off_tables (mret a : M (kst St U) A).
Proof. intros k b k' E. unfold mret, M_ret in E. by simplify_eq. Qed.

Lemma pipe_call_off pi m : off_tables (pipe_call pi m).
Proof. apply bind_off; [apply on_pipe_off|]. intros [r|i]; [apply ret_off|]. by intros k a k' E. Qed.

Lemma fpipeclose_off kend pi w : off_tables (fpipeclose kend pi w).
Proof.
  apply bind_off; [apply on_pipe_off|]. intros [|]; [|apply ret_off]. apply bind_off; [|intros; apply pages_off].
  intros k a k' E. unfold modify in E. by simplify_eq.
Qed.

(** A change of a file that keeps its count. *)
Lemma fupd_inv f g ext : (forall x, f_ref (g x) = f_ref x) -> triple (fd_inv_at f ext) (fupd f g) (fun _ => fd_inv_at f ext).
Proof.
  intros Hg k a k' [[I1 I4 I2 I3] Hf] E. unfold fupd, modify in E. simplify_eq. split; [|done]. split; cbn [k_ofile k_ftable with_ftable].
  - done.
  - by rewrite length_alter.
  - done.
  - intros h x Hx. destruct (decide (h = f)) as [->|Hne].
    + rewrite list_lookup_alter_eq in Hx. destruct (k_ftable k !! f) as [y|] eqn:Ey; [|done]. injection Hx as <-. rewrite Hg. by apply I3.
    + rewrite list_lookup_alter_ne in Hx by done. by apply I3.
Qed.

(** The count of [f] becomes [n]. *)
Lemma fref_inv f n ext k y : fd_inv ext k -> k_ftable k !! f = Some y ->
  fd_inv (plus ext f (n - f_ref y)) (with_ftable (alter (set_fref n) f (k_ftable k)) k).
Proof.
  intros [I1 I4 I2 I3] Hy. split; cbn [k_ofile k_ftable with_ftable].
  - done.
  - by rewrite length_alter.
  - done.
  - intros h x Hx. unfold plus. destruct (decide (h = f)) as [->|Hne].
    + rewrite list_lookup_alter_eq, Hy in Hx. injection Hx as <-. cbn [set_fref f_ref]. pose proof (I3 f y Hy). lia.
    + rewrite list_lookup_alter_ne in Hx by done. rewrite Z.add_0_r. by apply I3.
Qed.

Lemma filealloc_scan_some l : forall i f, filealloc_scan l i = Some f -> exists j x, f = (i + j)%nat /\ l !! j = Some x /\ f_ref x = 0.
Proof.
  induction l as [|x l IH]; intros i f Hf; [done|]. cbn [filealloc_scan] in Hf. destruct (Z.eqb_spec (f_ref x) 0).
  - injection Hf as <-. exists 0%nat, x. split; [lia|done].
  - destruct (IH (S i) f Hf) as (j & y & -> & Hj & Hy). exists (S j), y. split; [lia|done].
Qed.

Lemma filealloc_inv ext : triple (fd_inv ext) filealloc (fun r k => match r with Some f => fd_inv_at f (plus ext f 1) k | None => fd_inv ext k end).
Proof.
  intros k r k' I E. unfold filealloc in E. rewrite bind_gets in E. destruct (filealloc_scan (k_ftable k) 0) as [f|] eqn:Ef.
  - destruct (filealloc_scan_some _ _ _ Ef) as (j & x & -> & Hj & Hx). unfold fupd in E. rewrite bind_modify in E. injection E as <- <-. cbn [Nat.add] in *.
    pose proof (fref_inv j 1 ext k x I Hj) as Hi. rewrite Hx in Hi. split; [exact Hi|]. rewrite <- (fi_flen _ _ I). by eapply lookup_lt_Some.
  - unfold mret, M_ret in E. by simplify_eq.
Qed.

Lemma filedup_inv f ext : small 20 ext -> triple (fd_inv_at f (plus ext f (-1))) (filedup f) (fun _ => fd_inv_at f ext).
Proof.
  intros Hs k r k' [I Hf] E. destruct (lookup_lt_is_Some_2 (k_ftable k) f) as [x Hx]; [by rewrite (fi_flen _ _ I)|]. unfold filedup in E. rewrite bind_gets in E. unfold the_file in E.
  rewrite (list_lookup_total_correct _ _ _ Hx) in E. destruct (Z.ltb_spec (f_ref x) 1); [done|]. unfold fupd in E. rewrite bind_modify in E. injection E as <- <-.
  pose proof (fi_refs _ _ I f x Hx) as Er. unfold plus in Er. rewrite decide_True in Er by done. pose proof (cnt_range f (k_ofile k)) as Hc.
  rewrite (fi_len _ _ I) in Hc. unfold NOFILE in Hc. specialize (Hs f). split; [|done].
  rewrite (list_alter_ext _ (set_fref (f_ref x + 1)) _ (k_ftable k)); [| |done].
  - eapply fd_inv_ext; [|exact (fref_inv f (f_ref x + 1) _ k x I Hx)]. intros g. unfold plus. case_decide; lia.
  - intros y Hy. rewrite Hx in Hy. injection Hy as <-. by rewrite s32_small by lia.
Qed.

Lemma fileclose_inv kend f ext : small 20 ext -> triple (fd_inv_at f (plus ext f 1)) (fileclose kend f) (fun _ => fd_inv ext).
Proof.
  intros Hs k r k' [I Hf] E. destruct (lookup_lt_is_Some_2 (k_ftable k) f) as [x Hx]; [by rewrite (fi_flen _ _ I)|]. unfold fileclose in E. rewrite bind_gets in E. unfold the_file at 1 in E.
  rewrite (list_lookup_total_correct _ _ _ Hx) in E. destruct (Z.ltb_spec (f_ref x) 1) as [|Hr]; [done|].
  pose proof (fi_refs _ _ I f x Hx) as Er. unfold plus in Er. rewrite decide_True in Er by done. pose proof (cnt_range f (k_ofile k)) as Hc.
  rewrite (fi_len _ _ I) in Hc. unfold NOFILE in Hc. specialize (Hs f).
  apply bind_ok_inv in E as (u1 & k1 & E1 & E). assert (k1 = with_ftable (alter (set_fref (f_ref x - 1)) f (k_ftable k)) k) as ->.
  { unfold fupd, modify in E1. injection E1 as _ <-. f_equal. apply list_alter_ext; [|done]. intros y Hy. rewrite Hx in Hy. injection Hy as <-.
    by rewrite s32_small by lia. }
  set (k1 := with_ftable _ k) in E. assert (fd_inv ext k1) as I1.
  { eapply fd_inv_ext; [|exact (fref_inv f (f_ref x - 1) _ k x I Hx)]. intros g. unfold plus. case_decide; lia. }
  assert (k_ftable k1 !! f = Some (set_fref (f_ref x - 1) x)) as Hx1 by (cbn; by rewrite list_lookup_alter_eq, Hx).
  rewrite bind_gets in E. unfold the_file in E. rewrite (list_lookup_total_correct _ _ _ Hx1) in E. cbn [set_fref f_ref f_type f_pipe f_writable f_ip] in E.
  destruct (Z.ltb_spec 0 (f_ref x - 1)); [by injection E as _ <-|].
  apply bind_ok_inv in E as (u2 & k2 & E2 & E). assert (fd_inv_at f ext k2) as I2.
  { unfold fupd, modify in E2. injection E2 as _ <-. split; [|done]. eapply fd_inv_ext; [|exact (fref_inv f 0 _ k1 _ I1 Hx1)].
    intros g. unfold plus. cbn. case_decide; lia. }
  apply bind_ok_inv in E as (u & k3 & E3 & E4). pose proof (fupd_inv f (set_ftype FD_NONE) ext ltac:(done) _ u k3 I2 E3) as [I3 _].
  revert E4. apply (off_inv ext); [|done]. destruct (f_type x); [apply ret_off|apply fpipeclose_off|..];
    (apply bind_off; [apply fsm_off|intros _; apply bind_off; [apply fsm_off|intros _; apply fsm_off]]).
Qed.

Lemma fdalloc_scan_some l : forall i fd, fdalloc_scan l i = Some fd -> exists j, fd = (i + j)%nat /\ l !! j = Some None.
Proof.
  induction l as [|x l IH]; intros i fd Hf; [done|]. cbn [fdalloc_scan] in Hf. destruct x as [g|].
  - destruct (IH (S i) fd Hf) as (j & -> & Hj). exists (S j). split; [lia|done].
  - injection Hf as <-. exists 0%nat. split; [lia|done].
Qed.

(** A descriptor changes. *)
Lemma ofile_inv fd x y ext k : fd_inv ext k -> k_ofile k !! fd = Some x -> (forall f, y = Some f -> (f < NFILE)%nat) ->
  fd_inv (fun f => ext f + (if decide (x = Some f) then 1 else 0) - (if decide (y = Some f) then 1 else 0)) (with_ofile (<[fd := y]> (k_ofile k)) k).
Proof.
  intros [I1 I4 I2 I3] Hx Hy. split; cbn [k_ofile k_ftable with_ofile].
  - by rewrite length_insert.
  - done.
  - intros i f Hi. apply list_lookup_insert_Some in Hi as [(_ & Ey & _)|[_ Hi]]; [by apply Hy|by eapply I2].
  - intros f z Hz. rewrite (cnt_insert f _ fd x) by done. rewrite (I3 f z Hz). lia.
Qed.

Lemma fdalloc_inv f ext : triple (fd_inv_at f ext) (fdalloc f)
  (fun r k => match r with Some fd => fd_inv_at f (plus ext f (-1)) k /\ k_ofile k !! fd = Some (Some f) | None => fd_inv_at f ext k end).
Proof.
  intros k r k' [I Hf] E. unfold fdalloc in E. rewrite bind_gets in E. destruct (fdalloc_scan (k_ofile k) 0) as [fd|] eqn:Ef.
  - destruct (fdalloc_scan_some _ _ _ Ef) as (j & -> & Hj). cbn [Nat.add] in *. unfold set_ofile in E. rewrite bind_modify in E. injection E as <- <-.
    split; [split; [|done]|cbn; apply list_lookup_insert_eq; by eapply lookup_lt_Some].
    eapply fd_inv_ext; [|apply (ofile_inv j None (Some f) ext k I Hj); by intros g [= <-]]. intros g. unfold plus.
    rewrite (decide_False (P := None = Some g)) by done. destruct (decide (g = f)) as [->|]; [rewrite decide_True by done; lia|rewrite decide_False by congruence; lia].
  - unfold mret, M_ret in E. by simplify_eq.
Qed.

Lemma set_ofile_inv fd f ext : triple (fun k => fd_inv ext k /\ k_ofile k !! fd = Some (Some f)) (set_ofile fd None) (fun _ => fd_inv_at f (plus ext f 1)).
Proof.
  intros k a k' [I Hfd] E. unfold set_ofile, modify in E. injection E as _ <-. split; [|by apply (fi_valid _ _ I fd)].
  eapply fd_inv_ext; [|by apply (ofile_inv fd (Some f) None ext k I Hfd)]. intros g. unfold plus. rewrite (decide_False (P := None = Some g)) by done.
  destruct (decide (g = f)) as [->|]; [rewrite decide_True by done; lia|rewrite decide_False by congruence; lia].
Qed.

(** * The system calls *)

Lemma argfd_some args n ext k fd f : fd_inv ext k -> argfd args n k = Some (fd, f) -> k_ofile k !! fd = Some (Some f).
Proof.
  intros I E. unfold argfd in E. destruct (Z.ltb_spec (argint args n) 0); [done|]. destruct (Z.leb_spec (Z.of_nat NOFILE) (argint args n)); [done|]. cbn [orb] in E.
  destruct (k_ofile k !!! Z.to_nat (argint args n)) as [g|] eqn:Eg; [|done]. injection E as <- <-. rewrite <- Eg.
  apply list_lookup_lookup_total_lt. rewrite (fi_len _ _ I). lia.
Qed.

Lemma fd_at args n ext k fd f : fd_inv ext k -> argfd args n k = Some (fd, f) -> fd_inv_at f ext k.
Proof. intros I E. split; [done|]. eapply (fi_valid _ _ I). by eapply argfd_some. Qed.

Lemma plus_plus ext f k : fd_inv (plus (plus ext f 1) f (-1)) k -> fd_inv ext k.
Proof. apply fd_inv_ext. intros g. unfold plus. case_decide; lia. Qed.

Lemma plus_comm ext f g k : fd_inv (plus (plus ext f 1) g 1) k -> fd_inv (plus (plus ext g 1) f 1) k.
Proof. apply fd_inv_ext. intros h. unfold plus. lia. Qed.

Lemma small_plus ext f : small 32 ext -> small 20 (plus ext f 1).
Proof. intros Hs g. specialize (Hs g). unfold plus. case_decide; lia. Qed.

Lemma small_le ext : small 32 ext -> small 20 ext.
Proof. intros Hs g. specialize (Hs g). lia. Qed.

Lemma sys_dup_inv args ext : small 32 ext -> triple (fd_inv ext) (sys_dup args) (fun _ => fd_inv ext).
Proof.
  intros Hs k r k' I E. unfold sys_dup in E. rewrite bind_gets in E. destruct (argfd args 0 k) as [[fd f]|] eqn:Ea; [|by injection E as _ <-].
  apply bind_ok_inv in E as (o & k1 & E1 & E). pose proof (fdalloc_inv f ext k o k1 (fd_at _ _ _ _ _ _ I Ea) E1) as J1. destruct o as [fd'|].
  - destruct J1 as [J1 _]. apply bind_ok_inv in E as (g & k2 & E2 & E). injection E as _ <-. by apply (filedup_inv f ext (small_le _ Hs) k1 g k2 J1 E2).
  - injection E as _ <-. apply J1.
Qed.

Lemma sys_close_inv kend args ext : small 32 ext -> triple (fd_inv ext) (sys_close kend args) (fun _ => fd_inv ext).
Proof.
  intros Hs k r k' I E. unfold sys_close in E. rewrite bind_gets in E. destruct (argfd args 0 k) as [[fd f]|] eqn:Ea; [|by injection E as _ <-].
  apply bind_ok_inv in E as (u & k1 & E1 & E). pose proof (set_ofile_inv fd f ext k u k1 (conj I (argfd_some _ _ _ _ _ _ I Ea)) E1) as J1.
  apply bind_ok_inv in E as (u2 & k2 & E2 & E). injection E as _ <-. exact (fileclose_inv kend f ext (small_le _ Hs) k1 u2 k2 J1 E2).
Qed.

(** Calls that only move data. *)
Lemma fileread_inv devsw_read f addr n ext : triple (fd_inv_at f ext) (fileread devsw_read f addr n) (fun _ => fd_inv ext).
Proof.
  intros k r k' I E. unfold fileread in E. rewrite bind_gets in E. destruct (f_readable (the_file f k)); [|injection E as _ <-; apply I]. cbn [negb] in E.
  destruct (f_type (the_file f k)); [done| | |].
  - exact (off_inv ext _ (pipe_call_off _ _) k r k' (proj1 I) E).
  - apply bind_ok_inv in E as (u1 & k1 & E1 & E). pose proof (off_inv_at f ext _ (fsm_off _) _ _ _ I E1) as J1. apply bind_ok_inv in E as (v & k2 & E2 & E).
    pose proof (off_inv_at f ext _ (fsm_off _) _ _ _ J1 E2) as J2. apply bind_ok_inv in E as (u3 & k3 & E3 & E).
    assert (fd_inv_at f ext k3) as J3 by (destruct (0 <? v); [by apply (fupd_inv f (fun x => set_off (u32 (f_off x + v)) x) ext ltac:(done) k2 u3 k3)|injection E3 as _ <-; done]).
    apply bind_ok_inv in E as (u4 & k4 & E4 & E). injection E as _ <-. apply (off_inv_at f ext _ (fsm_off _) _ _ _ J3 E4).
  - destruct ((f_major (the_file f k) <? 0) || (NDEV <=? f_major (the_file f k))); [injection E as _ <-; apply I|].
    destruct (devsw_read (f_major (the_file f k))); [|injection E as _ <-; apply I]. exact (off_inv ext _ (fsm_off _) k r k' (proj1 I) E).
Qed.

Lemma filewrite_chunk_inv f addr i n1 ext : triple (fd_inv_at f ext) (filewrite_chunk f addr i n1) (fun _ => fd_inv_at f ext).
Proof.
  intros k r k' I E. unfold filewrite_chunk in E. rewrite bind_gets in E. apply bind_ok_inv in E as (u0 & k0 & E0 & E). pose proof (off_inv_at f ext _ (fsm_off _) _ _ _ I E0) as J0.
  apply bind_ok_inv in E as (u1 & k1 & E1 & E). pose proof (off_inv_at f ext _ (fsm_off _) _ _ _ J0 E1) as J1. apply bind_ok_inv in E as (v & k2 & E2 & E).
  pose proof (off_inv_at f ext _ (fsm_off _) _ _ _ J1 E2) as J2. apply bind_ok_inv in E as (u3 & k3 & E3 & E).
  assert (fd_inv_at f ext k3) as J3 by (destruct (0 <? v); [by apply (fupd_inv f (fun x => set_off (u32 (f_off x + v)) x) ext ltac:(done) k2 u3 k3)|injection E3 as _ <-; done]).
  apply bind_ok_inv in E as (u4 & k4 & E4 & E). pose proof (off_inv_at f ext _ (fsm_off _) _ _ _ J3 E4) as J4. apply bind_ok_inv in E as (u5 & k5 & E5 & E). injection E as _ <-.
  exact (off_inv_at f ext _ (fsm_off _) _ _ _ J4 E5).
Qed.

Lemma filewrite_loop_inv fuel f addr n ext : forall i, triple (fd_inv_at f ext) (filewrite_loop fuel f addr n i) (fun _ => fd_inv_at f ext).
Proof.
  induction fuel as [|fuel IH]; intros i k r k' I E; [done|]. cbn [filewrite_loop] in E. destruct (i <? n); cbn [negb] in E; [|by injection E as _ <-]. cbv zeta in E.
  apply bind_ok_inv in E as (v & k1 & E1 & E). pose proof (filewrite_chunk_inv f addr i _ ext k v k1 I E1) as J1. destruct (v =? _); cbn [negb] in E; [|by injection E as _ <-].
  exact (IH (i + v) k1 r k' J1 E).
Qed.

Lemma filewrite_inv devsw_write f addr n ext : triple (fd_inv_at f ext) (filewrite devsw_write f addr n) (fun _ => fd_inv ext).
Proof.
  intros k r k' I E. unfold filewrite in E. rewrite bind_gets in E. destruct (f_writable (the_file f k)); [|injection E as _ <-; apply I]. cbn [negb] in E.
  destruct (f_type (the_file f k)); [done| | |].
  - exact (off_inv ext _ (pipe_call_off _ _) k r k' (proj1 I) E).
  - apply bind_ok_inv in E as (v & k1 & E1 & E). injection E as _ <-. apply (filewrite_loop_inv _ f addr n ext 0 k v k1 I E1).
  - destruct ((f_major (the_file f k) <? 0) || (NDEV <=? f_major (the_file f k))); [injection E as _ <-; apply I|].
    destruct (devsw_write (f_major (the_file f k))); [|injection E as _ <-; apply I]. exact (off_inv ext _ (fsm_off _) k r k' (proj1 I) E).
Qed.

Lemma filestat_off stat_pad f addr : off_tables (filestat stat_pad f addr).
Proof.
  apply bind_off; [apply gets_off|]. intros x. destruct (f_type x); try apply ret_off;
    (apply bind_off; [apply fsm_off|intros _; apply bind_off; [apply fsm_off|intros st; apply bind_off; [apply fsm_off|intros _]]]);
    (apply bind_off; [apply fsm_off|intros r; destruct (r <? 0); apply ret_off]).
Qed.

(** Setting up a new file keeps its count. *)
Lemma open_fields_inv f ip ext (dev : bool) major r w (rest : M (kst St U) Z) : off_tables rest ->
  triple (fd_inv_at f ext) ((if dev then fupd f (set_ftype FD_DEVICE);; fupd f (set_major major) else fupd f (set_ftype FD_INODE);; fupd f (set_off 0));;
    fupd f (set_fip ip);; fupd f (set_fmode r w);; rest) (fun _ => fd_inv ext).
Proof.
  intros Hr. apply (triple_bind _ _ _ (fun _ => fd_inv_at f ext)).
  - apply triple_if; (apply (triple_bind _ _ _ (fun _ => fd_inv_at f ext)); [by apply fupd_inv|intros _; by apply fupd_inv]).
  - intros _. do 2 (apply (triple_bind _ _ _ (fun _ => fd_inv_at f ext)); [by apply fupd_inv|intros _]). intros k a k' I E.
    exact (off_inv ext rest Hr k a k' (proj1 I) E).
Qed.

Lemma sys_open_inv kend de name0 args ext : small 32 ext -> triple (fd_inv ext) (sys_open kend de name0 args) (fun _ => fd_inv ext).
Proof.
  intros Hs k r k' I E. unfold sys_open in E. cbv zeta in E. rewrite bind_gets in E. destruct (argstr args 0 MAXPATH (k_fs k)) as [path|]; [|by injection E as _ <-].
  apply bind_ok_inv in E as (u1 & k1 & E1 & E). pose proof (off_inv ext _ (fsm_off _) _ _ _ I E1) as J1.
  apply bind_ok_inv in E as (o & k2 & E2 & E). pose proof (off_inv ext _ (fsm_off _) _ _ _ J1 E2) as J2. destruct o as [ip|]; [|by injection E as _ <-].
  rewrite bind_gets in E. set (d := i_d (the_inode ip (k_fs k2))) in E.
  assert (off_tables (fsm (iunlockput ip);; fsm end_op;; mret (-1) : M (kst St U) Z)) as Hbad
    by (apply bind_off; [apply fsm_off|intros _; apply bind_off; [apply fsm_off|intros _; apply ret_off]]).
  destruct ((di_type d =? T_DEVICE) && _); [exact (off_inv ext _ Hbad k2 r k' J2 E)|].
  apply bind_ok_inv in E as (o3 & k3 & E3 & E). pose proof (filealloc_inv ext k2 o3 k3 J2 E3) as J3. destruct o3 as [f|]; [|exact (off_inv ext _ Hbad k3 r k' J3 E)].
  apply bind_ok_inv in E as (ofd & k4 & E4 & E). pose proof (fdalloc_inv f _ k3 ofd k4 J3 E4) as J4. destruct ofd as [fd|].
  - destruct J4 as [[J4 Hf] _]. apply plus_plus in J4. apply (open_fields_inv f ip ext (di_type d =? T_DEVICE) (di_major d) _ _ _) in E; [done| |by split].
    apply bind_off; [destruct (has _ O_TRUNC && _); [apply fsm_off|apply ret_off]|intros _]. apply bind_off; [apply fsm_off|intros _]. apply bind_off; [apply fsm_off|intros _; apply ret_off].
  - apply bind_ok_inv in E as (u5 & k5 & E5 & E). pose proof (fileclose_inv kend f ext (small_le _ Hs) k4 u5 k5 J4 E5) as J5. exact (off_inv ext _ Hbad k5 r k' J5 E).
Qed.

(** Two files, both ends of a pipe, are closed again. *)
Lemma close_two kend a b ext : small 32 ext -> (a < NFILE)%nat -> (b < NFILE)%nat ->
  triple (fd_inv (plus (plus ext a 1) b 1)) (fileclose kend a;; fileclose kend b) (fun _ => fd_inv ext).
Proof.
  intros Hs Ha Hb k r k' I E. apply bind_ok_inv in E as (u & k1 & E1 & E).
  pose proof (fileclose_inv kend a (plus ext b 1) (small_plus _ _ Hs) k u k1 (conj (plus_comm _ _ _ _ I) Ha) E1) as J1.
  exact (fileclose_inv kend b ext (small_le _ Hs) k1 r k' (conj J1 Hb) E).
Qed.

Lemma pipealloc_inv kend ext : small 32 ext -> triple (fd_inv ext) (pipealloc kend)
  (fun r k => match r with Some (a, b) => fd_inv (plus (plus ext a 1) b 1) k /\ (a < NFILE)%nat /\ (b < NFILE)%nat | None => fd_inv ext k end).
Proof.
  intros Hs k r k' I E. unfold pipealloc in E. apply bind_ok_inv in E as (o1 & k1 & E1 & E). pose proof (filealloc_inv ext k o1 k1 I E1) as J1.
  destruct o1 as [a|]; [|by unfold pipealloc_bad in E; rewrite !bind_ret in E; injection E as <- <-].
  destruct J1 as [J1 Ha]. apply bind_ok_inv in E as (o2 & k2 & E2 & E). pose proof (filealloc_inv _ k1 o2 k2 J1 E2) as J2. destruct o2 as [b|].
  2: { unfold pipealloc_bad in E. apply bind_ok_inv in E as (u & k3 & E3 & E). rewrite bind_ret in E. injection E as <- <-.
       exact (fileclose_inv kend a ext (small_le _ Hs) k2 u k3 (conj J2 Ha) E3). }
  destruct J2 as [J2 Hb]. apply bind_ok_inv in E as (pi & k3 & E3 & E). pose proof (off_inv _ _ (pages_off _) _ _ _ J2 E3) as J3. destruct (pi =? 0).
  - unfold pipealloc_bad in E. apply bind_ok_inv in E as (u & k4 & E4 & E). apply bind_ok_inv in E as (u' & k5 & E5 & E). injection E as <- <-.
    apply (close_two kend a b ext Hs Ha Hb k3 u' k5 J3). by rewrite (bind_ok _ _ _ _ _ E4).
  - rewrite bind_modify in E. set (k4 := with_pipes _ k3) in E. assert (fd_inv (plus (plus ext a 1) b 1) k4) as J4 by (destruct J3; by split).
    apply bind_ok_inv in E as (u & k5 & E5 & E). pose proof (fupd_inv a (fun x => set_fpipe pi (set_fmode true false (set_ftype FD_PIPE x))) _ ltac:(done) k4 u k5 (conj J4 Ha) E5) as [J5 _].
    apply bind_ok_inv in E as (u' & k6 & E6 & E). injection E as <- <-.
    pose proof (fupd_inv b (fun x => set_fpipe pi (set_fmode false true (set_ftype FD_PIPE x))) _ ltac:(done) k5 u' k6 (conj J5 Hb) E6) as [J6 _]. done.
Qed.

Lemma two_more ext a b k : fd_inv (plus (plus (plus ext a 1) b 1) a (-1)) k -> fd_inv (plus ext b 1) k.
Proof. apply fd_inv_ext. intros g. unfold plus. repeat case_decide; lia. Qed.

Lemma fdalloc_kept f fd g (k k1 : kst St U) o : k_ofile k !! fd = Some (Some g) -> fdalloc f k = Ok o k1 -> k_ofile k1 !! fd = Some (Some g) /\ o <> Some fd.
Proof.
  intros Hg E. unfold fdalloc in E. rewrite bind_gets in E. destruct (fdalloc_scan (k_ofile k) 0) as [fd'|] eqn:Ef; [|by injection E as <- <-].
  destruct (fdalloc_scan_some _ _ _ Ef) as (j & -> & Hj). cbn [Nat.add] in *. unfold set_ofile in E. rewrite bind_modify in E. injection E as <- <-. cbn.
  assert (j <> fd) by congruence. rewrite list_lookup_insert_ne by done. split; [done|congruence].
Qed.

Lemma sys_pipe_inv kend args ext : small 32 ext -> triple (fd_inv ext) (sys_pipe kend args) (fun _ => fd_inv ext).
Proof.
  intros Hs k r k' I E. unfold sys_pipe in E. cbv zeta in E. apply bind_ok_inv in E as (p & k1 & E1 & E). pose proof (pipealloc_inv kend ext Hs k p k1 I E1) as J1.
  destruct p as [[a b]|]; [|by injection E as _ <-]. destruct J1 as (J1 & Ha & Hb).
  assert (forall kk, fd_inv (plus (plus ext a 1) b 1) kk -> (fileclose kend a;; fileclose kend b;; mret (-1)) kk = Ok r k' -> fd_inv ext k') as Hclose.
  { intros kk J Ek. apply bind_ok_inv in Ek as (u & kk1 & Ek1 & Ek). apply bind_ok_inv in Ek as (u' & kk2 & Ek2 & Ek). injection Ek as _ <-.
    apply (close_two kend a b ext Hs Ha Hb kk u' kk2 J). by rewrite (bind_ok _ _ _ _ _ Ek1). }
  apply bind_ok_inv in E as (o0 & k2 & E2 & E). pose proof (fdalloc_inv a _ k1 o0 k2 (conj J1 Ha) E2) as J2.
  destruct o0 as [fd0|]; [|exact (Hclose k2 (proj1 J2) E)]. destruct J2 as [[J2 _] Hfd0]. apply two_more in J2.
  apply bind_ok_inv in E as (o1 & k3 & E3 & E). pose proof (fdalloc_inv b _ k2 o1 k3 (conj J2 Hb) E3) as J3. destruct (fdalloc_kept b fd0 a k2 k3 o1 Hfd0 E3) as [Hfd0' Hne].
  assert (forall kk, fd_inv (plus (plus ext b 1) a 1) kk -> fd_inv (plus (plus ext a 1) b 1) kk) as Hsw by (intros kk; apply plus_comm).
  destruct o1 as [fd1|].
  - destruct J3 as [[J3 _] Hfd1]. apply plus_plus in J3. apply bind_ok_inv in E as (r0 & k4 & E4 & E).
    destruct (fsm_off _ _ _ _ E4) as [O4 _]. pose proof (off_inv ext _ (fsm_off _) _ _ _ J3 E4) as J4. apply bind_ok_inv in E as (r1 & k5 & E5 & E).
    assert (off_tables (if r0 <? 0 then mret r0 else copyout (u64 (argaddr args 0 + 4)) (le_bytes 4 (Z.of_nat fd1)) : M (kst St U) Z)) as Ho5
      by (destruct (r0 <? 0); [apply ret_off|apply fsm_off]).
    destruct (Ho5 _ _ _ E5) as [O5 _]. pose proof (off_inv ext _ Ho5 _ _ _ J4 E5) as J5. destruct (r1 <? 0); [|by injection E as _ <-].
    rewrite <- O4, <- O5 in Hfd0'. rewrite <- O4, <- O5 in Hfd1.
    apply bind_ok_inv in E as (u & k6 & E6 & E). pose proof (set_ofile_inv fd0 a ext k5 u k6 (conj J5 Hfd0') E6) as [J6 _].
    assert (k_ofile k6 !! fd1 = Some (Some b)) as Hfd1'.
    { unfold set_ofile, modify in E6. injection E6 as _ <-. cbn. rewrite list_lookup_insert_ne by congruence. done. }
    apply bind_ok_inv in E as (u' & k7 & E7 & E). pose proof (set_ofile_inv fd1 b _ k6 u' k7 (conj J6 Hfd1') E7) as [J7 _]. by apply (Hclose k7).
  - destruct J3 as [J3 _]. apply bind_ok_inv in E as (u & k4 & E4 & E). pose proof (set_ofile_inv fd0 a _ k3 u k4 (conj J3 Hfd0') E4) as [J4 _]. by apply (Hclose k4), E; apply Hsw.
Qed.

(** * Sequences of calls *)

Inductive fd_call : Type := Dup | Read | Write | Close | Fstat | Open | Pipe.

Section Calls.
Context (kend : Z) (devsw_read devsw_write : Z -> option (bool -> Z -> Z -> M (fsys St U) Z)) (stat_pad : list Z) (de : Z) (name0 : list Z).

Definition do_call (c : fd_call) (args : list Z) : M (kst St U) Z :=
  match c with
  | Dup => sys_dup args
  | Read => sys_read devsw_read args
  | Write => sys_write devsw_write args
  | Close => sys_close kend args
  | Fstat => sys_fstat stat_pad args
  | Open => sys_open kend de name0 args
  | Pipe => sys_pipe kend args
  end.

Fixpoint run_calls (l : list (fd_call * list Z)) : M (kst St U) (list Z) :=
  match l with
  | [] => mret []
  | (c, args) :: l' => r ← do_call c args; rs ← run_calls l'; mret (r :: rs)
  end.

Lemma do_call_inv c args ext : small 32 ext -> triple (fd_inv ext) (do_call c args) (fun _ => fd_inv ext).
Proof.
  intros Hs. destruct c; cbn [do_call]; [by apply sys_dup_inv|..|by apply sys_open_inv|by apply sys_pipe_inv].
  - intros k r k' I E. unfold sys_read in E. rewrite bind_gets in E. destruct (argfd args 0 k) as [[fd f]|] eqn:Ea; [|by injection E as _ <-].
    exact (fileread_inv devsw_read f _ _ ext k r k' (fd_at _ _ _ _ _ _ I Ea) E).
  - intros k r k' I E. unfold sys_write in E. rewrite bind_gets in E. destruct (argfd args 0 k) as [[fd f]|] eqn:Ea; [|by injection E as _ <-].
    exact (filewrite_inv devsw_write f _ _ ext k r k' (fd_at _ _ _ _ _ _ I Ea) E).
  - by apply sys_close_inv.
  - intros k r k' I E. unfold sys_fstat in E. rewrite bind_gets in E. destruct (argfd args 0 k) as [[fd f]|] eqn:Ea; [|by injection E as _ <-].
    exact (off_inv ext _ (filestat_off stat_pad f _) k r k' I E).
Qed.

(** C14: after any sequence of dup, read, write, close, fstat, open and pipe,
    whatever they return, the count of each open file is the number of the
    process's descriptors that name it plus the references from elsewhere,
    which stay as they were; so a file that a descriptor names is in use and
    [filealloc] does not hand it out again. *)
Theorem descriptor_counts l ext k rs k' : small 32 ext -> fd_inv ext k -> run_calls l k = Ok rs k' ->
  fd_inv ext k' /\ forall fd f x, k_ofile k' !! fd = Some (Some f) -> k_ftable k' !! f = Some x -> 0 <= ext f -> 1 <= f_ref x.
Proof.
  intros Hs I E. assert (fd_inv ext k') as I'.
  { revert k rs I E. induction l as [|[c args] l IH]; intros k rs I E; [by injection E as _ <-|]. cbn [run_calls] in E.
    apply bind_ok_inv in E as (r & k1 & E1 & E). apply bind_ok_inv in E as (rs' & k2 & E2 & E). injection E as _ <-.
    exact (IH k1 rs' (do_call_inv c args ext Hs k r k1 I E1) E2). }
  split; [done|]. intros fd f x Hfd Hx He. rewrite (fi_refs _ _ I' f x Hx). pose proof (cnt_pos f _ fd Hfd). lia.
Qed.
End Calls.
End Fd.

(** * Instances *)

Fixpoint flat_str (src : Z) (max : nat) (u : gmap Z Z) : option (list Z) :=
  match max with
  | O => None
  | S max' =>
      if flat_ok u src then
        if flat_bytes u src =? 0 then Some [] else (fun l => flat_bytes u src :: l) <$> flat_str (src + 1) max' u
      else None
  end.

#[export, refine] Instance flat_copystr : CopyStr (gmap Z Z) := {| u_copyinstr := flat_str |}.
Proof.
  - intros u src max. revert src. induction max as [|max IH]; intros src l E; [done|]. cbn [flat_str] in E.
    destruct (flat_ok u src) eqn:Ek; [|done]. pose proof (u8_range (default 0 (u !! src))) as Hr. fold (flat_bytes u src) in Hr.
    destruct (Z.eqb_spec (flat_bytes u src) 0) as [E0|E0].
    + injection E as <-. split; [cbn; lia|]. split; [constructor|]. intros i Hi. cbn [length] in Hi. assert (i = 0) as -> by lia. rewrite Z.add_0_r. done.
    + destruct (flat_str (src + 1) max u) as [l'|] eqn:El; [|done]. injection E as <-. destruct (IH _ _ El) as (H1 & H2 & H3). cbn [length].
      split; [lia|]. split; [constructor; [change (cm_byte u src) with (flat_bytes u src); lia|done]|]. intros i Hi. destruct (decide (i = 0)) as [->|Hne]; [by rewrite Z.add_0_r|].
      specialize (H3 (i - 1) ltac:(lia)). replace (src + 1 + (i - 1)) with (src + i) in H3 by lia. destruct H3 as [H3 H4]. split; [done|]. rewrite H4.
      replace (Z.to_nat i) with (S (Z.to_nat (i - 1))) by lia. done.
  - intros u src max. revert src. induction max as [|max IH]; intros src l E Hl Hc Hall; [lia|]. cbn [flat_str] in E.
    destruct (Hall 0 ltac:(lia)) as [Hk Hb]. rewrite Z.add_0_r in Hk, Hb. cbn [cm_ok flat_mem] in Hk. rewrite Hk in E. cbn [cm_byte flat_mem] in Hb.
    destruct l as [|c l]; [cbn in Hb; by rewrite Hb in E|]. apply Forall_cons_1 in Hc as [Hc Hc']. change (flat_bytes u src = c) in Hb. rewrite (proj2 (Z.eqb_neq (flat_bytes u src) 0)) in E by (rewrite Hb; lia).
    destruct (flat_str (src + 1) max u) eqn:El; [done|]. cbn [length] in Hl. apply (IH (src + 1) l El ltac:(lia) Hc'). intros i Hi.
    specialize (Hall (i + 1) ltac:(cbn; lia)). replace (src + (i + 1)) with (src + 1 + i) in Hall by lia. replace (Z.to_nat (i + 1)) with (S (Z.to_nat i)) in Hall by lia. exact Hall.
Defined.

(** File 0 is open as descriptor 0; it is duplicated and the copy closed. *)
Definition one_file (st : logst bst) : kst (logst bst) (gmap Z Z) :=
  mkK (small_fs st ∅) (mkFile FD_INODE 1 true true 0 0 0 0 :: replicate 99 inhabitant) (Some 0%nat :: replicate 15 None) ∅ 0 false.

Lemma one_file_inv st : fd_inv (fun _ => 0) (one_file st).
Proof.
  split; [done|done| |].
  - intros [|fd] f Hf; [injection Hf as <-; unfold NFILE; lia|]. cbn [one_file k_ofile lookup list_lookup] in Hf. by apply lookup_replicate in Hf as [? _].
  - intros [|f] x Hx; [by injection Hx as <-|]. cbn [one_file k_ftable lookup list_lookup] in Hx. by apply lookup_replicate in Hx as [-> _].
Qed.

Lemma descriptor_counts_witness : exists st k', run_calls 0 (fun _ => None) (fun _ => None) [] 0 [] [(Dup, [0; 0; 0]); (Close, [1; 0; 0])] (one_file st) = Ok [1; 0] k' /\ fd_inv (fun _ => 0) k'.
Proof.
  destruct small_start as [st _]. assert (exists k', run_calls 0 (fun _ => None) (fun _ => None) [] 0 [] [(Dup, [0; 0; 0]); (Close, [1; 0; 0])] (one_file st) = Ok [1; 0] k') as [k' E] by (eexists; reflexivity).
  exists st, k'. split; [exact E|]. apply (descriptor_counts 0 (fun _ => None) (fun _ => None) [] 0 [] _ (fun _ => 0) (one_file st) [1; 0] k' ltac:(intros f; cbn; lia) (one_file_inv st) E).
Defined.
