(* ===== verification/XOpen.v ===== *)
(** reference/xv6-riscv/kernel/sysfile.c: opening an existing file.

    [sys_open] without [O_CREATE] and [O_TRUNC], from the path in the memory of
    the process to the descriptor, over the path names of [XPath] and the table
    of open files. *)

From Stdlib Require Import ZArith Lia.
From stdpp Require Import base strings numbers gmap list.
From S2P Require Import Prelude Mem Riscv Vm Hoare XBytes XKalloc XPipe XStore XBio XLog XTxn XTx XFs XBlocks XInode XRead XWrite XIupd XFile XTrunc XItable XDir XPath XFtable XFileSpec XSysfile XFdSpec.

Section Open.
Context {St : Type} `{TxStore St} {U : Type} `{CopyMem U} `{!CopyStr U} `{UserMem U}.
Implicit Types s : fsys St U.
Implicit Types k : kst St U.
Context (sb : superblock) (kend de : Z) (name0 : list Z) (args : list Z).
Context (Hde : 0 <= de /\ de + 16 < 2 ^ 64) (Hname : length name0 = DIRSIZ) (Hnameb : byte_list name0).

(** The file system between two calls, with its directories. *)
Record fs_ok (ts : tstore) (s : fsys St U) : Prop := {
  fo_rest : at_rest sb ts s;
  fo_dirs : dirs_ok sb ts s;
  fo_tree : tree_ok sb (ts_cur ts);
  fo_refs j : refs (fs_itable s) j < 2 ^ 31 - 2;
  fo_free : (2 <= nfree (fs_itable s))%nat
}.

(** The transaction has ended with nothing written and the references as they
    were, or with one more to [j] at entry [i]. *)
Definition returned (ts : tstore) (s s' : fsys St U) : Prop :=
  exists t m x, s' = moved t m x s /\ at_rest sb (ts_close (ts_open ts)) s' /\ local de (fs_km s) m /\ forall j, refs t j = refs (fs_itable s) j.
Definition taken (ts : tstore) (i : nat) (j : Z) (s s' : fsys St U) : Prop :=
  exists t m x, s' = moved t m x s /\ at_rest sb (ts_close (ts_open ts)) s' /\ local de (fs_km s) m /\ entry_for t i j /\
    forall j', refs t j' = refs (fs_itable s) j' + (if decide (j' = j) then 1 else 0).

Lemma end_rest ts s : ready sb (ts_open ts) s -> unlocked (fs_itable s) -> exists y, end_op s = Ok tt (with_st y s) /\ at_rest sb (ts_close (ts_open ts)) (with_st y s).
Proof.
  intros [Es Hs Hf Hh Ht] Hu. destruct (t_end_spec _ _ Hs eq_refl Hh) as (y & E & Hy). exists y. split; [by apply tx_run|]. split; [|done|done|done].
  split; [done|exact Hy|destruct Hf; by split|done|done].
Qed.

Lemma end_back ts s s' : back_to sb de (fs_itable s) (ts_open ts) s s' -> exists s2, end_op s' = Ok tt s2 /\ returned ts s s2.
Proof.
  intros (t & m & x & -> & R & Hu & Hr & Hl). destruct (end_rest ts _ R Hu) as (y & E & Ha). eexists. split; [exact E|]. by exists t, m, y.
Qed.

Lemma end_taken ts i j s t m x : walking sb (fs_itable s) (ts_open ts) i j (moved t m x s) -> local de (fs_km s) m ->
  exists s2, end_op (moved t m x s) = Ok tt s2 /\ taken ts i j s s2.
Proof.
  intros [R Hu He Hr _ _] Hl. destruct (end_rest ts _ R Hu) as (y & E & Ha). eexists. split; [exact E|]. by exists t, m, y.
Qed.

(** The transaction begins. *)
Lemma begin_ready ts s : fs_ok ts s -> exists x, begin_op s = Ok tt (with_st x s) /\ ready sb (ts_open ts) (with_st x s).
Proof.
  intros [[[Es Hs Hf Hh Ht] Hu Htx Hrec] _ _ _ _]. destruct (t_begin_spec _ _ Hs Htx) as (x & E & Hx). exists x. split; [by apply tx_run|].
  split; [done|exact Hx|destruct Hf; by split|done|done].
Qed.

(** What the path leads to. *)
Definition target (ts : tstore) (s : fsys St U) (path : list Z) : option Z :=
  walk (disk_dir sb (ts_cur ts)) false (start_inum s path) (elems path).
(** A directory can only be opened for reading. *)
Definition dir_refused (omode : Z) (d : dinode) : bool := (di_type d =? T_DIR) && negb (omode =? O_RDONLY).

(** The inode is looked up and locked. *)
Lemma open_lookup ts s path omode : fs_ok ts s -> path_ok path -> has omode O_CREATE = false ->
  exists x0, begin_op s = Ok tt (with_st x0 s) /\
  match target ts s path with
  | None => exists s', open_inode de name0 path omode (with_st x0 s) = Ok None s' /\ returned ts s s'
  | Some j =>
      if dir_refused omode (dinode_at sb (ts_cur ts) j) then exists s', open_inode de name0 path omode (with_st x0 s) = Ok None s' /\ returned ts s s'
      else exists i z s2 t m y, open_inode de name0 path omode (with_st x0 s) = Ok (Some i) s2 /\ local de (fs_km s) m /\
        stepping sb (fs_itable s) (ts_open ts) i j z (moved t m y s) s2
  end.
Proof.
  intros Hok Hp Hcr. destruct (begin_ready ts s Hok) as (x0 & E0 & R0). exists x0. split; [done|]. destruct Hok as [[R Hu Htx Hrec] Hd Htree Hb Hfree].
  unfold open_inode. rewrite Hcr. unfold namei.
  assert (dirs_ok sb (ts_open ts) (with_st x0 s)) as Hd' by (destruct Hd; by split).
  destruct (namex_run sb de Hde (ts_open ts) (with_st x0 s) path false name0 R0 Hu Hd' Htree Hb Hfree Hp Hname Hnameb) as (nm & s' & Hnm & Hnmb & Hr).
  change (walk (disk_dir sb (ts_cur (ts_open ts))) false (start_inum (with_st x0 s) path) (elems path)) with (target ts s path) in Hr.
  destruct (target ts s path) as [j|].
  - destruct Hr as (i & t & m & x & E & -> & Hl & W & _). mnorm. mrun E. mstep. cbn [fst].
    destruct (step_lock sb de Hde (fs_itable s) (ts_open ts) i j (moved t m x s) (rd_tab _ _ _ R) W) as (s2 & z & E2 & G). mrunc E2. mstep.
    rewrite (the_inode_tab i z s2 (sg_entry _ _ _ _ _ _ _ _ G)), (sg_d _ _ _ _ _ _ _ _ G). change (ts_cur (ts_open ts)) with (ts_cur ts).
    fold (dir_refused omode (dinode_at sb (ts_cur ts) j)). destruct (dir_refused omode (dinode_at sb (ts_cur ts) j)).
    + destruct (step_leave sb de (fs_itable s) (ts_open ts) i j z (moved t m x s) s2 (rd_tab _ _ _ R) Hb G (fs_km s2) (fs_st s2) (rd_st _ _ _ (sg_ready _ _ _ _ _ _ _ _ G))) as (s3 & E3 & Hb3).
      { destruct (sg_moved _ _ _ _ _ _ _ _ G) as (y & ->). done. }
      rewrite moved_self in E3. mrun E3. destruct (end_back ts s s3 (back_to_trans sb de _ _ s t m x s3 Hb3 Hl)) as (s4 & E4 & Hret). mrun E4. by exists s4.
    + exists i, z, s2, t, m, x. done.
  - destruct Hr as [E Hb0]. mnorm. mrun E. mstep. cbn [fst]. destruct (end_back ts s s') as (s4 & E4 & Hret).
    { destruct Hb0 as (t & m & x & -> & Hrest). by exists t, m, x. }
    mrun E4. by exists s4.
Qed.

(** * The descriptor *)

Definition bad_device (d : dinode) : bool := (di_type d =? T_DEVICE) && ((di_major d <? 0) || (NDEV <=? di_major d)).

(** The entry of the table of open files. *)
Definition opened_file (omode : Z) (d : dinode) (i : nat) (x : file) : file :=
  let r := negb (has omode O_WRONLY) in let w := has omode O_WRONLY || has omode O_RDWR in
  if di_type d =? T_DEVICE then mkFile FD_DEVICE 1 r w (f_pipe x) i (f_off x) (di_major d)
  else mkFile FD_INODE 1 r w (f_pipe x) i 0 (f_major x).

(** What [sys_open] has to return: the inode, the file and the descriptor. *)
Definition open_spec (ts : tstore) (k : kst St U) (path : list Z) (omode : Z) : option (Z * nat * nat) :=
  j ← target ts (k_fs k) path;
  let d := dinode_at sb (ts_cur ts) j in
  if dir_refused omode d || bad_device d then None else
  f ← filealloc_scan (k_ftable k) 0;
  fd ← fdalloc_scan (k_ofile k) 0;
  Some (j, f, fd).

(** A file that is not open has no type. *)
Definition closed_none (t : list file) : Prop := forall f x, t !! f = Some x -> f_ref x = 0 -> f_type x = FD_NONE.

Lemma open_bad ts s k i j z t m y : at_rest sb ts s -> (forall j', refs (fs_itable s) j' < 2 ^ 31 - 2) -> local de (fs_km s) m ->
  stepping sb (fs_itable s) (ts_open ts) i j z (moved t m y s) (k_fs k) ->
  exists s', (fsm (iunlockput i);; fsm end_op;; mret (-1)) k = Ok (-1) (with_fs s' k) /\ returned ts s s'.
Proof.
  intros [R _ _ _] Hb Hl G.
  destruct (step_leave sb de (fs_itable s) (ts_open ts) i j z (moved t m y s) (k_fs k) (rd_tab _ _ _ R) Hb G (fs_km (k_fs k)) (fs_st (k_fs k)) (rd_st _ _ _ (sg_ready _ _ _ _ _ _ _ _ G))) as (s3 & E3 & Hb3).
  { destruct (sg_moved _ _ _ _ _ _ _ _ G) as (y' & ->). done. }
  rewrite moved_self in E3. destruct (end_back ts s s3 (back_to_trans sb de _ _ s t m y s3 Hb3 Hl)) as (s4 & E4 & Hret).
  mrun (fsm_run (iunlockput i) k tt s3 E3). mrun (fsm_run end_op (with_fs s3 k) tt s4 E4). by exists s4.
Qed.

(** A file that was allocated and never got a type is only put back. *)
Lemma fileclose_fresh k f x : k_ftable k !! f = Some x -> f_ref x = 1 -> f_type x = FD_NONE ->
  fileclose kend f k = Ok tt (with_ftable (<[f := set_fref 0 x]> (k_ftable k)) k).
Proof.
  intros Hx Hr Ht. pose proof (lookup_lt_Some _ _ _ Hx) as Hlt. unfold fileclose, the_file, fupd. mstep. rewrite (list_lookup_total_correct _ _ _ Hx), Hr.
  change (1 <? 1) with false. cbv iota. mstep. cbn [k_ftable with_ftable].
  rewrite (list_lookup_total_correct _ f (set_fref (s32 (f_ref x - 1)) x)) by (by rewrite list_lookup_alter_eq, Hx). cbn [set_fref f_ref f_type].
  rewrite Hr, Ht. change (0 <? s32 (1 - 1)) with false. cbv iota. mstep. cbn [k_ftable with_ftable].
  unfold mret, M_ret, with_ftable. cbn [k_fs k_ftable k_ofile k_pipes k_free k_killed]. do 2 f_equal. apply list_eq. intros g. destruct (decide (g = f)) as [->|Hne].
  - rewrite list_lookup_insert_eq, !list_lookup_alter_eq, Hx by done. destruct x. cbn in *. by subst.
  - by rewrite list_lookup_insert_ne, !list_lookup_alter_ne by done.
Qed.

Lemma filealloc_none k : filealloc_scan (k_ftable k) 0 = None -> filealloc k = Ok None k.
Proof. intros E. unfold filealloc. mstep. by rewrite E. Qed.

Lemma filealloc_first k f : filealloc_scan (k_ftable k) 0 = Some f ->
  exists x, k_ftable k !! f = Some x /\ f_ref x = 0 /\ filealloc k = Ok (Some f) (with_ftable (<[f := set_fref 1 x]> (k_ftable k)) k).
Proof.
  intros E. destruct (filealloc_scan_some _ _ _ E) as (g & x & -> & Hx & Hr). cbn [Nat.add] in *. exists x. split; [done|]. split; [done|].
  unfold filealloc, fupd. mstep. rewrite E. mstep. unfold mret, M_ret. do 2 f_equal. rewrite list_insert_alter. apply list_alter_ext; [|done]. intros y Hy. congruence.
Qed.

Lemma fdalloc_none k f : fdalloc_scan (k_ofile k) 0 = None -> fdalloc f k = Ok None k.
Proof. intros E. unfold fdalloc. mstep. by rewrite E. Qed.

Lemma fdalloc_first k f fd : fdalloc_scan (k_ofile k) 0 = Some fd -> fdalloc f k = Ok (Some fd) (with_ofile (<[fd := Some f]> (k_ofile k)) k).
Proof. intros E. unfold fdalloc, set_ofile. mstep. rewrite E. by mstep. Qed.

(** The fields of the new file. *)
Lemma open_fill k f x omode d i (rest : M (kst St U) Z) : k_ftable k !! f = Some (set_fref 1 x) ->
  ((if di_type d =? T_DEVICE then fupd f (set_ftype FD_DEVICE);; fupd f (set_major (di_major d)) else fupd f (set_ftype FD_INODE);; fupd f (set_off 0));;
   fupd f (set_fip i);; fupd f (set_fmode (negb (has omode O_WRONLY)) (has omode O_WRONLY || has omode O_RDWR));; rest) k =
  rest (with_ftable (<[f := opened_file omode d i x]> (k_ftable k)) k).
Proof.
  intros Hx. assert (forall g, alter g f (k_ftable k) = <[f := g (set_fref 1 x)]> (k_ftable k)) as Ea.
  { intros g. rewrite list_insert_alter. apply list_alter_ext; [|done]. intros y Hy. congruence. }
  unfold fupd, opened_file. destruct (di_type d =? T_DEVICE); mnorm; mstep; unfold with_ftable; cbn [k_fs k_ftable k_ofile k_pipes k_free k_killed];
    rewrite !list_alter_alter_eq, Ea; by destruct x.
Qed.

(** C13: [sys_open] without [O_CREATE] and [O_TRUNC] does what its specification
    says on every branch: it fails with -1 when the path leads nowhere, to a
    directory that is not opened for reading, to a device that does not exist,
    or when the open files or the descriptors are used up, and then leaves the
    disk, the references of the inode table, the open files and the descriptors
    as they were; otherwise it returns the first free descriptor, bound to the
    first free file, which holds the only new reference to the inode the path
    leads to, with the mode asked for and the offset 0. *)
Theorem open_existing_correct ts k path : fs_ok ts (k_fs k) -> closed_none (k_ftable k) -> argstr args 0 MAXPATH (k_fs k) = Some path ->
  let omode := argint args 1 in has omode O_CREATE = false -> has omode O_TRUNC = false ->
  match open_spec ts k path omode with
  | None => exists s', sys_open kend de name0 args k = Ok (-1) (with_fs s' k) /\ returned ts (k_fs k) s'
  | Some (j, f, fd) => exists i s', taken ts i j (k_fs k) s' /\
      sys_open kend de name0 args k = Ok (Z.of_nat fd)
        (with_ofile (<[fd := Some f]> (k_ofile k)) (with_ftable (alter (opened_file omode (dinode_at sb (ts_cur ts) j) i) f (k_ftable k)) (with_fs s' k)))
  end.
Proof.
  intros Hok Hcl Hp omode Hcr Htr. destruct (u_copyinstr_some _ _ _ _ Hp) as (_ & Hpath & _).
  destruct (open_lookup ts (k_fs k) path omode Hok Hpath Hcr) as (x0 & E0 & Hl). unfold sys_open. fold omode. rewrite bind_gets, Hp.
  mrun (fsm_run begin_op k tt _ E0). unfold open_spec. destruct (target ts (k_fs k) path) as [j|]; cbn [mbind option_bind].
  2: { destruct Hl as (s' & E & Hr). mrun (fsm_run (open_inode de name0 path omode) (with_fs (with_st x0 (k_fs k)) k) None s' E). by exists s'. }
  set (d := dinode_at sb (ts_cur ts) j) in *. destruct (dir_refused omode d); cbn [orb].
  { destruct Hl as (s' & E & Hr). mrun (fsm_run (open_inode de name0 path omode) (with_fs (with_st x0 (k_fs k)) k) None s' E). by exists s'. }
  destruct Hl as (i & z & s2 & t & m & y & E & Hlm & G). mrun (fsm_run (open_inode de name0 path omode) (with_fs (with_st x0 (k_fs k)) k) (Some i) s2 E).
  change (with_fs s2 (with_fs (with_st x0 (k_fs k)) k)) with (with_fs s2 k). rewrite bind_gets. cbn [k_fs with_fs].
  rewrite (the_inode_tab i z s2 (sg_entry _ _ _ _ _ _ _ _ G)), (sg_d _ _ _ _ _ _ _ _ G). change (ts_cur (ts_open ts)) with (ts_cur ts). fold d. fold (bad_device d).
  destruct Hok as [Ha Hd Htree Hb Hfree].
  destruct (bad_device d); [exact (open_bad ts (k_fs k) (with_fs s2 k) i j z t m y Ha Hb Hlm G)|].
  set (k2 := with_fs s2 k). destruct (filealloc_scan (k_ftable k) 0) as [f|] eqn:Ef; cbn [mbind option_bind].
  2: { mrun (filealloc_none k2 Ef). exact (open_bad ts (k_fs k) k2 i j z t m y Ha Hb Hlm G). }
  pose proof (filealloc_first k2 f Ef) as (x & Hx & Hx0 & Ea). change (k_ftable k2) with (k_ftable k) in Hx, Ea.
  set (k3 := with_ftable (<[f := set_fref 1 x]> (k_ftable k)) k2) in *. destruct (fdalloc_scan (k_ofile k) 0) as [fd|] eqn:Efd; cbn [mbind option_bind].
  - destruct (step_unlock sb (fs_itable (k_fs k)) (ts_open ts) i j z (moved t m y (k_fs k)) s2 G) as (t' & y' & Eu & W).
    change (moved t' (fs_km (moved t m y (k_fs k))) y' (moved t m y (k_fs k))) with (moved t' m y' (k_fs k)) in *.
    destruct (end_taken ts i j (k_fs k) t' m y' W Hlm) as (s4 & E4 & Htk). exists i, s4. split; [done|].
    mrun Ea. mrun (fdalloc_first k3 f fd Efd). rewrite Htr. cbn [andb].
    rewrite (open_fill _ f x) by (by apply list_lookup_insert_eq, (lookup_lt_Some _ _ x)). mstep. fold d.
    match goal with |- (fsm (iunlock (Some i)) ≫= ?g) ?kk = _ => rewrite (bind_ok (fsm (iunlock (Some i))) g kk tt _ (fsm_run (iunlock (Some i)) kk tt (moved t' m y' (k_fs k)) Eu)) end.
    match goal with |- (fsm end_op ≫= ?g) ?kk = _ => rewrite (bind_ok (fsm end_op) g kk tt _ (fsm_run end_op kk tt s4 E4)) end.
    unfold mret, M_ret. do 2 f_equal. cbn. unfold with_ftable, with_ofile, with_fs. cbn. f_equal. rewrite list_insert_insert_eq, list_insert_alter. apply list_alter_ext; [|done]. intros w Hw. congruence.
  - mrun Ea. mrun (fdalloc_none k3 f Efd).
    assert (fileclose kend f k3 = Ok tt k2) as Ec.
    { rewrite (fileclose_fresh k3 f (set_fref 1 x)); [|by apply list_lookup_insert_eq, (lookup_lt_Some _ _ x)|done|by apply (Hcl f x)].
      unfold k3, with_ftable. cbn. rewrite list_insert_insert_eq, list_insert_id; [by destruct k|]. rewrite Hx. destruct x. cbn in *. by subst. }
    mrun Ec. exact (open_bad ts (k_fs k) k2 i j z t m y Ha Hb Hlm G).
Qed.
End Open.

(** The root of the small disk, opened for reading: descriptor 0, file 0. *)
Definition closed_ts : tstore := ts_close root_ts.
Definition open_k (st : logst bst) : kst (logst bst) (gmap Z Z) :=
  mkK (mkFs small_sb (one_entry idle_root) 1 0 (<[1000 := 47]> (<[1001 := 0]> ∅)) ∅ [] st) (replicate 100 inhabitant) (replicate 16 None) ∅ 0 false.

Lemma closed_start : exists st : logst bst, t_st st closed_ts.
Proof. destruct root_start as [st Hst]. destruct (t_end_spec st _ Hst eq_refl eq_refl) as (y & _ & Hy). by exists y. Qed.

Lemma open_k_ok st : t_st st closed_ts -> fs_ok small_sb closed_ts (k_fs (open_k st)).
Proof.
  intros Hst. split.
  - split; [split; [done|exact Hst| |done|]| |done|done].
    + destruct (fmap_put small_sb 1 root_dir (small_ts true) (small_fmap true) root_inum eq_refl) as [J1 J2 J3 J4]. by split.
    + apply tab_one; [cbn; lia|done|exact root_inum|]. intros _. split; [symmetry; exact root_dinode|done].
    + intros [|i] x Hx; [by injection Hx as <-|]. cbn [open_k k_fs fs_itable one_entry lookup list_lookup] in Hx. by apply lookup_replicate in Hx as [-> _].
  - split; [split; [exact root_inum|]; change ROOTINO with 1; change (ts_cur closed_ts) with (ts_cur root_ts); rewrite root_dinode; by split|]. exists idle_root. split; [done|].
    split; [cbn; lia|]. change (i_inum idle_root) with 1. change (ts_cur closed_ts) with (ts_cur root_ts). by rewrite root_dinode.
  - exact root_tree.
  - intros j. cbn [open_k k_fs fs_itable]. rewrite one_entry_refs. unfold ref_of. cbn [idle_root i_inum i_ref]. destruct (1 =? j); lia.
  - vm_compute. lia.
Qed.

Lemma open_existing_correct_witness : exists st k', sys_open 0 4096 (replicate 14 0) [1000; 0] (open_k st) = Ok 0 k' /\ k_ofile k' !! 0%nat = Some (Some 0%nat).
Proof.
  destruct closed_start as [st Hst].
  pose proof (open_existing_correct small_sb 0 4096 (replicate 14 0) [1000; 0] ltac:(lia) eq_refl ltac:(apply Forall_replicate; lia) closed_ts (open_k st) [47] (open_k_ok st Hst)) as Ho.
  assert (open_spec small_sb closed_ts (open_k st) [47] (argint [1000; 0] 1) = Some (1, 0%nat, 0%nat)) as Es.
  { unfold open_spec, target. change (elems [47]) with (@nil (list Z)). cbn [walk mbind option_bind]. change (start_inum (k_fs (open_k st)) [47]) with 1.
    change (ts_cur closed_ts) with (ts_cur root_ts). by rewrite root_dinode. }
  cbv zeta in Ho. rewrite Es in Ho. destruct Ho as (i & s' & _ & E).
  - intros f x Hx _. by apply lookup_replicate in Hx as [-> _].
  - reflexivity.
  - reflexivity.
  - reflexivity.
  - eexists st, _. split; [exact E|]. reflexivity.
Defined.
