(* ===== verification/XMkfs.v ===== *)
(** reference/xv6-riscv/mkfs/mkfs.c: the first image of the disk.

    The image file is a map from sectors to blocks, growing as sectors are
    written; a read behind its end fails.  The files to install are the
    arguments of the program, each with what [open] and then the calls of
    [read] deliver.  [die] and a failed [assert] end the program. *)

From Stdlib Require Import ZArith Lia.
From stdpp Require Import base strings numbers gmap list.
From S2P Require Import Prelude Mem Vm XBytes XStore XLog XFs.

Definition FSSIZE : Z := 2000.
Definition NINODES : Z := 200.

Definition nbitmap : Z := FSSIZE / BPB + 1.
Definition ninodeblocks : Z := NINODES / IPB + 1.
Definition nlog : Z := LOGBLOCKS + 1.
Definition nmeta : Z := 2 + nlog + ninodeblocks + nbitmap.
Definition nblocks : Z := FSSIZE - nmeta.
Definition mkfs_sb : superblock := mkSb FSMAGIC FSSIZE nblocks NINODES nlog 2 (2 + nlog) (2 + nlog + ninodeblocks).

(** [xshort] and [xint] lay numbers out in little-endian order, as [le_bytes]
    does. *)
Definition sb_bytes (s : superblock) : list Z :=
  concat (le_bytes 4 <$> [sb_magic s; sb_size s; sb_nblocks s; sb_ninodes s; sb_nlog s; sb_logstart s; sb_inodestart s; sb_bmapstart s]).

Record mkst : Type := mkMk { mk_img : gmap Z block; mk_freeinode : Z; mk_freeblock : Z }.

Definition die {A} (e : string) : M mkst A := panic e.

Definition wsect (sec : Z) (buf : block) : M mkst unit :=
  modify (fun s => mkMk (<[sec := buf]> (mk_img s)) (mk_freeinode s) (mk_freeblock s)).
Definition rsect (sec : Z) : M mkst block :=
  o ← gets (fun s => mk_img s !! sec);
  match o with Some b => mret b | None => die "read" end.

Definition winode (inum : Z) (ip : dinode) : M mkst unit :=
  let bn := IBLOCK inum mkfs_sb in
  buf ← rsect bn;
  wsect bn (put_dinode (Z.to_nat (inum mod IPB)) ip buf).
Definition rinode (inum : Z) : M mkst dinode :=
  let bn := IBLOCK inum mkfs_sb in
  buf ← rsect bn;
  mret (get_dinode (Z.to_nat (inum mod IPB)) buf).

Definition ialloc (type : Z) : M mkst Z :=
  inum ← gets mk_freeinode;
  modify (fun s => mkMk (mk_img s) (u32 (mk_freeinode s + 1)) (mk_freeblock s));;
  winode inum (di_set_size 0 (di_set_nlink 1 (di_set_type type zero_dinode)));;
  mret inum.

(** The bits of the first [used] blocks. *)
Definition bitmap (used : nat) : block := foldl (fun buf i => set_bit i buf) zero_block (zseq 0 used).
Definition balloc (used : Z) : M mkst unit :=
  if negb (used <? BPB) then panic "assert" else
  wsect (sb_bmapstart mkfs_sb) (bitmap (Z.to_nat used)).

(** [freeblock++]. *)
Definition newblock : M mkst Z :=
  b ← gets mk_freeblock;
  modify (fun s => mkMk (mk_img s) (mk_freeinode s) (u32 (mk_freeblock s + 1)));;
  mret b.

Definition new_addr (k : nat) (din : dinode) : M mkst dinode :=
  if di_addrs din !!! k =? 0 then b ← newblock; mret (di_set_addr k b din) else mret din.

(** The block [fbn] of the file, and the inode with it. *)
Definition iappend_block (din : dinode) (fbn : Z) : M mkst (dinode * Z) :=
  if fbn <? Z.of_nat NDIRECT then
    din ← new_addr (Z.to_nat fbn) din;
    mret (din, di_addrs din !!! Z.to_nat fbn)
  else
    din ← new_addr NDIRECT din;
    let ind := di_addrs din !!! NDIRECT in
    indirect ← rsect ind;
    let j := (Z.to_nat fbn - NDIRECT)%nat in
    indirect ← (if getu32 (4 * j) indirect =? 0 then
      b ← newblock;
      let indirect := putu32 (4 * j) b indirect in
      wsect ind indirect;;
      mret indirect
    else mret indirect);
    mret (din, getu32 (4 * j) indirect).

Fixpoint iappend_loop (fuel : nat) (din : dinode) (off : Z) (p : list Z) : M mkst (dinode * Z) :=
  match fuel with
  | O => out_of_fuel
  | S f =>
      let n := Z.of_nat (length p) in
      if negb (0 <? n) then mret (din, off) else
      let fbn := off / BSZ in
      if negb (fbn <? MAXFILE) then panic "assert" else
      r ← iappend_block din fbn;
      let n1 := Z.min n ((fbn + 1) * BSZ - off) in
      buf ← rsect r.2;
      wsect r.2 (splice (Z.to_nat (off - fbn * BSZ)) (take (Z.to_nat n1) p) buf);;
      iappend_loop f r.1 (off + n1) (drop (Z.to_nat n1) p)
  end.

Definition iappend (inum : Z) (p : list Z) : M mkst unit :=
  din ← rinode inum;
  r ← iappend_loop (S (length p)) din (di_size din) p;
  winode inum (di_set_size r.2 r.1).

Definition dirent_of (inum : Z) (name : list Z) : list Z := le_bytes 2 inum ++ strncpy DIRSIZ name.

(** "user/" and the leading underscore are dropped. *)
Definition USER : list Z := [117; 115; 101; 114; 47].
Definition shortname (arg : list Z) : list Z := if decide (take 5 arg = USER) then drop 5 arg else arg.
Definition skip_underscore (name : list Z) : list Z := match name with 95 :: n => n | _ => name end.

Definition install (arg : list Z) (file : option (list (list Z))) : M mkst unit :=
  let short := shortname arg in
  if decide (47 ∈ short) then panic "assert" else
  match file with
  | None => die "open"
  | Some chunks =>
      let short := skip_underscore short in
      if (DIRSIZ <? length short)%nat then panic "assert" else
      inum ← ialloc T_FILE;
      iappend ROOTINO (dirent_of inum short);;
      for_each chunks (fun buf => iappend inum buf)
  end.

Definition mkfs (files : list (list Z * option (list (list Z)))) : M mkst unit :=
  modify (fun s => mkMk (mk_img s) (mk_freeinode s) nmeta);;
  for_each (zseq 0 (Z.to_nat FSSIZE)) (fun i => wsect i zero_block);;
  wsect 1 (splice 0 (sb_bytes mkfs_sb) zero_block);;
  rootino ← ialloc T_DIR;
  if negb (rootino =? ROOTINO) then panic "assert" else
  iappend rootino (dirent_of rootino [46]);;
  iappend rootino (dirent_of rootino [46; 46]);;
  for_each files (fun f => install f.1 f.2);;
  din ← rinode rootino;
  winode rootino (di_set_size ((di_size din / BSZ + 1) * BSZ) din);;
  used ← gets mk_freeblock;
  balloc used.

Definition mkfs_start : mkst := mkMk ∅ 1 0.

(** A program of three bytes, delivered by two reads. *)
Example mkfs_run : match mkfs [([117; 115; 101; 114; 47; 95; 99; 97; 116], Some [[7; 8]; [9]])] mkfs_start with
  | Ok _ s => mk_freeblock s = 49 /\ slice 0 3 (mk_img s !!! 48) = [7; 8; 9] /\ slice 32 6 (mk_img s !!! 47) = [2; 0; 99; 97; 116; 0]
  | _ => False end.
Proof. vm_compute. repeat split. Qed.
