(* ===== verification/XMkfsSpec.v ===== *)
(** reference/xv6-riscv/mkfs/mkfs.c: the image is a file system of the kernel.

    What [mkfs] writes is read with the definitions of the kernel's side: the
    inodes and blocks of [XInode], the free map of [XBlocks], the directories of
    [XDir].  While it runs, the free map is not on the image yet; the proofs
    carry the store that has it. *)

From Stdlib Require Import ZArith Lia.
From stdpp Require Import base strings numbers gmap list.
From S2P Require Import Prelude Mem Vm XBytes XStore XBio XLog XTxn XTx XFs XBlocks XInode XRead XWrite XIupd XFile XDir XPath XMkfs.

Lemma mkfs_sb_ok : sb_ok mkfs_sb.
Proof. split; vm_compute; congruence. Qed.

Definition MAPSTART : Z := 46.

(** * The image and the store behind it *)

Record image (s : mkst) (ts : tstore) : Prop := {
  im_fmap : fmap_ok mkfs_sb ts;
  im_cur b : 0 <= b < FSSIZE -> b <> MAPSTART -> mk_img s !! b = Some (ts_cur ts b);
  im_map : ts_cur ts MAPSTART = bitmap (Z.to_nat (mk_freeblock s));
  im_used b : 0 <= b < FSSIZE -> used mkfs_sb (ts_cur ts) b = (b <? mk_freeblock s);
  im_zero b : mk_freeblock s <= b < FSSIZE -> ts_cur ts b = zero_block;
  im_range : nmeta <= mk_freeblock s <= FSSIZE
}.

Lemma nmeta_eq : nmeta = 47.
Proof. reflexivity. Qed.
Lemma data_start : datastart mkfs_sb = 47.
Proof. reflexivity. Qed.
Lemma sb_fssize : sb_size mkfs_sb = 2000.
Proof. reflexivity. Qed.

Lemma bitmap_S n : bitmap (S n) = set_bit (Z.of_nat n) (bitmap n).
Proof. unfold bitmap. replace (S n) with (n + 1)%nat by lia. rewrite zseq_app, foldl_app, (zseq_cons _ 0). change (zseq (0 + Z.of_nat n + 1) 0) with (@nil Z). cbn [foldl]. done. Qed.

Lemma bblock_map c : 0 <= c < FSSIZE -> BBLOCK c mkfs_sb = MAPSTART /\ c mod BPB = c.
Proof.
  unfold FSSIZE, BBLOCK, BPB. intros Hc. rewrite Z.div_small, Z.mod_small by lia. done.
Qed.

Definition with_free (x : Z) (s : mkst) : mkst := mkMk (mk_img s) (mk_freeinode s) x.
Definition with_sect (b : Z) (d : block) (s : mkst) : mkst := mkMk (<[b := d]> (mk_img s)) (mk_freeinode s) (mk_freeblock s).

(** A new block is the first one that is free in the store. *)
Lemma newblock_run s ts : image s ts -> let c := mk_freeblock s in c < FSSIZE ->
  newblock s = Ok c (with_free (c + 1) s) /\ image (with_free (c + 1) s) (alloced mkfs_sb c ts) /\ datastart mkfs_sb <= c < sb_size mkfs_sb /\ used mkfs_sb (ts_cur ts) c = false.
Proof.
  intros Hi c Hc. pose proof (im_range _ _ Hi) as Hr. fold c in Hr. rewrite nmeta_eq in Hr. pose proof (im_fmap _ _ Hi) as Hf. unfold FSSIZE in *.
  assert (datastart mkfs_sb <= c < sb_size mkfs_sb) as Hd by (rewrite data_start, sb_fssize; lia). destruct (bblock_map c) as [Em Ec]; [unfold FSSIZE; lia|].
  assert (forall b, 0 <= b < 2000 -> b <> MAPSTART -> ts_cur (alloced mkfs_sb c ts) b = if decide (b = c) then zero_block else ts_cur ts b) as Hcur.
  { intros b Hb Hm. unfold alloced, mark. cbn [ts_update ts_cur]. rewrite Em. case_decide; [done|]. by rewrite decide_False. }
  split; [unfold newblock; mstep; fold c; unfold mret, M_ret, with_free; by rewrite u32_small by lia|]. split; [|split; [done|]].
  - split; cbn [with_free mk_img mk_freeblock].
    + by apply fmap_alloced.
    + intros b Hb Hm. rewrite (im_cur _ _ Hi b Hb Hm), Hcur by done. case_decide as E; [|done]. subst. f_equal. apply (im_zero _ _ Hi). unfold FSSIZE. fold c. lia.
    + replace (Z.to_nat (c + 1)) with (S (Z.to_nat c)) by lia. pose proof (im_map _ _ Hi) as Hmap. fold c in Hmap. rewrite bitmap_S, Z2Nat.id, <- Hmap by lia. unfold alloced, mark. cbn [ts_update ts_cur]. rewrite Em, Ec.
      rewrite decide_False by (unfold MAPSTART; lia). by rewrite decide_True.
    + intros b Hb. rewrite used_alloced by (done || apply Hf || apply mkfs_sb_ok). rewrite (im_used _ _ Hi b Hb). fold c. case_decide; [subst; symmetry; apply Z.ltb_lt; lia|].
      destruct (Z.ltb_spec b c), (Z.ltb_spec b (c + 1)); try done; lia.
    + intros b Hb. rewrite Hcur by (unfold MAPSTART, FSSIZE in *; lia). case_decide; [done|]. apply (im_zero _ _ Hi). fold c. lia.
    + rewrite nmeta_eq. unfold FSSIZE. lia.
  - rewrite (im_used _ _ Hi) by (unfold FSSIZE; lia). fold c. apply Z.ltb_irrefl.
Qed.

Lemma rsect_run s ts b : image s ts -> 0 <= b < FSSIZE -> b <> MAPSTART -> rsect b s = Ok (ts_cur ts b) s.
Proof. intros Hi Hb Hm. unfold rsect. mstep. by rewrite (im_cur _ _ Hi b Hb Hm). Qed.

(** A block in use is written. *)
Lemma wsect_run s ts b d : image s ts -> 0 <= b < mk_freeblock s -> b <> MAPSTART -> length d = BSIZE -> byte_list d ->
  wsect b d s = Ok tt (with_sect b d s) /\ image (with_sect b d s) (ts_update b d ts).
Proof.
  intros Hi Hb Hm Hl Hd. split; [done|]. pose proof (im_range _ _ Hi) as Hr. pose proof (im_fmap _ _ Hi) as Hf.
  assert (forall c, 0 <= c < FSSIZE -> used mkfs_sb (ts_cur (ts_update b d ts)) c = used mkfs_sb (ts_cur ts) c) as Hu.
  { intros c Hc. apply used_other; [done|]. destruct (bblock_map c Hc) as [-> _]. done. }
  split; cbn [with_sect mk_img mk_freeblock].
  - split; [apply Hf|apply Hf|by apply blocks_update; [apply Hf| |]|]. intros c Hc. rewrite data_start in Hc. rewrite Hu by (unfold FSSIZE; lia). apply Hf. by rewrite data_start.
  - intros c Hc Hcm. cbn [ts_update ts_cur]. case_decide; [subst; by rewrite lookup_insert_eq|]. rewrite lookup_insert_ne by done. by apply Hi.
  - cbn [ts_update ts_cur]. rewrite decide_False by done. apply Hi.
  - intros c Hc. rewrite Hu by done. by apply Hi.
  - intros c Hc. cbn [ts_update ts_cur]. rewrite decide_False by lia. by apply Hi.
  - done.
Qed.

(** * Appending to a file *)

(** The offset at which slot [k] is needed. *)
Definition start (k : nat) : Z := Z.of_nat (if (k <=? 12)%nat then k else k - 1) * BSZ.
(** The slots of the first [n] bytes are in use, and no others. *)
Definition filled (cur : Z -> block) (d : dinode) (n : Z) : Prop := forall k, (k < NSLOTS)%nat -> slot cur d k = 0 <-> n <= start k.
(** The number of these slots. *)
Definition need (n : Z) : Z := let b := (n + BSZ - 1) / BSZ in if b <=? 12 then b else b + 1.

Lemma need_in fbn n : fbn * BSZ < n <= (fbn + 1) * BSZ -> need n = if fbn <? 12 then fbn + 1 else fbn + 2.
Proof.
  intros Hn. unfold need. assert ((n + BSZ - 1) / BSZ = fbn + 1) as ->. { symmetry. apply (Z.div_unique _ _ _ (n + BSZ - 1 - BSZ * (fbn + 1))); unfold BSZ in *; lia. }
  destruct (Z.leb_spec (fbn + 1) 12), (Z.ltb_spec fbn 12); lia.
Qed.

Lemma need_at fbn : need (fbn * BSZ) = if fbn <=? 12 then fbn else fbn + 1.
Proof.
  unfold need. assert ((fbn * BSZ + BSZ - 1) / BSZ = fbn) as ->; [|done]. symmetry. apply (Z.div_unique _ _ _ (BSZ - 1)); unfold BSZ in *; lia.
Qed.

(** The slot [k0] is filled if it was empty. *)
Record took (s : mkst) (ts : tstore) (d : dinode) (k0 : nat) (s' : mkst) (ts' : tstore) (d' : dinode) : Prop := {
  tk_image : image s' ts';
  tk_grows : grows mkfs_sb ts d ts' d';
  tk_free : mk_freeblock s' = mk_freeblock s + (if decide (slot (ts_cur ts) d k0 = 0) then 1 else 0);
  tk_inode : mk_freeinode s' = mk_freeinode s;
  tk_slot k : slot (ts_cur ts') d' k = if decide (k = k0 /\ slot (ts_cur ts) d k0 = 0) then mk_freeblock s else slot (ts_cur ts) d k;
  tk_zero : slot (ts_cur ts) d k0 = 0 -> ts_cur ts' (slot (ts_cur ts') d' k0) = zero_block
}.

Lemma appends_nothing s ts d k0 : image s ts -> inode_ok mkfs_sb (ts_cur ts) d -> slot (ts_cur ts) d k0 <> 0 -> took s ts d k0 s ts d.
Proof.
  intros Hi Ho Hs. split; [done|by apply grows_refl; [apply Hi|]|rewrite decide_False by done; lia|done| |done]. intros k. rewrite decide_False; [done|]. by intros [_ ?].
Qed.

Lemma new_addr_run s ts d k0 : image s ts -> inode_ok mkfs_sb (ts_cur ts) d -> (k0 < 13)%nat -> (di_addrs d !!! k0 = 0 -> mk_freeblock s < FSSIZE) ->
  exists d' s' ts', new_addr k0 d s = Ok d' s' /\ took s ts d k0 s' ts' d'.
Proof.
  intros Hi Ho Hk Hf. assert (slot (ts_cur ts) d k0 = di_addrs d !!! k0) as Es by (unfold slot; by rewrite (proj2 (Nat.ltb_lt k0 13))). unfold new_addr.
  destruct (Z.eqb_spec (di_addrs d !!! k0) 0) as [E|E]; [|exists d, s, ts; split; [done|by apply appends_nothing; [| |congruence]]].
  destruct (newblock_run s ts Hi (Hf E)) as (En & Hi' & Hc & Hu). mrun En. set (c := mk_freeblock s) in *.
  assert (forall k, slot (ts_cur (alloced mkfs_sb c ts)) (di_set_addr k0 c d) k = if decide (k = k0) then c else slot (ts_cur ts) d k) as Hslot.
  { intros k. apply slot_addr; [apply Hi|done|done|done|done|done]. }
  exists (di_set_addr k0 c d), (with_free (c + 1) s), (alloced mkfs_sb c ts). split; [done|]. split; [done| | |done| |].
  - apply grows_addr; [apply Hi|done|done|done|done|done].
  - rewrite decide_True by congruence. done.
  - intros k. rewrite Hslot. destruct (decide (k = k0)); [by rewrite decide_True by (split; congruence)|]. rewrite decide_False; [done|]. by intros [? _].
  - intros _. rewrite Hslot, decide_True by done. unfold alloced. cbn [ts_update ts_cur]. by rewrite decide_True.
Qed.

Lemma new_entry_run s ts d j : image s ts -> inode_ok mkfs_sb (ts_cur ts) d -> (j < 256)%nat -> let ind := di_addrs d !!! NDIRECT in ind <> 0 ->
  (slot (ts_cur ts) d (13 + j) = 0 -> mk_freeblock s < FSSIZE) ->
  exists t s' ts', (if getu32 (4 * j) (ts_cur ts ind) =? 0 then b ← newblock; (let indirect := putu32 (4 * j) b (ts_cur ts ind) in wsect ind indirect;; mret indirect) else mret (ts_cur ts ind)) s = Ok t s' /\
    took s ts d (13 + j) s' ts' d /\ getu32 (4 * j) t = slot (ts_cur ts') d (13 + j).
Proof.
  intros Hi Ho Hj ind Hind Hf. pose proof (im_fmap _ _ Hi) as Hm. pose proof (im_range _ _ Hi) as Hr. rewrite nmeta_eq in Hr.
  assert (slot (ts_cur ts) d (13 + j) = getu32 (4 * j) (ts_cur ts ind)) as Es.
  { unfold slot. rewrite (proj2 (Nat.ltb_ge (13 + j) 13)) by lia. fold ind. rewrite (proj2 (Z.eqb_neq _ _) Hind). by replace (13 + j - 13)%nat with j by lia. }
  rewrite Es in Hf. destruct (Z.eqb_spec (getu32 (4 * j) (ts_cur ts ind)) 0) as [E|E]; [|exists (ts_cur ts ind), s, ts; split; [done|]; split; [by apply appends_nothing; [| |congruence]|done]].
  destruct (io_data _ _ _ Ho NDIRECT ltac:(unfold NDIRECT, NSLOTS; lia) Hind) as [Hir Hiu]. rewrite slot_ind in Hir, Hiu. fold ind in Hir, Hiu. rewrite data_start, sb_fssize in Hir.
  rewrite (im_used _ _ Hi) in Hiu by (unfold FSSIZE; lia). apply Z.ltb_lt in Hiu. destruct (newblock_run s ts Hi (Hf E)) as (En & Hi' & Hc & Hu). mrun En. set (c := mk_freeblock s) in *.
  destruct (fm_blocks _ _ Hm ind ltac:(rewrite sb_fssize; lia)) as [Hl Hb]. assert (4 * j + 4 <= length (ts_cur ts ind))%nat as Hlj by (rewrite Hl; change BSIZE with (Z.to_nat 1024); lia).
  destruct (wsect_run (with_free (c + 1) s) (alloced mkfs_sb c ts) ind (putu32 (4 * j) c (ts_cur ts ind)) Hi') as [Ew Hi2].
  { cbn [with_free mk_freeblock]. lia. } { unfold MAPSTART. lia. } { by rewrite putu32_length. } { apply byte_splice; [done|apply byte_le_bytes]. }
  assert (forall k, slot (ts_cur (with_entry mkfs_sb ind j c ts)) d k = if decide (k = (13 + j)%nat) then c else slot (ts_cur ts) d k) as Hslot by (intros k; by apply slot_entry).
  cbv zeta. mrun Ew. eexists _, _, (with_entry mkfs_sb ind j c ts). split; [done|]. split; [split|].
  - exact Hi2.
  - by apply grows_entry.
  - rewrite decide_True by congruence. done.
  - done.
  - intros k. rewrite Hslot. destruct (decide (k = (13 + j)%nat)); [by rewrite decide_True by (split; congruence)|]. rewrite decide_False; [done|]. by intros [? _].
  - intros _. rewrite Hslot, decide_True by done. unfold with_entry, alloced. cbn [ts_update ts_cur]. rewrite decide_False by lia. by rewrite decide_True.
  - rewrite Hslot, decide_True by done. apply getu32_put; [done|]. rewrite sb_fssize in Hc. lia.
Qed.

Lemma fbn_bounds off : 0 <= off -> 0 <= off / BSZ /\ off / BSZ * BSZ <= off < (off / BSZ + 1) * BSZ.
Proof. intros Ho. pose proof (Z.div_mod off BSZ ltac:(done)). pose proof (Z.mod_pos_bound off BSZ ltac:(done)). pose proof (Z.div_pos off BSZ ltac:(lia) ltac:(done)). unfold BSZ in *. lia. Qed.

Lemma need_next off : 0 <= off -> let fbn := off / BSZ in
  need (off + 1) = need off + (if off =? fbn * BSZ then (if fbn =? 12 then 2 else 1) else 0).
Proof.
  intros Ho fbn. destruct (fbn_bounds off Ho) as [H0 H1]. fold fbn in H0, H1. rewrite (need_in fbn (off + 1)) by lia. destruct (Z.eqb_spec off (fbn * BSZ)) as [E|E].
  - rewrite E at 1. rewrite need_at. destruct (Z.eqb_spec fbn 12), (Z.leb_spec fbn 12), (Z.ltb_spec fbn 12); lia.
  - rewrite (need_in fbn off) by lia. lia.
Qed.

(** The block for offset [off] is there. *)
Record block_at (s : mkst) (ts : tstore) (d : dinode) (off : Z) (s' : mkst) (ts' : tstore) (d' : dinode) : Prop := {
  ba_image : image s' ts';
  ba_grows : grows mkfs_sb ts d ts' d';
  ba_free : mk_freeblock s' = mk_freeblock s + need (off + 1) - need off;
  ba_inode : mk_freeinode s' = mk_freeinode s;
  ba_filled n : off / BSZ * BSZ < n <= (off / BSZ + 1) * BSZ -> filled (ts_cur ts') d' n;
  ba_zero : blk (ts_cur ts) d (off / BSZ) = 0 -> ts_cur ts' (blk (ts_cur ts') d' (off / BSZ)) = zero_block
}.

Lemma start_same off q n k j : q * BSZ <= off < (q + 1) * BSZ -> 12 <= q -> j = Z.to_nat (q - 12) -> q * BSZ < n <= (q + 1) * BSZ ->
  ~ (k = (13 + j)%nat /\ off = q * BSZ) -> ~ (k = NDIRECT /\ off = 12 * BSZ) -> off <= start k <-> n <= start k.
Proof. unfold start, BSZ, NDIRECT. intros H1 H2 -> H3 H4 H5. destruct (Nat.leb_spec k 12); lia. Qed.

Lemma two_slots off q (P Q : Prop) `{Decision P} `{Decision Q} : q * BSZ <= off < (q + 1) * BSZ -> 12 <= q -> (P <-> off = 12 * BSZ) -> (Q <-> off = q * BSZ) ->
  (if decide P then 1 else 0) + (if decide Q then 1 else 0) = if off =? q * BSZ then (if q =? 12 then 2 else 1) else 0.
Proof.
  unfold BSZ. intros H1 H2 HP HQ. rewrite (decide_ext _ _ 1 0 HP), (decide_ext _ _ 1 0 HQ). destruct (Z.eqb_spec off (q * 1024)), (Z.eqb_spec q 12); repeat case_decide; lia.
Qed.

Section Block.
Context (s : mkst) (ts : tstore) (d : dinode) (off : Z).
Context (Hi : image s ts) (Ho : inode_ok mkfs_sb (ts_cur ts) d) (Hfl : filled (ts_cur ts) d off) (Hoff : 0 <= off).
Context (Hmax : off / BSZ < MAXFILE) (Hcap : mk_freeblock s + need (off + 1) - need off <= FSSIZE).
#[local] Abbreviation fbn := (off / BSZ).

Lemma iappend_direct : fbn < 12 -> exists d' s' ts', iappend_block d fbn s = Ok (d', blk (ts_cur ts') d' fbn) s' /\ block_at s ts d off s' ts' d'.
Proof.
  intros Hlt. destruct (fbn_bounds off Hoff) as [H0 H1]. pose proof (need_next off Hoff) as Hneed. cbv zeta in Hneed.
  pose proof (im_range _ _ Hi) as Hr. rewrite nmeta_eq in Hr. unfold iappend_block. change (Z.of_nat NDIRECT) with 12. rewrite (proj2 (Z.ltb_lt _ _) Hlt).
  set (k0 := Z.to_nat fbn). assert (slot (ts_cur ts) d k0 = 0 <-> off = fbn * BSZ) as Hz.
  { rewrite (Hfl k0) by (unfold NSLOTS, k0; lia). unfold start. rewrite (proj2 (Nat.leb_le k0 12)) by lia. unfold k0, BSZ in *. lia. }
  assert (slot (ts_cur ts) d k0 = di_addrs d !!! k0) as Es by (unfold slot; by rewrite (proj2 (Nat.ltb_lt k0 13)) by lia).
  destruct (new_addr_run s ts d k0 Hi Ho ltac:(lia)) as (d' & s' & ts' & E & [T1 T2 T3 T4 T5 T6]).
  { rewrite <- Es. intros Ez. apply Hz in Ez. rewrite (proj2 (Z.eqb_eq _ _) Ez), (proj2 (Z.eqb_neq fbn 12)) in Hneed by lia. lia. }
  mrun E. assert (slot_of fbn = k0) as Ek by (unfold slot_of; by rewrite (proj2 (Z.ltb_lt _ _) Hlt)).
  exists d', s', ts'. split; [unfold blk; rewrite Ek; unfold slot; by rewrite (proj2 (Nat.ltb_lt k0 13)) by lia|]. split; [done|done| |done| |unfold blk; by rewrite Ek].
  - rewrite T3, Hneed. destruct (Z.eqb_spec off (fbn * BSZ)) as [E0|E0]; [rewrite decide_True by (by apply Hz); rewrite (proj2 (Z.eqb_neq fbn 12)) by lia; lia|].
    rewrite decide_False by (by rewrite Hz). lia.
  - intros n Hn k Hk. rewrite T5. pose proof (Hfl k Hk) as Hfk. destruct (decide (k = k0 /\ slot (ts_cur ts) d k0 = 0)) as [[-> _]|Hno].
    + unfold start. rewrite (proj2 (Nat.leb_le k0 12)) by lia. unfold k0, BSZ in *. lia.
    + rewrite Hfk. assert (k <> k0 \/ off <> fbn * BSZ) as Hk0 by (destruct (decide (k = k0)); [right; intros ?; by apply Hno; rewrite Hz|by left]).
      unfold start, k0, BSZ in *. destruct (Nat.leb_spec k 12); lia.
Qed.

Lemma iappend_indirect : 12 <= fbn -> exists d' s' ts', iappend_block d fbn s = Ok (d', blk (ts_cur ts') d' fbn) s' /\ block_at s ts d off s' ts' d'.
Proof.
  intros Hge. destruct (fbn_bounds off Hoff) as [H0 H1]. pose proof (need_next off Hoff) as Hneed. cbv zeta in Hneed. unfold MAXFILE in Hmax.
  pose proof (im_range _ _ Hi) as Hr. rewrite nmeta_eq in Hr. unfold iappend_block. change (Z.of_nat NDIRECT) with 12. rewrite (proj2 (Z.ltb_ge _ _) Hge).
  set (j := (Z.to_nat fbn - NDIRECT)%nat). assert ((13 + j)%nat = slot_of fbn /\ j = Z.to_nat (fbn - 12) /\ (j < 256)%nat) as (Ej & Ej2 & Hj).
  { unfold j, slot_of, NDIRECT. rewrite (proj2 (Z.ltb_ge _ _) Hge). lia. }
  assert (slot (ts_cur ts) d 12 = 0 <-> off = 12 * BSZ) as Hz1. { rewrite (Hfl 12%nat) by (unfold NSLOTS; lia). unfold start, BSZ in *. cbn [Nat.leb]. lia. }
  assert (slot (ts_cur ts) d (13 + j) = 0 <-> off = fbn * BSZ) as Hz2.
  { rewrite (Hfl (13 + j)%nat) by (unfold NSLOTS; lia). unfold start. rewrite (proj2 (Nat.leb_gt (13 + j) 12)) by lia. unfold BSZ in *. lia. }
  destruct (new_addr_run s ts d NDIRECT Hi Ho ltac:(unfold NDIRECT; lia)) as (d1 & s1 & ts1 & E & [T1 T2 T3 T4 T5 T6]).
  { rewrite <- (slot_ind (ts_cur ts)). intros Ez. apply Hz1 in Ez. assert (fbn = 12) as E12 by (unfold BSZ in *; lia). rewrite E12, (proj2 (Z.eqb_eq off _) Ez) in Hneed. cbn in Hneed. lia. }
  mrun E. pose proof (gr_ok _ _ _ _ _ T2) as Ho1. set (ind := di_addrs d1 !!! NDIRECT). assert (ind <> 0) as Hind.
  { unfold ind. rewrite <- (slot_ind (ts_cur ts1)), T5. destruct (decide (NDIRECT = NDIRECT /\ slot (ts_cur ts) d NDIRECT = 0)) as [_|Hn]; [lia|]. intros ?. by apply Hn. }
  destruct (io_data _ _ _ Ho1 NDIRECT ltac:(unfold NDIRECT, NSLOTS; lia) Hind) as [Hir _]. rewrite slot_ind in Hir. fold ind in Hir. rewrite data_start, sb_fssize in Hir.
  mrun (rsect_run s1 ts1 ind T1 ltac:(unfold FSSIZE; lia) ltac:(unfold MAPSTART; lia)).
  assert (slot (ts_cur ts1) d1 (13 + j) = slot (ts_cur ts) d (13 + j)) as Esame by (rewrite T5, decide_False; [done|unfold NDIRECT; lia]).
  destruct (new_entry_run s1 ts1 d1 j T1 Ho1 Hj Hind) as (t & s2 & ts2 & E2 & [U1 U2 U3 U4 U5 U6] & Et).
  { rewrite Esame. intros Ez. apply Hz2 in Ez. rewrite T3. rewrite (proj2 (Z.eqb_eq _ _) Ez) in Hneed. change (slot (ts_cur ts) d NDIRECT) with (slot (ts_cur ts) d 12).
    destruct (decide (slot (ts_cur ts) d 12 = 0)) as [Ez1|Ez1]; [apply Hz1 in Ez1; rewrite (proj2 (Z.eqb_eq fbn 12)) in Hneed by (unfold BSZ in *; lia); lia|destruct (fbn =? 12); lia]. }
  fold ind in E2. mrun E2. exists d1, s2, ts2. split; [unfold blk; rewrite <- Ej, <- Et; done|]. split; [done|by eapply grows_trans| |congruence| |unfold blk; rewrite <- Ej, <- Esame; exact U6].
  - rewrite U3, T3, Hneed, Esame. change (slot (ts_cur ts) d NDIRECT) with (slot (ts_cur ts) d 12).
    rewrite <- (two_slots off fbn _ _ H1 Hge Hz1 Hz2). clear. lia.
  - intros n Hn k Hk. rewrite U5, Esame. pose proof (Hfl k Hk) as Hfk. pose proof (im_range _ _ T1) as Hr1. rewrite nmeta_eq in Hr1.
    destruct (decide (k = (13 + j)%nat /\ slot (ts_cur ts) d (13 + j) = 0)) as [[-> _]|Hno].
    { unfold start. rewrite (proj2 (Nat.leb_gt (13 + j) 12)) by lia. unfold BSZ in *. lia. }
    rewrite T5. destruct (decide (k = NDIRECT /\ slot (ts_cur ts) d NDIRECT = 0)) as [[-> _]|Hno2]; [unfold start, NDIRECT, BSZ in *; cbn [Nat.leb]; lia|].
    rewrite Hfk. change (slot (ts_cur ts) d NDIRECT) with (slot (ts_cur ts) d 12) in Hno2. rewrite Hz2 in Hno. rewrite Hz1 in Hno2. by apply (start_same off fbn n k j).
Qed.

Lemma iappend_block_run : exists d' s' ts', iappend_block d fbn s = Ok (d', blk (ts_cur ts') d' fbn) s' /\ block_at s ts d off s' ts' d'.
Proof. destruct (Z.lt_ge_cases fbn 12); [by apply iappend_direct|by apply iappend_indirect]. Qed.
End Block.

(** Behind its end a file is zero as far as it has blocks. *)
Definition tail_zero (cur : Z -> block) (d : dinode) (n : Z) : Prop := forall i, n <= i < MAXFILE * BSZ -> blk cur d (i / BSZ) <> 0 -> fbyte cur d i = 0.

Record appended (s : mkst) (ts : tstore) (d : dinode) (off : Z) (p : list Z) (s' : mkst) (ts' : tstore) (d' : dinode) : Prop := {
  ap_image : image s' ts';
  ap_ext : extends mkfs_sb ts d ts' d';
  ap_filled : filled (ts_cur ts') d' (off + Z.of_nat (length p));
  ap_free : mk_freeblock s' = mk_freeblock s + need (off + Z.of_nat (length p)) - need off;
  ap_inode : mk_freeinode s' = mk_freeinode s;
  ap_old i : 0 <= i < off -> fbyte (ts_cur ts') d' i = fbyte (ts_cur ts) d i;
  ap_new i : 0 <= i < Z.of_nat (length p) -> fbyte (ts_cur ts') d' (off + i) = p !!! Z.to_nat i;
  ap_tail : tail_zero (ts_cur ts') d' (off + Z.of_nat (length p))
}.

Lemma filled_blk cur d n i : filled cur d n -> 0 <= i < MAXFILE * BSZ -> blk cur d (i / BSZ) <> 0 <-> i / BSZ * BSZ < n.
Proof.
  intros Hfl Hi. unfold blk. destruct (fbn_bounds i ltac:(lia)) as [H0 H1]. assert (i / BSZ < MAXFILE) as Hm by (apply Z.div_lt_upper_bound; unfold BSZ in *; lia).
  pose proof (Hfl _ (slot_of_lt (i / BSZ) ltac:(lia))) as Hs. assert (start (slot_of (i / BSZ)) = i / BSZ * BSZ) as Est.
  { unfold start, slot_of. f_equal. destruct (Z.ltb_spec (i / BSZ) 12); [rewrite (proj2 (Nat.leb_le _ _)) by lia; lia|]. destruct (Nat.leb_spec (S (Z.to_nat (i / BSZ))) 12); lia. }
  rewrite Hs, Est. unfold BSZ in *. lia.
Qed.

(** One block of the loop of [iappend]. *)
Lemma append_step s ts d off l : image s ts -> inode_ok mkfs_sb (ts_cur ts) d -> filled (ts_cur ts) d off -> tail_zero (ts_cur ts) d off -> 0 <= off ->
  let fbn := off / BSZ in fbn < MAXFILE -> 0 < Z.of_nat (length l) <= (fbn + 1) * BSZ - off -> byte_list l -> mk_freeblock s + need (off + Z.of_nat (length l)) - need off <= FSSIZE ->
  exists d' s1 b buf s' ts', iappend_block d fbn s = Ok (d', b) s1 /\ rsect b s1 = Ok buf s1 /\
    wsect b (splice (Z.to_nat (off - fbn * BSZ)) l buf) s1 = Ok tt s' /\ appended s ts d off l s' ts' d'.
Proof.
  intros Hi Ho Hfl Htz Hoff fbn Hmax Hl Hlb Hcap. destruct (fbn_bounds off Hoff) as [H0 H1]. fold fbn in H0, H1.
  assert (need (off + Z.of_nat (length l)) = need (off + 1)) as En by (rewrite (need_in fbn), (need_in fbn (off + 1)) by lia; done).
  destruct (iappend_block_run s ts d off Hi Ho Hfl Hoff Hmax ltac:(lia)) as (d' & s1 & ts1 & E & [B1 B2 B3 B4 B5 B6]). fold fbn in E, B5, B6. set (b := blk (ts_cur ts1) d' fbn) in *.
  pose proof (gr_ok _ _ _ _ _ B2) as Ho1. pose proof (im_fmap _ _ B1) as Hf1. assert (filled (ts_cur ts1) d' (off + Z.of_nat (length l))) as Hfl1 by (apply B5; lia).
  assert (fbn * BSZ / BSZ = fbn) as Ediv by (by rewrite Z.div_mul). assert (b <> 0) as Hb0.
  { unfold b. rewrite <- Ediv. apply (filled_blk _ _ _ _ Hfl1); [unfold MAXFILE, BSZ in *; lia|]. rewrite Ediv. lia. }
  destruct (io_data _ _ _ Ho1 _ (slot_of_lt fbn ltac:(lia)) Hb0) as [Hbr Hbu]. fold (blk (ts_cur ts1) d' fbn) in Hbr, Hbu. fold b in Hbr, Hbu. rewrite data_start, sb_fssize in Hbr.
  rewrite (im_used _ _ B1) in Hbu by (unfold FSSIZE; lia). apply Z.ltb_lt in Hbu. destruct (fm_blocks _ _ Hf1 b ltac:(rewrite sb_fssize; lia)) as [Hlen Hbytes].
  set (o := Z.to_nat (off - fbn * BSZ)). assert (o + length l <= BSIZE)%nat as Hol by (change BSIZE with (Z.to_nat 1024); unfold o, BSZ in *; lia).
  destruct (wsect_run s1 ts1 b (splice o l (ts_cur ts1 b)) B1) as [Ew Hi2]; [lia|unfold MAPSTART; lia|by rewrite length_splice by lia|by apply byte_splice|].
  exists d', s1, b, (ts_cur ts1 b), (with_sect b (splice o l (ts_cur ts1 b)) s1), (overwrite b o l ts1). split; [done|].
  split; [apply (rsect_run s1 ts1 b B1); [unfold FSSIZE; lia|unfold MAPSTART; lia]|]. split; [done|].
  assert (forall i, 0 <= i < MAXFILE * BSZ -> fbyte (ts_cur (overwrite b o l ts1)) d' i = if decide (off <= i < off + Z.of_nat (length l)) then l !!! Z.to_nat (i - off) else fbyte (ts_cur ts1) d' i) as Hbyte.
  { intros i Hir. pose proof (overwrite_fbyte mkfs_sb ts1 d' fbn o l i Hf1 Ho1 ltac:(lia) Hb0 Hol Hir) as Ef. fold b in Ef. rewrite Ef. replace (fbn * BSZ + Z.of_nat o) with off by (unfold o; lia). done. }
  assert (forall k, slot (ts_cur (overwrite b o l ts1)) d' k = slot (ts_cur ts1) d' k) as Hslot by (intros k; by apply (overwrite_slot mkfs_sb ts1 d' b o l k Ho1 fbn)).
  assert (off + Z.of_nat (length l) <= MAXFILE * BSZ) as Hend by (unfold MAXFILE, BSZ in *; lia).
  split; [done| | |cbn; lia|done| | |].
  - eapply extends_trans; [by apply grows_extends|]. by apply extends_overwrite.
  - intros k Hk. rewrite Hslot. by apply Hfl1.
  - intros i Hir. rewrite Hbyte, decide_False by lia. apply (grows_fbyte mkfs_sb); [apply Hi|done|done|lia|]. apply (filled_blk _ _ _ _ Hfl); [lia|]. destruct (fbn_bounds i); lia.
  - intros i Hir. rewrite Hbyte, decide_True by lia. f_equal. lia.
  - intros i Hir Hbi. unfold blk in Hbi. rewrite Hslot in Hbi. fold (blk (ts_cur ts1) d' (i / BSZ)) in Hbi. rewrite Hbyte, decide_False by lia.
    apply (filled_blk _ _ _ _ Hfl1) in Hbi; [|lia]. destruct (fbn_bounds i ltac:(lia)) as [J0 J1]. assert (i / BSZ = fbn) as Ei by (unfold BSZ in *; lia).
    destruct (decide (blk (ts_cur ts) d fbn = 0)) as [Ez|Ez].
    + unfold fbyte. rewrite Ei. fold b. rewrite (B6 Ez). apply list_lookup_total_correct, lookup_replicate. split; [done|]. pose proof (Z.mod_pos_bound i BSZ ltac:(done)). change BSIZE with (Z.to_nat 1024). unfold BSZ in *. lia.
    + rewrite (grows_fbyte mkfs_sb ts d ts1 d' i) by (done || apply Hi || (by rewrite Ei) || lia). apply Htz; [lia|by rewrite Ei].
Qed.

Lemma appended_app s ts d off p1 p2 s1 ts1 d1 s2 ts2 d2 : 0 <= off -> appended s ts d off p1 s1 ts1 d1 -> appended s1 ts1 d1 (off + Z.of_nat (length p1)) p2 s2 ts2 d2 ->
  appended s ts d off (p1 ++ p2) s2 ts2 d2.
Proof.
  intros Hoff [A1 A2 A3 A4 A5 A6 A7 A8] [B1 B2 B3 B4 B5 B6 B7 B8]. rewrite <- Z.add_assoc in B3, B4, B8. assert (Z.of_nat (length p1) + Z.of_nat (length p2) = Z.of_nat (length (p1 ++ p2))) as El by (rewrite length_app; lia).
  rewrite El in B3, B4, B8. split; try done; [by eapply extends_trans|lia|congruence| |].
  - intros i Hi. rewrite B6, A6 by lia. done.
  - intros i Hi. rewrite <- El in Hi. destruct (Z.lt_ge_cases i (Z.of_nat (length p1))).
    + rewrite B6, A7 by lia. by rewrite lookup_total_app_l by lia.
    + replace (off + i) with (off + Z.of_nat (length p1) + (i - Z.of_nat (length p1))) by lia. rewrite B7 by lia. rewrite lookup_total_app_r by lia. f_equal. lia.
Qed.

Lemma need_mono a b : 0 <= a <= b -> need a <= need b.
Proof.
  intros Hab. unfold need. pose proof (Z.div_le_mono (a + BSZ - 1) (b + BSZ - 1) BSZ ltac:(done) ltac:(lia)). destruct (Z.leb_spec ((a + BSZ - 1) / BSZ) 12), (Z.leb_spec ((b + BSZ - 1) / BSZ) 12); lia.
Qed.

Lemma append_loop fuel : forall s ts d off p, image s ts -> inode_ok mkfs_sb (ts_cur ts) d -> filled (ts_cur ts) d off -> tail_zero (ts_cur ts) d off -> 0 <= off ->
  (length p < fuel)%nat -> byte_list p -> off + Z.of_nat (length p) <= MAXFILE * BSZ -> mk_freeblock s + need (off + Z.of_nat (length p)) - need off <= FSSIZE ->
  exists d' s' ts', iappend_loop fuel d off p s = Ok (d', off + Z.of_nat (length p)) s' /\ appended s ts d off p s' ts' d'.
Proof.
  induction fuel as [|fuel IH]; intros s ts d off p Hi Ho Hfl Htz Hoff Hf Hb Hend Hcap; [lia|]. cbn [iappend_loop]. destruct p as [|x p].
  { cbn [length] in *. rewrite Z.add_0_r in *. exists d, s, ts. split; [done|]. split; cbn [length]; rewrite ?Z.add_0_r; try done; [by apply extends_refl; [apply Hi|]|lia|lia]. }
  set (q := x :: p) in *. assert (0 < Z.of_nat (length q)) as Hq by (cbn; lia). clearbody q. rewrite (proj2 (Z.ltb_lt _ _) Hq). cbn [negb]. destruct (fbn_bounds off Hoff) as [H0 H1].
  assert (off / BSZ < MAXFILE) as Hm by (apply Z.div_lt_upper_bound; unfold BSZ in *; lia). rewrite (proj2 (Z.ltb_lt _ _) Hm). cbn [negb].
  set (n1 := Z.min (Z.of_nat (length q)) ((off / BSZ + 1) * BSZ - off)). assert (Z.of_nat (length (take (Z.to_nat n1) q)) = n1) as En1 by (rewrite length_take; lia).
  pose proof (need_mono off (off + n1) ltac:(lia)). pose proof (need_mono (off + n1) (off + Z.of_nat (length q)) ltac:(lia)).
  destruct (append_step s ts d off (take (Z.to_nat n1) q) Hi Ho Hfl Htz Hoff Hm) as (d1 & s0 & b & buf & s1 & ts1 & E1 & E2 & E3 & A1); [lia|by apply Forall_take|rewrite En1; lia|].
  mrun E1. cbn [fst snd]. mrun E2. mrun E3. pose proof A1 as [I1 X1 F1 R1 _ _ _ Z1]. rewrite En1 in F1, R1, Z1.
  assert (Z.of_nat (length (drop (Z.to_nat n1) q)) = Z.of_nat (length q) - n1) as En2 by (rewrite length_drop; lia).
  destruct (IH s1 ts1 d1 (off + n1) (drop (Z.to_nat n1) q) I1 (ex_ok _ _ _ _ _ X1) F1 Z1 ltac:(lia)) as (d2 & s2 & ts2 & E4 & A2); [lia|by apply Forall_drop|lia| |].
  { rewrite En2. replace (off + n1 + (Z.of_nat (length q) - n1)) with (off + Z.of_nat (length q)) by lia. lia. }
  exists d2, s2, ts2. rewrite E4. split; [do 2 f_equal; lia|]. rewrite <- (take_drop (Z.to_nat n1) q). apply (appended_app _ _ _ _ _ _ s1 ts1 d1); [done|done|by rewrite En1].
Qed.

(** * The inodes *)

(** Inode [d] is a file of type [t] with content [c]. *)
Record stored (ts : tstore) (d : dinode) (t : Z) (c : list Z) : Prop := {
  st_ok : inode_ok mkfs_sb (ts_cur ts) d;
  st_meta : di_type d = t /\ di_major d = 0 /\ di_minor d = 0 /\ di_nlink d = 1;
  st_size : di_size d = Z.of_nat (length c);
  st_filled : filled (ts_cur ts) d (Z.of_nat (length c));
  st_content : fcontent (ts_cur ts) d = c;
  st_tail : tail_zero (ts_cur ts) d (Z.of_nat (length c))
}.

Abbreviation inode_at ts i := (dinode_at mkfs_sb (ts_cur ts) i).

(** A write to the inode blocks leaves the files alone. *)
Lemma stored_meta_block ts n b d t c : stored ts d t c -> n < MAPSTART -> stored (ts_update n b ts) d t c.
Proof.
  intros [S1 S2 S3 S4 S5 S6] Hn. change MAPSTART with (sb_bmapstart mkfs_sb) in Hn. assert (forall k, slot (ts_cur (ts_update n b ts)) d k = slot (ts_cur ts) d k) as Hs by (intros k; apply (slot_meta mkfs_sb n b ts d k mkfs_sb_ok Hn S1)).
  assert (forall i, 0 <= i < MAXFILE * BSZ -> blk (ts_cur ts) d (i / BSZ) <> 0 -> fbyte (ts_cur (ts_update n b ts)) d i = fbyte (ts_cur ts) d i) as Hb.
  { intros i Hi Hbl. by apply (fbyte_meta mkfs_sb n b ts d i mkfs_sb_ok Hn S1). }
  split; try done; [by apply inode_ok_meta; [apply mkfs_sb_ok| |]|intros k Hk; rewrite Hs; by apply S4| |].
  - rewrite <- S5. unfold fcontent. apply list_fmap_ext. intros i x Hx. apply list_elem_of_lookup_2, elem_of_zseq in Hx. pose proof (io_size _ _ _ S1). rewrite Z2Nat.id in Hx by lia.
    destruct (full_at mkfs_sb _ _ x S1 ltac:(lia)) as [J1 J2]. by apply Hb.
  - intros i Hi Hbl. unfold blk in Hbl. rewrite Hs in Hbl. rewrite Hb; [by apply S6|lia|done].
Qed.

(** Nor does an append to another file. *)
Lemma stored_other ts d0 ts' d0' d t c : extends mkfs_sb ts d0 ts' d0' -> fmap_ok mkfs_sb ts -> apart (ts_cur ts) d0 d -> stored ts d t c -> stored ts' d t c.
Proof.
  intros Ex Hf Hap [S1 S2 S3 S4 S5 S6]. destruct (extends_other mkfs_sb ts d0 ts' d0' d Ex Hf S1 Hap) as (O1 & O2 & O3). pose proof (size_pos mkfs_sb mkfs_sb_ok) as Hsz.
  split; [done|done|done|intros k Hk; rewrite O2; by apply S4|congruence|]. intros i Hi Hbl. unfold blk in Hbl. rewrite O2 in Hbl. fold (blk (ts_cur ts) d (i / BSZ)) in Hbl.
  rewrite <- (S6 i Hi Hbl). unfold fbyte, blk. rewrite O2. f_equal. assert (slot_of (i / BSZ) < NSLOTS)%nat as Hk.
  { apply slot_of_lt. destruct (fbn_bounds i ltac:(lia)). split; [lia|apply Z.div_lt_upper_bound; unfold BSZ in *; lia]. }
  destruct (io_data _ _ _ S1 _ Hk Hbl) as [Hr Hu]. apply (ex_cur _ _ _ _ _ Ex); [lia|done|unfold map_block; lia|]. apply Hap. split; [done|]. by exists (slot_of (i / BSZ)).
Qed.

Lemma winode_run s ts inum d : image s ts -> inum_ok mkfs_sb inum -> length (di_addrs d) = 13%nat ->
  exists s', winode inum d s = Ok tt s' /\ image s' (put_inode mkfs_sb inum d ts) /\ mk_freeinode s' = mk_freeinode s /\ mk_freeblock s' = mk_freeblock s.
Proof.
  intros Hi Hin Hl. destruct (iblock_bounds mkfs_sb inum mkfs_sb_ok Hin) as [Hb _]. change (sb_bmapstart mkfs_sb) with MAPSTART in Hb. pose proof (im_range _ _ Hi) as Hr. rewrite nmeta_eq in Hr. unfold MAPSTART in Hb.
  unfold winode. mrun (rsect_run s ts (IBLOCK inum mkfs_sb) Hi ltac:(unfold FSSIZE; lia) ltac:(unfold MAPSTART; lia)). destruct (put_block mkfs_sb inum d ts (im_fmap _ _ Hi) Hin Hl) as [P1 P2].
  destruct (wsect_run s ts (IBLOCK inum mkfs_sb) _ Hi ltac:(lia) ltac:(unfold MAPSTART; lia) P1 P2) as [E Hi']. eexists. split; [exact E|]. done.
Qed.

Lemma rinode_run s ts inum : image s ts -> inum_ok mkfs_sb inum -> rinode inum s = Ok (inode_at ts inum) s.
Proof.
  intros Hi Hin. destruct (iblock_bounds mkfs_sb inum mkfs_sb_ok Hin) as [Hb _]. change (sb_bmapstart mkfs_sb) with MAPSTART in Hb. unfold MAPSTART in Hb.
  unfold rinode. by mrun (rsect_run s ts (IBLOCK inum mkfs_sb) Hi ltac:(unfold FSSIZE; lia) ltac:(unfold MAPSTART; lia)).
Qed.

(** Allocation does not change the inode blocks. *)
Lemma extends_meta s ts d ts' d' b : image s ts -> inode_ok mkfs_sb (ts_cur ts) d -> extends mkfs_sb ts d ts' d' -> 0 <= b < MAPSTART -> ts_cur ts' b = ts_cur ts b.
Proof.
  intros Hi Ho Ex Hb. unfold MAPSTART in Hb. pose proof (im_range _ _ Hi) as Hr. rewrite nmeta_eq in Hr. apply (ex_cur _ _ _ _ _ Ex); [rewrite sb_fssize; lia| | |].
  - rewrite (im_used _ _ Hi) by (unfold FSSIZE; lia). apply Z.ltb_lt. lia.
  - unfold map_block. change (sb_bmapstart mkfs_sb) with 46. lia.
  - intros Hw. destruct (io_owned mkfs_sb _ _ _ Ho Hw) as [Hd _]. rewrite data_start in Hd. lia.
Qed.

(** The inodes 1, 2, ... hold the files [cs], type and content of each. *)
Definition blocks_for (cs : list (Z * list Z)) : Z := foldr (fun f n => need (Z.of_nat (length f.2)) + n) 0 cs.
Definition num (i : nat) : Z := Z.of_nat i + 1.
Definition super_block : block := splice 0 (sb_bytes mkfs_sb) zero_block.

Record disk (s : mkst) (ts : tstore) (cs : list (Z * list Z)) : Prop := {
  dsk_image : image s ts;
  dsk_next : mk_freeinode s = num (length cs);
  dsk_len : num (length cs) <= NINODES;
  dsk_stored i t c : cs !! i = Some (t, c) -> stored ts (inode_at ts (num i)) t c /\ (t = T_DIR \/ t = T_FILE);
  dsk_apart i j : (i < length cs)%nat -> (j < length cs)%nat -> i <> j -> apart (ts_cur ts) (inode_at ts (num i)) (inode_at ts (num j));
  dsk_free inum : inum_ok mkfs_sb inum -> inum = 0 \/ num (length cs) <= inum -> inode_at ts inum = zero_dinode;
  dsk_count : mk_freeblock s = nmeta + blocks_for cs;
  dsk_super : ts_cur ts 1 = super_block;
  dsk_log b : 2 <= b < 33 -> ts_cur ts b = zero_block
}.

Lemma num_ok i n : (i < n)%nat -> num n <= NINODES -> inum_ok mkfs_sb (num i).
Proof. unfold inum_ok, num. change (sb_ninodes mkfs_sb) with NINODES. lia. Qed.

Lemma iblock_33 inum : inum_ok mkfs_sb inum -> 33 <= IBLOCK inum mkfs_sb < MAPSTART.
Proof.
  intros Hi. destruct (iblock_range mkfs_sb mkfs_sb_ok inum) as [_ Hr]; [unfold inum_ok in Hi; lia|]. exact Hr.
Qed.

Lemma blocks_for_insert cs i t c c' : cs !! i = Some (t, c) -> blocks_for (<[i := (t, c')]> cs) = blocks_for cs + need (Z.of_nat (length c')) - need (Z.of_nat (length c)).
Proof.
  revert i. induction cs as [|f cs IH]; intros i E; [done|]. destruct i as [|i]; [injection E as ->; cbn; lia|].
  change (need (Z.of_nat (length f.2)) + blocks_for (<[i := (t, c')]> cs) = need (Z.of_nat (length f.2)) + blocks_for cs + need (Z.of_nat (length c')) - need (Z.of_nat (length c))).
  rewrite (IH i E). lia.
Qed.

(** Two inodes that shared nothing share nothing when one has grown. *)
Lemma apart_extends ts d ts' d' d0 : extends mkfs_sb ts d ts' d' -> fmap_ok mkfs_sb ts -> inode_ok mkfs_sb (ts_cur ts) d0 -> apart (ts_cur ts) d d0 ->
  (forall k, slot (ts_cur ts') d0 k = slot (ts_cur ts) d0 k) -> apart (ts_cur ts') d' d0 /\ apart (ts_cur ts') d0 d'.
Proof.
  intros Ex Hf Ho Hap Hs. pose proof (size_pos mkfs_sb mkfs_sb_ok) as Hsz. assert (forall b, owned (ts_cur ts') d0 b -> ~ owned (ts_cur ts') d' b) as H.
  { intros b [Hb0 (k & Hk & Es)] Hw. rewrite Hs in Es. assert (owned (ts_cur ts) d0 b) as Hw0 by (split; [done|by exists k]). destruct (io_owned mkfs_sb _ _ _ Ho Hw0) as [Hr Hu].
    destruct (ex_new _ _ _ _ _ Ex b ltac:(lia) Hw) as [?|?]; [by apply (Hap b)|congruence]. }
  split; [done|]. intros b H1 H2. by apply (H b).
Qed.

(** The file of inode [i] has grown; its inode is written. *)
Lemma disk_append s ts cs i t c p s1 ts1 d1 : disk s ts cs -> cs !! i = Some (t, c) -> let d := inode_at ts (num i) in let n := Z.of_nat (length c) + Z.of_nat (length p) in
  n <= MAXFILE * BSZ -> appended s ts d (Z.of_nat (length c)) p s1 ts1 d1 ->
  let ts2 := put_inode mkfs_sb (num i) (di_set_size n d1) ts1 in
  stored ts2 (di_set_size n d1) t (c ++ p) /\ (forall j, inum_ok mkfs_sb j -> inode_at ts2 j = if decide (j = num i) then di_set_size n d1 else inode_at ts j) /\ dinode_ok (di_set_size n d1).
Proof.
  intros D Hc d n Hn [A1 A2 A3 A4 A5 A6 A7 A8]. destruct (dsk_stored _ _ _ D i t c Hc) as [[S1 S2 S3 S4 S5 S6] Ht]. fold d in S1, S2, S3, S4, S5, S6. pose proof (ex_ok _ _ _ _ _ A2) as Ho1.
  destruct (ex_meta _ _ _ _ _ A2) as (M1 & M2 & M3 & M4 & M5). fold n in A3, A8. pose proof (num_ok i (length cs) ltac:(by eapply lookup_lt_Some) (dsk_len _ _ _ D)) as Hnum.
  assert (inode_ok mkfs_sb (ts_cur ts1) (di_set_size n d1)) as Ho2.
  { apply inode_ok_size; [done|lia|]. intros bn Hbn Hlt. replace bn with (bn * BSZ / BSZ) by (by rewrite Z.div_mul). apply (filled_blk _ _ n); [done|unfold MAXFILE, BSZ in *; lia|]. by rewrite Z.div_mul. }
  assert (dinode_ok (di_set_size n d1)) as Hdk.
  { apply (inode_fits mkfs_sb (ts_cur ts1)); [apply mkfs_sb_ok|done|]. destruct S2 as (E1 & E2 & E3 & E4). unfold meta_fits. cbn. rewrite M1, M2, M3, M4, E1, E2, E3, E4. destruct Ht as [-> | ->]; vm_compute; intuition congruence. }
  intros ts2. split; [|split; [|done]].
  - assert (stored ts1 (di_set_size n d1) t (c ++ p)) as Hst; [|apply stored_meta_block; [exact Hst|apply iblock_33; exact Hnum]].
    assert (n = Z.of_nat (length (c ++ p))) as En by (rewrite length_app; lia). split; [done| |done|by rewrite <- En| |by rewrite <- En].
    + cbn. by rewrite M1, M2, M3, M4.
    + rewrite (fcontent_write (ts_cur ts) d (ts_cur ts1) (di_set_size n d1) (Z.of_nat (length c)) p); [|rewrite S3; lia|rewrite S3; cbn [di_set_size di_size]; lia|exact A7|intros i0 Hi0 _; apply A6; rewrite S3 in Hi0; lia].
      rewrite S5, Nat2Z.id, take_ge, drop_ge by lia. by rewrite app_nil_r.
  - intros j Hj. unfold ts2. rewrite dinode_at_put by (done || apply A1). destruct (decide (j = num i)); [done|]. unfold dinode_at. f_equal.
    apply (extends_meta s ts d ts1 d1); [apply D|done|done|]. pose proof (iblock_33 j Hj). lia.
Qed.

(** The state after the inode was written is a disk again. *)
Section Appended.
Context (s : mkst) (ts : tstore) (cs : list (Z * list Z)) (i : nat) (t : Z) (c p : list Z) (s1 : mkst) (ts1 : tstore) (d1 : dinode) (s2 : mkst).
#[local] Abbreviation d := (inode_at ts (num i)).
#[local] Abbreviation n := (Z.of_nat (length c) + Z.of_nat (length p)).
#[local] Abbreviation d2 := (di_set_size n d1).
#[local] Abbreviation ts2 := (put_inode mkfs_sb (num i) d2 ts1).
Context (D : disk s ts cs) (Hc : cs !! i = Some (t, c)) (Hn : n <= MAXFILE * BSZ) (A : appended s ts d (Z.of_nat (length c)) p s1 ts1 d1) (Hi2 : image s2 ts2).

Lemma append_at j : inum_ok mkfs_sb j -> inode_at ts2 j = if decide (j = num i) then d2 else inode_at ts j.
Proof. apply (disk_append s ts cs i t c p s1 ts1 d1 D Hc Hn A). Qed.

Lemma append_other j : (j < length cs)%nat -> j <> i -> inode_at ts2 (num j) = inode_at ts (num j).
Proof. intros Hj Hne. rewrite append_at by (by eapply num_ok; [|apply D]). rewrite decide_False; [done|]. unfold num. lia. Qed.

Lemma append_lt : (i < length cs)%nat.
Proof. by eapply lookup_lt_Some. Qed.

Lemma append_iblock : 33 <= IBLOCK (num i) mkfs_sb < MAPSTART.
Proof. apply iblock_33. eapply num_ok; [apply append_lt|apply D]. Qed.

Lemma append_stored j tj cj : cs !! j = Some (tj, cj) -> j <> i -> stored ts1 (inode_at ts (num j)) tj cj.
Proof.
  intros Hj Hne. eapply stored_other; [apply A|apply (dsk_image _ _ _ D)|apply (dsk_apart _ _ _ D); [apply append_lt|by eapply lookup_lt_Some|done]|]. by apply (dsk_stored _ _ _ D).
Qed.

Lemma append_slot j k : (j < length cs)%nat -> j <> i -> slot (ts_cur ts1) (inode_at ts (num j)) k = slot (ts_cur ts) (inode_at ts (num j)) k.
Proof.
  intros Hj Hne. destruct (lookup_lt_is_Some_2 cs j Hj) as [[tj cj] Ej]. destruct (dsk_stored _ _ _ D j tj cj Ej) as [S _].
  apply (extends_other mkfs_sb ts d ts1 d1 _ (ap_ext _ _ _ _ _ _ _ _ A) (im_fmap _ _ (dsk_image _ _ _ D)) (st_ok _ _ _ _ S)). apply (dsk_apart _ _ _ D); [apply append_lt|done|done].
Qed.

Lemma append_ok j : (j < length cs)%nat -> j <> i -> inode_ok mkfs_sb (ts_cur ts1) (inode_at ts (num j)).
Proof. intros Hj Hne. destruct (lookup_lt_is_Some_2 cs j Hj) as [[tj cj] Ej]. apply (append_stored j tj cj Ej Hne). Qed.

(** What a file owns does not depend on the inode blocks. *)
Lemma owned_2 x b : inode_ok mkfs_sb (ts_cur ts1) x -> owned (ts_cur ts2) x b <-> owned (ts_cur ts1) x b.
Proof. intros Ho. apply (owned_meta mkfs_sb); [apply mkfs_sb_ok|apply append_iblock|done]. Qed.

Lemma append_apart j : (j < length cs)%nat -> j <> i -> apart (ts_cur ts2) d2 (inode_at ts (num j)) /\ apart (ts_cur ts2) (inode_at ts (num j)) d2.
Proof.
  intros Hj Hne. destruct (lookup_lt_is_Some_2 cs j Hj) as [[tj cj] Ej]. destruct (dsk_stored _ _ _ D j tj cj Ej) as [S _]. pose proof (ap_ext _ _ _ _ _ _ _ _ A) as Ex.
  destruct (apart_extends ts d ts1 d1 (inode_at ts (num j)) Ex (im_fmap _ _ (dsk_image _ _ _ D)) (st_ok _ _ _ _ S)) as [P1 P2].
  - apply (dsk_apart _ _ _ D); [apply append_lt|done|done].
  - intros k. by apply append_slot.
  - assert (forall b, owned (ts_cur ts2) d2 b <-> owned (ts_cur ts1) d1 b) as Hd2 by (intros b; exact (owned_2 d1 b (ex_ok _ _ _ _ _ Ex))). pose proof (append_ok j Hj Hne) as Hoj.
    split; intros b; rewrite Hd2, (owned_2 _ b Hoj); [apply P1|apply P2].
Qed.

Lemma append_disk : mk_freeinode s2 = mk_freeinode s1 -> mk_freeblock s2 = mk_freeblock s1 -> disk s2 ts2 (<[i := (t, c ++ p)]> cs).
Proof.
  intros Ef Eb. pose proof (ap_ext _ _ _ _ _ _ _ _ A) as Ex. pose proof append_lt as Hlt. pose proof append_iblock as Hib. destruct (dsk_stored _ _ _ D i t c Hc) as [S Ht].
  assert (inode_at ts2 (num i) = d2) as Hself by (rewrite append_at by (by eapply num_ok; [|apply D]); by rewrite decide_True).
  assert (forall b, 0 <= b < 33 -> ts_cur ts2 b = ts_cur ts b) as Hlow.
  { intros b Hb. cbn [put_inode ts_update ts_cur]. rewrite decide_False by lia. apply (extends_meta s ts d ts1 d1); [apply D|apply S|done|unfold MAPSTART; lia]. }
  split; rewrite ?length_insert; try apply D; [done| | | | | | |].
  - rewrite Ef, (ap_inode _ _ _ _ _ _ _ _ A). apply D.
  - intros j tj cj Hj. apply list_lookup_insert_Some in Hj as [(<- & [= <- <-] & _)|[Hne Hj]].
    + split; [|done]. rewrite Hself. apply (disk_append s ts cs i t c p s1 ts1 d1 D Hc Hn A).
    + rewrite append_other by (done || by eapply lookup_lt_Some). split; [|by apply (dsk_stored _ _ _ D j tj cj Hj)]. apply stored_meta_block; [by apply append_stored|apply Hib].
  - intros a b Ha Hb Hne. destruct (decide (a = i)) as [->|Hai]; [rewrite Hself, append_other by done; by apply append_apart|].
    destruct (decide (b = i)) as [->|Hbi]; [rewrite Hself, append_other by done; by apply append_apart|]. rewrite !append_other by done. intros x. rewrite !owned_2 by (by apply append_ok).
    unfold owned. setoid_rewrite (fun k => append_slot a k Ha Hai). setoid_rewrite (fun k => append_slot b k Hb Hbi). by apply (dsk_apart _ _ _ D).
  - intros j Hj Hfree. rewrite append_at by done. rewrite decide_False; [by apply (dsk_free _ _ _ D)|]. unfold num in *. lia.
  - rewrite Eb, (ap_free _ _ _ _ _ _ _ _ A), (dsk_count _ _ _ D), (blocks_for_insert _ _ _ _ _ Hc), length_app, Nat2Z.inj_add. lia.
  - rewrite Hlow by lia. apply D.
  - intros b Hb. rewrite Hlow by lia. by apply (dsk_log _ _ _ D).
Qed.
End Appended.

Lemma iappend_run s ts cs i t c p : disk s ts cs -> cs !! i = Some (t, c) -> byte_list p -> let cs' := <[i := (t, c ++ p)]> cs in
  Z.of_nat (length (c ++ p)) <= MAXFILE * BSZ -> nmeta + blocks_for cs' <= FSSIZE ->
  exists s' ts', iappend (num i) p s = Ok tt s' /\ disk s' ts' cs'.
Proof.
  intros D Hc Hp cs' Hn Hcap. pose proof (num_ok i (length cs) ltac:(by eapply lookup_lt_Some) (dsk_len _ _ _ D)) as Hnum. pose proof (dsk_image _ _ _ D) as Hi.
  destruct (dsk_stored _ _ _ D i t c Hc) as [St Ht]. unfold iappend. mrun (rinode_run s ts (num i) Hi Hnum). rewrite (st_size _ _ _ _ St).
  unfold cs' in Hcap. rewrite (blocks_for_insert _ _ _ _ _ Hc) in Hcap. pose proof (dsk_count _ _ _ D) as Hcnt. rewrite length_app, Nat2Z.inj_add in Hcap. rewrite length_app in Hn.
  destruct (append_loop (S (length p)) s ts _ (Z.of_nat (length c)) p Hi (st_ok _ _ _ _ St) (st_filled _ _ _ _ St) (st_tail _ _ _ _ St)) as (d1 & s1 & ts1 & E & A); [lia|lia|done|lia|lia|].
  mrun E. cbn [fst snd]. destruct (disk_append s ts cs i t c p s1 ts1 d1 D Hc ltac:(lia) A) as (_ & _ & Hdk).
  destruct (winode_run s1 ts1 (num i) _ (ap_image _ _ _ _ _ _ _ _ A) Hnum (dk_len _ Hdk)) as (s2 & E2 & Hi2 & Ef & Eb). rewrite E2. eexists s2, _. split; [done|].
  eapply append_disk; [done|done|lia|done|done|done|done].
Qed.

(** * New inodes *)

Definition new_dinode (t : Z) : dinode := di_set_size 0 (di_set_nlink 1 (di_set_type t zero_dinode)).

Lemma new_slot cur t k : slot cur (new_dinode t) k = 0.
Proof.
  unfold slot, new_dinode. cbn [di_set_size di_set_nlink di_set_type di_addrs zero_dinode]. destruct (Nat.ltb_spec k 13) as [Hk|]; [|done]. by apply list_lookup_total_correct, lookup_replicate_2.
Qed.

Lemma new_stored ts t : stored ts (new_dinode t) t [].
Proof.
  assert (forall k, slot (ts_cur ts) (new_dinode t) k = 0) as Hs by (intros k; apply new_slot). split; [by apply blank_ok|done|done| |done|].
  - intros k _. rewrite Hs. unfold start, BSZ. cbn [length]. lia.
  - intros i _ H. unfold blk in H. by rewrite Hs in H.
Qed.

Lemma new_owned cur t b : ~ owned cur (new_dinode t) b.
Proof. intros [Hb (k & _ & E)]. rewrite new_slot in E. congruence. Qed.

Lemma blocks_for_app cs cs' : blocks_for (cs ++ cs') = blocks_for cs + blocks_for cs'.
Proof. unfold blocks_for. induction cs as [|f cs IH]; cbn; [lia|]. rewrite IH. lia. Qed.

Lemma ialloc_run s ts cs t : disk s ts cs -> num (length cs) < NINODES -> t = T_DIR \/ t = T_FILE ->
  exists s' ts', ialloc t s = Ok (num (length cs)) s' /\ disk s' ts' (cs ++ [(t, [])]).
Proof.
  intros D Hlen Ht. pose proof (dsk_image _ _ _ D) as Hi. unfold ialloc. mstep. rewrite (dsk_next _ _ _ D). set (n := num (length cs)) in *. assert (n + 1 < 2 ^ 32) as H32 by (unfold NINODES in *; lia).
  assert (inum_ok mkfs_sb n) as Hn by (unfold inum_ok, n, num; change (sb_ninodes mkfs_sb) with NINODES; unfold n, num in Hlen; lia). rewrite u32_small by (unfold n, num in *; lia).
  set (s1 := mkMk (mk_img s) (n + 1) (mk_freeblock s)). assert (image s1 ts) as Hi1 by (destruct Hi; by split). fold (new_dinode t).
  destruct (winode_run s1 ts n (new_dinode t) Hi1 Hn eq_refl) as (s2 & E & Hi2 & Ef & Eb). mrun E. exists s2, (put_inode mkfs_sb n (new_dinode t) ts). split; [done|].
  assert (dinode_ok (new_dinode t)) as Hdk. { split; [destruct Ht as [-> | ->]; vm_compute; by split|done|done|vm_compute; by split|done|done|]. apply Forall_replicate. lia. }
  assert (forall j, inum_ok mkfs_sb j -> inode_at (put_inode mkfs_sb n (new_dinode t) ts) j = if decide (j = n) then new_dinode t else inode_at ts j) as Hat by (intros j Hj; apply dinode_at_put; [apply Hi|done|done|done]).
  pose proof (iblock_33 n Hn) as Hib. assert (forall i, (i < length cs)%nat -> inum_ok mkfs_sb (num i) /\ num i <> n) as Hold by (intros i Hilt; split; [by eapply num_ok; [|apply D]|unfold n, num; lia]).
  assert (forall i, (i < length cs)%nat -> inode_at (put_inode mkfs_sb n (new_dinode t) ts) (num i) = inode_at ts (num i)) as Hkeep.
  { intros i Hilt. destruct (Hold i Hilt) as [H1 H2]. rewrite Hat by done. by rewrite decide_False. }
  split; rewrite ?length_app; cbn [length].
  - done.
  - rewrite Ef. cbn. unfold n, num. lia.
  - unfold n, num in *. lia.
  - intros i t' c' Hl. apply lookup_app_Some in Hl as [Hl|[Hge Hl]].
    + rewrite Hkeep by (by eapply lookup_lt_Some). destruct (dsk_stored _ _ _ D i t' c' Hl). split; [|done]. apply stored_meta_block; [done|apply Hib].
    + apply list_lookup_singleton_Some in Hl as [H0 [= <- <-]]. replace (num i) with n by (unfold n, num; lia). rewrite Hat, decide_True by done. split; [apply new_stored|done].
  - intros i j H1 H2 Hne. destruct (decide (i = length cs)) as [->|Hin]; [fold n; rewrite Hat, decide_True by done; intros b _; apply new_owned|].
    destruct (decide (j = length cs)) as [->|Hjn]; [fold n; rewrite (Hat n Hn), decide_True by done; intros b Hb; by apply new_owned in Hb|]. rewrite !Hkeep by lia.
    assert (forall a, (a < length cs)%nat -> inode_ok mkfs_sb (ts_cur ts) (inode_at ts (num a))) as Hok.
    { intros a Ha. destruct (lookup_lt_is_Some_2 cs a Ha) as [[ta ca] Ea]. destruct (dsk_stored _ _ _ D a ta ca Ea) as [S _]. apply S. }
    intros b. unfold put_inode. rewrite !(owned_meta mkfs_sb) by (apply mkfs_sb_ok || apply Hib || (apply Hok; lia)). apply (dsk_apart _ _ _ D); lia.
  - intros j Hj Hf. rewrite Hat by done. rewrite decide_False by (unfold n, num in *; lia). apply (dsk_free _ _ _ D); [done|]. unfold num in *. lia.
  - rewrite Eb, blocks_for_app. change (blocks_for [(t, [])]) with 0. cbn [s1 mk_freeblock]. rewrite (dsk_count _ _ _ D). lia.
  - cbn [put_inode ts_update ts_cur]. rewrite decide_False by lia. apply D.
  - intros b Hb. cbn [put_inode ts_update ts_cur]. rewrite decide_False by lia. by apply (dsk_log _ _ _ D).
Qed.

(** * The files of the image *)

Definition root_content (names : list (list Z)) : list Z :=
  dirent_of 1 [46] ++ dirent_of 1 [46; 46] ++ concat (imap (fun j nm => dirent_of (Z.of_nat j + 2) nm) names).
(** The inodes of the image for these names and contents. *)
Definition layout (fs : list (list Z * list Z)) : list (Z * list Z) := (T_DIR, root_content (fst <$> fs)) :: ((fun f => (T_FILE, f.2)) <$> fs).

Definition installed_name (arg : list Z) : list Z := skip_underscore (shortname arg).
Definition installed (f : list Z * list (list Z)) : list Z * list Z := (installed_name f.1, concat f.2).

(** An argument that [mkfs] accepts, and a file that fits an inode. *)
Record file_fits (f : list Z * list (list Z)) : Prop := {
  ff_slash : 47 ∉ shortname f.1;
  ff_name : (length (installed_name f.1) <= DIRSIZ)%nat;
  ff_bytes : byte_list (installed_name f.1) /\ Forall byte_list f.2;
  ff_size : Z.of_nat (length (concat f.2)) <= MAXFILE * BSZ
}.

Lemma dirent_length inum nm : length (dirent_of inum nm) = 16%nat.
Proof. unfold dirent_of. by rewrite length_app, le_bytes_length, strncpy_length. Qed.

Lemma dirent_byte inum nm : byte_list nm -> byte_list (dirent_of inum nm).
Proof. intros Hn. apply Forall_app. split; [apply byte_le_bytes|by apply strncpy_bytes]. Qed.

Lemma root_snoc names nm : root_content (names ++ [nm]) = root_content names ++ dirent_of (Z.of_nat (length names) + 2) nm.
Proof. unfold root_content. rewrite imap_app, concat_app. cbn [imap concat]. rewrite app_nil_r, <- !app_assoc. cbn. by rewrite Nat.add_0_r. Qed.

Lemma layout_snoc fs f : layout (fs ++ [f]) = <[0%nat := (T_DIR, root_content (fst <$> fs) ++ dirent_of (num (length (layout fs))) f.1)]> (layout fs) ++ [(T_FILE, f.2)].
Proof.
  unfold layout. rewrite !fmap_app. cbn [fmap list_fmap]. rewrite root_snoc, length_fmap. cbn [length]. rewrite length_fmap. replace (num (S (length fs))) with (Z.of_nat (length fs) + 2) by (unfold num; lia). done.
Qed.

Lemma layout_S fs j : layout fs !! S j = (fun f => (T_FILE, f.2)) <$> fs !! j.
Proof. change (layout fs !! S j) with (((fun f : list Z * list Z => (T_FILE, f.2)) <$> fs) !! j). apply list_lookup_fmap. Qed.

Lemma root_length names : length (root_content names) = (16 * (2 + length names))%nat.
Proof.
  induction names as [|nm names IH] using rev_ind; [done|]. rewrite root_snoc, !length_app, dirent_length, IH. cbn [length]. lia.
Qed.

Lemma blocks_nonneg cs : 0 <= blocks_for cs.
Proof. unfold blocks_for. induction cs as [|f cs IH]; cbn; [lia|]. pose proof (need_mono 0 (Z.of_nat (length f.2)) ltac:(lia)). change (need 0) with 0 in *. lia. Qed.

(** Reading a file to its end. *)
Lemma chunks_run chunks : forall s ts cs i t c, disk s ts cs -> cs !! i = Some (t, c) -> Forall byte_list chunks -> let cs' := <[i := (t, c ++ concat chunks)]> cs in
  Z.of_nat (length (c ++ concat chunks)) <= MAXFILE * BSZ -> nmeta + blocks_for cs' <= FSSIZE ->
  exists s' ts', for_each chunks (fun buf => iappend (num i) buf) s = Ok tt s' /\ disk s' ts' cs'.
Proof.
  induction chunks as [|p chunks IH]; intros s ts cs i t c D Hc Hb cs' Hn Hcap.
  - exists s, ts. split; [done|]. unfold cs'. cbn [concat]. rewrite app_nil_r, list_insert_id by done. done.
  - apply Forall_cons_1 in Hb as [Hp Hb]. unfold cs' in *. cbn [concat for_each] in *. rewrite (blocks_for_insert _ _ _ _ _ Hc) in Hcap.
    destruct (iappend_run s ts cs i t c p D Hc Hp) as (s1 & ts1 & E & D1); [rewrite !length_app in *; lia| |].
    { rewrite (blocks_for_insert _ _ _ _ _ Hc). pose proof (need_mono (Z.of_nat (length (c ++ p))) (Z.of_nat (length (c ++ p ++ concat chunks))) ltac:(rewrite !length_app; lia)). lia. }
    mrun E. pose proof (lookup_lt_Some _ _ _ Hc) as Hlt. destruct (IH s1 ts1 _ i t (c ++ p) D1) as (s2 & ts2 & E2 & D2).
    + by apply list_lookup_insert_eq.
    + done.
    + by rewrite <- app_assoc.
    + rewrite list_insert_insert_eq, (blocks_for_insert _ _ _ _ _ Hc), <- app_assoc. lia.
    + exists s2, ts2. split; [done|]. by rewrite list_insert_insert_eq, <- app_assoc in D2.
Qed.

Lemma install_run s ts fs f : disk s ts (layout fs) -> file_fits f -> (length fs < 198)%nat -> let fs' := fs ++ [installed f] in nmeta + blocks_for (layout fs') <= FSSIZE ->
  exists s' ts', install f.1 (Some f.2) s = Ok tt s' /\ disk s' ts' (layout fs').
Proof.
  intros D [F1 F2 [F3 F4] F5] Hlen fs' Hcap. unfold install. rewrite decide_False by done. fold (installed_name f.1). rewrite (proj2 (Nat.ltb_ge _ _) F2).
  destruct (ialloc_run s ts (layout fs) T_FILE D) as (s1 & ts1 & E1 & D1); [unfold num, layout, NINODES; cbn [length]; rewrite length_fmap; lia|by right|]. mrun E1.
  set (k := length (layout fs)) in *. unfold fs' in *. rewrite layout_snoc in *. cbn [installed fst snd] in *. fold k in Hcap |- *. set (root := root_content (fst <$> fs)) in *.
  set (de := dirent_of (num k) (installed_name f.1)) in *. assert (layout fs = (T_DIR, root) :: ((fun f => (T_FILE, f.2)) <$> fs)) as El by done.
  assert (blocks_for (<[0%nat := (T_DIR, root ++ de)]> (layout fs)) + need (Z.of_nat (length (concat f.2))) = blocks_for (<[0%nat := (T_DIR, root ++ de)]> (layout fs) ++ [(T_FILE, concat f.2)])) as Hsum.
  { rewrite blocks_for_app. cbn. lia. }
  pose proof (need_mono 0 (Z.of_nat (length (concat f.2))) ltac:(lia)) as Hpos. change (need 0) with 0 in Hpos.
  destruct (iappend_run s1 ts1 (layout fs ++ [(T_FILE, [])]) 0 T_DIR root de D1) as (s2 & ts2 & E2 & D2); [done|by apply dirent_byte| | |].
  { rewrite length_app. unfold de, root. rewrite dirent_length, root_length, length_fmap. unfold MAXFILE, BSZ. lia. }
  { rewrite insert_app_l by (rewrite El; cbn; lia). rewrite blocks_for_app. change (blocks_for [(T_FILE, [])]) with 0. lia. }
  change ROOTINO with (num 0). mrun E2. rewrite insert_app_l in D2 by (rewrite El; cbn; lia). set (cs := <[0%nat := (T_DIR, root ++ de)]> (layout fs)) in *.
  assert (length cs = k) as Ek by (unfold cs; by rewrite length_insert). destruct (chunks_run f.2 s2 ts2 (cs ++ [(T_FILE, [])]) k T_FILE [] D2) as (s3 & ts3 & E3 & D3).
  - rewrite lookup_app_r by lia. by rewrite Ek, Nat.sub_diag.
  - done.
  - done.
  - rewrite insert_app_r_alt by lia. rewrite Ek, Nat.sub_diag. cbn [insert list_insert app]. lia.
  - exists s3, ts3. split; [exact E3|]. rewrite insert_app_r_alt in D3 by lia. by rewrite Ek, Nat.sub_diag in D3.
Qed.

Lemma layout_mono fs gs : blocks_for (layout fs) <= blocks_for (layout (fs ++ gs)).
Proof.
  unfold layout. rewrite !fmap_app.
  change (need (Z.of_nat (length (root_content (fst <$> fs)))) + blocks_for ((fun f => (T_FILE, f.2)) <$> fs) <=
    need (Z.of_nat (length (root_content ((fst <$> fs) ++ (fst <$> gs))))) + blocks_for (((fun f => (T_FILE, f.2)) <$> fs) ++ ((fun f => (T_FILE, f.2)) <$> gs))).
  rewrite blocks_for_app. pose proof (blocks_nonneg ((fun f => (T_FILE, f.2)) <$> gs)).
  pose proof (need_mono (Z.of_nat (length (root_content (fst <$> fs)))) (Z.of_nat (length (root_content ((fst <$> fs) ++ (fst <$> gs))))) ltac:(rewrite !root_length, length_app; lia)). lia.
Qed.

Lemma files_run files : forall s ts fs, disk s ts (layout fs) -> Forall file_fits files -> (length fs + length files <= 198)%nat ->
  nmeta + blocks_for (layout (fs ++ (installed <$> files))) <= FSSIZE ->
  exists s' ts', for_each ((fun f => (f.1, Some f.2)) <$> files) (fun f => install f.1 f.2) s = Ok tt s' /\ disk s' ts' (layout (fs ++ (installed <$> files))).
Proof.
  induction files as [|f files IH]; intros s ts fs D Hfit Hlen Hcap.
  - exists s, ts. split; [done|]. cbn [fmap list_fmap]. by rewrite app_nil_r.
  - apply Forall_cons_1 in Hfit as [Hf Hfit]. cbn [fmap list_fmap for_each fst snd length] in *. assert (fs ++ installed f :: (installed <$> files) = (fs ++ [installed f]) ++ (installed <$> files)) as Eapp by (by rewrite <- app_assoc).
    change (list_fmap _ _ installed files) with (installed <$> files) in *. rewrite Eapp in *. pose proof (layout_mono (fs ++ [installed f]) (installed <$> files)).
    destruct (install_run s ts fs f D Hf ltac:(lia) ltac:(lia)) as (s1 & ts1 & E1 & D1). mrun E1. apply (IH s1 ts1); [done|done|rewrite length_app; cbn; lia|done].
Qed.

(** * The start *)

Definition start_ts : tstore :=
  mkTs 2 (fun b => if b =? 1 then super_block else if b =? MAPSTART then bitmap 47 else zero_block) (fun _ => zero_block) ∅ ∅ false.

Lemma bitmap_block n : length (bitmap n) = BSIZE /\ byte_list (bitmap n).
Proof. induction n as [|n [IH1 IH2]]; [split; [reflexivity|apply byte_zero]|]. rewrite bitmap_S. split; [by rewrite set_bit_length|by apply byte_set_bit]. Qed.

Lemma super_ok : length super_block = BSIZE /\ byte_list super_block.
Proof. split; [reflexivity|]. apply byte_splice; [apply byte_zero|]. apply Forall_concat, Forall_fmap, Forall_forall. intros a _. apply byte_le_bytes. Qed.

Lemma start_used b : 0 <= b < FSSIZE -> used mkfs_sb (ts_cur start_ts) b = (b <? 47).
Proof.
  assert (forallb (fun b => Bool.eqb (used mkfs_sb (ts_cur start_ts) b) (b <? 47)) (zseq 0 2000) = true) as Hall by (vm_compute; reflexivity).
  intros Hb. rewrite forallb_forall in Hall. specialize (Hall b). rewrite <- list_elem_of_In, elem_of_zseq in Hall. apply Bool.eqb_prop, Hall. unfold FSSIZE in Hb. lia.
Qed.

Lemma start_fmap : fmap_ok mkfs_sb start_ts.
Proof.
  split; [apply mkfs_sb_ok|done| |].
  - intros b Hb. cbn [start_ts ts_cur]. destruct (b =? 1); [apply super_ok|]. destruct (b =? MAPSTART); [apply bitmap_block|]. split; [reflexivity|apply byte_zero].
  - intros b Hb. rewrite data_start in Hb. rewrite start_used by (unfold FSSIZE; lia). apply Z.ltb_lt. lia.
Qed.

Lemma zero_dinode_at k : (k < 16)%nat -> get_dinode k zero_block = zero_dinode.
Proof. intros Hk. do 16 (destruct k as [|k]; [vm_compute; reflexivity|]). lia. Qed.

Lemma zero_sectors n : forall lo s, exists s', for_each (zseq lo n) (fun i => wsect i zero_block) s = Ok tt s' /\ mk_freeinode s' = mk_freeinode s /\ mk_freeblock s' = mk_freeblock s /\
  forall b, mk_img s' !! b = if decide (lo <= b < lo + Z.of_nat n) then Some zero_block else mk_img s !! b.
Proof.
  induction n as [|n IH]; intros lo s.
  - exists s. split; [done|]. split; [done|]. split; [done|]. intros b. rewrite decide_False by lia. done.
  - rewrite zseq_cons. cbn [for_each]. unfold wsect at 1. mstep. destruct (IH (lo + 1) (with_sect lo zero_block s)) as (s' & E & E1 & E2 & Hl). exists s'. split; [exact E|]. split; [done|]. split; [done|].
    intros b. rewrite Hl. cbn [with_sect mk_img]. destruct (decide (b = lo)) as [->|Hne]; [rewrite decide_False, decide_True, lookup_insert_eq by lia; done|].
    rewrite lookup_insert_ne by done. destruct (decide (lo + 1 <= b < lo + 1 + Z.of_nat n)), (decide (lo <= b < lo + Z.of_nat (S n))); done || lia.
Qed.

(** The empty file system, before the root is made. *)
Lemma start_run : exists s, (forall rest : M mkst unit, (modify (fun s => mkMk (mk_img s) (mk_freeinode s) nmeta);; for_each (zseq 0 (Z.to_nat FSSIZE)) (fun i => wsect i zero_block);; wsect 1 super_block;; rest) mkfs_start = rest s) /\ disk s start_ts [].
Proof.
  destruct (zero_sectors (Z.to_nat FSSIZE) 0 (mkMk (mk_img mkfs_start) (mk_freeinode mkfs_start) nmeta)) as (s & E & E1 & E2 & Hl). exists (with_sect 1 super_block s). split; [intros rest; mstep; mrun E; done|]. cbn in E1, E2.
  split; cbn [with_sect mk_freeinode mk_freeblock length].
  - split; cbn [with_sect mk_img mk_freeblock].
    + apply start_fmap.
    + intros b Hb Hm. cbn [start_ts ts_cur]. destruct (Z.eqb_spec b 1) as [->|Hne]; [by rewrite lookup_insert_eq|]. rewrite lookup_insert_ne by done. rewrite Hl, decide_True by (unfold FSSIZE in *; lia).
      by rewrite (proj2 (Z.eqb_neq _ _) Hm).
    + by rewrite E2.
    + intros b Hb. rewrite E2. by apply start_used.
    + intros b Hb. rewrite E2, nmeta_eq in Hb. cbn [start_ts ts_cur]. rewrite (proj2 (Z.eqb_neq b 1)), (proj2 (Z.eqb_neq b MAPSTART)) by (unfold MAPSTART; lia). done.
    + rewrite E2. vm_compute. by split.
  - done.
  - vm_compute. done.
  - done.
  - lia.
  - intros inum Hi _. pose proof (iblock_33 inum Hi) as Hb. unfold dinode_at. cbn [start_ts ts_cur]. rewrite (proj2 (Z.eqb_neq _ 1)), (proj2 (Z.eqb_neq _ MAPSTART)) by lia. apply zero_dinode_at, idx_lt.
  - by rewrite E2.
  - done.
  - intros b Hb. cbn [start_ts ts_cur]. rewrite (proj2 (Z.eqb_neq _ 1)), (proj2 (Z.eqb_neq _ MAPSTART)) by (unfold MAPSTART; lia). done.
Qed.

(** * The root directory *)

Lemma dir_entries_cons e c : length e = 16%nat -> dir_entries (e ++ c) = (of_le (take 2 e), drop 2 e) :: dir_entries c.
Proof.
  intros He. unfold dir_entries. rewrite length_app, He. replace ((16 + length c) / 16)%nat with (S (length c / 16)) by (change 16%nat with (1 * 16)%nat at 2; rewrite Nat.div_add_l by done; done).
  cbn [seq fmap list_fmap]. f_equal.
  - unfold dirent_at, slice, DIRSIZ. cbn [Nat.mul Nat.add]. rewrite drop_0, take_app_le, drop_app_le, take_app_le by (rewrite ?length_drop; lia). by rewrite (take_ge (drop 2 e)) by (rewrite length_drop; lia).
  - change (list_fmap nat (Z * list Z)%type (dirent_at (e ++ c)) (seq 1 (length c / 16))) with (dirent_at (e ++ c) <$> seq 1 (length c / 16)). rewrite <- fmap_S_seq, <- list_fmap_compose. apply list_fmap_ext. intros i k _. unfold compose, dirent_at, slice.
    rewrite !(drop_app_ge e c) by lia. rewrite He. do 4 f_equal; lia.
Qed.

Lemma dir_entries_concat es : Forall (fun e => length e = 16%nat) es -> dir_entries (concat es) = (fun e => (of_le (take 2 e), drop 2 e)) <$> es.
Proof. induction es as [|e es IH]; intros H; [done|]. apply Forall_cons_1 in H as [He H]. cbn [concat]. rewrite dir_entries_cons by done. by rewrite IH. Qed.

Definition entry (inum : Z) (nm : list Z) : Z * list Z := (inum, strncpy DIRSIZ nm).

Lemma entry_of inum nm : 0 <= inum < 2 ^ 16 -> (of_le (take 2 (dirent_of inum nm)), drop 2 (dirent_of inum nm)) = entry inum nm.
Proof.
  intros Hi. unfold dirent_of. rewrite take_app_length', drop_app_length' by (by rewrite le_bytes_length). rewrite of_le_le_bytes. change (256 ^ Z.of_nat 2) with (2 ^ 16). by rewrite Z.mod_small.
Qed.

(** The entries of the root: itself, the files, and free ones to the end of
    the block. *)
Definition root_entries (names : list (list Z)) : list (Z * list Z) := entry 1 [46] :: entry 1 [46; 46] :: imap (fun j nm => entry (Z.of_nat j + 2) nm) names.

Lemma root_dir_entries names m : (length names <= 198)%nat ->
  dir_entries (root_content names ++ replicate (16 * m) 0) = root_entries names ++ replicate m (entry 0 []).
Proof.
  intros Hn. assert (root_content names ++ replicate (16 * m) 0 = concat ((dirent_of 1 [46] :: dirent_of 1 [46; 46] :: imap (fun j nm => dirent_of (Z.of_nat j + 2) nm) names) ++ replicate m (replicate 16 0))) as ->.
  { rewrite concat_app. unfold root_content. cbn [concat]. rewrite <- !app_assoc. do 3 f_equal. induction m as [|m IH]; [done|]. replace (16 * S m)%nat with (16 + 16 * m)%nat by lia. rewrite replicate_add, IH. done. }
  rewrite dir_entries_concat, fmap_app. 2: { apply Forall_app. split; [|by apply Forall_replicate]. repeat (constructor; [apply dirent_length|]). apply Forall_lookup_2. intros i e He. rewrite list_lookup_imap in He.
    destruct (names !! i); [|done]. injection He as <-. apply dirent_length. }
  f_equal; [|rewrite fmap_replicate; done]. rewrite !fmap_cons, !entry_of by lia. unfold root_entries. do 2 f_equal. apply list_eq. intros i. rewrite list_lookup_fmap, !list_lookup_imap.
  destruct (names !! i) as [nm|] eqn:E; [|done]. cbn. f_equal. apply entry_of. apply lookup_lt_Some in E. lia.
Qed.

(** * The image *)

(** The sectors of [img] are a file system of the kernel with the files [fs] in
    its root. *)
Record fs_image (img : gmap Z block) (ts : tstore) (fs : list (list Z * list Z)) : Prop := {
  fi_disk b : 0 <= b < FSSIZE -> img !! b = Some (ts_cur ts b);
  fi_super : get_sb (ts_cur ts 1) = mkfs_sb;
  fi_log b : 2 <= b < 33 -> ts_cur ts b = zero_block;
  fi_fmap : fmap_ok mkfs_sb ts;
  fi_used b : 0 <= b < FSSIZE -> used mkfs_sb (ts_cur ts) b = (b <? nmeta + blocks_for (layout fs));
  fi_root : let d := inode_at ts ROOTINO in inode_ok mkfs_sb (ts_cur ts) d /\ di_type d = T_DIR /\ di_nlink d = 1 /\
    exists m, dir_entries (fcontent (ts_cur ts) d) = root_entries (fst <$> fs) ++ replicate m (entry 0 []);
  fi_file j nm c : fs !! j = Some (nm, c) -> let d := inode_at ts (Z.of_nat j + 2) in
    inode_ok mkfs_sb (ts_cur ts) d /\ di_type d = T_FILE /\ di_nlink d = 1 /\ fcontent (ts_cur ts) d = c;
  fi_apart i j : (i <= length fs)%nat -> (j <= length fs)%nat -> i <> j -> apart (ts_cur ts) (inode_at ts (num i)) (inode_at ts (num j));
  fi_tree : tree_ok mkfs_sb (ts_cur ts)
}.

(** The root with its size up to the end of the block. *)
Section Finish.
Context (s : mkst) (ts : tstore) (fs : list (list Z * list Z)) (D : disk s ts (layout fs)) (Hlen : (length fs <= 198)%nat) (Hpart : ((2 + length fs) mod 64 <> 0)%nat).
#[local] Abbreviation d := (inode_at ts ROOTINO).
#[local] Abbreviation n := (Z.of_nat (16 * (2 + length fs))).
#[local] Abbreviation R := ((n / BSZ + 1) * BSZ).
#[local] Abbreviation d' := (di_set_size R d).
#[local] Abbreviation ts' := (put_inode mkfs_sb ROOTINO d' ts).

Lemma root_stored : stored ts d T_DIR (root_content (fst <$> fs)) /\ Z.of_nat (length (root_content (fst <$> fs))) = n.
Proof. split; [apply (dsk_stored _ _ _ D 0%nat); done|]. by rewrite root_length, length_fmap. Qed.

Lemma root_bound : n / BSZ * BSZ < n <= R /\ R <= MAXFILE * BSZ.
Proof.
  destruct (fbn_bounds n ltac:(lia)) as [H0 H1]. assert (n / BSZ < 4) by (apply Z.div_lt_upper_bound; unfold BSZ; lia). unfold MAXFILE, BSZ in *. split; [|lia]. split; [|lia].
  assert (n <> n / 1024 * 1024); [|lia]. intros E. apply Hpart. apply Nat.Div0.mod_divides. exists (Z.to_nat (n / 1024)). lia.
Qed.

Lemma root_inum_ok : inum_ok mkfs_sb ROOTINO.
Proof. vm_compute. by split. Qed.

Lemma root_new_ok : inode_ok mkfs_sb (ts_cur ts) d' /\ dinode_ok d'.
Proof.
  destruct root_stored as [S En]. pose proof root_bound as [H1 H2]. pose proof (st_filled _ _ _ _ S) as Hfl. rewrite En in Hfl. assert (inode_ok mkfs_sb (ts_cur ts) d') as Ho.
  { apply inode_ok_size; [apply S|unfold BSZ in *; lia|]. intros bn Hbn Hlt. replace bn with (bn * BSZ / BSZ) by (by rewrite Z.div_mul). apply (filled_blk _ _ _ _ Hfl); [unfold MAXFILE, BSZ in *; lia|].
    rewrite Z.div_mul by done. assert (bn <= n / BSZ) by (unfold BSZ in *; lia). unfold BSZ in *. lia. }
  split; [done|]. apply (inode_fits mkfs_sb (ts_cur ts)); [apply mkfs_sb_ok|done|]. destruct (st_meta _ _ _ _ S) as (E1 & E2 & E3 & E4). unfold meta_fits. cbn [di_set_size di_type di_major di_minor di_nlink]. rewrite E1, E2, E3, E4. vm_compute. intuition congruence.
Qed.

Lemma root_at j : inum_ok mkfs_sb j -> inode_at ts' j = if decide (j = ROOTINO) then d' else inode_at ts j.
Proof. intros Hj. apply dinode_at_put; [apply (dsk_image _ _ _ D)|apply root_inum_ok|done|apply root_new_ok]. Qed.

Lemma root_bytes : fcontent (ts_cur ts') d' = root_content (fst <$> fs) ++ replicate (Z.to_nat (R - n)) 0.
Proof.
  destruct root_stored as [S En]. destruct root_new_ok as [Ho _]. pose proof root_bound as [H1 H2]. pose proof (iblock_33 ROOTINO root_inum_ok) as Hib.
  assert (forall i, 0 <= i < R -> fbyte (ts_cur ts') d' i = fbyte (ts_cur ts) d i) as Hb.
  { intros i Hi. destruct (full_at mkfs_sb _ _ i Ho Hi) as [J1 J2]. apply (fbyte_meta mkfs_sb _ _ ts d' i mkfs_sb_ok); [apply Hib|done|done|done]. }
  apply list_eq. intros i. destruct (decide (Z.of_nat i < R)) as [Hi|Hi].
  - rewrite fcontent_lookup by (cbn [di_set_size di_size]; lia). rewrite Hb by lia. destruct (decide (Z.of_nat i < n)) as [Hin|Hin].
    + rewrite lookup_app_l by lia. rewrite <- (st_content _ _ _ _ S), fcontent_lookup; [done|]. rewrite (st_size _ _ _ _ S). lia.
    + rewrite lookup_app_r by lia. rewrite lookup_replicate_2 by lia. f_equal. apply (st_tail _ _ _ _ S); [lia|]. destruct (full_at mkfs_sb _ _ (Z.of_nat i) Ho ltac:(cbn [di_set_size di_size]; lia)) as [_ J2]. exact J2.
  - rewrite !lookup_ge_None_2; [done| |rewrite fcontent_length; cbn [di_set_size di_size]; lia]. rewrite length_app, length_replicate. lia.
Qed.

Lemma root_result : dir_entries (fcontent (ts_cur ts') d') = root_entries (fst <$> fs) ++ replicate (Z.to_nat (R - n) / 16) (entry 0 []).
Proof.
  rewrite root_bytes. pose proof root_bound as [H1 H2]. set (m := (Z.to_nat (R - n) / 16)%nat). assert (Z.to_nat (R - n) = 16 * m)%nat as ->.
  { apply Nat.div_exact; [done|]. apply Nat.Div0.mod_divides. exists (Z.to_nat (64 * (n / BSZ + 1)) - (2 + length fs))%nat. unfold BSZ in *. lia. }
  apply root_dir_entries. by rewrite length_fmap.
Qed.

Lemma finish_file j t c : (layout fs) !! S j = Some (t, c) -> inode_at ts' (num (S j)) = inode_at ts (num (S j)) /\ stored ts' (inode_at ts (num (S j))) t c.
Proof.
  intros Hj. pose proof (iblock_33 ROOTINO root_inum_ok) as Hib. rewrite root_at by (eapply num_ok; [by eapply lookup_lt_Some|apply D]). rewrite decide_False by (unfold num, ROOTINO; lia). split; [done|].
  destruct (dsk_stored _ _ _ D (S j) t c Hj) as [St _]. apply stored_meta_block; [done|apply Hib].
Qed.

Lemma layout_at j t c : (layout fs) !! S j = Some (t, c) -> t = T_FILE /\ exists nm, fs !! j = Some (nm, c).
Proof. rewrite layout_S. destruct (fs !! j) as [[nm c']|]; [|done]. intros [= <- <-]. split; [done|by exists nm]. Qed.

Lemma finish_apart i j : (i < length (layout fs))%nat -> (j < length (layout fs))%nat -> i <> j -> apart (ts_cur ts') (inode_at ts' (num i)) (inode_at ts' (num j)).
Proof.
  intros Hi Hj Hne. pose proof (iblock_33 ROOTINO root_inum_ok) as Hib.
  assert (forall a, (a < length (layout fs))%nat -> forall b, owned (ts_cur ts') (inode_at ts' (num a)) b <-> owned (ts_cur ts) (inode_at ts (num a)) b) as Ho.
  { intros a Ha b. rewrite root_at by (eapply num_ok; [exact Ha|apply D]). destruct (lookup_lt_is_Some_2 _ a Ha) as [[t c] Ea]. destruct (dsk_stored _ _ _ D a t c Ea) as [St _]. destruct (decide (num a = ROOTINO)) as [Er|Er].
    - rewrite Er. apply (owned_meta mkfs_sb _ _ ts d' b mkfs_sb_ok); [apply Hib|apply root_new_ok].
    - apply (owned_meta mkfs_sb); [apply mkfs_sb_ok|apply Hib|apply St]. }
  intros b. rewrite !Ho by done. by apply (dsk_apart _ _ _ D).
Qed.

Lemma finish_tree : tree_ok mkfs_sb (ts_cur ts').
Proof.
  intros inum Hi x Hdir. pose proof (iblock_33 ROOTINO root_inum_ok) as Hib. unfold is_dir in Hdir. apply andb_true_iff in Hdir as [Ht _]. apply Z.eqb_eq in Ht. destruct (decide (inum = ROOTINO)) as [->|Hne].
  - unfold x. rewrite root_at, decide_True by (done || apply root_inum_ok). split; [apply inode_ok_meta; [apply mkfs_sb_ok|apply Hib|apply root_new_ok]|]. split.
    { exists (64 * Z.to_nat (n / BSZ + 1))%nat. cbn [di_set_size di_size]. pose proof (Z.div_pos n BSZ ltac:(lia) ltac:(done)). unfold BSZ in *. lia. }
    rewrite root_result. apply Forall_app. split; [|apply Forall_replicate; by intros []]. destruct root_stored as [St _]. destruct (st_meta _ _ _ _ St) as (M1 & _ & _ & M4).
    assert (inum_ok mkfs_sb 1 /\ di_type (inode_at ts' 1) <> 0 /\ di_nlink (inode_at ts' 1) <> 0) as H1.
    { split; [apply root_inum_ok|]. change 1 with ROOTINO. rewrite root_at, decide_True by (done || apply root_inum_ok). cbn [di_set_size di_type di_nlink]. by rewrite M1, M4. }
    constructor; [by intros _|]. constructor; [by intros _|]. apply Forall_lookup_2. intros j e He _. rewrite list_lookup_imap, list_lookup_fmap in He. destruct (fs !! j) as [[nm c]|] eqn:Ej; [|done]. injection He as <-. cbn [entry fst].
    assert (layout fs !! S j = Some (T_FILE, c)) as El by (by rewrite layout_S, Ej).
    replace (Z.of_nat j + 2) with (num (S j)) by (unfold num; lia). destruct (finish_file j T_FILE c El) as [-> S2]. destruct (st_meta _ _ _ _ S2) as (-> & _ & _ & ->).
    split; [eapply num_ok; [by eapply lookup_lt_Some|apply D]|done].
  - exfalso. unfold x in Ht. rewrite root_at, decide_False in Ht by done. destruct (decide (inum = 0 \/ num (length (layout fs)) <= inum)) as [Hf|Hf]; [by rewrite (dsk_free _ _ _ D inum Hi Hf) in Ht|].
    unfold num, ROOTINO, inum_ok in *. destruct (lookup_lt_is_Some_2 (layout fs) (S (Z.to_nat (inum - 2))) ltac:(lia)) as [[t c] El]. destruct (dsk_stored _ _ _ D _ t c El) as [St _].
    destruct (layout_at _ t c El) as [-> _]. destruct (st_meta _ _ _ _ St) as (M1 & _). unfold num in M1. replace (Z.of_nat (S (Z.to_nat (inum - 2))) + 1) with inum in M1 by lia. rewrite M1 in Ht. done.
Qed.

Lemma finish_run : exists s', (din ← rinode ROOTINO; winode ROOTINO (di_set_size ((di_size din / BSZ + 1) * BSZ) din);; used ← gets mk_freeblock; balloc used) s = Ok tt s' /\ fs_image (mk_img s') ts' fs.
Proof.
  destruct root_stored as [St En]. pose proof (dsk_image _ _ _ D) as Hi. mrun (rinode_run s ts ROOTINO Hi root_inum_ok). rewrite (st_size _ _ _ _ St), En. destruct root_new_ok as [Ho Hdk].
  destruct (winode_run s ts ROOTINO d' Hi root_inum_ok (dk_len _ Hdk)) as (s1 & E1 & Hi1 & Ef & Eb). mrun E1. mstep. pose proof (im_range _ _ Hi1) as Hr. unfold balloc. rewrite (proj2 (Z.ltb_lt _ _)) by (unfold FSSIZE, BPB in *; lia). cbn [negb].
  eexists. split; [done|]. cbn [mk_img]. pose proof (iblock_33 ROOTINO root_inum_ok) as Hib. assert (forall b, 0 <= b < 33 -> ts_cur ts' b = ts_cur ts b) as Hlow by (intros b Hb; cbn [put_inode ts_update ts_cur]; by rewrite decide_False by lia).
  split.
  - intros b Hb. change (sb_bmapstart mkfs_sb) with MAPSTART. destruct (decide (b = MAPSTART)) as [->|Hne]; [rewrite lookup_insert_eq, (im_map _ _ Hi1); done|]. rewrite lookup_insert_ne by done. by apply Hi1.
  - rewrite Hlow by lia. rewrite (dsk_super _ _ _ D). reflexivity.
  - intros b Hb. rewrite Hlow by lia. by apply (dsk_log _ _ _ D).
  - apply Hi1.
  - intros b Hb. by rewrite (im_used _ _ Hi1 b Hb), Eb, (dsk_count _ _ _ D).
  - cbv zeta. rewrite root_at, decide_True by (done || apply root_inum_ok). destruct (st_meta _ _ _ _ St) as (M1 & _ & _ & M4). split; [apply inode_ok_meta; [apply mkfs_sb_ok|apply Hib|done]|].
    split; [done|]. split; [done|]. eexists. apply root_result.
  - intros j nm c Ej. cbv zeta. assert (layout fs !! S j = Some (T_FILE, c)) as El by (by rewrite layout_S, Ej).
    replace (Z.of_nat j + 2) with (num (S j)) by (unfold num; lia). destruct (finish_file j T_FILE c El) as [-> S2]. destruct (st_meta _ _ _ _ S2) as (M1 & _ & _ & M4). split; [apply S2|]. split; [done|]. split; [done|apply S2].
  - intros i j H1 H2. apply finish_apart; unfold layout; cbn [length]; rewrite length_fmap; lia.
  - apply finish_tree.
Qed.
End Finish.

Definition opened (files : list (list Z * list (list Z))) : list (list Z * option (list (list Z))) := (fun f => (f.1, Some f.2)) <$> files.

Lemma dots_byte : byte_list [46] /\ byte_list [46; 46].
Proof. split; repeat (apply Forall_cons; split; [lia|]); apply Forall_nil_2. Qed.

Lemma mkfs_run_ok files : Forall file_fits files -> (length files <= 198)%nat -> ((2 + length files) mod 64 <> 0)%nat -> nmeta + blocks_for (layout (installed <$> files)) <= FSSIZE ->
  exists s ts, mkfs (opened files) mkfs_start = Ok tt s /\ fs_image (mk_img s) ts (installed <$> files).
Proof.
  intros Hfit Hlen Hpart Hcap. unfold mkfs. fold super_block. destruct start_run as (s0 & E0 & D0). rewrite E0. destruct (ialloc_run s0 start_ts [] T_DIR D0) as (s1 & ts1 & E1 & D1); [done|by left|]. mrun E1.
  change (num (length [])) with ROOTINO. cbn [negb Z.eqb]. rewrite Z.eqb_refl. cbn [negb]. pose proof (layout_mono [] (installed <$> files)) as Hm. cbn [app] in Hm. assert (blocks_for (layout []) = 1) as Hl0 by reflexivity.
  destruct (iappend_run s1 ts1 [(T_DIR, [])] 0 T_DIR [] (dirent_of ROOTINO [46]) D1 eq_refl) as (s2 & ts2 & E2 & D2); [apply dirent_byte, dots_byte|rewrite length_app, dirent_length; cbn [length]; unfold MAXFILE, BSZ; lia|vm_compute; discriminate|].
  change (num 0) with ROOTINO in E2. mrun E2.
  destruct (iappend_run s2 ts2 _ 0 T_DIR (dirent_of ROOTINO [46]) (dirent_of ROOTINO [46; 46]) D2 eq_refl) as (s3 & ts3 & E3 & D3); [apply dirent_byte, dots_byte|rewrite length_app, !dirent_length; unfold MAXFILE, BSZ; lia|vm_compute; discriminate|].
  change (num 0) with ROOTINO in E3. mrun E3. change (disk s3 ts3 (layout [])) in D3. destruct (files_run files s3 ts3 [] D3 Hfit) as (s4 & ts4 & E4 & D4); [cbn; lia|exact Hcap|]. unfold opened. mrun E4. cbn [app] in D4.
  destruct (finish_run s4 ts4 (installed <$> files) D4) as (s5 & E5 & Hi); [by rewrite length_fmap|by rewrite length_fmap|]. rewrite E5. by eexists s5, _.
Qed.

(** * Finding the files *)

(** A name that [DIRSIZ] bytes hold, and not one of the dots. *)
Definition plain (nm : list Z) : Prop := path_ok nm /\ (length nm <= DIRSIZ)%nat /\ nm <> [46] /\ nm <> [46; 46].

Lemma plain_cstr nm : path_ok nm -> (length nm <= DIRSIZ)%nat -> cstr DIRSIZ nm = nm.
Proof. intros Hp Hl. rewrite cstr_nonzero by (by apply path_nonzero). by apply take_ge. Qed.

Lemma root_lookup names m j nm : Forall plain names -> NoDup names -> names !! j = Some nm ->
  list_find (entry_named nm) (root_entries names ++ replicate m (entry 0 [])) = Some (S (S j), entry (Z.of_nat j + 2) nm).
Proof.
  intros Hp Hnd Hj. destruct (Forall_lookup_1 _ _ _ _ Hp Hj) as (P1 & P2 & P3 & P4). pose proof (plain_cstr nm P1 P2) as Ec.
  assert (forall i k, (imap (fun j nm => entry (Z.of_nat j + 2) nm) names) !! i = Some k -> exists nm', names !! i = Some nm' /\ k = entry (Z.of_nat i + 2) nm' /\ cstr DIRSIZ k.2 = nm') as Hn.
  { intros i k Hk. rewrite list_lookup_imap in Hk. destruct (names !! i) as [nm'|] eqn:E; [|done]. injection Hk as <-. exists nm'. split; [done|]. split; [done|]. cbn [entry snd]. rewrite cstr_strncpy.
    destruct (Forall_lookup_1 _ _ _ _ Hp E) as (Q1 & Q2 & _). by apply plain_cstr. }
  assert (forall i e, root_entries names !! i = Some e -> entry_named nm e -> i = S (S j)) as Huniq.
  { intros [|[|i]] e He [_ Hc]; rewrite Ec in Hc.
    - injection He as <-. cbn in Hc. congruence.
    - injection He as <-. cbn in Hc. congruence.
    - destruct (Hn i e He) as (nm' & E1 & _ & E3). do 2 f_equal. apply (NoDup_lookup names i j nm Hnd); [|done]. congruence. }
  assert (root_entries names !! S (S j) = Some (entry (Z.of_nat j + 2) nm)) as Hl.
  { change (imap (fun j nm => entry (Z.of_nat j + 2) nm) names !! j = Some (entry (Z.of_nat j + 2) nm)). by rewrite list_lookup_imap, Hj. }
  apply list_find_Some. split; [by apply lookup_app_l_Some|]. split; [split; [cbn; lia|unfold entry; cbn [snd]; by rewrite cstr_strncpy]|].
  intros i e He Hlt HP. rewrite lookup_app_l in He by (apply lookup_lt_Some in Hl; lia). pose proof (Huniq i e He HP). lia.
Qed.

(** C12: the image that [mkfs] builds is a file system of the kernel: the super
    block describes the disk, the log is empty, the free map has a bit for
    exactly the blocks in use, every inode is well formed and owns its blocks
    alone, the root is a directory whose entries are itself and the files in
    the order of the arguments, and each file has the bytes that were read, in
    however many pieces.  Following a path of one plain name from the root, as
    the kernel does, leads to the inode of the file of this name.  It holds for
    files that fit, together with their inodes, on the disk, unless the entries
    of the root fill its last block. *)
Theorem mkfs_correct files : Forall file_fits files -> (length files <= 198)%nat -> ((2 + length files) mod 64 <> 0)%nat ->
  let fs := installed <$> files in nmeta + blocks_for (layout fs) <= FSSIZE ->
  exists s ts, mkfs (opened files) mkfs_start = Ok tt s /\ fs_image (mk_img s) ts fs /\
    (Forall plain (fst <$> fs) -> NoDup (fst <$> fs) -> forall j nm c, fs !! j = Some (nm, c) ->
       walk (disk_dir mkfs_sb (ts_cur ts)) false ROOTINO [nm] = Some (Z.of_nat j + 2)).
Proof.
  intros Hfit Hlen Hpart fs Hcap. destruct (mkfs_run_ok files Hfit Hlen Hpart Hcap) as (s & ts & E & Hi). exists s, ts. split; [done|]. split; [done|]. intros Hp Hnd j nm c Hj.
  destruct (fi_root _ _ _ Hi) as (_ & Et & Enl & m & Ee). cbn [walk andb]. unfold disk_dir at 1, is_dir. rewrite Et, Enl. cbn [mbind option_bind]. change ((T_DIR =? T_DIR) && negb (1 =? 0)) with true. cbv iota. cbn [mbind option_bind andb].
  unfold dget, dfind. fold fs in Ee. rewrite Ee, (root_lookup _ m j nm Hp Hnd); [done|]. by rewrite list_lookup_fmap, Hj.
Qed.

(** The program "cat" of three bytes. *)
Definition cat_file : list Z * list (list Z) := ([117; 115; 101; 114; 47; 95; 99; 97; 116], [[7; 8]; [9]]).

Lemma mkfs_correct_witness : exists s ts, mkfs (opened [cat_file]) mkfs_start = Ok tt s /\
  walk (disk_dir mkfs_sb (ts_cur ts)) false ROOTINO [[99; 97; 116]] = Some 2 /\ fcontent (ts_cur ts) (dinode_at mkfs_sb (ts_cur ts) 2) = [7; 8; 9].
Proof.
  destruct (mkfs_correct [cat_file]) as (s & ts & E & Hi & Hw).
  - constructor; [|constructor]. split.
    + change (shortname cat_file.1) with [95; 99; 97; 116]. rewrite !not_elem_of_cons. split_and!; try done. apply not_elem_of_nil.
    + vm_compute. lia.
    + unfold byte_list. change (installed_name cat_file.1) with [99; 97; 116]. cbn [cat_file snd]. split; repeat (apply Forall_cons; split); try apply Forall_nil_2; try lia.
    + vm_compute. discriminate.
  - cbn. lia.
  - vm_compute. discriminate.
  - vm_compute. discriminate.
  - exists s, ts. split; [exact E|]. split.
    + apply (Hw ltac:(apply Forall_cons; split; [split; [repeat (apply Forall_cons; split; [lia|]); apply Forall_nil_2|split; [vm_compute; lia|split; discriminate]]|apply Forall_nil_2]) ltac:(apply NoDup_singleton) 0%nat [99; 97; 116] [7; 8; 9] eq_refl).
    + apply (fi_file _ _ _ Hi 0%nat [99; 97; 116] [7; 8; 9] eq_refl).
Defined.
