(* ===== verification/XVirtio.v ===== *)
(** reference/xv6-riscv/kernel/virtio_disk.c: the driver of the disk.

    The driver shares memory with the device: a table of descriptors, a ring of
    requests and a ring of answers.  A pointer given to the device is the
    object it points to ([dma]); the fields of [struct buf] are those the
    driver uses.  The code between two points where [vdisk_lock] is free runs
    as one step: [virtio_disk_rw] is cut in front of its two [sleep()]s, where
    the channel is announced, and goes on when the process runs again.  What the
    device does meanwhile counts as done before or behind the step, so the
    fences have no effect here.

    The device is not code of the repository.  [VirtioDevice] states what the
    driver relies on: a device takes requests from the ring in order, works on
    any of them, transfers the data of a well-formed chain of descriptors,
    reports success and puts the head of the chain into the ring of answers. *)

From Stdlib Require Import ZArith Lia.
From stdpp Require Import base strings numbers gmap list.
From S2P Require Import Prelude Vm XKalloc XStore.

Definition NUM : nat := 8.
Definition u16 (x : Z) : Z := x mod 2 ^ 16.

Definition VRING_DESC_F_NEXT : Z := 1.
Definition VRING_DESC_F_WRITE : Z := 2.
Definition VIRTIO_BLK_T_IN : Z := 0.
Definition VIRTIO_BLK_T_OUT : Z := 1.

Inductive dma : Type := a_null | a_op (i : nat) | a_data (b : nat) | a_status (i : nat).
#[export] Instance dma_eq_dec : EqDecision dma.
Proof. solve_decision. Defined.

Record virtq_desc : Type := mkDesc { d_addr : dma; d_len : Z; d_flags : Z; d_next : nat }.
Record virtio_blk_req : Type := mkReq { rq_type : Z; rq_reserved : Z; rq_sector : Z }.
Record vinfo : Type := mkInfo { in_b : option nat; in_status : Z }.
Record vbuf : Type := mkVbuf { vb_blockno : Z; vb_disk : bool; vb_data : block }.

(** [struct disk] with the pages it points to, the buffers, and the writes to
    the registers of the device so far. *)
Record drv : Type := mkDrv {
  dr_desc : list virtq_desc;
  dr_avail : list nat;
  dr_avail_idx : Z;
  dr_used : list nat;
  dr_dev_idx : Z;
  dr_free : list bool;
  dr_used_idx : Z;
  dr_info : list vinfo;
  dr_ops : list virtio_blk_req;
  dr_bufs : list vbuf;
  dr_mmio : list (Z * Z)
}.

Definition set_desc (x : list virtq_desc) (m : drv) : drv := mkDrv x (dr_avail m) (dr_avail_idx m) (dr_used m) (dr_dev_idx m) (dr_free m) (dr_used_idx m) (dr_info m) (dr_ops m) (dr_bufs m) (dr_mmio m).
Definition set_avail (x : list nat) (m : drv) : drv := mkDrv (dr_desc m) x (dr_avail_idx m) (dr_used m) (dr_dev_idx m) (dr_free m) (dr_used_idx m) (dr_info m) (dr_ops m) (dr_bufs m) (dr_mmio m).
Definition set_avail_idx (x : Z) (m : drv) : drv := mkDrv (dr_desc m) (dr_avail m) x (dr_used m) (dr_dev_idx m) (dr_free m) (dr_used_idx m) (dr_info m) (dr_ops m) (dr_bufs m) (dr_mmio m).
Definition set_used (x : list nat) (m : drv) : drv := mkDrv (dr_desc m) (dr_avail m) (dr_avail_idx m) x (dr_dev_idx m) (dr_free m) (dr_used_idx m) (dr_info m) (dr_ops m) (dr_bufs m) (dr_mmio m).
Definition set_dev_idx (x : Z) (m : drv) : drv := mkDrv (dr_desc m) (dr_avail m) (dr_avail_idx m) (dr_used m) x (dr_free m) (dr_used_idx m) (dr_info m) (dr_ops m) (dr_bufs m) (dr_mmio m).
Definition set_free (x : list bool) (m : drv) : drv := mkDrv (dr_desc m) (dr_avail m) (dr_avail_idx m) (dr_used m) (dr_dev_idx m) x (dr_used_idx m) (dr_info m) (dr_ops m) (dr_bufs m) (dr_mmio m).
Definition set_used_idx (x : Z) (m : drv) : drv := mkDrv (dr_desc m) (dr_avail m) (dr_avail_idx m) (dr_used m) (dr_dev_idx m) (dr_free m) x (dr_info m) (dr_ops m) (dr_bufs m) (dr_mmio m).
Definition set_info (x : list vinfo) (m : drv) : drv := mkDrv (dr_desc m) (dr_avail m) (dr_avail_idx m) (dr_used m) (dr_dev_idx m) (dr_free m) (dr_used_idx m) x (dr_ops m) (dr_bufs m) (dr_mmio m).
Definition set_ops (x : list virtio_blk_req) (m : drv) : drv := mkDrv (dr_desc m) (dr_avail m) (dr_avail_idx m) (dr_used m) (dr_dev_idx m) (dr_free m) (dr_used_idx m) (dr_info m) x (dr_bufs m) (dr_mmio m).
Definition set_bufs (x : list vbuf) (m : drv) : drv := mkDrv (dr_desc m) (dr_avail m) (dr_avail_idx m) (dr_used m) (dr_dev_idx m) (dr_free m) (dr_used_idx m) (dr_info m) (dr_ops m) x (dr_mmio m).
Definition set_mmio (x : list (Z * Z)) (m : drv) : drv := mkDrv (dr_desc m) (dr_avail m) (dr_avail_idx m) (dr_used m) (dr_dev_idx m) (dr_free m) (dr_used_idx m) (dr_info m) (dr_ops m) (dr_bufs m) x.

Definition vset_disk (x : bool) (b : vbuf) : vbuf := mkVbuf (vb_blockno b) x (vb_data b).
Definition vset_data (x : block) (b : vbuf) : vbuf := mkVbuf (vb_blockno b) (vb_disk b) x.

(** * The device *)

(** Sectors of 512 bytes; a block is two of them. *)
Definition sector (d : gmap Z (list Z)) (n : Z) : list Z := default (replicate 512 0) (d !! n).
Definition sectors (s : Z) (d : gmap Z (list Z)) : block := sector d s ++ sector d (s + 1).
Definition put_sectors (s : Z) (data : block) (d : gmap Z (list Z)) : gmap Z (list Z) :=
  <[s + 1 := drop 512 data]> (<[s := take 512 data]> d).

Record request : Type := mkRequest { q_write : bool; q_sector : Z; q_buf : nat; q_status : nat }.

Definition has (f : Z) (d : virtq_desc) : bool := negb (Z.land (d_flags d) f =? 0).

(** The chain of descriptors that starts at [h]: a header that the device reads,
    a block of data that it reads or writes, a byte for its answer. *)
Definition request_of (h : nat) (m : drv) : option request :=
  d0 ← dr_desc m !! h;
  d1 ← dr_desc m !! d_next d0;
  d2 ← dr_desc m !! d_next d1;
  match d_addr d0, d_addr d1, d_addr d2 with
  | a_op i, a_data b, a_status j =>
      op ← dr_ops m !! i;
      if (d_len d0 =? 16) && has VRING_DESC_F_NEXT d0 && negb (has VRING_DESC_F_WRITE d0) &&
         (d_len d1 =? Z.of_nat BSIZE) && has VRING_DESC_F_NEXT d1 &&
         (d_len d2 =? 1) && negb (has VRING_DESC_F_NEXT d2) && has VRING_DESC_F_WRITE d2 then
        if (rq_type op =? VIRTIO_BLK_T_IN) && has VRING_DESC_F_WRITE d1 then Some (mkRequest false (rq_sector op) b j) else
        if (rq_type op =? VIRTIO_BLK_T_OUT) && negb (has VRING_DESC_F_WRITE d1) then Some (mkRequest true (rq_sector op) b j) else
        None
      else None
  | _, _, _ => None
  end.

Definition buf_data (b : nat) (m : drv) : block := default [] (vb_data <$> dr_bufs m !! b).

(** The transfer, and the answer in the ring. *)
Definition disk_after (r : request) (m : drv) (d : gmap Z (list Z)) : gmap Z (list Z) :=
  if q_write r then put_sectors (q_sector r) (buf_data (q_buf r) m) d else d.
Definition answered (h : nat) (r : request) (d : gmap Z (list Z)) (m : drv) : drv :=
  let m := if q_write r then m else set_bufs (alter (vset_data (sectors (q_sector r) d)) (q_buf r) (dr_bufs m)) m in
  let m := set_info (alter (fun i => mkInfo (in_b i) 0) (q_status r) (dr_info m)) m in
  let m := set_used (<[Z.to_nat (dr_dev_idx m mod Z.of_nat NUM) := h]> (dr_used m)) m in
  set_dev_idx (u16 (dr_dev_idx m + 1)) m.

Class VirtioDevice (D : Type) : Type := {
  dv_disk : D -> gmap Z (list Z);
  dv_seen : D -> Z;
  dv_work : D -> list nat;
  dv_reg : Z -> list (Z * Z) -> D -> Z;
  dv_step : D -> drv -> D -> drv -> Prop;
  dv_law d m d' m' : dv_step d m d' m' ->
    (dv_seen d <> dr_avail_idx m /\ m' = m /\ dv_disk d' = dv_disk d /\ dv_seen d' = u16 (dv_seen d + 1) /\
     dv_work d' = dv_work d ++ [dr_avail m !!! Z.to_nat (dv_seen d mod Z.of_nat NUM)])
    \/ (exists h l1 l2, dv_work d = l1 ++ h :: l2 /\
     match request_of h m with
     | Some r => dv_work d' = l1 ++ l2 /\ dv_seen d' = dv_seen d /\ dv_disk d' = disk_after r m (dv_disk d) /\
         m' = answered h r (dv_disk d) m
     | None => True
     end)
}.

(** * The driver *)

(** [&disk.free[0]], and a buffer. *)
Inductive vchan : Type := ch_free | ch_buf (b : nat).
#[export] Instance vchan_eq_dec : EqDecision vchan.
Proof. solve_decision. Defined.

(** Where a process is: outside of [virtio_disk_rw], in front of the [sleep()]
    for descriptors, or in front of the one for the answer to chain [i]. *)
Inductive vcall : Type :=
| VIdle
| VWant (b : nat) (write : bool) (sec : Z)
| VWait (b : nat) (write : bool) (i : nat).
#[export] Instance vcall_eq_dec : EqDecision vcall.
Proof. solve_decision. Defined.

Record vthread : Type := mkVt { vt_chan : option vchan; vt_call : vcall }.

Section Driver.
Context `{VirtioDevice D}.

Record vst : Type := mkV { v_drv : drv; v_dev : D; v_ths : list vthread }.

Definition updrv (f : drv -> drv) : M vst unit := modify (fun s => mkV (f (v_drv s)) (v_dev s) (v_ths s)).
Definition getdrv {A} (f : drv -> A) : M vst A := gets (fun s => f (v_drv s)).

Definition vwake (c : vchan) (t : vthread) : vthread :=
  if decide (vt_chan t = Some c) then mkVt None (vt_call t) else t.
Definition vwakeup (c : vchan) : M vst unit := modify (fun s => mkV (v_drv s) (v_dev s) (vwake c <$> v_ths s)).
Definition vsleep_prepare (me : nat) (c : vchan) : M vst unit :=
  modify (fun s => mkV (v_drv s) (v_dev s) (alter (fun t => mkVt (Some c) (vt_call t)) me (v_ths s))).

(** A register is read; it may depend on what was written. *)
Definition rreg (r : Z) : M vst Z := gets (fun s => u32 (dv_reg r (dr_mmio (v_drv s)) (v_dev s))).
Definition wreg (r v : Z) : M vst unit := updrv (fun m => set_mmio (dr_mmio m ++ [(r, u32 v)]) m).

Definition alloc_desc : M vst (option nat) :=
  free ← getdrv dr_free;
  match list_find (fun x => x = true) free with
  | Some (i, _) => updrv (fun m => set_free (<[i := false]> (dr_free m)) m);; mret (Some i)
  | None => mret None
  end.

Definition free_desc (i : nat) : M vst unit :=
  if (NUM <=? i)%nat then panic "free_desc 1" else
  free ← getdrv (fun m => dr_free m !!! i);
  if (free : bool) then panic "free_desc 2" else
  updrv (fun m => set_desc (<[i := mkDesc a_null 0 0 0]> (dr_desc m)) m);;
  updrv (fun m => set_free (<[i := true]> (dr_free m)) m);;
  vwakeup ch_free.

#[export] Instance virtq_desc_inhabited : Inhabited virtq_desc := populate (mkDesc a_null 0 0 0).

Fixpoint free_chain_loop (fuel : nat) (i : nat) : M vst unit :=
  match fuel with
  | O => out_of_fuel
  | S f =>
      d ← getdrv (fun m => dr_desc m !!! i);
      free_desc i;;
      if has VRING_DESC_F_NEXT d then free_chain_loop f (d_next d) else mret tt
  end.
Definition free_chain (i : nat) : M vst unit := free_chain_loop (S NUM) i.

(** [k] descriptors are still to be found. *)
Fixpoint alloc3_loop (k : nat) (idx : list nat) : M vst (option (list nat)) :=
  match k with
  | O => mret (Some idx)
  | S k' =>
      r ← alloc_desc;
      match r with
      | Some i => alloc3_loop k' (idx ++ [i])
      | None => for_each idx free_desc;; mret None
      end
  end.
Definition alloc3_desc : M vst (option (list nat)) := alloc3_loop 3 [].

(** The wait for the answer. *)
Definition rw_wait (me : nat) (b : nat) (write : bool) (i : nat) : M vst vcall :=
  busy ← getdrv (fun m => default false (vb_disk <$> dr_bufs m !! b));
  if (busy : bool) then
    vsleep_prepare me (ch_buf b);;
    mret (VWait b write i)
  else
    updrv (fun m => set_info (alter (fun x => mkInfo None (in_status x)) i (dr_info m)) m);;
    free_chain i;;
    mret VIdle.

(** The three descriptors are filled in, assignment by assignment, and the
    chain is handed over. *)
Definition submit (b : nat) (write : bool) (sec : Z) (i0 i1 i2 : nat) (m : drv) : drv :=
  let m := set_ops (<[i0 := mkReq (if write then VIRTIO_BLK_T_OUT else VIRTIO_BLK_T_IN) 0 sec]> (dr_ops m)) m in
  let m := set_desc (<[i0 := mkDesc (a_op i0) 16 VRING_DESC_F_NEXT i1]> (dr_desc m)) m in
  let m := set_desc (<[i1 := mkDesc (a_data b) (Z.of_nat BSIZE) (Z.lor (if write then 0 else VRING_DESC_F_WRITE) VRING_DESC_F_NEXT) i2]> (dr_desc m)) m in
  let m := set_info (alter (fun x => mkInfo (in_b x) 255) i0 (dr_info m)) m in
  let m := set_desc (<[i2 := mkDesc (a_status i0) 1 VRING_DESC_F_WRITE 0]> (dr_desc m)) m in
  let m := set_bufs (alter (vset_disk true) b (dr_bufs m)) m in
  let m := set_info (alter (fun x => mkInfo (Some b) (in_status x)) i0 (dr_info m)) m in
  let m := set_avail (<[Z.to_nat (dr_avail_idx m mod Z.of_nat NUM) := i0]> (dr_avail m)) m in
  set_avail_idx (u16 (dr_avail_idx m + 1)) m.

(** The search for descriptors and what follows. *)
Definition rw_alloc (me : nat) (b : nat) (write : bool) (sec : Z) : M vst vcall :=
  r ← alloc3_desc;
  match r with
  | Some [i0; i1; i2] => updrv (submit b write sec i0 i1 i2);; wreg 0x50 0;; rw_wait me b write i0
  | _ => vsleep_prepare me ch_free;; mret (VWant b write sec)
  end.

Definition sector_of (blockno : Z) : Z := u32 (blockno * (Z.of_nat BSIZE / 512)).

Definition virtio_disk_rw (me : nat) (b : nat) (write : bool) : M vst vcall :=
  n ← getdrv (fun m => default 0 (vb_blockno <$> dr_bufs m !! b));
  rw_alloc me b write (sector_of n).

(** A process goes on after [sleep()]. *)
Definition resume (me : nat) (c : vcall) : M vst vcall :=
  match c with
  | VIdle => mret VIdle
  | VWant b write sec => rw_alloc me b write sec
  | VWait b write i => rw_wait me b write i
  end.

Fixpoint intr_loop (fuel : nat) : M vst unit :=
  match fuel with
  | O => out_of_fuel
  | S f =>
      m ← getdrv id;
      if dr_used_idx m =? dr_dev_idx m then mret tt else
      let i := dr_used m !!! Z.to_nat (dr_used_idx m mod Z.of_nat NUM) in
      match dr_info m !! i with
      | Some (mkInfo ob status) =>
          if negb (status =? 0) then panic "virtio_disk_intr status" else
          match ob with
          | None => panic "kerneltrap"
          | Some b =>
              updrv (fun m => set_bufs (alter (vset_disk false) b (dr_bufs m)) m);;
              vwakeup (ch_buf b);;
              updrv (fun m => set_used_idx (u16 (dr_used_idx m + 1)) m);;
              intr_loop f
          end
      | None => panic "kerneltrap"
      end
  end.

(** The loop runs once per answer that was not looked at. *)
Definition virtio_disk_intr : M vst unit :=
  st ← rreg 0x60;
  wreg 0x64 (Z.land st 3);;
  m ← getdrv id;
  intr_loop (S (Z.to_nat (u16 (dr_dev_idx m - dr_used_idx m)))).

(** * Initialisation *)

Definition VIRTIO_CONFIG_S_ACKNOWLEDGE : Z := 1.
Definition VIRTIO_CONFIG_S_DRIVER : Z := 2.
Definition VIRTIO_CONFIG_S_DRIVER_OK : Z := 4.
Definition VIRTIO_CONFIG_S_FEATURES_OK : Z := 8.

(** The feature bits that the driver turns down. *)
Definition refused : list Z := [5; 7; 9; 11; 12; 27; 29; 28].
Definition negotiate (features : Z) : Z := foldl (fun f k => Z.land f (Z.lnot (Z.shiftl 1 k))) features refused.

Definition ondrv {A} (m : M vst A) : M (vst * kmem) A := zoom fst (fun x s => (x, s.2)) m.
Definition onmem {A} (m : M kmem A) : M (vst * kmem) A := zoom snd (fun x s => (s.1, x)) m.

Definition virtio_disk_init : M (vst * kmem) unit :=
  magic ← ondrv (rreg 0x0);
  version ← ondrv (rreg 0x4);
  device ← ondrv (rreg 0x8);
  vendor ← ondrv (rreg 0xc);
  if negb (magic =? 0x74726976) || negb (version =? 2) || negb (device =? 2) || negb (vendor =? 0x554d4551)
  then panic "could not find virtio disk" else
  ondrv (wreg 0x70 0);;
  let status := Z.lor 0 VIRTIO_CONFIG_S_ACKNOWLEDGE in
  ondrv (wreg 0x70 status);;
  let status := Z.lor status VIRTIO_CONFIG_S_DRIVER in
  ondrv (wreg 0x70 status);;
  features ← ondrv (rreg 0x10);
  ondrv (wreg 0x20 (negotiate features));;
  let status := Z.lor status VIRTIO_CONFIG_S_FEATURES_OK in
  ondrv (wreg 0x70 status);;
  status ← ondrv (rreg 0x70);
  if Z.land status VIRTIO_CONFIG_S_FEATURES_OK =? 0 then panic "virtio disk FEATURES_OK unset" else
  ondrv (wreg 0x30 0);;
  ready ← ondrv (rreg 0x44);
  if negb (ready =? 0) then panic "virtio disk should not be ready" else
  max ← ondrv (rreg 0x34);
  if max =? 0 then panic "virtio disk has no queue 0" else
  if max <? Z.of_nat NUM then panic "virtio disk max queue too short" else
  desc ← onmem kalloc;
  avail ← onmem kalloc;
  used ← onmem kalloc;
  if (desc =? 0) || (avail =? 0) || (used =? 0) then panic "virtio disk kalloc" else
  ondrv (updrv (set_desc (replicate NUM (mkDesc a_null 0 0 0))));;
  ondrv (updrv (fun m => set_avail_idx 0 (set_avail (replicate NUM 0%nat) m)));;
  ondrv (updrv (fun m => set_dev_idx 0 (set_used (replicate NUM 0%nat) m)));;
  ondrv (wreg 0x38 (Z.of_nat NUM));;
  ondrv (wreg 0x80 desc);;
  ondrv (wreg 0x84 (Z.shiftr desc 32));;
  ondrv (wreg 0x90 avail);;
  ondrv (wreg 0x94 (Z.shiftr avail 32));;
  ondrv (wreg 0xa0 used);;
  ondrv (wreg 0xa4 (Z.shiftr used 32));;
  ondrv (wreg 0x44 1);;
  for_each (seq 0 NUM) (fun i => ondrv (updrv (fun m => set_free (<[i := true]> (dr_free m)) m)));;
  ondrv (wreg 0x70 (Z.lor status VIRTIO_CONFIG_S_DRIVER_OK)).

End Driver.
Arguments vst D : clear implicits.
