(* ===== verification/XVirtioSpec.v ===== *)
(** reference/xv6-riscv/kernel/virtio_disk.c: the driver performs each request
    once.

    [vstep] interleaves any number of processes in [virtio_disk_rw] with the
    device, the interrupt handler and the owners of the buffers; [astep] is
    the disk that the buffer cache of [XBio] uses, where a request is carried
    out in one step between its call and its return.  The relation [vrel]
    between the two holds the ownership of the descriptors, the contents of
    the rings and the reasons to sleep. *)

From Stdlib Require Import ZArith Lia.
From stdpp Require Import base strings numbers gmap list.
From S2P Require Import Prelude Riscv Vm XKalloc XStore XBio XVirtio.

(** * The rings *)

(** The entries from index [lo] up to [hi] are [q]. *)
Record ring_ok (r : list nat) (lo hi : Z) (q : list nat) : Prop := {
  rg_len : length r = NUM;
  rg_lo : 0 <= lo < 2 ^ 16;
  rg_hi : hi = u16 (lo + Z.of_nat (length q));
  rg_fits : (length q <= NUM)%nat;
  rg_at j h : q !! j = Some h -> r !! Z.to_nat ((lo + Z.of_nat j) mod 8) = Some h
}.

Lemma u16_range x : 0 <= u16 x < 2 ^ 16.
Proof. apply Z.mod_pos_bound. lia. Qed.
Lemma u16_slot x y : (u16 x + y) mod 8 = (x + y) mod 8.
Proof. unfold u16. rewrite Zplus_mod, (Z.mod_mod_divide x), <- Zplus_mod; [done|]. by exists (2 ^ 13). Qed.
Lemma u16_add x y : u16 (u16 x + y) = u16 (x + y).
Proof. unfold u16. apply Zplus_mod_idemp_l. Qed.

Lemma ring_slot_inj x a b : 0 <= a < 8 -> 0 <= b < 8 -> Z.to_nat ((x + a) mod 8) = Z.to_nat ((x + b) mod 8) -> a = b.
Proof.
  intros Ha Hb E. pose proof (Z.mod_pos_bound (x + a) 8 ltac:(lia)). pose proof (Z.mod_pos_bound (x + b) 8 ltac:(lia)).
  pose proof (Z.div_mod (x + a) 8 ltac:(lia)). pose proof (Z.div_mod (x + b) 8 ltac:(lia)). lia.
Qed.

Lemma ring_count r lo hi q : ring_ok r lo hi q -> u16 (hi - lo) = Z.of_nat (length q).
Proof.
  intros [_ Hlo -> Hf _]. unfold NUM in Hf. replace (u16 (lo + Z.of_nat (length q)) - lo) with (u16 (lo + Z.of_nat (length q)) + - lo) by lia.
  rewrite u16_add. unfold u16. rewrite Z.mod_small; lia.
Qed.

Lemma ring_empty r lo hi q : ring_ok r lo hi q -> (lo =? hi) = bool_decide (q = []).
Proof.
  intros HR. pose proof (ring_count _ _ _ _ HR) as Hc. destruct q as [|h q].
  - destruct HR as [_ Hlo -> _ _]. cbn. apply Z.eqb_eq. rewrite Z.add_0_r. unfold u16. by rewrite Z.mod_small.
  - rewrite bool_decide_false by done. apply Z.eqb_neq. intros <-. rewrite Z.sub_diag in Hc. change (u16 0) with 0 in Hc. cbn [length] in Hc. lia.
Qed.

Lemma ring_push r lo hi q h : ring_ok r lo hi q -> (length q < NUM)%nat ->
  ring_ok (<[Z.to_nat (hi mod Z.of_nat NUM) := h]> r) lo (u16 (hi + 1)) (q ++ [h]).
Proof.
  intros [Hl Hlo -> Hf Ha] Hlt. unfold NUM in *. change (Z.of_nat 8) with 8. assert (forall y, u16 y mod 8 = y mod 8) as Em by (intros y; by rewrite <- (Z.add_0_r (u16 y)), u16_slot, Z.add_0_r).
  pose proof (Z.mod_pos_bound (lo + Z.of_nat (length q)) 8 ltac:(lia)). split; [by rewrite length_insert|done|..].
  - rewrite u16_add, length_app. cbn. f_equal. lia.
  - rewrite length_app. cbn. unfold NUM. lia.
  - intros j x Hj. rewrite Em. apply lookup_app_Some in Hj as [Hj|[Hge Hj]].
    + apply lookup_lt_Some in Hj as Hlj. rewrite list_lookup_insert_ne; [by apply Ha|]. intros E. apply ring_slot_inj in E; lia.
    + apply list_lookup_singleton_Some in Hj as [Ej ->]. replace j with (length q) by lia. apply list_lookup_insert_eq. lia.
Qed.

Lemma ring_pop r lo hi h q : ring_ok r lo hi (h :: q) -> r !!! Z.to_nat (lo mod Z.of_nat NUM) = h /\ ring_ok r (u16 (lo + 1)) hi q.
Proof.
  intros [Hl Hlo -> Hf Ha]. cbn [length] in *. split.
  - apply list_lookup_total_correct. specialize (Ha 0%nat h eq_refl). by rewrite Z.add_0_r in Ha.
  - split; [done|apply u16_range| |lia|].
    + rewrite u16_add. f_equal. lia.
    + intros j x Hj. rewrite u16_slot. replace (lo + 1 + Z.of_nat j) with (lo + Z.of_nat (S j)) by lia. by apply Ha.
Qed.

(** * Sleeping processes *)

(** Processes may have been woken. *)
Definition less_asleep : list vthread -> list vthread -> Prop :=
  Forall2 (fun t t' => vt_call t' = vt_call t /\ (vt_chan t' = vt_chan t \/ vt_chan t' = None)).

#[export] Instance less_asleep_refl : Reflexive less_asleep.
Proof. intros l. apply Forall2_same_length_lookup_2; [done|]. intros i x y Hx Hy. rewrite Hx in Hy. injection Hy as <-. auto. Qed.
#[export] Instance less_asleep_trans : Transitive less_asleep.
Proof.
  intros l1 l2 l3 H1. revert l3. induction H1 as [|x y l l' [E1 E2] H1 IH]; intros l3 H2; inversion H2 as [|? z ? ? [F1 F2] H3]; subst; [constructor|].
  constructor; [|by apply IH]. split; [congruence|]. destruct E2, F2; solve [left; congruence|right; congruence].
Qed.
Lemma vwake_less c ths : less_asleep ths (vwake c <$> ths).
Proof. unfold less_asleep. apply Forall2_fmap_r, Forall2_same_length_lookup_2; [done|]. intros i x y Hx Hy. rewrite Hx in Hy. injection Hy as <-. cbn. unfold vwake. case_decide; cbn; auto. Qed.
Lemma vwake_chan c t : vt_chan (vwake c t) <> Some c.
Proof. unfold vwake. case_decide; cbn; congruence. Qed.
Lemma less_asleep_calls ths ths' : less_asleep ths ths' -> vt_call <$> ths' = vt_call <$> ths.
Proof. intros HF. induction HF as [|x y l l' [E _] _ IH]; [done|]. cbn. by rewrite E, IH. Qed.
Lemma less_asleep_lookup ths ths' me t' c : less_asleep ths ths' -> ths' !! me = Some t' -> vt_chan t' = Some c ->
  exists t, ths !! me = Some t /\ vt_chan t = Some c /\ vt_call t' = vt_call t.
Proof. intros HF Ht Hc. destruct (Forall2_lookup_r _ _ _ _ _ HF Ht) as (t & E & Ec & [Eh|Eh]); [|congruence]. exists t. split_and!; congruence. Qed.

Definition nfree (l : list bool) : nat := length (filter (fun x => x = true) l).

Lemma nfree_take l i : l !! i = Some true -> nfree l = S (nfree (<[i := false]> l)).
Proof.
  unfold nfree. revert i. induction l as [|x l IH]; intros [|i] E; try done.
  - injection E as ->. change (<[0%nat := false]> (true :: l)) with (false :: l). by rewrite filter_cons_True, filter_cons_False.
  - change (<[S i := false]> (x :: l)) with (x :: <[i := false]> l). rewrite !filter_cons. case_decide; cbn [length]; by rewrite (IH i E).
Qed.
Lemma nfree_none l : list_find (fun x => x = true) l = None -> nfree l = 0%nat.
Proof. intros E. apply list_find_None in E. unfold nfree. rewrite filter_none; [done|]. intros x Hx. by apply (proj1 (Forall_forall _ _) E). Qed.

Section Spec.
Context `{VirtioDevice D}.
Abbreviation vst := (vst D).

(** * Giving descriptors back and taking them *)

(** The descriptors [l] were given back, and nothing else happened but that
    processes waiting for some were woken. *)
Record freed (l : list nat) (s s' : vst) : Prop := {
  fd_drv : exists fr ds, v_drv s' = set_free fr (set_desc ds (v_drv s)) /\
    length fr = length (dr_free (v_drv s)) /\ length ds = length (dr_desc (v_drv s)) /\
    (forall i, fr !! i = (if decide (i ∈ l) then (fun _ => true) <$> dr_free (v_drv s) !! i else dr_free (v_drv s) !! i)) /\
    (forall i, i ∉ l -> ds !! i = dr_desc (v_drv s) !! i);
  fd_dev : v_dev s' = v_dev s;
  fd_ths : less_asleep (v_ths s) (v_ths s');
  fd_woken me t : l <> [] -> v_ths s' !! me = Some t -> vt_chan t <> Some ch_free
}.

Lemma free_desc_run i s : length (dr_free (v_drv s)) = NUM -> dr_free (v_drv s) !! i = Some false ->
  exists s', free_desc i s = Ok tt s' /\ freed [i] s s'.
Proof.
  intros Hl Hi. apply lookup_lt_Some in Hi as Hlt. eexists. split.
  - unfold free_desc. rewrite (proj2 (Nat.leb_gt NUM i)) by lia. unfold getdrv, updrv, vwakeup. mstep. rewrite (list_lookup_total_correct _ _ _ Hi). mstep. reflexivity.
  - split; [|done|apply vwake_less|].
    + eexists _, _. split; [reflexivity|]. cbn [dr_free dr_desc v_drv set_free set_desc]. rewrite !length_insert. split; [done|]. split; [done|]. split; intros j.
      * case_decide as E; rewrite list_elem_of_singleton in E; [subst j; rewrite list_lookup_insert_eq by done; by rewrite Hi|by rewrite list_lookup_insert_ne].
      * rewrite list_elem_of_singleton. intros. by rewrite list_lookup_insert_ne.
    + intros me t _ Et. cbn in Et. rewrite list_lookup_fmap in Et. destruct (v_ths s !! me) as [t0|]; [|done]. injection Et as <-. apply vwake_chan.
Qed.

Lemma freed_app l1 l2 s s1 s2 : freed l1 s s1 -> freed l2 s1 s2 -> freed (l1 ++ l2) s s2.
Proof.
  intros [(fr & ds & E & L1 & L2 & F1 & F2) E2 T W] [(fr' & ds' & E' & L1' & L2' & F1' & F2') E2' T' W'].
  assert (dr_free (v_drv s1) = fr /\ dr_desc (v_drv s1) = ds) as [Ef Ed] by (by rewrite E). rewrite Ef, Ed in *. split.
  - exists fr', ds'. rewrite E', E. split; [done|]. split; [congruence|]. split; [congruence|]. split; intros i.
    + rewrite F1', F1. destruct (decide (i ∈ l1)), (decide (i ∈ l2)), (decide (i ∈ l1 ++ l2)) as [Ha|Ha]; rewrite elem_of_app in Ha; try tauto; by destruct (dr_free (v_drv s) !! i).
    + rewrite elem_of_app. intros Hi. rewrite F2', F2 by tauto. done.
  - congruence.
  - by etransitivity.
  - intros me t Hne Et Hc. destruct l2 as [|i l2]; [|by eapply W'].
    destruct (less_asleep_lookup _ _ _ _ _ T' Et Hc) as (t0 & Et0 & Ec0 & _). destruct l1 as [|i l1]; [done|]. by eapply (W me t0).
Qed.

Lemma freed_nil s : freed [] s s.
Proof.
  split; try done. exists (dr_free (v_drv s)), (dr_desc (v_drv s)). split; [by destruct (v_drv s)|]. split_and!; try done. 
Qed.

Lemma freed_free l s s' : freed l s s' -> length (dr_free (v_drv s')) = length (dr_free (v_drv s)) /\
  forall i, i ∉ l -> dr_free (v_drv s') !! i = dr_free (v_drv s) !! i /\ dr_desc (v_drv s') !! i = dr_desc (v_drv s) !! i.
Proof. intros [(fr & ds & E & L1 & L2 & F1 & F2) _ _ _]. rewrite E. cbn. split; [done|]. intros i Hi. rewrite F1, decide_False, F2 by done. done. Qed.

Lemma free_all_run l : forall s, length (dr_free (v_drv s)) = NUM -> NoDup l -> (forall i, i ∈ l -> dr_free (v_drv s) !! i = Some false) ->
  exists s', for_each l free_desc s = Ok tt s' /\ freed l s s'.
Proof.
  induction l as [|i l IH]; intros s Hl Hnd Hf; [exists s; split; [done|apply freed_nil]|]. apply NoDup_cons in Hnd as [Hni Hnd].
  destruct (free_desc_run i s Hl) as (s1 & E1 & F1); [apply Hf; left|]. pose proof (freed_free _ _ _ F1) as [Hl1 Hs1].
  destruct (IH s1) as (s2 & E2 & F2); [congruence|done| |].
  { intros j Hj. destruct (Hs1 j) as [-> _]; [rewrite list_elem_of_singleton; congruence|]. apply Hf. by right. }
  exists s2. split; [|by apply (freed_app [i] l s s1 s2)]. cbn [for_each]. by mrun E1.
Qed.

Lemma free_desc_next i s : length (dr_free (v_drv s)) = NUM -> dr_free (v_drv s) !! i = Some false -> forall f d, dr_desc (v_drv s) !! i = Some d ->
  exists s', freed [i] s s' /\ free_chain_loop (S f) i s = (if has VRING_DESC_F_NEXT d then free_chain_loop f (d_next d) else mret tt) s'.
Proof.
  intros Hl Hi f d Hd. destruct (free_desc_run i s Hl Hi) as (s' & E & F). exists s'. split; [done|]. cbn [free_chain_loop]. unfold getdrv. mstep.
  mrun E. by rewrite (list_lookup_total_correct _ _ _ Hd).
Qed.

(** The chain that [submit] builds. *)
Record formatted (m : drv) (b : nat) (w : bool) (i i1 i2 : nat) : Prop := {
  fm_0 : dr_desc m !! i = Some (mkDesc (a_op i) 16 VRING_DESC_F_NEXT i1);
  fm_1 : dr_desc m !! i1 = Some (mkDesc (a_data b) (Z.of_nat BSIZE) (Z.lor (if w then 0 else VRING_DESC_F_WRITE) VRING_DESC_F_NEXT) i2);
  fm_2 : dr_desc m !! i2 = Some (mkDesc (a_status i) 1 VRING_DESC_F_WRITE 0);
  fm_op : exists vb, dr_bufs m !! b = Some vb /\
    dr_ops m !! i = Some (mkReq (if w then VIRTIO_BLK_T_OUT else VIRTIO_BLK_T_IN) 0 (sector_of (vb_blockno vb)));
  fm_info : in_b <$> dr_info m !! i = Some (Some b)
}.

Lemma free_chain_run m b w i i1 i2 s : formatted m b w i i1 i2 -> dr_desc (v_drv s) = dr_desc m -> length (dr_free (v_drv s)) = NUM -> NoDup [i; i1; i2] ->
  (forall j, j ∈ [i; i1; i2] -> dr_free (v_drv s) !! j = Some false) ->
  exists s', free_chain i s = Ok tt s' /\ freed [i; i1; i2] s s'.
Proof.
  intros [F0 F1 F2 _ _] Ed Hl Hnd Hf. rewrite <- Ed in F0, F1, F2. apply NoDup_cons in Hnd as [N0 Hnd]. apply NoDup_cons in Hnd as [N1 _]. rewrite !not_elem_of_cons in N0. rewrite !not_elem_of_cons in N1.
  unfold free_chain. destruct (free_desc_next i s Hl (Hf i ltac:(left)) 8%nat _ F0) as (s1 & G1 & E1).
  destruct (freed_free _ _ _ G1) as [L1 S1]. assert (forall j, j <> i -> j ∉ [i]) as Hni by (intros j ? ?%list_elem_of_singleton; congruence).
  destruct (S1 i1 (Hni i1 ltac:(intuition congruence))) as [S1a S1b]. destruct (S1 i2 (Hni i2 ltac:(intuition congruence))) as [S1c S1d].
  destruct (free_desc_next i1 s1 ltac:(congruence) ltac:(rewrite S1a; apply Hf; right; left) 7%nat _ ltac:(rewrite S1b; exact F1)) as (s2 & G2 & E2).
  destruct (freed_free _ _ _ G2) as [L2 S2]. destruct (S2 i2) as [S2a S2b]; [rewrite list_elem_of_singleton; intuition congruence|].
  destruct (free_desc_next i2 s2 ltac:(congruence) ltac:(rewrite S2a, S1c; apply Hf; right; right; left) 6%nat _ ltac:(rewrite S2b, S1d; exact F2)) as (s3 & G3 & E3).
  exists s3. split; [|exact (freed_app [i] [i1; i2] s s1 s3 G1 (freed_app [i1] [i2] s1 s2 s3 G2 G3))].
  change (S NUM) with 9%nat. rewrite E1. cbn [d_next]. change (has VRING_DESC_F_NEXT _) with true. cbv iota. rewrite E2. cbn [d_next].
  replace (has VRING_DESC_F_NEXT _) with true by (by destruct w). rewrite E3. done.
Qed.

(** The descriptors [l] were taken. *)
Definition taken (l : list nat) (s s' : vst) : Prop :=
  exists fr, s' = mkV (set_free fr (v_drv s)) (v_dev s) (v_ths s) /\ length fr = length (dr_free (v_drv s)) /\
    forall i, fr !! i = (if decide (i ∈ l) then (fun _ => false) <$> dr_free (v_drv s) !! i else dr_free (v_drv s) !! i).

Lemma alloc_desc_run (s : vst) :
  (exists i, alloc_desc s = Ok (Some i) (mkV (set_free (<[i := false]> (dr_free (v_drv s))) (v_drv s)) (v_dev s) (v_ths s)) /\ dr_free (v_drv s) !! i = Some true)
  \/ alloc_desc s = Ok None s /\ nfree (dr_free (v_drv s)) = 0%nat.
Proof.
  unfold alloc_desc, getdrv. mstep. destruct (list_find _ _) as [[i x]|] eqn:E.
  - left. exists i. split; [done|]. by apply list_find_Some in E as (E & -> & _).
  - right. split; [done|]. by apply nfree_none.
Qed.

Lemma alloc3_loop_run k : forall idx (s : vst), length (dr_free (v_drv s)) = NUM -> NoDup idx -> (forall i, i ∈ idx -> dr_free (v_drv s) !! i = Some false) ->
  (exists l s', alloc3_loop k idx s = Ok (Some (idx ++ l)) s' /\ length l = k /\ NoDup l /\ (forall i, i ∈ l -> dr_free (v_drv s) !! i = Some true) /\ taken l s s')
  \/ (exists s1 l s', alloc3_loop k idx s = Ok None s' /\ (nfree (dr_free (v_drv s)) < k)%nat /\ NoDup l /\ (forall i, i ∈ l -> dr_free (v_drv s) !! i = Some true) /\ taken l s s1 /\ freed (idx ++ l) s1 s').
Proof.
  induction k as [|k IH]; intros idx s Hl Hnd Hf.
  - left. exists [], s. rewrite app_nil_r. split; [done|]. split; [done|]. split; [constructor|]. split; [set_solver|].
    exists (dr_free (v_drv s)). split; [by destruct s as [[] ? ?]|]. done.
  - cbn [alloc3_loop]. destruct (alloc_desc_run s) as [(i & E & Hi)|[E Hn]]; mrun E.
    + set (s0 := mkV _ _ _). assert (i ∉ idx) as Hni by (intros Hin; specialize (Hf i Hin); congruence).
      assert (forall j, dr_free (v_drv s0) !! j = (if decide (j = i) then Some false else dr_free (v_drv s) !! j)) as H0.
      { intros j. cbn. case_decide as Ej; [subst j; apply list_lookup_insert_eq; by apply lookup_lt_Some in Hi|by rewrite list_lookup_insert_ne]. }
      assert (forall l s', taken l s0 s' -> (forall j, j ∈ l -> dr_free (v_drv s0) !! j = Some true) -> taken (i :: l) s s' /\ i ∉ l /\ (forall j, j ∈ i :: l -> dr_free (v_drv s) !! j = Some true)) as Hstep.
      { intros l s' (fr & -> & L & F) Hj. assert (i ∉ l) as Hil by (intros Hin; specialize (Hj i Hin); rewrite H0, decide_True in Hj by done; done). split; [|split; [done|]].
        - exists fr. split; [done|]. split; [by rewrite L; cbn; rewrite length_insert|]. intros j. rewrite F, H0. destruct (decide (j = i)) as [->|Ne].
          + rewrite decide_False by done. rewrite decide_True by left. by rewrite Hi.
          + destruct (decide (j ∈ l)) as [Hin|Hin]; [by rewrite decide_True by (by right)|]. rewrite decide_False; [done|]. rewrite elem_of_cons. intuition.
        - intros j [->|Hin]%elem_of_cons; [done|]. specialize (Hj j Hin). rewrite H0 in Hj. by case_decide. }
      destruct (IH (idx ++ [i]) s0) as [(l & s' & E1 & L & N & Ht & T)|(s1 & l & s' & E1 & L & N & Ht & T & F)].
      * cbn. by rewrite length_insert.
      * apply NoDup_app. split; [done|]. split; [|apply NoDup_singleton]. intros x Hx Hi'%list_elem_of_singleton. congruence.
      * intros j [Hj|Hj%list_elem_of_singleton]%elem_of_app; subst; rewrite H0; case_decide; auto; congruence.
      * left. exists (i :: l), s'. destruct (Hstep l s' T Ht) as (T' & Hil & Ht'). rewrite E1, <- app_assoc. split; [done|]. split; [by cbn; rewrite L|]. split; [by constructor|]. done.
      * right. exists s1, (i :: l), s'. destruct (Hstep l s1 T Ht) as (T' & Hil & Ht'). rewrite <- app_assoc in F. split; [done|]. split; [rewrite (nfree_take _ _ Hi); subst s0; cbn [v_drv dr_free set_free] in L; lia|]. split; [by constructor|]. done.
    + right. destruct (free_all_run idx s Hl Hnd Hf) as (s' & E' & F). exists s, [], s'. rewrite app_nil_r. mrun E'. split; [done|]. split; [lia|]. split; [constructor|]. split; [set_solver|].
      split; [|done]. exists (dr_free (v_drv s)). split; [by destruct s as [[] ? ?]|]. done.
Qed.

(** Without three free descriptors, the ones found are given back: only the
    contents of free descriptors are lost. *)
Lemma alloc3_run (s : vst) : length (dr_free (v_drv s)) = NUM ->
  (exists i0 i1 i2 s', alloc3_desc s = Ok (Some [i0; i1; i2]) s' /\ NoDup [i0; i1; i2] /\ (forall i, i ∈ [i0; i1; i2] -> dr_free (v_drv s) !! i = Some true) /\ taken [i0; i1; i2] s s')
  \/ (exists ds ths, alloc3_desc s = Ok None (mkV (set_desc ds (v_drv s)) (v_dev s) ths) /\ (nfree (dr_free (v_drv s)) < 3)%nat /\ length ds = length (dr_desc (v_drv s)) /\
      (forall i, dr_free (v_drv s) !! i = Some false -> ds !! i = dr_desc (v_drv s) !! i) /\ less_asleep (v_ths s) ths).
Proof.
  intros Hl. destruct (alloc3_loop_run 3 [] s Hl) as [(l & s' & E & L & N & Ht & T)|(s1 & l & s' & E & L & N & Ht & T & F)]; [constructor|set_solver|..].
  - left. destruct l as [|i0 [|i1 [|i2 [|]]]]; try done. by exists i0, i1, i2, s'.
  - right. destruct T as (fr & -> & L1 & F1), F as [(fr' & ds & E2 & L2 & L3 & F2 & F3) Ed T _]. cbn in *.
    assert (fr' = dr_free (v_drv s)) as ->.
    { apply list_eq. intros i. rewrite F2, F1. destruct (decide (i ∈ l)) as [Hin|]; [|done]. by rewrite (Ht i Hin). }
    exists ds, (v_ths s'). split_and!; try done.
    + unfold alloc3_desc. rewrite E. destruct s'. cbn in *. subst. by destruct (v_drv s).
    + intros i Hi. apply F3. intros Hin. specialize (Ht i Hin). congruence.
Qed.

(** * The processes, the device and the interrupts *)

Inductive ev : Type :=
| EvCall (me b : nat) (w : bool)
| EvRet (me b : nat) (w : bool)
| EvEdit (b : nat) (n : Z) (d : block).

Definition call_buf (c : vcall) : option nat := match c with VIdle => None | VWant b _ _ | VWait b _ _ => Some b end.
Definition set_vcall (me : nat) (c : vcall) (s : vst) : vst :=
  mkV (v_drv s) (v_dev s) (alter (fun t => mkVt (vt_chan t) c) me (v_ths s)).

(** The buffers that are in the hands of the driver. *)
Definition busy (b : nat) (s : vst) : Prop := exists me t, v_ths s !! me = Some t /\ call_buf (vt_call t) = Some b.

Definition returns (me b : nat) (w : bool) (c : vcall) : list ev := match c with VIdle => [EvRet me b w] | _ => [] end.

(** A process that calls the driver holds the lock of its buffer.  [sleep()]
    may also return because of a kill ([v_kill]).  Outside of the driver the
    owner of a buffer may use it for another block and change its data. *)
Inductive vstep : vst -> list ev -> vst -> Prop :=
| v_call me b w s c s' : vt_call <$> v_ths s !! me = Some VIdle -> ~ busy b s -> (b < length (dr_bufs (v_drv s)))%nat ->
    virtio_disk_rw me b w s = Ok c s' -> vstep s (EvCall me b w :: returns me b w c) (set_vcall me c s')
| v_want me b w sec s c s' : v_ths s !! me = Some (mkVt None (VWant b w sec)) ->
    resume me (VWant b w sec) s = Ok c s' -> vstep s (returns me b w c) (set_vcall me c s')
| v_wait me b w i s c s' : v_ths s !! me = Some (mkVt None (VWait b w i)) ->
    resume me (VWait b w i) s = Ok c s' -> vstep s (returns me b w c) (set_vcall me c s')
| v_kill me s : vstep s [] (mkV (v_drv s) (v_dev s) (alter (fun t => mkVt None (vt_call t)) me (v_ths s)))
| v_device s d' m' : dv_step (v_dev s) (v_drv s) d' m' -> vstep s [] (mkV m' d' (v_ths s))
| v_intr s s' : virtio_disk_intr s = Ok tt s' -> vstep s [] s'
| v_edit b n d s : ~ busy b s -> 0 <= n < 2 ^ 31 ->
    vstep s [EvEdit b n d] (mkV (set_bufs (alter (fun v => mkVbuf n (vb_disk v) d) b (dr_bufs (v_drv s))) (v_drv s)) (v_dev s) (v_ths s)).

(** The disk as the buffer cache uses it. *)
Inductive acall : Type := AIdle | APending (b : nat) (w : bool) | ADone (b : nat) (w : bool).

Inductive astep : bst * list acall -> list ev -> bst * list acall -> Prop :=
| a_call me b w x cs : cs !! me = Some AIdle -> astep (x, cs) [EvCall me b w] (x, <[me := APending b w]> cs)
| a_exec me b w x x' cs : cs !! me = Some (APending b w) -> XBio.virtio_disk_rw b w x = Ok tt x' -> astep (x, cs) [] (x', <[me := ADone b w]> cs)
| a_return me b w x cs : cs !! me = Some (ADone b w) -> astep (x, cs) [EvRet me b w] (x, <[me := AIdle]> cs)
| a_edit b n d x cs : astep (x, cs) [EvEdit b n d] (updf b (fun v => set_data d (set_id (b_dev v) n v)) x, cs).

(** The events of a run. *)
Inductive runs {A E : Type} (step : A -> list E -> A -> Prop) : A -> list E -> A -> Prop :=
| runs_nil a : runs step a [] a
| runs_step a l b l' c : runs step a l b -> step b l' c -> runs step a (l ++ l') c.

Lemma runs_one {A E} (step : A -> list E -> A -> Prop) a l b : step a l b -> runs step a l b.
Proof. intros Hs. apply (runs_step step a [] a l b); [constructor|done]. Qed.
Lemma runs_app {A E} (step : A -> list E -> A -> Prop) a l b l' c : runs step a l b -> runs step b l' c -> runs step a (l ++ l') c.
Proof.
  intros H1 H2. induction H2 as [b|b l' b' l'' c H2 IH Hs]; [by rewrite app_nil_r|]. rewrite app_assoc. apply (runs_step step _ _ b'); auto.
Qed.

(** * The relation *)

Definition chain (c : nat * nat * nat) : list nat := [c.1.1; c.1.2; c.2].

(** The chains [C] of the requests that are not finished own their descriptors,
    and each belongs to one process. *)
Record owned (m : drv) (cs : list vcall) (C : list (nat * nat * nat)) : Prop := {
  ow_len : length (dr_desc m) = NUM /\ length (dr_free m) = NUM /\ length (dr_info m) = NUM /\ length (dr_ops m) = NUM;
  ow_nodup : NoDup (mjoin (chain <$> C));
  ow_free i : (i < NUM)%nat -> dr_free m !! i = Some (bool_decide (i ∉ mjoin (chain <$> C)));
  ow_bound i : i ∈ mjoin (chain <$> C) -> (i < NUM)%nat;
  ow_wait me b w h : cs !! me = Some (VWait b w h) -> exists i1 i2, (h, i1, i2) ∈ C /\ formatted m b w h i1 i2;
  ow_chain h i1 i2 : (h, i1, i2) ∈ C -> exists me b w, cs !! me = Some (VWait b w h);
  ow_want me b w sec : cs !! me = Some (VWant b w sec) -> exists vb, dr_bufs m !! b = Some vb /\ sec = sector_of (vb_blockno vb);
  ow_buf me me' c c' b : cs !! me = Some c -> cs !! me' = Some c' -> call_buf c = Some b -> call_buf c' = Some b -> me = me';
  ow_blockno b vb : dr_bufs m !! b = Some vb -> 0 <= vb_blockno vb < 2 ^ 31
}.

(** Requests that the device has not taken ([Q]), works on, and has answered
    ([U]). *)
Record queued (m : drv) (d : D) (cs : list vcall) (Q U : list nat) : Prop := {
  qu_avail : ring_ok (dr_avail m) (dv_seen d) (dr_avail_idx m) Q;
  qu_used : ring_ok (dr_used m) (dr_used_idx m) (dr_dev_idx m) U;
  qu_nodup : NoDup (Q ++ dv_work d ++ U);
  qu_mem h : h ∈ Q ++ dv_work d ++ U <-> exists me b w, cs !! me = Some (VWait b w h) /\ vb_disk <$> dr_bufs m !! b = Some true;
  qu_status h : h ∈ U -> in_status <$> dr_info m !! h = Some 0
}.

(** A process sleeps for a reason. *)
Definition asleep (m : drv) (ths : list vthread) : Prop :=
  forall me t c, ths !! me = Some t -> vt_chan t = Some c ->
    match vt_call t with
    | VIdle => False
    | VWant _ _ _ => c = ch_free /\ (nfree (dr_free m) < 3)%nat
    | VWait b _ _ => c = ch_buf b /\ vb_disk <$> dr_bufs m !! b = Some true
    end.

Record shows (m : drv) (d : D) (x : bst) : Prop := {
  sh_bufs : (fun v => (vb_blockno v, vb_data v)) <$> dr_bufs m = (fun v => (b_blockno v, b_data v)) <$> bc_bufs x;
  sh_disk n : 0 <= n < 2 ^ 31 -> sectors (2 * n) (dv_disk d) = on_disk n (bc_disk x)
}.

Definition acall_of (P : list nat) (c : vcall) : acall :=
  match c with
  | VIdle => AIdle
  | VWant b w _ => APending b w
  | VWait b w h => if decide (h ∈ P) then APending b w else ADone b w
  end.

Record vrel (s : vst) (x : bst * list acall) (C : list (nat * nat * nat)) (Q U : list nat) : Prop := {
  vr_owned : owned (v_drv s) (vt_call <$> v_ths s) C;
  vr_queued : queued (v_drv s) (v_dev s) (vt_call <$> v_ths s) Q U;
  vr_asleep : asleep (v_drv s) (v_ths s);
  vr_shows : shows (v_drv s) (v_dev s) x.1;
  vr_calls : x.2 = acall_of (Q ++ dv_work (v_dev s)) <$> (vt_call <$> v_ths s)
}.

(** * Frames *)

Lemma formatted_frame m m' b w h i1 i2 : formatted m b w h i1 i2 -> (forall i, i ∈ [h; i1; i2] -> dr_desc m' !! i = dr_desc m !! i) ->
  dr_ops m' !! h = dr_ops m !! h -> in_b <$> dr_info m' !! h = in_b <$> dr_info m !! h -> vb_blockno <$> dr_bufs m' !! b = vb_blockno <$> dr_bufs m !! b ->
  formatted m' b w h i1 i2.
Proof.
  intros [F0 F1 F2 (vb & Eb & Eo) Fi] Hd Ho Hi Hb. split.
  - rewrite Hd; [done|left].
  - rewrite Hd; [done|right; left].
  - rewrite Hd; [done|right; right; left].
  - rewrite Eb in Hb. cbn in Hb. destruct (dr_bufs m' !! b) as [vb'|] eqn:Eb'; [|done]. injection Hb as Hb. exists vb'. split; [done|]. by rewrite Ho, Hb.
  - by rewrite Hi.
Qed.

Lemma owned_frame m m' cs C : owned m cs C -> dr_desc m' = dr_desc m -> dr_free m' = dr_free m -> dr_ops m' = dr_ops m ->
  in_b <$> dr_info m' = in_b <$> dr_info m -> vb_blockno <$> dr_bufs m' = vb_blockno <$> dr_bufs m -> owned m' cs C.
Proof.
  intros [(L1 & L2 & L3 & L4) Hnd Hf Hbd Hw Hc Hwt Hb Hn] Ed Ef Eo Ei Eb.
  assert (forall b, vb_blockno <$> dr_bufs m' !! b = vb_blockno <$> dr_bufs m !! b) as Eb' by (intros b; by rewrite <- !list_lookup_fmap, Eb).
  split; try done.
  - split_and!; try congruence. rewrite <- L3, <- (length_fmap in_b (dr_info m')), Ei. by rewrite length_fmap.
  - intros i. rewrite Ef. apply Hf.
  - intros me b w h Hm. destruct (Hw me b w h Hm) as (i1 & i2 & Hin & Hfm). exists i1, i2. split; [done|]. apply (formatted_frame m); try done; try congruence. by rewrite <- !list_lookup_fmap, Ei.
  - intros me b w sec Hm. destruct (Hwt me b w sec Hm) as (vb & E & ->). specialize (Eb' b). rewrite E in Eb'. cbn in Eb'. destruct (dr_bufs m' !! b) as [vb'|]; [|done]. injection Eb' as Eb'. exists vb'. by rewrite Eb'.
  - intros b vb E. specialize (Eb' b). rewrite E in Eb'. cbn in Eb'. destruct (dr_bufs m !! b) as [vb'|] eqn:E'; [|done]. injection Eb' as ->. by apply (Hn b).
Qed.

Lemma acall_of_ext P P' c : (forall h, h ∈ P <-> h ∈ P') -> acall_of P c = acall_of P' c.
Proof. intros HP. destruct c; cbn; try done. destruct (decide (i ∈ P)), (decide (i ∈ P')); naive_solver. Qed.
Lemma acalls_ext P P' (cs : list vcall) : (forall h, h ∈ P <-> h ∈ P') -> acall_of P <$> cs = acall_of P' <$> cs.
Proof. intros HP. apply list_fmap_ext. intros i c _. by apply acall_of_ext. Qed.

(** A head names the process and its buffer. *)
Lemma head_unique m cs C me me' b b' w w' h : owned m cs C -> cs !! me = Some (VWait b w h) -> cs !! me' = Some (VWait b' w' h) -> me = me' /\ b = b' /\ w = w'.
Proof.
  intros HO E E'. destruct (ow_wait _ _ _ HO _ _ _ _ E) as (? & ? & _ & F). destruct (ow_wait _ _ _ HO _ _ _ _ E') as (? & ? & _ & F').
  pose proof (fm_info _ _ _ _ _ _ F) as Hi. rewrite (fm_info _ _ _ _ _ _ F') in Hi. injection Hi as ->.
  assert (me = me') as -> by (by eapply (ow_buf _ _ _ HO _ _ _ _ b)). rewrite E in E'. by injection E' as ->.
Qed.

(** * The device *)

Lemma request_of_formatted m b w h i1 i2 vb : formatted m b w h i1 i2 -> dr_bufs m !! b = Some vb ->
  request_of h m = Some (mkRequest w (sector_of (vb_blockno vb)) b h).
Proof.
  intros [F0 F1 F2 (vb' & Eb & Eo) Fi] E. rewrite E in Eb. injection Eb as <-. unfold request_of. rewrite F0. cbn [mbind option_bind d_next]. rewrite F1. cbn [mbind option_bind d_next]. rewrite F2. cbn [mbind option_bind d_addr].
  rewrite Eo. cbn [mbind option_bind]. by destruct w.
Qed.

Lemma device_takes s x C Q U d' : vrel s x C Q U -> dv_seen (v_dev s) <> dr_avail_idx (v_drv s) -> dv_disk d' = dv_disk (v_dev s) -> dv_seen d' = u16 (dv_seen (v_dev s) + 1) ->
  dv_work d' = dv_work (v_dev s) ++ [dr_avail (v_drv s) !!! Z.to_nat (dv_seen (v_dev s) mod Z.of_nat NUM)] ->
  exists Q', vrel (mkV (v_drv s) d' (v_ths s)) x C Q' U.
Proof.
  intros [HO [Q1 Q2 Q3 Q4 Q5] HA [S1 S2] Hc] Hne Ed Es Ew. pose proof (ring_empty _ _ _ _ Q1) as He. rewrite (proj2 (Z.eqb_neq _ _) Hne) in He. symmetry in He. apply bool_decide_eq_false in He.
  destruct Q as [|h Q]; [done|]. apply ring_pop in Q1 as [Eh Q1]. rewrite Eh in Ew. exists Q.
  assert (Q ++ dv_work d' ++ U ≡ₚ (h :: Q) ++ dv_work (v_dev s) ++ U) as HP by (rewrite Ew; solve_Permutation).
  assert (forall i, i ∈ Q ++ dv_work d' <-> i ∈ (h :: Q) ++ dv_work (v_dev s)) as HM.
  { intros i. assert (Q ++ dv_work d' ≡ₚ (h :: Q) ++ dv_work (v_dev s)) as -> by (rewrite Ew; solve_Permutation). done. }
  split; cbn [v_drv v_dev v_ths]; try done.
  - split; try done; [by rewrite Es|by rewrite HP|]. intros i. rewrite HP. apply Q4.
  - split; [done|]. intros n Hn. rewrite Ed. by apply S2.
  - rewrite Hc. symmetry. by apply acalls_ext.
Qed.

Lemma sectors_put s data d : sectors s (put_sectors s data d) = data.
Proof.
  unfold sectors, put_sectors, sector. rewrite lookup_insert_ne by lia. rewrite lookup_insert_eq, lookup_insert_eq. cbn [default from_option id]. apply take_drop.
Qed.
Lemma sectors_put_ne n k data d : n <> k -> sectors (2 * n) (put_sectors (2 * k) data d) = sectors (2 * n) d.
Proof. intros Hne. unfold sectors, put_sectors, sector. by rewrite !lookup_insert_ne by lia. Qed.

Lemma sector_of_small n : 0 <= n < 2 ^ 31 -> sector_of n = 2 * n.
Proof. intros Hn. unfold sector_of. change (Z.of_nat BSIZE / 512) with 2. rewrite u32_small by lia. lia. Qed.

(** What the transfer does to the view of the cache. *)
Lemma transfer_shows m d x b w vb d' : shows m d x -> dr_bufs m !! b = Some vb -> 0 <= vb_blockno vb < 2 ^ 31 ->
  let r := mkRequest w (sector_of (vb_blockno vb)) b 0 in dv_disk d' = disk_after r m (dv_disk d) ->
  forall m', dr_bufs m' = (if w then dr_bufs m else alter (vset_data (sectors (q_sector r) (dv_disk d))) b (dr_bufs m)) ->
  exists x', XBio.virtio_disk_rw b w x = Ok tt x' /\ shows m' d' x'.
Proof.
  intros [S1 S2] Eb Hn r Ed m' Em'. assert ((fun v => (b_blockno v, b_data v)) <$> bc_bufs x !! b = Some (vb_blockno vb, vb_data vb)) as Ex by (by rewrite <- list_lookup_fmap, <- S1, list_lookup_fmap, Eb).
  destruct (bc_bufs x !! b) as [xb|] eqn:Exb; [|done]. injection Ex as En Ed'. unfold XBio.virtio_disk_rw. mstep. assert (the_buf b x = xb) as -> by (apply list_lookup_total_correct, Exb).
  subst r. cbn [q_sector q_write q_buf] in *. unfold disk_after in Ed. cbn [q_sector q_write q_buf] in Ed. rewrite sector_of_small in * by done. destruct w.
  - eexists. split; [reflexivity|]. split; cbn [bc_bufs with_disk bc_disk]; [by rewrite Em'|].
    intros n Hn'. rewrite Ed, En. unfold buf_data. rewrite Eb. cbn [fmap option_fmap option_map default from_option id]. destruct (decide (n = vb_blockno vb)) as [->|Hne].
    + rewrite sectors_put. unfold on_disk. rewrite lookup_insert_eq. by rewrite Ed'.
    + rewrite sectors_put_ne by done. unfold on_disk. rewrite lookup_insert_ne by done. by apply S2.
  - mstep. eexists. split; [reflexivity|]. split; [|intros n Hn'; rewrite Ed; by apply S2]. rewrite Em', En. unfold updf, with_bufs. cbn [bc_bufs].
    rewrite <- (S2 _ Hn). apply list_eq. intros i. rewrite !list_lookup_fmap. destruct (decide (i = b)) as [->|Hne].
    + rewrite !list_lookup_alter_eq, Eb, Exb. cbn. by rewrite En.
    + rewrite !list_lookup_alter_ne by done. rewrite <- !list_lookup_fmap. by rewrite S1.
Qed.

Lemma nodup_bounded (l : list nat) n : NoDup l -> (forall i, i ∈ l -> (i < n)%nat) -> (length l <= n)%nat.
Proof.
  intros Hnd Hb. rewrite <- (length_seq n 0). apply submseteq_length, NoDup_submseteq; [done|]. intros i Hi. apply elem_of_seq. specialize (Hb i Hi). lia.
Qed.

Lemma queued_bound m d cs C Q U h : owned m cs C -> queued m d cs Q U -> h ∈ Q ++ dv_work d ++ U -> (h < NUM)%nat.
Proof.
  intros HO HQ (me & b & w & E & _)%(qu_mem _ _ _ _ _ HQ). destruct (ow_wait _ _ _ HO _ _ _ _ E) as (i1 & i2 & Hin & _). apply (ow_bound _ _ _ HO).
  apply list_elem_of_join. exists (chain (h, i1, i2)). split; [left|]. apply list_elem_of_fmap. by exists (h, i1, i2).
Qed.

(** The other answers are not touched by one more. *)
Lemma answered_status m d h r U : (forall i, i ∈ U -> in_status <$> dr_info m !! i = Some 0) -> q_status r = h -> (h < length (dr_info m))%nat ->
  forall i, i ∈ U ++ [h] -> in_status <$> dr_info (answered h r d m) !! i = Some 0.
Proof.
  intros HU Er Hlt i Hi. assert (dr_info (answered h r d m) = alter (fun i => mkInfo (in_b i) 0) h (dr_info m)) as -> by (unfold answered; rewrite Er; by destruct (q_write r)).
  destruct (decide (i = h)) as [->|Hne].
  - rewrite list_lookup_alter_eq. destruct (lookup_lt_is_Some_2 _ _ Hlt) as [x ->]. done.
  - rewrite list_lookup_alter_ne by done. apply HU. apply elem_of_app in Hi as [Hi|Hi%list_elem_of_singleton]; [done|congruence].
Qed.

Lemma fmap_alter_same {A B} (f : A -> B) (g : A -> A) i (l : list A) : (forall a, f (g a) = f a) -> f <$> alter g i l = f <$> l.
Proof. intros Hfg. apply list_eq. intros j. rewrite !list_lookup_fmap. destruct (decide (j = i)) as [->|Hne]; [rewrite list_lookup_alter_eq; destruct (l !! i); cbn; by rewrite ?Hfg|by rewrite list_lookup_alter_ne]. Qed.

Lemma answered_frame h r d m : dr_desc (answered h r d m) = dr_desc m /\ dr_free (answered h r d m) = dr_free m /\ dr_ops (answered h r d m) = dr_ops m /\
  dr_avail (answered h r d m) = dr_avail m /\ dr_avail_idx (answered h r d m) = dr_avail_idx m /\ dr_used_idx (answered h r d m) = dr_used_idx m /\
  in_b <$> dr_info (answered h r d m) = in_b <$> dr_info m /\
  dr_bufs (answered h r d m) = (if q_write r then dr_bufs m else alter (vset_data (sectors (q_sector r) d)) (q_buf r) (dr_bufs m)) /\
  dr_used (answered h r d m) = <[Z.to_nat (dr_dev_idx m mod Z.of_nat NUM) := h]> (dr_used m) /\ dr_dev_idx (answered h r d m) = u16 (dr_dev_idx m + 1).
Proof.
  assert (forall l j, in_b <$> alter (fun i => mkInfo (in_b i) 0) j l = in_b <$> l) as Hi by (intros l j; by apply fmap_alter_same).
  unfold answered. destruct (q_write r); cbn; rewrite Hi; split_and!; done.
Qed.

(** When a request is carried out, the call of one process is done. *)
Lemma acalls_done m cs C me b w h P P' : owned m cs C -> cs !! me = Some (VWait b w h) -> h ∉ P' -> (forall i, i ∈ P' \/ i = h <-> i ∈ P) ->
  <[me := ADone b w]> (acall_of P <$> cs) = acall_of P' <$> cs.
Proof.
  intros HO Eme Hh HP. apply list_eq. intros j. destruct (decide (j = me)) as [->|Hne].
  - rewrite list_lookup_insert_eq by (rewrite length_fmap; by apply lookup_lt_Some in Eme). rewrite list_lookup_fmap, Eme. cbn. by rewrite decide_False.
  - rewrite list_lookup_insert_ne by done. rewrite !list_lookup_fmap. destruct (cs !! j) as [c|] eqn:Ej; [|done]. cbn. f_equal. destruct c as [| |b' w' h']; try done. cbn.
    assert (h' <> h) as Hn. { intros ->. by destruct (head_unique _ _ _ j me _ _ _ _ _ HO Ej Eme) as [? _]. }
    destruct (decide (h' ∈ P)), (decide (h' ∈ P')); naive_solver.
Qed.

Lemma device_answers s x C Q U h l1 l2 d' m' : vrel s x C Q U -> dv_work (v_dev s) = l1 ++ h :: l2 ->
  match request_of h (v_drv s) with
  | Some r => dv_work d' = l1 ++ l2 /\ dv_seen d' = dv_seen (v_dev s) /\ dv_disk d' = disk_after r (v_drv s) (dv_disk (v_dev s)) /\ m' = answered h r (dv_disk (v_dev s)) (v_drv s)
  | None => True
  end -> exists x', astep x [] x' /\ vrel (mkV m' d' (v_ths s)) x' C Q (U ++ [h]).
Proof.
  intros [HO HQ HA HS Hc] Ew. assert (h ∈ Q ++ dv_work (v_dev s) ++ U) as Hin by (rewrite Ew; set_solver).
  pose proof (queued_bound _ _ _ _ _ _ _ HO HQ Hin) as Hlt. destruct (proj1 (qu_mem _ _ _ _ _ HQ h) Hin) as (me & b & w & Eme & Edisk).
  destruct (ow_wait _ _ _ HO _ _ _ _ Eme) as (i1 & i2 & HC & HF). destruct (dr_bufs (v_drv s) !! b) as [vb|] eqn:Eb; [|done].
  rewrite (request_of_formatted _ _ _ _ _ _ _ HF Eb). set (r := mkRequest w (sector_of (vb_blockno vb)) b h). intros (Ew' & Es' & Ed' & ->).
  destruct (answered_frame h r (dv_disk (v_dev s)) (v_drv s)) as (A1 & A2 & A3 & A4 & A5 & A6 & A7 & A8 & A9 & A10).
  destruct (transfer_shows (v_drv s) (v_dev s) x.1 b w vb d' HS Eb (ow_blockno _ _ _ HO _ _ Eb) Ed' (answered h r (dv_disk (v_dev s)) (v_drv s)) A8) as (x' & Ex & HS').
  pose proof (qu_nodup _ _ _ _ _ HQ) as Hnd. set (P := Q ++ dv_work d').
  assert (Q ++ dv_work d' ++ U ++ [h] ≡ₚ Q ++ dv_work (v_dev s) ++ U) as HP by (rewrite Ew', Ew; solve_Permutation).
  assert (h ∉ P /\ forall i, i ∈ P \/ i = h <-> i ∈ Q ++ dv_work (v_dev s)) as [HhP HPi].
  { subst P. rewrite Ew', Ew. split.
    - rewrite <- HP, Ew' in Hnd. rewrite !app_assoc in Hnd. apply NoDup_app in Hnd as (_ & Hd & _). intros Hi. apply (Hd h); [|left].
      rewrite !elem_of_app in Hi. rewrite !elem_of_app.
      tauto.
    - intros i. rewrite !elem_of_app, elem_of_cons. tauto. }
  assert (vb_disk <$> dr_bufs (answered h r (dv_disk (v_dev s)) (v_drv s)) = vb_disk <$> dr_bufs (v_drv s)) as Hdk.
  { rewrite A8. destruct (q_write r); [done|]. by apply fmap_alter_same. }
  assert (vb_blockno <$> dr_bufs (answered h r (dv_disk (v_dev s)) (v_drv s)) = vb_blockno <$> dr_bufs (v_drv s)) as Hbn.
  { rewrite A8. destruct (q_write r); [done|]. by apply fmap_alter_same. }
  assert (forall b, vb_disk <$> dr_bufs (answered h r (dv_disk (v_dev s)) (v_drv s)) !! b = vb_disk <$> dr_bufs (v_drv s) !! b) as Hdk' by (intros b'; by rewrite <- !list_lookup_fmap, Hdk).
  exists (x', <[me := ADone b w]> x.2). split.
  { destruct x as [x0 cs]. apply a_exec; [|done]. cbn in Hc |- *. rewrite Hc, list_lookup_fmap, Eme. cbn. rewrite decide_True; [done|]. apply HPi. by right. }
  split; cbn [v_drv v_dev v_ths fst snd].
  - by apply (owned_frame (v_drv s)).
  - destruct HQ as [Q1 Q2 Q3 Q4 Q5]. split.
    + by rewrite A4, A5, Es'.
    + rewrite A6, A9, A10. apply ring_push; [done|]. assert (length (h :: U) <= NUM)%nat as Hl; [|cbn in Hl; lia]. apply nodup_bounded.
      * rewrite <- HP in Q3. rewrite !app_assoc in Q3. rewrite <- app_assoc in Q3. apply NoDup_app in Q3 as (_ & _ & Q3). by rewrite <- Permutation_cons_append in Q3.
      * intros i Hi. apply (queued_bound (v_drv s) (v_dev s) _ C Q U i HO); [by split|]. rewrite Ew, !elem_of_app, elem_of_cons. apply elem_of_cons in Hi. tauto.
    + by rewrite HP.
    + intros i. rewrite HP, Q4. by setoid_rewrite Hdk'.
    + apply answered_status; [done|done|]. destruct (ow_len _ _ _ HO) as (_ & _ & -> & _). done.
  - intros me' t c Et Etc. specialize (HA me' t c Et Etc). rewrite A2. destruct (vt_call t); try done. by rewrite Hdk'.
  - done.
  - rewrite Hc. by apply (acalls_done (v_drv s) _ C _ _ _ h).
Qed.

(** * Interrupts *)

Lemma vrel_mmio s x C Q U l : vrel s x C Q U -> vrel (mkV (set_mmio l (v_drv s)) (v_dev s) (v_ths s)) x C Q U.
Proof. intros [HO [] HA [] Hc]. split; try done. by apply (owned_frame (v_drv s)). Qed.

Lemma asleep_less m ths ths' : asleep m ths -> less_asleep ths ths' -> asleep m ths'.
Proof. intros HA HL me t c Et Ec. destruct (less_asleep_lookup _ _ _ _ _ HL Et Ec) as (t0 & E0 & Ec0 & ->). by apply (HA me t0 c). Qed.

(** One answer is looked at. *)
Lemma intr_one s x C Q h U : vrel s x C Q (h :: U) -> exists b, dr_info (v_drv s) !! h = Some (mkInfo (Some b) 0) /\
  vrel (mkV (set_used_idx (u16 (dr_used_idx (v_drv s) + 1)) (set_bufs (alter (vset_disk false) b (dr_bufs (v_drv s))) (v_drv s))) (v_dev s) (vwake (ch_buf b) <$> v_ths s)) x C Q U.
Proof.
  intros [HO [Q1 Q2 Q3 Q4 Q5] HA [S1 S2] Hc]. assert (h ∈ Q ++ dv_work (v_dev s) ++ h :: U) as Hin by (rewrite !elem_of_app, elem_of_cons; tauto).
  destruct (proj1 (Q4 h) Hin) as (me & b & w & Eme & Ed). destruct (ow_wait _ _ _ HO _ _ _ _ Eme) as (i1 & i2 & _ & HF). exists b. split.
  { pose proof (fm_info _ _ _ _ _ _ HF) as Ei. specialize (Q5 h ltac:(left)). destruct (dr_info (v_drv s) !! h) as [[ob st]|]; [|done]. cbn in Ei, Q5. congruence. }
  pose proof (less_asleep_calls _ _ (vwake_less (ch_buf b) (v_ths s))) as Ecs.
  assert (forall b', vb_disk <$> alter (vset_disk false) b (dr_bufs (v_drv s)) !! b' = Some true <-> b' <> b /\ vb_disk <$> dr_bufs (v_drv s) !! b' = Some true) as Hdk.
  { intros b'. destruct (decide (b' = b)) as [->|Hne]; [|by rewrite list_lookup_alter_ne; intuition]. rewrite list_lookup_alter_eq. destruct (dr_bufs (v_drv s) !! b); cbn; intuition; congruence. }
  split; cbn [v_drv v_dev v_ths]; rewrite ?Ecs; try done.
  - apply (owned_frame (v_drv s)); try done. by apply fmap_alter_same.
  - apply ring_pop in Q2 as [_ Q2]. assert (NoDup (h :: Q ++ dv_work (v_dev s) ++ U)) as Hnd.
    { assert (h :: Q ++ dv_work (v_dev s) ++ U ≡ₚ Q ++ dv_work (v_dev s) ++ h :: U) as -> by solve_Permutation. done. }
    apply NoDup_cons in Hnd as [Hnh Hnd]. split; try done; cbn [dr_bufs set_used_idx set_bufs].
    + intros i. setoid_rewrite Hdk. split.
      * intros Hi. destruct (proj1 (Q4 i)) as (me' & b' & w' & E & Ed'); [rewrite !elem_of_app, elem_of_cons; rewrite !elem_of_app in Hi; tauto|]. exists me', b', w'. split; [done|]. split; [|done].
        intros ->. assert (me' = me) as -> by (by eapply (ow_buf _ _ _ HO _ _ _ _ b)). rewrite Eme in E. injection E as _ ->. done.
      * intros (me' & b' & w' & E & Hne & Ed'). assert (i <> h) as Hih. { intros ->. destruct (head_unique _ _ _ _ _ _ _ _ _ _ HO E Eme) as (_ & ? & _). done. }
        pose proof (proj2 (Q4 i) ltac:(by exists me', b', w')) as Hi. rewrite !elem_of_app, elem_of_cons in Hi. rewrite !elem_of_app. tauto.
    + intros i Hi. apply Q5. by right.
  - intros me' t c Et Ec. cbn [dr_free dr_bufs set_used_idx set_bufs]. rewrite list_lookup_fmap in Et. destruct (v_ths s !! me') as [t0|] eqn:Et0; [|done]. injection Et as <-.
    pose proof (vwake_chan (ch_buf b) t0) as Hnc. unfold vwake in *. case_decide as Edc; [done|]. specialize (HA me' t0 c Et0 Ec). destruct (vt_call t0); try done. destruct HA as [-> HA]. split; [done|]. apply Hdk. split; [congruence|done].
  - split; [|done]. rewrite <- S1. by apply fmap_alter_same.
Qed.

Lemma intr_loop_run U : forall s x C Q, vrel s x C Q U -> exists s', intr_loop (S (length U)) s = Ok tt s' /\ vrel s' x C Q [].
Proof.
  induction U as [|h U IH]; intros s x C Q HR; pose proof (qu_used _ _ _ _ _ (vr_queued _ _ _ _ _ HR)) as Hring; cbn [length].
  - exists s. split; [|done]. cbn [intr_loop]. unfold getdrv, id. mstep. by rewrite (ring_empty _ _ _ _ Hring).
  - destruct (intr_one _ _ _ _ _ _ HR) as (b & Ei & HR'). destruct (IH _ _ _ _ HR') as (s' & E & HR''). exists s'. split; [|done]. remember (S (length U)) as f. cbn [intr_loop]. unfold getdrv, id. mstep.
    rewrite (ring_empty _ _ _ _ Hring), bool_decide_false by done. apply ring_pop in Hring as [-> _]. rewrite Ei. cbn. exact E.
Qed.

Lemma intr_run s x C Q U : vrel s x C Q U -> exists s', virtio_disk_intr s = Ok tt s' /\ vrel s' x C Q [].
Proof.
  intros HR. unfold virtio_disk_intr, rreg, wreg, updrv, getdrv, id. mstep. cbn [v_drv].
  rewrite (ring_count _ _ _ _ (qu_used _ _ _ _ _ (vr_queued _ _ _ _ _ HR)) : u16 (dr_dev_idx (set_mmio _ (v_drv s)) - dr_used_idx (set_mmio _ (v_drv s))) = _), Nat2Z.id.
  by apply intr_loop_run, vrel_mmio.
Qed.

(** * A process in the driver *)

Lemma calls_set me c (s : vst) : vt_call <$> v_ths (set_vcall me c s) = alter (fun _ => c) me (vt_call <$> v_ths s).
Proof.
  apply list_eq. intros i. cbn [set_vcall v_ths]. rewrite list_lookup_fmap. destruct (decide (i = me)) as [->|Hne].
  - rewrite !list_lookup_alter_eq, list_lookup_fmap. by destruct (v_ths s !! me).
  - by rewrite !list_lookup_alter_ne, list_lookup_fmap.
Qed.

Lemma chain_not_free m cs C i c : owned m cs C -> c ∈ C -> i ∈ chain c -> dr_free m !! i = Some false.
Proof.
  intros HO Hc Hi. assert (i ∈ mjoin (chain <$> C)) as Hin by (apply list_elem_of_join; exists (chain c); split; [done|by apply list_elem_of_fmap_2]).
  rewrite (ow_free _ _ _ HO i) by (by apply (ow_bound _ _ _ HO)). by rewrite bool_decide_false by tauto.
Qed.

(** The state of a process that goes to sleep. *)
Definition dozing (me : nat) (c : vchan) (k : vcall) (m : drv) (d : D) (ths : list vthread) : vst :=
  set_vcall me k (mkV m d (alter (fun t => mkVt (Some c) (vt_call t)) me ths)).

Lemma dozing_calls me c k m d ths ths0 : less_asleep ths0 ths -> vt_call <$> v_ths (dozing me c k m d ths) = alter (fun _ => k) me (vt_call <$> ths0).
Proof. intros HL. unfold dozing. rewrite calls_set. cbn [v_ths]. by rewrite fmap_alter_same, (less_asleep_calls _ _ HL). Qed.

Lemma dozing_asleep me c k m d ths ths0 k0 m0 :
  asleep m0 (v_ths (set_vcall me k0 (mkV m d ths0))) -> less_asleep ths0 ths ->
  (nfree (dr_free m0) < 3 -> nfree (dr_free m) < 3)%nat -> (forall b, vb_disk <$> dr_bufs m0 !! b = Some true -> vb_disk <$> dr_bufs m !! b = Some true) ->
  match k with VIdle => False | VWant _ _ _ => c = ch_free /\ (nfree (dr_free m) < 3)%nat | VWait b _ _ => c = ch_buf b /\ vb_disk <$> dr_bufs m !! b = Some true end ->
  asleep m (v_ths (dozing me c k m d ths)).
Proof.
  intros HA HL Hf Hb Hk me' t c' Et Ec. unfold dozing, set_vcall in Et. cbn [v_ths] in Et. destruct (decide (me' = me)) as [->|Hne].
  - rewrite !list_lookup_alter_eq in Et. destruct (ths !! me) as [t0|]; [|done]. injection Et as <-. cbn in Ec |- *. injection Ec as <-. done.
  - rewrite !list_lookup_alter_ne in Et by done. destruct (less_asleep_lookup _ _ _ _ _ HL Et Ec) as (t0 & E0 & Ec0 & ->).
    specialize (HA me' t0 c'). cbn [set_vcall v_ths] in HA. rewrite list_lookup_alter_ne in HA by done. specialize (HA E0 Ec0). destruct (vt_call t0); try done; naive_solver.
Qed.

Lemma alloc_fails me b w sec s x C Q U ds ths : vrel (set_vcall me (VWant b w sec) s) x C Q U -> (nfree (dr_free (v_drv s)) < 3)%nat -> length ds = length (dr_desc (v_drv s)) ->
  (forall i, dr_free (v_drv s) !! i = Some false -> ds !! i = dr_desc (v_drv s) !! i) -> less_asleep (v_ths s) ths ->
  vrel (dozing me ch_free (VWant b w sec) (set_desc ds (v_drv s)) (v_dev s) ths) x C Q U.
Proof.
  intros [HO HQ HA HS Hc] Hn Hl Hd HL. pose proof (dozing_calls me ch_free (VWant b w sec) (set_desc ds (v_drv s)) (v_dev s) _ _ HL) as Ecs. rewrite <- calls_set in Ecs. split; rewrite ?Ecs.
  - cbn [v_drv set_vcall dozing] in *. destruct HO as [(L1 & L) ? ? ? Hw ? ? ? ?] eqn:EO. split; try done.
    + split; [cbn; congruence|done].
    + intros me' b' w' h Hm. destruct (Hw _ _ _ _ Hm) as (i1 & i2 & Hin & HF). exists i1, i2. split; [done|]. apply (formatted_frame (v_drv s)); try done. intros i Hi. apply Hd. by apply (chain_not_free _ _ _ i _ HO Hin).
  - cbn [v_drv v_dev set_vcall dozing] in *. destruct HQ. by split.
  - apply (dozing_asleep me ch_free _ _ _ ths (v_ths s) (VWant b w sec) (v_drv s)); try done.
  - cbn [v_drv v_dev set_vcall dozing] in *. destruct HS. by split.
  - done.
Qed.

Record submitted (b : nat) (w : bool) (sec : Z) (i0 i1 i2 : nat) (m m' : drv) : Prop := {
  su_desc : dr_desc m' = <[i2 := mkDesc (a_status i0) 1 VRING_DESC_F_WRITE 0]>
    (<[i1 := mkDesc (a_data b) (Z.of_nat BSIZE) (Z.lor (if w then 0 else VRING_DESC_F_WRITE) VRING_DESC_F_NEXT) i2]>
    (<[i0 := mkDesc (a_op i0) 16 VRING_DESC_F_NEXT i1]> (dr_desc m)));
  su_free : dr_free m' = dr_free m;
  su_ops : dr_ops m' = <[i0 := mkReq (if w then VIRTIO_BLK_T_OUT else VIRTIO_BLK_T_IN) 0 sec]> (dr_ops m);
  su_info : dr_info m' = alter (fun _ => mkInfo (Some b) 255) i0 (dr_info m);
  su_bufs : dr_bufs m' = alter (vset_disk true) b (dr_bufs m);
  su_avail : dr_avail m' = <[Z.to_nat (dr_avail_idx m mod Z.of_nat NUM) := i0]> (dr_avail m) /\ dr_avail_idx m' = u16 (dr_avail_idx m + 1);
  su_used : dr_used m' = dr_used m /\ dr_dev_idx m' = dr_dev_idx m /\ dr_used_idx m' = dr_used_idx m
}.

Lemma submit_run b w sec i0 i1 i2 m l : submitted b w sec i0 i1 i2 m (set_mmio l (submit b w sec i0 i1 i2 m)).
Proof.
  split; try reflexivity; [|split; reflexivity|split_and!; reflexivity].
  change (alter (fun x => mkInfo (Some b) (in_status x)) i0 (alter (fun x => mkInfo (in_b x) 255) i0 (dr_info m)) = alter (fun _ => mkInfo (Some b) 255) i0 (dr_info m)).
  rewrite list_alter_alter_eq. by apply list_alter_ext.
Qed.

Section Submit.
Context (m m' : drv) (fr : list bool) (cs : list vcall) (C : list (nat * nat * nat)) (me b : nat) (w : bool) (sec : Z) (i0 i1 i2 : nat).
Context (HO : owned m cs C) (Hme : cs !! me = Some (VWant b w sec)) (Hnd : NoDup [i0; i1; i2]).
Context (Hfree : forall i, i ∈ [i0; i1; i2] -> dr_free m !! i = Some true) (Hfl : length fr = length (dr_free m)).
Context (Hfr : forall i, fr !! i = (if decide (i ∈ [i0; i1; i2]) then (fun _ => false) <$> dr_free m !! i else dr_free m !! i)).
Context (HS : submitted b w sec i0 i1 i2 (set_free fr m) m').

Let cs' := alter (fun _ => VWait b w i0) me cs.

Lemma submit_new_lt i : i ∈ [i0; i1; i2] -> (i < NUM)%nat.
Proof. intros Hi. pose proof (Hfree i Hi) as Hlt%lookup_lt_Some. by rewrite (proj1 (proj2 (ow_len _ _ _ HO))) in Hlt. Qed.
Lemma submit_new i : i ∈ [i0; i1; i2] -> i ∉ mjoin (chain <$> C).
Proof.
  intros Hi Hin. pose proof (Hfree i Hi) as E. rewrite (ow_free _ _ _ HO i) in E by (by apply submit_new_lt). by rewrite bool_decide_false in E by tauto.
Qed.
Lemma submit_chain c i : c ∈ C -> i ∈ chain c -> i ∉ [i0; i1; i2].
Proof. intros Hc Hi Hin. apply (submit_new i Hin), list_elem_of_join. exists (chain c). split; [done|by apply list_elem_of_fmap_2]. Qed.
Lemma submit_call j : cs' !! j = (if decide (j = me) then Some (VWait b w i0) else cs !! j).
Proof. subst cs'. case_decide as E; [subst j; by rewrite list_lookup_alter_eq, Hme|by rewrite list_lookup_alter_ne]. Qed.
Lemma submit_other j c : j <> me -> cs !! j = Some c -> call_buf c <> Some b.
Proof. intros Hne Ej Hc. apply Hne. by apply (ow_buf _ _ _ HO _ _ _ _ b Ej Hme). Qed.

Lemma submit_formatted : formatted m' b w i0 i1 i2.
Proof.
  destruct (ow_len _ _ _ HO) as (L1 & L2 & L3 & L4). pose proof (submit_new_lt i0 ltac:(left)). pose proof (submit_new_lt i1 ltac:(right; left)). pose proof (submit_new_lt i2 ltac:(right; right; left)).
  pose proof Hnd as [N0 N1]%NoDup_cons. apply NoDup_cons in N1 as [N1 _]. rewrite !not_elem_of_cons in N0. rewrite !not_elem_of_cons in N1. destruct N0 as (N01 & N02 & _), N1 as (N12 & _). pose proof HS as [Ed _ Eo Ei Eb _ _]. split.
  - rewrite Ed, !list_lookup_insert_ne by congruence. apply list_lookup_insert_eq. cbn. lia.
  - rewrite Ed, list_lookup_insert_ne by congruence. apply list_lookup_insert_eq. rewrite length_insert. cbn. lia.
  - rewrite Ed. apply list_lookup_insert_eq. rewrite !length_insert. cbn. lia.
  - destruct (ow_want _ _ _ HO _ _ _ _ Hme) as (vb & Evb & ->). exists (vset_disk true vb). rewrite Eb, list_lookup_alter_eq, Eo. cbn [dr_bufs set_free dr_ops]. rewrite Evb. split; [done|]. apply list_lookup_insert_eq. lia.
  - rewrite Ei, list_lookup_alter_eq. cbn [dr_info set_free]. destruct (lookup_lt_is_Some_2 (dr_info m) i0) as [y ->]; [lia|done].
Qed.

Lemma submit_keeps b' w' h j1 j2 : b' <> b -> (h, j1, j2) ∈ C -> formatted m b' w' h j1 j2 -> formatted m' b' w' h j1 j2.
Proof.
  intros Hb Hin HF. pose proof HS as [Ed _ Eo Ei Eb _ _]. assert (forall i, i ∈ [h; j1; j2] -> i <> i0 /\ i <> i1 /\ i <> i2) as Hne.
  { intros i Hi. pose proof (submit_chain _ i Hin Hi) as Hn. rewrite !not_elem_of_cons in Hn. tauto. }
  destruct (Hne h ltac:(left)) as (? & _). apply (formatted_frame m); try done.
  - intros i Hi. destruct (Hne i Hi) as (? & ? & ?). rewrite Ed, !list_lookup_insert_ne by congruence. done.
  - rewrite Eo, list_lookup_insert_ne by congruence. done.
  - rewrite Ei, list_lookup_alter_ne by congruence. done.
  - rewrite Eb, list_lookup_alter_ne by congruence. done.
Qed.

Lemma submit_owned : owned m' cs' ((i0, i1, i2) :: C).
Proof.
  pose proof submit_formatted as HF. destruct (ow_len _ _ _ HO) as (L1 & L2 & L3 & L4). pose proof HS as [Ed Ef Eo Ei Eb _ _]. change (mjoin (chain <$> (i0, i1, i2) :: C)) with ([i0; i1; i2] ++ mjoin (chain <$> C)). 
  assert (forall b' vb, dr_bufs m' !! b' = Some vb -> exists vb0, dr_bufs m !! b' = Some vb0 /\ vb_blockno vb = vb_blockno vb0) as Hbn.
  { intros b' vb. rewrite Eb. destruct (decide (b' = b)) as [->|]; [|rewrite list_lookup_alter_ne by done; eauto]. rewrite list_lookup_alter_eq. cbn [dr_bufs set_free]. destruct (dr_bufs m !! b) as [y|]; [|done]. intros [= <-]. by exists y. }
  split.
  - rewrite Ed, Ef, Eo, Ei, !length_insert, length_alter. cbn. by rewrite Hfl.
  - apply NoDup_app. split; [done|]. split; [apply submit_new|apply (ow_nodup _ _ _ HO)].
  - intros i Hi. rewrite Ef. cbn [dr_free set_free]. rewrite Hfr. case_decide as Hin; rewrite (ow_free _ _ _ HO i Hi); cbn; f_equal.
    + symmetry. apply bool_decide_false. change (i ∉ [i0; i1; i2] ++ mjoin (chain <$> C) -> False). rewrite elem_of_app. tauto.
    + apply bool_decide_ext. change (i ∉ mjoin (chain <$> C) <-> i ∉ [i0; i1; i2] ++ mjoin (chain <$> C)). rewrite elem_of_app. tauto.
  - intros i. change (i ∈ [i0; i1; i2] ++ mjoin (chain <$> C) -> (i < NUM)%nat). rewrite elem_of_app. intros [Hi|Hi]; [by apply submit_new_lt|by apply (ow_bound _ _ _ HO)].
  - intros j b' w' h. rewrite submit_call. case_decide as Ej; [intros [= <- <- <-]; exists i1, i2; split; [left|done]|]. intros E. destruct (ow_wait _ _ _ HO _ _ _ _ E) as (j1 & j2 & Hin & HF'). exists j1, j2. split; [by right|].
    apply submit_keeps; try done. intros ->. by apply (submit_other _ _ Ej E).
  - intros h j1 j2 [[= -> -> ->]|Hin]%elem_of_cons; [exists me, b, w; by rewrite submit_call, decide_True|]. destruct (ow_chain _ _ _ HO _ _ _ Hin) as (j & b' & w' & E). exists j, b', w'. rewrite submit_call, decide_False; [done|]. intros ->. congruence.
  - intros j b' w' sec'. rewrite submit_call. case_decide as Ej; [done|]. intros E. destruct (ow_want _ _ _ HO _ _ _ _ E) as (vb & Evb & ->). exists vb. rewrite Eb, list_lookup_alter_ne; [done|]. intros <-. by apply (submit_other _ _ Ej E).
  - assert (forall j c b', cs' !! j = Some c -> call_buf c = Some b' -> exists c0, cs !! j = Some c0 /\ call_buf c0 = Some b') as Hold.
    { intros j c b'. rewrite submit_call. case_decide as Ej; [|eauto]. intros [= <-] [= <-]. subst j. eexists. split; [exact Hme|done]. }
    intros j j' c c' b' E E' Ec Ec'. destruct (Hold _ _ _ E Ec) as (? & ? & ?). destruct (Hold _ _ _ E' Ec') as (? & ? & ?). by eapply (ow_buf _ _ _ HO).
  - intros b' vb E. destruct (Hbn _ _ E) as (vb0 & E0 & ->). by apply (ow_blockno _ _ _ HO b').
Qed.

Lemma submit_queued d Q U : queued m d cs Q U -> queued m' d cs' (Q ++ [i0]) U.
Proof.
  intros HQ. assert (i0 ∉ Q ++ dv_work d ++ U) as Hni.
  { intros (j & b' & w' & E & _)%(qu_mem _ _ _ _ _ HQ). destruct (ow_wait _ _ _ HO _ _ _ _ E) as (j1 & j2 & Hin & _). apply (submit_chain _ i0 Hin); left. }
  assert ((Q ++ [i0]) ++ dv_work d ++ U ≡ₚ i0 :: Q ++ dv_work d ++ U) as HP by solve_Permutation. pose proof (fun h => queued_bound _ _ _ _ _ _ h HO HQ) as Hbd.
  destruct HQ as [Q1 Q2 Q3 Q4 Q5]. pose proof HS as [_ _ _ Ei Eb [Ea Eai] (Eu & Edi & Eui)]. split.
  - rewrite Ea, Eai. apply ring_push; [done|]. assert (length (i0 :: Q) <= NUM)%nat as Hl; [|cbn in Hl; lia]. apply nodup_bounded.
    + rewrite elem_of_app in Hni. apply NoDup_app in Q3 as (Q3 & _). apply NoDup_cons. tauto.
    + intros i [->|Hi]%elem_of_cons; [apply submit_new_lt; left|]. apply Hbd. rewrite elem_of_app. tauto.
  - by rewrite Eu, Edi, Eui.
  - rewrite HP. by apply NoDup_cons.
  - destruct (ow_want _ _ _ HO _ _ _ _ Hme) as (vb & Evb & _). intros h. rewrite HP, elem_of_cons, Q4, Eb. cbn [dr_bufs set_free]. split.
    + intros [->|(j & b' & w' & E & Ed)].
      * exists me, b, w. rewrite submit_call, decide_True by done. split; [done|]. by rewrite list_lookup_alter_eq, Evb.
      * exists j, b', w'. assert (j <> me) as Hj by congruence. rewrite submit_call, decide_False by done. split; [done|]. rewrite list_lookup_alter_ne; [done|]. intros <-. by apply (submit_other _ _ Hj E).
    + intros (j & b' & w' & E & Ed). rewrite submit_call in E. case_decide as Ej; [injection E as <- <- <-; by left|]. right. exists j, b', w'. split; [done|]. rewrite list_lookup_alter_ne in Ed; [done|]. intros <-. by apply (submit_other _ _ Ej E).
  - intros h Hh. rewrite Ei, list_lookup_alter_ne; [by apply Q5|]. intros <-. apply Hni. rewrite !elem_of_app. tauto.
Qed.
End Submit.

Lemma nfree_le l l' : length l' = length l -> (forall i, l' !! i = Some true -> l !! i = Some true) -> (nfree l' <= nfree l)%nat.
Proof.
  unfold nfree. revert l. induction l' as [|x' l' IH]; intros [|x l] Hl Hi; try done. injection Hl as Hl. specialize (IH l Hl (fun i => Hi (S i))). pose proof (Hi 0%nat) as H0. cbn in H0. rewrite !filter_cons.
  repeat case_decide; cbn [length]; subst; try lia. specialize (H0 eq_refl). congruence.
Qed.

Lemma alloc_submits me b w sec s x C Q U fr m' i0 i1 i2 : vrel (set_vcall me (VWant b w sec) s) x C Q U -> (me < length (v_ths s))%nat ->
  NoDup [i0; i1; i2] -> (forall i, i ∈ [i0; i1; i2] -> dr_free (v_drv s) !! i = Some true) -> length fr = length (dr_free (v_drv s)) ->
  (forall i, fr !! i = (if decide (i ∈ [i0; i1; i2]) then (fun _ => false) <$> dr_free (v_drv s) !! i else dr_free (v_drv s) !! i)) ->
  submitted b w sec i0 i1 i2 (set_free fr (v_drv s)) m' ->
  vb_disk <$> dr_bufs m' !! b = Some true /\ vrel (dozing me (ch_buf b) (VWait b w i0) m' (v_dev s) (v_ths s)) x ((i0, i1, i2) :: C) (Q ++ [i0]) U.
Proof.
  intros [HO HQ HA HS Hc] Hme Hnd Hf Hfl Hfr Hs. set (cs := vt_call <$> v_ths (set_vcall me (VWant b w sec) s)) in *.
  assert (cs !! me = Some (VWant b w sec)) as Ecs. { subst cs. rewrite calls_set, list_lookup_alter_eq, list_lookup_fmap. by destruct (lookup_lt_is_Some_2 _ _ Hme) as [t ->]. }
  pose proof (dozing_calls me (ch_buf b) (VWait b w i0) m' (v_dev s) _ _ (less_asleep_refl (v_ths s))) as Ecs'.
  assert (alter (fun _ => VWait b w i0) me (vt_call <$> v_ths s) = alter (fun _ => VWait b w i0) me cs) as Ealt by (subst cs; by rewrite calls_set, list_alter_alter_eq). rewrite Ealt in Ecs'. clear Ealt.
  destruct (ow_want _ _ _ HO _ _ _ _ Ecs) as (vb & Evb & _). change (v_drv (set_vcall me (VWant b w sec) s)) with (v_drv s) in *.
  assert (forall b', vb_disk <$> dr_bufs (v_drv s) !! b' = Some true \/ b' = b -> vb_disk <$> dr_bufs m' !! b' = Some true) as Hdk.
  { intros b' Hb'. rewrite (su_bufs _ _ _ _ _ _ _ _ Hs). cbn [dr_bufs set_free]. destruct (decide (b' = b)) as [->|Hne]; [by rewrite list_lookup_alter_eq, Evb|]. rewrite list_lookup_alter_ne by done. by destruct Hb'. }
  split; [apply Hdk; by right|]. split; rewrite ?Ecs'.
  - by apply (submit_owned (v_drv s) m' fr cs C me b w sec i0 i1 i2).
  - by apply (submit_queued (v_drv s) m' fr cs C me b w sec i0 i1 i2).
  - apply (dozing_asleep me (ch_buf b) (VWait b w i0) m' (v_dev s) (v_ths s) (v_ths s) (VWant b w sec) (v_drv s)); try done.
    + rewrite (su_free _ _ _ _ _ _ _ _ Hs). intros Hlt. eapply Nat.le_lt_trans; [|exact Hlt]. apply nfree_le; [done|]. intros i Hi. cbn [dr_free set_free] in Hi. rewrite Hfr in Hi. case_decide; [|done]. by destruct (dr_free (v_drv s) !! i).
    + intros b' Hb'. apply Hdk. by left.
    + split; [done|]. apply Hdk. by right.
  - destruct HS as [S1 S2]. split; [|exact S2]. cbn [v_drv dozing set_vcall] in *. rewrite (su_bufs _ _ _ _ _ _ _ _ Hs), <- S1. by apply fmap_alter_same.
  - rewrite Hc. apply list_eq. intros j. rewrite !list_lookup_fmap. destruct (decide (j = me)) as [->|Hne].
    + rewrite list_lookup_alter_eq, Ecs. cbn. rewrite decide_True; [done|]. rewrite !elem_of_app, list_elem_of_singleton. tauto.
    + rewrite list_lookup_alter_ne by done. destruct (cs !! j) as [[| |b' w' h]|] eqn:Ej; try done. cbn. f_equal.
      assert (h <> i0). { intros ->. destruct (ow_wait _ _ _ HO _ _ _ _ Ej) as (j1 & j2 & Hin & _). pose proof (chain_not_free _ _ _ i0 _ HO Hin ltac:(left)) as E1. rewrite (Hf i0 ltac:(left)) in E1. done. }
      destruct (decide (h ∈ (Q ++ [i0]) ++ dv_work (v_dev s))) as [Hd|Hd]; rewrite !elem_of_app, list_elem_of_singleton in Hd.
      * rewrite decide_True; [done|]. rewrite elem_of_app. tauto.
      * rewrite decide_False; [done|]. rewrite elem_of_app. tauto.
Qed.

Lemma rw_alloc_run me b w sec s x C Q U : vrel (set_vcall me (VWant b w sec) s) x C Q U -> (me < length (v_ths s))%nat ->
  exists c s' C' Q', rw_alloc me b w sec s = Ok c s' /\ c <> VIdle /\ vrel (set_vcall me c s') x C' Q' U.
Proof.
  intros HR Hme. destruct (ow_len _ _ _ (vr_owned _ _ _ _ _ HR)) as (_ & L & _). unfold rw_alloc.
  destruct (alloc3_run s L) as [(i0 & i1 & i2 & s' & E & Hnd & Hf & (fr & -> & Hfl & Hfr))|(ds & ths & E & Hn & Hl & Hd & HL)]; mrun E.
  - unfold wreg, updrv. mstep. cbn [v_drv v_dev v_ths].
    destruct (alloc_submits me b w sec s x C Q U fr _ i0 i1 i2 HR Hme Hnd Hf Hfl Hfr (submit_run b w sec i0 i1 i2 _ (dr_mmio (submit b w sec i0 i1 i2 (set_free fr (v_drv s))) ++ [(0x50, u32 0)]))) as [Hb HR'].
    unfold rw_wait, getdrv. mstep. cbn [v_drv]. destruct (dr_bufs _ !! b) as [vb|]; [|done]. injection Hb as Hb. cbn [fmap option_fmap option_map default from_option id]. rewrite Hb.
    unfold vsleep_prepare. mstep. eexists _, _, _, _. split; [reflexivity|]. split; [done|exact HR'].
  - unfold vsleep_prepare. mstep. eexists _, _, C, Q. split; [reflexivity|]. split; [done|]. by apply (alloc_fails me b w sec s).
Qed.

Section Finish.
Context (m m' : drv) (cs : list vcall) (C1 C2 : list (nat * nat * nat)) (me b : nat) (w : bool) (i0 i1 i2 : nat).
Context (HO : owned m cs (C1 ++ (i0, i1, i2) :: C2)) (Hme : cs !! me = Some (VWait b w i0)).
Context (Hld : length (dr_desc m') = NUM) (Hlf : length (dr_free m') = NUM).
Context (Hfr : forall i, dr_free m' !! i = (if decide (i ∈ [i0; i1; i2]) then (fun _ => true) <$> dr_free m !! i else dr_free m !! i)).
Context (Hds : forall i, i ∉ [i0; i1; i2] -> dr_desc m' !! i = dr_desc m !! i).
Context (Hin : dr_info m' = alter (fun x => mkInfo None (in_status x)) i0 (dr_info m)).
Context (Hop : dr_ops m' = dr_ops m) (Hbf : dr_bufs m' = dr_bufs m).

Let C := C1 ++ C2.

Lemma finish_all : mjoin (chain <$> C1 ++ (i0, i1, i2) :: C2) ≡ₚ [i0; i1; i2] ++ mjoin (chain <$> C).
Proof. subst C. rewrite !fmap_app, !join_app. cbn. solve_Permutation. Qed.

Lemma finish_disjoint i c : c ∈ C -> i ∈ chain c -> i ∉ [i0; i1; i2].
Proof.
  intros Hc Hi Hd. pose proof (ow_nodup _ _ _ HO) as Hnd. rewrite finish_all in Hnd. apply NoDup_app in Hnd as (_ & Hnd & _). apply (Hnd i Hd), list_elem_of_join. exists (chain c). split; [done|by apply list_elem_of_fmap_2].
Qed.

Lemma finish_call j : alter (fun _ => VIdle) me cs !! j = (if decide (j = me) then Some VIdle else cs !! j).
Proof. case_decide as E; [subst j; by rewrite list_lookup_alter_eq, Hme|by rewrite list_lookup_alter_ne]. Qed.

Lemma finish_wait j b' w' h : j <> me -> cs !! j = Some (VWait b' w' h) -> exists j1 j2, (h, j1, j2) ∈ C /\ formatted m' b' w' h j1 j2.
Proof.
  intros Hj E. destruct (ow_wait _ _ _ HO _ _ _ _ E) as (j1 & j2 & Hc & HF). assert (h <> i0) as Hh. { intros ->. apply Hj. by apply (head_unique _ _ _ _ _ _ _ _ _ _ HO E Hme). }
  assert ((h, j1, j2) ∈ C) as Hc'. { subst C. rewrite elem_of_app, elem_of_cons in Hc. rewrite elem_of_app. destruct Hc as [?|[[=]|?]]; tauto. }
  exists j1, j2. split; [done|]. apply (formatted_frame m); try done; [|by rewrite Hop|rewrite Hin, list_lookup_alter_ne by done; done|by rewrite Hbf].
  intros i Hi. apply Hds. by apply (finish_disjoint i _ Hc').
Qed.

Lemma finish_owned : owned m' (alter (fun _ => VIdle) me cs) C.
Proof.
  destruct (ow_len _ _ _ HO) as (L1 & L2 & L3 & L4). pose proof (ow_nodup _ _ _ HO) as Hnd. rewrite finish_all in Hnd. apply NoDup_app in Hnd as (_ & Hdj & Hnd). split.
  - rewrite Hin, length_alter, Hop. done.
  - done.
  - intros i Hi. rewrite Hfr, (ow_free _ _ _ HO i Hi). case_decide as Hd; cbn; f_equal.
    + symmetry. apply bool_decide_true. by apply Hdj.
    + apply bool_decide_ext. rewrite finish_all, elem_of_app. tauto.
  - intros i Hi. apply (ow_bound _ _ _ HO). rewrite finish_all, elem_of_app. tauto.
  - intros j b' w' h. rewrite finish_call. case_decide as Ej; [done|]. by apply finish_wait.
  - intros h j1 j2 Hc. destruct (ow_chain _ _ _ HO h j1 j2) as (j & b' & w' & E); [subst C; rewrite elem_of_app in Hc; rewrite elem_of_app, elem_of_cons; tauto|]. exists j, b', w'. rewrite finish_call, decide_False; [done|].
    intros ->. rewrite Hme in E. injection E as _ _ Eh. apply (finish_disjoint h _ Hc); [left|]. rewrite <- Eh. left.
  - intros j b' w' sec. rewrite finish_call. case_decide; [done|]. rewrite Hbf. apply (ow_want _ _ _ HO).
  - intros j j' c c' b' E E' Ec Ec'. rewrite finish_call in E, E'. repeat case_decide; simplify_eq; try done. by eapply (ow_buf _ _ _ HO).
  - intros b'. rewrite Hbf. apply (ow_blockno _ _ _ HO).
Qed.

Lemma finish_queued d Q U : queued m d cs Q U -> i0 ∉ Q ++ dv_work d ++ U -> dr_avail m' = dr_avail m -> dr_avail_idx m' = dr_avail_idx m ->
  dr_used m' = dr_used m -> dr_dev_idx m' = dr_dev_idx m -> dr_used_idx m' = dr_used_idx m -> queued m' d (alter (fun _ => VIdle) me cs) Q U.
Proof.
  intros [Q1 Q2 Q3 Q4 Q5] Hni Ea Eai Eu Ed Eui. split; [congruence|congruence|done|..].
  - intros h. rewrite Q4, Hbf. split; intros (j & b' & w' & E & Hb); exists j, b', w'; (split; [|done]); rewrite finish_call in *; case_decide as Ej; try done.
    subst j. rewrite Hme in E. injection E as <- <- <-. destruct Hni. apply Q4. by exists me, b, w.
  - intros h Hh. assert (h <> i0) by (intros ->; apply Hni; rewrite !elem_of_app; tauto). rewrite Hin, list_lookup_alter_ne by done. by apply Q5.
Qed.
End Finish.

(** The answer is there: the chain is given back and the call returns. *)
Lemma wait_returns me b w i s x C Q U : vrel s x C Q U -> v_ths s !! me = Some (mkVt None (VWait b w i)) -> vb_disk <$> dr_bufs (v_drv s) !! b = Some false ->
  exists s' C', rw_wait me b w i s = Ok VIdle s' /\ x.2 !! me = Some (ADone b w) /\ vrel (set_vcall me VIdle s') (x.1, <[me := AIdle]> x.2) C' Q U.
Proof.
  intros [HO HQ HA HS Hc] Et Hb. assert ((vt_call <$> v_ths s) !! me = Some (VWait b w i)) as Eme by (by rewrite list_lookup_fmap, Et).
  assert (i ∉ Q ++ dv_work (v_dev s) ++ U) as Hni.
  { intros (me' & b' & w' & E & Hb')%(qu_mem _ _ _ _ _ HQ). destruct (head_unique _ _ _ _ _ _ _ _ _ _ HO E Eme) as (_ & -> & _). congruence. }
  destruct (ow_wait _ _ _ HO _ _ _ _ Eme) as (i1 & i2 & Hin & HF). pose proof (fun j => chain_not_free _ _ _ j _ HO Hin) as Hnf. destruct (ow_len _ _ _ HO) as (L1 & L2 & _).
  assert (NoDup [i; i1; i2]) as Hnd. { destruct (list_elem_of_split _ _ Hin) as (C1 & C2 & ->). pose proof (ow_nodup _ _ _ HO) as Hnd. rewrite finish_all in Hnd. by apply NoDup_app in Hnd as (? & _). }
  set (s1 := mkV (set_info (alter (fun x => mkInfo None (in_status x)) i (dr_info (v_drv s))) (v_drv s)) (v_dev s) (v_ths s)).
  destruct (free_chain_run (v_drv s) b w i i1 i2 s1 HF eq_refl L2 Hnd Hnf) as (s' & E & [(fr & ds & Ed & Lf & Lds & F1 & F2) Edv HL Hwk]).
  destruct (list_elem_of_split _ _ Hin) as (C1 & C2 & ->). exists s', (C1 ++ C2). split; [|split].
  - unfold rw_wait, getdrv, updrv. mstep. destruct (dr_bufs (v_drv s) !! b) as [vb|]; [|done]. injection Hb as Hb. cbn [fmap option_fmap option_map default from_option id]. rewrite Hb. cbv iota. mstep. by mrun E.
  - rewrite Hc, list_lookup_fmap, Eme. cbn. rewrite decide_False; [done|]. rewrite !elem_of_app in Hni. rewrite elem_of_app. tauto.
  - pose proof (calls_set me VIdle s') as Ecs. rewrite (less_asleep_calls _ _ HL) in Ecs. change (v_ths s1) with (v_ths s) in *. split; rewrite ?Ecs; cbn [v_drv v_dev set_vcall fst snd]; rewrite ?Edv, ?Ed.
    + apply (finish_owned (v_drv s) _ _ C1 C2 me b w i i1 i2); try done.
      * exact (eq_trans Lds L1).
      * exact (eq_trans Lf L2).
    + by apply (finish_queued (v_drv s) _ _ me b w i).
    + intros j t c Ej Ec. cbn [v_ths set_vcall] in Ej. destruct (decide (j = me)) as [->|Hne].
      * rewrite list_lookup_alter_eq in Ej. destruct (v_ths s' !! me) as [t'|] eqn:Et'; [|done]. injection Ej as <-. cbn in Ec. destruct (less_asleep_lookup _ _ _ _ _ HL Et' Ec) as (t0 & E0 & Ec0 & _). change (v_ths s1) with (v_ths s) in E0. rewrite Et in E0. injection E0 as <-. done.
      * rewrite list_lookup_alter_ne in Ej by done. pose proof (Hwk j t ltac:(done) Ej) as Hcf. destruct (less_asleep_lookup _ _ _ _ _ HL Ej Ec) as (t0 & E0 & Ec0 & Ecl). specialize (HA j t0 c E0 Ec0). rewrite Ecl. destruct (vt_call t0); try done. destruct HA as [-> _]. congruence.
    + destruct HS as [S1 S2]. split; [exact S1|exact S2].
    + rewrite Hc. apply list_eq. intros j. rewrite list_lookup_fmap, (finish_call _ _ _ _ _ Eme). case_decide as Ej; [subst j; rewrite list_lookup_insert_eq; [done|rewrite length_fmap; by apply lookup_lt_Some in Eme]|]. by rewrite list_lookup_insert_ne, list_lookup_fmap.
Qed.

Lemma rw_wait_run me b w i s x C Q U : vrel s x C Q U -> v_ths s !! me = Some (mkVt None (VWait b w i)) ->
  exists c s' x' C', rw_wait me b w i s = Ok c s' /\ runs astep x (returns me b w c) x' /\ vrel (set_vcall me c s') x' C' Q U.
Proof.
  intros HR Et. destruct (vb_disk <$> dr_bufs (v_drv s) !! b) as [[]|] eqn:Hb.
  - exists (VWait b w i), (mkV (v_drv s) (v_dev s) (alter (fun t => mkVt (Some (ch_buf b)) (vt_call t)) me (v_ths s))), x, C. split.
    { unfold rw_wait, getdrv. mstep. rewrite Hb. done. }
    split; [constructor|]. destruct HR as [HO HQ HA HS Hc]. change (set_vcall _ _ _) with (dozing me (ch_buf b) (VWait b w i) (v_drv s) (v_dev s) (v_ths s)).
    assert (vt_call <$> v_ths (dozing me (ch_buf b) (VWait b w i) (v_drv s) (v_dev s) (v_ths s)) = vt_call <$> v_ths s) as Ecs.
    { rewrite (dozing_calls _ _ _ _ _ _ _ (less_asleep_refl (v_ths s))). apply list_eq. intros j. destruct (decide (j = me)) as [->|]; [by rewrite list_lookup_alter_eq, !list_lookup_fmap, Et|by rewrite list_lookup_alter_ne]. }
    split; rewrite ?Ecs; try done. apply (dozing_asleep me _ _ _ (v_dev s) (v_ths s) (v_ths s) (VWait b w i) (v_drv s)); try done.
    cbn [set_vcall v_ths]. replace (alter _ me (v_ths s)) with (v_ths s); [done|]. apply list_eq. intros j. destruct (decide (j = me)) as [->|]; [by rewrite list_lookup_alter_eq, Et|by rewrite list_lookup_alter_ne].
  - destruct (wait_returns _ _ _ _ _ _ _ _ _ HR Et Hb) as (s' & C' & E & Ex & HR'). exists VIdle, s', (x.1, <[me := AIdle]> x.2), C'. split; [done|]. split; [|done]. destruct x as [x0 cs]. apply runs_one. by apply a_return.
  - exfalso. destruct (ow_wait _ _ _ (vr_owned _ _ _ _ _ HR) me b w i) as (i1 & i2 & _ & HF); [by rewrite list_lookup_fmap, Et|]. destruct (fm_op _ _ _ _ _ _ HF) as (vb & E & _). by rewrite E in Hb.
Qed.

(** * Simulation *)

Lemma not_busy b s : ~ busy b s -> forall j c, (vt_call <$> v_ths s) !! j = Some c -> call_buf c <> Some b.
Proof. intros Hnb j c Ej Ecb. apply Hnb. rewrite list_lookup_fmap in Ej. destruct (v_ths s !! j) as [t|] eqn:Et; [|done]. injection Ej as <-. by exists j, t. Qed.

Lemma call_enters me b w s x C Q U vb : vrel s x C Q U -> vt_call <$> v_ths s !! me = Some VIdle -> ~ busy b s -> dr_bufs (v_drv s) !! b = Some vb ->
  astep x [EvCall me b w] (x.1, <[me := APending b w]> x.2) /\ vrel (set_vcall me (VWant b w (sector_of (vb_blockno vb))) s) (x.1, <[me := APending b w]> x.2) C Q U.
Proof.
  intros [HO HQ HA HS Hc] Eme Hnb Eb. set (k := VWant b w (sector_of (vb_blockno vb))). destruct (v_ths s !! me) as [t|] eqn:Et; [|done]. injection Eme as Eme.
  assert ((vt_call <$> v_ths s) !! me = Some VIdle) as Ei by (by rewrite list_lookup_fmap, Et; cbn; rewrite Eme).
  assert (x.2 !! me = Some AIdle) as Ex by (by rewrite Hc, list_lookup_fmap, Ei). split; [destruct x; by apply a_call|].
  assert (forall j, vt_call <$> v_ths (set_vcall me k s) !! j = (if decide (j = me) then Some k else (vt_call <$> v_ths s) !! j)) as Ecs.
  { intros j. rewrite <- list_lookup_fmap, calls_set. case_decide as Ej; [subst j; by rewrite list_lookup_alter_eq, Ei|by rewrite list_lookup_alter_ne]. }
  pose proof (not_busy b s Hnb) as Hoth.
  assert (forall j b' w' h, (vt_call <$> v_ths (set_vcall me k s)) !! j = Some (VWait b' w' h) <-> (vt_call <$> v_ths s) !! j = Some (VWait b' w' h)) as Hwait.
  { intros j b' w' h. rewrite list_lookup_fmap, Ecs. case_decide as Ej; [|done]. subst j. rewrite Ei. done. }
  split; cbn [v_drv v_dev set_vcall fst snd].
  - destruct HO as [? ? ? ? Hw Hch Hwt Hbuf ?]. split; try done.
    + intros j b' w' h Hj. apply (Hw j), Hwait, Hj.
    + intros h i1 i2 Hin. destruct (Hch _ _ _ Hin) as (j & b' & w' & E). exists j, b', w'. by apply Hwait.
    + intros j b' w' sec. rewrite list_lookup_fmap, Ecs. case_decide; [|apply Hwt]. intros [= <- <- <-]. by exists vb.
    + intros j j' c c' b'. rewrite !list_lookup_fmap, !Ecs. repeat case_decide; intros; simplify_eq/=; try done; [|..]; [by edestruct Hoth|by edestruct Hoth|by eapply Hbuf].
  - destruct HQ as [? ? ? Hm ?]. split; try done. intros h. rewrite Hm. by setoid_rewrite Hwait.
  - intros j t' c Ej Ec. cbn [v_ths set_vcall] in Ej. destruct (decide (j = me)) as [->|Hne].
    + rewrite list_lookup_alter_eq, Et in Ej. injection Ej as <-. cbn in Ec. specialize (HA me t c Et Ec). by rewrite Eme in HA.
    + rewrite list_lookup_alter_ne in Ej by done. by apply (HA j t' c).
  - done.
  - rewrite Hc. apply list_eq. intros j. rewrite list_lookup_fmap, list_lookup_fmap, Ecs. case_decide as Ej; [subst j; by rewrite list_lookup_insert_eq by (rewrite length_fmap; by apply lookup_lt_Some in Ei)|]. by rewrite list_lookup_insert_ne, list_lookup_fmap.
Qed.

Lemma edit_shows b n d s x C Q U : vrel s x C Q U -> ~ busy b s -> 0 <= n < 2 ^ 31 ->
  vrel (mkV (set_bufs (alter (fun v => mkVbuf n (vb_disk v) d) b (dr_bufs (v_drv s))) (v_drv s)) (v_dev s) (v_ths s)) (updf b (fun v => set_data d (set_id (b_dev v) n v)) x.1, x.2) C Q U.
Proof.
  intros [HO HQ HA HS Hc] Hnb Hn. set (bs := alter _ b (dr_bufs (v_drv s))).
  pose proof (not_busy b s Hnb) as Hoth.
  assert (forall b', vb_disk <$> bs !! b' = vb_disk <$> dr_bufs (v_drv s) !! b') as Hdk by (intros b'; rewrite <- !list_lookup_fmap; subst bs; by rewrite fmap_alter_same).
  split; cbn [v_drv v_dev v_ths fst snd]; try done.
  - destruct HO as [? ? ? ? Hw ? Hwt ? Hbn]. split; try done.
    + intros j b' w' h Ej. destruct (Hw _ _ _ _ Ej) as (i1 & i2 & Hin & HF). exists i1, i2. split; [done|]. apply (formatted_frame (v_drv s)); try done. cbn. subst bs. rewrite list_lookup_alter_ne; [done|]. intros <-. by apply (Hoth _ _ Ej).
    + intros j b' w' sec Ej. cbn. subst bs. rewrite list_lookup_alter_ne; [by apply (Hwt _ _ _ _ Ej)|]. intros <-. by apply (Hoth _ _ Ej).
    + intros b' vb. cbn. subst bs. destruct (decide (b' = b)) as [->|]; [|rewrite list_lookup_alter_ne by done; apply Hbn]. rewrite list_lookup_alter_eq. destruct (dr_bufs (v_drv s) !! b); [|done]. intros [= <-]. done.
  - destruct HQ as [? ? ? Hm ?]. split; try done. intros h. rewrite Hm. cbn. by setoid_rewrite Hdk.
  - intros j t c Ej Ec. specialize (HA j t c Ej Ec). destruct (vt_call t); try done. cbn. by rewrite Hdk.
  - destruct HS as [S1 S2]. split; [|done]. cbn [dr_bufs set_bufs updf with_bufs bc_bufs]. apply list_eq. intros j. assert (forall j, (fun v => (vb_blockno v, vb_data v)) <$> dr_bufs (v_drv s) !! j = (fun v => (b_blockno v, b_data v)) <$> bc_bufs x.1 !! j) as S1' by (intros j'; by rewrite <- !list_lookup_fmap, S1).
    subst bs. rewrite !list_lookup_fmap. specialize (S1' j). destruct (decide (j = b)) as [->|]; [|by rewrite !list_lookup_alter_ne]. rewrite !list_lookup_alter_eq. destruct (dr_bufs (v_drv s) !! b), (bc_bufs x.1 !! b); done.
Qed.

Lemma set_vcall_same me k s : vt_call <$> v_ths s !! me = Some k -> set_vcall me k s = s.
Proof.
  intros E. destruct s as [m d ths]. unfold set_vcall. cbn [v_drv v_dev v_ths] in *. f_equal. apply list_eq. intros j. destruct (decide (j = me)) as [->|]; [|by rewrite list_lookup_alter_ne].
  rewrite list_lookup_alter_eq. destruct (ths !! me) as [[]|]; [|done]. by injection E as <-.
Qed.

Lemma rw_call_run me b w s x C Q U vb : vrel s x C Q U -> vt_call <$> v_ths s !! me = Some VIdle -> ~ busy b s -> dr_bufs (v_drv s) !! b = Some vb ->
  exists c s' x' C' Q', virtio_disk_rw me b w s = Ok c s' /\ runs astep x (EvCall me b w :: returns me b w c) x' /\ vrel (set_vcall me c s') x' C' Q' U.
Proof.
  intros HR Eme Hnb Eb. destruct (call_enters me b w s x C Q U vb HR Eme Hnb Eb) as [Ha HR1].
  destruct (rw_alloc_run _ _ _ _ _ _ _ _ _ HR1) as (c & s' & C' & Q' & E & Hc & HR2). { destruct (v_ths s !! me) as [t|] eqn:Et; [|done]. by apply lookup_lt_Some in Et. }
  exists c, s', (x.1, <[me := APending b w]> x.2), C', Q'. split; [unfold virtio_disk_rw, getdrv; mstep; by rewrite Eb|]. split; [|done]. destruct c; [done|..]; by apply runs_one.
Qed.

Lemma simulate s x C Q U l s' : vrel s x C Q U -> vstep s l s' -> exists x' C' Q' U', runs astep x l x' /\ vrel s' x' C' Q' U'.
Proof.
  intros HR Hs. destruct Hs as [me b w s c s' Eme Hnb Hb E|me b w sec s c s' Et E|me b w i s c s' Et E|me s|s d' m' Hd|s s' E|b n d s Hnb Hn].
  - apply lookup_lt_is_Some_2 in Hb as [vb Eb]. destruct (rw_call_run me b w s x C Q U vb HR Eme Hnb Eb) as (c' & s1 & x' & C' & Q' & E1 & Hr & HR'). rewrite E in E1. injection E1 as <- <-. by exists x', C', Q', U.
  - rewrite <- (set_vcall_same me (VWant b w sec) s) in HR by (by rewrite Et). destruct (rw_alloc_run _ _ _ _ _ _ _ _ _ HR) as (c' & s1 & C' & Q' & E1 & Hc & HR'); [by apply lookup_lt_Some in Et|]. cbn [resume] in E. rewrite E in E1. injection E1 as <- <-.
    exists x, C', Q', U. split; [|done]. destruct c; [done|..]; constructor.
  - destruct (rw_wait_run _ _ _ _ _ _ _ _ _ HR Et) as (c' & s1 & x' & C' & E1 & Hr & HR'). cbn [resume] in E. rewrite E in E1. injection E1 as <- <-. by exists x', C', Q, U.
  - exists x, C, Q, U. split; [constructor|]. destruct HR as [HO HQ HA HS Hc]. set (ths := alter _ me (v_ths s)).
    assert (less_asleep (v_ths s) ths) as HL.
    { apply Forall2_same_length_lookup_2; [subst ths; by rewrite length_alter|]. intros j t t' Ej Ej'. subst ths. destruct (decide (j = me)) as [->|]; [rewrite list_lookup_alter_eq, Ej in Ej'; injection Ej' as <-; cbn; auto|]. rewrite list_lookup_alter_ne in Ej' by done. rewrite Ej in Ej'. injection Ej' as <-. auto. }
    split; cbn [v_drv v_dev v_ths]; rewrite ?(less_asleep_calls _ _ HL); try done. by apply (asleep_less _ (v_ths s)).
  - destruct (dv_law _ _ _ _ Hd) as [(Hne & -> & Ed & Es & Ew)|(h & l1 & l2 & Ew & Hm)].
    + destruct (device_takes _ _ _ _ _ _ HR Hne Ed Es Ew) as (Q' & HR'). exists x, C, Q', U. split; [constructor|done].
    + destruct (device_answers _ _ _ _ _ _ _ _ _ _ HR Ew Hm) as (x' & Ha & HR'). exists x', C, Q, (U ++ [h]). split; [by apply runs_one|done].
  - destruct (intr_run _ _ _ _ _ HR) as (s1 & E1 & HR'). rewrite E in E1. injection E1 as <-. exists x, C, Q, []. split; [constructor|done].
  - eexists _, C, Q, U. split; [|by apply edit_shows]. destruct x as [x cs]. apply runs_one, a_edit.
Qed.

(** No section of the driver panics. *)
Definition all_run (s : vst) : Prop :=
  (forall me b w, vt_call <$> v_ths s !! me = Some VIdle -> ~ busy b s -> (b < length (dr_bufs (v_drv s)))%nat -> exists c s', virtio_disk_rw me b w s = Ok c s') /\
  (forall me k, v_ths s !! me = Some (mkVt None k) -> exists c s', resume me k s = Ok c s') /\
  exists s', virtio_disk_intr s = Ok tt s'.

Lemma vrel_runs s x C Q U : vrel s x C Q U -> all_run s.
Proof.
  intros HR. split; [|split].
  - intros me b w Eme Hnb [vb Eb]%lookup_lt_is_Some_2. destruct (rw_call_run me b w s x C Q U vb HR Eme Hnb Eb) as (c & s1 & _ & _ & _ & E & _). eauto.
  - intros me [|b w sec|b w i] Et; cbn [resume]; [eauto|..].
    + rewrite <- (set_vcall_same me (VWant b w sec) s) in HR by (by rewrite Et). destruct (rw_alloc_run _ _ _ _ _ _ _ _ _ HR) as (c & s1 & _ & _ & E & _); [by apply lookup_lt_Some in Et|]. eauto.
    + destruct (rw_wait_run _ _ _ _ _ _ _ _ _ HR Et) as (c & s1 & _ & _ & E & _). eauto.
  - destruct (intr_run _ _ _ _ _ HR) as (s1 & E & _). eauto.
Qed.

(** Somebody can go on: a process in the driver is awake, the device has a
    request, or an answer waits for the interrupt handler. *)
Definition goes_on (s : vst) : Prop :=
  (exists me t, v_ths s !! me = Some t /\ vt_call t <> VIdle /\ vt_chan t = None) \/
  dv_seen (v_dev s) <> dr_avail_idx (v_drv s) \/ dv_work (v_dev s) <> [] \/ dr_used_idx (v_drv s) <> dr_dev_idx (v_drv s).

Lemma wait_goes_on s x C Q U me t b w i : vrel s x C Q U -> v_ths s !! me = Some t -> vt_call t = VWait b w i -> goes_on s.
Proof.
  intros [HO [Q1 Q2 Q3 Q4 Q5] HA HS Hc] Et Ek. destruct (vt_chan t) as [c|] eqn:Ec; [|left; exists me, t; by rewrite Ek]. right. specialize (HA me t c Et Ec). rewrite Ek in HA. destruct HA as [_ Hb].
  assert (i ∈ Q ++ dv_work (v_dev s) ++ U) as Hi. { apply Q4. exists me, b, w. by rewrite list_lookup_fmap, Et; cbn; rewrite Ek. }
  pose proof (ring_empty _ _ _ _ Q1) as E1. pose proof (ring_empty _ _ _ _ Q2) as E2. rewrite !elem_of_app in Hi. destruct Hi as [Hi|[Hi|Hi]].
  - left. intros E. apply Z.eqb_eq in E. rewrite E in E1. symmetry in E1. apply bool_decide_eq_true in E1. subst. by apply not_elem_of_nil in Hi.
  - right. left. intros E. rewrite E in Hi. by apply not_elem_of_nil in Hi.
  - right. right. intros E. apply Z.eqb_eq in E. rewrite E in E2. symmetry in E2. apply bool_decide_eq_true in E2. subst. by apply not_elem_of_nil in Hi.
Qed.

Lemma vrel_goes_on s x C Q U me t : vrel s x C Q U -> v_ths s !! me = Some t -> vt_call t <> VIdle -> goes_on s.
Proof.
  intros HR Et Hk. destruct (vt_call t) as [|b w sec|b w i] eqn:Ek; [done| |by eapply wait_goes_on].
  destruct (vt_chan t) as [c|] eqn:Ec; [|left; exists me, t; by rewrite Ek]. pose proof (vr_asleep _ _ _ _ _ HR me t c Et Ec) as Hs. rewrite Ek in Hs. destruct Hs as [_ Hn]. pose proof (vr_owned _ _ _ _ _ HR) as HO. destruct C as [|[[h i1] i2] C].
  - exfalso. assert (dr_free (v_drv s) = replicate NUM true) as E; [|rewrite E in Hn; vm_compute in Hn; lia]. destruct (ow_len _ _ _ HO) as (_ & L & _). apply list_eq. intros i. destruct (decide (i < NUM)%nat).
    + rewrite (ow_free _ _ _ HO i), lookup_replicate_2 by done. done.
    + rewrite lookup_ge_None_2 by lia. symmetry. apply lookup_replicate_None. lia.
  - destruct (ow_chain _ _ _ HO h i1 i2 ltac:(left)) as (me' & b' & w' & E). rewrite list_lookup_fmap in E. destruct (v_ths s !! me') as [t'|] eqn:Et'; [|done]. injection E as E. by eapply wait_goes_on.
Qed.

(** * Start *)

(** The static data of the driver, the processes and a reset device. *)
Record static (s : vst) : Prop := {
  sc_len : length (dr_free (v_drv s)) = NUM /\ length (dr_info (v_drv s)) = NUM /\ length (dr_ops (v_drv s)) = NUM;
  sc_idx : dr_used_idx (v_drv s) = 0 /\ dv_seen (v_dev s) = 0 /\ dv_work (v_dev s) = [];
  sc_bufs b vb : dr_bufs (v_drv s) !! b = Some vb -> 0 <= vb_blockno vb < 2 ^ 31;
  sc_ths : Forall (fun t => t = mkVt None VIdle) (v_ths s)
}.

(** The registers of a block device with a queue that is long enough. *)
Record is_disk (d : D) : Prop := {
  id_magic l : u32 (dv_reg 0x0 l d) = 0x74726976;
  id_version l : u32 (dv_reg 0x4 l d) = 2;
  id_device l : u32 (dv_reg 0x8 l d) = 2;
  id_vendor l : u32 (dv_reg 0xc l d) = 0x554d4551;
  id_status l : u32 (dv_reg 0x70 (l ++ [(0x70, 11)]) d) = 11;
  id_ready l : u32 (dv_reg 0x44 l d) = 0;
  id_max l : Z.of_nat NUM <= u32 (dv_reg 0x34 l d)
}.

Definition ready (m : drv) : drv :=
  set_free (replicate NUM true) (set_dev_idx 0 (set_used (replicate NUM 0%nat) (set_avail_idx 0 (set_avail (replicate NUM 0%nat) (set_desc (replicate NUM (mkDesc a_null 0 0 0)) m))))).

Lemma ondrv_wreg {A} r v (f : unit -> M (vst * kmem) A) l m (d : D) ths k :
  (ondrv (wreg r v) ≫= f) (mkV (set_mmio l m) d ths, k) = f tt (mkV (set_mmio (l ++ [(r, u32 v)]) m) d ths, k).
Proof. done. Qed.
Lemma ondrv_wreg_last r v l m (d : D) ths k : ondrv (wreg r v) (mkV (set_mmio l m) d ths, k) = Ok tt (mkV (set_mmio (l ++ [(r, u32 v)]) m) d ths, k).
Proof. done. Qed.
Lemma ondrv_rreg {A} r (f : Z -> M (vst * kmem) A) l m (d : D) ths k :
  (ondrv (rreg r) ≫= f) (mkV (set_mmio l m) d ths, k) = f (u32 (dv_reg r l d)) (mkV (set_mmio l m) d ths, k).
Proof. done. Qed.
Lemma ondrv_updrv {A} g (f : unit -> M (vst * kmem) A) l m (d : D) ths k : (forall l m, g (set_mmio l m) = set_mmio l (g m)) ->
  (ondrv (updrv g) ≫= f) (mkV (set_mmio l m) d ths, k) = f tt (mkV (set_mmio l (g m)) d ths, k).
Proof. intros Hg. rewrite <- Hg. done. Qed.
Lemma onmem_kalloc {A} (f : Z -> M (vst * kmem) A) s k a k' : kalloc k = Ok a k' -> (onmem kalloc ≫= f) (s, k) = f a (s, k').
Proof. intros E. unfold onmem, zoom, mbind, M_bind. cbn. by rewrite E. Qed.
Lemma mark_all {A} (f : unit -> M (vst * kmem) A) l m (d : D) ths k : length (dr_free m) = NUM ->
  (for_each (seq 0 NUM) (fun i => ondrv (updrv (fun m => set_free (<[i := true]> (dr_free m)) m))) ≫= f) (mkV (set_mmio l m) d ths, k) = f tt (mkV (set_mmio l (set_free (replicate NUM true) m)) d ths, k).
Proof. intros Hl. destruct m as [? ? ? ? ? fr ? ? ? ? ?]. cbn in Hl. do 9 (destruct fr as [|? fr]; try discriminate Hl). reflexivity. Qed.

Lemma disk_init_run kend (s : vst) k p1 p2 p3 l : 0 < kend -> is_disk (v_dev s) -> length (dr_free (v_drv s)) = NUM -> kmem_rel kend k (p1 :: p2 :: p3 :: l) ->
  exists w k', virtio_disk_init (s, k) = Ok tt (mkV (set_mmio w (ready (v_drv s))) (v_dev s) (v_ths s), k') /\ kmem_rel kend k' l.
Proof.
  intros Hk [I1 I2 I3 I4 I5 I6 I7] Hl HK. assert (forall p, page_ok kend p -> (p =? 0) = false) as Hp by (intros p [_ ?]; apply Z.eqb_neq; lia).
  pose proof (linked_ok _ _ _ _ (kr_list _ _ _ HK)) as HF. apply Forall_cons in HF as [P1 HF]. apply Forall_cons in HF as [P2 HF]. apply Forall_cons in HF as [P3 _].
  destruct (kalloc_run kend Hk _ _ HK) as (k1 & E1 & HK1 & _). destruct (kalloc_run kend Hk _ _ HK1) as (k2 & E2 & HK2 & _). destruct (kalloc_run kend Hk _ _ HK2) as (k3 & E3 & HK3 & _).
  destruct s as [m d ths]. cbn [v_drv v_dev v_ths] in *. assert (mkV m d ths = mkV (set_mmio (dr_mmio m) m) d ths) as -> by (by destruct m).
  eexists _, k3. split; [|exact HK3]. unfold virtio_disk_init. rewrite !ondrv_rreg, I1, I2, I3, I4. cbn [Z.eqb Pos.eqb negb orb].
  rewrite !ondrv_wreg, ondrv_rreg, !ondrv_wreg, ondrv_rreg, I5. change (Z.land 11 VIRTIO_CONFIG_S_FEATURES_OK =? 0) with false. cbv iota. rewrite ondrv_wreg, ondrv_rreg, I6. change (negb (0 =? 0)) with false. cbv iota.
  rewrite ondrv_rreg. match goal with |- context [dv_reg 0x34 ?w d] => pose proof (I7 w) as Hmax end. rewrite (proj2 (Z.eqb_neq _ _)) by (unfold NUM in Hmax; lia). rewrite (proj2 (Z.ltb_ge _ _)) by exact Hmax.
  rewrite (onmem_kalloc _ _ _ _ _ E1), (onmem_kalloc _ _ _ _ _ E2), (onmem_kalloc _ _ _ _ _ E3), !Hp by done. cbn [orb]. rewrite !ondrv_updrv by done. rewrite !ondrv_wreg, mark_all by done. apply ondrv_wreg_last.
Qed.

Lemma ready_vrel w s x : static s -> shows (v_drv s) (v_dev s) x -> vrel (mkV (set_mmio w (ready (v_drv s))) (v_dev s) (v_ths s)) (x, (fun _ => AIdle) <$> v_ths s) [] [] [].
Proof.
  intros [(L1 & L2 & L3) (I1 & I2 & I3) Hb Ht] [S1 S2].
  assert (forall me t, v_ths s !! me = Some t -> t = mkVt None VIdle) as Ht' by (intros me t Et; exact (Forall_lookup_1 _ _ _ _ Ht Et)).
  assert (forall me c, (vt_call <$> v_ths s) !! me = Some c -> c = VIdle) as Hc. { intros me c E. rewrite list_lookup_fmap in E. destruct (v_ths s !! me) as [t|] eqn:Et; [|done]. injection E as <-. by rewrite (Ht' _ _ Et). }
  split; cbn [v_drv v_dev v_ths fst snd].
  - split; try done.
    + constructor.
    + intros i Hi. change (replicate NUM true !! i = Some true). by apply lookup_replicate_2.
    + intros i Hi. by apply not_elem_of_nil in Hi.
    + intros me b w' h E. by apply Hc in E.
    + intros h i1 i2 Hin. by apply not_elem_of_nil in Hin.
    + intros me b w' sec E. by apply Hc in E.
    + intros me me' c c' b E _ Eb. apply Hc in E. by subst.
  - assert (ring_ok (replicate NUM 0%nat) 0 0 []) as Hr by (split; try done; try (unfold NUM; cbn; lia); intros j h Hj; by rewrite lookup_nil in Hj). split; rewrite ?I2, ?I3; try done.
    + change (ring_ok (replicate NUM 0%nat) (dr_used_idx (v_drv s)) 0 []). by rewrite I1.
    + constructor.
    + intros h. split; [intros Hh; by apply not_elem_of_nil in Hh|]. intros (me & b & w' & E & _). by apply Hc in E.
    + intros h Hh. by apply not_elem_of_nil in Hh.
  - intros me t c Et Ec. apply Ht' in Et. by subst.
  - by split.
  - rewrite I3. apply list_eq. intros i. rewrite !list_lookup_fmap. destruct (v_ths s !! i) as [t|] eqn:Et; [|done]. by rewrite (Ht' _ _ Et).
Qed.

Lemma runs_vrel s x C Q U evs s' : vrel s x C Q U -> runs vstep s evs s' -> exists x' C' Q' U', runs astep x evs x' /\ vrel s' x' C' Q' U'.
Proof.
  intros HR Hs. induction Hs as [s|s l s1 l' s2 Hs IH Hstep]; [exists x, C, Q, U; split; [constructor|done]|].
  destruct (IH HR) as (x1 & C1 & Q1 & U1 & Hx & HR1). destruct (simulate _ _ _ _ _ _ _ HR1 Hstep) as (x2 & C2 & Q2 & U2 & Hx2 & HR2). exists x2, C2, Q2, U2. split; [by eapply runs_app|done].
Qed.

(** C4: from the boot of the kernel on, however processes, the device, its
    interrupts and kills are interleaved, the driver behaves like a disk that
    carries out each request in one step between the call of [virtio_disk_rw]
    and its return, with exactly the effect that the buffer cache relies on:
    the calls, the returns and the contents of buffers and disk are those of
    such a run.  The driver never panics: no descriptor is given back twice, and
    every answer belongs to a request. *)
Theorem virtio_refines_disk kend (s0 : vst) k p1 p2 p3 l x : 0 < kend -> is_disk (v_dev s0) -> static s0 -> kmem_rel kend k (p1 :: p2 :: p3 :: l) ->
  shows (v_drv s0) (v_dev s0) x ->
  exists s1 k1, virtio_disk_init (s0, k) = Ok tt (s1, k1) /\
    forall evs s, runs vstep s1 evs s ->
      all_run s /\ exists x' cs, runs astep (x, (fun _ => AIdle) <$> v_ths s0) evs (x', cs) /\ shows (v_drv s) (v_dev s) x'.
Proof.
  intros Hk Hd Hs HK Hx. destruct (disk_init_run kend s0 k p1 p2 p3 l Hk Hd (proj1 (sc_len _ Hs)) HK) as (w & k1 & E & _). eexists _, k1. split; [exact E|]. intros evs s Hr.
  destruct (runs_vrel _ _ _ _ _ _ _ (ready_vrel w s0 x Hs Hx) Hr) as ([x' cs] & C & Q & U & Hx' & HR). split; [by eapply vrel_runs|]. exists x', cs. split; [done|]. by apply (vr_shows _ _ _ _ _ HR).
Qed.

(** C32: while a process is in the driver, somebody can go on: a
    process in the driver is awake, the device has a request to take or to
    finish, or an answer waits for the interrupt handler.  No wakeup is lost. *)
Theorem virtio_no_deadlock kend (s0 : vst) k p1 p2 p3 l x : 0 < kend -> is_disk (v_dev s0) -> static s0 -> kmem_rel kend k (p1 :: p2 :: p3 :: l) ->
  shows (v_drv s0) (v_dev s0) x ->
  exists s1 k1, virtio_disk_init (s0, k) = Ok tt (s1, k1) /\
    forall evs s me t, runs vstep s1 evs s -> v_ths s !! me = Some t -> vt_call t <> VIdle -> goes_on s.
Proof.
  intros Hk Hd Hs HK Hx. destruct (disk_init_run kend s0 k p1 p2 p3 l Hk Hd (proj1 (sc_len _ Hs)) HK) as (w & k1 & E & _). eexists _, k1. split; [exact E|]. intros evs s me t Hr Et Hc.
  destruct (runs_vrel _ _ _ _ _ _ _ (ready_vrel w s0 x Hs Hx) Hr) as (x' & C & Q & U & _ & HR). by eapply vrel_goes_on.
Qed.
End Spec.

(** * A device *)

(** It works on one request after the other. *)
Record fifo : Type := mkFifo { ff_disk : gmap Z (list Z); ff_seen : Z; ff_work : list nat }.

Definition fifo_take (d : fifo) (m : drv) : fifo :=
  mkFifo (ff_disk d) (u16 (ff_seen d + 1)) (ff_work d ++ [dr_avail m !!! Z.to_nat (ff_seen d mod Z.of_nat NUM)]).
Definition fifo_finish (d : fifo) (m : drv) : option (fifo * drv) :=
  match ff_work d with
  | [] => None
  | h :: q => r ← request_of h m; Some (mkFifo (disk_after r m (ff_disk d)) (ff_seen d) q, answered h r (ff_disk d) m)
  end.
Definition fifo_reg (r : Z) (w : list (Z * Z)) (d : fifo) : Z :=
  if r =? 0x0 then 0x74726976 else if r =? 0x4 then 2 else if r =? 0x8 then 2 else if r =? 0xc then 0x554d4551 else
  if r =? 0x34 then 1024 else if r =? 0x70 then default 0 (snd <$> last w) else 0.

Definition fifo_step (d : fifo) (m : drv) (d' : fifo) (m' : drv) : Prop :=
  (ff_seen d <> dr_avail_idx m /\ d' = fifo_take d m /\ m' = m) \/ fifo_finish d m = Some (d', m').

#[export] Program Instance fifo_device : VirtioDevice fifo :=
  {| dv_disk := ff_disk; dv_seen := ff_seen; dv_work := ff_work; dv_reg := fifo_reg; dv_step := fifo_step |}.
Next Obligation.
  intros d m d' m' [(Hne & -> & ->)|E]; [by left|right]. unfold fifo_finish in E. destruct (ff_work d) as [|h q] eqn:Ew; [done|]. exists h, [], q. split; [done|].
  destruct (request_of h m); [|done]. cbn in E. by injection E as <- <-.
Defined.

(** Two processes and a buffer for block 5, which holds [1; 2]. *)
Definition start_drv : drv := mkDrv [] [] 0 [] 0 (replicate NUM false) 0 (replicate NUM (mkInfo None 0)) (replicate NUM (mkReq 0 0 0)) [mkVbuf 5 false [1; 2]] [].
Definition start_fifo : vst fifo := mkV start_drv (mkFifo ∅ 0 []) [mkVt None VIdle; mkVt None VIdle].
Definition start_bst : bst := mkB [mkBuf true 1 5 (mkSleep 1 1) 1 0 0 [1; 2]] ∅ [] 1.

Lemma start_is_disk : is_disk (v_dev start_fifo).
Proof. split; try done. intros l. cbn. by rewrite last_snoc. Qed.

Lemma start_static : static start_fifo.
Proof.
  split; [done|done| |repeat constructor]. intros [|[|b]] vb E; [injection E as <-; cbn; lia|done|done].
Qed.

Lemma start_shows : shows (v_drv start_fifo) (v_dev start_fifo) start_bst.
Proof. split; [done|]. intros n _. unfold sectors, sector. cbn [dv_disk fifo_device v_dev start_fifo ff_disk]. rewrite !lookup_empty. cbn [default from_option id]. by rewrite <- replicate_add. Qed.

Lemma three_pages : exists k, kmem_rel 0x80010000 k [0x80011000; 0x80012000; 0x80013000].
Proof.
  assert (forall p, p mod PGSIZE = 0 -> 0x80010000 <= p < PHYSTOP -> page_ok 0x80010000 p) as Hp by done.
  destruct (kfree_run 0x80010000 ltac:(lia) (mkKmem 0 ∅) [] 0x80013000) as (k1 & _ & H1 & _); [split; [done|constructor]|by apply Hp|apply not_elem_of_nil|].
  destruct (kfree_run 0x80010000 ltac:(lia) k1 _ 0x80012000 H1) as (k2 & _ & H2 & _); [by apply Hp|rewrite list_elem_of_singleton; done|].
  destruct (kfree_run 0x80010000 ltac:(lia) k2 _ 0x80011000 H2) as (k3 & _ & H3 & _); [by apply Hp|rewrite !elem_of_cons; intros [?|[?|?%not_elem_of_nil]]; done|]. by exists k3.
Qed.

Lemma virtio_refines_disk_witness : exists k s1 k1, virtio_disk_init (start_fifo, k) = Ok tt (s1, k1) /\ all_run s1.
Proof.
  destruct three_pages as [k HK].
  destruct (virtio_refines_disk 0x80010000 start_fifo k _ _ _ [] start_bst ltac:(lia) start_is_disk start_static HK start_shows) as (s1 & k1 & E & Hr).
  exists k, s1, k1. split; [exact E|]. apply (Hr [] s1), runs_nil.
Defined.

Lemma virtio_no_deadlock_witness : exists k s1 k1, virtio_disk_init (start_fifo, k) = Ok tt (s1, k1) /\
  forall evs s me t, runs vstep s1 evs s -> v_ths s !! me = Some t -> vt_call t <> VIdle -> goes_on s.
Proof.
  destruct three_pages as [k HK]. exists k.
  apply (virtio_no_deadlock 0x80010000 start_fifo k _ _ _ [] start_bst ltac:(lia) start_is_disk start_static HK start_shows).
Defined.

(** A write of the first process: it sleeps, the device takes and answers the
    request, the interrupt wakes the process, and its call returns. *)
Example write_runs :
  match rw_alloc 0 0 true 10 (mkV (ready start_drv) (mkFifo ∅ 0 []) [mkVt None VIdle]) with
  | Ok c s =>
      match fifo_finish (fifo_take (v_dev s) (v_drv s)) (v_drv s) with
      | Some (d, m) =>
          match virtio_disk_intr (mkV m d (v_ths s)) with
          | Ok _ s => c = VWait 0 true 0 /\ ff_disk (v_dev s) !! 10 = Some [1; 2] /\ vt_chan <$> v_ths s = [None] /\
              match resume 0 c s with Ok c s => c = VIdle /\ dr_free (v_drv s) = replicate NUM true | _ => False end
          | _ => False
          end
      | None => False
      end
  | _ => False
  end.
Proof. vm_compute. repeat split. Qed.
