(* ===== verification/XMalloc.v ===== *)
(** reference/xv6-riscv/user/umalloc.c: the allocator of user programs.

    A circular list of free blocks, sorted by address, through the headers in
    front of the blocks; [base] is a header of size 0 that the list always
    holds.  The file shows that [malloc] and [free] manage disjoint blocks and
    never lose a byte. *)

From Stdlib Require Import ZArith Lia.
From stdpp Require Import base strings numbers gmap list.
From S2P Require Import Prelude Mem Riscv Vm.

(** Memory of the process below its break, and [freep]. *)
Record heapst : Type := mkHeap { h_mem : mem; h_brk : Z; h_freep : Z }.
Definition with_mem (x : mem) (h : heapst) : heapst := mkHeap x (h_brk h) (h_freep h).
Definition with_freep (x : Z) (h : heapst) : heapst := mkHeap (h_mem h) (h_brk h) x.

Definition SIZEOF_HEADER : Z := 16.
Definition SBRK_ERROR : Z := 2 ^ 64 - 1.

(** The header of the block at [p]: [s.ptr] and [s.size]. *)
Definition hptr (m : mem) (p : Z) : Z := load64 m p.
Definition hsize (m : mem) (p : Z) : Z := load_le 4 m (p + 8).
Definition put_ptr (m : mem) (p v : Z) : mem := store64 m p v.
Definition put_size (m : mem) (p v : Z) : mem := store_le 4 m (p + 8) v.

(** Accesses of the process; outside its memory it is killed. *)
Definition mapped (h : heapst) (a n : Z) : bool := (0 <=? a) && (a + n <=? h_brk h).
Definition get_ptr (p : Z) : M heapst Z := h ← get; if mapped h p 8 then mret (hptr (h_mem h) p) else panic "fault".
Definition get_size (p : Z) : M heapst Z := h ← get; if mapped h (p + 8) 4 then mret (hsize (h_mem h) p) else panic "fault".
Definition set_ptr (p v : Z) : M heapst unit := h ← get; if mapped h p 8 then put (with_mem (put_ptr (h_mem h) p v) h) else panic "fault".
Definition set_size (p v : Z) : M heapst unit := h ← get; if mapped h (p + 8) 4 then put (with_mem (put_size (h_mem h) p v) h) else panic "fault".

Section Umalloc.
(** The address of the static [base], and whether the kernel has the pages to
    grow a process with this break by so many bytes. *)
Variable base : Z.
Variable can_grow : Z -> Z -> bool.

(** The system call, with [n] an int: growproc. *)
Definition sbrk (n : Z) : M heapst Z :=
  h ← get;
  let sz := h_brk h in
  if 0 <? n then
    if (TRAPFRAME <? sz + n) || negb (can_grow sz n) then mret SBRK_ERROR
    else put (mkHeap (h_mem h) (sz + n) (h_freep h));; mret sz
  else if u64 (sz + n) <? sz then put (mkHeap (h_mem h) (u64 (sz + n)) (h_freep h));; mret sz
  else mret sz.

(** [p] steps over [n] headers. *)
Definition hdr (p n : Z) : Z := u64 (p + n * SIZEOF_HEADER).

(** The steps around the list, with an upper bound of their number. *)
Fixpoint free_search (fuel : nat) (bp p : Z) : M heapst Z :=
  match fuel with
  | O => out_of_fuel
  | S f =>
      q ← get_ptr p;
      if (p <? bp) && (bp <? q) then mret p else
      if (q <=? p) && ((p <? bp) || (bp <? q)) then mret p else free_search f bp q
  end.
Definition rounds (h : heapst) : nat := 2 * (Z.to_nat (h_brk h / SIZEOF_HEADER) + 4).

(** Block [p] in front of block [q]: joined when they are adjacent, linked
    otherwise. *)
Definition attach (p q : Z) : M heapst unit :=
  n ← get_size p;
  if hdr p n =? q then
    k ← get_size q;
    set_size p (u32 (n + k));;
    r ← get_ptr q;
    set_ptr p r
  else set_ptr p q.

Definition free (ap : Z) : M heapst unit :=
  h ← get;
  let bp := u64 (ap - SIZEOF_HEADER) in
  p ← free_search (rounds h) bp (h_freep h);
  q ← get_ptr p;
  attach bp q;;
  attach p bp;;
  modify (with_freep p).

Definition morecore (nu : Z) : M heapst Z :=
  let nu := if nu <? 4096 then 4096 else nu in
  p ← sbrk (s32 (nu * SIZEOF_HEADER));
  if p =? SBRK_ERROR then mret 0 else
  set_size p nu;;
  free (hdr p 1);;
  gets h_freep.

(** The block at [p] of [n] units gives [nunits] of them. *)
Definition carve (nunits prevp p n : Z) : M heapst Z :=
  if n =? nunits then q ← get_ptr p; set_ptr prevp q;; mret p
  else
    set_size p (u32 (n - nunits));;
    k ← get_size p;
    let p := hdr p k in
    set_size p nunits;;
    mret p.

Fixpoint malloc_loop (fuel : nat) (nunits prevp p : Z) : M heapst Z :=
  match fuel with
  | O => out_of_fuel
  | S f =>
      n ← get_size p;
      if nunits <=? n then
        p ← carve nunits prevp p n;
        modify (with_freep prevp);;
        mret (hdr p 1)
      else
        fp ← gets h_freep;
        if p =? fp then
          p ← morecore nunits;
          if p =? 0 then mret 0 else q ← get_ptr p; malloc_loop f nunits p q
        else q ← get_ptr p; malloc_loop f nunits p q
  end.

Definition units (nbytes : Z) : Z := (nbytes + SIZEOF_HEADER - 1) / SIZEOF_HEADER + 1.

Definition malloc (nbytes : Z) : M heapst Z :=
  let nunits := u32 (units nbytes) in
  fp ← gets h_freep;
  (if fp =? 0 then set_ptr base base;; modify (with_freep base);; set_size base 0 else mret tt);;
  h ← get;
  prevp ← gets h_freep;
  p ← get_ptr prevp;
  malloc_loop (rounds h) nunits prevp p.
End Umalloc.

(** A malloc, a second one, and both freed: one block of 4096 units again. *)
Example umalloc_run : let r := (p ← malloc 64 (fun _ _ => true) 100; q ← malloc 64 (fun _ _ => true) 200; free p;; free q;; mret (p, q)) (mkHeap ∅ 4096 0) in
  match r with Ok v h => v = (69520, 69296) /\ hptr (h_mem h) 64 = 4096 /\ hsize (h_mem h) 4096 = 4096 /\ hptr (h_mem h) 4096 = 64 | _ => False end.
Proof. vm_compute. repeat split. Qed.

(** * Lists of blocks

    A block is its address and its number of units. *)

Definition bend (b : Z * Z) : Z := b.1 + 16 * b.2.
(** Not empty, in the order of their addresses, and no two of them adjacent. *)
Fixpoint apart (lo : Z) (l : list (Z * Z)) : Prop :=
  match l with
  | [] => True
  | b :: l' => lo < b.1 /\ 0 < b.2 /\ apart (bend b) l'
  end.
Definition covers (l : list (Z * Z)) (x : Z) : Prop := exists b, b ∈ l /\ b.1 <= x < bend b.
Definition inside (b : Z * Z) (x : Z) : Prop := b.1 <= x < bend b.
Definition lend (lo : Z) (l : list (Z * Z)) : Z := foldl (fun _ b => bend b) lo l.
Definition front (z : Z) (l : list (Z * Z)) : Z := match l with [] => z | b :: _ => b.1 end.
Fixpoint rising (lo : Z) (l : list (Z * Z)) : Prop := match l with [] => True | b :: l' => lo < b.1 /\ rising b.1 l' end.

Lemma apart_weaken lo lo' l : lo' <= lo -> apart lo l -> apart lo' l.
Proof. destruct l as [|b l]; cbn; [done|]. intros ? (? & ? & ?). split_and!; [lia|done|done]. Qed.

Lemma apart_app lo X Y : apart lo (X ++ Y) <-> apart lo X /\ apart (lend lo X) Y.
Proof. revert lo. induction X as [|b X IH]; intros lo; cbn; [tauto|]. rewrite IH. unfold lend. tauto. Qed.

Lemma apart_lend lo l : apart lo l -> lo <= lend lo l.
Proof. revert lo. induction l as [|b l IH]; intros lo; cbn; [lia|]. intros (? & ? & Ha). specialize (IH _ Ha). unfold lend, bend in *. lia. Qed.

Lemma apart_elem lo l b : apart lo l -> b ∈ l -> lo < b.1 /\ 0 < b.2 /\ bend b <= lend lo l.
Proof.
  revert lo. induction l as [|c l IH]; intros lo Ha Hb; [by apply not_elem_of_nil in Hb|]. destruct Ha as (H1 & H2 & H3). apply elem_of_cons in Hb as [->|Hb].
  - pose proof (apart_lend _ _ H3). done.
  - destruct (IH _ H3 Hb) as (J1 & J2 & J3). unfold bend in *. split_and!; [lia|done|done].
Qed.

Lemma apart_rising lo l : apart lo l -> rising lo l.
Proof.
  revert lo. induction l as [|b l IH]; intros lo; cbn; [done|]. intros (? & ? & Ha). split; [done|]. apply IH. eapply apart_weaken; [|done]. unfold bend. lia.
Qed.

Lemma rising_elem lo l b : rising lo l -> b ∈ l -> lo < b.1.
Proof.
  revert lo. induction l as [|c l IH]; intros lo Ha Hb; [by apply not_elem_of_nil in Hb|]. destruct Ha as (H1 & H2). apply elem_of_cons in Hb as [->|Hb]; [done|].
  specialize (IH _ H2 Hb). lia.
Qed.

Lemma apart_length lo l : apart lo l -> lo + 16 * Z.of_nat (length l) <= lend lo l.
Proof.
  revert lo. induction l as [|b l IH]; intros lo; cbn [length]; [cbn; lia|]. intros (H1 & H2 & Ha). specialize (IH _ Ha). cbn. unfold lend, bend in *. lia.
Qed.

Lemma covers_app X Y x : covers (X ++ Y) x <-> covers X x \/ covers Y x.
Proof. unfold covers. setoid_rewrite elem_of_app. naive_solver. Qed.
Lemma covers_cons b Y x : covers (b :: Y) x <-> inside b x \/ covers Y x.
Proof. unfold covers, inside. setoid_rewrite elem_of_cons. naive_solver. Qed.

(** [b] in front of [Y], joined with its first block when they are adjacent. *)
Definition merge_next (b : Z * Z) (Y : list (Z * Z)) : list (Z * Z) :=
  match Y with
  | c :: Y' => if bend b =? c.1 then (b.1, b.2 + c.2) :: Y' else b :: Y
  | [] => [b]
  end.

Lemma merge_front z b Y : front z (merge_next b Y) = b.1.
Proof. destruct Y as [|c Y]; [done|]. cbn. by destruct (_ =? _). Qed.

Lemma merge_apart lo b Y : lo < b.1 -> 0 < b.2 -> apart (bend b - 1) Y -> apart lo (merge_next b Y).
Proof.
  intros H1 H2 Ha. destruct Y as [|c Y]; [done|]. destruct Ha as (J1 & J2 & J3). cbn [merge_next]. destruct (Z.eqb_spec (bend b) c.1) as [E|E].
  - cbn. split; [done|]. split; [lia|]. replace (bend (b.1, b.2 + c.2)) with (bend c) by (unfold bend in *; cbn; lia). done.
  - cbn. split_and!; [done|done|lia|done|done].
Qed.

Lemma merge_covers b Y x : 0 < b.2 -> Forall (fun c => 0 < c.2) Y -> covers (merge_next b Y) x <-> inside b x \/ covers Y x.
Proof.
  intros Hb Hy. destruct Y as [|c Y]; [by rewrite <- covers_cons|]. cbn [merge_next]. apply Forall_cons_1 in Hy as [Hc _].
  destruct (Z.eqb_spec (bend b) c.1) as [E|E]; rewrite !covers_cons; [|done]. unfold inside, bend in *. cbn. split; [|intros [?|[?|?]]; [left; lia|left; lia|by right]].
  intros [?|?]; [|by right; right]. destruct (decide (x < b.1 + 16 * b.2)); [left|right; left]; lia.
Qed.

Lemma apart_sizes lo l : apart lo l -> Forall (fun c => 0 < c.2) l.
Proof. intros Ha. apply Forall_forall. intros b Hb. by destruct (apart_elem _ _ _ Ha Hb) as (? & ? & ?). Qed.

Lemma merge_sizes b Y : 0 < b.2 -> Forall (fun c => 0 < c.2) Y -> Forall (fun c => 0 < c.2) (merge_next b Y).
Proof. intros Hb Hy. destruct Y as [|c Y]; [by constructor|]. cbn. apply Forall_cons_1 in Hy as [Hc Hy]. destruct (_ =? _); repeat constructor; cbn; try done; lia. Qed.

Lemma merge_ends hi b Y : bend b <= hi -> Forall (fun c => bend c <= hi) Y -> Forall (fun c => bend c <= hi) (merge_next b Y).
Proof.
  intros Hb Hy. destruct Y as [|c Y]; [by constructor|]. cbn. apply Forall_cons_1 in Hy as [Hc Hy]. destruct (Z.eqb_spec (bend b) c.1); repeat constructor; try done.
  unfold bend in *. cbn. lia.
Qed.

(** A block that overlaps none of the list has a place in it. *)
Lemma place lo l b : apart lo l -> lo <= b.1 -> 0 < b.2 -> (forall x, inside b x -> ~ covers l x) ->
  exists X Y, l = X ++ Y /\ lend lo X <= b.1 /\ apart (bend b - 1) Y.
Proof.
  revert lo. induction l as [|c l IH]; intros lo Ha Hlo Hn Hd; [by exists [], []|]. destruct Ha as (H1 & H2 & Ha).
  assert (~ inside c b.1) as Hc1. { intros Hc. apply (Hd b.1); [unfold inside, bend; lia|]. apply covers_cons. by left. }
  assert (~ inside b c.1) as Hc2. { intros Hc. apply (Hd c.1 Hc). apply covers_cons. left. unfold inside, bend. lia. }
  unfold inside in *. destruct (decide (c.1 < b.1)) as [Hlt|Hge].
  - destruct (IH (bend c) Ha ltac:(lia) Hn) as (X & Y & -> & HX & HY).
    { intros x Hx Hc. apply (Hd x Hx). apply covers_cons. by right. }
    by exists (c :: X), Y.
  - exists [], (c :: l). split; [done|]. split; [done|]. cbn. split_and!; [lia|done|done].
Qed.

(** * The list in memory *)

(** The blocks [l] are linked through their headers; the last one leads to
    [z]. *)
Fixpoint seg (m : mem) (l : list (Z * Z)) (z : Z) : Prop :=
  match l with
  | [] => True
  | b :: l' => hsize m b.1 = b.2 /\ hptr m b.1 = front z l' /\ seg m l' z
  end.

Lemma front_app z X Y : front z (X ++ Y) = front (front z Y) X.
Proof. by destruct X. Qed.

Lemma seg_app m X Y z : seg m (X ++ Y) z <-> seg m X (front z Y) /\ seg m Y z.
Proof. induction X as [|b X IH]; cbn [seg app]; [tauto|]. rewrite IH, front_app. tauto. Qed.

(** [m'] has the bytes of [m] outside [P]. *)
Definition frame (P : Z -> Prop) (m m' : mem) : Prop := forall x, ~ P x -> load8 m' x = load8 m x.
Definition header (p x : Z) : Prop := p <= x < p + 16.

Lemma frame_seq P Q R m m1 m2 : frame P m m1 -> frame Q m1 m2 -> (forall x, P x -> R x) -> (forall x, Q x -> R x) -> frame R m m2.
Proof. intros F1 F2 HP HQ x Hx. rewrite F2, F1; [done|intros ?; by apply Hx, HP|intros ?; by apply Hx, HQ]. Qed.

Lemma frame_mono (P Q : Z -> Prop) m m' : (forall x, P x -> Q x) -> frame P m m' -> frame Q m m'.
Proof. intros HP F x Hx. apply F. intros ?. by apply Hx, HP. Qed.

Lemma header_same P m m' a : frame P m m' -> (forall x, header a x -> ~ P x) -> hptr m' a = hptr m a /\ hsize m' a = hsize m a.
Proof. intros F Hd. split; apply load_le_ext; intros x Hx; apply F, Hd; unfold header; lia. Qed.

Lemma seg_frame P m m' l z : frame P m m' -> (forall b x, b ∈ l -> header b.1 x -> ~ P x) -> seg m l z -> seg m' l z.
Proof.
  intros F. induction l as [|b l IH]; intros Hd Hs; [done|]. destruct Hs as (H1 & H2 & H3).
  destruct (header_same P m m' b.1 F (fun x => Hd b x (list_elem_of_here _ _))) as [E1 E2]. cbn [seg]. rewrite E1, E2. split; [done|]. split; [done|].
  apply IH; [|done]. intros c x Hc. apply Hd. by apply list_elem_of_further.
Qed.

Lemma put_ptr_spec m p v : 0 <= v < 2 ^ 64 -> hptr (put_ptr m p v) p = v /\ hsize (put_ptr m p v) p = hsize m p /\ frame (header p) m (put_ptr m p v).
Proof.
  intros Hv. split; [by apply load64_store64|]. split; [apply load_le_store_le_ne; lia|]. intros x Hx. unfold header in Hx. apply load8_store64_ne. lia.
Qed.

Lemma put_size_spec m p v : 0 <= v < 2 ^ 32 -> hsize (put_size m p v) p = v /\ hptr (put_size m p v) p = hptr m p /\ frame (header p) m (put_size m p v).
Proof.
  intros Hv. split; [unfold hsize, put_size; rewrite load_le_store_le; by apply Z.mod_small|]. split; [apply load_le_store_le_ne; lia|].
  intros x Hx. unfold header in Hx. apply load8_store_le_ne. lia.
Qed.

Lemma hsize_range m p : 0 <= hsize m p < 2 ^ 32.
Proof. apply (load_le_range 4). Qed.

(** Headers below the break can be used. *)
Section Access.
Context (h : heapst) (p : Z) (Hp : 0 <= p) (Hbrk : p + 16 <= h_brk h).
Lemma get_ptr_run : get_ptr p h = Ok (hptr (h_mem h) p) h.
Proof. unfold get_ptr, mapped. mstep. rewrite (proj2 (Z.leb_le 0 p)), (proj2 (Z.leb_le _ _)) by lia. done. Qed.
Lemma get_size_run : get_size p h = Ok (hsize (h_mem h) p) h.
Proof. unfold get_size, mapped. mstep. rewrite (proj2 (Z.leb_le 0 (p + 8))), (proj2 (Z.leb_le _ _)) by lia. done. Qed.
Lemma set_ptr_run v : set_ptr p v h = Ok tt (with_mem (put_ptr (h_mem h) p v) h).
Proof. unfold set_ptr, mapped. mstep. rewrite (proj2 (Z.leb_le 0 p)), (proj2 (Z.leb_le _ _)) by lia. done. Qed.
Lemma set_size_run v : set_size p v h = Ok tt (with_mem (put_size (h_mem h) p v) h).
Proof. unfold set_size, mapped. mstep. rewrite (proj2 (Z.leb_le 0 (p + 8))), (proj2 (Z.leb_le _ _)) by lia. done. Qed.
End Access.

Lemma hdr_small p n : 0 <= p + 16 * n < 2 ^ 64 -> hdr p n = p + 16 * n.
Proof. intros. unfold hdr, SIZEOF_HEADER. rewrite u64_small; lia. Qed.

(** The heap ends below this address, so that the sum of all sizes is an
    [uint]. *)
Definition HEAP_MAX : Z := 2 ^ 36.

(** [attach]: the header of [b] is linked or joined with the list behind it. *)
Lemma attach_ok h b Y z : h_brk h <= HEAP_MAX -> 0 < b.1 -> b.1 + 16 <= h_brk h -> hsize (h_mem h) b.1 = b.2 -> bend b <= h_brk h ->
  seg (h_mem h) Y z -> Forall (fun c => b.1 + 16 <= c.1 /\ c.1 + 16 <= h_brk h /\ bend c <= h_brk h) Y -> 0 <= z < HEAP_MAX -> (Y = [] -> bend b <> z) ->
  exists m', attach b.1 (front z Y) h = Ok tt (with_mem m' h) /\ seg m' (merge_next b Y) z /\ frame (header b.1) (h_mem h) m'.
Proof.
  unfold HEAP_MAX. intros HM Hpos Hb En Hend Hs HY Hz Hne. pose proof (hsize_range (h_mem h) b.1) as Hr. assert (0 <= b.1) as H0 by lia. unfold attach. mrun (get_size_run h b.1 H0 Hb). rewrite En in *.
  rewrite hdr_small by (unfold bend in *; lia). fold (bend b). destruct Y as [|c Y].
  - cbn [front]. rewrite (proj2 (Z.eqb_neq _ _)) by (by apply Hne). rewrite (set_ptr_run h b.1 H0 Hb).
    destruct (put_ptr_spec (h_mem h) b.1 z ltac:(lia)) as (E1 & E2 & F). eexists. split; [done|]. split; [|done]. cbn [seg merge_next front]. by rewrite E1, E2, En.
  - cbn [front merge_next]. apply Forall_cons_1 in HY as [(Hc1 & Hc2 & Hc3) HY]. destruct Hs as (S1 & S2 & S3). destruct (Z.eqb_spec (bend b) c.1) as [E|E].
    + assert (0 <= c.1) as Hc0 by lia. mrun (get_size_run h c.1 Hc0 Hc2). rewrite S1. pose proof (hsize_range (h_mem h) c.1) as Hrc. rewrite S1 in Hrc.
      rewrite u32_small by (unfold bend in *; lia). mrun (set_size_run h b.1 H0 Hb (b.2 + c.2)). destruct (put_size_spec (h_mem h) b.1 (b.2 + c.2) ltac:(unfold bend in *; lia)) as (E1 & E2 & F1).
      set (m1 := put_size (h_mem h) b.1 (b.2 + c.2)) in *. mrun (get_ptr_run (with_mem m1 h) c.1 Hc0 Hc2). cbn [h_mem with_mem].
      destruct (header_same _ _ m1 c.1 F1) as [Ec _]; [unfold header; lia|]. rewrite Ec, S2, (set_ptr_run (with_mem m1 h) b.1 H0 Hb). cbn [h_mem with_mem].
      assert (0 <= front z Y < 2 ^ 64) as Hf. { destruct Y as [|d Y]; cbn; [lia|]. apply Forall_cons_1 in HY as [? _]. lia. }
      destruct (put_ptr_spec m1 b.1 (front z Y) Hf) as (E3 & E4 & F2). exists (put_ptr m1 b.1 (front z Y)). split; [done|].
      assert (frame (header b.1) (h_mem h) (put_ptr m1 b.1 (front z Y))) as F by (eapply frame_seq; [exact F1|exact F2|done|done]). split; [|done].
      cbn [seg fst snd]. rewrite E4, E1, E3. split; [done|]. split; [done|]. eapply seg_frame; [exact F| |exact S3]. intros d x Hd Hx. rewrite Forall_forall in HY. specialize (HY d Hd). unfold header in *. lia.
    + rewrite (set_ptr_run h b.1 H0 Hb). destruct (put_ptr_spec (h_mem h) b.1 c.1 ltac:(lia)) as (E1 & E2 & F). eexists. split; [done|]. split; [|done].
      cbn [seg]. rewrite E1, E2, En. split; [done|]. split; [done|]. eapply (seg_frame _ _ _ (c :: Y)); [exact F| |done]. intros d x Hd Hx.
      apply elem_of_cons in Hd as [->|Hd]; [unfold header in *; lia|]. rewrite Forall_forall in HY. specialize (HY d Hd). unfold header in *. lia.
Qed.

(** * The free list *)

Section Heap.
Context (base : Z) (Hbase : 0 < base).

(** The free blocks [l] of the heap. *)
Record heap (h : heapst) (l : list (Z * Z)) : Prop := {
  hp_base : base + 16 <= h_brk h;
  hp_max : h_brk h <= HEAP_MAX;
  hp_apart : apart (base + 15) l;
  hp_ends : Forall (fun b => bend b <= h_brk h) l;
  hp_seg : seg (h_mem h) ((base, 0) :: l) base;
  hp_freep : exists b, b ∈ (base, 0) :: l /\ b.1 = h_freep h
}.

Lemma heap_node h l b : heap h l -> b ∈ (base, 0) :: l -> base <= b.1 /\ b.1 + 16 <= h_brk h /\ bend b <= h_brk h.
Proof.
  intros [H1 _ Ha He _ _] Hb. apply elem_of_cons in Hb as [->|Hb]; [unfold bend; cbn; lia|].
  destruct (apart_elem _ _ _ Ha Hb) as (J1 & J2 & _). rewrite Forall_forall in He. specialize (He b Hb). unfold bend in *. lia.
Qed.

Lemma lend_ends lo hi l : lo <= hi -> Forall (fun b => bend b <= hi) l -> lend lo l <= hi.
Proof. revert lo. induction l as [|b l IH]; intros lo Hlo He; [done|]. apply Forall_cons_1 in He as [H1 H2]. by apply IH. Qed.

Lemma heap_length h l : heap h l -> Z.of_nat (length l) <= h_brk h / 16.
Proof.
  intros [H1 _ Ha He _ _]. pose proof (apart_length _ _ Ha). pose proof (lend_ends (base + 15) (h_brk h) l ltac:(lia) He).
  apply Z.div_le_lower_bound; lia.
Qed.

(** The search around the list. *)
Lemma search_fwd h bp Y : base < bp -> Forall (fun b => bp < b.1) Y -> forall P c fuel, seg (h_mem h) (c :: P ++ Y) base ->
  Forall (fun b => base <= b.1 /\ b.1 + 16 <= h_brk h /\ b.1 < bp) (c :: P) -> rising c.1 P -> (length P < fuel)%nat ->
  exists d, last (c :: P) = Some d /\ free_search fuel bp c.1 h = Ok d.1 h.
Proof.
  intros Hbp HY. induction P as [|d P IH]; intros c fuel Hs HP Hr Hf; apply Forall_cons_1 in HP as [(H1 & H2 & H3) HP];
    (destruct fuel as [|fuel]; [cbn in Hf; lia|]); destruct Hs as (_ & Hq & Hs); cbn [free_search]; mrun (get_ptr_run h c.1 ltac:(lia) H2); rewrite Hq.
  - exists c. split; [done|]. destruct Y as [|y Y]; cbn [app front].
    + rewrite (proj2 (Z.ltb_ge bp base)), andb_false_r, (proj2 (Z.leb_le base c.1)), (proj2 (Z.ltb_lt c.1 bp)) by lia. done.
    + apply Forall_cons_1 in HY as [Hy _]. rewrite (proj2 (Z.ltb_lt c.1 bp)), (proj2 (Z.ltb_lt bp y.1)) by lia. done.
  - cbn [app front]. destruct Hr as [Hcd Hr]. pose proof (Forall_cons_1 _ _ _ HP) as [(J1 & J2 & J3) _].
    rewrite (proj2 (Z.ltb_ge bp d.1)), andb_false_r, (proj2 (Z.leb_gt d.1 c.1)) by lia. cbn [andb].
    destruct (IH d fuel Hs HP Hr ltac:(cbn in Hf; lia)) as (e & E1 & E2). exists e. split; [by rewrite last_cons_cons|done].
Qed.

Lemma search_back h bp : base < bp -> forall Q c fuel, seg (h_mem h) (c :: Q) base -> Forall (fun b => b.1 + 16 <= h_brk h /\ bp < b.1) (c :: Q) -> rising c.1 Q ->
  free_search (length Q + 1 + fuel) bp c.1 h = free_search fuel bp base h.
Proof.
  intros Hbp. induction Q as [|d Q IH]; intros c fuel Hs HP Hr; apply Forall_cons_1 in HP as [(H1 & H2) HP]; destruct Hs as (_ & Hq & Hs);
    cbn [length Nat.add free_search]; mrun (get_ptr_run h c.1 ltac:(lia) H1); rewrite Hq.
  - cbn [front]. rewrite (proj2 (Z.ltb_ge c.1 bp)), (proj2 (Z.ltb_ge bp base)), andb_false_r by lia. cbn [orb]. by rewrite andb_false_r.
  - cbn [front]. destruct Hr as [Hcd Hr]. rewrite (proj2 (Z.ltb_ge c.1 bp)), (proj2 (Z.leb_gt d.1 c.1)) by lia. cbn [andb]. by apply IH.
Qed.

Lemma rising_app lo X b Y : rising lo (X ++ b :: Y) -> rising b.1 Y.
Proof. revert lo. induction X as [|c X IH]; intros lo; cbn; [tauto|]. intros [_ Hr]. by eapply IH. Qed.

Lemma rising_prefix lo X Y : rising lo (X ++ Y) -> rising lo X.
Proof. revert lo. induction X as [|c X IH]; intros lo; cbn; [done|]. intros [? Hr]. split; [done|]. by apply IH. Qed.

Lemma rising_weaken lo lo' X : lo' <= lo -> rising lo X -> rising lo' X.
Proof. destruct X as [|b X]; [done|]. intros ? [? ?]. split; [lia|done]. Qed.

(** From any node it ends at the last one in front of [bp]. *)
Lemma search_ok h l bp X Y : heap h l -> l = X ++ Y -> base < bp -> Forall (fun b => b.1 < bp) X -> Forall (fun b => bp < b.1) Y ->
  exists d, last ((base, 0) :: X) = Some d /\ free_search (rounds h) bp (h_freep h) h = Ok d.1 h.
Proof.
  intros Hh -> Hbp HX HY. pose proof (heap_length _ _ Hh) as Hlen. rewrite length_app in Hlen. destruct (hp_freep _ _ Hh) as (b & Hb & <-).
  pose proof (hp_seg _ _ Hh) as Hs. pose proof (apart_rising _ _ (hp_apart _ _ Hh)) as Hr.
  assert (forall P c, c :: P `suffix_of` (base, 0) :: X -> rising c.1 P /\ Forall (fun b => base <= b.1 /\ b.1 + 16 <= h_brk h /\ b.1 < bp) (c :: P) /\ seg (h_mem h) (c :: P ++ Y) base) as Hsuf.
  { intros P c (W & E). split; [|split].
    - destruct W as [|w W]; injection E as <- EX; [cbn; rewrite <- EX; eapply rising_weaken, rising_prefix; [|exact Hr]; lia|].
      rewrite EX, <- app_assoc in Hr. by eapply rising_prefix, rising_app.
    - apply Forall_forall. intros d Hd. assert (d ∈ (base, 0) :: X) as Hd' by (rewrite E; set_solver).
      pose proof (heap_node h _ d Hh) as Hn. apply elem_of_cons in Hd' as [->|Hd']; [cbn in *; specialize (Hn ltac:(by left)); lia|].
      rewrite Forall_forall in HX. specialize (HX d Hd'). destruct Hn as (? & ? & _); [right; apply elem_of_app; by left|]. done.
    - change ((base, 0) :: X ++ Y) with (((base, 0) :: X) ++ Y) in Hs. rewrite E, <- app_assoc in Hs. by apply seg_app in Hs as [_ Hs]. }
  assert (forall fuel, (length X < fuel)%nat -> exists d, last ((base, 0) :: X) = Some d /\ free_search fuel bp base h = Ok d.1 h) as Hfirst.
  { intros fuel Hf. destruct (Hsuf X (base, 0) (ex_intro _ [] eq_refl)) as (J1 & J2 & J3). exact (search_fwd h bp Y Hbp HY X (base, 0) fuel J3 J2 J1 Hf). }
  unfold rounds. change SIZEOF_HEADER with 16. set (n := Z.to_nat (h_brk h / 16)) in *. assert (length X + length Y <= n)%nat as Hn by lia.
  assert (b ∈ (base, 0) :: X \/ b ∈ Y) as [Hin|Hin] by (rewrite <- elem_of_app; exact Hb).
  - apply list_elem_of_split in Hin as (W & P & E). destruct (Hsuf P b (ex_intro _ W E)) as (J1 & J2 & J3).
    assert (length P <= length X)%nat as HPl by (apply (f_equal length) in E; rewrite length_app in E; cbn in E; lia).
    rewrite E, last_app, last_cons. destruct (search_fwd h bp Y Hbp HY P b (2 * (n + 4)) J3 J2 J1 ltac:(lia)) as (d & E1 & E2). rewrite last_cons in E1. exists d. split; [|done].
    by destruct (last P).
  - apply list_elem_of_split in Hin as (W & Q & ->). rewrite length_app in Hn. cbn in Hn. replace (2 * (n + 4))%nat with (length Q + 1 + (2 * (n + 4) - length Q - 1))%nat by lia.
    rewrite (search_back h bp Hbp Q b); [apply Hfirst; lia| | |].
    + change ((base, 0) :: X ++ W ++ b :: Q) with (((base, 0) :: X) ++ W ++ b :: Q) in Hs. apply seg_app in Hs as [_ Hs]. by apply seg_app in Hs as [_ Hs].
    + apply Forall_app in HY as [_ HY]. apply Forall_forall. intros d Hd. rewrite Forall_forall in HY. specialize (HY d Hd).
      destruct (heap_node h _ d Hh) as (? & ? & _); [|done]. right. rewrite !elem_of_app. right. by right.
    + rewrite app_assoc in Hr. by eapply rising_app.
Qed.
Lemma merge_bigger b Y : 0 <= b.2 -> Forall (fun c => 0 < c.2) Y -> (exists c, c ∈ merge_next b Y /\ b.2 <= c.2) /\ forall c, c ∈ Y -> exists c', c' ∈ merge_next b Y /\ c.2 <= c'.2.
Proof.
  intros Hb HY. destruct Y as [|d Y]; cbn [merge_next]; [split; [exists b; set_solver|set_solver]|]. apply Forall_cons_1 in HY as [Hd _]. destruct (bend b =? d.1).
  - split; [eexists; split; [by left|cbn; lia]|]. intros c Hc. apply elem_of_cons in Hc as [->|Hc]; [eexists; split; [by left|cbn; lia]|]. exists c. split; [by right|done].
  - split; [exists b; split; [by left|done]|]. intros c Hc. exists c. split; [by right|done].
Qed.

(** The block in its place, as [free] leaves the list. *)
Lemma free_list hi X Y b X0 d : apart (base + 15) (X ++ Y) -> Forall (fun c => bend c <= hi) (X ++ Y) -> base + 16 <= b.1 -> 0 < b.2 -> bend b <= hi ->
  lend (base + 15) X <= b.1 -> apart (bend b - 1) Y -> (base, 0) :: X = X0 ++ [d] ->
  exists l', X0 ++ merge_next d (merge_next b Y) = (base, 0) :: l' /\ apart (base + 15) l' /\ Forall (fun c => bend c <= hi) l' /\
    (forall x, covers l' x <-> covers (X ++ Y) x \/ inside b x) /\ exists c, c ∈ l' /\ b.2 <= c.2.
Proof.
  intros Ha He Hb Hn Hhi HX HY E. apply apart_app in Ha as [HaX HaY]. apply Forall_app in He as [HeX HeY]. pose proof (apart_sizes _ _ HaY) as HsY.
  pose proof (merge_sizes b Y Hn HsY) as HsZ. pose proof (merge_ends hi b Y Hhi HeY) as HeZ. destruct (merge_bigger b Y ltac:(lia) HsY) as [(c & Hc & Hcb) _].
  destruct X0 as [|x0 X0].
  - injection E as <- ->. exists (merge_next b Y). split; [|split_and!].
    + pose proof (merge_front 0 b Y) as Hf. destruct (merge_next b Y) as [|e Z]; [by apply not_elem_of_nil in Hc|]. cbn in Hf. cbn. unfold bend. cbn. rewrite Hf, (proj2 (Z.eqb_neq _ _)) by lia. done.
    + apply merge_apart; [lia|done|done].
    + done.
    + intros x. rewrite (merge_covers b Y x Hn HsY). cbn. tauto.
    + by exists c.
  - injection E as <- ->. exists (X0 ++ merge_next d (merge_next b Y)). split; [done|]. apply apart_app in HaX as [HaX HaD]. cbn in HaD. destruct HaD as (D1 & D2 & _).
    assert (bend d <= b.1) as Hd by (unfold lend in HX; rewrite foldl_app in HX; exact HX). apply Forall_app in HeX as [HeX HeD]. apply Forall_cons_1 in HeD as [HeD _]. split_and!.
    + apply apart_app. split; [done|]. apply merge_apart; [done|done|]. apply merge_apart; [lia|done|done].
    + apply Forall_app. split; [done|]. by apply merge_ends.
    + intros x. rewrite !covers_app, (merge_covers d _ x D2 HsZ), (merge_covers b Y x Hn HsY), covers_cons. unfold covers at 4. set_solver.
    + destruct (merge_bigger d _ ltac:(lia) HsZ) as [_ Hbig]. destruct (Hbig c Hc) as (c' & Hc' & Hle). exists c'. split; [apply elem_of_app; by right|lia].
Qed.

Lemma apart_after lo l : apart lo l -> Forall (fun c => lo < c.1) l.
Proof. intros Ha. apply Forall_forall. intros b Hb. by destruct (apart_elem _ _ _ Ha Hb) as (? & _). Qed.

Lemma merge_length b Y : (length (merge_next b Y) <= S (length Y))%nat.
Proof. destruct Y as [|c Y]; cbn; [done|]. destruct (_ =? _); cbn; lia. Qed.

Lemma merge_addr b Y c : c ∈ merge_next b Y -> c.1 = b.1 \/ exists c', c' ∈ Y /\ c'.1 = c.1.
Proof.
  destruct Y as [|d Y]; cbn [merge_next]; [intros Hc; left; by apply list_elem_of_singleton in Hc as ->|]. destruct (_ =? _); intros Hc; apply elem_of_cons in Hc as [->|Hc]; [by left| |by left|].
  - right. exists c. split; [by right|done].
  - right. by exists c.
Qed.

(** The nodes in front of the last one before [bp] end in front of it. *)
Lemma nodes_before X X0 d : apart (base + 15) X -> (base, 0) :: X = X0 ++ [d] ->
  base <= d.1 /\ 0 <= d.2 /\ (forall c, c ∈ X0 -> c.1 + 16 <= d.1) /\ (d.1 = base \/ (d ∈ X /\ 0 < d.2)) /\ d.1 + 16 <= Z.max (base + 16) (lend (base + 15) X).
Proof.
  intros Ha E. destruct X0 as [|x0 X0]; injection E as <- ->.
  - split_and!; [done|done| |by left|cbn; lia]. intros c Hc. by apply not_elem_of_nil in Hc.
  - apply apart_app in Ha as [Ha (D1 & D2 & _)]. pose proof (apart_lend _ _ Ha). split_and!; [lia|lia| | |].
    + intros c Hc. apply elem_of_cons in Hc as [->|Hc]; [cbn; lia|]. destruct (apart_elem _ _ _ Ha Hc) as (J1 & J2 & J3). unfold bend in *. lia.
    + right. split; [apply elem_of_app; right; by left|done].
    + unfold lend. rewrite foldl_app. cbn. unfold bend. lia.
Qed.

Lemma free_run h l b : heap h l -> hsize (h_mem h) b.1 = b.2 -> 0 < b.2 -> base + 16 <= b.1 -> bend b <= h_brk h -> (forall x, inside b x -> ~ covers l x) ->
  exists m' l' p, free (b.1 + 16) h = Ok tt (with_freep p (with_mem m' h)) /\ heap (with_freep p (with_mem m' h)) l' /\
    (forall x, covers l' x <-> covers l x \/ inside b x) /\ (length l' <= S (length l))%nat /\ (exists c, c ∈ l' /\ b.2 <= c.2) /\ frame (fun x => header base x \/ covers l x \/ inside b x) (h_mem h) m'.
Proof.
  intros Hh Hsz Hn Hlo Hhi Hd. destruct (place (base + 15) l b (hp_apart _ _ Hh) ltac:(lia) Hn Hd) as (X & Y & -> & HX & HY).
  destruct (exists_last (l := (base, 0) :: X) ltac:(done)) as (X0 & d & E). destruct (free_list _ X Y b X0 d (hp_apart _ _ Hh) (hp_ends _ _ Hh) Hlo Hn Hhi HX HY E) as (l' & El & Ha' & He' & Hcov & Hbig).
  pose proof (hp_max _ _ Hh) as Hmax. unfold HEAP_MAX in Hmax. pose proof (hp_apart _ _ Hh) as Ha. apply apart_app in Ha as [HaX HaY].
  destruct (nodes_before X X0 d HaX E) as (Hd1 & Hd2 & Hbefore & Hdc & Hd3). assert (Forall (fun c => bend b <= c.1) Y) as HbY by (eapply Forall_impl; [exact (apart_after _ _ HY)|cbn; lia]).
  pose proof (hp_ends _ _ Hh) as He. apply Forall_app in He as [_ HeY]. pose proof (apart_sizes _ _ HaY) as HsY. assert (b.1 + 16 <= h_brk h) as Hb16 by (unfold bend in *; lia).
  unfold free. mstep. replace (u64 (b.1 + 16 - SIZEOF_HEADER)) with b.1 by (unfold SIZEOF_HEADER; rewrite u64_small; unfold bend in *; lia).
  destruct (search_ok h _ b.1 X Y Hh eq_refl ltac:(lia)) as (d' & Ed & Es).
  { apply Forall_forall. intros c Hc. destruct (apart_elem _ _ _ HaX Hc) as (J1 & J2 & J3). unfold bend in *. lia. }
  { eapply Forall_impl; [exact HbY|]. cbn. unfold bend. lia. }
  rewrite E, last_snoc in Ed. injection Ed as <-. mrun Es. pose proof (hp_seg _ _ Hh) as Hs. change ((base, 0) :: X ++ Y) with (((base, 0) :: X) ++ Y) in Hs.
  rewrite E, <- app_assoc in Hs. apply seg_app in Hs as [HsX (Sd1 & Sd2 & Ss)]. mrun (get_ptr_run h d.1 ltac:(lia) ltac:(lia)). cbn [app] in Sd2. rewrite Sd2.
  destruct (attach_ok h b Y base Hmax ltac:(lia) Hb16 Hsz Hhi Ss) as (m1 & E1 & S1 & F1).
  { rewrite Forall_forall in HbY, HeY, HsY |- *. intros c Hc. specialize (HbY c Hc). specialize (HeY c Hc). specialize (HsY c Hc). unfold bend in *. lia. }
  { pose proof (hp_base _ _ Hh). unfold HEAP_MAX. lia. }
  { intros _. unfold bend. lia. }
  mrun E1. destruct (header_same _ _ m1 d.1 F1) as [_ Hsz1]; [unfold header; lia|].
  destruct (attach_ok (with_mem m1 h) d (merge_next b Y) base Hmax ltac:(lia)) as (m2 & E2 & S2 & F2).
  { cbn. lia. } { by rewrite <- Sd1, <- Hsz1. }
  { cbn. destruct Hdc as [Hdc|[Hdc _]]; [|apply (heap_node h _ d Hh); right; apply elem_of_app; by left]. destruct X0; injection E as <- ->; [unfold bend; cbn; pose proof (hp_base _ _ Hh); lia|].
    apply apart_app in HaX as [J1 (J2 & _)]. pose proof (apart_lend _ _ J1). lia. }
  { exact S1. }
  { pose proof (merge_sizes b Y Hn HsY) as HsZ. pose proof (merge_ends _ b Y Hhi HeY) as HeZ. rewrite Forall_forall in HsZ, HeZ, HbY |- *. intros c Hc. specialize (HsZ c Hc). specialize (HeZ c Hc).
    destruct (merge_addr b Y c Hc) as [Ec|(c' & Hc' & Ec)]; [|specialize (HbY c' Hc')]; unfold bend in *; cbn; lia. }
  { pose proof (hp_base _ _ Hh). unfold HEAP_MAX. lia. }
  { intros Ez. pose proof (merge_front 0 b Y) as Ef. rewrite Ez in Ef. cbn in Ef. lia. }
  rewrite merge_front in E2. mrun E2. exists m2, l', d.1. split; [done|].
  assert (frame (fun x => header d.1 x \/ header b.1 x) (h_mem h) m2) as F by (eapply frame_seq; [exact F1|exact F2|by right|by left]).
  split; [split|split_and!].
  - apply Hh.
  - done.
  - done.
  - done.
  - cbn [with_freep with_mem h_mem]. rewrite <- El. apply seg_app. split; [|done]. rewrite merge_front. eapply seg_frame; [exact F| |exact HsX].
    intros c x Hc Hx. specialize (Hbefore c Hc). unfold header in *. lia.
  - destruct (merge_next d (merge_next b Y)) as [|e Z] eqn:Em; [pose proof (merge_front 0 d (merge_next b Y)) as Ef; rewrite Em in Ef; cbn in Ef; lia|].
    exists e. split; [rewrite <- El; apply elem_of_app; right; by left|]. pose proof (merge_front 0 d (merge_next b Y)) as Ef. by rewrite Em in Ef.
  - done.
  - pose proof (merge_length b Y). pose proof (merge_length d (merge_next b Y)). apply (f_equal length) in El, E. rewrite !length_app in *. cbn in *. lia.
  - done.
  - eapply frame_mono; [|exact F]. intros x [Hx|Hx]; [|right; right; unfold header, inside, bend in *; lia].
    destruct Hdc as [Eb|[Hdc Hd4]]; [left; by rewrite <- Eb|right; left]. apply covers_app. left. exists d. split; [done|]. unfold header, bend in *. lia.
Qed.
(** * malloc *)

(** The blocks [l] become [l'] and the block [b]. *)
Record split_off (l l' : list (Z * Z)) (b : Z * Z) : Prop := {
  so_covers x : covers l x <-> covers l' x \/ inside b x;
  so_apart x : inside b x -> ~ covers l' x
}.

Lemma apart_drop lo X c V : apart lo (X ++ c :: V) -> apart lo (X ++ V).
Proof. rewrite !apart_app. intros [? (? & ? & ?)]. split; [done|]. eapply apart_weaken; [|done]. unfold bend. lia. Qed.

Lemma apart_shrink lo X c k V : apart lo (X ++ c :: V) -> 0 < k <= c.2 -> apart lo (X ++ (c.1, k) :: V).
Proof. rewrite !apart_app. intros [? (? & ? & ?)] Hk. split; [done|]. cbn. split; [done|]. split; [lia|]. eapply apart_weaken; [|done]. unfold bend. cbn. lia. Qed.

(** The other blocks are clear of [c]. *)
Lemma apart_others lo X c V : apart lo (X ++ c :: V) -> forall x, inside c x -> ~ covers (X ++ V) x.
Proof.
  rewrite apart_app. intros [HX (H1 & H2 & HV)] x Hx. rewrite covers_app. intros [(b & Hb & Hi)|(b & Hb & Hi)]; unfold inside in Hx.
  - destruct (apart_elem _ _ _ HX Hb) as (_ & _ & ?). lia.
  - destruct (apart_elem _ _ _ HV Hb) as (? & _). lia.
Qed.

(** A block in the list has a node in front of it. *)
Lemma node_before h l prev c : heap h l -> c ∈ l -> (exists b, b ∈ (base, 0) :: l /\ b.1 = prev) -> hptr (h_mem h) prev = c.1 ->
  exists U pb V L, (base, 0) :: l = U ++ pb :: c :: V /\ pb.1 = prev /\ l = L ++ c :: V /\ (base, 0) :: L = U ++ [pb].
Proof.
  intros Hh Hc (pb & Hpb & <-) Hq. destruct (apart_elem _ _ _ (hp_apart _ _ Hh) Hc) as (Hc1 & Hc2 & _). pose proof (hp_seg _ _ Hh) as Hs.
  assert (hsize (h_mem h) c.1 = c.2) as Ec.
  { apply list_elem_of_split in Hc as (A & B & ->). change ((base, 0) :: A ++ c :: B) with (((base, 0) :: A) ++ c :: B) in Hs. apply seg_app in Hs as [_ Hs]. apply Hs. }
  apply list_elem_of_split in Hpb as (U & W & E). rewrite E in Hs. apply seg_app in Hs as [_ (_ & Eq & Hs)]. rewrite Hq in Eq. destruct W as [|c' V]; [cbn in Eq; lia|].
  destruct Hs as (Ec' & _). cbn in Eq. assert (c' = c) as -> by (destruct c, c'; cbn in *; congruence). exists U, pb, V. destruct U as [|u U]; injection E as <- E.
  - exists []. subst. done.
  - exists (U ++ [pb]). subst. rewrite <- app_assoc. done.
Qed.

Lemma seg_nodes h l c : heap h l -> c ∈ (base, 0) :: l -> hsize (h_mem h) c.1 = c.2.
Proof. intros Hh Hc. pose proof (hp_seg _ _ Hh) as Hs. apply list_elem_of_split in Hc as (A & B & E). rewrite E in Hs. apply seg_app in Hs as [_ Hs]. apply Hs. Qed.

(** Other nodes have their headers outside a block of the list. *)
Lemma other_headers h L c V b x : heap h (L ++ c :: V) -> b ∈ (base, 0) :: L ++ V -> header b.1 x -> ~ inside c x.
Proof.
  intros Hh Hb Hx Hi. pose proof (hp_apart _ _ Hh) as Ha. apply elem_of_cons in Hb as [->|Hb].
  - destruct (apart_elem _ _ c Ha ltac:(apply elem_of_app; right; by left)) as (? & _). unfold header, inside in *. cbn in *. lia.
  - apply (apart_others _ _ _ _ Ha x Hi). exists b. split; [done|]. assert (0 < b.2); [|unfold header, bend in *; lia].
    eapply (apart_elem _ _ b (apart_drop _ _ _ _ Ha) Hb).
Qed.

(** No two nodes share a byte of their headers. *)
Lemma nodes_spaced h l A b B c x : heap h l -> (base, 0) :: l = A ++ b :: B -> c ∈ A ++ B -> header c.1 x -> ~ header b.1 x.
Proof.
  intros Hh E Hc Hx Hb. pose proof (hp_apart _ _ Hh) as Ha. unfold header in *. destruct A as [|a A]; injection E as <- ->.
  - destruct (apart_elem _ _ c Ha Hc) as (? & _). cbn in *. lia.
  - apply apart_app in Ha as [HA (H1 & H2 & HB)]. pose proof (apart_lend _ _ HA). cbn in Hc. apply elem_of_cons in Hc as [->|Hc]; [cbn in *; lia|].
    apply elem_of_app in Hc as [Hc|Hc]; [destruct (apart_elem _ _ c HA Hc) as (? & ? & ?)|destruct (apart_elem _ _ c HB Hc) as (? & ? & ?)]; unfold bend in *; lia.
Qed.

Record carved (h : heapst) (l : list (Z * Z)) (n : Z) (r : Z) (h' : heapst) (l' : list (Z * Z)) : Prop := {
  cv_heap : heap h' l';
  cv_size : hsize (h_mem h') r = n;
  cv_range : base + 16 <= r /\ r + 16 * n <= h_brk h';
  cv_split : split_off l l' (r, n)
}.

Lemma carve_exact h l prev c : heap h l -> c ∈ l -> (exists b, b ∈ (base, 0) :: l /\ b.1 = prev) -> hptr (h_mem h) prev = c.1 ->
  exists m' l', carve c.2 prev c.1 c.2 h = Ok c.1 (with_mem m' h) /\ carved h l c.2 c.1 (with_freep prev (with_mem m' h)) l' /\
    frame (fun x => header base x \/ covers l x) (h_mem h) m'.
Proof.
  intros Hh Hc Hp Hq. destruct (node_before h l prev c Hh Hc Hp Hq) as (U & pb & V & L & EN & <- & -> & EU).
  destruct (heap_node h _ c Hh ltac:(by right)) as (C1 & C2 & C3). destruct (heap_node h _ pb Hh) as (P1 & P2 & P3); [rewrite EN; apply elem_of_app; right; by left|].
  pose proof (hp_seg _ _ Hh) as Hs. rewrite EN in Hs. apply seg_app in Hs as [SU (S1 & _ & S2 & S3 & SV)]. pose proof (hp_base _ _ Hh). pose proof (hp_max _ _ Hh). unfold HEAP_MAX in *.
  unfold carve. rewrite Z.eqb_refl. mrun (get_ptr_run h c.1 ltac:(lia) C2). rewrite S3. mrun (set_ptr_run h pb.1 ltac:(lia) P2 (front base V)).
  assert (0 <= front base V < 2 ^ 64) as Hf.
  { destruct V as [|v V]; cbn; [lia|]. destruct (heap_node h _ v Hh) as (? & ? & _); [right; apply elem_of_app; right; right; by left|lia]. }
  destruct (put_ptr_spec (h_mem h) pb.1 (front base V) Hf) as (E1 & E2 & F). exists (put_ptr (h_mem h) pb.1 (front base V)), (L ++ V). split; [done|].
  pose proof (hp_apart _ _ Hh) as Ha. assert (frame (fun x => header base x \/ covers (L ++ V) x) (h_mem h) (put_ptr (h_mem h) pb.1 (front base V))) as F'.
  { eapply frame_mono; [|exact F]. intros x Hx. assert (pb ∈ (base, 0) :: L) as Hin by (rewrite EU; apply elem_of_app; right; by left).
    apply elem_of_cons in Hin as [->|Hin]; [by left|right]. apply covers_app. left. exists pb. split; [done|].
    destruct (apart_elem _ _ pb Ha ltac:(apply elem_of_app; by left)) as (_ & ? & _). unfold header, bend in *. lia. }
  split; [split|].
  - split; [done|done|by eapply apart_drop| | |].
    + pose proof (hp_ends _ _ Hh) as He. cbn. rewrite Forall_app, Forall_cons in He. rewrite Forall_app. tauto.
    + cbn [with_freep with_mem h_mem]. change ((base, 0) :: L ++ V) with (((base, 0) :: L) ++ V). rewrite EU, <- app_assoc.
      apply seg_app. split; [|cbn [app seg]; rewrite E1, E2; split; [done|]; split; [done|]]; (eapply seg_frame; [exact F| |done]); intros b x Hb; apply (nodes_spaced h _ U pb (c :: V) b x Hh EN);
        rewrite elem_of_app, elem_of_cons; tauto.
    + exists pb. split; [|done]. change ((base, 0) :: L ++ V) with (((base, 0) :: L) ++ V). rewrite EU, !elem_of_app. left; right; by left.
  - cbn [with_freep with_mem h_mem]. destruct (header_same _ _ _ c.1 F) as [_ ->]; [|done]. intros x. apply (nodes_spaced h _ U pb (c :: V) c x Hh EN). rewrite elem_of_app, elem_of_cons. tauto.
  - destruct (apart_elem _ _ c Ha Hc) as (? & ? & _). split; [lia|exact C3].
  - split; [|exact (apart_others _ _ _ _ Ha)]. intros x. rewrite !covers_app, covers_cons. destruct c. cbn. tauto.
  - eapply frame_mono; [|exact F']. intros x [?|Hx]; [by left|right]. rewrite !covers_app, covers_cons in *. tauto.
Qed.

Lemma carve_tail h l prev c n : heap h l -> c ∈ l -> (exists b, b ∈ (base, 0) :: l /\ b.1 = prev) -> 0 < n < c.2 ->
  exists m' l' r, carve n prev c.1 c.2 h = Ok r (with_mem m' h) /\ carved h l n r (with_freep prev (with_mem m' h)) l' /\
    frame (fun x => header base x \/ covers l x) (h_mem h) m'.
Proof.
  intros Hh Hc Hp Hn. destruct (heap_node h _ c Hh ltac:(by right)) as (C1 & C2 & C3). pose proof (seg_nodes h l c Hh ltac:(by right)) as Es.
  pose proof (hsize_range (h_mem h) c.1) as Hr. rewrite Es in Hr. pose proof (hp_max _ _ Hh). pose proof (hp_apart _ _ Hh) as Ha. destruct (apart_elem _ _ c Ha Hc) as (Hc1 & _ & _). unfold HEAP_MAX in *.
  unfold carve. rewrite (proj2 (Z.eqb_neq _ _)) by lia. rewrite u32_small by lia. set (k := c.2 - n). mrun (set_size_run h c.1 ltac:(lia) C2 k).
  destruct (put_size_spec (h_mem h) c.1 k ltac:(lia)) as (E1 & E2 & F1). set (m1 := put_size (h_mem h) c.1 k) in *.
  mrun (get_size_run (with_mem m1 h) c.1 ltac:(lia) C2). cbn [with_mem h_mem]. rewrite E1, hdr_small by (unfold bend in *; lia). set (r := c.1 + 16 * k).
  assert (r + 16 <= h_brk h) as Hrb by (unfold bend in *; lia). mrun (set_size_run (with_mem m1 h) r ltac:(lia) Hrb n). cbn [with_mem h_mem].
  destruct (put_size_spec m1 r n ltac:(lia)) as (E3 & E4 & F2). set (m2 := put_size m1 r n) in *. apply list_elem_of_split in Hc as (L & V & ->).
  exists m2, (L ++ (c.1, k) :: V), r. split; [done|].
  assert (frame (inside c) (h_mem h) m2) as F by (eapply frame_seq; [exact F1|exact F2| |]; intros x Hx; unfold header, inside, bend in *; lia).
  assert (hptr m2 c.1 = hptr (h_mem h) c.1 /\ hsize m2 c.1 = k) as [G1 G2].
  { destruct (header_same _ _ m2 c.1 F2) as [-> ->]; [|done]. intros x. unfold header. lia. }
  split; [split|].
  - split; [by apply Hh|done| | | |].
    + apply apart_shrink; [done|lia].
    + pose proof (hp_ends _ _ Hh) as He. cbn. rewrite Forall_app, Forall_cons in He |- *. split_and!; [tauto| |tauto]. unfold bend in *. cbn. lia.
    + cbn [with_freep with_mem h_mem]. pose proof (hp_seg _ _ Hh) as Hs. change ((base, 0) :: L ++ ?y) with (((base, 0) :: L) ++ y) in *. rewrite seg_app in Hs |- *.
      destruct Hs as [SL (_ & S2 & SV)]. split; [|cbn [seg fst snd]; rewrite G1, G2; split; [done|]; split; [done|]]; (eapply seg_frame; [exact F| |done]); intros b x Hb;
        apply (other_headers h L c V b x Hh); cbn; rewrite elem_of_cons, elem_of_app in *; tauto.
    + destruct Hp as (b & Hb & <-). rewrite elem_of_cons, elem_of_app, elem_of_cons in Hb. destruct Hb as [->|[Hb|[->|Hb]]].
      1: by exists (base, 0); split; [left|]. 2: by exists (c.1, k); split; [right; apply elem_of_app; right; left|].
      all: exists b; split; [rewrite elem_of_cons, elem_of_app, elem_of_cons; tauto|done].
  - done.
  - cbn. unfold bend in *. lia.
  - split.
    + intros x. rewrite !covers_app, !covers_cons. assert (inside c x <-> inside (c.1, k) x \/ inside (r, n) x) as -> by (unfold inside, bend, r, k; cbn; lia). tauto.
    + intros x Hx. rewrite covers_app, covers_cons. pose proof (apart_others _ _ _ _ Ha x) as Ho. rewrite covers_app in Ho. unfold inside, bend in *. cbn in *. intros [?|[?|?]]; [|lia|]; (apply Ho; [lia|tauto]).
  - eapply frame_mono; [|exact F]. intros x Hx. right. apply covers_app. right. apply covers_cons. by left.
Qed.

Context (can_grow : Z -> Z -> bool).

(** Found a block, or around the list without success. *)
Definition take_block (n prev p k : Z) : M heapst Z := r ← carve n prev p k; modify (with_freep prev);; mret (hdr r 1).
Definition grow (f : nat) (n : Z) : M heapst Z := p ← morecore can_grow n; if p =? 0 then mret 0 else q ← get_ptr p; malloc_loop can_grow f n p q.

Lemma walk_ok h n f z : f.1 = h_freep h -> forall P fuel prev, seg (h_mem h) (P ++ [f]) z -> Forall (fun c => c.1 <> h_freep h) P ->
  Forall (fun c => 0 <= c.1 /\ c.1 + 16 <= h_brk h) (P ++ [f]) -> hptr (h_mem h) prev = front z (P ++ [f]) -> (length P < fuel)%nat ->
  (exists c prev', c ∈ P ++ [f] /\ n <= c.2 /\ (prev' = prev \/ exists b, b ∈ P /\ b.1 = prev') /\ hptr (h_mem h) prev' = c.1 /\
     malloc_loop can_grow fuel n prev (front z (P ++ [f])) h = take_block n prev' c.1 c.2 h) \/
  (Forall (fun c => c.2 < n) (P ++ [f]) /\ malloc_loop can_grow fuel n prev (front z (P ++ [f])) h = grow (fuel - length P - 1) n h).
Proof.
  intros Hf. induction P as [|c P IH]; intros fuel prev Hs Hne Hin Hq Hfuel; (destruct fuel as [|fuel]; [lia|]); cbn [app front] in *; apply Forall_cons_1 in Hin as [[H1 H2] Hin];
    destruct Hs as (S1 & S2 & Hs); cbn [malloc_loop]; rewrite (bind_ok _ _ _ _ _ (get_size_run h _ H1 H2)), S1.
  - destruct (Z.leb_spec n f.2) as [Hle|Hlt].
    + left. exists f, prev. split_and!; [by left|done|by left|done|done].
    + right. split; [by constructor|]. mstep. rewrite Hf, Z.eqb_refl. cbn [length]. replace (S fuel - 0 - 1)%nat with fuel by lia. done.
  - apply Forall_cons_1 in Hne as [Hc Hne]. destruct (Z.leb_spec n c.2) as [Hle|Hlt].
    + left. exists c, prev. split_and!; [by left|done|by left|done|done].
    + mstep. rewrite (proj2 (Z.eqb_neq _ _) Hc). mrun (get_ptr_run h c.1 H1 H2). rewrite S2.
      destruct (IH fuel c.1 Hs Hne Hin S2 ltac:(cbn in Hfuel; lia)) as [(d & p & D1 & D2 & D3 & D4 & D5)|[D1 D2]].
      * left. exists d, p. split_and!; [by right|done| |done|done]. right. destruct D3 as [->|(b & Hb & <-)]; [exists c; split; [by left|done]|exists b; split; [by right|done]].
      * right. split; [by constructor|]. rewrite D2. f_equal.
Qed.

(** One round from [freep] sees every block. *)
Lemma round_ok h l n fuel : heap h l -> 0 < n -> (length l < fuel)%nat -> let fp := h_freep h in
  (exists c prev, c ∈ l /\ n <= c.2 /\ (exists b, b ∈ (base, 0) :: l /\ b.1 = prev) /\ hptr (h_mem h) prev = c.1 /\
     malloc_loop can_grow fuel n fp (hptr (h_mem h) fp) h = take_block n prev c.1 c.2 h) \/
  (Forall (fun c => c.2 < n) l /\ malloc_loop can_grow fuel n fp (hptr (h_mem h) fp) h = grow (fuel - length l - 1) n h).
Proof.
  intros Hh Hn Hfuel fp. destruct (hp_freep _ _ Hh) as (f & Hf & Ef). fold fp in Ef. pose proof (list_elem_of_split _ _ Hf) as (A & B & E).
  pose proof (hp_seg _ _ Hh) as Hs. rewrite E in Hs. apply seg_app in Hs as [SA (S1 & S2 & SB)]. assert (front base (A ++ [f]) = base) as Eb by (destruct A; injection E as <- _; done).
  assert (forall c, c ∈ (B ++ A) ++ [f] <-> c ∈ (base, 0) :: l) as Hel by (intros c; rewrite E, !elem_of_app, !elem_of_cons, elem_of_nil; tauto).
  assert (length (B ++ A) = length l) as El by (apply (f_equal length) in E; rewrite !length_app in *; cbn in E; lia).
  assert (hptr (h_mem h) fp = front (front base B) ((B ++ A) ++ [f])) as Efr by (rewrite <- Ef, S2; destruct B; [cbn [app]; by rewrite <- Eb at 1; destruct A|done]).
  destruct (walk_ok h n f (front base B) Ef (B ++ A) fuel fp) as [(c & prev & D1 & D2 & D3 & D4 & D5)|[D1 D2]].
  - rewrite <- app_assoc. apply seg_app. split; [destruct A; injection E as <- _; exact SB|]. apply seg_app. split; [exact SA|]. cbn [seg]. by rewrite S1, S2.
  - apply Forall_forall. intros c Hc Ec. apply (nodes_spaced h l A f B c c.1 Hh E); [rewrite elem_of_app in *; tauto|unfold header; lia|unfold header; fold fp in Ec; lia].
  - apply Forall_forall. intros c Hc. apply Hel in Hc. destruct (heap_node h l c Hh Hc) as (? & ? & _). lia.
  - done.
  - lia.
  - left. exists c, prev. apply Hel in D1. rewrite Efr. split_and!; [|done| |done|done].
    + apply elem_of_cons in D1 as [->|?]; [cbn in D2; lia|done].
    + destruct D3 as [->|(b & Hb & <-)]; [exists f; done|]. exists b. split; [|done]. apply Hel, elem_of_app. by left.
  - right. rewrite Efr. split; [|by rewrite <- El]. apply Forall_forall. intros c Hc. rewrite Forall_forall in D1. apply D1, Hel. by right.
Qed.

(** The block that was found. *)
Lemma take_run h l n c prev : heap h l -> 0 < n -> c ∈ l -> n <= c.2 -> (exists b, b ∈ (base, 0) :: l /\ b.1 = prev) -> hptr (h_mem h) prev = c.1 ->
  exists h' l' r, take_block n prev c.1 c.2 h = Ok (r + 16) h' /\ carved h l n r h' l' /\ h_brk h' = h_brk h /\ frame (fun x => header base x \/ covers l x) (h_mem h) (h_mem h').
Proof.
  intros Hh Hn Hc Hle Hp Hq. assert (exists m' l' r, carve n prev c.1 c.2 h = Ok r (with_mem m' h) /\ carved h l n r (with_freep prev (with_mem m' h)) l' /\
    frame (fun x => header base x \/ covers l x) (h_mem h) m') as (m' & l' & r & E & C & F).
  { destruct (decide (n = c.2)) as [->|Hne]; [|by apply carve_tail; [| | |lia]]. destruct (carve_exact h l prev c Hh Hc Hp Hq) as (m' & l' & ?). by exists m', l', c.1. }
  exists (with_freep prev (with_mem m' h)), l', r. split; [|done]. unfold take_block. mrun E. mstep. destruct (cv_range _ _ _ _ _ _ C) as [J1 J2]. pose proof (hp_max _ _ Hh). unfold HEAP_MAX in *. cbn in J2.
  by rewrite hdr_small by lia.
Qed.

(** What the kernel grows is backed by memory. *)
Context (Hgrow : forall sz n, can_grow sz n = true -> sz + n <= HEAP_MAX).

(** The break can be moved by so many bytes. *)
Definition grows (h : heapst) (k : Z) : Prop := h_brk h + k <= TRAPFRAME /\ can_grow (h_brk h) k = true.

Lemma sbrk_run h k : 0 < k -> (grows h k /\ sbrk can_grow k h = Ok (h_brk h) (mkHeap (h_mem h) (h_brk h + k) (h_freep h))) \/ (~ grows h k /\ sbrk can_grow k h = Ok SBRK_ERROR h).
Proof.
  intros Hk. unfold sbrk, grows. mstep. rewrite (proj2 (Z.ltb_lt 0 k) Hk). destruct (Z.ltb_spec TRAPFRAME (h_brk h + k)); [right; split; [lia|done]|].
  destruct (can_grow (h_brk h) k); [left; split; [done|done]|right; split; [by intros []|done]].
Qed.

(** Memory behind the break is not part of the heap. *)
Lemma heap_extend h l k m : heap h l -> 0 <= k -> h_brk h + k <= HEAP_MAX -> frame (fun x => h_brk h <= x) (h_mem h) m -> heap (mkHeap m (h_brk h + k) (h_freep h)) l.
Proof.
  intros Hh Hk Hm F. destruct Hh as [H1 H2 H3 H4 H5 H6] eqn:Eh. split; cbn; [lia|done|done| | |done].
  - eapply Forall_impl; [exact H4|]. cbn. lia.
  - eapply (seg_frame _ _ _ ((base, 0) :: l)); [exact F| |exact H5]. intros b x Hb Hx. destruct (heap_node h l b Hh Hb) as (_ & ? & _). unfold header in Hx. lia.
Qed.

Lemma morecore_run h l n : heap h l -> 0 < n -> 16 * n < 2 ^ 31 -> let k := 16 * Z.max 4096 n in
  (~ grows h k /\ morecore can_grow n h = Ok 0 h) \/
  (grows h k /\ exists h' l', morecore can_grow n h = Ok (h_freep h') h' /\ heap h' l' /\ h_brk h' = h_brk h + k /\
     (forall x, covers l' x <-> covers l x \/ h_brk h <= x < h_brk h') /\ (length l' <= S (length l))%nat /\ (exists c, c ∈ l' /\ n <= c.2) /\
     frame (fun x => header base x \/ covers l x \/ h_brk h <= x) (h_mem h) (h_mem h')).
Proof.
  intros Hh Hn Hb k. unfold morecore. replace (if n <? 4096 then 4096 else n) with (Z.max 4096 n) by (destruct (Z.ltb_spec n 4096); lia). set (nu := Z.max 4096 n).
  replace (s32 (nu * SIZEOF_HEADER)) with k by (unfold SIZEOF_HEADER, k; rewrite s32_small; lia). destruct (sbrk_run h k ltac:(lia)) as [[Hg E]|[Hg E]]; mrun E.
  2: { left. by rewrite Z.eqb_refl. }
  right. split; [done|]. pose proof (Hgrow _ _ (proj2 Hg)) as Hm. pose proof (hp_base _ _ Hh). assert (HEAP_MAX = 2 ^ 36) as EM by done.
  rewrite (proj2 (Z.eqb_neq _ _)) by (unfold SBRK_ERROR; lia). set (h1 := mkHeap (h_mem h) (h_brk h + k) (h_freep h)).
  assert (h_brk h + 16 <= h_brk h1) as Hroom by (cbn; lia). mrun (set_size_run h1 (h_brk h) ltac:(lia) Hroom nu). destruct (put_size_spec (h_mem h) (h_brk h) nu ltac:(lia)) as (S1 & _ & F1).
  cbn [h_mem h1]. set (m1 := put_size (h_mem h) (h_brk h) nu) in *. assert (heap (with_mem m1 h1) l) as Hh1.
  { apply (heap_extend h l k m1 Hh); [lia|done|]. eapply frame_mono; [|exact F1]. unfold header. intros. lia. }
  rewrite hdr_small by lia. replace (h_brk h + 16 * 1) with ((h_brk h, nu).1 + 16) by (cbn; lia).
  destruct (free_run (with_mem m1 h1) l (h_brk h, nu) Hh1) as (m2 & l' & p & E2 & Hh2 & Hcov & Hlen & Hbig & F2); [done|cbn; lia|cbn; lia|unfold bend; cbn; lia| |].
  { intros x Hx (b & Hbl & Hi). destruct (heap_node h l b Hh ltac:(by right)) as (_ & _ & ?). unfold inside in Hx. cbn in Hx. lia. }
  mrun E2. exists (with_freep p (with_mem m2 (with_mem m1 h1))), l'. split; [done|]. split; [done|]. split; [done|]. split; [|split; [done|split]].
  - intros x. rewrite Hcov. unfold inside, bend. cbn. fold k. tauto.
  - destruct Hbig as (c & Hc & Hle). exists c. split; [done|]. cbn in Hle. lia.
  - eapply frame_seq; [exact F1|exact F2| |]; intros x Hx; unfold header, inside in *; cbn in Hx; [right; right; lia|]. destruct Hx as [?|[?|?]]; [by left|right; by left|right; right; lia].
Qed.

(** Block [b] is handed out: it comes from the free blocks and what the heap
    has grown by, which stay free but for it. *)
Record given (h : heapst) (l : list (Z * Z)) (b : Z * Z) (h' : heapst) (l' : list (Z * Z)) : Prop := {
  gv_heap : heap h' l';
  gv_size : hsize (h_mem h') b.1 = b.2;
  gv_range : base + 16 <= b.1 /\ bend b <= h_brk h';
  gv_grown : h_brk h <= h_brk h';
  gv_covers x : covers l x \/ h_brk h <= x < h_brk h' <-> covers l' x \/ inside b x;
  gv_apart x : inside b x -> ~ covers l' x;
  gv_frame : frame (fun x => header base x \/ covers l x \/ h_brk h <= x) (h_mem h) (h_mem h')
}.

Lemma loop_run h l n fuel : heap h l -> 0 < n -> 16 * n < 2 ^ 31 -> (2 * length l + 4 <= fuel)%nat -> let fp := h_freep h in
  (Forall (fun c => c.2 < n) l /\ ~ grows h (16 * Z.max 4096 n) /\ malloc_loop can_grow fuel n fp (hptr (h_mem h) fp) h = Ok 0 h) \/
  (exists r h' l', malloc_loop can_grow fuel n fp (hptr (h_mem h) fp) h = Ok (r + 16) h' /\ given h l (r, n) h' l').
Proof.
  intros Hh Hn Hb Hfuel fp. destruct (round_ok h l n fuel Hh Hn ltac:(lia)) as [(c & prev & Hc & Hle & Hp & Hq & E)|[Hsmall E]]; fold fp in E; rewrite E.
  - right. destruct (take_run h l n c prev Hh Hn Hc Hle Hp Hq) as (h' & l' & r & E' & [C1 C2 C3 [C4 C5]] & Eb & F). exists r, h', l'. split; [done|]. split; try done; [lia| |].
    + intros x. rewrite <- C4, Eb. split; [intros [?|?]; [done|lia]|by left].
    + eapply frame_mono; [|exact F]. intros x [?|?]; [by left|right; by left].
  - unfold grow. destruct (morecore_run h l n Hh Hn Hb) as [[Hng E']|(_ & h1 & l1 & E' & Hh1 & Eb1 & Hcov & Hlen & (c1 & Hc1 & Hbig) & F1)]; mrun E'; [by left|right].
    assert (base <= h_freep h1 /\ h_freep h1 + 16 <= h_brk h1) as [Hf1 Hf2]. { destruct (hp_freep _ _ Hh1) as (b & Hbin & <-). destruct (heap_node _ _ _ Hh1 Hbin) as (? & ? & _). done. }
    rewrite (proj2 (Z.eqb_neq _ _)) by lia. mrun (get_ptr_run h1 (h_freep h1) ltac:(lia) Hf2).
    destruct (round_ok h1 l1 n (fuel - length l - 1) Hh1 Hn ltac:(lia)) as [(c & prev & Hc & Hle & Hp & Hq & E2)|[Hsmall2 _]]; [|exfalso; rewrite Forall_forall in Hsmall2; specialize (Hsmall2 c1 Hc1); cbn in Hsmall2; lia].
    rewrite E2. destruct (take_run h1 l1 n c prev Hh1 Hn Hc Hle Hp Hq) as (h' & l' & r & E3 & [C1 C2 C3 [C4 C5]] & Eb & F). exists r, h', l'. split; [done|]. split; try done; [lia| |].
    + intros x. rewrite <- C4, Hcov, Eb. done.
    + eapply frame_seq; [exact F1|exact F|done|]. intros x [?|Hx]; [by left|]. apply Hcov in Hx as [?|?]; [right; by left|right; right; lia].
Qed.

(** * The blocks in use *)

#[local] Instance inside_dec b x : Decision (inside b x).
Proof. unfold inside. apply _. Defined.

(** [l] is free and [A] in use: blocks of [A] have their sizes in front of
    them, and no byte belongs to two blocks.  [freep] is 0 before the first
    call. *)
Record owns (h : heapst) (l A : list (Z * Z)) : Prop := {
  ow_heap : heap h l \/ (h_freep h = 0 /\ l = [] /\ A = [] /\ base + 16 <= h_brk h <= HEAP_MAX);
  ow_block b : b ∈ A -> base + 16 <= b.1 /\ 0 < b.2 /\ bend b <= h_brk h /\ hsize (h_mem h) b.1 = b.2;
  ow_free b x : b ∈ A -> inside b x -> ~ covers l x;
  ow_apart x : (length (filter (fun b => inside b x) A) <= 1)%nat
}.

(** The blocks [A] hold what they held. *)
Definition kept (A : list (Z * Z)) (h h' : heapst) : Prop := forall b x, b ∈ A -> inside b x -> load8 (h_mem h') x = load8 (h_mem h) x.

Lemma owns_frame h l A P h' : owns h l A -> frame P (h_mem h) (h_mem h') -> (forall b x, b ∈ A -> inside b x -> ~ P x) -> h_brk h <= h_brk h' ->
  kept A h h' /\ forall b, b ∈ A -> base + 16 <= b.1 /\ 0 < b.2 /\ bend b <= h_brk h' /\ hsize (h_mem h') b.1 = b.2.
Proof.
  intros [_ Hb _ _] F Hd Hbrk. split; [intros b x Hin Hx; by apply F, (Hd b)|]. intros b Hin. destruct (Hb b Hin) as (H1 & H2 & H3 & H4). split_and!; [done|done|lia|].
  rewrite <- H4. apply (header_same P); [done|]. intros x Hx. apply (Hd b x Hin). unfold header, inside, bend in *. lia.
Qed.

Lemma init_run h : base + 16 <= h_brk h <= HEAP_MAX -> exists m', (set_ptr base base;; modify (with_freep base);; set_size base 0) h = Ok tt (with_freep base (with_mem m' h)) /\
  heap (with_freep base (with_mem m' h)) [] /\ frame (header base) (h_mem h) m'.
Proof.
  intros [H1 H2]. pose proof H2 as H3. unfold HEAP_MAX in H3. mrun (set_ptr_run h base ltac:(lia) H1 base). mstep. destruct (put_ptr_spec (h_mem h) base base ltac:(lia)) as (E1 & E2 & F1).
  set (m1 := put_ptr (h_mem h) base base) in *. rewrite (set_size_run (with_freep base (with_mem m1 h)) base ltac:(lia) H1 0). destruct (put_size_spec m1 base 0 ltac:(lia)) as (E3 & E4 & F2).
  exists (put_size m1 base 0). split; [done|]. split; [|by eapply frame_seq]. split; [done|done|done|done| |].
  - cbn [seg with_freep with_mem h_mem fst snd front]. by rewrite E3, E4, E1.
  - exists (base, 0). split; [by left|done].
Qed.

Lemma malloc_start h l A : owns h l A -> exists h0, (if h_freep h =? 0 then set_ptr base base;; modify (with_freep base);; set_size base 0 else mret tt) h = Ok tt h0 /\
  heap h0 l /\ owns h0 l A /\ h_brk h0 = h_brk h /\ frame (header base) (h_mem h) (h_mem h0).
Proof.
  intros Ho. pose proof Ho as [[Hh|(Hf & -> & -> & Hr)] H2 H3 H4].
  - exists h. split; [|done]. destruct (hp_freep _ _ Hh) as (b & Hb & <-). destruct (heap_node h l b Hh Hb) as (? & _). by rewrite (proj2 (Z.eqb_neq _ _)) by lia.
  - destruct (init_run h Hr) as (m' & E & Hh & F). rewrite Hf. cbn [Z.eqb]. exists (with_freep base (with_mem m' h)). split; [exact E|]. split; [done|]. split; [|done].
    split; [by left|intros b Hb; by apply not_elem_of_nil in Hb|intros b x Hb; by apply not_elem_of_nil in Hb|done].
Qed.

(** A block that was given out is one more in use. *)
Lemma owns_given h l A b h' l' : owns h l A -> heap h l -> 0 < b.2 -> given h l b h' l' -> owns h' l' (b :: A) /\ kept A h h'.
Proof.
  intros Ho Hh Hn [G1 G2 G3 G4 G5 G6 G7]. pose proof Ho as [_ H2 H3 H4].
  assert (forall c x, c ∈ A -> inside c x -> ~ (header base x \/ covers l x \/ h_brk h <= x)) as Hd.
  { intros c x Hc Hx. destruct (H2 c Hc) as (J1 & _ & J2 & _). unfold header, inside in *. intros [?|[?|?]]; [lia|by apply (H3 c x)|lia]. }
  destruct (owns_frame h l A _ h' Ho G7 Hd G4) as [Hk Hb]. split; [|done].
  assert (forall c x, c ∈ A -> inside c x -> ~ (covers l' x \/ inside b x)) as Hd'.
  { intros c x Hc Hx Hi. apply (Hd c x Hc Hx). apply G5 in Hi as [?|?]; [right; by left|right; right; lia]. }
  split; [by left| | |].
  - intros c Hc. apply elem_of_cons in Hc as [->|Hc]; [|by apply Hb]. destruct G3. done.
  - intros c x Hc Hx. apply elem_of_cons in Hc as [->|Hc]; [by apply G6|]. intros ?. apply (Hd' c x Hc Hx). by left.
  - intros x. rewrite filter_cons. destruct (decide (inside b x)) as [Hi|]; [|apply H4]. cbn. destruct (filter (fun c => inside c x) A) as [|c F] eqn:EF; [cbn; lia|].
    exfalso. assert (c ∈ filter (fun c => inside c x) A) as Hc by (rewrite EF; by left). apply list_elem_of_filter in Hc as [Hx Hc]. apply (Hd' c x Hc Hx). by right.
Qed.

Lemma malloc_run h l A nbytes : owns h l A -> 0 <= nbytes <= 2 ^ 31 - 32 -> let n := units nbytes in
  (exists h', malloc base can_grow nbytes h = Ok 0 h' /\ owns h' l A /\ kept A h h' /\ Forall (fun c => c.2 < n) l /\ ~ grows h (16 * Z.max 4096 n)) \/
  (exists a h' l', malloc base can_grow nbytes h = Ok (a + 16) h' /\ owns h' l' ((a, n) :: A) /\ kept A h h' /\ nbytes <= 16 * (n - 1) /\
     forall x, covers l x \/ h_brk h <= x < h_brk h' <-> covers l' x \/ inside (a, n) x).
Proof.
  intros Ho Hn n. assert (0 < n /\ 16 * n < 2 ^ 31 /\ nbytes <= 16 * (n - 1)) as (Hn1 & Hn2 & Hn3).
  { unfold n, units, SIZEOF_HEADER. pose proof (Z.div_mod (nbytes + 16 - 1) 16 ltac:(lia)). pose proof (Z.mod_pos_bound (nbytes + 16 - 1) 16 ltac:(lia)). lia. }
  destruct (malloc_start h l A Ho) as (h0 & E0 & Hh & Ho0 & Eb & F0). unfold malloc. fold n. rewrite u32_small by lia. mstep. mrun E0. mstep.
  destruct (owns_frame h l A _ h0 Ho F0) as [Hk _]; [|lia|].
  { intros b x Hb Hx. destruct (ow_block _ _ _ Ho b Hb) as (? & _). unfold header, inside in *. lia. }
  destruct (hp_freep _ _ Hh) as (f & Hf & Ef). destruct (heap_node h0 l f Hh Hf) as (F1 & F2 & _). rewrite Ef in *. mrun (get_ptr_run h0 (h_freep h0) ltac:(lia) F2).
  pose proof (heap_length h0 l Hh) as Hlen. destruct (loop_run h0 l n (rounds h0) Hh Hn1 Hn2) as [(Hs & Hg & E)|(r & h' & l' & E & G)].
  - unfold rounds. change SIZEOF_HEADER with 16. lia.
  - left. exists h0. split; [done|]. split; [done|]. split; [done|]. split; [done|]. unfold grows in *. by rewrite <- Eb.
  - right. exists r, h', l'. destruct (owns_given h0 l A (r, n) h' l' Ho0 Hh Hn1 G) as [Ho' Hk']. split; [done|]. split; [done|]. split; [|split; [done|]].
    + intros b x Hb Hx. by rewrite (Hk' b x), (Hk b x).
    + intros x. rewrite <- Eb. apply (gv_covers _ _ _ _ _ G).
Qed.

(** C18: [malloc] of up to 2^31 - 32 bytes.  It hands out a block with room for
    the bytes behind its header, which comes from the free blocks or from memory
    the kernel has added, and which no other block in use and no block that
    stays free overlaps; everything else stays free.  It returns 0 only when no
    free block is big enough and the kernel does not grow the heap.  The blocks
    in use keep their contents, and no access leaves the memory of the process. *)
Theorem malloc_correct h l A nbytes : owns h l A -> 0 <= nbytes <= 2 ^ 31 - 32 -> let n := units nbytes in
  (exists h', malloc base can_grow nbytes h = Ok 0 h' /\ owns h' l A /\ kept A h h' /\ Forall (fun c => c.2 < n) l /\ ~ grows h (16 * Z.max 4096 n)) \/
  (exists a h' l', malloc base can_grow nbytes h = Ok (a + 16) h' /\ owns h' l' ((a, n) :: A) /\ kept A h h' /\ nbytes <= 16 * (n - 1) /\
     forall x, covers l x \/ h_brk h <= x < h_brk h' <-> covers l' x \/ inside (a, n) x).
Proof. apply malloc_run. Qed.

(** C19: [free] of a block in use.  All of it and nothing else becomes free
    again, joined with the free blocks next to it (the list never has two
    adjacent blocks), and the other blocks in use keep their contents. *)
Theorem free_correct h l A b A' : owns h l A -> A ≡ₚ b :: A' ->
  exists h' l', free (b.1 + 16) h = Ok tt h' /\ owns h' l' A' /\ kept A' h h' /\ apart (base + 15) l' /\ h_brk h' = h_brk h /\
    forall x, covers l' x <-> covers l x \/ inside b x.
Proof.
  intros Ho HP. pose proof Ho as [Hh H2 H3 H4]. assert (b ∈ A) as Hb by (rewrite HP; by left). assert (forall c, c ∈ A' -> c ∈ A) as Hsub by (intros c Hc; rewrite HP; by right).
  destruct Hh as [Hh|(_ & _ & -> & _)]; [|by apply not_elem_of_nil in Hb]. destruct (H2 b Hb) as (B1 & B2 & B3 & B4).
  destruct (free_run h l b Hh B4 B2 B1 B3 (fun x => H3 b x Hb)) as (m' & l' & p & E & Hh' & Hcov & _ & _ & F). exists (with_freep p (with_mem m' h)), l'. split; [done|].
  assert (forall c x, c ∈ A' -> inside c x -> ~ inside b x) as Hd.
  { intros c x Hc Hx Hi. specialize (H4 x). rewrite HP, filter_cons, decide_True in H4 by done. cbn in H4.
    assert (c ∈ filter (fun b => inside b x) A') as Hin by (by apply list_elem_of_filter). destruct (filter (fun b => inside b x) A'); [by apply not_elem_of_nil in Hin|cbn in H4; lia]. }
  assert (owns h l A') as Ho'.
  { split; [by left|intros c Hc; by apply H2, Hsub|intros c x Hc; by apply H3, Hsub|]. intros x. specialize (H4 x). rewrite HP, filter_cons in H4.
    destruct (decide _); cbn in H4; lia. }
  destruct (owns_frame h l A' _ (with_freep p (with_mem m' h)) Ho' F) as [Hk Hbl]; [|done|].
  { intros c x Hc Hx. destruct (H2 c (Hsub c Hc)) as (C1 & _). unfold header. intros [?|[?|?]]; [unfold inside in Hx; lia|by apply (H3 c x (Hsub c Hc))|by apply (Hd c x Hc Hx)]. }
  split; [|split_and!; [done|apply Hh'|done|done]]. split; [by left|done| |apply Ho'].
  intros c x Hc Hx Hl. apply Hcov in Hl as [?|?]; [by apply (H3 c x (Hsub c Hc))|by apply (Hd c x Hc)].
Qed.
End Heap.

(** A process of one page with its [base] at 64. *)
Definition fits (sz n : Z) : bool := sz + n <=? HEAP_MAX.
Definition fresh : heapst := mkHeap ∅ 4096 0.

Lemma fits_max sz n : fits sz n = true -> sz + n <= HEAP_MAX.
Proof. apply Z.leb_le. Qed.

Lemma fresh_owns : owns 64 fresh [] [].
Proof. split; [right; split_and!; [done|done|done|cbn; lia|unfold HEAP_MAX; cbn; lia]|intros b Hb; by apply not_elem_of_nil in Hb|intros b x Hb; by apply not_elem_of_nil in Hb|cbn; lia]. Qed.

Lemma malloc_correct_witness : exists a h l, malloc 64 fits 100 fresh = Ok (a + 16) h /\ owns 64 h l [(a, 8)].
Proof.
  destruct (malloc_correct 64 ltac:(lia) fits fits_max fresh [] [] 100 fresh_owns ltac:(lia)) as [(h & _ & _ & _ & _ & Hg)|(a & h & l & E & Ho & _)].
  - exfalso. apply Hg. vm_compute. split; [discriminate|done].
  - exists a, h, l. exact (conj E Ho).
Defined.

Lemma free_correct_witness : exists a h h' l', malloc 64 fits 100 fresh = Ok (a + 16) h /\ free (a + 16) h = Ok tt h' /\ owns 64 h' l' [].
Proof.
  destruct (malloc_run 64 ltac:(lia) fits fits_max fresh [] [] 100 fresh_owns ltac:(lia)) as [(h & _ & _ & _ & _ & Hg)|(a & h & l & E & Ho & _)].
  - exfalso. apply Hg. vm_compute. split; [discriminate|done].
  - destruct (free_correct 64 ltac:(lia) h l [(a, units 100)] (a, units 100) [] Ho (reflexivity _)) as (h' & l' & Ef & Ho' & _). exists a, h, h', l'. exact (conj E (conj Ef Ho')).
Defined.

(** Behind the bound of [malloc_correct]: the number of bytes that [morecore]
    asks for is converted to an int.  A request of 2^32 - 1 bytes grows the heap
    by 16 bytes and returns its end. *)
Lemma malloc_huge : match malloc 64 fits (2 ^ 32 - 1) fresh with Ok p h => p = h_brk h /\ h_brk h = h_brk fresh + 16 | _ => False end.
Proof. vm_compute. by split. Qed.
