(* ===== verification/XUtils.v ===== *)
(** reference/xv6-riscv/user/wc.c and cat.c, over the system-call interface of
    [Ulib].  A function that calls [exit] returns the status, [None] when it
    returns to its caller. *)

From stdpp Require Import base gmap list strings numbers.
From Stdlib Require Import ZArith Lia.
From S2P Require Import Prelude Mem KString Vm Printf Ulib XGrep.

(** * The programs *)

Definition UTILBUF : Z := 512.

(** The counters [l], [w], [c] (of type [int]) and [inword]. *)
Record counts : Type := mkC { wc_l : Z; wc_w : Z; wc_c : Z; wc_in : bool }.

(** [strchr(" \r\t\n\v", ch)] finds something. *)
Definition blanks : list Z := [32; 13; 9; 10; 11].
Definition is_blank (ch : Z) : bool :=
  match strchr 6 (fun i => (blanks ++ [0]) !!! Z.to_nat i) ch with Some (Some _) => true | _ => false end.

Definition wc_char (k : counts) (ch : Z) : counts :=
  let c := s32 (wc_c k + 1) in
  let l := if ch =? 10 then s32 (wc_l k + 1) else wc_l k in
  if is_blank ch then mkC l (wc_w k) c false
  else if negb (wc_in k) then mkC l (s32 (wc_w k + 1)) c true
  else mkC l (wc_w k) c (wc_in k).

Section Utils.
Context `{Sys W}.

Fixpoint wc_loop (fuel : nat) (fd : Z) (k : counts) : M W (Z * counts) :=
  match fuel with
  | O => out_of_fuel
  | S f =>
      '(n, d) ← u_read fd UTILBUF;
      if 0 <? n then wc_loop f fd (foldl wc_char k (take (Z.to_nat n) d)) else mret (n, k)
  end.

Definition wc (fuel : nat) (fd : Z) (name : list Z) : M W (option Z) :=
  '(n, k) ← wc_loop fuel fd (mkC 0 0 0 false);
  if n <? 0 then
    uprintf "wc: read error
" [];;
    mret (Some 1)
  else
    uprintf "%d %d %d %s
" [A32 (wc_l k); A32 (wc_w k); A32 (wc_c k); AStr (Some name)];;
    mret None.

Fixpoint wc_files (fuel : nat) (files : list (list Z)) : M W Z :=
  match files with
  | [] => mret 0
  | name :: files' =>
      fd ← u_open name O_RDONLY;
      if fd <? 0 then
        uprintf "wc: cannot open %s
" [AStr (Some name)];;
        mret 1
      else
        r ← wc fuel fd name;
        match r with
        | Some st => mret st
        | None => u_close fd;; wc_files fuel files'
        end
  end.

(** [main] on the arguments after [argv[0]]; its value is the exit status. *)
Definition wc_main (fuel : nat) (argv : list (list Z)) : M W Z :=
  match argv with
  | [] => r ← wc fuel 0 []; mret (default 0 r)
  | files => wc_files fuel files
  end.

Fixpoint cat (fuel : nat) (fd : Z) : M W (option Z) :=
  match fuel with
  | O => out_of_fuel
  | S f =>
      '(n, d) ← u_read fd UTILBUF;
      if 0 <? n then
        r ← u_write 1 (take (Z.to_nat n) d);
        if negb (r =? n) then
          fprintf 2 "cat: write error
" [];;
          mret (Some 1)
        else cat f fd
      else if n <? 0 then
        fprintf 2 "cat: read error
" [];;
        mret (Some 1)
      else mret None
  end.

Fixpoint cat_files (fuel : nat) (files : list (list Z)) : M W Z :=
  match files with
  | [] => mret 0
  | name :: files' =>
      fd ← u_open name O_RDONLY;
      if fd <? 0 then
        fprintf 2 "cat: cannot open %s
" [AStr (Some name)];;
        mret 1
      else
        r ← cat fuel fd;
        match r with
        | Some st => mret st
        | None => u_close fd;; cat_files fuel files'
        end
  end.

Definition cat_main (fuel : nat) (argv : list (list Z)) : M W Z :=
  match argv with
  | [] => r ← cat fuel 0; mret (default 0 r)
  | files => cat_files fuel files
  end.
End Utils.

(** * Words *)

(** The maximal runs of bytes that are not blanks; [cur] is the run under way. *)
Fixpoint words (cur s : list Z) : list (list Z) :=
  match s with
  | [] => match cur with [] => [] | _ => [cur] end
  | x :: s' =>
      if is_blank x then match cur with [] => words [] s' | _ => cur :: words [] s' end
      else words (cur ++ [x]) s'
  end.

Lemma is_blank_spec x : 0 <= x < 256 -> is_blank x = bool_decide (x ∈ blanks).
Proof.
  intros Hx. assert (forallb (fun x => eqb (is_blank x) (bool_decide (x ∈ blanks))) (zseq 0 256) = true) as Ha
    by (vm_compute; reflexivity).
  rewrite forallb_forall in Ha. apply eqb_prop, Ha. apply list_elem_of_In. unfold zseq.
  apply list_elem_of_fmap. exists (Z.to_nat x). rewrite elem_of_seq. lia.
Qed.

Lemma wc_char_small k x : 0 <= wc_l k <= wc_c k -> 0 <= wc_w k <= wc_c k -> wc_c k + 1 < 2 ^ 31 ->
  wc_char k x = mkC (wc_l k + if decide (x = 10) then 1 else 0)
    (wc_w k + if is_blank x || wc_in k then 0 else 1) (wc_c k + 1) (negb (is_blank x)).
Proof.
  intros Hl Hw Hc. unfold wc_char. rewrite !s32_small by lia.
  destruct (Z.eqb_spec x 10), (decide (x = 10)), (is_blank x), (wc_in k) eqn:Ei; cbn; try done;
    f_equal; (lia || done).
Qed.

(** The counters after [s], as long as they do not overflow. *)
Lemma wc_fold s : forall k cur,
  0 <= wc_l k <= wc_c k -> 0 <= wc_w k <= wc_c k -> wc_c k + Z.of_nat (length s) < 2 ^ 31 ->
  wc_in k = bool_decide (cur <> []) ->
  wc_c (foldl wc_char k s) = wc_c k + Z.of_nat (length s) /\
  wc_l (foldl wc_char k s) = wc_l k + Z.of_nat (length (filter (fun x => x = 10) s)) /\
  wc_w (foldl wc_char k s) + (if wc_in k then 1 else 0) = wc_w k + Z.of_nat (length (words cur s)).
Proof.
  induction s as [|x s IH]; intros k cur Hl Hw Hc Hin; cbn [foldl].
  { rewrite Hin. case_bool_decide as Hcur; destruct cur; cbn; (done || lia). }
  cbn [length] in Hc. rewrite filter_cons, wc_char_small by lia. cbn [words length].
  set (k1 := mkC _ _ _ _).
  destruct (IH k1 (if is_blank x then [] else cur ++ [x])) as (I1 & I2 & I3).
  1-3: subst k1; cbn; repeat case_match; lia.
  { subst k1. cbn. destruct (is_blank x); [done|]. symmetry. apply bool_decide_eq_true. by destruct cur. }
  rewrite I1, I2. subst k1. cbn [wc_c wc_l wc_w wc_in] in *. split_and!.
  - lia.
  - case_decide; cbn [length]; lia.
  - rewrite Hin in *. destruct (is_blank x); cbn in I3 |- *.
    + destruct cur; cbn [length] in *; case_bool_decide; try done; lia.
    + case_bool_decide; lia.
Qed.

(** * Correctness *)

Section Correct.
Context `{SysLaws W}.

Lemma wc_loop_ok f : forall w k, (length (u_in w) < f)%nat ->
  exists n w', wc_loop f 0 k w = Ok (n, foldl wc_char k (u_in w)) w' /\ n <= 0 /\ u_in w' = [] /\ u_out w' = u_out w.
Proof.
  induction f as [|f IH]; intros w k Hf; [lia|]. cbn [wc_loop].
  destruct (read_law w UTILBUF ltac:(done)) as (n & d & w1 & E & Ho & [(-> & Hn & Hin & _)|(Hn & Hin & He)]); mrun E; cbv beta iota.
  - destruct (Z.ltb_spec 0 (Z.of_nat (length d))); [|lia]. rewrite take_ge by lia.
    destruct (IH w1 (foldl wc_char k d)) as (n' & w' & E' & Hn' & Hi' & Ho').
    { rewrite Hin, length_app in Hf. lia. }
    exists n', w'. rewrite E', Hin, foldl_app. split_and!; try done. congruence.
  - destruct (Z.ltb_spec 0 n); [lia|]. exists n, w1. rewrite He. split_and!; try done. congruence.
Qed.

(** What [wc] prints. *)
Definition wc_text (s name : list Z) : list Z :=
  uint_text (Z.of_nat (length (filter (fun x => x = 10) s))) ++ [32] ++
  uint_text (Z.of_nat (length (words [] s))) ++ [32] ++
  uint_text (Z.of_nat (length s)) ++ [32] ++ name ++ [10].

Lemma wc_text_fmt l w c name : 0 <= l < 2 ^ 31 -> 0 <= w < 2 ^ 31 -> 0 <= c < 2 ^ 31 ->
  utext (bytes "%d %d %d %s
") [A32 l; A32 w; A32 c; AStr (Some name)] =
  Some (uint_text l ++ [32] ++ uint_text w ++ [32] ++ uint_text c ++ [32] ++ name ++ [10]).
Proof.
  intros Hl Hw Hc. rewrite <- (s32_small l) at 2 by lia. rewrite <- (s32_small w) at 2 by lia.
  rewrite <- (s32_small c) at 2 by lia. reflexivity.
Qed.

Lemma words_short s : forall cur, (length (words cur s) <= length s + length cur)%nat.
Proof.
  induction s as [|x s IH]; intros cur; cbn [words].
  - destruct cur; cbn; lia.
  - specialize (IH []) as I1. specialize (IH (cur ++ [x])) as I2. cbn in I1.
    rewrite length_app in I2. destruct (is_blank x), cur; cbn in *; lia.
Qed.

(** [wc] counts the newlines, the maximal runs of non-blank bytes and the
    bytes of its whole input, however it is cut into reads, for inputs shorter
    than 2^31: it consumes the input and prints the three numbers and the
    name, or, when the last read fails, reports that and exits with 1. *)
Theorem wc_correct f name w :
  (length (u_in w) < f)%nat -> Z.of_nat (length (u_in w)) < 2 ^ 31 ->
  exists r w', wc f 0 name w = Ok r w' /\ u_in w' = [] /\
    (r = None /\ u_out w' = u_out w ++ ((fun c => (1, u8 c)) <$> wc_text (u_in w) name)
     \/ r = Some 1 /\ u_out w' = u_out w ++ ((fun c => (1, u8 c)) <$> bytes "wc: read error
")).
Proof.
  intros Hf Hlen. unfold wc.
  destruct (wc_loop_ok f w (mkC 0 0 0 false) Hf) as (n & w1 & E & Hn & Hi & Ho). mrun E. cbv beta iota.
  destruct (wc_fold (u_in w) (mkC 0 0 0 false) []) as (Ec & El & Ew); [cbn; lia..|done|].
  cbn [wc_c wc_l wc_w wc_in] in Ec, El, Ew. destruct (Z.ltb_spec n 0).
  - destruct (vprintf_ok 1 (bytes "wc: read error
") [] (bytes "wc: read error
") w1 eq_refl) as (w2 & E2 & Ho2 & Hi2).
    unfold uprintf. mrun E2. eexists _, w2. split_and!; [done|congruence|]. right. split; [done|]. congruence.
  - pose proof (length_filter (fun x => x = 10) (u_in w)) as Hfs. pose proof (words_short (u_in w) []) as Hws. cbn [length] in Hws.
    assert (wc_w (foldl wc_char (mkC 0 0 0 false) (u_in w)) = Z.of_nat (length (words [] (u_in w)))) as Ew' by lia.
    rewrite Ec, El, Ew'. cbn [Z.add].
    assert (0 <= Z.of_nat (length (filter (fun x => x = 10) (u_in w))) < 2 ^ 31) as Ha by lia.
    assert (0 <= Z.of_nat (length (words [] (u_in w))) < 2 ^ 31) as Hb by lia.
    assert (0 <= Z.of_nat (length (u_in w)) < 2 ^ 31) as Hd by lia.
    destruct (vprintf_ok 1 _ _ _ w1 (wc_text_fmt _ _ _ name Ha Hb Hd)) as (w2 & E2 & Ho2 & Hi2).
    unfold uprintf. mrun E2. eexists _, w2. split_and!; [done|congruence|]. left. split; [done|]. rewrite Ho2. by rewrite Ho.
Qed.

(** [cat] copies. *)
Lemma cat_ok f : forall w, (length (u_in w) < f)%nat ->
  exists r w', cat f 0 w = Ok r w' /\ u_in w' = [] /\
    (r = None /\ u_out w' = u_out w ++ ((fun c => (1, c)) <$> u_in w)
     \/ r = Some 1 /\ u_out w' = u_out w ++ ((fun c => (1, c)) <$> u_in w) ++ ((fun c => (2, u8 c)) <$> bytes "cat: read error
")).
Proof.
  induction f as [|f IH]; intros w Hf; [lia|]. cbn [cat].
  destruct (read_law w UTILBUF ltac:(done)) as (n & d & w1 & E & Ho & [(-> & Hn & Hin & _)|(Hn & Hin & He)]); mrun E; cbv beta iota.
  - destruct (Z.ltb_spec 0 (Z.of_nat (length d))); [|lia]. rewrite take_ge by lia.
    destruct (write_law 1 d w1) as (w2 & E2 & Ho2 & Hi2). mrun E2. rewrite Z.eqb_refl. cbn [negb].
    destruct (IH w2) as (r & w' & E' & Hi' & Hr).
    { rewrite Hi2. rewrite Hin, length_app in Hf. lia. }
    exists r, w'. split_and!; [done|done|]. rewrite Hin, fmap_app, Ho2, Hi2, Ho in *.
    destruct Hr as [[-> ->]|[-> ->]]; [left|right]; (split; [done|]); by rewrite <- !app_assoc.
  - destruct (Z.ltb_spec 0 n); [lia|]. rewrite He. destruct (Z.ltb_spec n 0).
    + destruct (vprintf_ok 2 (bytes "cat: read error
") [] (bytes "cat: read error
") w1 eq_refl) as (w2 & E2 & Ho2 & Hi2).
      unfold fprintf. mrun E2. eexists _, w2. split_and!; [done|congruence|]. right. split; [done|]. cbn [fmap list_fmap app]. congruence.
    + eexists _, w1. split_and!; [done|congruence|]. left. cbn. rewrite app_nil_r. done.
Qed.

(** [cat] copies its input to its output byte for byte, however the input
    is cut into reads, and when it is the last file leaves with status 0, or
    with status 1 after reporting a read that failed. *)
Theorem cat_correct f w :
  (length (u_in w) < f)%nat ->
  exists st w', cat_main f [] w = Ok st w' /\ u_in w' = [] /\
    (st = 0 /\ u_out w' = u_out w ++ ((fun c => (1, c)) <$> u_in w)
     \/ st = 1 /\ u_out w' = u_out w ++ ((fun c => (1, c)) <$> u_in w) ++ ((fun c => (2, u8 c)) <$> bytes "cat: read error
")).
Proof.
  intros Hf. unfold cat_main. destruct (cat_ok f w Hf) as (r & w' & E & Hi & Hr). mrun E.
  eexists _, w'. split; [done|]. split; [done|]. destruct Hr as [[-> ?]|[-> ?]]; [by left|by right].
Qed.
End Correct.

Lemma wc_correct_witness :
  exists r (w' : tworld), wc 100 0 (bytes "f") (mkT (bytes "one two
three
") [] 0) = Ok r w' /\ u_in w' = [].
Proof.
  destruct (wc_correct 100 (bytes "f") (mkT (bytes "one two
three
") [] 0)) as (r & w' & E & Hi & _).
  - vm_compute. lia.
  - vm_compute. reflexivity.
  - exists r, w'. split; [exact E|exact Hi].
Defined.

Lemma cat_correct_witness :
  exists st (w' : tworld), cat_main 100 [] (mkT (bytes "abc") [] 0) = Ok st w' /\ u_in w' = [].
Proof.
  destruct (cat_correct 100 (mkT (bytes "abc") [] 0)) as (st & w' & E & Hi & _).
  - vm_compute. lia.
  - exists st, w'. split; [exact E|exact Hi].
Defined.
