(* ===== verification/XSh.v ===== *)
(** reference/xv6-riscv/user/sh.c: the parser of the shell.

    A [char *] into the command line is the suffix it points to, up to the
    NUL: [es] is the empty suffix and [*s] at [es] is 0.  The parser runs in
    the monad of [Prelude] with [*ps] as its state; [panic(s)] of the shell,
    which prints and exits, is [Panic].  The constructors allocate with
    [malloc], which is taken to succeed.  [execcmd] is filled in after it has
    been wrapped by redirections; the model collects the arguments and the
    redirections and builds the tree at the end. *)

From Stdlib Require Import ZArith Lia.
From stdpp Require Import base strings numbers gmap list.
From S2P Require Import Prelude Mem Vm Ulib.

Definition ptr : Type := list Z.
Definition deref (p : ptr) : Z := match p with [] => 0 | c :: _ => c end.

Definition MAXARGS : nat := 10.
Definition O_WRONLY : Z := 1.
Definition O_CREATE : Z := 512.
Definition O_TRUNC : Z := 1024.

(** A string of the line: its start and its end ([q], [eq]). *)
Definition span : Type := ptr * ptr.

Inductive cmd : Type :=
| EXEC (argv : list span)
| REDIR (c : cmd) (file : span) (mode fd : Z)
| PIPE (left right : cmd)
| LIST (left right : cmd)
| BACK (c : cmd).

(** [strchr(l, c)] finds something, for a list [l] of non-zero bytes. *)
Definition mem_str (l : list Z) (c : Z) : bool := existsb (Z.eqb c) l.
Definition whitespace : list Z := [32; 9; 13; 10; 11].
Definition symbols : list Z := [60; 124; 62; 38; 59; 40; 41].

Fixpoint skip_ws (s : ptr) : ptr :=
  match s with [] => [] | c :: s' => if mem_str whitespace c then skip_ws s' else s end.
Fixpoint skip_word (s : ptr) : ptr :=
  match s with
  | [] => []
  | c :: s' => if negb (mem_str whitespace c) && negb (mem_str symbols c) then skip_word s' else s
  end.

(** [gettoken]: the token, with [*q] and [*eq]. *)
Definition gettoken : M ptr (Z * ptr * ptr) :=
  s ← get;
  let s := skip_ws s in
  let q := s in
  let c := deref s in
  let '(ret, s) :=
    if c =? 0 then (0, s)
    else if mem_str [124; 40; 41; 59; 38; 60] c then (c, tail s)
    else if c =? 62 then (if deref (tail s) =? 62 then (43, tail (tail s)) else (62, tail s))
    else (97, skip_word s) in
  let eq := s in
  put (skip_ws s);;
  mret (ret, q, eq).

Definition peek (toks : list Z) : M ptr bool :=
  modify skip_ws;;
  s ← get;
  mret (negb (deref s =? 0) && mem_str toks (deref s)).

(** The redirections that follow; each is the token, the file. *)
Fixpoint parseredirs_loop (fuel : nat) : M ptr (list (span * Z * Z)) :=
  match fuel with
  | O => out_of_fuel
  | S f =>
      b ← peek [60; 62];
      if (b : bool) then
        '(tok, _, _) ← gettoken;
        '(tok2, q, eq) ← gettoken;
        if negb (tok2 =? 97) then panic "missing file for redirection" else
        let r :=
          if tok =? 60 then [((q, eq), O_RDONLY, 0)]
          else if tok =? 62 then [((q, eq), Z.lor (Z.lor O_WRONLY O_CREATE) O_TRUNC, 1)]
          else if tok =? 43 then [((q, eq), Z.lor O_WRONLY O_CREATE, 1)]
          else [] in
        rs ← parseredirs_loop f;
        mret (r ++ rs)
      else mret []
  end.

Definition redircmd (c : cmd) (r : span * Z * Z) : cmd := REDIR c r.1.1 r.1.2 r.2.
Definition redirs : M ptr (list (span * Z * Z)) := s ← get; parseredirs_loop (S (length s)).
Definition parseredirs (c : cmd) : M ptr cmd := rs ← redirs; mret (foldl redircmd c rs).

(** The [while] of [parseexec]: the arguments and the redirections so far. *)
Fixpoint parseexec_loop (fuel : nat) (argv : list span) (rs : list (span * Z * Z)) : M ptr cmd :=
  match fuel with
  | O => out_of_fuel
  | S f =>
      b ← peek [124; 41; 38; 59];
      if (b : bool) then mret (foldl redircmd (EXEC argv) rs) else
      '(tok, q, eq) ← gettoken;
      if tok =? 0 then mret (foldl redircmd (EXEC argv) rs) else
      if negb (tok =? 97) then panic "syntax" else
      let argv := argv ++ [(q, eq)] in
      if (MAXARGS <=? length argv)%nat then panic "too many args" else
      rs' ← redirs;
      parseexec_loop f argv (rs ++ rs')
  end.

(** The [while] of [parseline]. *)
Fixpoint back_loop (fuel : nat) (c : cmd) : M ptr cmd :=
  match fuel with
  | O => out_of_fuel
  | S f =>
      b ← peek [38];
      if (b : bool) then gettoken;; back_loop f (BACK c) else mret c
  end.

Fixpoint parseline (fuel : nat) : M ptr cmd :=
  match fuel with
  | O => out_of_fuel
  | S f =>
      c ← parsepipe f;
      s ← get;
      c ← back_loop (S (length s)) c;
      b ← peek [59];
      if (b : bool) then
        gettoken;;
        r ← parseline f;
        mret (LIST c r)
      else mret c
  end
with parsepipe (fuel : nat) : M ptr cmd :=
  match fuel with
  | O => out_of_fuel
  | S f =>
      c ← parseexec f;
      b ← peek [124];
      if (b : bool) then
        gettoken;;
        r ← parsepipe f;
        mret (PIPE c r)
      else mret c
  end
with parseexec (fuel : nat) : M ptr cmd :=
  match fuel with
  | O => out_of_fuel
  | S f =>
      b ← peek [40];
      if (b : bool) then parseblock f else
      rs ← redirs;
      s ← get;
      parseexec_loop (S (length s)) [] rs
  end
with parseblock (fuel : nat) : M ptr cmd :=
  match fuel with
  | O => out_of_fuel
  | S f =>
      b ← peek [40];
      if negb b then panic "parseblock" else
      gettoken;;
      c ← parseline f;
      b ← peek [41];
      if negb b then panic "syntax - missing )" else
      gettoken;;
      parseredirs c
  end.

(** Every call but the four of one level consumes a character. *)
Definition parse_fuel (s : ptr) : nat := 4 * length s + 4.

(** [nulterminate]: [buf] is the line, with a NUL behind it; [*eq = 0] stores
    at the place of the suffix [eq]. *)
Definition store_nul (eq : ptr) (buf : list Z) : list Z := <[(length buf - 1 - length eq)%nat := 0]> buf.
Fixpoint nulterminate (c : cmd) (buf : list Z) : list Z :=
  match c with
  | EXEC argv => foldl (fun b a => store_nul a.2 b) buf argv
  | REDIR c file _ _ => store_nul file.2 (nulterminate c buf)
  | PIPE l r | LIST l r => nulterminate r (nulterminate l buf)
  | BACK c => nulterminate c buf
  end.

(** [parsecmd]: the command and the line after it. *)
Definition parsecmd (s : list Z) : outcome ptr (cmd * list Z) :=
  (c ← parseline (parse_fuel s);
   peek [];;
   s' ← get;
   if negb (length s' =? 0)%nat then panic "syntax"
   else mret (c, nulterminate c (s ++ [0]))) s.

(** * Every run of the parser ends *)

(** [m] from [p] panics, or returns with [Q]; it does not run out of fuel. *)
Definition runs {A} (m : M ptr A) (p : ptr) (Q : A -> ptr -> Prop) : Prop :=
  match m p with Ok a p' => Q a p' | Panic _ _ => True | Diverge _ => False end.

Lemma runs_bind {A B} (m : M ptr A) (k : A -> M ptr B) p Q R :
  runs m p R -> (forall a p', R a p' -> runs (k a) p' Q) -> runs (m ≫= k) p Q.
Proof. unfold runs, mbind, M_bind. destruct (m p); intros HR Hk; [by apply Hk|done|done]. Qed.
Lemma runs_mono {A} (m : M ptr A) p (Q R : A -> ptr -> Prop) :
  runs m p R -> (forall a p', R a p' -> Q a p') -> runs m p Q.
Proof. unfold runs. destruct (m p); auto. Qed.
Lemma runs_ret {A} (a : A) p (Q : A -> ptr -> Prop) : Q a p -> runs (mret a) p Q.
Proof. done. Qed.
Lemma runs_panic {A} msg p (Q : A -> ptr -> Prop) : runs (panic msg) p Q.
Proof. done. Qed.
Lemma runs_get {B} (k : ptr -> M ptr B) p Q : runs (k p) p Q -> runs (get ≫= k) p Q.
Proof. done. Qed.

Lemma mem_str_elem l c : mem_str l c = bool_decide (c ∈ l).
Proof.
  unfold mem_str. induction l as [|x l IH]; cbn [existsb]; [done|]. rewrite IH.
  destruct (Z.eqb_spec c x); repeat case_bool_decide; set_solver.
Qed.

(** [mem_str] is [strchr] of ulib.c finding something. *)
Lemma strchr_mem l : forall pre c, Forall (fun x => x <> 0) l -> 0 <= c < 256 ->
  exists r, strchr_loop (S (length l)) (fun i => (pre ++ l ++ [0]) !!! Z.to_nat i) c (Z.of_nat (length pre)) = Some r /\
    (is_Some r <-> mem_str l c = true).
Proof.
  induction l as [|x l IH]; intros pre c Hl Hc; cbn [strchr_loop length app]; rewrite Nat2Z.id.
  - rewrite lookup_total_app_r, Nat.sub_diag by lia. exists None. split; [done|]. split; [by intros []|done].
  - apply Forall_cons_1 in Hl as [Hx Hl]. rewrite lookup_total_app_r, Nat.sub_diag by lia. cbn [lookup_total list_lookup_total].
    destruct (Z.eqb_spec x 0); [done|]. cbn [negb]. rewrite (u8_small c) by done. unfold mem_str. cbn [existsb].
    destruct (Z.eqb_spec x c) as [->|Hne].
    + rewrite Z.eqb_refl. eexists. split; [done|]. by split.
    + destruct (Z.eqb_spec c x); [by subst|]. cbn [orb]. destruct (IH (pre ++ [x]) c Hl Hc) as (r & E & Hr).
      exists r. rewrite <- app_assoc, length_app in E. cbn [app length] in E.
      replace (Z.of_nat (length pre) + 1) with (Z.of_nat (length pre + 1)) by lia. cbn [strchr_loop] in E. rewrite (u8_small c) in E by done. split; [exact E|exact Hr].
Qed.

Definition wordchar (c : Z) : bool := negb (mem_str whitespace c) && negb (mem_str symbols c).

(** A word of the line [s]: a maximal run of characters that are neither
    blank nor symbols. *)
Definition span_ok (s : list Z) (a : span) : Prop :=
  a.1 `suffix_of` s /\
  exists w, a.1 = w ++ a.2 /\ w <> [] /\ Forall (fun c => wordchar c = true) w /\
    (a.2 = [] \/ wordchar (deref a.2) = false).

Fixpoint cmd_ok (s : list Z) (c : cmd) : Prop :=
  match c with
  | EXEC argv => Forall (span_ok s) argv /\ (length argv < MAXARGS)%nat
  | REDIR c file mode fd => cmd_ok s c /\ span_ok s file
  | PIPE l r | LIST l r => cmd_ok s l /\ cmd_ok s r
  | BACK c => cmd_ok s c
  end.

Lemma skip_ws_suffix p : skip_ws p `suffix_of` p.
Proof.
  induction p as [|c p IH]; cbn; [done|]. case_match; [|done]. by apply suffix_cons_r.
Qed.
Lemma skip_word_split p : exists w, p = w ++ skip_word p /\ Forall (fun c => wordchar c = true) w /\
  (skip_word p = [] \/ wordchar (deref (skip_word p)) = false).
Proof.
  induction p as [|c p (w & Ew & Hw & He)]; cbn [skip_word]; [exists []; auto|].
  destruct (negb (mem_str whitespace c) && negb (mem_str symbols c)) eqn:Ec.
  - exists (c :: w). split_and!; [cbn; by f_equal|by constructor|done].
  - exists []. split_and!; [done|done|by right].
Qed.
Lemma skip_ws_head p : skip_ws p = [] \/ mem_str whitespace (deref (skip_ws p)) = false.
Proof. induction p as [|c p IH]; cbn [skip_ws]; [by left|]. destruct (mem_str whitespace c) eqn:E; [done|by right]. Qed.
Lemma skip_ws_len p : (length (skip_ws p) <= length p)%nat.
Proof. apply suffix_length, skip_ws_suffix. Qed.

(** [gettoken] on a line without NUL bytes: it consumes something unless it is
    at the end, and a word token is a word. *)
Lemma gettoken_runs s p : p `suffix_of` s -> Forall (fun c => 0 < c) s ->
  runs gettoken p (fun r p' => p' `suffix_of` s /\ (length p' <= length p)%nat /\
    (r.1.1 <> 0 -> (length p' < length p)%nat) /\ (r.1.1 = 0 -> deref (skip_ws p) = 0) /\ (r.1.1 = 97 -> span_ok s (r.1.2, r.2))).
Proof.
  intros Hp Hs. unfold gettoken. apply runs_get. cbv zeta.
  pose proof (skip_ws_head p) as Hh. pose proof (skip_ws_len p) as Hl.
  assert (skip_ws p `suffix_of` s) as Hq by (etransitivity; [apply skip_ws_suffix|done]).
  set (q := skip_ws p) in *. clearbody q.
  assert (forall x, x `suffix_of` q -> skip_ws x `suffix_of` s) as Hx.
  { intros x Hx. etransitivity; [apply skip_ws_suffix|]. by etransitivity. }
  destruct q as [|c q].
  { cbn. split_and!; [done|lia|done|done|done]. }
  assert (0 < c) as Hc.
  { destruct Hq as [k ->]. apply Forall_app in Hs as [_ Hs]. by apply Forall_cons_1 in Hs as [? _]. }
  cbn [deref tail]. destruct (Z.eqb_spec c 0); [lia|].
  assert (q `suffix_of` c :: q) as Hqs by by apply suffix_cons_r.
  assert (forall x, x `suffix_of` q -> (length (skip_ws x) < length p)%nat) as Hlx.
  { intros x Hxq. pose proof (skip_ws_len x). apply suffix_length in Hxq. cbn in Hl. lia. }
  destruct (mem_str [124; 40; 41; 59; 38; 60] c) eqn:Esym.
  { cbn. split_and!; [by apply Hx|by apply Nat.lt_le_incl, Hlx|by intros; apply Hlx|cbn; lia|].
    intros E97. cbn in E97. subst c. discriminate Esym. }
  destruct (Z.eqb_spec c 62) as [->|Hgt].
  { destruct (deref q =? 62); cbn.
    - assert (tail q `suffix_of` q) as Ht by (destruct q; [done|by apply suffix_cons_r]).
      split_and!; [apply Hx; by etransitivity|by apply Nat.lt_le_incl, Hlx|by intros; apply Hlx|cbn; lia|done].
    - split_and!; [by apply Hx|by apply Nat.lt_le_incl, Hlx|by intros; apply Hlx|cbn; lia|done]. }
  assert (wordchar c = true) as Hwc.
  { destruct Hh as [?|Hh]; [done|]. unfold wordchar. cbn [deref] in Hh. rewrite Hh. cbn [negb andb]. apply negb_true_iff.
    rewrite mem_str_elem in Esym |- *. apply bool_decide_eq_false in Esym. apply bool_decide_eq_false. unfold symbols. set_solver. }
  assert (skip_word (c :: q) = skip_word q) as Esk.
  { cbn [skip_word]. unfold wordchar in Hwc. by rewrite Hwc. }
  rewrite Esk. destruct (skip_word_split q) as (w & Ew & Hw & He).
  assert (skip_word q `suffix_of` q) as Hsq by by exists w.
  cbn. split_and!; [apply Hx; by etransitivity|by apply Nat.lt_le_incl, Hlx|by intros; apply Hlx|cbn; lia|].
  intros _. split; [done|]. exists (c :: w). cbn. split_and!; [by f_equal|done|by constructor|done].
Qed.

Lemma skip_ws_idem p : skip_ws (skip_ws p) = skip_ws p.
Proof.
  induction p as [|c p IH]; cbn [skip_ws]; [done|]. destruct (mem_str whitespace c) eqn:E; [done|].
  cbn [skip_ws]. by rewrite E.
Qed.

Section Runs.
Context (s : list Z) (Hs : Forall (fun c => 0 < c) s).

Definition post {A} (P : A -> Prop) (n : nat) (a : A) (p' : ptr) : Prop :=
  p' `suffix_of` s /\ (length p' <= n)%nat /\ P a.

Lemma peek_runs toks p : p `suffix_of` s ->
  runs (peek toks) p (fun b p' => p' `suffix_of` s /\ (length p' <= length p)%nat /\
    skip_ws p' = p' /\ (b = true -> deref p' <> 0)).
Proof.
  intros Hp. cbn. split_and!; [etransitivity; [apply skip_ws_suffix|done]|apply skip_ws_len|apply skip_ws_idem|].
  intros E. by destruct (Z.eqb_spec (deref (skip_ws p)) 0).
Qed.

(** [peek] succeeded: [gettoken] consumes something. *)
Lemma gettoken_after p : p `suffix_of` s -> skip_ws p = p -> deref p <> 0 ->
  runs gettoken p (fun _ p' => p' `suffix_of` s /\ (length p' < length p)%nat).
Proof.
  intros Hp Ei Hd. eapply runs_mono; [by apply (gettoken_runs s)|]. intros [[tok q] eq] p' (H1 & _ & H2 & H3 & _).
  cbn in *. split; [done|]. apply H2. intros E. apply Hd. rewrite <- Ei. by apply H3.
Qed.

Lemma redirs_loop_runs f : forall p, p `suffix_of` s -> (length p < f)%nat ->
  runs (parseredirs_loop f) p (post (Forall (fun r => span_ok s r.1.1)) (length p)).
Proof.
  induction f as [|f IH]; intros p Hp Hf; [lia|]. cbn [parseredirs_loop].
  eapply runs_bind; [by apply peek_runs|]. intros b p1 (Hp1 & Hl1 & Ei & Hb). destruct b; [|by split_and!].
  eapply runs_bind; [apply gettoken_after; auto|]. intros [[tok q0] eq0] p2 [Hp2 Hl2].
  eapply runs_bind; [by apply (gettoken_runs s)|]. intros [[tok2 q] eq] p3 (Hp3 & Hl3 & _ & _ & Hw). cbn in Hw.
  destruct (Z.eqb_spec tok2 97) as [->|]; [|done]. cbn [negb].
  eapply runs_bind; [apply IH; [done|lia]|]. intros rs p4 (Hp4 & Hl4 & Hrs). apply runs_ret.
  split_and!; [done|lia|]. apply Forall_app. split; [|done]. specialize (Hw eq_refl).
  do 3 (case_match; [by apply Forall_singleton|]). constructor.
Qed.

Lemma redirs_runs p : p `suffix_of` s ->
  runs redirs p (post (Forall (fun r => span_ok s r.1.1)) (length p)).
Proof. intros Hp. unfold redirs. apply runs_get, redirs_loop_runs; [done|lia]. Qed.

Lemma redircmd_ok rs : forall c, cmd_ok s c -> Forall (fun r => span_ok s r.1.1) rs -> cmd_ok s (foldl redircmd c rs).
Proof. induction rs as [|r rs IH]; intros c Hc; [done|]. intros [Hr Hrs]%Forall_cons_1. by apply IH. Qed.

Lemma parseexec_loop_runs f : forall p argv rs, p `suffix_of` s -> (length p < f)%nat ->
  Forall (span_ok s) argv -> (length argv < MAXARGS)%nat -> Forall (fun r => span_ok s r.1.1) rs ->
  runs (parseexec_loop f argv rs) p (post (cmd_ok s) (length p)).
Proof.
  induction f as [|f IH]; intros p argv rs Hp Hf Ha Hn Hrs; [lia|]. cbn [parseexec_loop].
  assert (cmd_ok s (foldl redircmd (EXEC argv) rs)) as Hc by by apply redircmd_ok.
  eapply runs_bind; [by apply peek_runs|]. intros b p1 (Hp1 & Hl1 & Ei & _). destruct b; [by split_and!|].
  eapply runs_bind; [by apply (gettoken_runs s)|]. intros [[tok q] eq] p2 (Hp2 & Hl2 & Hlt & _ & Hw). cbn in Hw, Hlt.
  destruct (Z.eqb_spec tok 0) as [->|Hne]; [split_and!; [done|lia|done]|].
  destruct (Z.eqb_spec tok 97) as [->|]; [|done]. cbn [negb]. cbv zeta.
  destruct (Nat.leb_spec MAXARGS (length (argv ++ [(q, eq)]))); [done|].
  eapply runs_bind; [by apply redirs_runs|]. intros rs' p3 (Hp3 & Hl3 & Hrs').
  specialize (Hlt Hne). eapply runs_mono.
  - apply IH; [done|lia| |done|by apply Forall_app].
    apply Forall_app. split; [done|]. apply Forall_singleton. by apply Hw.
  - intros c p4 (? & ? & ?). split_and!; [done|lia|done].
Qed.

Lemma back_loop_runs f : forall p c, p `suffix_of` s -> (length p < f)%nat -> cmd_ok s c ->
  runs (back_loop f c) p (post (cmd_ok s) (length p)).
Proof.
  induction f as [|f IH]; intros p c Hp Hf Hc; [lia|]. cbn [back_loop].
  eapply runs_bind; [by apply peek_runs|]. intros b p1 (Hp1 & Hl1 & Ei & Hb). destruct b; [|by split_and!].
  eapply runs_bind; [apply gettoken_after; auto|]. intros _ p2 [Hp2 Hl2].
  eapply runs_mono; [apply IH; [done|lia|done]|]. intros c' p4 (? & ? & ?). split_and!; [done|lia|done].
Qed.

Lemma parse_runs f :
  (forall p, p `suffix_of` s -> (4 * length p + 4 <= f)%nat -> runs (parseline f) p (post (cmd_ok s) (length p))) /\
  (forall p, p `suffix_of` s -> (4 * length p + 3 <= f)%nat -> runs (parsepipe f) p (post (cmd_ok s) (length p))) /\
  (forall p, p `suffix_of` s -> (4 * length p + 2 <= f)%nat -> runs (parseexec f) p (post (cmd_ok s) (length p))) /\
  (forall p, p `suffix_of` s -> (4 * length p + 1 <= f)%nat -> runs (parseblock f) p (post (cmd_ok s) (length p))).
Proof.
  induction f as [|f (IHl & IHp & IHe & IHb)]; [split_and!; lia|]. split_and!; intros p Hp Hf.
  - cbn [parseline]. eapply runs_bind; [apply IHp; [done|lia]|]. intros c p1 (Hp1 & Hl1 & Hc). apply runs_get.
    eapply runs_bind; [apply back_loop_runs; [done|lia|done]|]. intros c2 p2 (Hp2 & Hl2 & Hc2).
    eapply runs_bind; [by apply peek_runs|]. intros b p3 (Hp3 & Hl3 & Ei & Hb).
    destruct b; [|split_and!; [done|lia|done]].
    eapply runs_bind; [apply gettoken_after; auto|]. intros _ p4 [Hp4 Hl4].
    eapply runs_bind; [apply IHl; [done|lia]|]. intros r p5 (Hp5 & Hl5 & Hr). split_and!; [done|lia|done].
  - cbn [parsepipe]. eapply runs_bind; [apply IHe; [done|lia]|]. intros c p1 (Hp1 & Hl1 & Hc).
    eapply runs_bind; [by apply peek_runs|]. intros b p3 (Hp3 & Hl3 & Ei & Hb).
    destruct b; [|split_and!; [done|lia|done]].
    eapply runs_bind; [apply gettoken_after; auto|]. intros _ p4 [Hp4 Hl4].
    eapply runs_bind; [apply IHp; [done|lia]|]. intros r p5 (Hp5 & Hl5 & Hr). split_and!; [done|lia|done].
  - cbn [parseexec]. eapply runs_bind; [by apply peek_runs|]. intros b p1 (Hp1 & Hl1 & Ei & Hb). destruct b.
    + eapply runs_mono; [apply IHb; [done|lia]|]. intros c p2 (? & ? & ?). split_and!; [done|lia|done].
    + eapply runs_bind; [by apply redirs_runs|]. intros rs p2 (Hp2 & Hl2 & Hrs). apply runs_get.
      eapply runs_mono; [apply parseexec_loop_runs; [done|lia|done|apply Nat.ltb_lt; reflexivity|done]|].
      intros c p3 (? & ? & ?). split_and!; [done|lia|done].
  - cbn [parseblock]. eapply runs_bind; [by apply peek_runs|]. intros b p1 (Hp1 & Hl1 & Ei & Hb).
    destruct b; [|done]. cbn [negb].
    eapply runs_bind; [apply gettoken_after; auto|]. intros _ p2 [Hp2 Hl2].
    eapply runs_bind; [apply IHl; [done|lia]|]. intros c p3 (Hp3 & Hl3 & Hc).
    eapply runs_bind; [by apply peek_runs|]. intros b p4 (Hp4 & Hl4 & Ei4 & Hb4). destruct b; [|done]. cbn [negb].
    eapply runs_bind; [apply gettoken_after; auto|]. intros _ p5 [Hp5 Hl5]. unfold parseredirs.
    eapply runs_bind; [by apply redirs_runs|]. intros rs p6 (Hp6 & Hl6 & Hrs).
    split_and!; [done|lia|]. by apply redircmd_ok.
Qed.
End Runs.

(** * The strings of a command *)

(** Place of a suffix in the line, and the C string there. *)
Definition place (s : list Z) (p : ptr) : nat := (length s - length p)%nat.
Fixpoint cstring (b : list Z) : list Z :=
  match b with [] => [] | c :: b' => if c =? 0 then [] else c :: cstring b' end.
Definition string_at (s buf : list Z) (a : span) : list Z := cstring (drop (place s a.1) buf).
Definition word (a : span) : list Z := take (length a.1 - length a.2) a.1.

Fixpoint spans (c : cmd) : list span :=
  match c with
  | EXEC argv => argv
  | REDIR c file _ _ => spans c ++ [file]
  | PIPE l r | LIST l r => spans l ++ spans r
  | BACK c => spans c
  end.

Lemma cmd_ok_spans s c : cmd_ok s c -> Forall (span_ok s) (spans c).
Proof.
  induction c; cbn; rewrite ?Forall_app; naive_solver.
Qed.

Lemma nulterminate_spans c buf : nulterminate c buf = foldl (fun b a => store_nul a.2 b) buf (spans c).
Proof. revert buf. induction c; intros buf; cbn; rewrite ?foldl_app; cbn; congruence. Qed.

(** The line after some ends have been overwritten: unchanged elsewhere. *)
Lemma store_nuls s l : forall buf, length buf = S (length s) -> Forall (span_ok s) l ->
  length (foldl (fun b a => store_nul a.2 b) buf l) = S (length s) /\
  forall i, foldl (fun b a => store_nul a.2 b) buf l !! i =
    if decide (i ∈ (fun a => place s a.2) <$> l) then Some 0 else buf !! i.
Proof.
  induction l as [|a l IH]; intros buf Hb Hl; cbn [foldl].
  { split; [done|]. intros i. by rewrite decide_False by apply not_elem_of_nil. }
  apply Forall_cons_1 in Hl as [Ha Hl]. assert (length (store_nul a.2 buf) = S (length s)) as Hb'.
  { unfold store_nul. by rewrite length_insert. }
  destruct (IH _ Hb' Hl) as [IH1 IH2]. split; [done|]. intros i. rewrite IH2. cbn [fmap list_fmap].
  assert (length buf - 1 - length a.2 = place s a.2)%nat as Ep by (unfold place; lia).
  unfold store_nul. rewrite Ep. destruct (decide (i ∈ _)) as [Hin|Hnin].
  - by rewrite decide_True by set_solver.
  - destruct (decide (i = place s a.2)) as [->|Hne].
    + rewrite decide_True by set_solver. apply list_lookup_insert_eq. unfold place. lia.
    + rewrite decide_False by set_solver. by rewrite list_lookup_insert_ne.
Qed.

Lemma suffix_lookup (s p : list Z) j : p `suffix_of` s -> s !! (place s p + j)%nat = p !! j.
Proof.
  intros [k ->]. unfold place. rewrite length_app. replace (length k + length p - length p + j)%nat with (length k + j)%nat by lia.
  by rewrite lookup_app_r, Nat.add_sub_swap, Nat.sub_diag by lia.
Qed.

Lemma cstring_read b k w : Forall (fun c => 0 < c) w -> (forall j, (j < length w)%nat -> b !! (k + j)%nat = w !! j) ->
  b !! (k + length w)%nat = Some 0 -> cstring (drop k b) = w.
Proof.
  revert k. induction w as [|x w IH]; intros k Hw Hj He; cbn [length] in *.
  - rewrite Nat.add_0_r in He. by rewrite (drop_S _ _ _ He).
  - apply Forall_cons_1 in Hw as [Hx Hw]. specialize (Hj 0%nat ltac:(lia)) as H0. rewrite Nat.add_0_r in H0. cbn in H0.
    rewrite (drop_S _ _ _ H0). cbn [cstring]. destruct (Z.eqb_spec x 0); [lia|]. f_equal. apply IH; [done| |].
    + intros j Hlt. etransitivity; [|exact (Hj (S j) ltac:(lia))]. f_equal. lia.
    + rewrite <- He. f_equal. lia.
Qed.

Lemma span_word s a : span_ok s a -> exists w, a.1 = w ++ a.2 /\ word a = w.
Proof.
  intros (_ & w & Ew & _). exists w. split; [done|]. unfold word. rewrite Ew, length_app.
  replace (length w + length a.2 - length a.2)%nat with (length w) by lia. apply take_app_length.
Qed.

Lemma span_suffix s a : span_ok s a -> a.2 `suffix_of` s.
Proof. intros (Hs & w & Ew & _). etransitivity; [by exists w|done]. Qed.

(** No end of a word lies inside a word. *)
Lemma ends_outside s a a' j : span_ok s a -> span_ok s a' -> (j < length (word a))%nat ->
  (place s a.1 + j)%nat <> place s a'.2.
Proof.
  intros Ha Ha' Hj E. destruct (span_word _ _ Ha) as (w & Ew & Eww). rewrite Eww in Hj.
  destruct Ha as (Hsuf & w1 & Ew1 & _ & Hw & _). assert (w1 = w) as -> by (by apply (app_inv_tail a.2); congruence).
  destruct (lookup_lt_is_Some_2 w j Hj) as [c Ec].
  assert (s !! (place s a.1 + j)%nat = Some c) as El by (by rewrite suffix_lookup, Ew, lookup_app_l by done).
  apply (Forall_lookup_1 _ _ _ _ Hw) in Ec. rewrite E in El.
  pose proof (suffix_lookup s a'.2 0 (span_suffix _ _ Ha')) as El'. rewrite Nat.add_0_r, El in El'.
  destruct Ha' as (_ & w' & _ & _ & _ & [He|He]); destruct a'.2 as [|x r]; try done.
  injection El' as ->. cbn in He. congruence.
Qed.

Lemma nulterminate_string s c a : Forall (fun c => 0 < c) s -> cmd_ok s c -> a ∈ spans c ->
  string_at s (nulterminate c (s ++ [0])) a = word a.
Proof.
  intros Hs Hc Ha. apply cmd_ok_spans in Hc. rewrite nulterminate_spans.
  destruct (store_nuls s (spans c) (s ++ [0])) as [_ Hl]; [rewrite length_app; cbn; lia|done|].
  pose proof Hc as Hall. rewrite Forall_forall in Hall. pose proof (Hall a Ha) as Hok. destruct (span_word s a Hok) as (w & Ew & Eww).
  destruct Hok as (Hsuf & _). pose proof (suffix_length _ _ Hsuf) as Hlen. rewrite Ew, length_app in Hlen.
  unfold string_at. apply cstring_read.
  - destruct Hsuf as [k Ek]. rewrite Ek, Ew in Hs. apply Forall_app in Hs as [_ Hs]. apply Forall_app in Hs as [Hs _]. by rewrite Eww.
  - intros j Hj. rewrite Hl, decide_False.
    + rewrite Eww in *. rewrite lookup_app_l by (unfold place; rewrite Ew, length_app; lia).
      rewrite suffix_lookup by done. by rewrite Ew, lookup_app_l.
    + intros (a' & E & Ha')%list_elem_of_fmap. by apply (ends_outside s a a' j (Hall a Ha) (Hall a' Ha') Hj).
  - rewrite Hl, decide_True; [done|]. apply list_elem_of_fmap. exists a. split; [|done].
    unfold place. rewrite Ew, Eww, length_app. lia.
Qed.

(** C30: every command line is parsed or refused.  On a line without NUL bytes
    [parsecmd] ends: it stops with a syntax error, or it has consumed the
    whole line and returns a command with fewer than [MAXARGS] arguments per
    program, in which every string, read from the line after [nulterminate]
    as the C string at its start, is exactly a maximal word of the line: the
    NULs that terminate the strings never fall into another string. *)
Theorem parsecmd_correct s :
  Forall (fun c => 0 < c) s ->
  match parsecmd s with
  | Ok (c, buf) p => p = [] /\ cmd_ok s c /\
      forall a, a ∈ spans c -> string_at s buf a = word a /\ word a <> [] /\ Forall (fun x => wordchar x = true) (word a)
  | Panic _ _ => True
  | Diverge _ => False
  end.
Proof.
  intros Hs. change (runs (c ← parseline (parse_fuel s); peek [];; s' ← get;
    if negb (length s' =? 0)%nat then panic "syntax" else mret (c, nulterminate c (s ++ [0]))) s
    (fun r p => let '(c, buf) := r in p = [] /\ cmd_ok s c /\
      forall a, a ∈ spans c -> string_at s buf a = word a /\ word a <> [] /\ Forall (fun x => wordchar x = true) (word a))).
  eapply runs_bind; [apply (parse_runs s Hs); [done|unfold parse_fuel; lia]|]. intros c p (Hp & _ & Hc).
  eapply runs_bind; [by apply (peek_runs s)|]. intros b p1 _. apply runs_get.
  destruct (Nat.eqb_spec (length p1) 0) as [E|]; [|done]. apply runs_ret. split_and!; [by apply nil_length_inv|done|].
  intros a Ha. split; [by apply nulterminate_string|]. apply cmd_ok_spans in Hc. rewrite Forall_forall in Hc.
  specialize (Hc a Ha). destruct (span_word s a Hc) as (w & Ew & ->). destruct Hc as (_ & w' & Ew' & Hne & Hw & _).
  assert (w' = w) as -> by (by apply (app_inv_tail a.2); congruence). done.
Qed.
