(* ===== verification/XShSpec.v ===== *)
(** reference/xv6-riscv/user/sh.c: what the parser accepts.

    [acmd] is a command with its strings; [print] writes it as a line, with
    parentheses where the grammar needs them.  The parser reads every printed
    command back, so that it implements the precedences of the shell: [|]
    binds tighter than [&], [&] tighter than [;], and redirections belong to
    the program or the parentheses before them. *)

From Stdlib Require Import ZArith Lia.
From stdpp Require Import base strings numbers gmap list.
From S2P Require Import Prelude Vm Printf Ulib XSh.

Inductive acmd : Type :=
| AExec (argv : list (list Z))
| ARedir (c : acmd) (file : list Z) (mode fd : Z)
| APipe (left right : acmd)
| AList (left right : acmd)
| ABack (c : acmd).

Fixpoint read (c : cmd) : acmd :=
  match c with
  | EXEC argv => AExec (word <$> argv)
  | REDIR c file mode fd => ARedir (read c) (word file) mode fd
  | PIPE l r => APipe (read l) (read r)
  | LIST l r => AList (read l) (read r)
  | BACK c => ABack (read c)
  end.

Definition word_ok (w : list Z) : Prop := w <> [] /\ Forall (fun c => wordchar c = true /\ 0 < c) w.

(** The redirections of the grammar: [<], [>] and [>>]. *)
Definition redir_ok (mode fd : Z) : Prop := (mode, fd) ∈ [(0, 0); (1537, 1); (513, 1)].

Fixpoint acmd_ok (c : acmd) : Prop :=
  match c with
  | AExec argv => Forall word_ok argv /\ (length argv < MAXARGS)%nat
  | ARedir c file mode fd => acmd_ok c /\ word_ok file /\ redir_ok mode fd
  | APipe l r | AList l r => acmd_ok l /\ acmd_ok r
  | ABack c => acmd_ok c
  end.

(** * Tokens *)

Inductive tok : Type := TW (w : list Z) | TS (c : Z) | TApp.

Definition text (t : tok) : list Z := match t with TW w => w | TS c => [c] | TApp => [62; 62] end.
Definition code (t : tok) : Z := match t with TW _ => 97 | TS c => c | TApp => 43 end.
Definition tok_ok (t : tok) : Prop := match t with TW w => word_ok w | TS c => c ∈ symbols | TApp => True end.

(** A line: every token and a blank. *)
Definition render (ts : list tok) : list Z := concat ((fun t => text t ++ [32]) <$> ts).

Definition redir_tok (mode : Z) : tok := if mode =? 0 then TS 60 else if mode =? 1537 then TS 62 else TApp.

(** 3: program or parentheses, 2: pipeline, 1: with [&], 0: line. *)
Definition prec (c : acmd) : nat :=
  match c with AExec _ | ARedir _ _ _ _ => 3 | APipe _ _ => 2 | ABack _ => 1 | AList _ _ => 0 end.
Definition wrap (lvl : nat) (c : acmd) (ts : list tok) : list tok :=
  if (prec c <? lvl)%nat then TS 40 :: ts ++ [TS 41] else ts.

Fixpoint body (c : acmd) : list tok :=
  match c with
  | AExec argv => TW <$> argv
  | ARedir c file mode _ => wrap 3 c (body c) ++ [redir_tok mode; TW file]
  | APipe l r => wrap 3 l (body l) ++ TS 124 :: wrap 2 r (body r)
  | ABack c => wrap 1 c (body c) ++ [TS 38]
  | AList l r => wrap 1 l (body l) ++ TS 59 :: body r
  end.

Definition print (c : acmd) : list Z := render (body c).

(** * The tokenizer on a rendered line *)

Lemma render_cons t ts : render (t :: ts) = text t ++ 32 :: render ts.
Proof. unfold render. cbn. by rewrite <- app_assoc. Qed.

Lemma text_head t : tok_ok t -> exists c r, text t = c :: r /\ mem_str whitespace c = false /\ c <> 0.
Proof.
  destruct t as [w|c|]; cbn [tok_ok text].
  - intros [Hne Hw]. destruct w as [|c r]; [done|]. apply Forall_cons_1 in Hw as [[Hc ?] _]. exists c, r.
    split_and!; [done| |lia]. unfold wordchar in Hc. by destruct (mem_str whitespace c).
  - intros Hc. exists c, []. unfold symbols in Hc. rewrite !elem_of_cons, elem_of_nil in Hc.
    destruct_or? Hc; subst; done.
  - intros _. by exists 62, [62].
Qed.

Lemma skip_ws_render ts : Forall tok_ok ts -> skip_ws (render ts) = render ts.
Proof.
  destruct ts as [|t ts]; [done|]. intros [Ht _]%Forall_cons_1. rewrite render_cons.
  destruct (text_head t Ht) as (c & r & -> & Hc & _). cbn [app skip_ws]. by rewrite Hc.
Qed.

Lemma skip_word_text w r : Forall (fun c => wordchar c = true /\ 0 < c) w -> skip_word (w ++ 32 :: r) = 32 :: r.
Proof.
  induction w as [|c w IH]; cbn [app skip_word]; [done|]. intros [[Hc _] Hw]%Forall_cons_1.
  unfold wordchar in Hc. rewrite Hc. by apply IH.
Qed.

Lemma gettoken_tok t ts : tok_ok t -> Forall tok_ok ts ->
  gettoken (render (t :: ts)) = Ok (code t, render (t :: ts), 32 :: render ts) (render ts).
Proof.
  intros Ht Hts. unfold gettoken. rewrite bind_get. rewrite (skip_ws_render (t :: ts)) by by constructor.
  cbv zeta. rewrite render_cons. assert (skip_ws (32 :: render ts) = render ts) as Ek by (by apply skip_ws_render).
  destruct (text_head t Ht) as (c & r & Et & _ & Hc). destruct t as [w|c'|]; cbn [text code] in *.
  - rewrite Et. cbn [app deref]. destruct (Z.eqb_spec c 0); [done|].
    destruct Ht as [_ Hw]. rewrite Et in Hw. pose proof Hw as [[Hwc _] _]%Forall_cons_1.
    assert (c ∉ symbols) as Hs.
    { unfold wordchar in Hwc. rewrite !mem_str_elem in Hwc. apply andb_true_iff in Hwc as [_ Hwc].
      by apply negb_true_iff, bool_decide_eq_false in Hwc. }
    assert (mem_str [124; 40; 41; 59; 38; 60] c = false) as ->.
    { rewrite mem_str_elem. apply bool_decide_eq_false. unfold symbols in Hs. set_solver. }
    destruct (Z.eqb_spec c 62) as [->|]; [unfold symbols in Hs; set_solver|].
    pose proof (skip_word_text (c :: r) (render ts) Hw) as Esw. cbn [app] in Esw. rewrite Esw.
    rewrite bind_put. by rewrite Ek.
  - cbn [tok_ok] in Ht. unfold symbols in Ht. rewrite !elem_of_cons, elem_of_nil in Ht.
    destruct_or? Ht; subst c'; cbn -[skip_ws render]; rewrite ?Ek; try done.
  - cbn -[skip_ws render]. by rewrite Ek.
Qed.

Lemma gettoken_nil : gettoken [] = Ok (0, [], []) [].
Proof. done. Qed.

Lemma word_span w ts : word (render (TW w :: ts), 32 :: render ts) = w.
Proof.
  unfold word. cbn [fst snd]. rewrite render_cons. cbn [text]. rewrite length_app. cbn [length].
  replace (length w + S (length (render ts)) - S (length (render ts)))%nat with (length w) by lia. apply take_app_length.
Qed.

(** The first token is a symbol of [toks]. *)
Definition starts (toks : list Z) (ts : list tok) : bool :=
  match ts with TS c :: _ => mem_str toks c | TApp :: _ => mem_str toks 62 | _ => false end.

Lemma peek_tok toks ts : Forall tok_ok ts -> (forall c, c ∈ toks -> c ∈ symbols) ->
  peek toks (render ts) = Ok (starts toks ts) (render ts).
Proof.
  intros Hts Hsym. unfold peek. rewrite bind_modify, bind_get. rewrite skip_ws_render by done. f_equal.
  destruct ts as [|t ts]; [done|]. apply Forall_cons_1 in Hts as [Ht _]. rewrite render_cons.
  destruct (text_head t Ht) as (c & r & Et & _ & Hc). rewrite Et. cbn [app deref].
  destruct (Z.eqb_spec c 0); [done|]. cbn [negb andb]. destruct t as [w|c'|]; cbn [starts text] in *.
  - subst w. destruct Ht as [_ [[Hw _] _]%Forall_cons_1]. rewrite mem_str_elem. apply bool_decide_eq_false.
    intros Hin%Hsym. unfold wordchar in Hw. rewrite !mem_str_elem, (bool_decide_eq_true_2 (c ∈ symbols)) in Hw by done.
    by rewrite andb_false_r in Hw.
  - by injection Et as <- <-.
  - by injection Et as <- <-.
Qed.

(** * The parser on a rendered line *)

(** What may follow: the end, or a symbol of [cs]. *)
Definition stop (cs : list Z) (rest : list tok) : Prop :=
  match rest with [] => True | TS c :: _ => c ∈ cs | _ => False end.

Lemma peek_stop toks cs rest : Forall tok_ok rest -> (forall c, c ∈ toks -> c ∈ symbols) -> stop cs rest ->
  Forall (fun c => mem_str toks c = false) cs -> peek toks (render rest) = Ok false (render rest).
Proof.
  intros Hok Hsym Hst Hcs. rewrite peek_tok by done. do 2 f_equal. destruct rest as [|[|c|] rest]; cbn in *; try done.
  rewrite Forall_forall in Hcs. by apply Hcs.
Qed.

Lemma stop_weaken cs cs' rest : stop cs rest -> cs ⊆ cs' -> stop cs' rest.
Proof. destruct rest as [|[|c|] rest]; cbn; set_solver. Qed.

Definition syms (toks : list Z) : Prop := forall c, c ∈ toks -> c ∈ symbols.
Ltac syms := unfold symbols; set_solver.

Lemma render_len t ts : (length (render ts) < length (render (t :: ts)))%nat.
Proof. rewrite render_cons, length_app. cbn. lia. Qed.
Lemma render_app_len ts ts' : (length (render ts') <= length (render (ts ++ ts')))%nat.
Proof. induction ts as [|t ts IH]; [done|]. cbn [app]. pose proof (render_len t (ts ++ ts')). lia. Qed.

(** ** Redirections *)

Definition rtoks (rs : list (list Z * Z * Z)) : list tok :=
  concat ((fun r => [redir_tok r.1.2; TW r.1.1]) <$> rs).
Definition rs_ok (rs : list (list Z * Z * Z)) : Prop :=
  Forall (fun r => word_ok r.1.1 /\ redir_ok r.1.2 r.2) rs.
Definition same_redirs (rs : list (list Z * Z * Z)) (rs' : list (span * Z * Z)) : Prop :=
  (fun r => (word r.1.1, r.1.2, r.2)) <$> rs' = rs.

Lemma rtoks_ok rs : rs_ok rs -> Forall tok_ok (rtoks rs).
Proof.
  induction 1 as [|r rs [Hw Hr] _ IH]; [constructor|]. cbn. constructor; [|by constructor].
  unfold redir_tok. repeat case_match; cbn; [syms..|done].
Qed.

Definition redir_follow : list Z := [41; 59; 38; 124].

Lemma redirs_loop_tok rs : forall f rest, rs_ok rs -> Forall tok_ok rest ->
  starts [60; 62] rest = false -> (length (render (rtoks rs ++ rest)) < f)%nat ->
  exists rs', parseredirs_loop f (render (rtoks rs ++ rest)) = Ok rs' (render rest) /\ same_redirs rs rs'.
Proof.
  induction rs as [|[[w mode] fd] rs IH]; intros f rest Hrs Hrest Hst Hf.
  - destruct f as [|f]; [lia|]. exists []. split; [|done]. cbn [parseredirs_loop rtoks fmap list_fmap concat app].
    by mrun (peek_tok [60; 62] rest Hrest ltac:(syms)); rewrite Hst.
  - apply Forall_cons_1 in Hrs as [[Hw Hr] Hrs]. destruct f as [|f]; [lia|]. cbn [fst snd] in Hw, Hr.
    change (rtoks ((w, mode, fd) :: rs) ++ rest) with (redir_tok mode :: TW w :: rtoks rs ++ rest) in *.
    pose proof (render_len (redir_tok mode) (TW w :: rtoks rs ++ rest)).
    pose proof (render_len (TW w) (rtoks rs ++ rest)).
    destruct (IH f rest Hrs Hrest Hst ltac:(lia)) as (rs' & E & Hs).
    assert (Forall tok_ok (rtoks rs ++ rest)) as Hok by (apply Forall_app; split; [by apply rtoks_ok|done]).
    assert (tok_ok (redir_tok mode)) as Ht by (unfold redir_tok; repeat case_match; cbn; [syms..|done]).
    assert (Forall tok_ok (redir_tok mode :: TW w :: rtoks rs ++ rest)) as Hok2 by (constructor; [done|by constructor]).
    cbn [parseredirs_loop]. mrun (peek_tok [60; 62] _ Hok2 ltac:(syms)).
    assert (starts [60; 62] (redir_tok mode :: TW w :: rtoks rs ++ rest) = true) as ->
      by (unfold redir_tok; by repeat case_match).
    mrun (gettoken_tok (redir_tok mode) (TW w :: rtoks rs ++ rest) Ht ltac:(by constructor)). cbv beta iota.
    mrun (gettoken_tok (TW w) (rtoks rs ++ rest) Hw Hok). cbv beta iota. cbn [code]. change (97 =? 97) with true. cbn [negb].
    mrun E. eexists. split; [reflexivity|]. unfold same_redirs in *. rewrite fmap_app, Hs.
    assert (forall m x, (fun r : span * Z * Z => (word r.1.1, r.1.2, r.2)) <$>
      [((render (TW w :: rtoks rs ++ rest), 32 :: render (rtoks rs ++ rest)), m, x)] = [(w, m, x)]) as Hone.
    { intros m x. cbn [fmap list_fmap fst snd]. by rewrite word_span. }
    unfold redir_ok in Hr. rewrite !elem_of_cons, elem_of_nil in Hr. destruct_or? Hr; simplify_eq; cbn -[render word fmap];
      rewrite Hone; done.
Qed.

Lemma redirs_tok rs rest : rs_ok rs -> Forall tok_ok rest -> starts [60; 62] rest = false ->
  exists rs', redirs (render (rtoks rs ++ rest)) = Ok rs' (render rest) /\ same_redirs rs rs'.
Proof. intros. unfold redirs. rewrite bind_get. apply redirs_loop_tok; try done. lia. Qed.

Definition aredirs (c : acmd) (rs : list (list Z * Z * Z)) : acmd :=
  foldl (fun c r => ARedir c r.1.1 r.1.2 r.2) c rs.

Lemma read_redirs rs' : forall rs c, same_redirs rs rs' -> read (foldl redircmd c rs') = aredirs (read c) rs.
Proof.
  induction rs' as [|r rs' IH]; intros rs c Hs; unfold same_redirs in Hs; cbn in Hs; subst rs; [done|].
  cbn [foldl]. by rewrite (IH _ _ eq_refl).
Qed.

(** ** Programs *)

Lemma exec_loop_tok ws : forall f argv rs0 rs rest,
  Forall word_ok ws -> rs_ok rs -> Forall tok_ok rest -> stop redir_follow rest ->
  (length argv + length ws < MAXARGS)%nat -> (ws = [] -> rs = []) ->
  (length (render ((TW <$> ws) ++ rtoks rs ++ rest)) < f)%nat ->
  exists argv' rs', parseexec_loop f argv rs0 (render ((TW <$> ws) ++ rtoks rs ++ rest)) =
      Ok (foldl redircmd (EXEC argv') (rs0 ++ rs')) (render rest) /\
    word <$> argv' = (word <$> argv) ++ ws /\ same_redirs rs rs'.
Proof.
  induction ws as [|w ws IH]; intros f argv rs0 rs rest Hws Hrs Hrest Hst Hn He Hf; (destruct f as [|f]; [lia|]).
  - rewrite He by done. exists argv, []. rewrite !app_nil_r. split; [|done].
    cbn [fmap list_fmap app rtoks concat parseexec_loop].
    mrun (peek_tok [124; 41; 38; 59] rest Hrest ltac:(syms)).
    destruct rest as [|[|c|] rest]; cbn [starts]; try done.
    cbn in Hst. rewrite mem_str_elem, bool_decide_eq_true_2; [done|]. unfold redir_follow in Hst. set_solver.
  - apply Forall_cons_1 in Hws as [Hw Hws]. cbn [fmap list_fmap app] in Hf |- *.
    set (ts := (TW <$> ws) ++ rtoks rs ++ rest) in *. pose proof (render_len (TW w) ts).
    assert (Forall tok_ok ((TW <$> ws) ++ rtoks rs ++ rest)) as Hok.
    { apply Forall_app. split; [by apply Forall_fmap|]. apply Forall_app. split; [by apply rtoks_ok|done]. }
    fold ts in Hok. cbn [parseexec_loop]. assert (Forall tok_ok (TW w :: ts)) as Hok2 by by constructor.
    mrun (peek_tok [124; 41; 38; 59] _ Hok2 ltac:(syms)). cbn [starts].
    mrun (gettoken_tok (TW w) ts Hw Hok). cbv beta iota. cbn [code]. change (97 =? 0) with false. change (97 =? 97) with true.
    cbn [negb]. cbv zeta iota. cbn [length] in Hn.
    match goal with |- context [(MAXARGS <=? ?x)%nat] => replace (MAXARGS <=? x)%nat with false
      by (symmetry; apply Nat.leb_gt; rewrite length_app; cbn [length]; lia) end.
    assert (exists rs1 rs2 rs1', rs = rs1 ++ rs2 /\ (ws = [] -> rs2 = []) /\
      redirs (render ts) = Ok rs1' (render ((TW <$> ws) ++ rtoks rs2 ++ rest)) /\ same_redirs rs1 rs1' /\
      (length (render ((TW <$> ws) ++ rtoks rs2 ++ rest)) <= length (render ts))%nat) as
      (rs1 & rs2 & rs1' & Ers & He2 & Er & Hs1 & Hlen).
    { destruct ws as [|w' ws'].
      - destruct (redirs_tok rs rest Hrs Hrest) as (rs' & E & Hs).
        { destruct rest as [|[|c|] rest']; try done. cbn [starts stop] in Hst |- *. rewrite mem_str_elem. apply bool_decide_eq_false.
          unfold redir_follow in Hst. set_solver. }
        exists rs, [], rs'. rewrite app_nil_r. split_and!; try done. exact (render_app_len (rtoks rs) rest).
      - exists [], rs. destruct (redirs_tok [] ts) as (rs' & E & Hs); [constructor|done|done|].
        exists rs'. split_and!; try done. }
    mrun Er. unfold rs_ok in Hrs. rewrite Ers in Hrs. apply Forall_app in Hrs as [_ Hrs2].
    destruct (IH f (argv ++ [(render (TW w :: ts), 32 :: render ts)]) (rs0 ++ rs1') rs2 rest) as (argv' & rs2' & E & Ha & Hs2);
      try done.
    { rewrite length_app. cbn. lia. }
    { lia. }
    exists argv', (rs1' ++ rs2'). split_and!; [etransitivity; [exact E|by rewrite <- app_assoc]| |].
    + rewrite Ha, fmap_app. cbn [fmap list_fmap]. rewrite word_span. by rewrite <- app_assoc.
    + unfold same_redirs in *. by rewrite Ers, fmap_app, Hs1, Hs2.
Qed.

(** ** The levels of the grammar *)

Lemma wrap_ok lvl c ts : Forall tok_ok ts -> Forall tok_ok (wrap lvl c ts).
Proof.
  intros Hts. unfold wrap. case_match; [|done]. constructor; [cbn; syms|]. apply Forall_app. split; [done|].
  apply Forall_singleton. cbn. syms.
Qed.

Lemma body_ok c : acmd_ok c -> Forall tok_ok (body c).
Proof.
  induction c as [argv|c IH file mode fd|l IHl r IHr|l IHl r IHr|c IH]; cbn [acmd_ok body].
  - intros [Hw _]. by apply Forall_fmap.
  - intros (Hc & Hw & _). apply Forall_app. split; [by apply wrap_ok, IH|]. constructor; [|by constructor].
    unfold redir_tok. repeat case_match; cbn; [syms..|done].
  - intros [Hl Hr]. apply Forall_app. split; [by apply wrap_ok, IHl|]. constructor; [cbn; syms|by apply wrap_ok, IHr].
  - intros [Hl Hr]. apply Forall_app. split; [by apply wrap_ok, IHl|]. constructor; [cbn; syms|by apply IHr].
  - intros Hc. apply Forall_app. split; [by apply wrap_ok, IH|]. apply Forall_singleton. cbn. syms.
Qed.

Definition P_exec (c : acmd) : Prop := forall f rs rest,
  rs_ok rs -> Forall tok_ok rest -> stop redir_follow rest ->
  (4 * length (render (wrap 3 c (body c) ++ rtoks rs ++ rest)) + 2 <= f)%nat ->
  exists c', parseexec f (render (wrap 3 c (body c) ++ rtoks rs ++ rest)) = Ok c' (render rest) /\ read c' = aredirs c rs.
Definition P_pipe (c : acmd) : Prop := forall f rest,
  Forall tok_ok rest -> stop [41; 59; 38] rest -> (4 * length (render (wrap 2 c (body c) ++ rest)) + 3 <= f)%nat ->
  exists c', parsepipe f (render (wrap 2 c (body c) ++ rest)) = Ok c' (render rest) /\ read c' = c.
Definition P_back (c : acmd) : Prop := forall f k rest,
  Forall tok_ok rest -> stop [41; 59] rest ->
  (4 * length (render (wrap 1 c (body c) ++ replicate k (TS 38) ++ rest)) + 3 <= f)%nat ->
  exists c', (c ← parsepipe f; s ← get; back_loop (S (length s)) c)
      (render (wrap 1 c (body c) ++ replicate k (TS 38) ++ rest)) = Ok c' (render rest) /\
    read c' = Nat.iter k ABack c.
Definition P_line (c : acmd) : Prop := forall f rest,
  Forall tok_ok rest -> stop [41] rest -> (4 * length (render (body c ++ rest)) + 4 <= f)%nat ->
  exists c', parseline f (render (body c ++ rest)) = Ok c' (render rest) /\ read c' = c.

Lemma back_loop_tok k : forall f c rest, Forall tok_ok rest -> stop [41; 59] rest ->
  (length (render (replicate k (TS 38) ++ rest)) < f)%nat ->
  back_loop f c (render (replicate k (TS 38) ++ rest)) = Ok (Nat.iter k BACK c) (render rest).
Proof.
  assert (forall k rest, Forall tok_ok rest -> Forall tok_ok (replicate k (TS 38) ++ rest)) as Hok.
  { intros j rest Hr. apply Forall_app. split; [|done]. apply Forall_replicate. cbn. syms. }
  induction k as [|k IH]; intros f c rest Hrest Hst Hf; (destruct f as [|f]; [lia|]); cbn [replicate app back_loop] in *.
  - mrun (peek_stop [38] _ rest Hrest ltac:(syms) Hst ltac:(by repeat constructor)). done.
  - pose proof (Hok (S k) rest Hrest) as Hk. cbn [replicate app] in Hk.
    mrun (peek_tok [38] _ Hk ltac:(syms)). change (starts [38] _) with true. cbv iota.
    mrun (gettoken_tok (TS 38) _ ltac:(cbn; syms) (Hok k rest Hrest)).
    rewrite IH; [|done|done|pose proof (render_len (TS 38) (replicate k (TS 38) ++ rest)); lia].
    by rewrite Nat.iter_succ_r.
Qed.

Lemma read_iter k c : read (Nat.iter k BACK c) = Nat.iter k ABack (read c).
Proof. induction k as [|k IH]; [done|]. rewrite !Nat.iter_succ. cbn [read]. by rewrite IH. Qed.

Lemma exec_pipe c : wrap 2 c (body c) = wrap 3 c (body c) -> P_exec c -> P_pipe c.
Proof.
  intros Ew HE f rest Hrest Hst Hf. destruct f as [|f]; [lia|]. rewrite Ew in *. cbn [parsepipe].
  destruct (HE f [] rest) as (c' & E & Hr); try done.
  { constructor. }
  { eapply stop_weaken; [exact Hst|]. unfold redir_follow. set_solver. }
  { cbn [rtoks fmap list_fmap concat app]. lia. }
  mrun E. mrun (peek_stop [124] _ rest Hrest ltac:(syms) Hst ltac:(by repeat constructor)). by exists c'.
Qed.

Lemma pipe_back c : wrap 1 c (body c) = wrap 2 c (body c) -> P_pipe c -> P_back c.
Proof.
  intros Ew HP f k rest Hrest Hst Hf. rewrite Ew in *.
  destruct (HP f (replicate k (TS 38) ++ rest)) as (c' & E & Hr); try done.
  { apply Forall_app. split; [|done]. apply Forall_replicate. cbn. syms. }
  { destruct k; cbn; [eapply stop_weaken; [exact Hst|]|]; set_solver. }
  mrun E. rewrite bind_get. rewrite back_loop_tok by (done || lia).
  eexists. split; [done|]. by rewrite read_iter, Hr.
Qed.

(** [parseline] as a pipeline with its [&]s, and the rest. *)
Lemma parseline_S f p : parseline (S f) p =
  ((c ← parsepipe f; s ← get; back_loop (S (length s)) c) ≫= fun c =>
     b ← peek [59];
     if (b : bool) then gettoken;; r ← parseline f; mret (LIST c r) else mret c) p.
Proof. cbn [parseline]. unfold mbind, M_bind, get. by destruct (parsepipe f p). Qed.

Lemma back_line c : prec c <> 0%nat -> P_back c -> P_line c.
Proof.
  intros Hp HB f rest Hrest Hst Hf. destruct f as [|f]; [lia|].
  assert (wrap 1 c (body c) = body c) as Ew by (unfold wrap; by destruct (Nat.ltb_spec (prec c) 1); [lia|]).
  assert (stop [41; 59] rest) as Hst' by (eapply stop_weaken; [exact Hst|set_solver]).
  destruct (HB f 0%nat rest Hrest Hst') as (c' & E & Hr); rewrite Ew in *; [cbn [replicate app]; lia|].
  cbn [replicate app] in E. rewrite parseline_S. mrun E.
  mrun (peek_stop [59] _ rest Hrest ltac:(syms) Hst ltac:(by repeat constructor)). by exists c'.
Qed.

Lemma line_exec c : acmd_ok c -> (prec c < 3)%nat -> P_line c -> P_exec c.
Proof.
  intros Hok Hp HL f rs rest Hrs Hrest Hst Hf. destruct f as [|[|f]]; [lia..|].
  assert (wrap 3 c (body c) = TS 40 :: body c ++ [TS 41]) as Ew by (unfold wrap; by destruct (Nat.ltb_spec (prec c) 3); [|lia]).
  rewrite Ew in *. cbn [app] in *. rewrite <- app_assoc in *. cbn [app] in *.
  set (tail := TS 41 :: rtoks rs ++ rest) in *.
  assert (Forall tok_ok (rtoks rs ++ rest)) as Hok1 by (apply Forall_app; split; [by apply rtoks_ok|done]).
  assert (Forall tok_ok tail) as Hok2 by (constructor; [cbn; syms|done]).
  assert (Forall tok_ok (body c ++ tail)) as Hok3 by (apply Forall_app; split; [by apply body_ok|done]).
  assert (Forall tok_ok (TS 40 :: body c ++ tail)) as Hok4 by (constructor; [cbn; syms|done]).
  pose proof (render_len (TS 40) (body c ++ tail)) as Hlen.
  cbn [parseexec]. mrun (peek_tok [40] _ Hok4 ltac:(syms)). change (starts [40] _) with true. cbv iota.
  cbn [parseblock]. mrun (peek_tok [40] _ Hok4 ltac:(syms)). change (starts [40] _) with true. cbn [negb].
  mrun (gettoken_tok (TS 40) _ ltac:(cbn; syms) Hok3).
  destruct (HL f tail Hok2) as (c' & E & Hr); [cbn; set_solver|lia|]. mrun E.
  mrun (peek_tok [41] _ Hok2 ltac:(syms)). change (starts [41] _) with true. cbn [negb].
  mrun (gettoken_tok (TS 41) _ ltac:(cbn; syms) Hok1). unfold parseredirs.
  destruct (redirs_tok rs rest Hrs Hrest) as (rs' & Er & Hs).
  { destruct rest as [|[|x|] rest']; try done. cbn [starts stop] in Hst |- *. rewrite mem_str_elem. apply bool_decide_eq_false.
    unfold redir_follow in Hst. set_solver. }
  mrun Er. eexists. split; [done|]. by rewrite (read_redirs rs' rs), Hr.
Qed.

Lemma wrap_eq c i j : ((prec c < i)%nat <-> (prec c < j)%nat) -> wrap i c (body c) = wrap j c (body c).
Proof. intros Hij. unfold wrap. destruct (Nat.ltb_spec (prec c) i), (Nat.ltb_spec (prec c) j); (done || lia). Qed.

Lemma exec_exec argv : acmd_ok (AExec argv) -> P_exec (AExec argv).
Proof.
  intros [Hw Hn] f rs rest Hrs Hrest Hst Hf. destruct f as [|f]; [lia|].
  change (wrap 3 (AExec argv) (body (AExec argv))) with (TW <$> argv) in *.
  assert (Forall tok_ok ((TW <$> argv) ++ rtoks rs ++ rest)) as Hok.
  { apply Forall_app. split; [by apply Forall_fmap|]. apply Forall_app. split; [by apply rtoks_ok|done]. }
  cbn [parseexec]. mrun (peek_tok [40] _ Hok ltac:(syms)).
  assert (starts [60; 62] rest = false /\ starts [40] rest = false) as [Hs1 Hs2].
  { destruct rest as [|[|x|] rest']; try done. cbn [starts stop] in Hst |- *. rewrite !mem_str_elem, !bool_decide_eq_false.
    unfold redir_follow in Hst. set_solver. }
  assert (starts [40] ((TW <$> argv) ++ rtoks rs ++ rest) = false) as ->.
  { destruct argv as [|w argv]; [|done]. destruct rs as [|[[w m] fd] rs]; [done|].
    change (starts [40] (redir_tok m :: TW w :: rtoks rs ++ rest) = false). unfold redir_tok. by repeat case_match. }
  destruct argv as [|w argv].
  - destruct (redirs_tok rs rest Hrs Hrest Hs1) as (rs' & Er & Hs). mrun Er. rewrite bind_get.
    destruct (exec_loop_tok [] (S (length (render rest))) [] rs' [] rest) as (argv' & rs2 & E & Ha & Hs'); try done.
    { constructor. }
    { change ((TW <$> []) ++ rtoks [] ++ rest) with rest. lia. }
    cbn [fmap list_fmap app rtoks concat] in E. rewrite E. eexists. split; [done|].
    unfold same_redirs in Hs'. apply fmap_nil_inv in Hs' as ->. rewrite app_nil_r. rewrite (read_redirs rs' rs) by done.
    cbn in Ha |- *. by rewrite Ha.
  - destruct (redirs_tok [] ((TW <$> w :: argv) ++ rtoks rs ++ rest)) as (rs' & Er & Hs); [constructor|done|done|].
    unfold same_redirs in Hs. apply fmap_nil_inv in Hs as ->. mrun Er. rewrite bind_get.
    destruct (exec_loop_tok (w :: argv) (S (length (render ((TW <$> w :: argv) ++ rtoks rs ++ rest)))) [] [] rs rest)
      as (argv' & rs2 & E & Ha & Hs'); try done.
    { lia. }
    rewrite E. eexists. split; [done|]. cbn [app]. rewrite (read_redirs rs2 rs) by done. cbn in Ha |- *. by rewrite Ha.
Qed.

Lemma redir_exec c file mode fd : acmd_ok (ARedir c file mode fd) -> P_exec c -> P_exec (ARedir c file mode fd).
Proof.
  intros (Hc & Hw & Hr) HE f rs rest Hrs Hrest Hst Hf.
  assert (wrap 3 (ARedir c file mode fd) (body (ARedir c file mode fd)) ++ rtoks rs ++ rest =
    wrap 3 c (body c) ++ rtoks ((file, mode, fd) :: rs) ++ rest) as Et.
  { change (wrap 3 (ARedir c file mode fd) (body (ARedir c file mode fd))) with
      (wrap 3 c (body c) ++ [redir_tok mode; TW file]). by rewrite <- app_assoc. }
  rewrite Et in *. destruct (HE f ((file, mode, fd) :: rs) rest) as (c' & E & Hd); try done; [by constructor|].
  by exists c'.
Qed.

Lemma pipe_pipe l r : acmd_ok (APipe l r) -> P_exec l -> P_pipe r -> P_pipe (APipe l r).
Proof.
  intros [Hl Hr] HE HP f rest Hrest Hst Hf. destruct f as [|f]; [lia|].
  change (wrap 2 (APipe l r) (body (APipe l r))) with (wrap 3 l (body l) ++ TS 124 :: wrap 2 r (body r)) in *.
  rewrite <- app_assoc in *. cbn [app] in *. set (t2 := wrap 2 r (body r) ++ rest) in *.
  assert (Forall tok_ok t2) as Hok2 by (apply Forall_app; split; [by apply wrap_ok, body_ok|done]).
  assert (Forall tok_ok (TS 124 :: t2)) as Hok by (constructor; [cbn; syms|done]).
  pose proof (render_app_len (wrap 3 l (body l)) (TS 124 :: t2)). pose proof (render_len (TS 124) t2). cbn [parsepipe].
  destruct (HE f [] (TS 124 :: t2)) as (c1 & E1 & R1); [constructor|done|cbn; unfold redir_follow; set_solver| |].
  { cbn [rtoks fmap list_fmap concat app]. lia. }
  mrun E1. mrun (peek_tok [124] _ Hok ltac:(syms)). change (starts [124] _) with true. cbv iota.
  mrun (gettoken_tok (TS 124) _ ltac:(cbn; syms) Hok2).
  destruct (HP f rest Hrest Hst) as (c2 & E2 & R2); [fold t2; lia|]. mrun E2.
  eexists. split; [done|]. cbn [read]. by rewrite R1, R2.
Qed.

Lemma back_back c : P_back c -> P_back (ABack c).
Proof.
  intros HB f k rest Hrest Hst Hf.
  assert (wrap 1 (ABack c) (body (ABack c)) ++ replicate k (TS 38) ++ rest =
    wrap 1 c (body c) ++ replicate (S k) (TS 38) ++ rest) as Et.
  { change (wrap 1 (ABack c) (body (ABack c))) with (wrap 1 c (body c) ++ [TS 38]). by rewrite <- app_assoc. }
  rewrite Et in *. destruct (HB f (S k) rest Hrest Hst Hf) as (c' & E & Hr). exists c'. split; [done|].
  by rewrite Hr, Nat.iter_succ_r.
Qed.

Lemma list_line l r : acmd_ok (AList l r) -> P_back l -> P_line r -> P_line (AList l r).
Proof.
  intros [Hl Hr] HB HL f rest Hrest Hst Hf. destruct f as [|f]; [lia|].
  change (body (AList l r)) with (wrap 1 l (body l) ++ TS 59 :: body r) in *.
  rewrite <- app_assoc in *. cbn [app] in *. set (t2 := body r ++ rest) in *.
  assert (Forall tok_ok t2) as Hok2 by (apply Forall_app; split; [by apply body_ok|done]).
  assert (Forall tok_ok (TS 59 :: t2)) as Hok by (constructor; [cbn; syms|done]).
  pose proof (render_app_len (wrap 1 l (body l)) (TS 59 :: t2)). pose proof (render_len (TS 59) t2).
  destruct (HB f 0%nat (TS 59 :: t2) Hok) as (c1 & E1 & R1); [cbn; set_solver|cbn [replicate app]; lia|].
  cbn [replicate app] in E1. rewrite parseline_S. mrun E1.
  mrun (peek_tok [59] _ Hok ltac:(syms)). change (starts [59] _) with true. cbv iota.
  mrun (gettoken_tok (TS 59) _ ltac:(cbn; syms) Hok2).
  destruct (HL f rest Hrest Hst) as (c2 & E2 & R2); [fold t2; lia|]. mrun E2.
  eexists. split; [done|]. cbn [read]. rewrite R2. cbn in R1. by rewrite R1.
Qed.

Lemma parse_levels c : acmd_ok c -> P_exec c /\ P_pipe c /\ P_back c /\ P_line c.
Proof.
  induction c as [argv|c IH file mode fd|l IHl r IHr|l IHl r IHr|c IH]; intros Hok.
  - pose proof (exec_exec argv Hok) as HE. assert (P_pipe (AExec argv)) as HP by (by apply exec_pipe).
    assert (P_back (AExec argv)) as HB by (by apply pipe_back). split_and!; try done. by apply back_line.
  - destruct (IH (proj1 Hok)) as (HE1 & _). pose proof (redir_exec _ _ _ _ Hok HE1) as HE.
    assert (P_pipe (ARedir c file mode fd)) as HP by (by apply exec_pipe).
    assert (P_back (ARedir c file mode fd)) as HB by (by apply pipe_back). split_and!; try done. by apply back_line.
  - destruct (IHl (proj1 Hok)) as (HEl & _). destruct (IHr (proj2 Hok)) as (_ & HPr & _).
    pose proof (pipe_pipe _ _ Hok HEl HPr) as HP. assert (P_back (APipe l r)) as HB by (by apply pipe_back).
    assert (P_line (APipe l r)) as HL by (by apply back_line). split_and!; try done.
    apply line_exec; [done|cbn; lia|done].
  - destruct (IHl (proj1 Hok)) as (_ & _ & HBl & _). destruct (IHr (proj2 Hok)) as (_ & _ & _ & HLr).
    pose proof (list_line _ _ Hok HBl HLr) as HL. assert (P_exec (AList l r)) as HE by (apply line_exec; [done|cbn; lia|done]).
    assert (P_pipe (AList l r)) as HP by (by apply exec_pipe). split_and!; try done. by apply pipe_back.
  - destruct (IH Hok) as (_ & _ & HB1 & _). pose proof (back_back _ HB1) as HB.
    assert (P_line (ABack c)) as HL by (by apply back_line).
    assert (P_exec (ABack c)) as HE by (apply line_exec; [done|cbn; lia|done]). split_and!; try done.
    by apply exec_pipe.
Qed.

(** C29: the parser reads every command: a command of programs with at most
    nine words, redirections, pipelines, lists, background commands and
    parentheses, nested to any depth, is read back from its printed form,
    with every string, every redirection mode and the grouping as printed. *)
Theorem parse_print_roundtrip c :
  acmd_ok c ->
  exists c' buf, parsecmd (print c) = Ok (c', buf) [] /\ read c' = c.
Proof.
  intros Hok. destruct (parse_levels c Hok) as (_ & _ & _ & HL).
  destruct (HL (parse_fuel (print c)) []) as (c' & E & Hr); [constructor|done| |].
  { rewrite app_nil_r. unfold print, parse_fuel. lia. }
  rewrite app_nil_r in E. unfold parsecmd. mrun E. eexists _, _. split; [reflexivity|done].
Qed.

Definition demo_cmd : acmd :=
  AList (ABack (APipe (AExec [bytes "ls"; bytes "-l"]) (ARedir (AExec [bytes "wc"]) (bytes "out") 513 1)))
        (ARedir (AList (AExec [bytes "a"]) (AExec [])) (bytes "in") 0 0).

Lemma parse_print_roundtrip_witness :
  print demo_cmd = bytes "ls -l | wc >> out & ; ( a ; ) < in " /\
  exists c' buf, parsecmd (print demo_cmd) = Ok (c', buf) [] /\ read c' = demo_cmd.
Proof.
  split; [reflexivity|]. apply parse_print_roundtrip.
  assert (forall s, forallb (fun c => wordchar c && (0 <? c)) s = true -> s <> [] -> word_ok s) as Hw.
  { intros s Hs Hne. split; [done|]. apply Forall_forall. intros x Hx. rewrite forallb_forall in Hs.
    apply list_elem_of_In, Hs in Hx. apply andb_true_iff in Hx as [? ?%Z.ltb_lt]. done. }
  cbn [acmd_ok demo_cmd]. unfold redir_ok. split_and!;
    try (repeat (apply Forall_cons; split); try apply Forall_nil; try (apply Hw; [reflexivity|discriminate]); done);
    try (apply Nat.ltb_lt; reflexivity); try (apply Hw; [reflexivity|discriminate]); set_solver.
Defined.

Lemma parsecmd_correct_witness :
  exists c buf, parsecmd (bytes "echo hi>f;") = Ok (c, buf) [] /\
    forall a, a ∈ spans c -> string_at (bytes "echo hi>f;") buf a = word a.
Proof.
  pose proof (parsecmd_correct (bytes "echo hi>f;")) as Hp.
  assert (Forall (fun c => 0 < c) (bytes "echo hi>f;")) as Hpos by (repeat constructor).
  destruct (parsecmd (bytes "echo hi>f;")) as [[c buf] p|msg p|p] eqn:E;
    [|exfalso; vm_compute in E; discriminate E..].
  exists c, buf. destruct (Hp Hpos) as (-> & _ & Hs). split; [done|]. intros a Ha. by apply Hs.
Defined.
